(* ===== verification/_CoqProject ===== *)
-Q . S2P
Prelude.v
BytesCodec.v
AddrMangle.v
Nacl.v
SecureStream.v
OsFs.v
PathFacts.v
Compress.v
FileTransfer.v
TransferSafety.v
TransferContent.v
TransferReceive.v
SendTurns.v
FsDirs.v
CmFiles.v
FolderArrives.v
Float32.v
VideoQos.v
TermBuffer.v
TermService.v
Services.v
CodecChoice.v
LoginGuard.v
Messages.v
SessionScope.v
Passwords.v
Hosts.v
Options.v
Rendezvous.v
RendezvousKeys.v
RendezvousTimer.v
PeerRequests.v
ClientJobs.v
ClientConfined.v
ClientDeletes.v
Upload.v
PeerConfig.v
LoginConfig.v
ClientLogin.v
ClientPasswords.v
Connection.v
ConnectionTrace.v
ConnectionSafety.v
ConnectionAuth.v
FileRelay.v
OptionSync.v
ClipDescr.v
ClipServe.v
ClipServed.v
ClipFuse.v
ClipTree.v
ClipHandles.v
ClipMsg.v
ClipPaste.v
ClipText.v
ClipBoards.v
ClipEcho.v
TypedText.v
ClipListener.v
IpcFs.v
IpcSafe.v
IpcAuth.v
IpcHandle.v
IpcServe.v
InputKeys.v
InputSafe.v
InputModifiers.v
CursorService.v
InputMouse.v
