(* ===== verification/Prelude.v ===== *)
(** * UnyDesk client: a verification library (root file)

    UnyDesk is a remote desktop program.  The controlled side keeps itself registered with
    rendezvous servers, lets peers in, checks who they are, and then serves their sessions:
    the desktop, file transfers, terminals, a camera, port forwarding.  The library models
    the parts of the Rust client (src/unydesk-client) in which this is decided.  The build
    is the Linux desktop build with the Flutter interface, in release mode: arithmetic
    wraps, a panic aborts.

    ** The parts, from the network to the desktop

    - [Rendezvous] (src/rendezvous_mediator.rs): one task per server, [udp_step], [udp_run]
      ([start_udp], [start_tcp], [handle_resp], [register_pk], [register_peer]); the requests
      to let a peer in, [handle_request] ([handle_punch_hole], [handle_request_relay],
      [handle_intranet]); the listener for direct access, [direct_turn].
    - [Options] (libs/hbb_common/src/config.rs, src/common.rs, src/ui_interface.rs): the
      settings, the proxy, the identity, the servers and their latencies, the signed
      settings of a custom client.  [Hosts] (libs/hbb_common/src/socket_client.rs): names
      and ports of servers.  [AddrMangle] (libs/hbb_common/src/lib.rs): addresses as they
      travel.
    - [BytesCodec], [SecureStream] (libs/hbb_common/src/bytes_codec.rs, tcp.rs, and the two
      ends of the handshake in src/client.rs and src/server.rs): frames, then frames under a
      key.  [Nacl]: what the cryptographic library promises.
    - [Messages] (libs/hbb_common/protos/message.proto): the messages of a session.
    - [Connection] (src/server/connection.rs): the state of one connection ([Conn]), its
      login, every message of a peer ([on_message]), the requests of the connection manager
      ([on_cm]), its end ([finish]).  It calls [SessionScope] (which messages a session of
      each kind may send), [Passwords] (password_security.rs, config.rs), [LoginGuard]
      (src/server/login_failure_check.rs) and [Options].
    - [PeerConfig] (libs/hbb_common/src/config.rs), [LoginConfig], [ClientLogin]
      (src/client.rs): the controlling side's file of a peer, the options of its session
      ([toggle_option], [get_option_message]) and its login ([initialize], [handle_hash],
      [handle_login_from_ui], [handle_peer_info]).  [ClientPasswords] and [OptionSync] put
      the two sides together.
    - [Services] (src/server/service.rs, src/server.rs): subscriptions of connections to
      audio, video, cursor and clipboard.  [CodecChoice] (libs/scrap/src/common/codec.rs):
      one codec for all peers.  [VideoQos] (src/server/video_qos.rs, over [Float32]): rate
      and quality of the video.
    - [FileTransfer] (libs/hbb_common/src/fs.rs): jobs that read and write files, over the
      file system of [OsFs]; [FsDirs]: listing and changing directories; [CmFiles]
      (src/ui_cm_interface.rs): the file requests as the connection manager serves them;
      [ClientJobs] (src/client/io_loop.rs): the file jobs of the controlling side, one turn
      of its loop being a [step]; [Compress]: payloads.  [Upload] puts the two sides
      together, with the connection between them ([requests_of], [answer_of]) and every
      order of deliveries ([move]); it stands on [SendTurns] (the job that sends) and
      [FolderArrives] (the job that receives).  [FileRelay]: [Connection] is that relay.
    - [TermBuffer], [TermService] (src/server/terminal_service.rs): terminals and the replay
      of their output.
    - Copied files on Linux (libs/clipboard/src/platform/unix, src/clipboard_file.rs):
      [ClipServe] (serv_files.rs, local_file.rs) lists what was copied ([sync_files]) and
      reads ranges of it ([read_file_contents]), [ClipServed] says what it answers;
      [ClipDescr] (local_file.rs, filetype.rs) writes and reads the descriptions of files;
      [ClipFuse] (fuse/cs.rs) is the file system mounted over what the peer described, its
      tree ([build_tree]; theorems in [ClipTree]) and its requests ([lookup], [read],
      [release], ...; [ClipHandles]); [ClipMsg] the messages on both sides and the mounting;
      [ClipPaste] puts both ends together.
    - The clipboard (src/clipboard.rs, src/server/clipboard_service.rs, and its readers in
      src/client.rs, src/flutter.rs and src/server/connection.rs): [ClipText] (contents as
      they travel), [ClipBoards] (what each side reads, sends and puts there, over the class
      [Arboard] of system clipboards), [ClipEcho] (any number of machines, [net_step]),
      [TypedText] (text typed through the clipboard on Wayland, src/server/input_service.rs)
      and [ClipListener] (who is told of a change).
    - Channels between the processes of the program (src/ipc.rs, src/ipc/fs.rs,
      src/ipc/auth.rs): [IpcFs] (directory, socket and process file of a channel, by system
      calls on the file system of [Unix]), [IpcSafe] (what other users of the machine can do
      to it, [attack]), [IpcAuth] (who is let in, and whose channel is used), [IpcHandle]
      (every message of the process that keeps the settings, [handle]) and [IpcServe] (the
      loop that serves connections, [serve]).
    - Input on the controlled side (src/server/input_service.rs): [InputKeys] (a key event of
      a peer, [handle_key_], in each of the modes of the keyboard, over the class
      [KeyboardControllable] of keyboards; the record of the keys that are down and its
      check), [InputMouse] (the mouse), [InputSafe] and [InputModifiers] (what holds on X11);
      [CursorService]: the services of the cursor, its position and the focus.

    The composition is that of the code: a frame that [SecureStream] accepts is a message
    that [Connection] handles; a file request leaves it as an effect that [CmFiles] serves
    with the jobs of [FileTransfer]; a login calls the guard, the passwords and the scope.

    ** How the code is translated

    A function is a Rocq function with the branches and the order of the source.  State that
    is shared or mutated is passed explicitly; where many calls thread it, they run in a
    small state and error monad ([ST], below).  A call that leaves the part is an output,
    recorded in order ([Effect] in [Connection], [Output] in [Rendezvous] and [Services], a
    list of messages in [CmFiles]); what the system answers to it is an argument of the
    operation ([Env], [World], [Net]), over which every theorem quantifies.  Integers are
    [Z] with their wrap-around written out ([wrap], [swrap]), texts are [string] or their
    UTF-8 bytes, maps are [gmap]; where the code walks a hash map the order is an argument.
    Libraries outside of the repository (libsodium, zstd, SHA-256, base64, proto parsers)
    are parameters, and what the code relies on are named laws, each with an instance that
    has them ([Nacl], [Compress.ZstdLaws], [Passwords.CryptoLaws]).

    ** What the theorems show

    - A session is confined to its kind and its permissions, over all sequences of messages
      ([ConnectionSafety]); a connection becomes authorized only by a proof of identity, and
      is of the kind that was asked for and permitted ([ConnectionAuth]); it ends once and
      cleanly, and the peer knows its permissions ([ConnectionTrace]).
    - Frames and encrypted streams are queues of messages whatever the network does to the
      pieces, and the handshake gives both ends one key, of the peer that was asked for
      ([BytesCodec], [SecureStream]).
    - A received file is the file that was sent ([TransferContent], [TransferReceive]), and
      a hostile sender changes nothing outside of the job's directory ([TransferSafety],
      [CmFiles]), nor of the places the user named for a download ([ClientConfined]);
      listings are exact and removing directories deletes no file ([FsDirs]); a folder that
      is deleted loses exactly the files that were shown ([ClientDeletes]).
    - A folder that is uploaded is on the server once that is shown, under every schedule
      of the messages, and that it is shown comes about ([Upload], [FileRelay]).
    - Guesses of passwords are bounded ([LoginGuard]); only the password opens ([Passwords]).
    - A password that was remembered opens the next session and a shared one is not kept
      ([ClientPasswords]); what is kept of a peer survives its file ([PeerConfig]); whatever
      options are toggled, the controlled side is as a fresh login would make it
      ([OptionSync]).
    - The server is a set of subscribers per service ([Services]); the codec in use is one
      that the peers decode ([CodecChoice]); the rate control never panics and stays in its
      bounds ([VideoQos]).
    - A terminal's output arrives once and in order, survives a reconnection, and no child
      process is forgotten ([TermBuffer], [TermService]).
    - A read of a pasted file gets the bytes of the copied one ([ClipPaste]), pasted files
      are where their descriptions say and nowhere else ([ClipTree]), the server of the
      mounted files is one table of handles ([ClipHandles]), and no bytes from the peer
      crash the parser of descriptions ([ClipDescr]).
    - What one machine puts on another's clipboard is never sent on, so that no text goes
      round in circles, and what is copied is put there as it was ([ClipEcho]); text that
      was typed is not sent back ([TypedText]).
    - When the start of a channel succeeds its directory and socket are out of reach of all
      other users, whatever they did meanwhile ([IpcSafe]); on the channel of the root
      service only authorized processes exchange configurations, and nothing else
      ([IpcServe]); a change of sides is granted once ([IpcServe]).
    - No key that a peer pressed stays down when its session is over or silent
      ([InputSafe]); a key is typed with the modifiers of its event and the locks are put
      back ([InputModifiers]); every peer shows the cursor of the display and is sent each
      image once ([CursorService]).
    - No server is told of the presence of the program before it has confirmed its key
      ([RendezvousKeys]), silence is noticed in bounded time ([RendezvousTimer]), and every
      request lets exactly one connection in ([PeerRequests]); settings that are forced hold
      and a written setting is read back ([Options]).
    - Where the code does something else than it means to, an [Example] or a theorem shows
      it; these stand at the end of the files.

    ** Fuel and bounds

    Recursion follows the data wherever the code's does.  Four loops have fuel: [drain]
    (calls of the decoder: two more than the bytes there are, each call consumes some),
    [fill] (reads of one block: one more than its size, a read returns a byte or ends it),
    the recursions of [FsDirs] (levels below a directory), and [follow] (symbolic links: 40,
    the limit of the system).  Theorems show that the fuel given suffices: the operation
    returns, never only that a result that is returned is right.  The rounds of a timer are
    [ticks], and theorems say how many are enough.  Machine limits are in the definitions
    (the size of a frame, 30 failures per address, 3 to 30 seconds between registrations).

    ** Not modelled

    What talks to the operating system or to a device: capture, encoders, audio, windows, sockets, name resolution; code for other platforms (the clipboards,
    the channels and the injection of input of Windows and macOS among it); user interfaces, plugins and translations;
    the display of the controlling side and the jobs it keeps for its next session; the HTTP
    client of the account server.  Their answers are arguments of the operations that wait
    for them.  Of the parts that are modelled: the JSON of the logs, the write-behind buffer of
    a file, symbolic links in the middle of a path ([OsFs] resolves the last component), the
    timers of a connection. *)

From Stdlib Require Import ZArith Lia Bool.
From Stdlib Require Import Ascii.
From Stdlib Require Export Strings.Byte.
From stdpp Require Export base tactics option list gmap strings.

#[global] Open Scope Z_scope.

(** ** Rust's [Result] *)

Inductive result (E A : Type) : Type :=
| Ok (a : A)
| Err (e : E).
Arguments Ok {E A} a.
Arguments Err {E A} e.

Declare Scope rust_scope.
Delimit Scope rust_scope with rust.

Definition rbind {E A B : Type} (r : result E A) (k : A -> result E B) : result E B :=
  match r with
  | Ok a => k a
  | Err e => Err e
  end.

(** [let? x := e in k] is Rust's [let x = e?; k]. *)
Notation "'let?' x := e 'in' k" := (rbind e (fun x => k))
  (at level 10, x pattern, e at level 200, k at level 200,
   format "'[v' 'let?'  x  :=  e  'in' '/' k ']'") : rust_scope.
#[global] Open Scope rust_scope.

Definition is_ok {E A : Type} (r : result E A) : bool :=
  match r with Ok _ => true | Err _ => false end.

(** [Result::ok]. *)
Definition ok {E A : Type} (r : result E A) : option A :=
  match r with Ok a => Some a | Err _ => None end.

(** ** State and errors

    [ST E S A] is a computation on a state [S] that may fail with an [E]; as in
    Rust, what was done to the state before a failure stays done. *)

Definition ST (E S A : Type) : Type := S -> result E A * S.

Section ST.
Context {E S : Type}.

Definition st_ret {A} (a : A) : ST E S A := fun s => (Ok a, s).
Definition st_fail {A} (e : E) : ST E S A := fun s => (Err e, s).
Definition st_bind {A B} (m : ST E S A) (k : A -> ST E S B) : ST E S B := fun s =>
  match m s with
  | (Ok a, s) => k a s
  | (Err e, s) => (Err e, s)
  end.
Definition st_get : ST E S S := fun s => (Ok s, s).
Definition st_modify (f : S -> S) : ST E S unit := fun s => (Ok tt, f s).
(** Run a fallible pure expression ([e?]). *)
Definition st_lift {A} (r : result E A) : ST E S A := fun s => (r, s).
(** [e.ok()]: the failure is dropped, the effects are kept. *)
Definition st_ok {A} (m : ST E S A) : ST E S (option A) := fun s =>
  let '(r, s) := m s in (Ok (ok r), s).
(** The [Result] itself, for code that matches on it. *)
Definition st_try {A} (m : ST E S A) : ST E S (result E A) := fun s =>
  let '(r, s) := m s in (Ok r, s).
End ST.

(** A sequence succeeds when both halves do. *)
Lemma st_bind_ok {E S A B} (m : ST E S A) (k : A -> ST E S B) s b s' :
  st_bind m k s = (Ok b, s') ->
  exists a s1, m s = (Ok a, s1) /\ k a s1 = (Ok b, s').
Proof.
  unfold st_bind. destruct (m s) as [[a|err] s1]; intros H; [eauto|done].
Qed.

#[export] Instance st_mret {E S} : MRet (ST E S) := fun A => @st_ret E S A.
#[export] Instance st_mbind {E S} : MBind (ST E S) := fun A B k m => @st_bind E S A B m k.

(** ** Machine integers: a [w]-bit unsigned integer is a [Z]; [as uN] wraps. *)

Definition wrap (w z : Z) : Z := z mod 2 ^ w.
Abbreviation as_u8 := (wrap 8).
Abbreviation as_u16 := (wrap 16).
Abbreviation as_u32 := (wrap 32).
Abbreviation as_u64 := (wrap 64).
Abbreviation as_u128 := (wrap 128).

(** Two's complement reading of the low [w] bits: [as iN]. *)
Definition swrap (w z : Z) : Z :=
  let u := z mod 2 ^ w in if u <? 2 ^ (w - 1) then u else u - 2 ^ w.
Abbreviation as_i32 := (swrap 32).
Abbreviation as_i64 := (swrap 64).

Definition USIZE_MAX : Z := 2 ^ 64 - 1.

(** ** Bytes *)

Definition u8_to_Z (b : byte) : Z := Z.of_N (Byte.to_N b).
Definition u8_of_Z (z : Z) : byte :=
  match Byte.of_N (Z.to_N (as_u8 z)) with Some b => b | None => x00 end.

(** [slice::len] as an integer. *)
Definition len {A : Type} (l : list A) : Z := Z.of_nat (length l).

#[export] Instance byte_eq_dec : EqDecision byte := Byte.byte_eq_dec.

(** ** Tactics and hints *)

Create HintDb rust discriminated.
Create Rewrite HintDb len.

(** [lia] with the defining equations of [/] and [mod]. *)
Ltac zlia := Z.to_euclidean_division_equations; lia.

(** Split every [if]/[match] of the goal, keeping the equations. *)
Ltac split_ifs :=
  repeat match goal with
  | |- context [if ?b then _ else _] => destruct b eqn:?
  end.

(** Turn the boolean comparisons of the context into propositions. *)
Ltac to_prop :=
  repeat match goal with
  | H : (_ && _) = true |- _ => apply andb_true_iff in H as [? ?]
  | H : (_ && _) = false |- _ => apply andb_false_iff in H
  | H : (_ || _) = false |- _ => apply orb_false_iff in H as [? ?]
  | H : (_ || _) = true |- _ => apply orb_true_iff in H
  | H : negb _ = true |- _ => apply negb_true_iff in H
  | H : negb _ = false |- _ => apply negb_false_iff in H
  | H : (_ <? _) = true |- _ => apply Z.ltb_lt in H
  | H : (_ <? _) = false |- _ => apply Z.ltb_ge in H
  | H : (_ <=? _) = true |- _ => apply Z.leb_le in H
  | H : (_ <=? _) = false |- _ => apply Z.leb_gt in H
  | H : (_ =? _) = true |- _ => apply Z.eqb_eq in H
  | H : (_ =? _) = false |- _ => apply Z.eqb_neq in H
  end.

(** ** Lemmas on lengths, wrapping and bytes *)

Lemma len_nil {A} : len (@nil A) = 0.
Proof. done. Qed.

Lemma len_cons {A} (x : A) l : len (x :: l) = 1 + len l.
Proof. unfold len. simpl. lia. Qed.

Lemma len_app {A} (l k : list A) : len (l ++ k) = len l + len k.
Proof. unfold len. rewrite length_app. lia. Qed.

Lemma len_nonneg {A} (l : list A) : 0 <= len l.
Proof. unfold len. lia. Qed.

Lemma len_take {A} (n : nat) (l : list A) : len (take n l) = Z.min (Z.of_nat n) (len l).
Proof. unfold len. rewrite length_take. lia. Qed.

Lemma len_drop {A} (n : nat) (l : list A) : len (drop n l) = Z.max 0 (len l - Z.of_nat n).
Proof. unfold len. rewrite length_drop. lia. Qed.

#[export] Hint Rewrite @len_nil @len_cons @len_app @len_take @len_drop : len.
#[export] Hint Resolve len_nonneg : rust.

Lemma wrap_small w z : 0 <= z < 2 ^ w -> wrap w z = z.
Proof. apply Z.mod_small. Qed.

Lemma wrap_range w z : 0 <= w -> 0 <= wrap w z < 2 ^ w.
Proof. intros. apply Z.mod_pos_bound. lia. Qed.

Lemma u8_range b : 0 <= u8_to_Z b < 256.
Proof.
  unfold u8_to_Z. pose proof (Byte.to_N_bounded b). lia.
Qed.

Lemma u8_to_of_Z z : u8_to_Z (u8_of_Z z) = z mod 256.
Proof.
  unfold u8_of_Z, u8_to_Z, wrap. change (2 ^ 8) with 256.
  pose proof (Z.mod_pos_bound z 256 ltac:(lia)) as Hb.
  destruct (Byte.of_N _) as [b|] eqn:E.
  - apply Byte.to_of_N in E. rewrite E. lia.
  - apply Byte.of_N_None_iff in E. lia.
Qed.

Lemma u8_of_to_Z b : u8_of_Z (u8_to_Z b) = b.
Proof.
  unfold u8_of_Z. rewrite wrap_small by (pose proof (u8_range b); lia).
  unfold u8_to_Z. rewrite N2Z.id, Byte.of_to_N. done.
Qed.

Lemma u8_to_Z_inj a b : u8_to_Z a = u8_to_Z b -> a = b.
Proof. intros H. rewrite <- (u8_of_to_Z a), <- (u8_of_to_Z b). by rewrite H. Qed.

(** A value below [2^k] and a value shifted by [k] have no common bit. *)
Lemma lor_shiftl_add a b k :
  0 <= k -> 0 <= a < 2 ^ k -> Z.lor a (Z.shiftl b k) = a + b * 2 ^ k.
Proof.
  intros Hk Ha.
  assert (Hz : Z.land a (Z.shiftl b k) = 0).
  { apply Z.bits_inj'. intros i Hi. rewrite Z.land_spec, Z.bits_0.
    destruct (Z.ltb_spec i k).
    - rewrite Z.shiftl_spec_low by lia. apply andb_false_r.
    - rewrite <- (Z.mod_small a (2 ^ k)) by lia.
      rewrite Z.mod_pow2_bits_high by lia. done. }
  rewrite <- Z.lxor_lor, <- Z.add_nocarry_lxor by done.
  rewrite Z.shiftl_mul_pow2 by lia. done.
Qed.

(** ** Integers as bytes *)

(** [to_le_bytes] and [from_le_bytes] of an integer of [n] bytes. *)
Fixpoint le_bytes (n : nat) (z : Z) : list byte :=
  match n with
  | O => []
  | S n => u8_of_Z z :: le_bytes n (Z.shiftr z 8)
  end.
Fixpoint le_Z (l : list byte) : Z :=
  match l with
  | [] => 0
  | b :: l => u8_to_Z b + 256 * le_Z l
  end.

Lemma le_bytes_length n z : length (le_bytes n z) = n.
Proof. revert z. induction n as [|n IH]; intros z; cbn; [done|]. by rewrite IH. Qed.

Lemma le_Z_app l k : le_Z (l ++ k) = le_Z l + 256 ^ len l * le_Z k.
Proof.
  induction l as [|b l IH]; [change (le_Z k = 0 + 1 * le_Z k); lia|]. cbn [app le_Z].
  rewrite IH, len_cons, Z.pow_add_r, Z.pow_1_r by auto with rust zarith. lia.
Qed.

Lemma le_Z_range l : 0 <= le_Z l < 256 ^ len l.
Proof.
  induction l as [|b l IH]; [done|]. cbn [le_Z].
  rewrite len_cons, Z.pow_add_r, Z.pow_1_r by auto with rust zarith.
  pose proof (u8_range b). lia.
Qed.

Lemma le_Z_bytes n z : 0 <= z < 256 ^ Z.of_nat n -> le_Z (le_bytes n z) = z.
Proof.
  revert z. induction n as [|n IH]; intros z Hz; [cbn in *; lia|].
  rewrite Nat2Z.inj_succ, Z.pow_succ_r in Hz by lia. cbn [le_bytes le_Z].
  rewrite u8_to_of_Z, Z.shiftr_div_pow2 by lia. change (2 ^ 8) with 256.
  rewrite IH; [pose proof (Z.div_mod z 256); lia|].
  split; [apply Z.div_pos; lia|apply Z.div_lt_upper_bound; lia].
Qed.

Lemma le_bytes_inj n a b :
  0 <= a < 256 ^ Z.of_nat n -> 0 <= b < 256 ^ Z.of_nat n -> le_bytes n a = le_bytes n b -> a = b.
Proof. intros Ha Hb E. by rewrite <- (le_Z_bytes n a Ha), <- (le_Z_bytes n b Hb), E. Qed.

(** ** Texts *)

(** [str::split] on a one-character pattern. *)
Fixpoint split_on (c : ascii) (s : string) : list string :=
  match s with
  | EmptyString => [EmptyString]
  | String a s =>
      let r := split_on c s in
      if Ascii.eqb a c then EmptyString :: r
      else match r with [] => [String a EmptyString] | w :: r => String a w :: r end
  end.

Lemma app_cons_string a (s t : string) : String a s +:+ t = String a (s +:+ t).
Proof. done. Qed.

Lemma split_on_nonempty c s : split_on c s <> [].
Proof. destruct s as [|a s]; [done|]. simpl. destruct (Ascii.eqb a c), (split_on c s); done. Qed.

Lemma split_on_app c s t :
  split_on c (s +:+ String c t) = split_on c s ++ split_on c t.
Proof.
  induction s as [|a s IH].
  - change ("" +:+ String c t) with (String c t). simpl. by rewrite Ascii.eqb_refl.
  - rewrite app_cons_string. cbn [split_on]. rewrite IH.
    destruct (Ascii.eqb a c); [done|].
    pose proof (split_on_nonempty c s). by destruct (split_on c s).
Qed.

(** [str::contains]. *)
Fixpoint str_contains (sub s : string) : bool :=
  String.prefix sub s || match s with EmptyString => false | String _ s => str_contains sub s end.

Lemma split_on_none c s : str_contains (String c "") s = false -> split_on c s = [s].
Proof.
  induction s as [|a s IH]; [done|]. cbn. intros [Ha Hs]%orb_false_iff. rewrite IH by done.
  destruct (Ascii.eqb_spec a c) as [->|]; [|done]. destruct (ascii_dec c c); [|done]. by destruct s.
Qed.

Definition is_digit (a : ascii) : bool :=
  (48 <=? Z.of_N (N_of_ascii a)) && (Z.of_N (N_of_ascii a) <=? 57).

Fixpoint digits (acc : Z) (s : string) : option Z :=
  match s with
  | EmptyString => Some acc
  | String a s =>
      if is_digit a then digits (acc * 10 + (Z.of_N (N_of_ascii a) - 48)) s else None
  end.

(** [str::parse] for a [w]-bit signed integer. *)
Definition parse_int (w : Z) (s : string) : option Z :=
  let '(sign, ds) :=
    match s with
    | String "+"%char s => (1, s)
    | String "-"%char s => (-1, s)
    | _ => (1, s)
    end in
  match ds with
  | EmptyString => None
  | _ => match digits 0 ds with
         | Some n =>
             if (- 2 ^ (w - 1) <=? sign * n) && (sign * n <? 2 ^ (w - 1)) then Some (sign * n) else None
         | None => None
         end
  end.

(** ** Extrema of a list *)

(** [iter().min()] and [iter().max()]. *)
Fixpoint list_min (l : list Z) : option Z :=
  match l with
  | [] => None
  | x :: l => Some match list_min l with Some y => Z.min x y | None => x end
  end.
Fixpoint list_max (l : list Z) : option Z :=
  match l with
  | [] => None
  | x :: l => Some match list_max l with Some y => Z.max x y | None => x end
  end.

Lemma list_min_app l x :
  list_min (l ++ [x]) = Some match list_min l with Some y => Z.min y x | None => x end.
Proof.
  induction l as [|y l IH]; [done|]. cbn. rewrite IH. f_equal.
  destruct (list_min l); lia.
Qed.

Lemma list_min_le l x : x ∈ l -> exists m, list_min l = Some m /\ m <= x.
Proof.
  induction l as [|y l IH]; intros H; [by apply elem_of_nil in H|].
  apply elem_of_cons in H as [->|H]; cbn.
  - eexists. split; [done|]. destruct (list_min l); lia.
  - destruct (IH H) as (m & -> & Hm). eexists. split; [done|]. lia.
Qed.

Lemma list_min_in l m : list_min l = Some m -> m ∈ l.
Proof.
  revert m. induction l as [|x l IH]; intros m; [done|]. cbn. intros [= <-].
  destruct (list_min l) as [y|]; [|by left].
  destruct (Z.min_spec x y) as [[_ ->]|[_ ->]]; [by left|]. right. by apply IH.
Qed.

(** ** Relations between the states before and after a computation *)

Section StRel.
Context {E S : Type} (R : S -> S -> Prop).

(** [R] holds between [s] and the state that [m] ends in, whether it fails or not. *)
Definition st_at {A} (m : ST E S A) (s : S) : Prop := R s (m s).2.

Lemma st_at_bind `{!Transitive R} {A B} (m : ST E S A) (k : A -> ST E S B) s :
  st_at m s -> (forall a s', m s = (Ok a, s') -> R s s' -> st_at (k a) s') -> st_at (m ≫= k) s.
Proof.
  unfold st_at. intros Hm Hk. unfold mbind, st_mbind, st_bind.
  destruct (m s) as [[a|e] s'] eqn:Em; cbn in *; [|exact Hm].
  etrans; [exact Hm|]. by apply Hk.
Qed.

Lemma st_at_get_bind {A} (k : S -> ST E S A) s : st_at (k s) s -> st_at (st_get ≫= k) s.
Proof. done. Qed.

Lemma st_at_ret `{!Reflexive R} {A} (a : A) s : st_at (mret a) s.
Proof. unfold st_at. cbn. reflexivity. Qed.

Lemma st_at_fail `{!Reflexive R} {A} (e : E) s : st_at (A := A) (st_fail e) s.
Proof. unfold st_at. cbn. reflexivity. Qed.

Lemma st_at_lift `{!Reflexive R} {A} (r : result E A) s : st_at (st_lift r) s.
Proof. unfold st_at. cbn. reflexivity. Qed.

Lemma st_at_modify f s : R s (f s) -> st_at (st_modify f) s.
Proof. done. Qed.

Lemma st_at_if (b : bool) {A} (m m' : ST E S A) s :
  (b = true -> st_at m s) -> (b = false -> st_at m' s) -> st_at (if b then m else m') s.
Proof. destruct b; auto. Qed.
End StRel.

Lemma st_bind_run {E S A B} (m : ST E S A) (k : A -> ST E S B) s :
  (m ≫= k) s = match m s with (Ok a, s') => k a s' | (Err e, s') => (Err e, s') end.
Proof. done. Qed.

(** One rule, by the head of the computation. *)
Ltac st_step :=
  lazymatch goal with
  | |- st_at _ (mret _) _ => apply (st_at_ret _)
  | |- st_at _ (st_fail _) _ => apply (st_at_fail _)
  | |- st_at _ (st_lift _) _ => apply (st_at_lift _)
  | |- st_at _ (mbind _ st_get) _ => apply st_at_get_bind
  | |- st_at _ (mbind _ _) _ => apply (st_at_bind _); [|intros ? ? _ _]
  | |- st_at _ (if _ then _ else _) _ => apply st_at_if; intros _
  | |- st_at _ (match ?x with _ => _ end) _ => destruct x
  end.
