(* ===== verification/BytesCodec.v ===== *)
(** * The length-prefixed frame codec (libs/hbb_common/src/bytes_codec.rs)

    Every TCP connection of the client carries a sequence of frames.  The
    header of a frame is little-endian, its two low bits give the header's
    length minus one, the other bits the payload's length.  The file models the
    codec's state, [decode_head], [decode_data], [Decoder::decode] and
    [Encoder::encode], then proves that the decoder recovers the payloads of any
    encoded sequence, whatever the pieces the network delivers it in, that it
    refuses a frame longer than the configured maximum and that it never asks
    for more than 256 KiB of memory ahead of the data. *)

From S2P Require Import Prelude.

(** ** State *)

Definition MAX_PREALLOCATED_PAYLOAD_LEN : Z := 256 * 1024.

Inductive DecodeState : Type :=
| Head
| Data (n : Z).

Record BytesCodec : Type := mkBytesCodec {
  state : DecodeState;
  raw : bool;
  max_packet_length : Z
}.

(** A [BytesMut]: its bytes and the largest total size the code asked it to
    provide room for ([reserve] grows the capacity to at least that much). *)
Record BytesMut : Type := mkBytesMut {
  bytes : list byte;
  demanded : Z
}.

Definition reserve (additional : Z) (b : BytesMut) : BytesMut :=
  mkBytesMut (bytes b) (Z.max (demanded b) (len (bytes b) + additional)).

(** [Buf::advance] and [BytesMut::split_to]. *)
Definition advance (n : Z) (b : BytesMut) : BytesMut :=
  mkBytesMut (drop (Z.to_nat n) (bytes b)) (demanded b).

Definition split_to (n : Z) (b : BytesMut) : list byte * BytesMut :=
  (take (Z.to_nat n) (bytes b), advance n b).

(** [BufMut::put] and [extend]. *)
Definition put (d : list byte) (b : BytesMut) : BytesMut :=
  mkBytesMut (bytes b ++ d) (demanded b).

Inductive IoError : Type :=
| InvalidData_TooBigPacket
| InvalidInput_Overflow.

(** ** Operations *)

Definition new : BytesCodec := mkBytesCodec Head false USIZE_MAX.

Definition set_raw (c : BytesCodec) : BytesCodec :=
  mkBytesCodec (state c) true (max_packet_length c).

Definition set_max_packet_length (n : Z) (c : BytesCodec) : BytesCodec :=
  mkBytesCodec (state c) (raw c) n.

Definition set_state (s : DecodeState) (c : BytesCodec) : BytesCodec :=
  mkBytesCodec s (raw c) (max_packet_length c).

(** [src[i] as usize], for an index below [src.len()]. *)
Definition byte_at (src : list byte) (i : nat) : Z := u8_to_Z (nth i src x00).

(** The number [n] of [decode_head], before the final shift. *)
Definition head_number (src : list byte) (head_len : Z) : Z :=
  let n := byte_at src 0 in
  let n := if 1 <? head_len then Z.lor n (Z.shiftl (byte_at src 1) 8) else n in
  let n := if 2 <? head_len then Z.lor n (Z.shiftl (byte_at src 2) 16) else n in
  if 3 <? head_len then Z.lor n (Z.shiftl (byte_at src 3) 24) else n.

Definition decode_head (c : BytesCodec) (src : BytesMut)
  : result IoError (option Z) * BytesMut :=
  match bytes src with
  | [] => (Ok None, src)
  | b0 :: _ =>
      let head_len := Z.land (u8_to_Z b0) 0x3 + 1 in
      if len (bytes src) <? head_len then (Ok None, src)
      else
        let n := Z.shiftr (head_number (bytes src) head_len) 2 in
        if max_packet_length c <? n then (Err InvalidData_TooBigPacket, src)
        else
          let src := advance head_len src in
          let src :=
            reserve (Z.min (Z.max 0 (n - len (bytes src))) MAX_PREALLOCATED_PAYLOAD_LEN) src in
          (Ok (Some n), src)
  end.

Definition decode_data (n : Z) (src : BytesMut) : option (list byte) * BytesMut :=
  if len (bytes src) <? n then (None, src)
  else let '(d, src) := split_to n src in (Some d, src).

Definition decode (c : BytesCodec) (src : BytesMut)
  : result IoError (option (list byte)) * BytesCodec * BytesMut :=
  if raw c then
    match bytes src with
    | [] => (Ok None, c, src)
    | _ :: _ =>
        let '(d, src) := split_to (len (bytes src)) src in (Ok (Some d), c, src)
    end
  else
    let finish n c src :=
      match decode_data n src with
      | (Some d, src) => (Ok (Some d), set_state Head c, src)
      | (None, src) => (Ok None, c, src)
      end in
    match state c with
    | Head =>
        match decode_head c src with
        | (Err e, src) => (Err e, c, src)
        | (Ok (Some n), src) => finish n (set_state (Data n) c) src
        | (Ok None, src) => (Ok None, c, src)
        end
    | Data n => finish n c src
    end.

(** [put_u8], [put_u16_le] and [put_u32_le]. *)
Definition le1 (h : Z) : list byte := [u8_of_Z h].
Definition le2 (h : Z) : list byte := [u8_of_Z h; u8_of_Z (Z.shiftr h 8)].
Definition le4 (h : Z) : list byte :=
  [u8_of_Z h; u8_of_Z (Z.shiftr h 8); u8_of_Z (Z.shiftr h 16); u8_of_Z (Z.shiftr h 24)].

Definition encode (c : BytesCodec) (data : list byte) (buf : BytesMut)
  : result IoError unit * BytesMut :=
  if raw c then (Ok tt, put data (reserve (len data) buf))
  else
    let n := len data in
    if n <=? 0x3F then (Ok tt, put data (put (le1 (as_u8 (Z.shiftl n 2))) buf))
    else if n <=? 0x3FFF then
      (Ok tt, put data (put (le2 (Z.lor (as_u16 (Z.shiftl n 2)) 0x1)) buf))
    else if n <=? 0x3FFFFF then
      let h := Z.lor (as_u32 (Z.shiftl n 2)) 0x2 in
      (Ok tt, put data (put (le1 (as_u8 (Z.shiftr h 16)))
                 (put (le2 (as_u16 (Z.land h 0xFFFF))) buf)))
    else if n <=? 0x3FFFFFFF then
      (Ok tt, put data (put (le4 (Z.lor (as_u32 (Z.shiftl n 2)) 0x3)) buf))
    else (Err InvalidInput_Overflow, buf).

(** ** The loops around the codec

    [Framed] calls [decode] until it needs more data, then appends the next
    piece the network delivered; the sender calls [encode] once per payload. *)

Fixpoint drain (fuel : nat) (c : BytesCodec) (b : BytesMut)
  : option (result IoError (list (list byte)) * BytesCodec * BytesMut) :=
  match fuel with
  | O => None
  | S fuel =>
      match decode c b with
      | (Err e, c, b) => Some (Err e, c, b)
      | (Ok None, c, b) => Some (Ok [], c, b)
      | (Ok (Some d), c, b) =>
          match drain fuel c b with
          | Some (Ok ds, c, b) => Some (Ok (d :: ds), c, b)
          | r => r
          end
      end
  end.

(** One call more than the bytes there are, and one for a payload in progress. *)
Definition drain_fuel (b : BytesMut) : nat := 2 + length (bytes b).

Fixpoint receive (chunks : list (list byte)) (c : BytesCodec) (b : BytesMut)
  : option (result IoError (list (list byte)) * BytesCodec * BytesMut) :=
  match chunks with
  | [] => Some (Ok [], c, b)
  | ch :: chunks =>
      let b := put ch b in
      match drain (drain_fuel b) c b with
      | Some (Ok ds, c, b) =>
          match receive chunks c b with
          | Some (Ok ds', c, b) => Some (Ok (ds ++ ds'), c, b)
          | r => r
          end
      | r => r
      end
  end.

Fixpoint send_all (ps : list (list byte)) (c : BytesCodec) (b : BytesMut)
  : result IoError unit * BytesMut :=
  match ps with
  | [] => (Ok tt, b)
  | p :: ps =>
      match encode c p b with
      | (Ok _, b) => send_all ps c b
      | r => r
      end
  end.

(** ** The frame format *)

Definition header_len (n : Z) : Z :=
  if n <=? 0x3F then 1 else if n <=? 0x3FFF then 2 else if n <=? 0x3FFFFF then 3 else 4.

Definition header (n : Z) : list byte :=
  take (Z.to_nat (header_len n)) (le4 (4 * n + (header_len n - 1))).

Definition frame (p : list byte) : list byte := header (len p) ++ p.

Lemma shiftl2 n : Z.shiftl n 2 = 4 * n.
Proof. rewrite Z.shiftl_mul_pow2 by lia. change (2 ^ 2) with 4. lia. Qed.

Lemma lor_low n k : 0 <= k < 4 -> Z.lor (4 * n) k = 4 * n + k.
Proof.
  intros. rewrite Z.lor_comm, <- shiftl2.
  rewrite lor_shiftl_add by (change (2 ^ 2) with 4; lia).
  rewrite shiftl2. change (2 ^ 2) with 4. lia.
Qed.

Lemma u8_of_Z_mod a b : a mod 256 = b mod 256 -> u8_of_Z a = u8_of_Z b.
Proof. intros H. apply u8_to_Z_inj. by rewrite !u8_to_of_Z. Qed.

Lemma header_length n : length (header n) = Z.to_nat (header_len n).
Proof.
  unfold header. rewrite length_take. unfold header_len, le4. simpl.
  split_ifs; simpl; lia.
Qed.

Lemma len_header n : len (header n) = header_len n.
Proof. unfold len. rewrite header_length. unfold header_len. split_ifs; lia. Qed.

Lemma header_len_range n : 1 <= header_len n <= 4.
Proof. unfold header_len. split_ifs; lia. Qed.

Lemma cons_u8 a b l k :
  a mod 256 = b mod 256 -> l = k -> u8_of_Z a :: l = u8_of_Z b :: k.
Proof. intros Hab ->. by rewrite (u8_of_Z_mod a b). Qed.

(** Innermost first, turn disjoint [lor]s of shifted bytes into sums. *)
Ltac lor_to_add :=
  repeat match goal with
  | |- context [Z.lor ?a (Z.shiftl ?b ?k)] =>
      lazymatch a with context [Z.lor] => fail | _ => idtac end;
      let p := eval cbv in (2 ^ k) in
      rewrite (lor_shiftl_add a b k) by (change (2 ^ k) with p; zlia);
      change (2 ^ k) with p
  end.

(** Closes an equation between lists of bytes given by arithmetic. *)
Ltac bytes_arith :=
  change 65535 with (Z.ones 16); rewrite ?Z.land_ones by lia;
  rewrite ?Z.shiftr_div_pow2 by lia;
  change (2 ^ 8) with 256; change (2 ^ 16) with 65536; change (2 ^ 24) with 16777216;
  repeat (apply cons_u8; [zlia|]); done.

Lemma encode_frame c p b :
  raw c = false -> len p <= 0x3FFFFFFF ->
  encode c p b = (Ok tt, put (frame p) b).
Proof.
  intros Hr Hl. pose proof (len_nonneg p). unfold encode, frame, header, header_len.
  rewrite Hr. unfold put, le1, le2, le4, wrap. cbn [bytes demanded].
  rewrite shiftl2.
  split_ifs; to_prop; try lia; rewrite <- !app_assoc; do 3 f_equal; rewrite ?app_assoc; f_equal.
  all: try rewrite (Z.mod_small (4 * len p)) by lia; rewrite ?lor_low by lia; simpl.
  all: bytes_arith.
Qed.

Lemma byte_at_header n rest i :
  (i < Z.to_nat (header_len n))%nat ->
  byte_at (header n ++ rest) i
  = ((4 * n + (header_len n - 1)) / 256 ^ (Z.of_nat i)) mod 256.
Proof.
  intros Hi. pose proof (header_len_range n). unfold byte_at.
  rewrite app_nth1 by (rewrite header_length; lia).
  unfold header. rewrite nth_firstn. destruct (Nat.ltb_spec i (Z.to_nat (header_len n))); [|lia].
  unfold le4. rewrite !Z.shiftr_div_pow2 by lia.
  change (2 ^ 8) with (256 ^ 1). change (2 ^ 16) with (256 ^ 2). change (2 ^ 24) with (256 ^ 3).
  destruct i as [|[|[|[|]]]]; [..|lia]; cbn [nth]; rewrite u8_to_of_Z; try done.
  change (256 ^ Z.of_nat 0) with 1. by rewrite Z.div_1_r.
Qed.

Lemma head_number_header n rest :
  0 <= n <= 0x3FFFFFFF ->
  head_number (header n ++ rest) (header_len n) = 4 * n + (header_len n - 1).
Proof.
  intros Hn. unfold head_number.
  assert (Hb : forall i, (i < Z.to_nat (header_len n))%nat ->
    byte_at (header n ++ rest) i = ((4 * n + (header_len n - 1)) / 256 ^ (Z.of_nat i)) mod 256)
    by (intros; by apply byte_at_header).
  unfold header_len in *; split_ifs; to_prop; try lia;
  rewrite !Hb by lia;
  change (256 ^ Z.of_nat 0) with 1; change (256 ^ Z.of_nat 1) with 256;
  change (256 ^ Z.of_nat 2) with 65536; change (256 ^ Z.of_nat 3) with 16777216;
  lor_to_add; zlia.
Qed.

(** The length bits of the first byte. *)
Lemma head_len_header n rest b0 tl :
  0 <= n -> header n ++ rest = b0 :: tl -> Z.land (u8_to_Z b0) 0x3 + 1 = header_len n.
Proof.
  intros Hn He. pose proof (header_len_range n).
  pose proof (byte_at_header n rest 0 ltac:(lia)) as H0.
  rewrite He in H0. unfold byte_at in H0. simpl nth in H0. rewrite H0.
  change 3 with (Z.ones 2). rewrite Z.land_ones by lia.
  change (2 ^ 2) with 4. change (256 ^ Z.of_nat 0) with 1. rewrite Z.div_1_r.
  unfold header_len in *; split_ifs; zlia.
Qed.

Lemma decode_head_complete c src n rest :
  0 <= n <= 0x3FFFFFFF -> n <= max_packet_length c ->
  bytes src = header n ++ rest ->
  exists dem, decode_head c src = (Ok (Some n), mkBytesMut rest dem).
Proof.
  intros Hn Hmax Hb. pose proof (header_len_range n). unfold decode_head.
  destruct (bytes src) as [|b0 tl] eqn:E.
  { destruct (header n) eqn:Eh; [|done]. pose proof (len_header n) as Hl.
    rewrite Eh in Hl. unfold len in Hl. simpl in Hl. lia. }
  rewrite (head_len_header n rest b0 tl), Hb by (done || lia).
  rewrite len_app, len_header. pose proof (len_nonneg rest).
  destruct (Z.ltb_spec (header_len n + len rest) (header_len n)); [lia|].
  rewrite head_number_header by done. rewrite Z.shiftr_div_pow2 by lia. change (2 ^ 2) with 4.
  replace ((4 * n + (header_len n - 1)) / 4) with n by zlia.
  destruct (Z.ltb_spec (max_packet_length c) n); [lia|].
  unfold advance, reserve. cbn [bytes demanded]. rewrite E, Hb.
  rewrite drop_app_length' by (rewrite header_length; lia). by eexists.
Qed.

Lemma decode_head_partial c src n fut rest :
  0 <= n -> bytes src ++ fut = header n ++ rest -> len (bytes src) < header_len n ->
  decode_head c src = (Ok None, src).
Proof.
  intros Hn He Hlt. unfold decode_head. destruct (bytes src) as [|b0 tl] eqn:E; [done|].
  rewrite (head_len_header n rest b0 (tl ++ fut)) by (done || (symmetry; done)).
  by destruct (Z.ltb_spec (len (b0 :: tl)) (header_len n)); [|lia].
Qed.

(** ** The stream seen by the decoder

    [Awaits c b fut ps]: the bytes buffered in [b], followed by the bytes [fut]
    still to come, are exactly what remains of the frames of the payloads [ps],
    given what the state of [c] has already consumed. *)

Definition frames (ps : list (list byte)) : list byte := concat (frame <$> ps).

Definition Awaits (c : BytesCodec) (b : BytesMut) (fut : list byte)
    (ps : list (list byte)) : Prop :=
  match state c with
  | Head => bytes b ++ fut = frames ps
  | Data n =>
      exists p ps', ps = p :: ps' /\ n = len p /\ bytes b ++ fut = p ++ frames ps'
  end.

(** What the sender may put on the wire for a receiver of limit [max]. *)
Definition sendable (max : Z) (p : list byte) : Prop :=
  len p <= 0x3FFFFFFF /\ len p <= max.

Lemma frames_cons p ps : frames (p :: ps) = header (len p) ++ p ++ frames ps.
Proof. unfold frames, frame. simpl. by rewrite app_assoc. Qed.

Lemma app_split_len {A} (x y u v : list A) :
  x ++ y = u ++ v -> len u <= len x -> exists w, x = u ++ w /\ v = w ++ y.
Proof.
  unfold len. intros He Hl.
  exists (drop (length u) x). split.
  - rewrite <- (take_drop (length u) x) at 1. f_equal.
    assert (H : take (length u) (x ++ y) = take (length u) (u ++ v)) by by rewrite He.
    rewrite take_app_le in H by lia. by rewrite take_app_length in H.
  - assert (H : drop (length u) (x ++ y) = drop (length u) (u ++ v)) by by rewrite He.
    rewrite drop_app_le, drop_app_length in H by lia. done.
Qed.

Lemma decode_data_spec n src :
  0 <= n ->
  decode_data n src =
    if len (bytes src) <? n then (None, src)
    else (Some (take (Z.to_nat n) (bytes src)),
          mkBytesMut (drop (Z.to_nat n) (bytes src)) (demanded src)).
Proof. done. Qed.

(** The payload part of a step: the head has been read. *)
Lemma decode_data_step b fut p ps :
  bytes b ++ fut = p ++ frames ps ->
  (len (bytes b) < len p /\ decode_data (len p) b = (None, b)) \/
  (exists b', decode_data (len p) b = (Some p, b') /\ demanded b' = demanded b /\
     bytes b' ++ fut = frames ps /\ (length (bytes b') <= length (bytes b))%nat).
Proof.
  intros He. rewrite decode_data_spec by apply len_nonneg.
  destruct (Z.ltb_spec (len (bytes b)) (len p)); [by left|right].
  destruct (app_split_len (bytes b) fut p (frames ps)) as (w & Hw & Hv); [done..|].
  exists (mkBytesMut w (demanded b)). rewrite Hw. unfold len. rewrite Nat2Z.id.
  rewrite take_app_length, drop_app_length. cbn [bytes demanded].
  rewrite length_app. repeat split; [done|lia].
Qed.

Definition step_measure (c : BytesCodec) (b : BytesMut) : nat :=
  match state c with Head => length (bytes b) | Data _ => S (length (bytes b)) end.

(** A prefix too short for [x] leaves something to come. *)
Lemma short_prefix_future (b fut x y : list byte) :
  b ++ fut = x ++ y -> len b < len x -> fut <> [].
Proof.
  intros He Hl ->. rewrite app_nil_r in He. subst b. rewrite len_app in Hl.
  pose proof (len_nonneg y). lia.
Qed.

Lemma decode_step c b fut ps :
  raw c = false -> Forall (sendable (max_packet_length c)) ps -> Awaits c b fut ps ->
  (exists c' b', decode c b = (Ok None, c', b') /\ Awaits c' b' fut ps /\
     raw c' = false /\ max_packet_length c' = max_packet_length c /\
     (fut = [] -> ps = [] /\ state c' = Head /\ bytes b' = [])) \/
  (exists p ps' c' b', ps = p :: ps' /\ decode c b = (Ok (Some p), c', b') /\
     Awaits c' b' fut ps' /\ raw c' = false /\
     max_packet_length c' = max_packet_length c /\
     (step_measure c' b' < step_measure c b)%nat).
Proof.
  intros Hr Hs Ha. unfold decode. rewrite Hr. unfold Awaits in Ha.
  destruct (state c) as [|n] eqn:Es.
  - destruct ps as [|p ps].
    { apply app_nil in Ha as [Hb ->]. left. exists c, b.
      unfold decode_head. rewrite Hb. unfold Awaits. rewrite Es, Hb. eauto 10. }
    apply Forall_cons in Hs as [[Hs1 Hs2] Hs]. pose proof (len_nonneg p).
    rewrite frames_cons in Ha.
    destruct (Z.lt_ge_cases (len (bytes b)) (header_len (len p))) as [Hlt|Hge].
    + left. exists c, b.
      rewrite (decode_head_partial c b (len p) fut (p ++ frames ps)) by done.
      split_and!; try done.
      * unfold Awaits. rewrite Es, frames_cons. done.
      * intros Hf. by destruct (short_prefix_future _ _ _ _ Ha ltac:(by rewrite len_header)).
    + destruct (app_split_len (bytes b) fut (header (len p)) (p ++ frames ps))
        as (w & Hw & Hv); [done|by rewrite len_header|].
      destruct (decode_head_complete c b (len p) w) as [dem ->]; [lia|done|done|].
      destruct (decode_data_step (mkBytesMut w dem) fut p ps)
        as [[Hlt ->]|(b' & -> & Hd & Hb' & Hle)]; cbn [bytes demanded] in *; [done|..].
      * left. do 2 eexists. split_and!; [done|unfold Awaits; cbn; eauto 10|done..|].
        intros Hf. by destruct (short_prefix_future _ _ _ _ (eq_sym Hv) Hlt).
      * right. do 4 eexists. split_and!; [done..|]. unfold step_measure. rewrite Es. cbn.
        rewrite Hw, length_app, header_length. pose proof (header_len_range (len p)). lia.
  - destruct Ha as (p & ps' & -> & -> & Hb). apply Forall_cons in Hs as [_ Hs].
    destruct (decode_data_step b fut p ps' Hb)
      as [[Hlt ->]|(b' & -> & Hd & Hb' & Hle)].
    + left. exists c, b. split_and!; [done|unfold Awaits; rewrite Es; eauto 10|done..|].
      intros Hf. by destruct (short_prefix_future _ _ _ _ Hb Hlt).
    + right. do 4 eexists. split_and!; [done..|]. unfold step_measure. rewrite Es. cbn. lia.
Qed.

Lemma drain_spec fuel : forall c b fut ps,
  raw c = false -> Forall (sendable (max_packet_length c)) ps -> Awaits c b fut ps ->
  (step_measure c b < fuel)%nat ->
  exists ps1 ps2 c' b', ps = ps1 ++ ps2 /\ drain fuel c b = Some (Ok ps1, c', b') /\
    Awaits c' b' fut ps2 /\ raw c' = false /\ max_packet_length c' = max_packet_length c /\
    (fut = [] -> ps2 = [] /\ state c' = Head /\ bytes b' = []).
Proof.
  induction fuel as [|fuel IH]; intros c b fut ps Hr Hs Ha Hm; [lia|]. simpl.
  destruct (decode_step c b fut ps Hr Hs Ha)
    as [(c' & b' & -> & ?)|(p & ps' & c' & b' & -> & -> & Ha' & Hr' & Hmax & Hm')].
  - exists [], ps, c', b'. by destruct_and!.
  - apply Forall_cons in Hs as [_ Hs]. rewrite <- Hmax in Hs.
    destruct (IH c' b' fut ps' Hr' Hs Ha' ltac:(lia))
      as (ps1 & ps2 & c2 & b2 & -> & -> & ? & ? & Hm2 & ?).
    exists (p :: ps1), ps2, c2, b2. rewrite <- Hmax. done.
Qed.

Lemma receive_spec chunks : forall c b ps,
  raw c = false -> Forall (sendable (max_packet_length c)) ps ->
  Awaits c b (concat chunks) ps -> chunks <> [] ->
  exists c' b', receive chunks c b = Some (Ok ps, c', b') /\
    state c' = Head /\ bytes b' = [].
Proof.
  induction chunks as [|ch chunks IH]; intros c b ps Hr Hs Ha Hne; [done|]. cbn [receive].
  assert (Ha' : Awaits c (put ch b) (concat chunks) ps).
  { unfold Awaits, put in *. cbn. destruct (state c); [by rewrite <- app_assoc|].
    by setoid_rewrite <- app_assoc. }
  destruct (drain_spec (drain_fuel (put ch b)) c (put ch b) (concat chunks) ps)
    as (ps1 & ps2 & c' & b' & -> & -> & Ha2 & Hr' & Hmax & Hend); [done..| |].
  { unfold drain_fuel, step_measure. destruct (state c); lia. }
  apply Forall_app in Hs as [_ Hs]. rewrite <- Hmax in Hs.
  destruct chunks as [|ch2 chunks].
  - destruct (Hend eq_refl) as (-> & ? & ?). simpl. rewrite app_nil_r. eauto.
  - destruct (IH c' b' ps2 Hr' Hs Ha2) as (c2 & b2 & -> & ? & ?); [done|]. eauto.
Qed.

Lemma send_all_frames ps : forall c b,
  raw c = false -> Forall (fun p => len p <= 0x3FFFFFFF) ps ->
  send_all ps c b = (Ok tt, put (frames ps) b).
Proof.
  induction ps as [|p ps IH]; intros c b Hr Hs; simpl.
  - unfold put, frames. simpl. rewrite app_nil_r. by destruct b.
  - apply Forall_cons in Hs as [Hp Hs]. rewrite encode_frame, IH by done.
    unfold put, frames. cbn. by rewrite <- app_assoc.
Qed.

(** ** Properties *)

(** C29: sending is reliable.  Whatever payloads a sender encodes (each below
    2^30 bytes and within the receiver's limit), and however the network cuts
    the resulting bytes into pieces, a receiver that drains its codec after each
    piece obtains exactly these payloads, in order, and ends in the [Head] state
    with an empty buffer. *)
Theorem stream_roundtrip (max : Z) (ps : list (list byte)) (out : BytesMut)
    (chunks : list (list byte)) :
  Forall (sendable max) ps -> chunks <> [] ->
  send_all ps new (mkBytesMut [] 0) = (Ok tt, out) ->
  concat chunks = bytes out ->
  exists c b, receive chunks (set_max_packet_length max new) (mkBytesMut [] 0)
              = Some (Ok ps, c, b) /\ state c = Head /\ bytes b = [].
Proof.
  intros Hs Hne Hsend Hc.
  rewrite send_all_frames in Hsend; [|done|].
  2: { eapply Forall_impl; [exact Hs|]. by intros p [? ?]. }
  injection Hsend as <-. apply receive_spec; [done..| |done].
  unfold Awaits. simpl. by rewrite Hc.
Qed.

Lemma stream_roundtrip_witness :
  let ps := [[x61; x62]; []; [x63]] in
  let out := snd (send_all ps new (mkBytesMut [] 0)) in
  exists c b, receive [take 2 (bytes out); []; drop 2 (bytes out)]
                (set_max_packet_length 2 new) (mkBytesMut [] 0)
              = Some (Ok ps, c, b) /\ state c = Head /\ bytes b = [].
Proof.
  intros ps out.
  apply (stream_roundtrip 2 ps out _); [|done|reflexivity|reflexivity].
  repeat constructor; vm_compute; discriminate.
Defined.

(** A payload length in the codec's state has passed the limit check. *)
Definition state_ok (c : BytesCodec) : Prop :=
  match state c with Head => True | Data n => n <= max_packet_length c end.

Lemma decode_head_ok c src n src' :
  decode_head c src = (Ok (Some n), src') ->
  n <= max_packet_length c /\
  demanded src' <= Z.max (demanded src) (len (bytes src) + MAX_PREALLOCATED_PAYLOAD_LEN) /\
  (length (bytes src') < length (bytes src))%nat.
Proof.
  unfold decode_head. destruct (bytes src) as [|b0 tl] eqn:E; [done|].
  set (hl := Z.land _ _ + 1). assert (Hhl : 1 <= hl).
  { assert (0 <= Z.land (u8_to_Z b0) 3); [|lia].
    apply Z.land_nonneg. right. lia. }
  split_ifs; intros H; [done..|].
  injection H as <- <-. to_prop. unfold reserve, advance. cbn. rewrite E.
  rewrite length_drop, len_drop. unfold MAX_PREALLOCATED_PAYLOAD_LEN, len in *. simpl in *. lia.
Qed.

Lemma decode_head_no_frame c src r src' :
  decode_head c src = (r, src') -> (forall n, r <> Ok (Some n)) -> src' = src.
Proof.
  unfold decode_head. destruct (bytes src); [by intros [= <- <-]|].
  split_ifs; intros [= <- <-] Hn; [done..|]. by destruct (Hn _ eq_refl).
Qed.

Lemma decode_data_bytes n src r src' :
  decode_data n src = (r, src') ->
  (length (bytes src') <= length (bytes src))%nat /\ demanded src' = demanded src /\
  match r with Some d => len d <= Z.max 0 n | None => src' = src end.
Proof.
  unfold decode_data, split_to, advance. split_ifs; intros [= <- <-]; cbn; [done|].
  rewrite length_drop, len_take. split_and!; lia || done.
Qed.

(** a hostile peer cannot make the decoder accept a frame longer than the
    configured maximum, nor make it ask for more than 256 KiB beyond the bytes
    already received; on an error the buffer and the state are untouched. *)
Theorem decode_bounded (c c' : BytesCodec) (src src' : BytesMut)
    (r : result IoError (option (list byte))) :
  raw c = false -> state_ok c -> 0 <= max_packet_length c ->
  decode c src = (r, c', src') ->
  state_ok c' /\ max_packet_length c' = max_packet_length c /\
  demanded src' <= Z.max (demanded src) (len (bytes src) + MAX_PREALLOCATED_PAYLOAD_LEN) /\
  match r with
  | Ok (Some d) => len d <= max_packet_length c /\ state c' = Head
  | Ok None => True
  | Err _ => c' = c /\ src' = src
  end.
Proof.
  intros Hr Hok Hmax. unfold decode. rewrite Hr.
  assert (Hself : forall b, demanded b <=
    Z.max (demanded b) (len (bytes b) + MAX_PREALLOCATED_PAYLOAD_LEN)) by lia.
  assert (Hd : forall n b r b', n <= max_packet_length c ->
    decode_data n b = (r, b') ->
    demanded b' = demanded b /\
    match r with Some d => len d <= max_packet_length c | None => b' = b end).
  { intros n b r0 b' Hn H. apply decode_data_bytes in H as (? & ? & H).
    destruct r0; split; done || lia. }
  unfold state_ok in *. destruct (state c) as [|n] eqn:Es.
  - destruct (decode_head c src) as [[[n|]|e] src1] eqn:Eh.
    + apply decode_head_ok in Eh as (Hn & Hdem & Hlen).
      destruct (decode_data n src1) as [[d|] src2] eqn:Ed;
        apply Hd in Ed as [Hd1 Hd2]; try done; intros [= <- <- <-]; cbn;
        split_and!; rewrite ?Hd1; done.
    + apply decode_head_no_frame in Eh as ->; [|done]. intros [= <- <- <-]. by rewrite Es.
    + apply decode_head_no_frame in Eh as ->; [|done]. intros [= <- <- <-]. by rewrite Es.
  - destruct (decode_data n src) as [[d|] src2] eqn:Ed;
      apply Hd in Ed as [Hd1 Hd2]; try done; intros [= <- <- <-]; cbn;
      rewrite ?Es; split_and!; rewrite ?Hd1; done.
Qed.

Lemma decode_bounded_witness :
  let c := set_max_packet_length 1 new in
  let src := mkBytesMut [x08; x61; x62] 0 in
  decode c src = (Err InvalidData_TooBigPacket, c, src) /\ c = c /\ src = src.
Proof.
  intros c src. split; [reflexivity|].
  destruct (decode_bounded c c src src (Err InvalidData_TooBigPacket))
    as (_ & _ & _ & H); [reflexivity|exact I|vm_compute; discriminate|reflexivity|exact H].
Defined.

(** The receive loop terminates on any bytes: one call of [decode] per byte
    buffered, and two more, always reach an error or the need for more data. *)
Theorem drain_terminates (c : BytesCodec) (b : BytesMut) :
  is_Some (drain (drain_fuel b) c b).
Proof.
  assert (H : forall fuel c b, (step_measure c b < fuel)%nat -> is_Some (drain fuel c b)).
  { clear. induction fuel as [|fuel IH]; intros c b Hm; [lia|]. simpl.
    destruct (decode c b) as [[[[d|]|e] c'] b'] eqn:E; [|by eexists..].
    assert (Hlt : (step_measure c' b' < step_measure c b)%nat).
    { unfold decode in E. destruct (raw c).
      - unfold step_measure. destruct (bytes b) as [|x l] eqn:Eb; [done|].
        injection E as <- <- <-. cbn -[len]. rewrite Eb, length_drop.
        unfold len. destruct (state c); simpl; lia.
      - unfold step_measure. destruct (state c) as [|n].
        + destruct (decode_head c b) as [[[n|]|] b1] eqn:Eh; try done.
          apply decode_head_ok in Eh as (_ & _ & Hl).
          destruct (decode_data n b1) as [[d'|] b2] eqn:Ed; [|done].
          apply decode_data_bytes in Ed as (? & _). injection E as <- <- <-. cbn. lia.
        + destruct (decode_data n b) as [[d'|] b2] eqn:Ed; [|done].
          apply decode_data_bytes in Ed as (? & _). injection E as <- <- <-. cbn. lia. }
    destruct (IH c' b' ltac:(lia)) as [[[[ds|e] c2] b2] ->]; by eexists. }
  apply H. unfold step_measure, drain_fuel. destruct (state c); lia.
Qed.
