(* ===== verification/AddrMangle.v ===== *)
(** * Mangled socket addresses (libs/hbb_common/src/lib.rs)

    Peers and the rendezvous server exchange socket addresses.  Routers look for
    addresses of their own in the packets that pass, so an IPv4 address is mixed with
    the time before it is sent ([AddrMangle]). *)

From S2P Require Import Prelude.

(** An IPv4 address is its 4 octets, an IPv6 address its 16 octets. *)
Inductive SocketAddr : Type :=
| V4 (ip : list byte) (port : Z)
| V6 (ip : list byte) (port flowinfo scope_id : Z).

Definition addr_ok (a : SocketAddr) : Prop :=
  match a with
  | V4 ip port => length ip = 4%nat /\ 0 <= port < 2 ^ 16
  | V6 ip port _ _ => length ip = 16%nat /\ 0 <= port < 2 ^ 16
  end.

(** [Ipv6Addr::is_loopback] and [Ipv6Addr::to_ipv4] of the standard library. *)
Definition v6_is_loopback (ip : list byte) : bool :=
  bool_decide (ip = replicate 15 x00 ++ [x01]).
Definition to_ipv4 (ip : list byte) : option (list byte) :=
  if bool_decide (take 10 ip = replicate 10 x00)
     && (bool_decide (take 2 (drop 10 ip) = [x00; x00]) || bool_decide (take 2 (drop 10 ip) = [xff; xff]))
  then Some (drop 12 ip) else None.

Definition try_into_v4 (addr : SocketAddr) : SocketAddr :=
  match addr with
  | V6 ip port _ _ =>
      if negb (v6_is_loopback ip) then
        match to_ipv4 ip with
        | Some v4 => V4 v4 port
        | None => addr
        end
      else addr
  | _ => addr
  end.

(** The zero bytes at the end are dropped. *)
Fixpoint strip_zeros (rev : list byte) : list byte :=
  match rev with
  | x00 :: rev => strip_zeros rev
  | rev => rev
  end.

(** [micros] is the time since the epoch. *)
Definition encode (micros : Z) (addr : SocketAddr) : list byte :=
  match try_into_v4 addr with
  | V4 ip port =>
      let tm := as_u32 micros in
      let ip := le_Z ip in
      let v := Z.lor (Z.lor (as_u128 (Z.shiftl (ip + tm) 49)) (as_u128 (Z.shiftl tm 17)))
                 (port + Z.land tm 0xFFFF) in
      rev (strip_zeros (rev (le_bytes 16 v)))
  | V6 ip port _ _ => ip ++ le_bytes 2 port
  end.

Definition any_listen_addr : SocketAddr := V6 (replicate 16 x00) 0 0 0.

(** Whether a subtraction of [decode] overflows: a panic in a debug build, a wrapped
    number in a release build. *)
Definition decode_overflows (number tm : Z) : bool :=
  (Z.shiftr number 49 <? tm) || (Z.land number 0xFFFFFF <? Z.land tm 0xFFFF).

Definition padded_number (bytes : list byte) : Z :=
  le_Z (bytes ++ replicate (16 - length bytes) x00).

Definition decode (bytes : list byte) : SocketAddr :=
  if 16 <? len bytes then
    if negb (len bytes =? 18) then any_listen_addr
    else V6 (take 16 bytes) (le_Z (drop 16 bytes)) 0 0
  else
    let number := padded_number bytes in
    let tm := Z.land (Z.shiftr number 17) 0xFFFFFFFF in
    let ip := le_bytes 4 (as_u32 (as_u128 (Z.shiftr number 49 - tm))) in
    let port := as_u128 (Z.land number 0xFFFFFF - Z.land tm 0xFFFF) in
    V4 ip (as_u16 port).

(** ** Lemmas *)

Lemma strip_zeros_spec l : exists n, l = replicate n x00 ++ strip_zeros l.
Proof.
  induction l as [|b l [n IH]]; [by exists O|].
  destruct b; try (by exists O). exists (S n). cbn. by rewrite <- IH.
Qed.

(** Dropping the zero bytes and padding is the identity. *)
Lemma padded_stripped l :
  length l = 16%nat -> padded_number (rev (strip_zeros (rev l))) = le_Z l.
Proof.
  intros Hl. destruct (strip_zeros_spec (rev l)) as [n E].
  apply (f_equal (@rev _)) in E. rewrite rev_involutive, rev_app_distr in E.
  unfold padded_number. set (k := rev (strip_zeros (rev l))) in *.
  assert (Hr : rev (replicate n x00) = replicate n x00).
  { clear. induction n as [|n IH]; [done|]. cbn. by rewrite IH, <- replicate_S_end. }
  rewrite Hr in E. assert (16 - length k = n)%nat as ->.
  { apply (f_equal length) in E. rewrite length_app, length_replicate in E. lia. }
  by rewrite <- E.
Qed.

(** The three fields of the number, from the lowest: 17 bits, 32 bits, 33 bits. *)
Lemma fields a b c :
  0 <= a < 2 ^ 17 -> 0 <= b < 2 ^ 32 -> 0 <= c < 2 ^ 33 ->
  let v := Z.lor (Z.lor (as_u128 (Z.shiftl c 49)) (as_u128 (Z.shiftl b 17))) a in
  v = a + 2 ^ 17 * b + 2 ^ 49 * c.
Proof.
  intros Ha Hb Hc. cbn zeta.
  rewrite !wrap_small by (rewrite Z.shiftl_mul_pow2 by lia; lia).
  rewrite <- Z.lor_assoc, (Z.lor_comm (Z.shiftl b 17)), lor_shiftl_add by lia.
  rewrite Z.lor_comm, lor_shiftl_add by lia. lia.
Qed.

Lemma fields_back a b c :
  0 <= a < 2 ^ 17 -> 0 <= b < 2 ^ 32 ->
  let v := a + 2 ^ 17 * b + 2 ^ 49 * c in
  v / 2 ^ 17 mod 2 ^ 32 = b /\ v / 2 ^ 49 = c /\ v mod 2 ^ 24 = a + 2 ^ 17 * (b mod 2 ^ 7).
Proof.
  intros Ha Hb. cbn zeta. split_and!.
  - rewrite <- (Z.div_unique _ (2 ^ 17) (b + 2 ^ 32 * c) a) by lia.
    by rewrite <- (Z.mod_unique _ (2 ^ 32) c b) by lia.
  - by rewrite <- (Z.div_unique _ (2 ^ 49) c (a + 2 ^ 17 * b)) by lia.
  - pose proof (Z.div_mod b (2 ^ 7) ltac:(lia)). pose proof (Z.mod_pos_bound b (2 ^ 7) ltac:(lia)).
    symmetry. apply (Z.mod_unique _ _ (b / 2 ^ 7 + 2 ^ 25 * c)); lia.
Qed.

Lemma encode_v4_number micros ip port :
  length ip = 4%nat -> 0 <= port < 2 ^ 16 ->
  exists v, encode micros (V4 ip port) = rev (strip_zeros (rev (le_bytes 16 v)))
    /\ v = (port + as_u32 micros mod 2 ^ 16) + 2 ^ 17 * as_u32 micros + 2 ^ 49 * (le_Z ip + as_u32 micros).
Proof.
  intros Hl Hp. eexists. split; [done|]. pose proof (wrap_range 32 micros ltac:(lia)).
  pose proof (le_Z_range ip) as Hip. unfold len in Hip. rewrite Hl in Hip. cbn in Hip.
  rewrite Z.land_ones with (n := 16) by lia.
  pose proof (Z.mod_pos_bound (as_u32 micros) (2 ^ 16) ltac:(lia)).
  apply fields; lia.
Qed.

Definition unscoped (a : SocketAddr) : SocketAddr :=
  match a with V6 ip port _ _ => V6 ip port 0 0 | _ => a end.

Lemma le_bytes_Z l : le_bytes (length l) (le_Z l) = l.
Proof.
  induction l as [|b l IH]; [done|]. cbn [length le_bytes le_Z].
  pose proof (u8_range b). rewrite Z.shiftr_div_pow2 by lia. change (2 ^ 8) with 256.
  replace ((u8_to_Z b + 256 * le_Z l) / 256) with (le_Z l) by zlia. rewrite IH. f_equal.
  apply u8_to_Z_inj. rewrite u8_to_of_Z. zlia.
Qed.

Lemma stripped_length l : (length (rev (strip_zeros (rev l))) <= length l)%nat.
Proof.
  destruct (strip_zeros_spec (rev l)) as [n E]. rewrite length_rev.
  apply (f_equal length) in E. rewrite length_app, length_replicate, length_rev in E. lia.
Qed.

Lemma decode_v4 micros ip port :
  length ip = 4%nat -> 0 <= port < 2 ^ 16 ->
  decode (encode micros (V4 ip port)) = V4 ip port
  /\ let n := padded_number (encode micros (V4 ip port)) in
     decode_overflows n (Z.land (Z.shiftr n 17) 0xFFFFFFFF) = false.
Proof.
  intros Hl Hp. destruct (encode_v4_number micros ip port Hl Hp) as (v & -> & Hv).
  pose proof (wrap_range 32 micros ltac:(lia)) as Ht. set (tm := as_u32 micros) in *.
  pose proof (le_Z_range ip) as Hip. unfold len in Hip. rewrite Hl in Hip.
  change (256 ^ Z.of_nat 4) with (2 ^ 32) in Hip.
  pose proof (Z.mod_pos_bound tm (2 ^ 16) ltac:(lia)) as Hm.
  pose proof (stripped_length (le_bytes 16 v)) as Hs. rewrite le_bytes_length in Hs.
  unfold decode, decode_overflows. rewrite padded_stripped by apply le_bytes_length.
  rewrite le_Z_bytes by (change (256 ^ Z.of_nat 16) with (2 ^ 128); lia).
  destruct (Z.ltb_spec 16 (len (rev (strip_zeros (rev (le_bytes 16 v)))))) as [Hb|_];
    [unfold len in Hb; lia|].
  change 0xFFFFFFFF with (Z.ones 32). change 0xFFFFFF with (Z.ones 24). change 0xFFFF with (Z.ones 16).
  rewrite !Z.land_ones, !Z.shiftr_div_pow2 by lia.
  destruct (fields_back (port + tm mod 2 ^ 16) tm (le_Z ip + tm)) as (Htm & Hipv & Hv24); [lia..|].
  rewrite <- Hv in Htm, Hipv, Hv24.
  cbn zeta. rewrite Htm, Hipv, Hv24. pose proof (Z.mod_pos_bound tm (2 ^ 7) ltac:(lia)). split.
  - f_equal.
    + replace (le_Z ip + tm - tm) with (le_Z ip) by lia.
      rewrite (wrap_small 128), (wrap_small 32) by lia.
      rewrite <- Hl. apply le_bytes_Z.
    + rewrite (wrap_small 128) by lia. unfold wrap. symmetry.
      apply (Z.mod_unique _ _ (2 * (tm mod 2 ^ 7))); lia.
  - apply orb_false_iff. split; apply Z.ltb_ge; lia.
Qed.

Lemma to_ipv4_length ip v4 : length ip = 16%nat -> to_ipv4 ip = Some v4 -> length v4 = 4%nat.
Proof.
  intros Hl. unfold to_ipv4. case_match; [|done]. intros [= <-]. rewrite length_drop. lia.
Qed.

(** The address of the other end is understood.  Whatever the time at which it is
    mangled, an address is decoded to itself -- an IPv6 address that stands for an IPv4
    one to the IPv4 address, and without flow and scope -- and the subtractions of the
    decoder do not overflow. *)
Theorem mangle_roundtrip micros addr :
  addr_ok addr ->
  decode (encode micros addr) = unscoped (try_into_v4 addr)
  /\ (len (encode micros addr) <= 16 ->
      let n := padded_number (encode micros addr) in
      decode_overflows n (Z.land (Z.shiftr n 17) 0xFFFFFFFF) = false).
Proof.
  intros Hok.
  assert (Hv4 : forall ip port, try_into_v4 addr = V4 ip port -> length ip = 4%nat /\ 0 <= port < 2 ^ 16).
  { intros ip port. destruct addr as [ip0 p0|ip0 p0 f s]; cbn in *; [by intros [= <- <-]|].
    destruct (negb _); [|done]. destruct (to_ipv4 ip0) as [v4|] eqn:E; [|done].
    intros [= <- <-]. destruct Hok. split; [by eapply to_ipv4_length|done]. }
  destruct (try_into_v4 addr) as [ip port|ip port f s] eqn:E.
  - destruct (Hv4 ip port eq_refl) as [Hl Hp]. destruct (decode_v4 micros ip port Hl Hp) as [Hd Ho].
    assert (Ee : encode micros addr = encode micros (V4 ip port)) by (unfold encode; rewrite E; exact eq_refl).
    rewrite Ee. split; [exact Hd|intros _; exact Ho].
  - assert (Ea : addr = V6 ip port f s).
    { destruct addr as [|ip0 p0 f0 s0]; cbn in E; [done|]. by repeat case_match; simplify_eq. }
    subst. destruct Hok as [Hl Hp]. unfold encode. rewrite E.
    assert (Hlen : len (ip ++ le_bytes 2 port) = 18)
      by (rewrite len_app; unfold len; rewrite Hl, le_bytes_length; reflexivity).
    rewrite Hlen. split; [|intros; exfalso; lia]. unfold decode. rewrite Hlen.
    change (16 <? 18) with true. change (18 =? 18) with true. cbn [negb unscoped].
    rewrite <- Hl, take_app_length, drop_app_length. by rewrite le_Z_bytes by (cbn; lia).
Qed.

(** A message of the network can make the decoder overflow. *)
Lemma decode_can_overflow :
  let n := padded_number [x00; x00; x02] in
  decode_overflows n (Z.land (Z.shiftr n 17) 0xFFFFFFFF) = true.
Proof. vm_compute. reflexivity. Qed.

Lemma mangle_roundtrip_witness :
  decode (encode 1700000000123456 (V4 [xc0; xa8; x01; x02] 8080)) = V4 [xc0; xa8; x01; x02] 8080
  /\ decode (encode 5 (V6 (replicate 10 x00 ++ [xff; xff; x7f; x00; x00; x01]) 443 7 2))
     = V4 [x7f; x00; x00; x01] 443.
Proof.
  split.
  - apply (mangle_roundtrip 1700000000123456 (V4 [xc0; xa8; x01; x02] 8080)). split; [reflexivity|lia].
  - apply (mangle_roundtrip 5 (V6 (replicate 10 x00 ++ [xff; xff; x7f; x00; x00; x01]) 443 7 2)).
    split; [reflexivity|lia].
Defined.
