(* ===== verification/Nacl.v ===== *)
(** * The cryptographic library

    The program calls libsodium for authenticated encryption under a shared key
    (secret boxes), under a pair of key pairs (boxes) and for signatures.  Its
    functions are parameters, the laws are what its documentation promises, and a toy
    instance of each shows that the laws can hold.  Keys, nonces and texts are bytes;
    the random choice of a key or a nonce is an argument of the operation. *)

From S2P Require Import Prelude.

Definition NONCEBYTES : Z := 24.
Definition MACBYTES : Z := 16.
Definition KEYBYTES : Z := 32.
Definition PUBLICKEYBYTES : Z := 32.
Definition SECRETKEYBYTES : Z := 64.

(** [secretbox::seal] and [secretbox::open]: data, nonce, key. *)
Class SecretBox : Type := {
  seal : list byte -> list byte -> list byte -> list byte;
  unseal : list byte -> list byte -> list byte -> option (list byte)
}.

Class SecretBoxLaws `{SecretBox} : Prop := {
  unseal_seal d nonce key : unseal (seal d nonce key) nonce key = Some d;
  seal_len d nonce key : len (seal d nonce key) = len d + MACBYTES
}.

(** [box_::seal] and [box_::open]: data, nonce, their public key, our secret key. *)
Class Box : Type := {
  box_public : list byte -> list byte;
  box_seal : list byte -> list byte -> list byte -> list byte -> list byte;
  box_open : list byte -> list byte -> list byte -> list byte -> option (list byte)
}.

Class BoxLaws `{Box} : Prop := {
  box_public_len sk : len (box_public sk) = PUBLICKEYBYTES;
  box_open_seal d nonce a b :
    box_open (box_seal d nonce (box_public b) a) nonce (box_public a) b = Some d
}.

(** [sign::sign] and [sign::verify]. *)
Class Sign : Type := {
  sign_public : list byte -> list byte;
  sign : list byte -> list byte -> list byte;
  verify : list byte -> list byte -> option (list byte)
}.

Class SignLaws `{Sign} : Prop := {
  sign_public_len sk : len sk = SECRETKEYBYTES -> len (sign_public sk) = PUBLICKEYBYTES;
  verify_sign m sk : len sk = SECRETKEYBYTES -> verify (sign m sk) (sign_public sk) = Some m
}.

(** ** A toy instance *)

Definition toy_mac (nonce key : list byte) : list byte :=
  take 16 (take 8 nonce ++ key ++ replicate 16 x00).

Definition toy_secretbox : SecretBox := {|
  seal d nonce key := toy_mac nonce key ++ d;
  unseal c nonce key :=
    if bool_decide (take 16 c = toy_mac nonce key) then Some (drop 16 c) else None
|}.

Definition toy_box : Box := {|
  box_public sk := take 32 (sk ++ replicate 32 x00);
  box_seal d _ _ _ := d;
  box_open c _ _ _ := Some c
|}.

Definition toy_sign : Sign := {|
  sign_public sk := take 32 sk;
  sign m sk := take 32 sk ++ m;
  verify s pk := if bool_decide (take 32 s = pk) then Some (drop 32 s) else None
|}.

Lemma toy_mac_len nonce key : length (toy_mac nonce key) = 16%nat.
Proof. unfold toy_mac. rewrite length_take, !length_app, length_replicate. lia. Qed.

Lemma toy_secretbox_laws : @SecretBoxLaws toy_secretbox.
Proof.
  split; unfold seal, unseal, toy_secretbox; intros d nonce key.
  - rewrite take_app_le by (rewrite toy_mac_len; lia).
    rewrite take_ge by (rewrite toy_mac_len; lia). rewrite bool_decide_true by done.
    by rewrite drop_app_length' by (symmetry; apply toy_mac_len).
  - unfold len. rewrite length_app, toy_mac_len. unfold MACBYTES. lia.
Qed.

Lemma toy_box_laws : @BoxLaws toy_box.
Proof.
  split; [|done]. intros sk. unfold len, box_public, toy_box.
  rewrite length_take, length_app, length_replicate. unfold PUBLICKEYBYTES. lia.
Qed.

Lemma toy_sign_laws : @SignLaws toy_sign.
Proof.
  split; unfold len, sign_public, sign, verify, toy_sign, SECRETKEYBYTES, PUBLICKEYBYTES; intros.
  - rewrite length_take. lia.
  - rewrite take_app_length' by (rewrite length_take; lia). rewrite bool_decide_true by done.
    by rewrite drop_app_length' by (rewrite length_take; lia).
Qed.
