(* ===== verification/SecureStream.v ===== *)
(** * Encrypted streams (libs/hbb_common/src/tcp.rs) and the handshake that keys them

    A [FramedStream] is the frame codec of [BytesCodec] over a socket, and an optional
    key.  With a key, every payload is sealed under a nonce counted per direction.  The
    handshake is [secure_connection] of src/client.rs on the controlling side and
    [create_tcp_connection] of src/server.rs on the controlled side.

    The abstract view of a connected pair is a queue of messages: sending appends,
    receiving takes the first.  The streams refine it whatever the network does to the
    boundaries of the pieces it delivers. *)

From Stdlib Require Import Strings.String.
From S2P Require Import Prelude BytesCodec Nacl.

(** ** State *)

(** Key, number of messages sent, number of messages received. *)
Record Encrypt : Type := mkEncrypt { ekey : list byte; sent_seq : Z; recv_seq : Z }.

(** [outbuf] is what was sent and is still on its way. *)
Record FramedStream : Type := mkStream {
  codec : BytesCodec;
  inbuf : BytesMut;
  outbuf : BytesMut;
  key : option Encrypt
}.

Inductive StreamError : Type :=
| Codec (e : IoError)
| DecryptionError.

Definition no_bytes : BytesMut := mkBytesMut [] 0.

Definition stream_from : FramedStream := mkStream BytesCodec.new no_bytes no_bytes None.

Definition get_nonce (seqnum : Z) : list byte := le_bytes 8 seqnum ++ replicate 16 x00.

Definition encrypt_new (k : list byte) : Encrypt := mkEncrypt k 0 0.

Definition set_key (k : list byte) (s : FramedStream) : FramedStream :=
  mkStream (codec s) (inbuf s) (outbuf s) (Some (encrypt_new k)).

(** From here on bytes are copied, as the forwarding of a port does. *)
Definition stream_set_raw (s : FramedStream) : FramedStream :=
  mkStream (BytesCodec.set_raw (codec s)) (inbuf s) (outbuf s) None.

Section Stream.
Context `{SecretBox}.

Definition enc (data : list byte) (e : Encrypt) : list byte * Encrypt :=
  let n := as_u64 (sent_seq e + 1) in
  (seal data (get_nonce n) (ekey e), mkEncrypt (ekey e) n (recv_seq e)).

(** A payload of at most one byte is not a sealed one, and is passed on. *)
Definition dec (data : list byte) (e : Encrypt) : result StreamError (list byte) * Encrypt :=
  if len data <=? 1 then (Ok data, e)
  else
    let n := as_u64 (recv_seq e + 1) in
    let e := mkEncrypt (ekey e) (sent_seq e) n in
    match unseal data (get_nonce n) (ekey e) with
    | Some d => (Ok d, e)
    | None => (Err DecryptionError, e)
    end.

Definition send_bytes (data : list byte) (s : FramedStream) : result StreamError unit * FramedStream :=
  match encode (codec s) data (outbuf s) with
  | (Ok _, out) => (Ok tt, mkStream (codec s) (inbuf s) out (key s))
  | (Err e, out) => (Err (Codec e), mkStream (codec s) (inbuf s) out (key s))
  end.

Definition send_raw (msg : list byte) (s : FramedStream) : result StreamError unit * FramedStream :=
  match key s with
  | Some e =>
      let '(msg, e) := enc msg e in
      send_bytes msg (mkStream (codec s) (inbuf s) (outbuf s) (Some e))
  | None => send_bytes msg s
  end.

(** [None]: more data has to come first. *)
Definition next (s : FramedStream) : result StreamError (option (list byte)) * FramedStream :=
  match decode (codec s) (inbuf s) with
  | (Err e, c, b) => (Err (Codec e), mkStream c b (outbuf s) (key s))
  | (Ok None, c, b) => (Ok None, mkStream c b (outbuf s) (key s))
  | (Ok (Some d), c, b) =>
      match key s with
      | Some e =>
          match dec d e with
          | (Ok d, e) => (Ok (Some d), mkStream c b (outbuf s) (Some e))
          | (Err x, e) => (Err x, mkStream c b (outbuf s) (Some e))
          end
      | None => (Ok (Some d), mkStream c b (outbuf s) None)
      end
  end.

(** ** A pair of streams and the network between them *)

Record Link : Type := mkLink { tx : FramedStream; rx : FramedStream }.

Inductive LinkOp : Type :=
| Send (m : list byte)
| Deliver (n : nat)                          (* the network delivers [n] bytes *)
| Next.

Definition deliver (n : nat) (l : Link) : Link :=
  let wire := outbuf (tx l) in
  mkLink
    (mkStream (codec (tx l)) (inbuf (tx l)) (mkBytesMut (drop n (bytes wire)) (demanded wire))
       (key (tx l)))
    (mkStream (codec (rx l)) (put (take n (bytes wire)) (inbuf (rx l))) (outbuf (rx l)) (key (rx l))).

Definition link_step (op : LinkOp) (l : Link) : result StreamError (option (list byte)) * Link :=
  match op with
  | Send m =>
      let '(r, s) := send_raw m (tx l) in
      (match r with Ok _ => Ok None | Err e => Err e end, mkLink s (rx l))
  | Deliver n => (Ok None, deliver n l)
  | Next => let '(r, s) := next (rx l) in (r, mkLink (tx l) s)
  end.

(** What is received while the operations run; the first error ends them. *)
Fixpoint link_run (ops : list LinkOp) (l : Link) : result StreamError (list (list byte)) * Link :=
  match ops with
  | [] => (Ok [], l)
  | op :: ops =>
      match link_step op l with
      | (Ok r, l) =>
          let '(rs, l) := link_run ops l in
          (match rs with
           | Ok rs => Ok (match r with Some m => m :: rs | None => rs end)
           | Err e => Err e
           end, l)
      | (Err e, l) => (Err e, l)
      end
  end.

Fixpoint sent_by (ops : list LinkOp) : list (list byte) :=
  match ops with
  | [] => []
  | Send m :: ops => m :: sent_by ops
  | _ :: ops => sent_by ops
  end.

(** The sealed messages of [q], after [n] earlier ones. *)
Fixpoint sealed (k : list byte) (n : Z) (q : list (list byte)) : list (list byte) :=
  match q with
  | [] => []
  | m :: q => seal m (get_nonce (n + 1)) k :: sealed k (n + 1) q
  end.

(** The streams of [l] hold the queue [q] of messages on their way. *)
Definition holds (l : Link) (q : list (list byte)) : Prop :=
  exists k e_tx e_rx,
    key (tx l) = Some e_tx /\ key (rx l) = Some e_rx /\ ekey e_tx = k /\ ekey e_rx = k
    /\ 0 <= recv_seq e_rx /\ sent_seq e_tx = recv_seq e_rx + len q
    /\ raw (codec (tx l)) = false /\ raw (codec (rx l)) = false
    /\ Forall (sendable (max_packet_length (codec (rx l)))) (sealed k (recv_seq e_rx) q)
    /\ Awaits (codec (rx l)) (inbuf (rx l)) (bytes (outbuf (tx l))) (sealed k (recv_seq e_rx) q).
End Stream.

(** ** Nonces *)

Lemma get_nonce_inj a b :
  0 <= a < 2 ^ 64 -> 0 <= b < 2 ^ 64 -> get_nonce a = get_nonce b -> a = b.
Proof.
  unfold get_nonce. intros Ha Hb E. apply app_inv_tail in E.
  by apply (le_bytes_inj 8) in E.
Qed.

(** ** The refinement *)

Section Refinement.
Context `{SecretBoxLaws}.

Lemma sealed_app k n q m :
  sealed k n (q ++ [m]) = sealed k n q ++ [seal m (get_nonce (n + len q + 1)) k].
Proof.
  revert n. induction q as [|m' q IH]; intros n; cbn; [by rewrite len_nil, Z.add_0_r|].
  rewrite IH, len_cons. by replace (n + 1 + len q + 1) with (n + (1 + len q) + 1) by lia.
Qed.

Lemma awaits_send c b fut ps x :
  Awaits c b fut ps -> Awaits c b (fut ++ frame x) (ps ++ [x]).
Proof.
  assert (Hf : forall qs, frames (qs ++ [x]) = frames qs ++ frame x).
  { intros qs. unfold frames. rewrite fmap_app, concat_app. cbn. by rewrite app_nil_r. }
  unfold Awaits. destruct (state c) as [|n].
  - intros E. rewrite Hf, app_assoc. by rewrite E.
  - intros (p & ps' & -> & -> & E). exists p, (ps' ++ [x]). by rewrite Hf, !app_assoc, E.
Qed.

Lemma awaits_deliver c b fut n ps :
  Awaits c b fut ps -> Awaits c (put (take n fut) b) (drop n fut) ps.
Proof.
  assert (E : bytes (put (take n fut) b) ++ drop n fut = bytes b ++ fut)
    by (cbn; by rewrite <- app_assoc, take_drop).
  unfold Awaits. by rewrite E.
Qed.

(** The receiver of [l] takes a message of this size. *)
Definition fits (l : Link) (m : list byte) : Prop :=
  len m + MACBYTES <= 0x3FFFFFFF /\ len m + MACBYTES <= max_packet_length (codec (rx l)).

Lemma sealed_sendable l k n m : fits l m -> sendable (max_packet_length (codec (rx l))) (seal m n k).
Proof. unfold fits, sendable. by rewrite seal_len. Qed.

Definition sent_count (l : Link) : Z := match key (tx l) with Some e => sent_seq e | None => 0 end.

Lemma send_holds l q m :
  holds l q -> fits l m -> sent_count l + 1 < 2 ^ 64 ->
  exists l', link_step (Send m) l = (Ok None, l') /\ holds l' (q ++ [m])
    /\ sent_count l' = sent_count l + 1 /\ codec (rx l') = codec (rx l).
Proof.
  intros (k & et & er & Hkt & Hkr & Ht & Hr & Hn & Hc & Hrt & Hrr & Hs & Ha) Hfit Hlim.
  pose proof (len_nonneg q). unfold sent_count in *. rewrite Hkt in Hlim. cbn [link_step].
  unfold send_raw, enc, send_bytes. rewrite Hkt. cbn [codec outbuf].
  rewrite wrap_small by lia. rewrite encode_frame; [|done|].
  2: { apply sealed_sendable with (k := ekey et) (n := get_nonce (sent_seq et + 1)) in Hfit. apply Hfit. }
  eexists. split; [done|]. cbn. split; [|by split; [lia|]].
  exists k, (mkEncrypt (ekey et) (sent_seq et + 1) (recv_seq et)), er.
  assert (Hl : len (q ++ [m]) = len q + 1) by (rewrite len_app; done). rewrite Hl.
  cbn. split_and!; try done; try lia.
  - rewrite sealed_app. apply Forall_app. split; [done|]. constructor; [|done].
    by apply sealed_sendable.
  - rewrite sealed_app, <- Hc, Ht. by apply awaits_send.
Qed.

Lemma deliver_holds l q n :
  holds l q -> holds (deliver n l) q /\ sent_count (deliver n l) = sent_count l
    /\ max_packet_length (codec (rx (deliver n l))) = max_packet_length (codec (rx l)).
Proof.
  intros (k & et & er & Hkt & Hkr & Ht & Hr & Hn & Hc & Hrt & Hrr & Hs & Ha).
  split; [|done]. exists k, et, er. cbn. split_and!; try done. by apply awaits_deliver.
Qed.

Lemma next_holds l q :
  holds l q -> sent_count l < 2 ^ 64 ->
  exists r l', link_step Next l = (Ok r, l') /\ outbuf (tx l') = outbuf (tx l)
    /\ sent_count l' = sent_count l
    /\ max_packet_length (codec (rx l')) = max_packet_length (codec (rx l))
    /\ match r with
       | Some m => exists q', q = m :: q' /\ holds l' q'
       | None => holds l' q /\ (bytes (outbuf (tx l)) = [] -> q = [])
       end.
Proof.
  intros (k & et & er & Hkt & Hkr & Ht & Hr & Hn & Hc & Hrt & Hrr & Hs & Ha) Hlim.
  unfold sent_count in *. rewrite Hkt in Hlim. cbn [link_step]. unfold next.
  destruct (decode_step _ _ _ _ Hrr Hs Ha)
    as [(c' & b' & -> & Ha' & Hr' & Hm & Hend)|(p & ps' & c' & b' & Ep & -> & Ha' & Hr' & Hm & _)].
  - exists None. eexists. split; [done|]. cbn. rewrite Hkt. split_and!; try done.
    + exists k, et, er. cbn. rewrite Hm. by split_and!.
    + intros E. destruct (Hend E) as [Hq _]. by destruct q.
  - destruct q as [|m q]; [done|]. cbn [sealed] in Ep. injection Ep as <- <-.
    rewrite Hkr. unfold dec. pose proof (seal_len m (get_nonce (recv_seq er + 1)) k) as Hl.
    pose proof (len_nonneg m). pose proof (len_nonneg q). rewrite len_cons in Hc.
    unfold MACBYTES in Hl. destruct (Z.leb_spec (len (seal m (get_nonce (recv_seq er + 1)) k)) 1); [lia|].
    rewrite wrap_small by lia. rewrite Hr, unseal_seal.
    exists (Some m). eexists. split; [done|]. cbn. rewrite Hkt. split_and!; try done.
    exists q. split; [done|]. exists k, et, (mkEncrypt k (sent_seq er) (recv_seq er + 1)). cbn.
    cbn [sealed] in Hs. apply Forall_cons in Hs as [_ Hs]. rewrite Hm. split_and!; try done; lia.
Qed.

Lemma fits_limit l l' m :
  max_packet_length (codec (rx l')) = max_packet_length (codec (rx l)) -> fits l m -> fits l' m.
Proof. unfold fits. by intros ->. Qed.

(** Once everything is delivered, receiving gives the queue. *)
Lemma receive_all q l :
  holds l q -> sent_count l < 2 ^ 64 -> bytes (outbuf (tx l)) = [] ->
  fst (link_run (replicate (length q) Next) l) = Ok q.
Proof.
  revert l. induction q as [|m q IH]; intros l Hh Hlim Ho; [done|].
  destruct (next_holds l (m :: q) Hh Hlim) as (r & l' & E & Ho' & Hs' & _ & Hr).
  cbn [length replicate link_run]. rewrite E. destruct r as [m'|].
  - destruct Hr as (q' & [= <- <-] & Hh'). rewrite <- Ho' in Ho. rewrite <- Hs' in Hlim.
    specialize (IH l' Hh' Hlim Ho). destruct (link_run _ l') as [rs l2]. cbn in IH. by rewrite IH.
  - destruct Hr as [_ Hq]. by specialize (Hq Ho).
Qed.

(** C3: A stream is a queue.  Whatever is sent over an encrypted stream, and however
    the network cuts its bytes into pieces, the receiver gets exactly the messages
    that were sent, unchanged, in order and without a decryption error; what it does
    not have yet is on its way, and is received once the network has delivered it. *)
Theorem secure_stream_is_a_queue ops l q :
  holds l q -> Forall (fits l) (sent_by ops) -> sent_count l + len (sent_by ops) < 2 ^ 64 ->
  exists got q' l',
    link_run ops l = (Ok got, l') /\ q ++ sent_by ops = got ++ q' /\ holds l' q'
    /\ (bytes (outbuf (tx l')) = [] ->
        fst (link_run (replicate (length q') Next) l') = Ok q').
Proof.
  revert l q. induction ops as [|op ops IH]; intros l q Hh Hf Hlim.
  { exists [], q, l. rewrite app_nil_r. split_and!; try done. intros Ho. apply receive_all; try done.
    cbn in Hlim. unfold len in Hlim. cbn in Hlim. lia. }
  pose proof (len_nonneg (sent_by ops)). cbn [link_run]. destruct op as [m|n|]; cbn [sent_by] in *.
  - apply Forall_cons in Hf as [Hm Hf]. rewrite len_cons in Hlim.
    destruct (send_holds l q m Hh Hm) as (l' & -> & Hh' & Hs' & Hc'); [lia|].
    destruct (IH l' (q ++ [m])) as (got & q' & l2 & -> & Eq & Hh2 & Hend); [done| |lia|].
    { eapply Forall_impl; [exact Hf|]. intros x. apply fits_limit. by rewrite Hc'. }
    exists got, q', l2. rewrite <- app_assoc in Eq. by split_and!.
  - destruct (deliver_holds l q n Hh) as (Hh' & Hs' & Hm').
    destruct (IH (deliver n l) q) as (got & q' & l2 & E & Eq & Hh2 & Hend); [done| |lia|].
    { eapply Forall_impl; [exact Hf|]. intros x. by apply fits_limit. }
    exists got, q', l2. cbn [link_step]. rewrite E. by split_and!.
  - destruct (next_holds l q Hh) as (r & l' & -> & _ & Hs' & Hm' & Hr); [lia|].
    destruct r as [m|].
    + destruct Hr as (q0 & -> & Hh').
      destruct (IH l' q0) as (got & q' & l2 & -> & Eq & Hh2 & Hend); [done| |lia|].
      { eapply Forall_impl; [exact Hf|]. intros x. by apply fits_limit. }
      exists (m :: got), q', l2. cbn. rewrite Eq. by split_and!.
    + destruct Hr as [Hh' _].
      destruct (IH l' q) as (got & q' & l2 & -> & Eq & Hh2 & Hend); [done| |lia|].
      { eapply Forall_impl; [exact Hf|]. intros x. by apply fits_limit. }
      exists got, q', l2. by split_and!.
Qed.
End Refinement.

(** ** The handshake *)

(** The messages of the handshake, and every other message. *)
Inductive HandshakeMsg : Type :=
| HsSignedId (id : list byte)
| HsPublicKey (asymmetric_value symmetric_value : list byte)
| HsOther
| HsEmpty.                                   (* [Message::new()] *)

(** [IdPk]. *)
Record IdPk : Type := mkIdPk { idpk_id : string; idpk_pk : list byte }.

(** The generated serialization of the messages: [parse_from_bytes] and [write_to_bytes]. *)
Class Wire : Type := {
  idpk_to_bytes : IdPk -> list byte;
  idpk_of_bytes : list byte -> option IdPk
}.
Class WireLaws `{Wire} : Prop := { idpk_roundtrip i : idpk_of_bytes (idpk_to_bytes i) = Some i }.

Inductive HandshakeError : Type :=
| InvalidKeyLength
| BoxFailure
| InvalidFormat
| Reset.

Definition box_nonce : list byte := replicate 24 x00.

(** [get_pk]. *)
Definition get_pk (pk : list byte) : option (list byte) :=
  if len pk =? 32 then Some pk else None.

Section Handshake.
Context `{Box} `{Sign} `{Wire}.

Definition decode_id_pk (signed key : list byte) : option (string * list byte) :=
  match verify signed key with
  | None => None
  | Some m =>
      match idpk_of_bytes m with
      | None => None
      | Some i => match get_pk (idpk_pk i) with Some pk => Some (idpk_id i, pk) | None => None end
      end
  end.

(** [Encrypt::decode]: the key in the controlling side's answer. *)
Definition encrypt_decode (symmetric_data their_pk_b our_sk_b : list byte)
  : result HandshakeError (list byte) :=
  if negb (len their_pk_b =? PUBLICKEYBYTES) then Err InvalidKeyLength
  else match box_open symmetric_data box_nonce their_pk_b our_sk_b with
  | None => Err BoxFailure
  | Some k => if len k =? KEYBYTES then Ok k else Err InvalidKeyLength
  end.

(** [our_sk_b] and [k] are fresh. *)
Definition create_symmetric_key_msg (their_pk_b our_sk_b k : list byte)
  : list byte * list byte * list byte :=
  (box_public our_sk_b, box_seal k box_nonce their_pk_b our_sk_b, k).

(** The public key the rendezvous server vouches for; without one the session is not
    encrypted. *)
Definition peer_sign_pk (peer_id : string) (signed_id_pk : list byte) (rs_pk : option (list byte))
  : option (list byte) :=
  if bool_decide (signed_id_pk = []) then None
  else match rs_pk with
  | None => None
  | Some rs_pk =>
      match decode_id_pk signed_id_pk rs_pk with
      | Some (id, pk) => if bool_decide (id = peer_id) then Some pk else None
      | None => None
      end
  end.

(** The controlling side: what it answers, the key it sets, the peer's public key.  [incoming] is the first
    message of the peer; the inner [None] is one that does not parse. *)
Definition secure_connection (peer_id : string) (signed_id_pk : list byte)
    (rs_pk : option (list byte)) (incoming : option (option HandshakeMsg))
    (our_sk_b k : list byte)
  : result HandshakeError (HandshakeMsg * option (list byte) * option (list byte)) :=
  match peer_sign_pk peer_id signed_id_pk rs_pk with
  | None => Ok (HsEmpty, None, None)
  | Some sign_pk =>
      match incoming with
      | None => Err Reset
      | Some (Some (HsSignedId si)) =>
          match decode_id_pk si sign_pk with
          | Some (id, their_pk_b) =>
              if bool_decide (id = peer_id) then
                let '(asymmetric_value, symmetric_value, key) :=
                  create_symmetric_key_msg their_pk_b our_sk_b k in
                Ok (HsPublicKey asymmetric_value symmetric_value, Some key, Some sign_pk)
              else Ok (HsEmpty, None, Some sign_pk)
          | None => Ok (HsPublicKey [] [], None, Some sign_pk)
          end
      | Some _ => Ok (HsEmpty, None, Some sign_pk)
      end
  end.

(** The controlled side: its signed identity, then the key in the answer.  A connection
    that is not to be secured has neither. *)
Definition server_hello (my_id : string) (sk our_sk_b : list byte) : HandshakeMsg :=
  HsSignedId (sign (idpk_to_bytes (mkIdPk my_id (box_public our_sk_b))) sk).

Definition server_key (incoming : option (option HandshakeMsg)) (our_sk_b : list byte)
  : result HandshakeError (option (list byte)) :=
  match incoming with
  | None => Err Reset
  | Some None => Err InvalidFormat
  | Some (Some (HsPublicKey asymmetric_value symmetric_value)) =>
      if len asymmetric_value =? PUBLICKEYBYTES then
        let? k := encrypt_decode symmetric_value asymmetric_value our_sk_b in Ok (Some k)
      else if bool_decide (asymmetric_value = []) then Ok None
      else Err InvalidKeyLength
  | Some (Some _) => Ok None
  end.

(** What the controlled side sends, and the key it sets after the answer. *)
Definition create_tcp_connection (secure : bool) (my_id : string) (sk pk our_sk_b : list byte)
    (incoming : option (option HandshakeMsg))
  : option HandshakeMsg * result HandshakeError (option (list byte)) :=
  if secure && (len pk =? PUBLICKEYBYTES) && (len sk =? SECRETKEYBYTES)
  then (Some (server_hello my_id sk our_sk_b), server_key incoming our_sk_b)
  else (None, Ok None).
End Handshake.

(** A stream over which everything sent has arrived and was received. *)
Definition quiet (s : FramedStream) : Prop :=
  raw (codec s) = false /\ state (codec s) = Head /\ bytes (inbuf s) = [] /\ bytes (outbuf s) = [].

Lemma keyed_holds `{SecretBox} k a b :
  quiet a -> quiet b -> holds (mkLink (set_key k a) (set_key k b)) [].
Proof.
  intros (Hra & _ & _ & Ho) (Hrb & Hh & Hi & _).
  exists k, (encrypt_new k), (encrypt_new k). cbn. split_and!; try done.
  unfold Awaits. by rewrite Hh, Hi, Ho.
Qed.

Section Agreement.
Context `{BoxLaws} `{SignLaws} `{WireLaws}.

Lemma decode_signed id pk sk :
  len sk = SECRETKEYBYTES -> len pk = 32 ->
  decode_id_pk (sign (idpk_to_bytes (mkIdPk id pk)) sk) (sign_public sk) = Some (id, pk).
Proof.
  intros Hs Hp. unfold decode_id_pk, get_pk. rewrite verify_sign, idpk_roundtrip by done. cbn.
  by rewrite Hp.
Qed.

(** Both ends agree on the key.  When the rendezvous server vouches for the
    peer's public key and the peer is the one that was asked for, the handshake gives
    both ends the key that the controlling side has chosen, and from then on the
    connection is a queue in both directions. *)
Theorem handshake_agrees `{SecretBox} id rs_sk peer_sk client_b server_b k client server :
  len rs_sk = SECRETKEYBYTES -> len peer_sk = SECRETKEYBYTES -> len k = KEYBYTES ->
  sign (idpk_to_bytes (mkIdPk id (sign_public peer_sk))) rs_sk <> [] ->
  quiet client -> quiet server ->
  exists hello answer pk,
    create_tcp_connection true id peer_sk (sign_public peer_sk) server_b (Some (Some answer))
      = (Some hello, Ok (Some k))
    /\ secure_connection id (sign (idpk_to_bytes (mkIdPk id (sign_public peer_sk))) rs_sk)
         (Some (sign_public rs_sk)) (Some (Some hello)) client_b k = Ok (answer, Some k, Some pk)
    /\ holds (mkLink (set_key k client) (set_key k server)) []
    /\ holds (mkLink (set_key k server) (set_key k client)) [].
Proof.
  intros Hrs Hps Hk Hne Hc Hs.
  exists (server_hello id peer_sk server_b),
    (HsPublicKey (box_public client_b) (box_seal k box_nonce (box_public server_b) client_b)),
    (sign_public peer_sk).
  split; [|split; [|split; by apply keyed_holds]].
  - unfold create_tcp_connection, server_key, encrypt_decode.
    rewrite sign_public_len, Hps, !box_public_len by done. cbn.
    by rewrite box_open_seal, Hk.
  - unfold secure_connection, peer_sign_pk, server_hello. rewrite bool_decide_false by done.
    rewrite decode_signed by (try done; by apply sign_public_len). rewrite bool_decide_true by done.
    rewrite decode_signed by (try done; by apply box_public_len). by rewrite bool_decide_true.
Qed.
End Agreement.

(** C30: The key is given to the peer only.  If the controlling side sets a key, the
    rendezvous server's key has signed that the peer's id belongs to a public key, that
    key has signed the box key of the peer, and the session key was sealed for that box
    key. *)
Theorem key_is_for_the_peer `{Box} `{Sign} `{Wire} peer_id signed_id_pk rs_pk incoming our_sk_b k
    answer key pk :
  secure_connection peer_id signed_id_pk rs_pk incoming our_sk_b k = Ok (answer, Some key, pk) ->
  exists rs si sign_pk their_pk,
    rs_pk = Some rs /\ decode_id_pk signed_id_pk rs = Some (peer_id, sign_pk)
    /\ incoming = Some (Some (HsSignedId si)) /\ decode_id_pk si sign_pk = Some (peer_id, their_pk)
    /\ key = k /\ answer = HsPublicKey (box_public our_sk_b) (box_seal k box_nonce their_pk our_sk_b).
Proof.
  unfold secure_connection, peer_sign_pk, create_symmetric_key_msg. intros E.
  repeat (case_match; simplify_eq).
  repeat match goal with H : bool_decide _ = true |- _ => apply bool_decide_eq_true_1 in H; subst end.
  naive_solver.
Qed.

(** ** What the scheme does not give *)

(** Both directions count from the same start under the same key: the n-th messages of
    the two ends are sealed under one nonce. *)
Lemma directions_share_nonces `{SecretBox} k n m m' r r' :
  fst (enc m (mkEncrypt k n r)) = seal m (get_nonce (as_u64 (n + 1))) k
  /\ fst (enc m' (mkEncrypt k n r')) = seal m' (get_nonce (as_u64 (n + 1))) k.
Proof. done. Qed.

(** A message sent back to its sender as the answer of the same number is accepted. *)
Lemma reflected_message_is_accepted `{SecretBoxLaws} m e r :
  fst (dec (fst (enc m e)) (mkEncrypt (ekey e) r (sent_seq e))) = Ok m.
Proof.
  unfold dec, enc. cbn [fst ekey sent_seq recv_seq]. set (n := get_nonce _).
  pose proof (seal_len m n (ekey e)) as Hl. pose proof (len_nonneg m). unfold MACBYTES in Hl.
  destruct (Z.leb_spec (len (seal m n (ekey e))) 1); [lia|]. by rewrite unseal_seal.
Qed.

(** A frame of one byte that was never sealed is accepted. *)
Lemma short_frame_is_accepted `{SecretBox} b e : dec [b] e = (Ok [b], e).
Proof. done. Qed.

(** The bytes of a forwarded port leave the encryption. *)
Lemma forwarded_bytes_are_plain `{SecretBox} s data :
  bytes (outbuf (snd (send_raw data (stream_set_raw s)))) = bytes (outbuf s) ++ data.
Proof. done. Qed.

(** ** Witnesses *)

(** The key's length in unary, the key, the id. *)
Fixpoint span_ones (b : list byte) : list byte * list byte :=
  match b with
  | x01 :: b => let '(ones, rest) := span_ones b in (x01 :: ones, rest)
  | _ :: b => ([], b)
  | [] => ([], [])
  end.

Definition toy_wire : Wire := {|
  idpk_to_bytes i :=
    replicate (length (idpk_pk i)) x01 ++ [x00] ++ idpk_pk i ++ list_byte_of_string (idpk_id i);
  idpk_of_bytes b :=
    let n := length (fst (span_ones b)) in
    let rest := snd (span_ones b) in
    Some (mkIdPk (string_of_list_byte (drop n rest)) (take n rest))
|}.

Lemma toy_wire_laws : @WireLaws toy_wire.
Proof.
  assert (Hs : forall n b, span_ones (replicate n x01 ++ [x00] ++ b) = (replicate n x01, b)).
  { intros n b. induction n as [|n IH]; [done|]. cbn in *. by rewrite IH. }
  split. intros [id pk]. unfold idpk_of_bytes, idpk_to_bytes, toy_wire. cbn [idpk_pk idpk_id].
  rewrite !Hs. cbn [fst snd]. rewrite length_replicate, take_app_length, drop_app_length.
  by rewrite string_of_list_byte_of_string.
Qed.

Definition ex_key : list byte := replicate 32 x09.
Definition ex_link : Link := mkLink (set_key ex_key stream_from) (set_key ex_key stream_from).

Lemma secure_stream_is_a_queue_witness :
  let ops := [Send [x61]; Deliver 3; Next; Send [x62; x63]; Deliver 100; Next; Next] in
  exists got q' l',
    link_run (H := toy_secretbox) ops ex_link = (Ok got, l') /\ [[x61]; [x62; x63]] = got ++ q'.
Proof.
  intros ops.
  destruct (secure_stream_is_a_queue (H := toy_secretbox) (H0 := toy_secretbox_laws) ops ex_link [])
    as (got & q' & l' & E & Eq & _).
  - by apply keyed_holds.
  - repeat constructor; vm_compute; discriminate.
  - vm_compute. reflexivity.
  - exists got, q', l'. split; [exact E|exact Eq].
Defined.

Definition ex_sk (b : byte) : list byte := replicate 64 b.

Lemma handshake_agrees_witness :
  exists hello answer pk,
    create_tcp_connection (H := toy_box) (H0 := toy_sign) (H1 := toy_wire) true "9" (ex_sk x02)
      (sign_public (Sign := toy_sign) (ex_sk x02)) (ex_sk x03) (Some (Some answer))
    = (Some hello, Ok (Some ex_key))
    /\ secure_connection (H := toy_box) (H0 := toy_sign) (H1 := toy_wire) "9"
         (sign (Sign := toy_sign) (idpk_to_bytes (Wire := toy_wire)
            (mkIdPk "9" (sign_public (Sign := toy_sign) (ex_sk x02)))) (ex_sk x01))
         (Some (sign_public (Sign := toy_sign) (ex_sk x01))) (Some (Some hello)) (ex_sk x04) ex_key
       = Ok (answer, Some ex_key, Some pk).
Proof.
  destruct (handshake_agrees (H := toy_box) (H0 := toy_box_laws) (H1 := toy_sign)
              (H2 := toy_sign_laws) (H3 := toy_wire) (H4 := toy_wire_laws) (H5 := toy_secretbox)
              "9" (ex_sk x01) (ex_sk x02) (ex_sk x04) (ex_sk x03) ex_key stream_from stream_from)
    as (hello & answer & pk & Hs & Hc & _).
  - reflexivity.
  - reflexivity.
  - reflexivity.
  - vm_compute. discriminate.
  - repeat split.
  - repeat split.
  - exists hello, answer, pk. split; [exact Hs|exact Hc].
Defined.

Lemma key_is_for_the_peer_witness :
  let signed := sign (Sign := toy_sign) (idpk_to_bytes (Wire := toy_wire)
                  (mkIdPk "9" (take 32 (ex_sk x02)))) (ex_sk x01) in
  let hello := sign (Sign := toy_sign) (idpk_to_bytes (Wire := toy_wire)
                  (mkIdPk "9" (take 32 (ex_sk x03)))) (ex_sk x02) in
  exists rs sign_pk,
    Some (take 32 (ex_sk x01)) = Some rs
    /\ decode_id_pk (H0 := toy_sign) (H1 := toy_wire) signed rs = Some ("9"%string, sign_pk).
Proof.
  intros signed hello.
  destruct (key_is_for_the_peer (H := toy_box) (H0 := toy_sign) (H1 := toy_wire) "9" signed
              (Some (take 32 (ex_sk x01))) (Some (Some (HsSignedId hello))) (ex_sk x04) ex_key
              (HsPublicKey (replicate 32 x04) ex_key) ex_key (Some (take 32 (ex_sk x02))))
    as (rs & si & sign_pk & their_pk & Hrs & Hd & _).
  - vm_compute. reflexivity.
  - exists rs, sign_pk. split; [exact Hrs|exact Hd].
Defined.
