(* ===== verification/OsFs.v ===== *)
(** * The part of [std::path] and [std::fs] the file transfer uses

    A path is its text, as [PathBuf] keeps it on Unix.  The file system maps the
    components of a path to an entry; a regular file is a reference to an inode,
    so that a file handle keeps denoting the same bytes after a rename.  The
    set [denied] holds the paths on which every call fails with an error other
    than "not found" (permissions, hardware); [clock] is the time the system
    would stamp on a file written now.  Data written through a handle is visible
    at once: the write-behind buffer of tokio's [File] is not modelled. *)

From S2P Require Import Prelude.
From Stdlib Require Import Ascii.

(** ** Paths *)

Abbreviation SLASH := "/"%char.

Definition starts_with_char (c : ascii) (s : string) : bool :=
  match s with String a _ => Ascii.eqb a c | EmptyString => false end.

Inductive Component : Type :=
| RootDir
| CurDir
| ParentDir
| Normal (seg : string).

#[export] Instance component_eq_dec : EqDecision Component.
Proof. solve_decision. Defined.

(** [Path::components]: empty segments disappear, and so does a [.] other than
    the first segment of a relative path. *)
Definition seg_component (s : string) : option Component :=
  if String.eqb s "" then None
  else if String.eqb s "." then None
  else if String.eqb s ".." then Some ParentDir
  else Some (Normal s).

Definition components (p : string) : list Component :=
  let segs := split_on SLASH p in
  if starts_with_char SLASH p then RootDir :: omap seg_component segs
  else match segs with
       | "." :: segs => CurDir :: omap seg_component segs
       | _ => omap seg_component segs
       end.

(** The name of an entry of the file system: its components, with ["/"] for the
    root.  A leading [.] denotes the same entry as its absence. *)
Definition comp_key (c : Component) : option string :=
  match c with
  | RootDir => Some "/"
  | CurDir => None
  | ParentDir => Some ".."
  | Normal s => Some s
  end.

Definition key (p : string) : list string := omap comp_key (components p).

Fixpoint last_char (s : string) : option ascii :=
  match s with
  | EmptyString => None
  | String a EmptyString => Some a
  | String _ s => last_char s
  end.

(** [PathBuf::push] and [Path::join]. *)
Definition path_join (p q : string) : string :=
  if starts_with_char SLASH q then q
  else match last_char p with
       | None => q
       | Some a => if Ascii.eqb a SLASH then p +:+ q else p +:+ "/" +:+ q
       end.

(** [Path::file_name]. *)
Definition file_name (p : string) : option string :=
  match last (components p) with Some (Normal s) => Some s | _ => None end.

(** [Path::parent], as the entry it denotes. *)
Definition parent_key (k : list string) : option (list string) :=
  match k with
  | [] => None
  | ["/"] => None
  | _ => Some (removelast k)
  end.

(** ** The file system *)

Record Inode : Type := mkInode { content : list byte; mtime : Z }.

Inductive Entry : Type :=
| EFile (ino : nat)
| EDir
| ELink (target : string).

#[export] Instance entry_eq_dec : EqDecision Entry.
Proof. solve_decision. Defined.

Record Fs : Type := mkFs {
  entries : gmap (list string) Entry;
  inodes : gmap nat Inode;
  next_ino : nat;
  denied : gset (list string);
  clock : Z
}.

Inductive IoErr : Type := NotFound | OtherIo.

#[export] Instance io_err_eq_dec : EqDecision IoErr.
Proof. solve_decision. Defined.

Definition set_entries (f : gmap (list string) Entry -> gmap (list string) Entry) (fs : Fs) : Fs :=
  mkFs (f (entries fs)) (inodes fs) (next_ino fs) (denied fs) (clock fs).

Definition set_inodes (f : gmap nat Inode -> gmap nat Inode) (fs : Fs) : Fs :=
  mkFs (entries fs) (f (inodes fs)) (next_ino fs) (denied fs) (clock fs).

(** What a path denotes once a symbolic link in last position is followed; the
    system gives up after 40 links. *)
Fixpoint follow (fuel : nat) (fs : Fs) (k : list string) : option (list string) :=
  match entries fs !! k with
  | Some (ELink t) =>
      match fuel with O => None | S fuel => follow fuel fs (key t) end
  | _ => Some k
  end.
Definition resolve : Fs -> list string -> option (list string) := follow 40.

Definition entry_at (fs : Fs) (k : list string) : option Entry :=
  match resolve fs k with
  | Some k => if decide (k ∈ denied fs) then None else entries fs !! k
  | None => None
  end.

(** [Path::exists], [is_file], [is_dir]. *)
Definition path_exists (fs : Fs) (p : string) : bool :=
  match entry_at fs (key p) with Some _ => true | None => false end.
Definition is_file (fs : Fs) (p : string) : bool :=
  match entry_at fs (key p) with Some (EFile _) => true | _ => false end.
Definition is_dir (fs : Fs) (p : string) : bool :=
  match entry_at fs (key p) with Some EDir => true | _ => false end.

(** [std::fs::symlink_metadata]: the last component is not followed. *)
Definition symlink_metadata (fs : Fs) (k : list string) : result IoErr Entry :=
  if decide (k ∈ denied fs) then Err OtherIo
  else match entries fs !! k with Some e => Ok e | None => Err NotFound end.

(** [std::fs::metadata] of a file: its size and modification time. *)
Definition metadata (fs : Fs) (p : string) : result IoErr (Z * Z) :=
  match entry_at fs (key p) with
  | Some (EFile i) =>
      match inodes fs !! i with
      | Some n => Ok (len (content n), mtime n)
      | None => Err OtherIo
      end
  | Some _ => Ok (0, 0)
  | None => Err NotFound
  end.

(** ** File handles *)

Record File : Type := mkFile { ino : nat; pos : Z }.

Abbreviation IO := (ST IoErr Fs).

Definition dir_of_exists (fs : Fs) (k : list string) : bool :=
  match parent_key k with
  | None => false
  | Some d =>
      match d with
      | [] => true (* relative to the working directory *)
      | _ => match entry_at fs d with Some EDir => true | _ => false end
      end
  end.

(** Open for writing, creating the file when it is absent; [truncate] is the
    difference between [File::create] and [OpenOptions] with [create], [write]. *)
Definition open_write (truncate : bool) (p : string) : IO File := fun fs =>
  match resolve fs (key p) with
  | None => (Err OtherIo, fs)
  | Some k =>
      if decide (k ∈ denied fs) then (Err OtherIo, fs)
      else match entries fs !! k with
      | Some (EFile i) =>
          let trunc n := if truncate then mkInode [] (clock fs) else n in
          (Ok (mkFile i 0), set_inodes (alter trunc i) fs)
      | Some _ => (Err OtherIo, fs)
      | None =>
          if dir_of_exists fs k then
            let i := next_ino fs in
            (Ok (mkFile i 0),
             mkFs (<[k := EFile i]> (entries fs)) (<[i := mkInode [] (clock fs)]> (inodes fs))
               (S i) (denied fs) (clock fs))
          else (Err NotFound, fs)
      end
  end.

Definition create : string -> IO File := open_write true.

(** [File::open]. *)
Definition open_read (p : string) : IO File := fun fs =>
  match entry_at fs (key p) with
  | Some (EFile i) => (Ok (mkFile i 0), fs)
  | Some _ => (Err OtherIo, fs)
  | None => (Err NotFound, fs)
  end.

(** Overwrite from [pos] on, past the end if need be (a hole reads as zeros). *)
Definition overwrite (old : list byte) (pos : Z) (data : list byte) : list byte :=
  let n := Z.to_nat pos in
  take n (old ++ replicate (n - length old) x00) ++ data ++ drop (n + length data) old.

Definition write_file (h : File) (data : list byte) : IO File := fun fs =>
  match inodes fs !! ino h with
  | None => (Err OtherIo, fs)
  | Some n =>
      (Ok (mkFile (ino h) (pos h + len data)),
       set_inodes (<[ino h := mkInode (overwrite (content n) (pos h) data) (clock fs)]>) fs)
  end.

(** [read] fills at most [want] bytes of the buffer; the system may return fewer
    (but not zero unless the file is exhausted): [short] is that choice. *)
Definition read_file (short : Z -> nat) (h : File) (want : nat) (fs : Fs)
  : result IoErr (list byte) :=
  match inodes fs !! ino h with
  | None => Err OtherIo
  | Some n =>
      let avail := drop (Z.to_nat (pos h)) (content n) in
      Ok (take (Nat.min want (Nat.max 1 (short (pos h)))) avail)
  end.

(** ** Directory operations *)

Definition rename_entry (ka kb : list string) : IO unit := fun fs =>
  if decide (ka ∈ denied fs \/ kb ∈ denied fs) then (Err OtherIo, fs)
  else match entries fs !! ka with
  | None => (Err NotFound, fs)
  | Some e =>
      match entries fs !! kb with
      | Some EDir => (Err OtherIo, fs)
      | _ =>
          if dir_of_exists fs kb
          then (Ok tt, set_entries (fun m => <[kb := e]> (delete ka m)) fs)
          else (Err NotFound, fs)
      end
  end.
Definition rename (a b : string) : IO unit := rename_entry (key a) (key b).

Definition remove_entry (k : list string) : IO unit := fun fs =>
  if decide (k ∈ denied fs) then (Err OtherIo, fs)
  else match entries fs !! k with
  | None => (Err NotFound, fs)
  | Some EDir => (Err OtherIo, fs)
  | Some _ => (Ok tt, set_entries (delete k) fs)
  end.
Definition remove_file (p : string) : IO unit := remove_entry (key p).

(** The names in a directory; the order is the system's. *)
Definition child_of (k q : list string) : option string :=
  match last q with
  | Some n => if decide (q = k ++ [n]) then Some n else None
  | None => None
  end.
Definition children (fs : Fs) (k : list string) : list string :=
  omap (fun '(q, _) => child_of k q) (map_to_list (entries fs)).

(** [std::fs::remove_dir]: an empty directory only. *)
Definition remove_dir (k : list string) : IO unit := fun fs =>
  if decide (k ∈ denied fs) then (Err OtherIo, fs)
  else match entries fs !! k with
  | None => (Err NotFound, fs)
  | Some EDir =>
      match children fs k with
      | [] => (Ok tt, set_entries (delete k) fs)
      | _ => (Err OtherIo, fs)
      end
  | Some _ => (Err OtherIo, fs)
  end.

(** [create_dir_all]: the ancestors first, then the directory itself. *)
Fixpoint create_dirs (ks : list (list string)) : IO unit := fun fs =>
  match ks with
  | [] => (Ok tt, fs)
  | k :: ks =>
      if decide (k ∈ denied fs) then (Err OtherIo, fs)
      else match entry_at fs k with
      | Some EDir => create_dirs ks fs
      | Some _ => (Err OtherIo, fs)
      | None =>
          match entries fs !! k with
          | Some _ => (Err OtherIo, fs)
          | None => create_dirs ks (set_entries (<[k := EDir]>) fs)
          end
      end
  end.

Fixpoint prefixes {A} (l : list A) : list (list A) :=
  match l with
  | [] => []
  | x :: l => [x] :: (cons x <$> prefixes l)
  end.

Definition create_dir_all (k : list string) : IO unit := create_dirs (prefixes k).

(** [filetime::set_file_mtime]. *)
Definition set_file_mtime (p : string) (t : Z) : IO unit := fun fs =>
  match entry_at fs (key p) with
  | Some (EFile i) =>
      (Ok tt, set_inodes (alter (fun n => mkInode (content n) t) i) fs)
  | Some _ => (Ok tt, fs)
  | None => (Err NotFound, fs)
  end.

(** [std::fs::write] and [std::fs::read]. *)
Definition fs_write (p : string) (data : list byte) : IO unit :=
  h ← create p;
  _ ← write_file h data;
  mret tt.

Definition fs_read (fs : Fs) (p : string) : result IoErr (list byte) :=
  match entry_at fs (key p) with
  | Some (EFile i) =>
      match inodes fs !! i with Some n => Ok (content n) | None => Err OtherIo end
  | Some _ => Err OtherIo
  | None => Err NotFound
  end.
