(* ===== verification/PathFacts.v ===== *)
(** * Lemmas on paths: what joining and suffixing do to the entry denoted *)

From S2P Require Import Prelude OsFs.
From Stdlib Require Import Ascii.

(** A segment of a path that names an entry. *)
Definition seg_key (s : string) : option string :=
  if String.eqb s "" then None else if String.eqb s "." then None else Some s.

Definition root_key (p : string) : list string :=
  if starts_with_char SLASH p then ["/"] else [].

Lemma app_empty_r (s : string) : s +:+ "" = s.
Proof. induction s as [|a s IH]; [done|]. by rewrite app_cons_string, IH. Qed.

Lemma app_string_assoc (s t u : string) : (s +:+ t) +:+ u = s +:+ t +:+ u.
Proof. induction s as [|a s IH]; [done|]. by rewrite !app_cons_string, IH. Qed.

Lemma seg_component_key s : (seg_component s ≫= comp_key) = seg_key s.
Proof.
  unfold seg_component, seg_key.
  destruct (String.eqb s "") eqn:?, (String.eqb s ".") eqn:?, (String.eqb s "..") eqn:E; try done.
  apply String.eqb_eq in E as ->. done.
Qed.

Lemma omap_seg (l : list string) : omap comp_key (omap seg_component l) = omap seg_key l.
Proof.
  induction l as [|s l IH]; [done|]. cbn. rewrite <- seg_component_key.
  destruct (seg_component s) as [c|]; cbn; [|done].
  destruct (comp_key c); cbn; by rewrite ?IH.
Qed.

(** A key, segment by segment. *)
Lemma key_segments p : key p = root_key p ++ omap seg_key (split_on SLASH p).
Proof.
  unfold key, components, root_key. destruct (starts_with_char SLASH p) eqn:E.
  - cbn. by rewrite omap_seg.
  - destruct (split_on SLASH p) as [|s l]; [done|]. cbn [app].
    destruct (decide (s = ".")) as [->|Hs].
    + cbn. by rewrite omap_seg.
    + rewrite <- (omap_seg (s :: l)). f_equal.
      destruct s as [|a s]; [done|].
      destruct a as [[] [] [] [] [] [] [] []]; try done. by destruct s.
Qed.

Lemma key_app_slash p q :
  p <> "" -> key (p +:+ String SLASH q) = key p ++ omap seg_key (split_on SLASH q).
Proof.
  intros Hp. rewrite !key_segments, split_on_app, omap_app, app_assoc.
  by destruct p.
Qed.

Lemma last_char_slash p : last_char p = Some SLASH -> exists p', p = p' +:+ String SLASH "".
Proof.
  induction p as [|a p IH]; [done|]. destruct p as [|b p].
  - cbn. intros [= ->]. by exists "".
  - intros H. destruct (IH H) as [p' ->]. by exists (String a p').
Qed.

Lemma last_char_none p : last_char p = None -> p = "".
Proof.
  induction p as [|a p IH]; [done|]. destruct p as [|b p]; [done|].
  intros H. by specialize (IH H).
Qed.

(** Joining a relative path appends its key. *)
Lemma key_path_join p q :
  starts_with_char SLASH q = false -> key (path_join p q) = key p ++ key q.
Proof.
  intros Hq. unfold path_join. rewrite Hq.
  assert (Hk : key q = omap seg_key (split_on SLASH q)).
  { rewrite key_segments. unfold root_key. by rewrite Hq. }
  destruct (last_char p) as [a|] eqn:El.
  - destruct (Ascii.eqb a SLASH) eqn:Ea.
    + apply Ascii.eqb_eq in Ea as ->. destruct (last_char_slash p El) as [p' ->].
      rewrite app_string_assoc. change (String SLASH "" +:+ q) with (String SLASH q).
      destruct (decide (p' = "")) as [->|Hp'].
      * rewrite Hk, !key_segments, !split_on_app. done.
      * rewrite Hk, !key_app_slash by done. cbn. by rewrite app_nil_r.
    + change ("/" +:+ q) with (String SLASH q). rewrite key_app_slash, Hk; [done|].
      by intros ->.
  - by rewrite (last_char_none p El).
Qed.

(** ** Suffixing *)

Definition has_slash (s : string) : bool := existsb (Ascii.eqb SLASH) (String.list_ascii_of_string s).

Lemma split_on_no_slash s : has_slash s = false -> split_on SLASH s = [s].
Proof.
  induction s as [|a s IH]; [done|].
  change (has_slash (String a s)) with (Ascii.eqb SLASH a || has_slash s).
  intros H. apply orb_false_iff in H as [Ha Hs]. cbn [split_on].
  by rewrite Ascii.eqb_sym, Ha, IH.
Qed.

Lemma split_on_segs p : Forall (fun s => has_slash s = false) (split_on SLASH p).
Proof.
  induction p as [|a p IH]; [by repeat constructor|]. cbn [split_on].
  destruct (Ascii.eqb a SLASH) eqn:E; [by constructor|].
  destruct (split_on SLASH p) as [|w r]; inversion IH; subst; repeat constructor; try done.
  - change (has_slash (String a "")) with (Ascii.eqb SLASH a || false).
    by rewrite Ascii.eqb_sym, E.
  - change (has_slash (String a w)) with (Ascii.eqb SLASH a || has_slash w).
    by rewrite Ascii.eqb_sym, E.
Qed.

(** Appending text without a slash extends the last segment. *)
Lemma split_on_suffix p x :
  has_slash x = false ->
  exists init s, split_on SLASH p = init ++ [s] /\ split_on SLASH (p +:+ x) = init ++ [s +:+ x].
Proof.
  intros Hx. induction p as [|a p IH].
  - exists [], "". split; [done|]. change ("" +:+ x) with x. by rewrite split_on_no_slash.
  - destruct IH as (init & s & H1 & H2). rewrite app_cons_string. cbn [split_on].
    rewrite H1, H2. destruct (Ascii.eqb a SLASH).
    + by exists ("" :: init), s.
    + destruct init as [|w init]; cbn; [by exists [], (String a s)|].
      by exists (String a w :: init), s.
Qed.

Lemma root_key_suffix p x : p <> "" -> root_key (p +:+ x) = root_key p.
Proof. by destruct p. Qed.

(** The key of a path whose last component is the file name [s], and of the
    path with a suffix. *)
Lemma key_suffix p x init s :
  p <> "" -> has_slash x = false -> split_on SLASH p = init ++ [s] ->
  seg_key s = Some s -> seg_key (s +:+ x) = Some (s +:+ x) ->
  exists k, key p = k ++ [s] /\ key (p +:+ x) = k ++ [s +:+ x].
Proof.
  intros Hp Hx Hs Hk Hkx. exists (root_key p ++ omap seg_key init).
  rewrite !key_segments, root_key_suffix by done.
  destruct (split_on_suffix p x Hx) as (i & t & H1 & H2).
  rewrite Hs in H1. apply app_inj_tail in H1 as [<- <-].
  rewrite H2, Hs, !omap_app. cbn. by rewrite Hk, Hkx, !app_assoc.
Qed.

(** The directories on the way to a path with a suffix lead to the path. *)
Lemma suffix_prefix p x k :
  has_slash x = false -> k `prefix_of` key (p +:+ x) -> k = key (p +:+ x) \/ k `prefix_of` key p.
Proof.
  intros Hx Hk. destruct (decide (p = "")) as [->|Hp].
  { change ("" +:+ x) with x in *. rewrite !key_segments, split_on_no_slash in * by done.
    assert (Hr : root_key x = []).
    { unfold root_key. destruct x as [|a x]; [done|].
      change (has_slash (String a x)) with (Ascii.eqb SLASH a || has_slash x) in Hx.
      apply orb_false_iff in Hx as [Hx _]. change (starts_with_char SLASH (String a x)) with (Ascii.eqb a SLASH).
      by rewrite Ascii.eqb_sym, Hx. }
    rewrite Hr in *. cbn [app omap list_omap] in *. destruct (seg_key x) as [s|]; [|by left; apply prefix_nil_inv].
    destruct k as [|s' k]; [by right; apply prefix_nil|]. left. by apply prefix_cons_inv_1 in Hk as E;
      apply prefix_cons_inv_2 in Hk; apply prefix_nil_inv in Hk as ->; subst. }
  revert Hk. rewrite !key_segments, root_key_suffix by done.
  destruct (split_on_suffix p x Hx) as (i & t & -> & ->). rewrite !omap_app, !app_assoc.
  set (d := root_key p ++ omap seg_key i). cbn [omap list_omap]. intros Hk.
  destruct (seg_key (t +:+ x)) as [s|]; [|right; rewrite app_nil_r in Hk; by apply prefix_app_r].
  destruct Hk as [l E]. destruct l as [|y l] using rev_ind; [left; by rewrite app_nil_r in E|].
  rewrite app_assoc in E. apply app_inj_tail in E as [-> _]. right.
  rewrite <- app_assoc. by apply prefix_app_r.
Qed.
