(* ===== verification/Compress.v ===== *)
(** * Compression of payloads (libs/hbb_common/src/compress.rs)

    The zstd library is a parameter: [zstd_compress] is the thread's compressor
    ([None] when the compressor could not be built, is borrowed, or fails) and
    [zstd_decode d n] reads at most [n] bytes of the decoded stream of [d].
    [ZstdLaws] is what the library documents: decoding what was compressed gives
    the original back. *)

From S2P Require Import Prelude.

Class Zstd : Type := {
  zstd_compress : list byte -> option (list byte);
  zstd_decode : list byte -> Z -> option (list byte)
}.

Class ZstdLaws `{Zstd} : Prop := {
  zstd_decode_compress d c n :
    zstd_compress d = Some c -> len d <= n -> zstd_decode c n = Some d
}.

(** The compressor produces something for every input. *)
Class ZstdTotal `{Zstd} : Prop := {
  zstd_compress_some d : is_Some (zstd_compress d)
}.

Definition MAX_DECOMPRESSED_SIZE : Z := 256 * 1024 * 1024.

Section Compress.
Context `{Zstd}.

Definition compress (data : list byte) : list byte :=
  match zstd_compress data with Some res => res | None => [] end.

Definition decompress_with_limit (data : list byte) (limit : Z)
  : result string (list byte) :=
  match zstd_decode data (Z.min USIZE_MAX (limit + 1)) with
  | None => Err "zstd"
  | Some output =>
      if limit <? len output then Err "decompressed data exceeds size limit"
      else Ok output
  end.

Definition decompress (data : list byte) : list byte :=
  match decompress_with_limit data MAX_DECOMPRESSED_SIZE with Ok d => d | Err _ => [] end.

Lemma decompress_compress `{!ZstdLaws, !ZstdTotal} d :
  len d <= MAX_DECOMPRESSED_SIZE -> decompress (compress d) = d.
Proof.
  intros Hl. unfold decompress, decompress_with_limit, compress.
  destruct (zstd_compress_some d) as [c Hc]. rewrite Hc.
  rewrite (zstd_decode_compress d c) by (done || (unfold USIZE_MAX, MAX_DECOMPRESSED_SIZE in *; lia)).
  destruct (Z.ltb_spec MAX_DECOMPRESSED_SIZE (len d)); [lia|done].
Qed.
End Compress.

(** At most [n] bytes of [d]. *)
Definition at_most (n : Z) (d : list byte) : list byte :=
  if len d <=? n then d else take (Z.to_nat n) d.

(** A concrete lossless compressor, for the witnesses: it shortens data that
    begin with two zero bytes. *)
Definition toy_zstd : Zstd := {|
  zstd_compress d :=
    Some match d with
         | a :: b :: t =>
             if Byte.eqb a x00 && Byte.eqb b x00 then x01 :: t else x02 :: d
         | _ => x02 :: d
         end;
  zstd_decode c n :=
    Some (at_most n
      match c with
      | a :: t => if Byte.eqb a x01 then x00 :: x00 :: t else t
      | [] => []
      end)
|}.

#[export] Instance toy_zstd_laws : @ZstdLaws toy_zstd.
Proof.
  constructor. intros d c n. cbn. intros [= <-] Hn.
  assert (Hd : at_most n d = d).
  { unfold at_most. by destruct (Z.leb_spec (len d) n); [|lia]. }
  destruct d as [|a [|b t]]; cbn; [by rewrite Hd..|].
  destruct (Byte.eqb a x00) eqn:Ea, (Byte.eqb b x00) eqn:Eb; cbn [andb]; cbn; try by rewrite Hd.
  apply Byte.byte_dec_bl in Ea as ->. apply Byte.byte_dec_bl in Eb as ->. by rewrite Hd.
Qed.

#[export] Instance toy_zstd_total : @ZstdTotal toy_zstd.
Proof. constructor. intros d. by eexists. Qed.
