(* ===== verification/FileTransfer.v ===== *)
(** * File transfer jobs (libs/hbb_common/src/fs.rs)

    The sender reads the files of a job block by block, the receiver writes the
    blocks to [name.download] next to a [name.digest], and renames the result
    when the next file begins.  Names come from the peer: they are validated
    before they are joined to the job's directory.  Every operation runs on a
    job and on an environment, the file system of {!OsFs} and the connection.
    The model is of the Linux build ([cfg(not(windows))]). *)

From S2P Require Import Prelude OsFs Compress.
From Stdlib Require Import Ascii.

(** ** Data *)

(** [FileType] of message.proto. *)
Inductive FileType : Type := Dir | DirLink | DirDrive | FileT | FileLink.

#[export] Instance file_type_eq_dec : EqDecision FileType.
Proof. solve_decision. Defined.

Record FileEntry : Type := mkFileEntry {
  entry_type : FileType;
  name : string;
  is_hidden : bool;
  size : Z;
  modified_time : Z
}.

Inductive JobType : Type := Generic | Printer.

#[export] Instance job_type_eq_dec : EqDecision JobType.
Proof. solve_decision. Defined.

Definition job_type_of_i32 (value : Z) : JobType :=
  match value with 0 => Generic | 1 => Printer | _ => Generic end.

Definition job_type_to_i32 (t : JobType) : Z :=
  match t with Generic => 0 | Printer => 1 end.

Inductive DataSource : Type :=
| FilePath (p : string)
| MemoryCursor (c : list byte).

Definition to_meta (d : DataSource) : string :=
  match d with FilePath p => p | MemoryCursor _ => "" end.

(** An open file, or a cursor over a byte vector. *)
Inductive DataStream : Type :=
| FileStream (h : File)
| BufStream (buf : list byte) (at_ : Z).

Record FileDigest : Type := mkFileDigest { digest_size : Z; digest_modified : Z }.

Record TransferJob : Type := mkTransferJob {
  id : Z;
  ty : JobType;
  remote : string;
  data_source : DataSource;
  show_hidden : bool;
  is_remote : bool;
  is_last_job : bool;
  is_resume : bool;
  file_num : Z;
  files : list FileEntry;
  conn_id : Z;
  data_stream : option DataStream;
  total_size : Z;
  finished_size : Z;
  transferred : Z;
  enable_overwrite_detection : bool;
  file_confirmed : bool;
  file_skipped : bool;
  file_is_waiting : bool;
  default_overwrite_strategy : option bool;
  digest : FileDigest
}.

Definition with_file_num (v : Z) (j : TransferJob) : TransferJob :=
  mkTransferJob (id j) (ty j) (remote j) (data_source j) (show_hidden j) (is_remote j)
    (is_last_job j) (is_resume j) v (files j) (conn_id j) (data_stream j) (total_size j)
    (finished_size j) (transferred j) (enable_overwrite_detection j) (file_confirmed j)
    (file_skipped j) (file_is_waiting j) (default_overwrite_strategy j) (digest j).

Definition with_files_field (v : list FileEntry) (j : TransferJob) : TransferJob :=
  mkTransferJob (id j) (ty j) (remote j) (data_source j) (show_hidden j) (is_remote j)
    (is_last_job j) (is_resume j) (file_num j) v (conn_id j) (data_stream j) (total_size j)
    (finished_size j) (transferred j) (enable_overwrite_detection j) (file_confirmed j)
    (file_skipped j) (file_is_waiting j) (default_overwrite_strategy j) (digest j).

Definition with_data_stream (v : option DataStream) (j : TransferJob) : TransferJob :=
  mkTransferJob (id j) (ty j) (remote j) (data_source j) (show_hidden j) (is_remote j)
    (is_last_job j) (is_resume j) (file_num j) (files j) (conn_id j) v (total_size j)
    (finished_size j) (transferred j) (enable_overwrite_detection j) (file_confirmed j)
    (file_skipped j) (file_is_waiting j) (default_overwrite_strategy j) (digest j).

Definition with_total_size (v : Z) (j : TransferJob) : TransferJob :=
  mkTransferJob (id j) (ty j) (remote j) (data_source j) (show_hidden j) (is_remote j)
    (is_last_job j) (is_resume j) (file_num j) (files j) (conn_id j) (data_stream j) v
    (finished_size j) (transferred j) (enable_overwrite_detection j) (file_confirmed j)
    (file_skipped j) (file_is_waiting j) (default_overwrite_strategy j) (digest j).

Definition with_finished_size (v : Z) (j : TransferJob) : TransferJob :=
  mkTransferJob (id j) (ty j) (remote j) (data_source j) (show_hidden j) (is_remote j)
    (is_last_job j) (is_resume j) (file_num j) (files j) (conn_id j) (data_stream j)
    (total_size j) v (transferred j) (enable_overwrite_detection j) (file_confirmed j)
    (file_skipped j) (file_is_waiting j) (default_overwrite_strategy j) (digest j).

Definition with_transferred (v : Z) (j : TransferJob) : TransferJob :=
  mkTransferJob (id j) (ty j) (remote j) (data_source j) (show_hidden j) (is_remote j)
    (is_last_job j) (is_resume j) (file_num j) (files j) (conn_id j) (data_stream j)
    (total_size j) (finished_size j) v (enable_overwrite_detection j) (file_confirmed j)
    (file_skipped j) (file_is_waiting j) (default_overwrite_strategy j) (digest j).

Definition with_file_confirmed (v : bool) (j : TransferJob) : TransferJob :=
  mkTransferJob (id j) (ty j) (remote j) (data_source j) (show_hidden j) (is_remote j)
    (is_last_job j) (is_resume j) (file_num j) (files j) (conn_id j) (data_stream j)
    (total_size j) (finished_size j) (transferred j) (enable_overwrite_detection j) v
    (file_skipped j) (file_is_waiting j) (default_overwrite_strategy j) (digest j).

Definition with_file_skipped (v : bool) (j : TransferJob) : TransferJob :=
  mkTransferJob (id j) (ty j) (remote j) (data_source j) (show_hidden j) (is_remote j)
    (is_last_job j) (is_resume j) (file_num j) (files j) (conn_id j) (data_stream j)
    (total_size j) (finished_size j) (transferred j) (enable_overwrite_detection j)
    (file_confirmed j) v (file_is_waiting j) (default_overwrite_strategy j) (digest j).

Definition with_file_is_waiting (v : bool) (j : TransferJob) : TransferJob :=
  mkTransferJob (id j) (ty j) (remote j) (data_source j) (show_hidden j) (is_remote j)
    (is_last_job j) (is_resume j) (file_num j) (files j) (conn_id j) (data_stream j)
    (total_size j) (finished_size j) (transferred j) (enable_overwrite_detection j)
    (file_confirmed j) (file_skipped j) v (default_overwrite_strategy j) (digest j).

Definition with_default_overwrite_strategy (v : option bool) (j : TransferJob) : TransferJob :=
  mkTransferJob (id j) (ty j) (remote j) (data_source j) (show_hidden j) (is_remote j)
    (is_last_job j) (is_resume j) (file_num j) (files j) (conn_id j) (data_stream j)
    (total_size j) (finished_size j) (transferred j) (enable_overwrite_detection j)
    (file_confirmed j) (file_skipped j) (file_is_waiting j) v (digest j).

Definition with_digest (v : FileDigest) (j : TransferJob) : TransferJob :=
  mkTransferJob (id j) (ty j) (remote j) (data_source j) (show_hidden j) (is_remote j)
    (is_last_job j) (is_resume j) (file_num j) (files j) (conn_id j) (data_stream j)
    (total_size j) (finished_size j) (transferred j) (enable_overwrite_detection j)
    (file_confirmed j) (file_skipped j) (file_is_waiting j) (default_overwrite_strategy j) v.

Definition with_data_source (v : DataSource) (j : TransferJob) : TransferJob :=
  mkTransferJob (id j) (ty j) (remote j) v (show_hidden j) (is_remote j) (is_last_job j)
    (is_resume j) (file_num j) (files j) (conn_id j) (data_stream j) (total_size j)
    (finished_size j) (transferred j) (enable_overwrite_detection j) (file_confirmed j)
    (file_skipped j) (file_is_waiting j) (default_overwrite_strategy j) (digest j).

(** Messages of message.proto. *)
Record FileTransferBlock : Type := mkBlock {
  blk_id : Z;
  blk_file_num : Z;
  blk_data : list byte;
  blk_compressed : bool
}.

Record FileTransferDigest : Type := mkDigest {
  dg_id : Z;
  dg_file_num : Z;
  dg_last_modified : Z;
  dg_file_size : Z;
  dg_is_identical : bool;
  dg_transferred_size : Z;
  dg_is_resume : bool
}.

Inductive ConfirmUnion : Type :=
| Skip (s : bool)
| OffsetBlk (offset : Z).

Record FileTransferSendConfirmRequest : Type := mkConfirm {
  cf_id : Z;
  cf_file_num : Z;
  cf_union : option ConfirmUnion
}.

Inductive Message : Type :=
| MsgError (id : Z) (error : string) (file_num : Z)
| MsgDir (id : Z) (path : string) (entries : list FileEntry)
| MsgBlock (b : FileTransferBlock)
| MsgDigest (d : FileTransferDigest)
| MsgDone (id file_num : Z)
| MsgSendConfirm (r : FileTransferSendConfirmRequest)
| MsgReceive (id : Z) (path : string) (file_num : Z) (files : list FileEntry) (total_size : Z)
| MsgSend (id : Z) (path : string) (file_num : Z) (include_hidden : bool) (t : JobType).

Definition new_error (id : Z) (err : string) (file_num : Z) : Message := MsgError id err file_num.
Definition new_dir (id : Z) (path : string) (files : list FileEntry) : Message :=
  MsgDir id path files.
Definition new_block (b : FileTransferBlock) : Message := MsgBlock b.
Definition new_send_confirm (r : FileTransferSendConfirmRequest) : Message := MsgSendConfirm r.
Definition new_receive (id : Z) (path : string) (file_num : Z) (files : list FileEntry)
    (total_size : Z) : Message := MsgReceive id path file_num files total_size.
Definition new_send (id : Z) (t : JobType) (path : string) (file_num : Z)
    (include_hidden : bool) : Message := MsgSend id path file_num include_hidden t.
Definition new_done (id file_num : Z) : Message := MsgDone id file_num.

(** The connection to the peer: what was sent, and whether sending fails. *)
Record Net : Type := mkNet { sent : list Message; broken : bool }.

Record Env : Type := mkEnv { fs : Fs; net : Net }.

(** ** Names *)

Definition has_nul (s : string) : bool :=
  existsb (Ascii.eqb Ascii.zero) (String.list_ascii_of_string s).

Definition validate_file_name_no_traversal (name : string) : result string unit :=
  if has_nul name then Err "file name contains null bytes"
  else if existsb (String.eqb "..")
            (List.filter (fun s => negb (String.eqb s "")) (split_on SLASH name))
  then Err "path traversal detected in file name"
  else if starts_with_char SLASH name then Err "absolute path detected in file name"
  else Ok tt.

Fixpoint validate_each (files : list FileEntry) : result string unit :=
  match files with
  | [] => Ok tt
  | f :: files =>
      if String.eqb (name f) "" then Err "empty file name in multi-file transfer"
      else let? _ := validate_file_name_no_traversal (name f) in validate_each files
  end.

Definition validate_transfer_file_names (files : list FileEntry) : result string unit :=
  match files with
  | [f] => if String.eqb (name f) "" then Ok tt else validate_each files
  | _ => validate_each files
  end.

Definition validate_fs_path_argument (path arg_name : string) : result string unit :=
  if String.eqb path "" then Err (arg_name +:+ " cannot be empty")
  else if has_nul path then Err (arg_name +:+ " contains null bytes")
  else Ok tt.

Fixpoint check_components (fs : Fs) (current : string) (cs : list Component)
  : result string unit :=
  match cs with
  | [] => Ok tt
  | Normal seg :: cs =>
      let current := path_join current seg in
      match symlink_metadata fs (key current) with
      | Ok (ELink _) => Err "symlink path component is not allowed"
      | Ok _ => check_components fs current cs
      | Err NotFound => check_components fs current cs
      | Err OtherIo => Err "failed to validate path component"
      end
  | CurDir :: cs => check_components fs current cs
  | (RootDir | ParentDir) :: _ => Err "invalid file name component"
  end.

Definition validate_no_symlink_components (fs : Fs) (base name : string)
  : result string unit :=
  if String.eqb name "" then Ok tt else check_components fs base (components name).

(** [TransferJob::join]. *)
Definition join (p name : string) : string :=
  if String.eqb name "" then p else path_join p name.

Definition join_validated_path (fs : Fs) (base name : string) : result string string :=
  let? _ := validate_file_name_no_traversal name in
  let? _ := validate_no_symlink_components fs base name in
  Ok (join base name).

(** The text after the last dot. *)
Fixpoint get_ext_list (s : list ascii) : option (list ascii) :=
  match s with
  | [] => None
  | a :: s =>
      match get_ext_list s with
      | Some e => Some e
      | None => if Ascii.eqb a "."%char then Some s else None
      end
  end.

Definition get_ext (name : string) : string :=
  match get_ext_list (String.list_ascii_of_string name) with
  | Some e => String.string_of_list_ascii e
  | None => ""
  end.

Definition is_compressed_file (name : string) : bool :=
  existsb (String.eqb (get_ext name))
    ["xz"; "gz"; "zip"; "7z"; "rar"; "bz2"; "tgz"; "png"; "jpg"].

(** ** Jobs *)

(** [file_num as usize]. *)
Definition as_usize (z : Z) : Z := as_u64 z.

Definition sum_sizes (files : list FileEntry) : Z :=
  foldl (fun acc f => as_u64 (acc + size f)) 0 files.

Definition default_job : TransferJob :=
  mkTransferJob 0 Generic "" (FilePath "") false false false false 0 [] 0 None 0 0 0 false
    false false false None (mkFileDigest 0 0).

Definition new_write (id_ : Z) (t : JobType) (remote_ : string) (d : DataSource)
    (file_num_ : Z) (show_hidden_ is_remote_ enable : bool) : TransferJob :=
  mkTransferJob id_ t remote_ d show_hidden_ is_remote_ false false file_num_ [] 0 None 0 0 0
    enable false false false None (mkFileDigest 0 0).

Fixpoint validate_all_no_symlink (fs : Fs) (base : string) (files : list FileEntry)
  : result string unit :=
  match files with
  | [] => Ok tt
  | f :: files =>
      let? _ := validate_no_symlink_components fs base (name f) in
      validate_all_no_symlink fs base files
  end.

Definition set_files (fs : Fs) (fl : list FileEntry) (j : TransferJob)
  : result string TransferJob :=
  let? _ := validate_transfer_file_names fl in
  let? _ := match data_source j with
            | FilePath base => validate_all_no_symlink fs base fl
            | MemoryCursor _ => Ok tt
            end in
  Ok (with_files_field fl (with_total_size (sum_sizes fl) j)).

Definition with_files (fs : Fs) (fl : list FileEntry) (j : TransferJob)
  : result string TransferJob := set_files fs fl j.

Definition set_digest (size modified : Z) (j : TransferJob) : TransferJob :=
  with_digest (mkFileDigest size modified) j.

Definition resolve_entry_path (fs : Fs) (j : TransferJob) (base name : string)
  : option string :=
  match ty j with
  | Generic => ok (join_validated_path fs base name)
  | Printer => Some (join base name)
  end.

(** [&self.files[file_num]] when [file_num] is in range. *)
Definition entry_of (j : TransferJob) (n : Z) : option FileEntry :=
  if n <? len (files j) then files j !! Z.to_nat n else None.

(** Run an operation of the file system for its effect only ([.ok()]). *)
Definition exec {A} (m : IO A) (fs : Fs) : Fs := snd (m fs).

Definition download_path (p : string) : string := p +:+ ".download".
Definition digest_path (p : string) : string := p +:+ ".digest".

Definition modify_time (j : TransferJob) (fs : Fs) : Fs :=
  match ty j, data_source j with
  | Generic, FilePath p =>
      match entry_of j (as_usize (file_num j)) with
      | None => fs
      | Some entry =>
          match resolve_entry_path fs j p (name entry) with
          | None => fs
          | Some path =>
              let fs := exec (remove_file (digest_path path)) fs in
              let fs := exec (rename (download_path path) path) fs in
              exec (set_file_mtime path (modified_time entry)) fs
          end
      end
  | _, _ => fs
  end.

Definition remove_download_file (j : TransferJob) (fs : Fs) : Fs :=
  match ty j, data_source j with
  | Generic, FilePath p =>
      match entry_of j (as_usize (file_num j)) with
      | None => fs
      | Some entry =>
          match resolve_entry_path fs j p (name entry) with
          | None => fs
          | Some path =>
              let fs := exec (remove_file (download_path path)) fs in
              exec (remove_file (digest_path path)) fs
          end
      end
  | _, _ => fs
  end.

Definition set_finished_size_on_resume (j : TransferJob) : TransferJob :=
  if is_resume j && (0 <? file_num j)
  then with_finished_size (sum_sizes (take (Z.to_nat (file_num j)) (files j))) j
  else j.

(** ** Operations on a job and its environment *)

Abbreviation JobM := (ST string (TransferJob * Env)).

Definition get_job : JobM TransferJob := fun s => (Ok (fst s), s).
Definition get_fs : JobM Fs := fun s => (Ok (fs (snd s)), s).
Definition put_job (f : TransferJob -> TransferJob) : JobM unit := fun '(j, e) =>
  (Ok tt, (f j, e)).
Definition put_fs (f : Fs -> Fs) : JobM unit := fun '(j, e) =>
  (Ok tt, (j, mkEnv (f (fs e)) (net e))).

Definition io_msg (e : IoErr) : string :=
  match e with NotFound => "No such file or directory" | OtherIo => "io error" end.

Definition lift_io {A} (m : IO A) : JobM A := fun '(j, e) =>
  let '(r, fs') := m (fs e) in
  (match r with Ok a => Ok a | Err err => Err (io_msg err) end, (j, mkEnv fs' (net e))).

(** [stream.send(&msg).await?]. *)
Definition send (m : Message) : JobM unit := fun '(j, e) =>
  if broken (net e) then (Err "connection reset", (j, e))
  else (Ok tt, (j, mkEnv (fs e) (mkNet (sent (net e) ++ [m]) (broken (net e))))).

(** [sync_all]: fails only when the handle is gone. *)
Definition sync_all (h : File) : IO unit := fun fs =>
  match inodes fs !! ino h with Some _ => (Ok tt, fs) | None => (Err OtherIo, fs) end.

Section Transfer.
Context `{Zstd}.
(** serde_json on a [FileDigest]. *)
Context (digest_to_json : FileDigest -> list byte)
        (digest_from_json : list byte -> option FileDigest).
(** How many bytes the system returns for a read at a given position. *)
Context (short : Z -> nat).

(** [DataStream::write_all]. *)
Definition stream_write_all (data : list byte) : JobM unit :=
  j ← get_job;
  match data_stream j with
  | None => st_fail "data stream is None"
  | Some (FileStream h) =>
      h ← lift_io (write_file h data);
      put_job (with_data_stream (Some (FileStream h)))
  | Some (BufStream buf at_) =>
      put_job (with_data_stream
        (Some (BufStream (overwrite buf at_ data) (at_ + len data))))
  end.

(** The part of [write] that opens [files[file_num].download]. *)
Definition write_open (p : string) (block_file_num : Z) : JobM unit :=
  j ← get_job;
  let n := as_usize block_file_num in
  match entry_of j n with
  | None => st_fail "Wrong file number"
  | Some entry =>
      if negb (n =? as_usize (file_num j))
         || match data_stream j with None => true | Some _ => false end
      then
        _ ← put_fs (modify_time j);
        _ ← match data_stream j with
            | Some (FileStream h) => lift_io (sync_all h)
            | _ => mret tt
            end;
        _ ← put_job (with_file_num block_file_num);
        f ← get_fs;
        '(path, digest_path) ←
          match ty j with
          | Printer => mret (p, None)
          | Generic =>
              path ← st_lift (join_validated_path f p (name entry));
              _ ← put_fs (fun f =>
                match parent_key (key path) with
                | Some pp => exec (create_dir_all pp) f
                | None => f
                end);
              mret (download_path path, Some (digest_path path))
          end;
        f ← get_fs;
        _ ← match digest_path with
            | Some dp =>
                if path_exists f dp then lift_io (remove_file dp) else mret tt
            | None => mret tt
            end;
        h ← lift_io (create path);
        _ ← put_job (with_data_stream (Some (FileStream h)));
        match digest_path with
        | Some dp => put_fs (exec (fs_write dp (digest_to_json (digest j))))
        | None => mret tt
        end
      else mret tt
  end.

Definition write (block : FileTransferBlock) : JobM unit :=
  j ← get_job;
  if negb (blk_id block =? id j) then st_fail "Wrong id"
  else
    _ ← match data_source j with
        | FilePath p => write_open p (blk_file_num block)
        | MemoryCursor c =>
            match data_stream j with
            | None => put_job (with_data_stream (Some (BufStream c 0)))
            | Some _ => mret tt
            end
        end;
    _ ← (if blk_compressed block then
           let tmp := decompress (blk_data block) in
           _ ← stream_write_all tmp;
           put_job (fun j =>
             with_finished_size (as_u64 (finished_size j + len tmp)) j)
         else
           _ ← stream_write_all (blk_data block);
           put_job (fun j =>
             with_finished_size (as_u64 (finished_size j + len (blk_data block))) j));
    put_job (fun j => with_transferred (as_u64 (transferred j + len (blk_data block))) j).

(** The state of a job moves to the next file. *)
Definition advance_file (j : TransferJob) : TransferJob :=
  with_file_num (as_i32 (file_num j + 1))
    (with_file_confirmed false (with_file_is_waiting false j)).

Definition open_data_stream : JobM bool :=
  j ← get_job;
  match data_source j with
  | FilePath p =>
      match entry_of j (as_usize (file_num j)) with
      | None => _ ← put_job (with_data_stream None); mret true
      | Some entry =>
          match data_stream j with
          | Some _ => mret false
          | None =>
              r ← st_try (lift_io (open_read (join p (name entry))));
              match r with
              | Ok h =>
                  _ ← put_job (fun j => with_file_is_waiting false
                    (with_file_confirmed false (with_data_stream (Some (FileStream h)) j)));
                  mret false
              | Err err => _ ← put_job advance_file; st_fail err
              end
          end
      end
  | MemoryCursor c =>
      match data_stream j with
      | Some _ => mret false
      | None =>
          _ ← put_job (fun j => with_data_stream (Some (BufStream c 0))
                 (with_data_source (MemoryCursor []) j));
          mret false
      end
  end.

Definition get_current_digest : JobM (Z * Z) :=
  j ← get_job;
  f ← get_fs;
  match data_stream j with
  | None => st_fail "file is None"
  | Some (BufStream _ _) => st_fail "No digest for buf stream"
  | Some (FileStream h) =>
      match inodes f !! ino h with
      | None => st_fail "io error"
      | Some n => mret (mtime n, len (content n))
      end
  end.

Definition send_current_digest : JobM unit :=
  '(last_modified, file_size) ← get_current_digest;
  j ← get_job;
  send (MsgDigest (mkDigest (id j) (file_num j) last_modified file_size false 0 (is_resume j))).

Definition wants_digest (j : TransferJob) : bool :=
  match ty j with
  | Generic =>
      enable_overwrite_detection j && negb (file_confirmed j) && negb (file_is_waiting j)
  | Printer => false
  end.

Definition init_data_stream : JobM unit :=
  done ← open_data_stream;
  if (done : bool) then mret tt
  else
    j ← get_job;
    if wants_digest j then
      _ ← send_current_digest;
      put_job (with_file_is_waiting true)
    else mret tt.

Definition init_data_stream_for_cm : JobM (option (Z * Z)) :=
  done ← open_data_stream;
  if (done : bool) then mret None
  else
    j ← get_job;
    if wants_digest j then
      digest ← get_current_digest;
      _ ← put_job (with_file_is_waiting true);
      mret (Some digest)
    else mret None.

(** ** Reading *)

Definition BUF_SIZE : nat := Z.to_nat (128 * 1024).

(** One call of [DataStream::read] on a buffer of [want] bytes. *)
Definition stream_read (f : Fs) (s : DataStream) (want : nat)
  : result IoErr (list byte * DataStream) :=
  match s with
  | FileStream h =>
      match read_file short h want f with
      | Ok d => Ok (d, FileStream (mkFile (ino h) (pos h + len d)))
      | Err e => Err e
      end
  | BufStream buf at_ =>
      let d := take (Nat.min want (Nat.max 1 (short at_))) (drop (Z.to_nat at_) buf) in
      Ok (d, BufStream buf (at_ + len d))
  end.

(** The loop of [read]: it stops at the end of the data or on a full buffer. *)
Fixpoint fill (fuel : nat) (f : Fs) (s : DataStream) (acc : list byte)
  : option (result IoErr (list byte * DataStream)) :=
  match fuel with
  | O => None
  | S fuel =>
      match stream_read f s (BUF_SIZE - length acc) with
      | Err e => Some (Err e)
      | Ok (d, s) =>
          let acc := acc ++ d in
          if (length d =? 0)%nat || (length acc =? BUF_SIZE)%nat then Some (Ok (acc, s))
          else fill fuel f s acc
      end
  end.

Definition block_name (j : TransferJob) (entry : FileEntry) (p : string) : string :=
  if (length (files j) =? 1)%nat && String.eqb (name entry) "" then
    match file_name p with Some s => s | None => "" end
  else name entry.

(** The name of the current file, [None] when the job has no more files. *)
Definition current_name (j : TransferJob) : option string :=
  match data_source j with
  | FilePath p =>
      entry ← entry_of j (as_usize (file_num j));
      Some (block_name j entry p)
  | MemoryCursor _ => Some ""
  end.

Definition is_file_path (d : DataSource) : bool :=
  match d with FilePath _ => true | MemoryCursor _ => false end.

Definition read_fail (j : TransferJob) : TransferJob :=
  advance_file (with_data_stream None j).

(** The block built from what was read. *)
Definition read_block (name : string) (buf : list byte) : JobM (option FileTransferBlock) :=
  j ← get_job;
  if (length buf =? 0)%nat then
    match data_source j with
    | MemoryCursor _ => _ ← put_job (with_data_stream None); mret None
    | FilePath _ =>
        _ ← put_job read_fail;
        mret (Some (mkBlock (id j) (as_i32 (file_num j)) [] false))
    end
  else
    _ ← put_job (fun j =>
      with_finished_size (as_u64 (finished_size j + len buf)) j);
    let '(buf, compressed) :=
      if is_file_path (data_source j) && negb (is_compressed_file name) then
        let tmp := compress buf in
        if len tmp <? len buf then (tmp, true) else (buf, false)
      else (buf, false) in
    _ ← put_job (fun j => with_transferred (as_u64 (transferred j + len buf)) j);
    mret (Some (mkBlock (id j) (as_i32 (file_num j)) buf compressed)).

Definition read : JobM (option FileTransferBlock) :=
  j ← get_job;
  if match ty j with
     | Generic => enable_overwrite_detection j && negb (file_confirmed j)
     | Printer => false
     end
  then mret None
  else
    match current_name j with
    | None => _ ← put_job (with_data_stream None); mret None
    | Some name =>
        f ← get_fs;
        match data_stream j with
        | None => st_fail "data stream is None"
        | Some s =>
            match fill (S BUF_SIZE) f s [] with
            | None => st_fail "unreachable"
            | Some (Err e) => _ ← put_job read_fail; st_fail (io_msg e)
            | Some (Ok (buf, s)) =>
                _ ← put_job (with_data_stream (Some s));
                read_block name buf
            end
        end
    end.

(** ** Overwrite detection, confirmation and resume *)

Definition set_overwrite_strategy (o : option bool) (j : TransferJob) : TransferJob :=
  with_default_overwrite_strategy o j.

Definition set_file_confirmed (b : bool) (j : TransferJob) : TransferJob :=
  with_file_skipped false (with_file_confirmed b j).

Definition set_file_is_waiting (b : bool) (j : TransferJob) : TransferJob :=
  with_file_is_waiting b j.

Definition job_skipped (j : TransferJob) : bool :=
  file_skipped j && (length (files j) =? 1)%nat.

Definition job_completed (j : TransferJob) : bool :=
  negb (enable_overwrite_detection j) || (negb (file_confirmed j) && negb (file_is_waiting j)).

Definition job_error (j : TransferJob) : option string :=
  if job_skipped j then Some "skipped" else None.

Definition set_file_skipped (j : TransferJob) : TransferJob :=
  let j := with_data_stream None j in
  let j := set_file_confirmed false j in
  let j := set_file_is_waiting false j in
  let j := with_file_num (as_i32 (file_num j + 1)) j in
  with_file_skipped true j.

(** Indexing [files] out of range panics; the error "index out of bounds" stands for it. *)
Definition set_stream_offset (file_num offset : Z) : JobM unit :=
  j ← get_job;
  match data_source j with
  | MemoryCursor _ => mret tt
  | FilePath p =>
      match entry_of j (as_usize file_num) with
      | None => st_fail "index out of bounds"
      | Some entry =>
          f ← get_fs;
          match resolve_entry_path f j p (name entry) with
          | None => mret tt
          | Some path =>
              r ← (if path_exists f (download_path path) && path_exists f (digest_path path)
                   then st_ok (lift_io (open_write false (download_path path)))
                   else if path_exists f path then st_ok (lift_io (open_read path))
                   else mret None);
              match r with
              | None => mret tt
              | Some h =>
                  put_job (fun j =>
                    let j := with_data_stream (Some (FileStream (mkFile (ino h) offset))) j in
                    let j := with_transferred (as_u64 (transferred j + offset)) j in
                    with_finished_size (as_u64 (finished_size j + offset)) j)
              end
          end
      end
  end.

Definition confirm (r : FileTransferSendConfirmRequest) : JobM bool :=
  j ← get_job;
  _ ← (if negb (file_num j =? cf_file_num r) then mret tt
       else match cf_union r with
       | Some (Skip true) => put_job set_file_skipped
       | Some (Skip false) => put_job (set_file_confirmed true)
       | Some (OffsetBlk offset) =>
           _ ← put_job (set_file_confirmed true);
           if 0 <? offset then set_stream_offset (cf_file_num r) offset else mret tt
       | None => mret tt
       end);
  mret true.

Inductive DigestCheckResult : Type :=
| IsSame
| NeedConfirm (d : FileTransferDigest)
| NoSuchFile.

(** The answer when a partial download of the very same file is found. *)
Definition check_partial (f : Fs) (file_path : string) (d : FileTransferDigest)
  : option FileTransferDigest :=
  content ← ok (fs_read f (digest_path file_path));
  local ← digest_from_json content;
  if (digest_modified local =? dg_last_modified d) && (digest_size local =? dg_file_size d)
  then
    '(transferred_size, _) ← ok (metadata f (download_path file_path));
    if 0 <? transferred_size then
      Some (mkDigest (dg_id d) (dg_file_num d) (dg_last_modified d) (dg_file_size d) true
              transferred_size false)
    else None
  else None.

Definition is_write_need_confirmation (f : Fs) (is_resume : bool) (file_path : string)
    (d : FileTransferDigest) : result string DigestCheckResult :=
  let existing :=
    if path_exists f file_path && is_file f file_path then
      match metadata f file_path with
      | Err _ => Err "io error"
      | Ok (size, local_mt) =>
          if local_mt <? 0 then Err "second time provided was later than self"
          else
            let is_identical := (dg_last_modified d =? local_mt) && (dg_file_size d =? size) in
            Ok (NeedConfirm
                  (mkDigest (dg_id d) (dg_file_num d) local_mt size is_identical 0 false))
      end
    else Ok NoSuchFile in
  if is_resume && path_exists f (digest_path file_path)
     && path_exists f (download_path file_path)
  then match check_partial f file_path d with
       | Some r => Ok (NeedConfirm r)
       | None => existing
       end
  else existing.

(** ** The jobs of a connection *)

Fixpoint remove_job (id_ : Z) (jobs : list TransferJob)
  : option TransferJob * list TransferJob :=
  match jobs with
  | [] => (None, [])
  | j :: jobs =>
      if id j =? id_ then (Some j, jobs)
      else let '(r, jobs) := remove_job id_ jobs in (r, j :: jobs)
  end.

Definition find_job (id_ : Z) (jobs : list TransferJob) : option TransferJob :=
  List.find (fun j => id j =? id_) jobs.

(** [stream.send(..).await?] outside of a job. *)
Definition send_env (m : Message) (e : Env) : result string unit * Env :=
  if broken (net e) then (Err "connection reset", e)
  else (Ok tt, mkEnv (fs e) (mkNet (sent (net e) ++ [m]) (broken (net e)))).

Fixpoint init_jobs (jobs : list TransferJob) (e : Env)
  : result string unit * (list TransferJob * Env) :=
  match jobs with
  | [] => (Ok tt, ([], e))
  | j :: jobs =>
      let continue_ j e :=
        let '(r, (jobs, e)) := init_jobs jobs e in (r, (j :: jobs, e)) in
      if is_last_job j then continue_ j e
      else match init_data_stream (j, e) with
      | (Ok _, (j, e)) => continue_ j e
      | (Err err, (j, e)) =>
          match send_env (new_error (id j) err (file_num j)) e with
          | (Ok _, e) => continue_ j e
          | (Err err, e) => (Err err, (j :: jobs, e))
          end
      end
  end.

(** What one call reports: nothing, or the end of a job with its outcome. *)
Inductive JobLog : Type :=
| NoLog
| JobDone (id : Z)
| JobFailed (id : Z) (err : string).

(** The body of the loop of [handle_read_jobs] for the first job it reaches. *)
Definition step_job (j : TransferJob) (e : Env)
  : result string (JobLog * option Z) * (TransferJob * Env) :=
  match read (j, e) with
  | (Err err, (j, e)) =>
      match send_env (new_error (id j) err (file_num j)) e with
      | (Ok _, e) => (Ok (NoLog, None), (j, e))
      | (Err err, e) => (Err err, (j, e))
      end
  | (Ok (Some block), (j, e)) =>
      match send_env (new_block block) e with
      | (Ok _, e) => (Ok (NoLog, None), (j, e))
      | (Err err, e) => (Err err, (j, e))
      end
  | (Ok None, (j, e)) =>
      if job_completed j then
        let '(log, m) :=
          match job_error j with
          | Some err => (JobFailed (id j) err, new_error (id j) err (file_num j))
          | None => (JobDone (id j), new_done (id j) (file_num j))
          end in
        match send_env m e with
        | (Ok _, e) => (Ok (log, Some (id j)), (j, e))
        | (Err err, e) => (Err err, (j, e))
        end
      else (Ok (NoLog, None), (j, e))
  end.

(** Only the first job that is not a [is_last_job] runs: the loop breaks. *)
Fixpoint step_jobs (jobs : list TransferJob) (e : Env)
  : result string (JobLog * option Z) * (list TransferJob * Env) :=
  match jobs with
  | [] => (Ok (NoLog, None), ([], e))
  | j :: jobs =>
      if is_last_job j then
        let '(r, (jobs, e)) := step_jobs jobs e in (r, (j :: jobs, e))
      else
        let '(r, (j, e)) := step_job j e in (r, (j :: jobs, e))
  end.

Definition handle_read_jobs (jobs : list TransferJob) (e : Env)
  : result string JobLog * (list TransferJob * Env) :=
  match init_jobs jobs e with
  | (Err err, s) => (Err err, s)
  | (Ok _, (jobs, e)) =>
      match step_jobs jobs e with
      | (Err err, s) => (Err err, s)
      | (Ok (log, finished), (jobs, e)) =>
          let jobs := match finished with
                      | Some id_ => snd (remove_job id_ jobs)
                      | None => jobs
                      end in
          (Ok log, (jobs, e))
      end
  end.
End Transfer.
