(* ===== verification/TransferSafety.v ===== *)
(** * What a hostile sender cannot do: names and confinement

    The names of the files of a job, and the blocks, come from the peer.  This
    file shows which names are accepted, that an accepted name denotes an entry
    below the job's directory with no symbolic link on the way, and that, as
    long as nothing below that directory is a symbolic link, writing a block
    changes no entry outside of it. *)

From S2P Require Import Prelude OsFs Compress PathFacts FileTransfer.
From Stdlib Require Import Ascii.

(** ** Accepted names *)

(** A segment as [components] yields it. *)
Definition seg_ok (s : string) : Prop := has_slash s = false /\ seg_key s = Some s.

Lemma seg_component_normal s t :
  seg_component s = Some (Normal t) -> t = s /\ seg_key s = Some s /\ s <> "..".
Proof.
  unfold seg_component, seg_key.
  destruct (String.eqb s "") eqn:?, (String.eqb s ".") eqn:?, (String.eqb s "..") eqn:E; try done.
  intros [= <-]. split_and!; [done..|]. by apply String.eqb_neq.
Qed.

Lemma components_normal p s :
  Normal s ∈ components p -> seg_ok s /\ s <> "..".
Proof.
  intros H. assert (Hs : exists t, t ∈ split_on SLASH p /\ seg_component t = Some (Normal s)).
  { unfold components in H.
    assert (Hl : Normal s ∈ omap seg_component (split_on SLASH p)).
    { destruct (starts_with_char SLASH p).
      - apply elem_of_cons in H as [H|H]; done.
      - destruct (split_on SLASH p) as [|w l] eqn:E; [done|].
        destruct (decide (w = ".")) as [->|Hw].
        + apply elem_of_cons in H as [H|H]; [done|]. cbn. done.
        + destruct w as [|a w]; [done|].
          destruct a as [[] [] [] [] [] [] [] []]; try done. by destruct w. }
    apply list_elem_of_omap in Hl as (t & ? & ?). eauto. }
  destruct Hs as (t & Ht & Hc). apply seg_component_normal in Hc as (-> & ? & ?).
  split; [|done]. split; [|done].
  pose proof (split_on_segs p) as Hf. rewrite Forall_forall in Hf. by apply Hf.
Qed.

(** [validate_file_name_no_traversal] is the conjunction of its three tests. *)
Lemma validate_name_ok name :
  validate_file_name_no_traversal name = Ok tt <->
  has_nul name = false /\ ~ In ".." (split_on SLASH name) /\
  starts_with_char SLASH name = false.
Proof.
  unfold validate_file_name_no_traversal.
  destruct (has_nul name); [by split; [|intros [? _]]|].
  set (e := existsb _ _). assert (He : e = true <-> In ".." (split_on SLASH name)).
  { unfold e. rewrite existsb_exists. split.
    - intros (x & Hx & Heq). apply String.eqb_eq in Heq as <-.
      by apply List.filter_In in Hx as [? _].
    - intros Hin. exists "..". split; [|done]. by apply List.filter_In. }
  destruct e, (starts_with_char SLASH name); intuition congruence.
Qed.

Lemma key_segs name s : s ∈ key name -> s = "/" \/ In s (split_on SLASH name).
Proof.
  rewrite key_segments, elem_of_app. intros [H|H].
  - left. unfold root_key in H. destruct (starts_with_char _ _).
    + by apply list_elem_of_singleton in H.
    + by apply elem_of_nil in H.
  - right. apply list_elem_of_omap in H as (t & Ht & Hk). apply list_elem_of_In.
    unfold seg_key in Hk. by repeat case_match; simplify_eq.
Qed.

Lemma key_relative_no_root name :
  starts_with_char SLASH name = false -> "/" ∉ key name.
Proof.
  intros Hn H. rewrite key_segments in H. unfold root_key in H. rewrite Hn in H.
  apply list_elem_of_omap in H as (t & Ht & Hk).
  pose proof (split_on_segs name) as Hf. rewrite Forall_forall in Hf.
  specialize (Hf t Ht). unfold seg_key in Hk. repeat case_match; simplify_eq.
Qed.

(** ** No symbolic link on the way *)

Definition is_link (o : option Entry) : Prop := exists t, o = Some (ELink t).

Lemma key_seg s : seg_ok s -> key s = [s].
Proof.
  intros [Hs Hk]. rewrite key_segments, split_on_no_slash by done. cbn. rewrite Hk.
  unfold root_key. destruct s as [|a s]; [done|]. cbn [starts_with_char].
  change (has_slash (String a s)) with (Ascii.eqb SLASH a || has_slash s) in Hs.
  apply orb_false_iff in Hs as [Hs _]. by rewrite Ascii.eqb_sym, Hs.
Qed.

Lemma seg_ok_relative s : seg_ok s -> starts_with_char SLASH s = false.
Proof.
  intros [Hs _]. destruct s as [|a s]; [done|]. cbn [starts_with_char].
  change (has_slash (String a s)) with (Ascii.eqb SLASH a || has_slash s) in Hs.
  apply orb_false_iff in Hs as [Hs _]. by rewrite Ascii.eqb_sym.
Qed.

Lemma check_components_ok f cs : forall cur,
  (forall s, Normal s ∈ cs -> seg_ok s) -> check_components f cur cs = Ok tt ->
  forall pre, pre <> [] -> pre `prefix_of` omap comp_key cs ->
  ~ is_link (entries f !! (key cur ++ pre)).
Proof.
  induction cs as [|c cs IH]; intros cur Hok Hc pre Hne Hpre.
  { destruct Hpre as [k Hk]. by destruct pre. }
  assert (Hok' : forall s, Normal s ∈ cs -> seg_ok s).
  { intros s Hs. apply Hok. by right. }
  destruct c as [| | |seg]; cbn in Hc; [done| |done|].
  - cbn in Hpre. by apply (IH cur).
  - assert (Hseg : seg_ok seg) by (apply Hok; by left).
    cbn in Hpre. destruct pre as [|s pre]; [done|].
    destruct Hpre as [k [= <- Hk]].
    assert (Hkey : key (path_join cur seg) = key cur ++ [seg]).
    { rewrite key_path_join, (key_seg seg); [done..|by apply seg_ok_relative]. }
    assert (Hlook : ~ is_link (entries f !! (key cur ++ [seg])) /\
                    check_components f (path_join cur seg) cs = Ok tt).
    { unfold symlink_metadata in Hc. rewrite <- Hkey. unfold is_link.
      repeat case_match; by (split; [intros [? ?]|]; congruence). }
    destruct Hlook as [Hl Hc']. destruct pre as [|s' pre]; [done|].
    specialize (IH (path_join cur seg) Hok' Hc' (s' :: pre)).
    rewrite Hkey, <- app_assoc in IH. apply IH; [done|]. by exists k.
Qed.

(** A name accepted by [join_validated_path] cannot escape.  The joined path
    denotes the entry reached from the job's directory by the segments of the
    name; none of them is [..] or absolute, and no entry on the way (the last
    included) is a symbolic link. *)
Theorem join_validated_path_confined (f : Fs) (base name p : string) :
  join_validated_path f base name = Ok p -> name <> "" ->
  key p = key base ++ key name /\ ".." ∉ key name /\ "/" ∉ key name /\
  forall pre, pre <> [] -> pre `prefix_of` key name ->
    ~ is_link (entries f !! (key base ++ pre)).
Proof.
  unfold join_validated_path. intros H Hne.
  destruct (validate_file_name_no_traversal name) as [[]|] eqn:Hv; [|done]. cbn in H.
  destruct (validate_no_symlink_components f base name) as [[]|] eqn:Hl; [|done]. cbn in H.
  injection H as <-. apply validate_name_ok in Hv as (Hnul & Hdd & Hrel).
  unfold join, validate_no_symlink_components in *.
  destruct (String.eqb_spec name ""); [done|]. split_and!.
  - by apply key_path_join.
  - intros Hin. apply key_segs in Hin as [?|?]; done.
  - by apply key_relative_no_root.
  - intros pre Hp Hpre. apply (check_components_ok f (components name)); [|done..].
    intros s Hs. by apply components_normal in Hs as [? _].
Qed.

Definition demo_fs : Fs :=
  mkFs (<[["/"; "d"; "l"] := ELink "/etc"]> (<[["/"; "d"] := EDir]> (<[["/"] := EDir]> ∅)))
    ∅ 0 ∅ 0.

Lemma join_validated_path_confined_witness :
  join_validated_path demo_fs "/d" "a/./b" = Ok "/d/a/./b" /\
  key "/d/a/./b" = key "/d" ++ key "a/./b" /\
  join_validated_path demo_fs "/d" "l/b" = Err "symlink path component is not allowed".
Proof.
  split; [reflexivity|split; [|reflexivity]].
  apply (join_validated_path_confined demo_fs "/d" "a/./b" "/d/a/./b"); [reflexivity|done].
Defined.

(** ** Writing a block stays below the job's directory *)

(** Where a job may write: in a directory, when the names of its files are not empty, or
    at a path, as a directory or as a single file with its companions. *)
Inductive Target : Type :=
| InDir (base : string)
| AtPath (base : string).
Coercion InDir : string >-> Target.

Definition base_of (t : Target) : string := match t with InDir b | AtPath b => b end.

Definition below (t : Target) (k : list string) : Prop :=
  match t with
  | InDir b => key b `prefix_of` k
  | AtPath b => key b `prefix_of` k \/ k = key (download_path b) \/ k = key (digest_path b)
  end.

Definition named (t : Target) (nm : string) : Prop :=
  match t with InDir _ => nm <> "" | AtPath _ => True end.

Lemma below_base t k : key (base_of t) `prefix_of` k -> below t k.
Proof. destruct t; cbn; auto. Qed.

(** What leads to a place where a job may write is such a place, or leads to its directory. *)
Lemma below_prefix t k p :
  below t k -> p `prefix_of` k -> below t p \/ p `prefix_of` key (base_of t).
Proof.
  assert (Hw : forall b, key b `prefix_of` k -> p `prefix_of` k -> key b `prefix_of` p \/ p `prefix_of` key b).
  { intros b Hb Hp. destruct (prefix_weak_total _ _ _ Hp Hb); auto. }
  destruct t as [b|b]; cbn; [by apply Hw|].
  intros [H|[E|E]] Hp; [destruct (Hw b H Hp); auto|subst k..].
  - destruct (suffix_prefix b ".download" p) as [E|H]; [done..|subst p|]; auto.
  - destruct (suffix_prefix b ".digest" p) as [E|H]; [done..|subst p|]; auto.
Qed.

Section Confinement.
Context (base : Target).

(** An entry changed between two file systems lies below the directory, or is
    one of its ancestors, just created. *)
Definition confined (f f' : Fs) : Prop := forall k,
  entries f' !! k <> entries f !! k ->
  below base k \/ (k `prefix_of` key (base_of base) /\ entries f' !! k = Some EDir).

Definition no_links (f : Fs) : Prop := forall k, below base k -> ~ is_link (entries f !! k).

(** Every inode in use has been allocated. *)
Definition allocated (f : Fs) : Prop := forall k i,
  entries f !! k = Some (EFile i) -> (i < next_ino f)%nat.

Definition tidy (f : Fs) : Prop := no_links f /\ allocated f.

Definition safe_step (f f' : Fs) : Prop := tidy f -> tidy f' /\ confined f f'.

Lemma safe_refl f : safe_step f f.
Proof. intros H. split; [done|]. by intros k. Qed.

Lemma safe_trans f g h : safe_step f g -> safe_step g h -> safe_step f h.
Proof.
  intros H1 H2 Hf. destruct (H1 Hf) as [Hg C1]. destruct (H2 Hg) as [Hh C2].
  split; [done|]. intros k Hk.
  destruct (decide (entries h !! k = entries g !! k)) as [E|E].
  - rewrite E in *. by apply C1.
  - by apply C2.
Qed.

Lemma safe_entries f f' :
  entries f' = entries f -> next_ino f' = next_ino f -> safe_step f f'.
Proof.
  intros E N [Hf Ha]. unfold tidy, no_links, allocated, confined. rewrite E, N.
  split; [done|]. by intros k.
Qed.

(** One entry replaced; a new inode may have been allocated for it. *)
Lemma safe_insert f f' k e :
  below base k -> ~ is_link (Some e) -> (next_ino f <= next_ino f')%nat ->
  (forall i, tidy f -> e = EFile i -> (i < next_ino f')%nat) ->
  entries f' = <[k := e]> (entries f) -> safe_step f f'.
Proof.
  intros Hk He Hn Hi E [Hf Ha]. unfold tidy, no_links, allocated, confined. rewrite E.
  split_and!.
  - intros k' Hk'. rewrite lookup_insert. case_decide; [done|by apply Hf].
  - intros k' i. rewrite lookup_insert. case_decide; [intros [= ->]; by apply Hi|].
    intros H'. apply Ha in H'. lia.
  - intros k'. rewrite lookup_insert. case_decide; [by subst; left|done].
Qed.

Lemma safe_delete f f' k :
  below base k -> entries f' = delete k (entries f) -> next_ino f' = next_ino f -> safe_step f f'.
Proof.
  intros Hk E N [Hf Ha]. unfold tidy, no_links, allocated, confined. rewrite E, N.
  split_and!.
  - intros k' Hk'. rewrite lookup_delete. case_decide; [by intros [? ?]|by apply Hf].
  - intros k' i. rewrite lookup_delete. case_decide; [done|by apply Ha].
  - intros k'. rewrite lookup_delete. case_decide; [by subst; left|done].
Qed.

Lemma safe_mkdir f f' k :
  (below base k \/ k `prefix_of` key (base_of base)) ->
  entries f' = <[k := EDir]> (entries f) -> next_ino f' = next_ino f -> safe_step f f'.
Proof.
  intros Hk E N [Hf Ha]. unfold tidy, no_links, allocated, confined. rewrite E, N.
  split_and!.
  - intros k' Hk'. rewrite lookup_insert. case_decide; [by intros [? ?]|by apply Hf].
  - intros k' i. rewrite lookup_insert. case_decide; [done|by apply Ha].
  - intros k'. rewrite lookup_insert. case_decide; [subst; destruct Hk; [by left|by right]|done].
Qed.

Lemma resolve_no_link f k : ~ is_link (entries f !! k) -> resolve f k = Some k.
Proof.
  intros H. unfold resolve. cbn. destruct (entries f !! k) as [[]|] eqn:E; try done.
  destruct H. unfold is_link. eauto.
Qed.

Lemma open_write_safe t p f : below base (key p) -> safe_step f (exec (open_write t p) f).
Proof.
  intros Hb Hf. unfold exec, open_write. rewrite (resolve_no_link f) by by apply Hf.
  case_decide; [by apply safe_refl|].
  destruct (entries f !! key p) as [[| |]|] eqn:E; try by apply safe_refl.
  - by apply safe_entries.
  - destruct (dir_of_exists f (key p)); [|by apply safe_refl].
    eapply safe_insert; [done| | | |done|done]; cbn; [by intros [? ?]|lia|].
    intros i _ [= ->]. lia.
Qed.

Lemma write_file_safe h d f : safe_step f (exec (write_file h d) f).
Proof.
  unfold exec, write_file. destruct (inodes f !! ino h); [|by apply safe_refl].
  by apply safe_entries.
Qed.

Lemma fs_write_safe p d f : below base (key p) -> safe_step f (exec (fs_write p d) f).
Proof.
  intros Hb. unfold exec, fs_write, mbind, st_mbind, st_bind, create.
  pose proof (open_write_safe true p f Hb) as H. unfold exec in H.
  destruct (open_write true p f) as [[h|] g]; [|done]. cbn in H.
  eapply safe_trans; [exact H|].
  pose proof (write_file_safe h d g) as H2. unfold exec in H2.
  by destruct (write_file h d g) as [[h'|] g'].
Qed.

Lemma remove_file_safe p f : below base (key p) -> safe_step f (exec (remove_file p) f).
Proof.
  intros Hb. unfold exec, remove_file, remove_entry. case_decide; [by apply safe_refl|].
  repeat case_match; try by apply safe_refl.
  all: by eapply safe_delete.
Qed.

Lemma rename_safe a b f :
  below base (key a) -> below base (key b) -> safe_step f (exec (rename a b) f).
Proof.
  intros Ha Hb Hf. unfold exec, rename, rename_entry. case_decide; [by apply safe_refl|].
  destruct (entries f !! key a) as [e|] eqn:E; [|by apply safe_refl].
  assert (He : ~ is_link (Some e)) by (rewrite <- E; by apply Hf).
  assert (Hs : safe_step f
    (set_entries (fun m => <[key b := e]> (delete (key a) m)) f)).
  { eapply safe_trans; [by apply (safe_delete f (set_entries (delete (key a)) f) (key a))|].
    eapply safe_insert; [done|done|done| |done]. cbn. intros i _ ->. by apply Hf in E. }
  repeat case_match; by apply safe_refl || by apply Hs.
Qed.

Lemma set_file_mtime_safe p t f : safe_step f (exec (set_file_mtime p t) f).
Proof.
  unfold exec, set_file_mtime. repeat case_match; by apply safe_refl || by apply safe_entries.
Qed.

Lemma create_dirs_safe ks : forall f,
  Forall (fun k => below base k \/ k `prefix_of` key (base_of base)) ks ->
  safe_step f (exec (create_dirs ks) f).
Proof.
  induction ks as [|k ks IH]; intros f Hks; [by apply safe_refl|].
  apply Forall_cons in Hks as [Hk Hks]. unfold exec in *. cbn.
  case_decide; [by apply safe_refl|].
  destruct (entry_at f k) as [[]|]; [by apply safe_refl|by apply IH|by apply safe_refl|].
  destruct (entries f !! k); [by apply safe_refl|].
  eapply safe_trans; [by apply (safe_mkdir f (set_entries <[k:=EDir]> f) k)|by apply IH].
Qed.

Lemma prefixes_spec {A} (l p : list A) : p ∈ prefixes l -> p `prefix_of` l.
Proof.
  revert p. induction l as [|x l IH]; intros p H; [by apply elem_of_nil in H|].
  cbn in H. apply elem_of_cons in H as [->|H]; [by exists l|].
  apply list_elem_of_fmap in H as (q & -> & Hq). by apply prefix_cons, IH.
Qed.

Lemma create_dir_all_safe k d f :
  below base k -> d `prefix_of` k -> safe_step f (exec (create_dir_all d) f).
Proof.
  intros Hk Hd. apply create_dirs_safe. rewrite Forall_forall. intros p Hp.
  apply prefixes_spec in Hp.
  apply (below_prefix base k); [done|by transitivity d].
Qed.

(** *** Hoare-style reasoning on the operations of a job *)

(** A job that receives at the target; in a directory, the names are not empty. *)
Definition dir_job (j : TransferJob) : Prop :=
  ty j = Generic /\ data_source j = FilePath (base_of base) /\
  Forall (fun e => named base (name e)) (files j).

Definition safe {A} (m : JobM A) (Q : A -> Prop) : Prop := forall j e r j' e',
  dir_job j -> m (j, e) = (r, (j', e')) ->
  dir_job j' /\ safe_step (fs e) (fs e') /\ forall a, r = Ok a -> Q a.

Lemma safe_bind {A B} (m : JobM A) (k : A -> JobM B) Q R :
  safe m Q -> (forall a, Q a -> safe (k a) R) -> safe (m ≫= k) R.
Proof.
  intros Hm Hk j e r j' e' Hj. unfold mbind, st_mbind, st_bind.
  destruct (m (j, e)) as [[a|err] [j1 e1]] eqn:E;
    destruct (Hm _ _ _ _ _ Hj E) as (Hj1 & Hs1 & HQ).
  - intros E2. destruct (Hk a (HQ a eq_refl) _ _ _ _ _ Hj1 E2) as (? & Hs2 & ?).
    split_and!; [done| |done]. by eapply safe_trans.
  - intros [= <- <- <-]. by split_and!.
Qed.

Lemma safe_weaken {A} (m : JobM A) (Q R : A -> Prop) :
  safe m Q -> (forall a, Q a -> R a) -> safe m R.
Proof. intros Hm HQ j e r j' e' Hj E. destruct (Hm _ _ _ _ _ Hj E) as (? & ? & ?). eauto. Qed.

Lemma safe_ret {A} (a : A) (Q : A -> Prop) : Q a -> safe (mret a) Q.
Proof. intros Ha j e r j' e' Hj [= <- <- <-]. split_and!; [done|apply safe_refl|congruence]. Qed.

Lemma safe_fail {A} err (Q : A -> Prop) : safe (st_fail err) Q.
Proof. intros j e r j' e' Hj [= <- <- <-]. split_and!; [done|apply safe_refl|done]. Qed.

Lemma safe_lift {A} (r : result string A) (Q : A -> Prop) :
  (forall a, r = Ok a -> Q a) -> safe (st_lift r) Q.
Proof. intros Hr j e r' j' e' Hj [= <- <- <-]. split_and!; [done|apply safe_refl|done]. Qed.

Lemma safe_get_job : safe get_job dir_job.
Proof.
  intros j e r j' e' Hj [= <- <- <-]. split_and!; [done|apply safe_refl|].
  by intros a [= <-].
Qed.

Lemma safe_get_fs : safe get_fs (fun _ => True).
Proof. intros j e r j' e' Hj [= <- <- <-]. split_and!; [done|apply safe_refl|done]. Qed.

Lemma safe_put_job f :
  (forall j, dir_job j -> dir_job (f j)) -> safe (put_job f) (fun _ => True).
Proof.
  intros Hf j e r j' e' Hj [= <- <- <-]. split_and!; [by apply Hf|apply safe_refl|done].
Qed.

Lemma safe_put_fs f :
  (forall x, safe_step x (f x)) -> safe (put_fs f) (fun _ => True).
Proof. intros Hf j e r j' e' Hj [= <- <- <-]. by split_and!. Qed.

Lemma safe_io {A} (m : IO A) :
  (forall f, safe_step f (exec m f)) -> safe (lift_io m) (fun _ => True).
Proof.
  intros Hm j e r j' e' Hj. unfold lift_io. specialize (Hm (fs e)). unfold exec in Hm.
  destruct (m (fs e)) as [r0 f']. intros [= <- <- <-]. by split_and!.
Qed.
End Confinement.

(** Texts derived from a joined path stay below. *)
Lemma path_join_app p q x : q <> "" -> path_join p q +:+ x = path_join p (q +:+ x).
Proof.
  intros Hq. assert (Hs : starts_with_char SLASH (q +:+ x) = starts_with_char SLASH q)
    by by destruct q.
  unfold path_join. rewrite Hs. destruct (starts_with_char SLASH q); [done|].
  destruct (last_char p) as [b|]; [|done].
  destruct (Ascii.eqb b SLASH); by rewrite !app_string_assoc.
Qed.

(** The suffixes of the files that a job writes. *)
Definition companion (x : string) : bool := existsb (String.eqb x) [""; ".download"; ".digest"].

Lemma join_below (t : Target) nm x :
  named t nm -> starts_with_char SLASH nm = false -> companion x = true ->
  below t (key (join (base_of t) nm +:+ x)).
Proof.
  intros Hne Hrel Hx. unfold join. destruct (String.eqb_spec nm "") as [->|Hn].
  - destruct t as [b|b]; [done|]. cbn [base_of below]. apply existsb_exists in Hx as (y & Hy & <-%String.eqb_eq).
    destruct Hy as [<-|[<-|[<-|[]]]]; [left; by rewrite app_empty_r|auto..].
  - apply below_base. rewrite path_join_app by done.
    rewrite key_path_join; [by apply prefix_app_r|]. by destruct nm.
Qed.

Lemma parent_prefix k d : parent_key k = Some d -> d `prefix_of` k.
Proof.
  intros H. assert (Hd : d = removelast k).
  { destruct k as [|s k]; [done|]. unfold parent_key in H.
    destruct s as [|a s]; [by injection H|].
    destruct a as [[] [] [] [] [] [] [] []], s, k; by injection H || done. }
  subst d. destruct k as [|s k] using rev_ind; [done|].
  rewrite removelast_last. by apply prefix_app_r.
Qed.

Lemma join_validated_inv f base nm p :
  join_validated_path f base nm = Ok p ->
  p = join base nm /\ starts_with_char SLASH nm = false.
Proof.
  unfold join_validated_path. intros H.
  destruct (validate_file_name_no_traversal nm) as [[]|] eqn:Hv; [|done]. cbn in H.
  destruct (validate_no_symlink_components f base nm) as [[]|]; [|done]. cbn in H.
  injection H as <-. by apply validate_name_ok in Hv as (_ & _ & ?).
Qed.

Lemma entry_of_name base j n entry :
  dir_job base j -> entry_of j n = Some entry -> named base (name entry).
Proof.
  intros (_ & _ & Hf) H. unfold entry_of in H. destruct (n <? len (files j)); [|done].
  rewrite Forall_lookup in Hf. eauto.
Qed.

Lemma join_below_self (t : Target) nm :
  named t nm -> starts_with_char SLASH nm = false -> below t (key (join (base_of t) nm)).
Proof. intros. rewrite <- (app_empty_r (join _ nm)). by apply (join_below t). Qed.

Lemma download_below (t : Target) nm :
  named t nm -> starts_with_char SLASH nm = false -> below t (key (download_path (join (base_of t) nm))).
Proof. intros. by apply (join_below t nm ".download"). Qed.

Lemma digest_below (t : Target) nm :
  named t nm -> starts_with_char SLASH nm = false -> below t (key (digest_path (join (base_of t) nm))).
Proof. intros. by apply (join_below t nm ".digest"). Qed.

Lemma modify_time_safe base j f : dir_job base j -> safe_step base f (modify_time j f).
Proof.
  intros Hj. unfold modify_time. pose proof Hj as (Ht & Hd & Hf). rewrite Ht, Hd.
  destruct (entry_of j _) as [entry|] eqn:Ee; [|apply safe_refl].
  unfold resolve_entry_path. rewrite Ht.
  destruct (join_validated_path f (base_of base) (name entry)) as [p|] eqn:Ej; [|apply safe_refl].
  apply join_validated_inv in Ej as [-> Hrel]. cbn [ok].
  pose proof (entry_of_name _ _ _ _ Hj Ee) as Hne.
  eapply safe_trans; [eapply safe_trans|].
  - apply remove_file_safe. by apply digest_below.
  - apply rename_safe; [by apply download_below|by apply (join_below_self base)].
  - apply set_file_mtime_safe.
Qed.

Section WriteSafety.
Context `{Zstd} (digest_to_json : FileDigest -> list byte) (base : Target).

Abbreviation any := (fun _ => True).

Ltac keeps_job := by intros ? (? & ? & ?); split_and!.

Lemma stream_write_all_safe data : safe base (stream_write_all data) any.
Proof.
  eapply safe_bind; [apply safe_get_job|]. intros j Hj.
  destruct (data_stream j) as [[h|buf at_]|].
  - eapply safe_bind; [apply safe_io, write_file_safe|]. intros h' _.
    apply safe_put_job. keeps_job.
  - apply safe_put_job. keeps_job.
  - apply safe_fail.
Qed.

(** The paths [write_open] opens: the download file and its digest. *)
Definition below_opt (o : option string) : Prop :=
  match o with Some p => below base (key p) | None => True end.

Lemma target_safe f j entry :
  dir_job base j -> named base (name entry) ->
  safe base
    (path ← st_lift (join_validated_path f (base_of base) (name entry));
     _ ← put_fs (fun f =>
       match parent_key (key path) with
       | Some pp => exec (create_dir_all pp) f
       | None => f
       end);
     mret (download_path path, Some (digest_path path)))
    (fun '(p, dp) => below base (key p) /\ below_opt dp).
Proof.
  intros Hj Hne. eapply safe_bind; [apply safe_lift, join_validated_inv|].
  intros p [-> Hrel].
  eapply safe_bind.
  { apply safe_put_fs. intros g.
    destruct (parent_key (key (join (base_of base) (name entry)))) as [d|] eqn:Ep; [|apply safe_refl].
    apply (create_dir_all_safe _ (key (join (base_of base) (name entry)))).
    - by apply (join_below_self base).
    - by apply parent_prefix. }
  intros _ _. apply safe_ret. split; [by apply download_below|by apply digest_below].
Qed.

Lemma write_open_safe n : safe base (write_open digest_to_json (base_of base) n) any.
Proof.
  eapply safe_bind; [apply safe_get_job|]. intros j Hj. cbv zeta.
  destruct (entry_of j (as_usize n)) as [entry|] eqn:Ee; [|apply safe_fail].
  pose proof (entry_of_name _ _ _ _ Hj Ee) as Hne.
  destruct (negb _ || _); [|by apply safe_ret].
  eapply safe_bind; [apply safe_put_fs; intros; by apply modify_time_safe|]. intros _ _.
  eapply (safe_bind _ _ _ any).
  { destruct (data_stream j) as [[h|]|]; try by apply safe_ret.
    apply safe_io. intros f. unfold exec, sync_all. destruct (inodes f !! ino h); apply safe_refl. }
  intros _ _.
  eapply safe_bind; [apply safe_put_job; keeps_job|]. intros _ _.
  eapply safe_bind; [apply safe_get_fs|]. intros f _.
  eapply safe_bind.
  { destruct Hj as (Ht & Hd & Hf). rewrite Ht. by apply target_safe with (j := j). }
  intros [p dp] [Hp Hdp].
  eapply safe_bind; [apply safe_get_fs|]. intros f' _.
  eapply (safe_bind _ _ _ any).
  { destruct dp as [dp|]; [|by apply safe_ret].
    destruct (path_exists f' dp); [|by apply safe_ret].
    apply safe_io. intros. by apply remove_file_safe. }
  intros _ _.
  eapply safe_bind; [apply safe_io; intros; by apply open_write_safe|]. intros h _.
  eapply safe_bind; [apply safe_put_job; keeps_job|]. intros _ _.
  destruct dp as [dp|]; [|by apply safe_ret].
  apply safe_put_fs. intros. by apply fs_write_safe.
Qed.

Lemma write_safe block : safe base (write digest_to_json block) any.
Proof.
  eapply safe_bind; [apply safe_get_job|]. intros j Hj.
  destruct (negb _); [apply safe_fail|].
  eapply (safe_bind _ _ _ any).
  { destruct Hj as (_ & -> & _). apply write_open_safe. }
  intros _ _.
  eapply (safe_bind _ _ _ any).
  { destruct (blk_compressed block);
      (eapply safe_bind; [apply stream_write_all_safe|]; intros _ _;
       apply safe_put_job; keeps_job). }
  intros _ _. apply safe_put_job. keeps_job.
Qed.

End WriteSafety.

(** Whatever block a sender transmits, and however the write ends, when
    nothing below the directory is a symbolic link (and the file system is
    well formed) the only entries a directory job changes lie below its
    directory (or are ancestors of it created on the way), and still nothing
    below is a symbolic link. *)
Theorem write_confined `{Zstd} (digest_to_json : FileDigest -> list byte) (base : string) (block : FileTransferBlock) (j j' : TransferJob) (e e' : Env)
    (r : result string unit) :
  dir_job base j -> tidy base (fs e) ->
  write digest_to_json block (j, e) = (r, (j', e')) ->
  tidy base (fs e') /\
  forall k, entries (fs e') !! k <> entries (fs e) !! k ->
    key base `prefix_of` k \/ (k `prefix_of` key base /\ entries (fs e') !! k = Some EDir).
Proof.
  intros Hj Hn Hw. destruct (write_safe digest_to_json base block j e r j' e' Hj Hw) as (_ & Hs & _).
  by apply Hs.
Qed.

(** A directory [/d] of an otherwise empty file system, and a two-file job. *)
Definition plain_fs : Fs := mkFs (<[["/"; "d"] := EDir]> (<[["/"] := EDir]> ∅)) ∅ 0 ∅ 7.

Definition file_entry (nm : string) (sz mt : Z) : FileEntry := mkFileEntry FileT nm false sz mt.

Definition demo_job (base : string) (fl : list FileEntry) : TransferJob :=
  with_files_field fl (new_write 1 Generic "" (FilePath base) 0 false true false).

Definition demo_json (d : FileDigest) : list byte := [u8_of_Z (digest_size d)].

Definition demo_env (f : Fs) : Env := mkEnv f (mkNet [] false).

Lemma tidy_plain : tidy "/d" plain_fs.
Proof.
  split.
  - intros k _ [t Ht]. unfold plain_fs in Ht. cbn in Ht.
    rewrite !lookup_insert in Ht. repeat case_decide; done.
  - intros k i Ht. unfold plain_fs in Ht. cbn in Ht.
    rewrite !lookup_insert in Ht. repeat case_decide; done.
Qed.

Lemma write_confined_witness :
  let j := demo_job "/d" [file_entry "s/f" 3 9] in
  let block := mkBlock 1 0 [x61; x62; x63] false in
  let out := @write toy_zstd demo_json block (j, demo_env plain_fs) in
  entries (fs (snd (snd out))) !! ["/"; "d"; "s"; "f.download"] = Some (EFile 0) /\
  tidy "/d" (fs (snd (snd out))).
Proof.
  intros j block out. split; [vm_compute; reflexivity|].
  apply (@write_confined toy_zstd demo_json "/d" block j (fst (snd out)) (demo_env plain_fs)
           (snd (snd out)) (fst out)).
  - by repeat constructor.
  - apply tidy_plain.
  - unfold out. by destruct (write demo_json block (j, demo_env plain_fs)) as [r [j' e']].
Defined.
