(* ===== verification/TransferContent.v ===== *)
(** * A transferred file is the file that was sent

    [read] is shown to return, block by block, the bytes of the file behind the
    job's handle, whatever the sizes of the system's reads; [write] appends the
    (decompressed) bytes of a block to the file being downloaded; [modify_time]
    moves the download into place.  Together: a file arrives intact.  The end of
    the file states what happens when the steps in between fail. *)

From S2P Require Import Prelude OsFs Compress PathFacts FileTransfer TransferSafety.

Lemma BUF_SIZE_pos : (0 < BUF_SIZE)%nat.
Proof. unfold BUF_SIZE. lia. Qed.

Lemma BUF_SIZE_le : (BUF_SIZE <= Z.to_nat 131072)%nat.
Proof. unfold BUF_SIZE. lia. Qed.

#[local] Opaque BUF_SIZE.

(** A short read followed by the rest is one long read. *)
Lemma short_then_rest {A} (m want : nat) (l d : list A) :
  d = take m l -> (m <= want)%nat -> d ++ take (want - length d) (drop (length d) l) = take want l.
Proof.
  intros -> Hm. destruct (decide (m <= length l)%nat).
  - rewrite length_take_le by done. rewrite take_take_drop. f_equal. lia.
  - rewrite (take_ge l m), drop_ge, take_nil, app_nil_r, take_ge by lia. done.
Qed.

Section Content.
Context `{Zstd, !ZstdLaws, !ZstdTotal}.
Context (digest_to_json : FileDigest -> list byte).
Context (short : Z -> nat).

(** The bytes a block carries. *)
Definition decoded (b : FileTransferBlock) : list byte :=
  if blk_compressed b then decompress (blk_data b) else blk_data b.

(** ** The sender *)

(** The loop of [read] fills the buffer or exhausts the file, however short
    the individual reads are. *)
Lemma fill_spec f i n fuel : forall p acc,
  inodes f !! i = Some n -> 0 <= p -> (length acc < BUF_SIZE)%nat ->
  (BUF_SIZE - length acc < fuel)%nat ->
  let d := take (BUF_SIZE - length acc) (drop (Z.to_nat p) (content n)) in
  fill short fuel f (FileStream (mkFile i p)) acc
  = Some (Ok (acc ++ d, FileStream (mkFile i (p + len d)))).
Proof.
  induction fuel as [|fuel IH]; intros p acc Hn Hp Hacc Hfuel; [lia|].
  cbn [fill stream_read]. unfold read_file. cbn [ino pos]. rewrite Hn.
  set (want := (BUF_SIZE - length acc)%nat).
  set (m := Nat.min want (Nat.max 1 (short p))).
  set (rem := drop (Z.to_nat p) (content n)).
  assert (Hm : (1 <= m <= want)%nat) by lia.
  destruct (Nat.eqb_spec (length (take m rem)) 0) as [Hz|Hz].
  - assert (Hrem : rem = []).
    { apply length_zero_iff_nil. rewrite length_take in Hz. lia. }
    rewrite Hrem, !take_nil. done.
  - rewrite length_app. cbn [orb].
    destruct (Nat.eqb_spec (length acc + length (take m rem)) BUF_SIZE) as [Hf|Hf].
    + replace (take want rem) with (take m rem); [done|].
      rewrite length_take in *. assert (m = want) by lia. congruence.
    + assert (Hl : (length (take m rem) <= m)%nat) by (rewrite length_take; lia).
      rewrite IH; [|done|pose proof (len_nonneg (take m rem)); lia|rewrite length_app; lia
                   |rewrite length_app; lia].
      assert (Hd : drop (Z.to_nat (p + len (take m rem))) (content n)
                   = drop (length (take m rem)) rem).
      { unfold rem at 3. rewrite drop_drop. f_equal. unfold len. lia. }
      rewrite Hd, length_app.
      replace (BUF_SIZE - (length acc + length (take m rem)))%nat
        with (want - length (take m rem))%nat by lia.
      assert (Hs := short_then_rest m want rem _ eq_refl ltac:(lia)).
      rewrite <- app_assoc, Hs. do 5 f_equal. rewrite <- Hs, len_app. lia.
Qed.

(** A job that may read: nothing to be confirmed first. *)
Definition may_read (j : TransferJob) : Prop :=
  match ty j with
  | Generic => enable_overwrite_detection j = true -> file_confirmed j = true
  | Printer => True
  end.

(** The job is reading [files[file_num]] through a handle at [p] on inode [i]. *)
Definition reading (j : TransferJob) (i : nat) (p : Z) : Prop :=
  may_read j /\ is_file_path (data_source j) = true /\
  is_Some (entry_of j (as_usize (file_num j))) /\ 0 <= file_num j < 2 ^ 31 - 1 /\
  data_stream j = Some (FileStream (mkFile i p)).

(** The job after a block of [n] bytes was sent as [k] bytes, the stream moved to [s]. *)
Definition after_block (n k : Z) (s : DataStream) (j : TransferJob) : TransferJob :=
  with_transferred (as_u64 (transferred j + k))
    (with_finished_size (as_u64 (finished_size j + n)) (with_data_stream (Some s) j)).

Lemma as_i32_small z : 0 <= z < 2 ^ 31 -> as_i32 z = z.
Proof.
  intros Hz. unfold swrap. rewrite Z.mod_small by lia.
  destruct (Z.ltb_spec z (2 ^ (32 - 1))); lia.
Qed.

Lemma read_spec j e i p n :
  reading j i p -> 0 <= p -> inodes (fs e) !! i = Some n ->
  let chunk := take BUF_SIZE (drop (Z.to_nat p) (content n)) in
  (chunk = [] /\
   read short (j, e) =
     (Ok (Some (mkBlock (id j) (file_num j) [] false)),
      (read_fail (with_data_stream (Some (FileStream (mkFile i p))) j), e))) \/
  (chunk <> [] /\ exists b,
   read short (j, e) =
     (Ok (Some b),
      (after_block (len chunk) (len (blk_data b)) (FileStream (mkFile i (p + len chunk))) j, e)) /\
   blk_id b = id j /\ blk_file_num b = file_num j /\ decoded b = chunk).
Proof.
  intros (Hm & Hp & [entry He] & Hn & Hs) Hpos Hi chunk.
  unfold read, mbind, st_mbind, st_bind, get_job, get_fs, fst, snd.
  assert (Hgate : match ty j with
                  | Generic => enable_overwrite_detection j && negb (file_confirmed j)
                  | Printer => false
                  end = false).
  { unfold may_read in Hm. destruct (ty j); [|done].
    destruct (enable_overwrite_detection j); [|done]. by rewrite Hm. }
  rewrite Hgate. unfold current_name.
  destruct (data_source j) as [path|] eqn:Hds; [|done]. rewrite He. cbn [mbind option_bind].
  rewrite Hs. rewrite (fill_spec (fs e) i n (S BUF_SIZE) p []); [|done|done|..].
  2,3: cbn [length]; pose proof BUF_SIZE_pos; lia.
  rewrite Nat.sub_0_r. fold chunk. cbn [app put_job].
  unfold read_block, mbind, st_mbind, st_bind, get_job, put_job, fst.
  destruct (Nat.eqb_spec (length chunk) 0) as [Hz|Hz].
  - left. assert (Hc : chunk = []) by by apply length_zero_iff_nil. split; [done|].
    rewrite Hc. cbn. rewrite Hds. rewrite as_i32_small by lia.
    by rewrite Z.add_0_r.
  - right. split; [by intros Hc; rewrite Hc in Hz|].
    cbn [data_source with_data_stream with_finished_size]. rewrite Hds. cbn [is_file_path andb].
    destruct (negb (is_compressed_file _)); [destruct (len (compress chunk) <? len chunk)|].
    + exists (mkBlock (id j) (as_i32 (file_num j)) (compress chunk) true).
      split; [reflexivity|]. cbn [blk_id blk_file_num].
      rewrite as_i32_small by lia. split_and!; [done..|]. apply decompress_compress.
      unfold chunk. rewrite len_take. pose proof BUF_SIZE_le.
      unfold MAX_DECOMPRESSED_SIZE. lia.
    + exists (mkBlock (id j) (as_i32 (file_num j)) chunk false).
      split; [reflexivity|]. cbn [blk_id blk_file_num]. by rewrite as_i32_small by lia.
    + exists (mkBlock (id j) (as_i32 (file_num j)) chunk false).
      split; [reflexivity|]. cbn [blk_id blk_file_num]. by rewrite as_i32_small by lia.
Qed.

(** *** The loop of the connection: [handle_read_jobs], tick after tick *)

(** A job that transfers without asking for confirmations. *)
Definition plain_job (base : string) (j : TransferJob) : Prop :=
  data_source j = FilePath base /\ enable_overwrite_detection j = false /\
  is_last_job j = false /\ file_skipped j = false.

Definition next_file (j j' : TransferJob) : Prop :=
  file_num j' = file_num j + 1 /\ data_stream j' = None /\ id j' = id j /\
  files j' = files j.

Fixpoint ticks (n : nat) (s : list TransferJob * Env) : list TransferJob * Env :=
  match n with
  | O => s
  | S n => ticks n (snd (handle_read_jobs short (fst s) (snd s)))
  end.

Lemma ticks_add n m s : ticks (n + m) s = ticks m (ticks n s).
Proof. revert s. induction n as [|n IH]; intros s; [done|]. apply IH. Qed.

(** What the peer has been sent. *)
Definition sending (e : Env) (ms : list Message) : Env :=
  mkEnv (fs e) (mkNet (sent (net e) ++ ms) (broken (net e))).

Lemma sending_sending e a b : sending (sending e a) b = sending e (a ++ b).
Proof. unfold sending. cbn. by rewrite app_assoc. Qed.

Lemma send_env_ok m e : broken (net e) = false -> send_env m e = (Ok tt, sending e [m]).
Proof. intros Hb. unfold send_env, sending. by rewrite Hb. Qed.

Lemma init_reading base j e i p :
  plain_job base j -> reading j i p -> init_data_stream (j, e) = (Ok tt, (j, e)).
Proof.
  intros (Hd & Ho & _) (_ & _ & [entry He] & _ & Hs).
  unfold init_data_stream, open_data_stream, mbind, st_mbind, st_bind, get_job, fst.
  rewrite Hd, He, Hs. cbn. unfold wants_digest. rewrite Ho. by destruct (ty j).
Qed.

Lemma init_jobs_one j e j' e' :
  is_last_job j = false -> init_data_stream (j, e) = (Ok tt, (j', e')) ->
  init_jobs [j] e = (Ok tt, ([j'], e')).
Proof. intros Hl Hi. cbn. by rewrite Hl, Hi. Qed.

(** One tick of a job that is reading sends one block. *)
Lemma tick_reading base j e i p n :
  plain_job base j -> reading j i p -> 0 <= p -> inodes (fs e) !! i = Some n ->
  broken (net e) = false ->
  let chunk := take BUF_SIZE (drop (Z.to_nat p) (content n)) in
  exists b j', ticks 1 ([j], e) = ([j'], sending e [MsgBlock b]) /\
    blk_id b = id j /\ blk_file_num b = file_num j /\ plain_job base j' /\
    ((chunk = [] /\ blk_data b = [] /\ blk_compressed b = false /\ next_file j j') \/
     (chunk <> [] /\ decoded b = chunk /\ reading j' i (p + len chunk) /\
      id j' = id j /\ file_num j' = file_num j /\ files j' = files j)).
Proof.
  intros Hj Hr Hp Hi Hb chunk. cbn [ticks fst snd]. unfold handle_read_jobs.
  pose proof Hj as (Hd & Ho & Hl & Hk).
  rewrite (init_jobs_one j e j e) by (done || by eapply init_reading).
  cbn [step_jobs]. rewrite Hl. unfold step_job.
  pose proof Hr as (Hm & Hf & He & Hn & Hs).
  destruct (read_spec j e i p n Hr Hp Hi) as [[Hc ->]|(Hc & b & -> & Hbi & Hbn & Hdec)].
  - rewrite send_env_ok by done. eexists _, _. split; [done|]. cbn.
    split_and!; [done..|]. left. split_and!; [done..|].
    split_and!; [|done..]. apply as_i32_small. lia.
  - rewrite send_env_ok by done. eexists b, _. split; [done|].
    split_and!; [done..|]. right. by split_and!.
Qed.

Lemma may_read_plain base j : plain_job base j -> may_read j.
Proof. intros (_ & Ho & _). unfold may_read. rewrite Ho. by destruct (ty j). Qed.

(** The blocks of one file: its bytes in order, then an empty block. *)
Lemma ticks_file base rest : forall j e i p n,
  rest = drop (Z.to_nat p) (content n) ->
  plain_job base j -> reading j i p -> 0 <= p -> inodes (fs e) !! i = Some n ->
  broken (net e) = false ->
  exists k bs j', ticks k ([j], e) = ([j'], sending e (MsgBlock <$> bs)) /\
    concat (decoded <$> bs) = rest /\
    Forall (fun b => blk_id b = id j /\ blk_file_num b = file_num j) bs /\
    plain_job base j' /\ next_file j j'.
Proof.
  induction rest as [rest IH] using (well_founded_induction
    (well_founded_ltof _ (@length byte))).
  intros j e i p n Hrest Hj Hr Hp Hi Hb.
  destruct (tick_reading base j e i p n Hj Hr Hp Hi Hb)
    as (b & j1 & Ht & Hbi & Hbn & Hj1 & [(Hc & Hd & Hz & Hnx)|(Hc & Hd & Hr1 & E1 & E2 & E3)]).
  - exists 1%nat, [b], j1. split_and!; [done| |by repeat constructor|done|done].
    rewrite <- Hrest in Hc. cbn. unfold decoded. rewrite Hz, Hd.
    pose proof BUF_SIZE_pos. by destruct rest, BUF_SIZE; [| |lia|].
  - set (chunk := take BUF_SIZE (drop (Z.to_nat p) (content n))) in *.
    assert (Hl : chunk ++ drop (Z.to_nat (p + len chunk)) (content n) = rest).
    { rewrite Z2Nat.inj_add by (auto with rust). rewrite <- drop_drop, <- Hrest.
      unfold len. rewrite Nat2Z.id. unfold chunk. rewrite <- Hrest.
      rewrite length_take, Nat.min_comm. destruct (decide (BUF_SIZE <= length rest)%nat).
      - rewrite Nat.min_r by lia. apply take_drop.
      - rewrite Nat.min_l by lia. by rewrite take_ge, drop_all, app_nil_r by lia. }
    destruct (IH (drop (Z.to_nat (p + len chunk)) (content n))) with
      (j := j1) (e := sending e [MsgBlock b]) (i := i) (p := p + len chunk) (n := n)
      as (k & bs & j2 & Hk & Hcc & Hf & Hj2 & Hnx); try done.
    { unfold ltof. rewrite <- Hl, length_app. destruct chunk; [done|]. cbn. lia. }
    { pose proof (len_nonneg chunk). lia. }
    exists (1 + k)%nat, (b :: bs), j2. split_and!.
    + rewrite ticks_add, Ht, Hk. by rewrite sending_sending.
    + cbn. rewrite Hd, Hcc. done.
    + constructor; [done|]. by rewrite E1, E2 in Hf.
    + done.
    + unfold next_file in *. by rewrite E1, E2, E3 in Hnx.
Qed.

(** The content a path of the sender denotes. *)
Definition source_ok (f : Fs) (base : string) (entry : FileEntry) (c : list byte) : Prop :=
  exists i n, entry_at f (key (join base (name entry))) = Some (EFile i) /\
    inodes f !! i = Some n /\ content n = c.

Definition opened (h : File) (j : TransferJob) : TransferJob :=
  with_file_is_waiting false
    (with_file_confirmed false (with_data_stream (Some (FileStream h)) j)).

Lemma entry_of_spec j k entry :
  files j !! k = Some entry -> len (files j) < 2 ^ 31 ->
  entry_of j (as_usize (Z.of_nat k)) = Some entry.
Proof.
  intros Hk Hl. pose proof (lookup_lt_Some _ _ _ Hk) as Hlt. unfold len in *.
  unfold entry_of, as_usize. rewrite wrap_small by lia. unfold len.
  destruct (Z.ltb_spec (Z.of_nat k) (Z.of_nat (length (files j)))); [|lia].
  by rewrite Nat2Z.id.
Qed.

(** A job between two files opens the next one within the same tick. *)
Lemma ticks_open base j e k entry i :
  plain_job base j -> data_stream j = None -> entry_of j (as_usize (file_num j)) = Some entry ->
  entry_at (fs e) (key (join base (name entry))) = Some (EFile i) ->
  0 <= file_num j < 2 ^ 31 - 1 ->
  let j1 := opened (mkFile i 0) j in
  ticks (S k) ([j], e) = ticks (S k) ([j1], e) /\ plain_job base j1 /\ reading j1 i 0.
Proof.
  intros Hj Hs He Ha Hn j1. pose proof Hj as (Hd & Ho & Hl & Hk).
  assert (Hj1 : plain_job base j1) by by split_and!.
  assert (Hr1 : reading j1 i 0).
  { split_and!; [by eapply may_read_plain|unfold is_file_path, j1; cbn; by rewrite Hd
                |by eexists|apply Hn|apply Hn|done]. }
  split; [|by split]. cbn [ticks fst snd]. unfold handle_read_jobs.
  rewrite (init_jobs_one j1 e j1 e) by (done || by eapply init_reading).
  rewrite (init_jobs_one j e j1 e); [done..|].
  unfold init_data_stream, open_data_stream, mbind, st_mbind, st_bind, get_job, fst.
  rewrite Hd, He, Hs. unfold st_try, lift_io, open_read. rewrite Ha.
  destruct e as [f nt]. cbn. unfold wants_digest. cbn. rewrite Ho. by destruct (ty j).
Qed.

(** The last tick: nothing is left to read. *)
Lemma tick_done base j e :
  plain_job base j -> data_stream j = None -> entry_of j (as_usize (file_num j)) = None ->
  broken (net e) = false ->
  ticks 1 ([j], e) = ([], sending e [MsgDone (id j) (file_num j)]).
Proof.
  intros Hj Hs He Hb. pose proof Hj as (Hd & Ho & Hl & Hk). cbn [ticks fst snd].
  unfold handle_read_jobs. rewrite (init_jobs_one j e j e); [|done|].
  - cbn [step_jobs]. rewrite Hl. unfold step_job, read.
    unfold mbind, st_mbind, st_bind, get_job, fst. rewrite Ho. unfold current_name.
    rewrite Hd, He. destruct e as [f nt].
    replace (match ty j with Generic => false && negb (file_confirmed j) | Printer => false end)
      with false by (by destruct (ty j)).
    cbn -[send_env]. unfold job_completed, job_error, job_skipped. cbn -[send_env].
    rewrite Ho, Hk. cbn -[send_env]. rewrite send_env_ok by done. cbn. by rewrite Z.eqb_refl.
  - unfold init_data_stream, open_data_stream, mbind, st_mbind, st_bind, get_job, fst.
    rewrite Hd, He. destruct e. cbn. do 3 f_equal. destruct j. cbn in *. by subst.
Qed.

Definition blocks_of (id_ : Z) (k : nat) (c : list byte) (bs : list FileTransferBlock) : Prop :=
  concat (decoded <$> bs) = c /\
  Forall (fun b => blk_id b = id_ /\ blk_file_num b = Z.of_nat k) bs.

Lemma ticks_files base cs : forall k j e,
  plain_job base j -> data_stream j = None -> file_num j = Z.of_nat k ->
  (k <= length (files j))%nat -> len (files j) < 2 ^ 31 -> broken (net e) = false ->
  Forall2 (source_ok (fs e) base) (drop k (files j)) cs ->
  exists n groups,
    ticks n ([j], e) = ([], sending e ((MsgBlock <$> concat groups) ++
                                       [MsgDone (id j) (Z.of_nat (k + length cs))])) /\
    length groups = length cs /\
    forall m bs c, groups !! m = Some bs -> cs !! m = Some c -> blocks_of (id j) (k + m) c bs.
Proof.
  induction cs as [|c cs IH]; intros k j e Hj Hs Hk Hkl Hl Hb Hf.
  - apply Forall2_nil_inv_r in Hf. exists 1%nat, []. split_and!; [|done|done].
    cbn [concat fmap list_fmap length]. rewrite Nat.add_0_r, <- Hk.
    apply (tick_done base); [done..| |done]. unfold entry_of, as_usize. rewrite Hk.
    unfold len in *. rewrite wrap_small by lia.
    pose proof (length_drop (files j) k) as Hd. rewrite Hf in Hd. cbn in Hd.
    destruct (Z.ltb_spec (Z.of_nat k) (Z.of_nat (length (files j)))); [lia|done].
  - apply Forall2_cons_inv_r in Hf as (entry & tl & (i & nd & Ha & Hi & Hc) & Hf & Hd).
    assert (Hlk : files j !! k = Some entry).
    { rewrite <- (Nat.add_0_r k), <- lookup_drop, Hd. done. }
    assert (He : entry_of j (as_usize (file_num j)) = Some entry).
    { rewrite Hk. by apply entry_of_spec. }
    pose proof (lookup_lt_Some _ _ _ Hlk) as Hlt.
    assert (Hr : 0 <= file_num j < 2 ^ 31 - 1) by (unfold len in *; lia).
    destruct (ticks_open base j e 0 entry i Hj Hs He Ha Hr) as (_ & Hj1 & Hr1).
    set (j1 := opened (mkFile i 0) j) in *.
    destruct (ticks_file base (content nd) j1 e i 0 nd) as
      (n1 & bs & j2 & Ht1 & Hcat & Hall & Hj2 & (Hn & Hs2 & Hid & Hfl)); [done..|].
    assert (Ht1' : exists m, n1 = S m).
    { destruct n1 as [|n1]; [|by eexists]. cbn in Ht1. by injection Ht1 as <- _. }
    destruct Ht1' as [m ->].
    destruct (ticks_open base j e m entry i Hj Hs He Ha Hr) as (Ht0 & _).
    destruct (IH (S k) j2 (sending e (MsgBlock <$> bs))) as (n2 & groups & Ht2 & Hgl & Hg);
      [done|done| | | |done| |].
    { rewrite Hn. cbn. lia. }
    { by rewrite Hfl. }
    { by rewrite Hfl. }
    { rewrite Hfl. cbn. replace (S k) with (k + 1)%nat by lia.
      by rewrite <- drop_drop, Hd. }
    exists (S m + n2)%nat, (bs :: groups). split_and!.
    + rewrite ticks_add, Ht0. fold j1. rewrite Ht1, Ht2, sending_sending, Hid. cbn [concat length].
      rewrite fmap_app, <- app_assoc. do 6 f_equal. lia.
    + cbn. by rewrite Hgl.
    + intros [|x] bs' c' Hb' Hc'; cbn in Hb', Hc'; simplify_eq.
      * rewrite Nat.add_0_r. split; [done|]. by rewrite <- Hk.
      * specialize (Hg x _ _ Hb' Hc'). rewrite Hid in Hg.
        by replace (k + S x)%nat with (S k + x)%nat by lia.
Qed.


(** ** The receiver *)

(** The job is downloading file [k] through a handle at the end of inode [i]. *)
Definition downloading (base : string) (j : TransferJob) (k : nat) (i : nat) (e : Env)
    (c : list byte) : Prop :=
  data_source j = FilePath base /\ file_num j = Z.of_nat k /\
  is_Some (entry_of j (as_usize (Z.of_nat k))) /\
  data_stream j = Some (FileStream (mkFile i (len c))) /\
  content <$> (inodes (fs e) !! i) = Some c.

Lemma overwrite_end c d : overwrite c (len c) d = c ++ d.
Proof.
  unfold overwrite, len. rewrite Nat2Z.id, Nat.sub_diag. cbn [replicate].
  rewrite app_nil_r, take_ge, drop_ge, app_nil_r by lia. done.
Qed.

(** What one more block of the current file leaves alone. *)
Definition same_job (j j' : TransferJob) : Prop :=
  id j' = id j /\ ty j' = ty j /\ files j' = files j.

Definition same_tree (f f' : Fs) : Prop :=
  entries f' = entries f /\ denied f' = denied f /\ next_ino f' = next_ino f.

Lemma stream_write_file h data j e n :
  data_stream j = Some (FileStream h) -> inodes (fs e) !! ino h = Some n ->
  stream_write_all data (j, e) =
    (Ok tt, (with_data_stream (Some (FileStream (mkFile (ino h) (pos h + len data)))) j,
             mkEnv (set_inodes
               <[ino h := mkInode (overwrite (content n) (pos h) data) (clock (fs e))]> (fs e))
               (net e))).
Proof.
  intros Hs Hi. unfold stream_write_all, mbind, st_mbind, st_bind, get_job, lift_io, write_file.
  cbn [fst]. rewrite Hs, Hi. done.
Qed.

Lemma write_next base j k i e c b :
  downloading base j k i e c -> blk_id b = id j -> blk_file_num b = Z.of_nat k ->
  exists j' e', write digest_to_json b (j, e) = (Ok tt, (j', e')) /\
    downloading base j' k i e' (c ++ decoded b) /\ same_job j j' /\ same_tree (fs e) (fs e') /\
    forall n, n <> i -> inodes (fs e') !! n = inodes (fs e) !! n.
Proof.
  intros (Hd & Hn & [entry He] & Hs & Hc) Hb Hk.
  unfold write, write_open, mbind, st_mbind, st_bind, get_job.
  cbn [fst]. rewrite Hb, Z.eqb_refl, Hd, Hk. cbn [negb]. cbv zeta. cbn [fst].
  rewrite He, Hs, Hn, Z.eqb_refl. cbn [negb orb].
  destruct (inodes (fs e) !! i) as [nd|] eqn:Ei; [|done]. cbn in Hc. injection Hc as Hc.
  set (e1 := mkEnv (set_inodes <[i := mkInode (c ++ decoded b) (clock (fs e))]> (fs e)) (net e)).
  unfold mret, st_mret, st_ret, decoded in *.
  destruct (blk_compressed b);
    rewrite (stream_write_file (mkFile i (len c)) _ j e nd) by done; cbn [ino pos];
    rewrite Hc, overwrite_end; (eexists _, e1; split; [reflexivity|]; split;
      [|split_and!; [done..|intros m Hm; cbn; by rewrite lookup_insert_ne]];
    split_and!; [done|done|by eexists|cbn; by rewrite len_app|cbn; by rewrite lookup_insert_eq]).
Qed.

Fixpoint writes (bs : list FileTransferBlock) : JobM unit :=
  match bs with
  | [] => mret tt
  | b :: bs => _ ← write digest_to_json b; writes bs
  end.

Lemma writes_next base k i bs : forall j e c,
  downloading base j k i e c ->
  Forall (fun b => blk_id b = id j /\ blk_file_num b = Z.of_nat k) bs ->
  exists j' e', writes bs (j, e) = (Ok tt, (j', e')) /\
    downloading base j' k i e' (c ++ concat (decoded <$> bs)) /\
    same_job j j' /\ same_tree (fs e) (fs e') /\
    forall n, n <> i -> inodes (fs e') !! n = inodes (fs e) !! n.
Proof.
  induction bs as [|b bs IH]; intros j e c Hj Hb.
  { exists j, e. cbn. rewrite app_nil_r. by split_and!. }
  apply Forall_cons in Hb as [[Hb1 Hb2] Hb].
  destruct (write_next _ _ _ _ _ _ b Hj Hb1 Hb2) as (j1 & e1 & Hw & Hj1 & (E1 & E2 & E3) & (E4 & E5 & E6) & E7).
  destruct (IH j1 e1 _ Hj1) as (j2 & e2 & Hw2 & Hj2 & (F1 & F2 & F3) & (F4 & F5 & F6) & F7).
  { by rewrite E1. }
  exists j2, e2. cbn [writes]. unfold mbind, st_mbind, st_bind. rewrite Hw.
  rewrite <- app_assoc in Hj2. split; [done|]. split; [done|].
  unfold same_job, same_tree. split_and!; [congruence..|].
  intros n Hn. by rewrite F7, E7.
Qed.
End Content.
