(* ===== verification/TransferReceive.v ===== *)
(** * A received file is the file that was sent

    The first block of a file opens [name.download] empty and leaves a digest
    beside it; the following blocks append to it ({!TransferContent}); when the
    next file begins, or the job ends, [modify_time] moves the download over the
    target.  Together: the target holds the data of the blocks, in order.  The
    end of the file shows what the code does off this path. *)

From S2P Require Import Prelude OsFs Compress PathFacts FileTransfer TransferSafety TransferContent.
From Stdlib Require Import Ascii.

(** ** The three names of a file *)

(** The last segment of the name is a name (not empty, not [.]). *)
Definition proper_name (nm : string) : Prop :=
  exists init s, split_on SLASH nm = init ++ [s] /\ seg_key s = Some s.

Lemma length_app_string s t : String.length (s +:+ t) = (String.length s + String.length t)%nat.
Proof. induction s as [|a s IH]; [done|]. exact (f_equal S IH). Qed.

Lemma app_string_inj s a b : s +:+ a = s +:+ b -> a = b.
Proof. induction s as [|c s IH]; [done|]. rewrite !app_cons_string. intros [=]. auto. Qed.

Lemma seg_key_some s t : seg_key s = Some t -> t = s /\ s <> "" /\ s <> ".".
Proof.
  unfold seg_key. destruct (String.eqb_spec s ""), (String.eqb_spec s "."); try done.
  by intros [= ->].
Qed.

Lemma seg_key_suffix s x : seg_key s = Some s -> x <> "" -> seg_key (s +:+ x) = Some (s +:+ x).
Proof.
  intros H Hx. apply seg_key_some in H as (_ & Hs & _). unfold seg_key.
  destruct s as [|a s]; [done|]. rewrite app_cons_string.
  destruct (String.eqb_spec (String a (s +:+ x)) "."); [|done]. exfalso. injection e as _ e.
  destruct s; [by destruct x|done].
Qed.

Lemma target_keys base nm :
  nm <> "" -> starts_with_char SLASH nm = false -> proper_name nm ->
  exists d s, key (join base nm) = d ++ [s] /\
    key (download_path (join base nm)) = d ++ [s +:+ ".download"] /\
    key (digest_path (join base nm)) = d ++ [s +:+ ".digest"].
Proof.
  intros Hne Hrel (init & s & Hs & Hk). unfold download_path, digest_path, join.
  destruct (String.eqb_spec nm ""); [done|].
  assert (Hr : forall x, starts_with_char SLASH (nm +:+ x) = false) by by destruct nm.
  exists (key base ++ root_key nm ++ omap seg_key init), s.
  rewrite !path_join_app, !key_path_join by done.
  assert (Hx : forall x, x <> "" -> has_slash x = false ->
    key (nm +:+ x) = (root_key nm ++ omap seg_key init) ++ [s +:+ x]).
  { intros x Hx Hsl. rewrite key_segments, root_key_suffix by done.
    destruct (split_on_suffix nm x Hsl) as (i & t & H1 & H2).
    rewrite Hs in H1. apply app_inj_tail in H1 as [<- <-].
    rewrite H2, omap_app, app_assoc. f_equal. cbn. by rewrite seg_key_suffix. }
  rewrite !Hx by done. rewrite !app_assoc. split_and!; [|done..].
  rewrite (key_segments nm), Hs, omap_app. cbn. by rewrite Hk, !app_assoc.
Qed.

Lemma suffix_ne (s x : string) : x <> "" -> s <> s +:+ x.
Proof.
  intros Hx H. apply (f_equal String.length) in H. rewrite length_app_string in H.
  destruct x; [done|]. cbn in H. lia.
Qed.

(** The target, the download and the digest are three different entries. *)
Lemma target_keys_distinct base nm :
  nm <> "" -> starts_with_char SLASH nm = false -> proper_name nm ->
  let p := join base nm in
  key p <> key (download_path p) /\ key p <> key (digest_path p) /\
  key (download_path p) <> key (digest_path p) /\ key nm <> [].
Proof.
  intros Hne Hrel Hp. cbv zeta.
  destruct (target_keys base nm Hne Hrel Hp) as (d & s & -> & -> & ->).
  assert (Hd : forall a b, a <> b -> d ++ [a] <> d ++ [b]).
  { intros a b Hab H. by apply app_inj_2 in H as [_ [= H]]. }
  split_and!; try (apply Hd); [by apply suffix_ne|by apply suffix_ne| |].
  - intros H. by apply app_string_inj in H.
  - destruct Hp as (i & t & Hs & Hk). rewrite key_segments, Hs, omap_app. cbn. rewrite Hk.
    intros H. apply app_eq_nil in H as [_ H]. by apply app_eq_nil in H as [_ H].
Qed.

(** ** Validating again *)

(** A name that was accepted still is, when no path became forbidden and no link
    appeared below the job's directory. *)
Lemma check_components_again (base : string) f f' cs : forall cur,
  below base (key cur) -> (forall s, Normal s ∈ cs -> seg_ok s) ->
  no_links base f' -> denied f' = denied f ->
  check_components f cur cs = Ok tt -> check_components f' cur cs = Ok tt.
Proof.
  induction cs as [|c cs IH]; intros cur Hb Hok Hl Hd Hc; [done|].
  assert (Hok' : forall s, Normal s ∈ cs -> seg_ok s) by (intros s Hs; apply Hok; by right).
  destruct c as [| | |seg]; cbn in Hc |- *; [done|by apply IH|done|].
  assert (Hseg : seg_ok seg) by (apply Hok; by left).
  assert (Hkey : key (path_join cur seg) = key cur ++ [seg]).
  { rewrite key_path_join, (key_seg seg); [done..|by apply seg_ok_relative]. }
  assert (Hb' : below base (key (path_join cur seg))).
  { rewrite Hkey. by apply prefix_app_r. }
  unfold symlink_metadata in *. rewrite Hd.
  destruct (decide (key (path_join cur seg) ∈ denied f)); [done|].
  assert (Hc' : check_components f (path_join cur seg) cs = Ok tt) by by repeat case_match.
  specialize (IH _ Hb' Hok' Hl Hd Hc').
  destruct (entries f' !! key (path_join cur seg)) as [[]|] eqn:E; try done.
  exfalso. apply (Hl _ Hb'). rewrite E. by eexists.
Qed.

Lemma join_validated_again (base : string) f f' nm :
  nm <> "" -> no_links base f' -> denied f' = denied f ->
  join_validated_path f base nm = Ok (join base nm) ->
  join_validated_path f' base nm = Ok (join base nm).
Proof.
  intros Hne Hl Hd. unfold join_validated_path.
  destruct (validate_file_name_no_traversal nm); [|done]. cbn.
  unfold validate_no_symlink_components. destruct (String.eqb_spec nm ""); [done|].
  destruct (check_components f base (components nm)) as [[]|] eqn:E; [|done]. intros _.
  rewrite (check_components_again base f f'); [done| |..]; try done; [by unfold below|].
  intros s Hs. by apply components_normal in Hs as [? _].
Qed.

(** The last component that was accepted is not forbidden. *)
Lemma check_components_not_denied f cs : forall cur,
  (forall s, Normal s ∈ cs -> seg_ok s) -> check_components f cur cs = Ok tt ->
  forall pre, pre <> [] -> pre `prefix_of` omap comp_key cs -> key cur ++ pre ∉ denied f.
Proof.
  induction cs as [|c cs IH]; intros cur Hok Hc pre Hne Hpre.
  { destruct Hpre as [k Hk]. by destruct pre. }
  assert (Hok' : forall s, Normal s ∈ cs -> seg_ok s) by (intros s Hs; apply Hok; by right).
  destruct c as [| | |seg]; cbn in Hc; [done| |done|].
  - cbn in Hpre. by apply (IH cur).
  - assert (Hseg : seg_ok seg) by (apply Hok; by left).
    cbn in Hpre. destruct pre as [|s pre]; [done|]. destruct Hpre as [k [= <- Hk]].
    assert (Hkey : key (path_join cur seg) = key cur ++ [seg]).
    { rewrite key_path_join, (key_seg seg); [done..|by apply seg_ok_relative]. }
    unfold symlink_metadata in Hc. rewrite Hkey in Hc.
    destruct (decide (key cur ++ [seg] ∈ denied f)); [done|].
    assert (Hc' : check_components f (path_join cur seg) cs = Ok tt) by by repeat case_match.
    destruct pre as [|s' pre]; [done|].
    specialize (IH (path_join cur seg) Hok' Hc' (s' :: pre)).
    rewrite Hkey, <- app_assoc in IH. apply IH; [done|]. by exists k.
Qed.

Lemma accepted_not_denied f (base : string) nm p :
  join_validated_path f base nm = Ok p -> nm <> "" -> key nm <> [] -> key p ∉ denied f.
Proof.
  intros H Hne Hk. pose proof (join_validated_inv _ _ _ _ H) as [-> Hrel].
  unfold join_validated_path in H.
  destruct (validate_file_name_no_traversal nm) as [[]|]; [|done]. cbn in H.
  unfold validate_no_symlink_components in H. destruct (String.eqb_spec nm ""); [done|].
  destruct (check_components f base (components nm)) as [[]|] eqn:E; [|done].
  unfold join. destruct (String.eqb_spec nm ""); [done|]. rewrite key_path_join by done.
  apply (check_components_not_denied f (components nm)); [|done..].
  intros s Hs. by apply components_normal in Hs as [? _].
Qed.

(** ** What the operations leave alone *)

Ltac io_cases := repeat case_match; simplify_eq; try done.

Lemma denied_open_write t p f : denied (exec (open_write t p) f) = denied f.
Proof. unfold exec, open_write. io_cases. Qed.

Lemma denied_write_file h d f : denied (exec (write_file h d) f) = denied f.
Proof. unfold exec, write_file. io_cases. Qed.

Lemma denied_remove p f : denied (exec (remove_file p) f) = denied f.
Proof. unfold exec, remove_file, remove_entry. io_cases. Qed.

Lemma denied_create_dirs ks : forall f, denied (exec (create_dirs ks) f) = denied f.
Proof.
  induction ks as [|k ks IH]; intros f; [done|]. unfold exec in *. cbn.
  repeat case_match; try done. by rewrite IH.
Qed.

Lemma denied_fs_write p d f : denied (exec (fs_write p d) f) = denied f.
Proof.
  unfold exec, fs_write, mbind, st_mbind, st_bind, create.
  pose proof (denied_open_write true p f) as H. unfold exec in H.
  destruct (open_write true p f) as [[h|] g]; cbn in *; [|done].
  pose proof (denied_write_file h d g) as H2. unfold exec in H2.
  destruct (write_file h d g) as [[h'|] g']; cbn in *; congruence.
Qed.

(** Writing a file next to an existing one. *)
Lemma fs_write_other (base : string) p d f k i :
  tidy base f -> below base (key p) -> k <> key p -> entries f !! k = Some (EFile i) ->
  entries f !! key p = None \/ key p ∈ denied f ->
  entries (exec (fs_write p d) f) !! k = Some (EFile i) /\
  inodes (exec (fs_write p d) f) !! i = inodes f !! i.
Proof.
  intros [Hl Ha] Hb Hk He Hp. unfold exec, fs_write, mbind, st_mbind, st_bind, create, open_write.
  rewrite (resolve_no_link f) by by apply Hl.
  destruct (decide (key p ∈ denied f)); [done|]. destruct Hp as [Hp|]; [|done]. rewrite Hp.
  destruct (dir_of_exists f (key p)); [|done]. unfold write_file. cbn.
  rewrite lookup_insert_eq. cbn. specialize (Ha _ _ He).
  rewrite !lookup_insert_ne by (lia || done). done.
Qed.

(** [File::create]: an empty file, and the digest's name is as it was. *)
Lemma create_spec (base : string) p f h f' :
  tidy base f -> below base (key p) -> create p f = (Ok h, f') ->
  pos h = 0 /\ entries f' !! key p = Some (EFile (ino h)) /\
  (forall n, inodes f' !! ino h = Some n -> content n = []) /\ key p ∉ denied f /\
  (forall k, k <> key p -> entries f' !! k = entries f !! k).
Proof.
  intros [Hl Ha] Hb. unfold create, open_write. rewrite (resolve_no_link f) by by apply Hl.
  destruct (decide (key p ∈ denied f)); [done|].
  destruct (entries f !! key p) as [[i| |]|] eqn:E; try done.
  - intros [= <- <-]. split_and!; [done|done| |done|done]. cbn. intros nd.
    rewrite lookup_alter, decide_True by done. intros Hn.
    apply fmap_Some in Hn as (? & _ & ->). done.
  - destruct (dir_of_exists f (key p)); [|done]. intros [= <- <-]. cbn.
    rewrite !lookup_insert_eq. split_and!; [done|done|by intros nd [= <-]|done|].
    intros k Hk. by rewrite lookup_insert_ne.
Qed.

(** Removing a file if it is there. *)
Lemma digest_removed (base : string) p f f' :
  tidy base f -> below base (key p) ->
  (if path_exists f p then remove_file p else mret tt) f = (Ok tt, f') ->
  (entries f' !! key p = None \/ key p ∈ denied f') /\
  (forall k, k <> key p -> entries f' !! k = entries f !! k) /\ inodes f' = inodes f.
Proof.
  intros [Hl Ha] Hb. unfold path_exists, entry_at. rewrite (resolve_no_link f) by by apply Hl.
  unfold remove_file, remove_entry, mret, st_mret, st_ret.
  destruct (decide (key p ∈ denied f)) as [|Hd]; [cbn; intros [= <-]; auto|].
  destruct (entries f !! key p) as [[i| |t]|] eqn:E; cbn; rewrite ?(decide_False _ _ Hd), ?E;
    try done; intros [= <-]; auto.
  - cbn. rewrite lookup_delete_eq. split_and!; [auto| |done].
    intros k Hk. by rewrite lookup_delete_ne.
  - exfalso. apply (Hl _ Hb). rewrite E. by eexists.
Qed.

Section Receive.
Context `{Zstd} (digest_to_json : FileDigest -> list byte).

(** *** The first block *)

Lemma denied_make_parent path f :
  denied (match parent_key (key path) with
          | Some pp => exec (create_dir_all pp) f
          | None => f
          end) = denied f.
Proof. destruct (parent_key (key path)); [apply denied_create_dirs|done]. Qed.

Lemma make_parent_safe (base : string) path f :
  below base (key path) ->
  safe_step base f (match parent_key (key path) with
                    | Some pp => exec (create_dir_all pp) f
                    | None => f
                    end).
Proof.
  intros Hb. destruct (parent_key (key path)) as [d|] eqn:E; [|apply safe_refl].
  apply (create_dir_all_safe _ (key path)); [done|by apply parent_prefix].
Qed.

Definition name_of (base : string) (entry : FileEntry) : string := join base (name entry).

Definition make_parent (path : string) (f : Fs) : Fs :=
  match parent_key (key path) with
  | Some pp => exec (create_dir_all pp) f
  | None => f
  end.

(** The steps of a first block that succeeds. *)
Lemma write_open_inv (base : string) j e k entry j' e' :
  dir_job base j -> data_stream j = None ->
  entry_of j (as_usize (Z.of_nat k)) = Some entry ->
  write_open digest_to_json base (Z.of_nat k) (j, e) = (Ok tt, (j', e')) ->
  exists f3 f4 h,
    let pth := name_of base entry in
    let f1 := modify_time j (fs e) in
    join_validated_path f1 base (name entry) = Ok pth /\
    (if path_exists (make_parent pth f1) (digest_path pth)
     then remove_file (digest_path pth) else mret tt) (make_parent pth f1) = (Ok tt, f3) /\
    create (download_path pth) f3 = (Ok h, f4) /\
    j' = with_data_stream (Some (FileStream h)) (with_file_num (Z.of_nat k) j) /\
    e' = mkEnv (exec (fs_write (digest_path pth) (digest_to_json (digest j))) f4) (net e).
Proof.
  intros (Hty & Hd & Hf). cbn [base_of] in Hd. intros Hs He. unfold write_open, mbind, st_mbind. intros Hw.
  apply st_bind_ok in Hw as (j0 & s0 & [= <- <-] & Hw). cbv zeta in Hw. cbn [fst] in Hw.
  rewrite He, Hs, orb_true_r, Hty in Hw.
  do 3 apply st_bind_ok in Hw as ([] & ? & [= <-] & Hw).
  apply st_bind_ok in Hw as (f1 & ? & [= <- <-] & Hw). cbn [fs snd] in Hw.
  apply st_bind_ok in Hw as ([p dp] & s5 & Hpath & Hw).
  apply st_bind_ok in Hpath as (path & s6 & Hv & Hpath). injection Hv as Hv <-.
  pose proof (join_validated_inv _ _ _ _ Hv) as [-> Hrel].
  apply st_bind_ok in Hpath as ([] & s7 & [= <-] & [= <- <- <-]). cbn [fs net] in Hw.
  fold (make_parent (name_of base entry) (modify_time j (fs e))) in Hw.
  fold (name_of base entry) in Hw. set (pth := name_of base entry) in *.
  apply st_bind_ok in Hw as (f2' & s8 & [= <- <-] & Hw). cbn [fs snd] in Hw.
  apply st_bind_ok in Hw as ([] & s9 & Hrm & Hw).
  assert (Hrm' : exists f3, (if path_exists (make_parent pth (modify_time j (fs e))) (digest_path pth)
      then remove_file (digest_path pth) else mret tt) (make_parent pth (modify_time j (fs e)))
      = (Ok tt, f3) /\ s9 = (with_file_num (Z.of_nat k) j, mkEnv f3 (net e))).
  { destruct (path_exists _ _); [|injection Hrm as <-; eauto].
    unfold lift_io in Hrm. cbn [fs net] in Hrm.
    destruct (remove_file _ _) as [[[]|] f3]; [|done]. injection Hrm as <-. eauto. }
  destruct Hrm' as (f3 & Hrm3 & ->). clear Hrm.
  apply st_bind_ok in Hw as (h & s10 & Hc & Hw). unfold lift_io in Hc. cbn [fs net] in Hc.
  destruct (create (download_path pth) f3) as [[h'|] f4] eqn:Ec; [|done].
  injection Hc as -> <-. exists f3, f4, h.
  apply st_bind_ok in Hw as ([] & s11 & [= <-] & [= <- <-]). by split_and!.
Qed.

Lemma denied_if_remove p f f' :
  (if path_exists f p then remove_file p else mret tt) f = (Ok tt, f') -> denied f' = denied f.
Proof.
  destruct (path_exists f p); [|by intros [= <-]]. intros H1.
  pose proof (denied_remove p f) as H2. unfold exec in H2. by rewrite H1 in H2.
Qed.

Lemma write_open_first (base : string) j e k entry j' e' :
  dir_job base j -> tidy base (fs e) -> data_stream j = None ->
  entry_of j (as_usize (Z.of_nat k)) = Some entry -> proper_name (name entry) ->
  write_open digest_to_json base (Z.of_nat k) (j, e) = (Ok tt, (j', e')) ->
  let pth := name_of base entry in
  tidy base (fs e') /\ join_validated_path (fs e') base (name entry) = Ok pth /\
  key (download_path pth) ∉ denied (fs e') /\
  exists h, pos h = 0 /\
    j' = with_data_stream (Some (FileStream h)) (with_file_num (Z.of_nat k) j) /\
    entries (fs e') !! key (download_path pth) = Some (EFile (ino h)) /\
    forall n, inodes (fs e') !! ino h = Some n -> content n = [].
Proof.
  intros Hj Ht Hs He Hp Hw. cbv zeta.
  destruct (write_open_safe digest_to_json base (Z.of_nat k) _ _ _ _ _ Hj Hw) as (_ & Hsafe & _).
  destruct (Hsafe Ht) as [Ht' _].
  destruct (write_open_inv _ _ _ _ _ _ _ Hj Hs He Hw) as (f3 & f4 & h & Hv & Hrm & Hc & -> & ->).
  cbn [fs] in *. set (pth := name_of base entry) in *. set (f1 := modify_time j (fs e)) in *.
  pose proof (entry_of_name _ _ _ _ Hj He) as Hne.
  pose proof (join_validated_inv _ _ _ _ Hv) as [_ Hrel].
  destruct (target_keys_distinct base (name entry) Hne Hrel Hp) as (_ & _ & Hne' & _).
  change (join base (name entry)) with pth in Hne'.
  assert (Hb0 : below base (key pth)) by by apply (join_below_self base).
  assert (Hbd : below base (key (download_path pth))) by by apply (download_below base).
  assert (Hbg : below base (key (digest_path pth))) by by apply (digest_below base).
  destruct (modify_time_safe base j (fs e) Hj Ht) as [Ht1 _]. fold f1 in Ht1.
  destruct (make_parent_safe base pth f1 Hb0 Ht1) as [Ht2 _]. change (tidy base (make_parent pth f1)) in Ht2.
  destruct (digest_removed base _ _ _ Ht2 Hbg Hrm) as (Hg3 & Ho3 & Hi3).
  assert (Ht3 : tidy base f3).
  { destruct (path_exists _ _); [|by injection Hrm as <-].
    pose proof (remove_file_safe base (digest_path pth) (make_parent pth f1) Hbg Ht2) as [Hx _].
    unfold exec in Hx. by rewrite Hrm in Hx. }
  destruct (create_spec base _ _ _ _ Ht3 Hbd Hc) as (Hpos & He4 & Hi4 & Hd4 & Ho4).
  pose proof (open_write_safe base true (download_path pth) f3 Hbd Ht3) as [Ht4 _].
  pose proof (denied_open_write true (download_path pth) f3) as D4.
  unfold exec in Ht4, D4. unfold create in Hc. rewrite Hc in Ht4, D4. cbn in Ht4, D4.
  assert (Hg4 : entries f4 !! key (digest_path pth) = None \/ key (digest_path pth) ∈ denied f4).
  { rewrite Ho4, D4 by done. done. }
  destruct (fs_write_other base (digest_path pth) (digest_to_json (digest j)) f4
    (key (download_path pth)) (ino h)) as [He5 Hi5]; try done.
  assert (D3 : denied f3 = denied f1).
  { rewrite (denied_if_remove _ _ _ Hrm). apply denied_make_parent. }
  assert (D5 : denied (exec (fs_write (digest_path pth) (digest_to_json (digest j))) f4) = denied f1).
  { by rewrite denied_fs_write, D4. }
  split; [done|]. split; [|split].
  - eapply join_validated_again; [done|apply Ht'|exact D5|exact Hv].
  - by rewrite D5, <- D3.
  - exists h. split_and!; [done|done|done|]. intros nd. rewrite Hi5. apply Hi4.
Qed.

(** *** The last step: [modify_time] moves the download into place *)

Lemma follow_delete (base : string) f f' dk fuel : forall k r,
  no_links base f -> below base dk -> entries f' = delete dk (entries f) ->
  entries f !! dk <> Some EDir ->
  follow fuel f k = Some r -> entries f !! r = Some EDir ->
  follow fuel f' k = Some r /\ entries f' !! r = Some EDir.
Proof.
  induction fuel as [|fuel IH]; intros k r Hl Hb He Hd; cbn [follow]; rewrite He;
    (destruct (decide (k = dk)) as [->|Hk];
     [rewrite lookup_delete_eq; destruct (entries f !! dk) as [[]|] eqn:E; try congruence;
      exfalso; apply (Hl dk Hb); rewrite E; by eexists
     |rewrite lookup_delete_ne by done]);
    destruct (entries f !! k) as [[i| |t]|] eqn:E; intros Hf Hr; simplify_eq; try congruence;
    try (split; [done|]; by rewrite lookup_delete_ne).
  rewrite <- He. by apply IH.
Qed.

Lemma remove_file_keeps (base : string) p f :
  tidy base f -> below base (key p) ->
  let f' := exec (remove_file p) f in
  inodes f' = inodes f /\ denied f' = denied f /\
  (forall k, k <> key p -> entries f' !! k = entries f !! k) /\
  (forall k, dir_of_exists f k = true -> dir_of_exists f' k = true).
Proof.
  intros [Hl Ha] Hb. cbv zeta. split_and!; [|apply denied_remove| |];
    unfold exec, remove_file, remove_entry; destruct (decide (key p ∈ denied f)) as [|Hnd]; try done;
    destruct (entries f !! key p) as [[]|] eqn:E; cbn [snd]; try done;
    try (intros k Hk; cbn; by rewrite lookup_delete_ne).
  all: intros k; unfold dir_of_exists; destruct (parent_key k) as [d|]; [|done];
    destruct d as [|x d]; [done|]; unfold entry_at.
  all: destruct (resolve f (x :: d)) as [r|] eqn:Er; [|done]; cbn [denied set_entries];
    destruct (decide (r ∈ denied f)) as [|Hr]; [done|];
    destruct (entries f !! r) as [[]|] eqn:E2; try done; intros _.
  all: destruct (follow_delete base f (set_entries (delete (key p)) f) (key p) 40 (x :: d) r)
    as [F1 F2]; try done; try congruence;
    unfold resolve; rewrite F1; cbn [denied set_entries]; rewrite (decide_False _ _ Hr), F2; done.
Qed.

Lemma modify_time_moves (base : string) j f k entry i n :
  dir_job base j -> tidy base f -> file_num j = Z.of_nat k ->
  entry_of j (as_usize (Z.of_nat k)) = Some entry -> proper_name (name entry) ->
  let pth := name_of base entry in
  join_validated_path f base (name entry) = Ok pth ->
  key (download_path pth) ∉ denied f ->
  entries f !! key (download_path pth) = Some (EFile i) -> inodes f !! i = Some n ->
  entries f !! key pth <> Some EDir -> dir_of_exists f (key pth) = true ->
  let f' := modify_time j f in
  entries f' !! key pth = Some (EFile i) /\
  inodes f' !! i = Some (mkInode (content n) (modified_time entry)) /\
  entries f' !! key (download_path pth) = None.
Proof.
  intros Hj Ht Hn He Hp. cbv zeta. intros Hv Hdd Hdl Hi Hdir Hpar. unfold modify_time.
  pose proof Hj as (Hty & Hd & Hf). cbn [base_of] in Hd. rewrite Hty, Hd, Hn, He. unfold resolve_entry_path.
  rewrite Hty, Hv. cbn [ok].
  pose proof (entry_of_name _ _ _ _ Hj He) as Hne.
  pose proof (join_validated_inv _ _ _ _ Hv) as [_ Hrel].
  destruct (target_keys_distinct base (name entry) Hne Hrel Hp) as (N3 & N2 & N1 & Hkn).
  assert (Hbg : below base (key (digest_path (name_of base entry)))) by by apply (digest_below base).
  pose proof (accepted_not_denied _ _ _ _ Hv Hne Hkn) as Hnd.
  change (join base (name entry)) with (name_of base entry) in *.
  set (pth := name_of base entry) in *.
  destruct (remove_file_keeps base _ _ Ht Hbg) as (I1 & D1 & E1 & P1).
  set (f1 := exec (remove_file (digest_path pth)) f) in *.
  assert (Hren : exec (rename (download_path pth) pth) f1
    = set_entries (fun m => <[key pth := EFile i]> (delete (key (download_path pth)) m)) f1).
  { unfold exec, rename, rename_entry. rewrite D1, decide_False by tauto. rewrite !E1, Hdl by done.
    rewrite (P1 _ Hpar). by destruct (entries f !! key pth) as [[]|]. }
  rewrite Hren. unfold exec, set_file_mtime, entry_at, resolve. cbn [follow].
  cbn [entries set_entries denied]. rewrite lookup_insert_eq, D1, decide_False by done.
  cbn [snd entries set_entries set_inodes inodes]. rewrite lookup_insert_eq.
  cbn [snd entries set_entries set_inodes inodes].
  rewrite lookup_insert_eq, lookup_alter, decide_True, I1, Hi by done.
  split_and!; [done|done|]. rewrite lookup_insert_ne, lookup_delete_eq by done. done.
Qed.

(** The first block: the download holds exactly its data. *)
Lemma write_first (base : string) j e k entry b j' e' :
  dir_job base j -> tidy base (fs e) -> data_stream j = None ->
  entry_of j (as_usize (Z.of_nat k)) = Some entry -> proper_name (name entry) ->
  blk_file_num b = Z.of_nat k ->
  write digest_to_json b (j, e) = (Ok tt, (j', e')) ->
  let pth := name_of base entry in
  tidy base (fs e') /\ join_validated_path (fs e') base (name entry) = Ok pth /\
  key (download_path pth) ∉ denied (fs e') /\ same_job j j' /\
  exists i, downloading base j' k i e' (decoded b) /\
    entries (fs e') !! key (download_path pth) = Some (EFile i).
Proof.
  intros Hj Ht Hs He Hp Hk Hw. cbv zeta. pose proof Hj as (Hty & Hd & Hf). cbn [base_of] in Hd.
  unfold write, mbind, st_mbind in Hw.
  apply st_bind_ok in Hw as (j0 & s0 & [= <- <-] & Hw). cbn [fst] in Hw.
  destruct (negb (blk_id b =? id j)); [done|].
  rewrite Hd, Hk in Hw.
  apply st_bind_ok in Hw as ([] & [j1 e1] & Ho & Hw).
  destruct (write_open_first _ _ _ _ _ _ _ Hj Ht Hs He Hp Ho)
    as (Ht1 & Hv1 & Hd1 & h & Hp0 & -> & He1 & Hi1).
  apply st_bind_ok in Hw as ([] & s2 & Hw1 & [= Hw2]).
  assert (Hx : exists n, inodes (fs e1) !! ino h = Some n).
  { destruct (inodes (fs e1) !! ino h) eqn:E; [by eexists|]. exfalso. revert Hw1.
    unfold stream_write_all, mbind, st_mbind, st_bind, get_job, lift_io, write_file.
    destruct (blk_compressed b); cbn; by rewrite E. }
  destruct Hx as [n Hn]. specialize (Hi1 n Hn).
  assert (Hs2 : exists v, s2 = (with_finished_size v (with_data_stream
      (Some (FileStream (mkFile (ino h) (len (decoded b)))))
      (with_data_stream (Some (FileStream h)) (with_file_num (Z.of_nat k) j))),
    mkEnv (set_inodes <[ino h := mkInode (decoded b) (clock (fs e1))]> (fs e1)) (net e1))).
  { revert Hw1. unfold decoded. destruct (blk_compressed b);
      unfold mbind, st_mbind, st_bind; rewrite (stream_write_file h _ _ e1 n) by done;
      intros [= <-]; rewrite Hp0, Hi1, Z.add_0_l, (overwrite_end []); by eexists. }
  destruct Hs2 as [v ->]. injection Hw2 as <- <-. cbn [fs].
  split; [done|]. split.
  { eapply (join_validated_again base (fs e1)); [|by destruct Ht1|done|done].
    by apply (entry_of_name base j (as_usize (Z.of_nat k))). }
  split; [done|]. split; [done|]. exists (ino h). split; [|done].
  split_and!; [done|done|by exists entry|done|]. cbn. by rewrite lookup_insert_eq.
Qed.

(** C24: receiving a file.  If the blocks of the job's current file are
    written one after the other and the first is accepted, they are all
    accepted; and [modify_time], which runs when the next file begins or the
    job ends, then puts at the file's name, inside the job's directory, a
    file whose content is the (decompressed) data of the blocks in order, with
    the sender's modification time; the [.download] name is gone. *)
Theorem file_arrives (base : string) (j j1 : TransferJob) (e e1 : Env) (k : nat)
    (entry : FileEntry) (b : FileTransferBlock) (bs : list FileTransferBlock) :
  dir_job base j -> tidy base (fs e) -> data_stream j = None ->
  len (files j) < 2 ^ 31 -> files j !! k = Some entry -> proper_name (name entry) ->
  Forall (fun b => blk_id b = id j /\ blk_file_num b = Z.of_nat k) (b :: bs) ->
  write digest_to_json b (j, e) = (Ok tt, (j1, e1)) ->
  exists j' e', writes digest_to_json (b :: bs) (j, e) = (Ok tt, (j', e')) /\
    let target := key (join base (name entry)) in
    (entries (fs e') !! target <> Some EDir -> dir_of_exists (fs e') target = true ->
     let f := modify_time j' (fs e') in
     exists i, entries f !! target = Some (EFile i) /\
       inodes f !! i = Some (mkInode (concat (decoded <$> b :: bs)) (modified_time entry)) /\
       entries f !! key (download_path (join base (name entry))) = None).
Proof.
  intros Hj Ht Hs Hl Hk Hp Hb Hw. apply Forall_cons in Hb as [[Hb1 Hb2] Hb].
  pose proof (entry_of_spec _ _ _ Hk Hl) as He.
  pose proof (write_safe digest_to_json base b _ _ _ _ _ Hj Hw) as (Hj1 & _ & _).
  destruct (write_first _ _ _ _ _ _ _ _ Hj Ht Hs He Hp Hb2 Hw)
    as (Ht1 & Hv1 & Hd1 & (S1 & S2 & S3) & i & Hdl & He1).
  destruct (writes_next digest_to_json base k i bs j1 e1 _ Hdl)
    as (j' & e' & Hw' & Hdl' & (S4 & S5 & S6) & (F1 & F2 & F3) & _); [by rewrite S1|].
  exists j', e'. split.
  { cbn [writes]. unfold mbind, st_mbind, st_bind. by rewrite Hw. }
  cbv zeta. intros Hdir Hpar. destruct Hdl' as (D1 & D2 & D3 & D4 & D5).
  apply fmap_Some in D5 as (n & Hn & Hc). exists i.
  change (join base (name entry)) with (name_of base entry) in *.
  assert (Hj' : dir_job base j').
  { destruct Hj1 as (Q1 & Q2 & Q3). cbn [base_of] in *. split_and!; cbn [base_of]; [congruence..|]. by replace (files j') with (files j1) by congruence. }
  assert (Ht' : tidy base (fs e')).
  { unfold tidy, no_links, allocated in *. by rewrite F1, F3. }
  assert (He' : entry_of j' (as_usize (Z.of_nat k)) = Some entry).
  { rewrite <- He. unfold entry_of. by rewrite S6, S3. }
  destruct (modify_time_moves base j' (fs e') k entry i n) as (M1 & M2 & M3); try done.
  - eapply (join_validated_again base (fs e1)); [|by destruct Ht'|done|done].
    by apply (entry_of_name base j (as_usize (Z.of_nat k))).
  - by rewrite F2.
  - by rewrite F1.
  - rewrite M2. cbn. by rewrite Hc.
Qed.
End Receive.

(** ** Concrete runs *)

(** A file system with regular files of the given contents, under [/d] and [/s]. *)
Fixpoint put_files (l : list (list string * list byte)) (f : Fs) : Fs :=
  match l with
  | [] => f
  | (k, c) :: l =>
      let f := put_files l f in
      mkFs (<[k := EFile (next_ino f)]> (entries f))
        (<[next_ino f := mkInode c 3]> (inodes f)) (S (next_ino f)) (denied f) (clock f)
  end.

Definition with_entry (k : list string) (x : Entry) (f : Fs) : Fs := set_entries (<[k := x]>) f.

Definition deny (k : list string) (f : Fs) : Fs :=
  mkFs (entries f) (inodes f) (next_ino f) ({[k]} ∪ denied f) (clock f).

Definition base_fs : Fs :=
  with_entry ["/"; "s"] EDir (with_entry ["/"; "etc"] EDir plain_fs).

(** What a path holds. *)
Definition shows (f : Fs) (p : string) : option (list byte) := ok (fs_read f p).

Definition three_at_a_time : Z -> nat := fun _ => 3%nat.

Definition send_fs : Fs :=
  put_files [(["/"; "s"; "a"], [x00; x00; x61; x62]); (["/"; "s"; "b"], [])] base_fs.

Definition send_job : TransferJob :=
  demo_job "/s" [file_entry "a" 4 9; file_entry "b" 0 9].


Definition recv_job : TransferJob := demo_job "/d" [file_entry "a" 4 9; file_entry "b" 0 9].

Definition recv_blocks : list FileTransferBlock :=
  [mkBlock 1 0 [x01; x61] true; mkBlock 1 0 [x62] false; mkBlock 1 0 [] false].

Lemma file_arrives_witness :
  let run := @writes toy_zstd demo_json recv_blocks (recv_job, demo_env plain_fs) in
  exists j' e', run = (Ok tt, (j', e')) /\
    exists i, entries (modify_time j' (fs e')) !! ["/"; "d"; "a"] = Some (EFile i) /\
      inodes (modify_time j' (fs e')) !! i = Some (mkInode [x00; x00; x61; x62] 9).
Proof.
  intros run.
  set (w := @write toy_zstd demo_json (mkBlock 1 0 [x01; x61] true) (recv_job, demo_env plain_fs)).
  destruct (@file_arrives toy_zstd demo_json "/d" recv_job (fst (snd w)) (demo_env plain_fs)
    (snd (snd w)) 0 (file_entry "a" 4 9) (mkBlock 1 0 [x01; x61] true)
    [mkBlock 1 0 [x62] false; mkBlock 1 0 [] false]) as (j' & e' & Hr & H).
  - by repeat constructor.
  - apply tidy_plain.
  - reflexivity.
  - vm_compute. reflexivity.
  - reflexivity.
  - exists [], "a". split; reflexivity.
  - by repeat constructor.
  - assert (Hw : fst w = Ok tt) by (vm_compute; reflexivity).
    change (w = (Ok tt, (fst (snd w), snd (snd w)))). rewrite <- Hw. by destruct w as [? []].
  - exists j', e'. split; [exact Hr|].
    assert (He : e' = snd (snd run)) by (unfold run, recv_blocks; by rewrite Hr).
    destruct H as (i & H1 & H2 & _).
    + rewrite He. vm_compute. discriminate.
    + rewrite He. vm_compute. reflexivity.
    + exists i. split; [exact H1|exact H2].
Defined.

(** *** Off the path

    The runs below are the code's, step by step, on small file systems. *)

(** When the next file cannot be opened, [file_num] has already moved while the
    stream is still the one of the previous file: the caller reports the error,
    and the next blocks of the file that failed are appended to the previous
    file, which is already in place. *)
Lemma failed_open_appends_to_previous_file :
  let fs0 := deny ["/"; "d"; "b.download"] plain_fs in
  let '(r1, s) := @write toy_zstd demo_json (mkBlock 1 0 [x61] false) (recv_job, demo_env fs0) in
  let '(r2, s) := @write toy_zstd demo_json (mkBlock 1 1 [x62] false) s in
  let '(r3, s) := @write toy_zstd demo_json (mkBlock 1 1 [x63] false) s in
  r1 = Ok tt /\ r2 = Err "io error" /\ r3 = Ok tt /\
  shows (fs (snd s)) "/d/a" = Some [x61; x63].
Proof. vm_compute. by split_and!. Qed.

(** Only the name is checked for links; the [.download] beside it is opened
    through whatever link is there. *)
Lemma download_link_is_followed :
  let fs0 := with_entry ["/"; "d"; "b.download"] (ELink "/etc/x") base_fs in
  let '(r, s) := @write toy_zstd demo_json (mkBlock 1 1 [x61] false) (recv_job, demo_env fs0) in
  r = Ok tt /\ shows (fs (snd s)) "/etc/x" = Some [x61].
Proof. vm_compute. by split_and!. Qed.

(** A file named like the download of another one is lost. *)
Lemma download_name_collision :
  let j := demo_job "/d" [file_entry "a.download" 1 9; file_entry "a" 1 9; file_entry "b" 1 9] in
  let '(r1, s) := @write toy_zstd demo_json (mkBlock 1 0 [x61] false) (j, demo_env plain_fs) in
  let '(r2, s) := @write toy_zstd demo_json (mkBlock 1 1 [x62] false) s in
  let '(r3, s) := @write toy_zstd demo_json (mkBlock 1 2 [x63] false) s in
  r1 = Ok tt /\ r2 = Ok tt /\ r3 = Ok tt /\
  shows (fs (snd s)) "/d/a" = Some [x62] /\ shows (fs (snd s)) "/d/a.download" = None.
Proof. vm_compute. by split_and!. Qed.

(** The first block of a new job runs [modify_time] for a file it has not yet
    received: what an interrupted job left in [.download] replaces the good file. *)
Lemma stale_download_promoted :
  let fs0 := put_files [(["/"; "d"; "a"], [x41; x41]); (["/"; "d"; "a.download"], [x7a])] base_fs in
  let '(r, s) := @write toy_zstd demo_json (mkBlock 1 0 [x61] false) (recv_job, demo_env fs0) in
  r = Ok tt /\ shows (fs (snd s)) "/d/a" = Some [x7a].
Proof. vm_compute. by split_and!. Qed.

(** A compressor that fails. *)
Definition failing_zstd : Zstd := {|
  zstd_compress _ := None;
  zstd_decode c n := Some (at_most n c)
|}.

(** [compress] answers a failure with no bytes, which [read] takes for a good
    compression: the data is dropped and the transfer goes on. *)
Lemma compress_failure_loses_data :
  let h := FileStream (mkFile 1 0) in
  let '(r, s) := @read failing_zstd three_at_a_time
                   (with_data_stream (Some h) send_job, demo_env send_fs) in
  r = Ok (Some (mkBlock 1 0 [] true)) /\ finished_size (fst s) = 4.
Proof. vm_compute. by split_and!. Qed.

(** A source file that cannot be opened is reported twice, once under the number
    of the file after it, whose turn has not come. *)
Lemma open_error_blames_next_file :
  let fs0 := deny ["/"; "s"; "a"] send_fs in
  sent (net (snd (@ticks toy_zstd three_at_a_time 1 ([send_job], demo_env fs0))))
  = [MsgError 1 "No such file or directory" 1; MsgError 1 "data stream is None" 1].
Proof. vm_compute. reflexivity. Qed.
