(* ===== verification/SendTurns.v ===== *)
(** * The turns of a job that asks before it sends a file

    With overwrite detection, [handle_read_jobs] opens the next file and sends its time and
    size; nothing more is sent until the file is confirmed; then every turn sends a block,
    the last one empty; after the last file one message ends the job. *)

From S2P Require Import Prelude OsFs Compress FileTransfer TransferSafety TransferContent.

Section Sender.
Context `{Zstd, !ZstdLaws, !ZstdTotal} (short : Z -> nat).
Variable src : string.
Variable list_ : list FileEntry.
Variable id_ : Z.
Variable f : Fs.

(** The job is at file [k]. *)
Record careful (k : nat) (j : TransferJob) : Prop := {
  ca_type : ty j = Generic;
  ca_source : data_source j = FilePath src;
  ca_detect : enable_overwrite_detection j = true;
  ca_last : is_last_job j = false;
  ca_skip : file_skipped j = false;
  ca_id : id j = id_;
  ca_files : files j = list_;
  ca_num : file_num j = Z.of_nat k }.

Record starting (k : nat) (j : TransferJob) : Prop := {
  st_careful : careful k j;
  st_stream : data_stream j = None;
  st_confirmed : file_confirmed j = false;
  st_waiting : file_is_waiting j = false }.

Record waiting (k i : nat) (j : TransferJob) : Prop := {
  wa_careful : careful k j;
  wa_stream : data_stream j = Some (FileStream (mkFile i 0));
  wa_confirmed : file_confirmed j = false;
  wa_waiting : file_is_waiting j = true }.

Record sending (k i : nat) (p : Z) (j : TransferJob) : Prop := {
  se_careful : careful k j;
  se_stream : data_stream j = Some (FileStream (mkFile i p));
  se_confirmed : file_confirmed j = true }.

Hypothesis Hlen : len list_ < 2 ^ 31.

Definition here (l : list Message) : Env := mkEnv f (mkNet l false).

(** One turn: the job goes on and has said [ms]. *)
Definition turn (j : TransferJob) (ms : list Message) (j' : TransferJob) : Prop :=
  handle_read_jobs short [j] (here []) = (Ok NoLog, ([j'], here ms)).

Lemma careful_entry k j x :
  careful k j -> list_ !! k = Some x -> entry_of j (as_usize (file_num j)) = Some x.
Proof. intros Hj Hx. rewrite (ca_num _ _ Hj). apply entry_of_spec; by rewrite (ca_files _ _ Hj). Qed.

Lemma turn_of j j1 j2 m1 m2 :
  is_last_job j = false -> is_last_job j1 = false ->
  init_data_stream (j, here []) = (Ok tt, (j1, here m1)) ->
  step_job short j1 (here m1) = (Ok (NoLog, None), (j2, here m2)) -> turn j m2 j2.
Proof.
  intros Hl Hl1 Hi Hs. unfold turn, handle_read_jobs.
  rewrite (init_jobs_one j _ j1 (here m1)) by done. cbn [step_jobs]. by rewrite Hl1, Hs.
Qed.

(** A file that is not confirmed sends nothing. *)
Lemma silent k j ms :
  careful k j -> file_confirmed j = false -> file_is_waiting j = true ->
  step_job short j (here ms) = (Ok (NoLog, None), (j, here ms)).
Proof.
  intros [] Hc Hw. unfold step_job, read, mbind, st_mbind, st_bind, get_job. cbn [fst].
  rewrite ca_type0, ca_detect0, Hc. cbn. unfold job_completed. by rewrite ca_detect0, Hc, Hw.
Qed.

Lemma turn_starting k j x i nd :
  starting k j -> list_ !! k = Some x ->
  entry_at f (key (join src (name x))) = Some (EFile i) -> inodes f !! i = Some nd ->
  exists j', turn j [MsgDigest (mkDigest id_ (Z.of_nat k) (mtime nd) (len (content nd)) false 0 (is_resume j))] j'
    /\ waiting k i j'.
Proof.
  intros [Hj Hs Hc Hw] Hx Ha Hi. pose proof Hj as [].
  pose (j1 := with_file_is_waiting true (opened (mkFile i 0) j)).
  assert (Hj1 : careful k j1) by by split. exists j1. split; [|by split].
  eapply (turn_of j j1); [done|done| |by eapply silent].
  unfold init_data_stream, open_data_stream, mbind, st_mbind, st_bind, get_job. cbn [fst].
  rewrite ca_source0, (careful_entry k j x Hj Hx), Hs. unfold st_try, lift_io, open_read, here. cbn [fs]. rewrite Ha.
  cbn -[opened]. unfold wants_digest. cbn -[opened].
  change (ty _) with (ty j). change (enable_overwrite_detection _) with (enable_overwrite_detection j).
  rewrite ca_type0, ca_detect0. cbn. unfold send_current_digest, get_current_digest, mbind, st_mbind, st_bind.
  cbn. rewrite Hi. cbn. by rewrite ca_id0, ca_num0.
Qed.

Lemma init_open k j x i p ms :
  careful k j -> list_ !! k = Some x -> data_stream j = Some (FileStream (mkFile i p)) ->
  file_confirmed j = true \/ file_is_waiting j = true ->
  init_data_stream (j, here ms) = (Ok tt, (j, here ms)).
Proof.
  intros Hj Hx Hs Hc. unfold init_data_stream, open_data_stream, mbind, st_mbind, st_bind, get_job. cbn [fst].
  rewrite (ca_source _ _ Hj), (careful_entry k j x Hj Hx), Hs. cbn. unfold wants_digest.
  rewrite (ca_type _ _ Hj), (ca_detect _ _ Hj). by destruct Hc as [->| ->]; [|destruct (file_confirmed j)].
Qed.

Lemma turn_waiting k i j x : waiting k i j -> list_ !! k = Some x -> turn j [] j.
Proof.
  intros [Hj Hs Hc Hw] Hx. eapply (turn_of j j); [apply Hj|apply Hj| |by eapply silent].
  eapply init_open; [done|done|done|by right].
Qed.

(** The confirmation of the receiver. *)
Lemma confirmed_sends k i j e :
  waiting k i j -> exists j', confirm (mkConfirm id_ (Z.of_nat k) (Some (OffsetBlk 0))) (j, e) = (Ok true, (j', e))
    /\ sending k i 0 j'.
Proof.
  intros [Hj Hs Hc Hw]. pose proof Hj as []. exists (set_file_confirmed true j). split; [|by split].
  unfold confirm, mbind, st_mbind, st_bind, get_job. cbn [fst cf_file_num cf_union].
  rewrite ca_num0, Z.eqb_refl. by destruct e.
Qed.

Lemma turn_sending k i p j x nd :
  sending k i p j -> list_ !! k = Some x -> inodes f !! i = Some nd -> 0 <= p ->
  let chunk := take BUF_SIZE (drop (Z.to_nat p) (content nd)) in
  exists b j', turn j [MsgBlock b] j' /\ blk_id b = id_ /\ blk_file_num b = Z.of_nat k /\ decoded b = chunk
    /\ (if decide (chunk = []) then starting (S k) j' else sending k i (p + len chunk) j').
Proof.
  intros [Hj Hs Hc] Hx Hi Hp chunk. pose proof (lookup_lt_Some _ _ _ Hx) as Hlt. pose proof Hj as [].
  assert (Hr : reading j i p).
  { split_and!; [unfold may_read; by rewrite ca_type0|by rewrite ca_source0
                |exists x; by apply (careful_entry k)|unfold len in *; lia|unfold len in *; lia|done]. }
  assert (Hin : init_data_stream (j, here []) = (Ok tt, (j, here []))) by (eapply init_open; eauto).
  destruct (read_spec short j (here []) i p nd Hr Hp Hi) as [[Hch E]|(Hch & b & E & Hbi & Hbn & Hdec)]; fold chunk in Hch.
  - eexists _, _. split; [eapply turn_of; [done|done|exact Hin|]|].
    { unfold step_job. rewrite E. reflexivity. }
    cbn [blk_id blk_file_num]. rewrite Hch. split_and!; [done|done|done|]. rewrite decide_True by done.
    split; [split; try done|done|done|done].
    change (as_i32 (file_num j + 1) = Z.of_nat (S k)). rewrite ca_num0, as_i32_small; unfold len in *; lia.
  - eexists b, _. split; [eapply turn_of; [done|done|exact Hin|]|].
    { unfold step_job. rewrite E. reflexivity. }
    fold chunk in Hdec. rewrite decide_False by done. split_and!; [congruence|congruence|done|]. by split.
Qed.

Lemma turn_done j :
  starting (length list_) j ->
  handle_read_jobs short [j] (here []) = (Ok (JobDone id_), ([], here [MsgDone id_ (Z.of_nat (length list_))])).
Proof.
  intros [Hj Hs Hc Hw]. pose proof Hj as []. 
  assert (He : entry_of j (as_usize (file_num j)) = None).
  { unfold entry_of, as_usize. rewrite ca_num0, ca_files0. unfold len in *. rewrite wrap_small by lia.
    by rewrite Z.ltb_irrefl. }
  assert (Hj' : with_data_stream None j = j) by (destruct j; cbn in *; by subst).
  unfold handle_read_jobs. rewrite (init_jobs_one j _ j (here [])); [|done|].
  - cbn [step_jobs]. rewrite ca_last0. unfold step_job, read, mbind, st_mbind, st_bind, get_job. cbn [fst].
    rewrite ca_type0, ca_detect0, Hc. cbn [andb negb]. unfold mret, st_mret, st_ret, job_completed, job_error, job_skipped.
    rewrite ca_detect0, Hc, Hw, ca_skip0, ca_id0, ca_num0. cbn. by rewrite ca_id0, Z.eqb_refl.
  - unfold init_data_stream, open_data_stream, mbind, st_mbind, st_bind, get_job. cbn [fst].
    rewrite ca_source0, He. cbn. by rewrite Hj'.
Qed.
End Sender.
