(* ===== verification/FsDirs.v ===== *)
(** * Listing and changing directories (libs/hbb_common/src/fs.rs)

    What a peer may ask of the file system besides transfers: the entries of a
    directory, all the files or all the empty directories below it, the removal of a
    tree of empty directories, of a file, a new directory, a new name.  The recursions
    have fuel, the number of levels below the directory, which is shown to suffice.

    As in {!OsFs} only the last component of a path is resolved: a path below a
    directory is the directory's key followed by a name. *)

From S2P Require Import Prelude OsFs PathFacts Compress FileTransfer.
From Stdlib Require Import Ascii.

Record FileDirectory : Type := mkFileDirectory { dir_path : string; dir_entries : list FileEntry }.

(** [name.find('.') == Some(0)]. *)
Definition hidden_name (n : string) : bool := starts_with_char "."%char n.

Section Dirs.
(** The modification time of a directory or a link, which {!OsFs} does not keep. *)
Variable other_mtime : Fs -> list string -> Z.

Definition lstat_len (fs : Fs) (e : Entry) : Z :=
  match e with
  | EFile i => match inodes fs !! i with Some n => len (content n) | None => 0 end
  | _ => 0
  end.

(** Seconds since 1970, 0 before. *)
Definition lstat_mtime (fs : Fs) (k : list string) (e : Entry) : Z :=
  Z.max 0 match e with
          | EFile i => match inodes fs !! i with Some n => mtime n | None => 0 end
          | _ => other_mtime fs k
          end.

(** One round of the loop of [read_dir]. *)
Definition dir_entry (fs : Fs) (k : list string) (include_hidden : bool) (n : string)
  : option FileEntry :=
  let q := k ++ [n] in
  if String.eqb n "" then None
  else match symlink_metadata fs q with
  | Err _ => None
  | Ok e =>
      let is_hidden := hidden_name n in
      if is_hidden && negb include_hidden then None
      else
        let is_dir := match entry_at fs q with Some EDir => true | _ => false end in
        let '(entry_type, size) :=
          match is_dir, e with
          | true, ELink _ => (DirLink, 0)
          | true, _ => (Dir, 0)
          | false, ELink _ => (FileLink, 0)
          | false, _ => (FileT, lstat_len fs e)
          end in
        Some (mkFileEntry entry_type n is_hidden size (lstat_mtime fs q e))
  end.

(** The directory that [k] denotes, and its entries. *)
Definition read_dir (fs : Fs) (k : list string) (include_hidden : bool)
  : result string (list string * list FileEntry) :=
  match entry_at fs k, resolve fs k with
  | Some EDir, Some k => Ok (k, omap (dir_entry fs k include_hidden) (children fs k))
  | Some _, _ => Err (io_msg OtherIo)
  | None, _ => Err (io_msg NotFound)
  end.

(** The loop of [read_dir_recursive]; [rec] lists a directory. *)
Fixpoint list_entries
    (rec : list string -> string -> option (result string (list FileEntry)))
    (k : list string) (prefix : string) (es : list FileEntry) : option (list FileEntry) :=
  match es with
  | [] => Some []
  | e :: es =>
      match entry_type e with
      | FileT =>
          rest ← list_entries rec k prefix es;
          Some (mkFileEntry FileT (path_join prefix (name e)) (is_hidden e) (size e) (modified_time e)
                :: rest)
      | Dir =>
          r ← rec (k ++ [name e]) (path_join prefix (name e));
          rest ← list_entries rec k prefix es;
          Some (match r with Ok tmp => tmp ++ rest | Err _ => rest end)
      | _ => list_entries rec k prefix es
      end
  end.

Fixpoint read_dir_recursive (fuel : nat) (fs : Fs) (include_hidden : bool) (k : list string)
    (prefix : string) : option (result string (list FileEntry)) :=
  match fuel with
  | O => None
  | S fuel =>
      match entry_at fs k with
      | Some EDir =>
          match read_dir fs k include_hidden with
          | Err e => Some (Err e)
          | Ok (k, es) =>
              files ← list_entries (read_dir_recursive fuel fs include_hidden) k prefix es;
              Some (Ok files)
          end
      | Some (EFile i) =>
          Some (Ok [mkFileEntry FileT "" false (lstat_len fs (EFile i)) (lstat_mtime fs k (EFile i))])
      | _ => Some (Err "Not exists")
      end
  end.

(** One more than the length of the longest key: no directory is deeper. *)
Definition fs_depth (fs : Fs) : nat :=
  S (max_list (map (fun '(q, _) => length q) (map_to_list (entries fs)))).

Definition get_recursive_files (fs : Fs) (path : string) (include_hidden : bool)
  : option (result string (list FileEntry)) :=
  read_dir_recursive (fs_depth fs) fs include_hidden (key path) "".

(** [TransferJob::new_read]. *)
Definition new_read (fs : Fs) (id_ : Z) (t : JobType) (remote_ : string) (d : DataSource)
    (file_num_ : Z) (show_hidden_ is_remote_ enable : bool) : option (result string TransferJob) :=
  r ← match d with
      | FilePath p => get_recursive_files fs p show_hidden_
      | MemoryCursor c => Some (Ok [])
      end;
  Some (let? files := r in
        let total := match d with FilePath _ => sum_sizes files | MemoryCursor c => len c end in
        Ok (with_files_field files
              (with_total_size total
                 (new_write id_ t remote_ d file_num_ show_hidden_ is_remote_ enable)))).

(** The directories with no entry. *)
Fixpoint list_empty
    (rec : list string -> string -> option (result string (list FileDirectory)))
    (k : list string) (path : string) (es : list FileEntry) : option (list FileDirectory) :=
  match es with
  | [] => Some []
  | e :: es =>
      match entry_type e with
      | Dir =>
          r ← rec (k ++ [name e]) (path_join path (name e));
          rest ← list_empty rec k path es;
          Some (match r with Ok tmp => tmp ++ rest | Err _ => rest end)
      | _ => list_empty rec k path es
      end
  end.

Fixpoint read_empty_dirs_recursive (fuel : nat) (fs : Fs) (include_hidden : bool) (k : list string)
    (path : string) : option (result string (list FileDirectory)) :=
  match fuel with
  | O => None
  | S fuel =>
      match entry_at fs k with
      | Some EDir =>
          match read_dir fs k include_hidden with
          | Err e => Some (Err e)
          | Ok (_, []) => Some (Ok [mkFileDirectory path []])
          | Ok (k, es) =>
              dirs ← list_empty (read_empty_dirs_recursive fuel fs include_hidden) k path es;
              Some (Ok dirs)
          end
      | Some (EFile _) => Some (Ok [])
      | _ => Some (Err "Not exists")
      end
  end.

Definition get_empty_dirs_recursive (fs : Fs) (path : string) (include_hidden : bool)
  : option (result string (list FileDirectory)) :=
  read_empty_dirs_recursive (fs_depth fs) fs include_hidden (key path) path.

(** The loop of [remove_all_empty_dir] over the entries read at its start. *)
Fixpoint remove_entries (rec : list string -> Fs -> option (result string unit * Fs))
    (k : list string) (es : list FileEntry) (fs : Fs) : option Fs :=
  match es with
  | [] => Some fs
  | e :: es =>
      let q := k ++ [name e] in
      fs ← match entry_type e with
           | Dir => '(_, fs) ← rec q fs; Some fs
           | DirLink | FileLink => Some (exec (remove_entry q) fs)
           | _ => Some fs
           end;
      remove_entries rec k es fs
  end.

Fixpoint remove_all_empty_dir (fuel : nat) (k : list string) (fs : Fs)
  : option (result string unit * Fs) :=
  match fuel with
  | O => None
  | S fuel =>
      match read_dir fs k true with
      | Err e => Some (Err e, fs)
      | Ok (k', es) =>
          fs ← remove_entries (remove_all_empty_dir fuel) k' es fs;
          Some (Ok tt, exec (remove_dir k) fs)
      end
  end.
End Dirs.

(** *** Files and names *)

Definition io_result {A} (r : result IoErr A) : result string A :=
  match r with Ok a => Ok a | Err e => Err (io_msg e) end.

Definition fs_remove_file (file : string) (fs : Fs) : result string unit * Fs :=
  match validate_fs_path_argument file "file path" with
  | Err e => (Err e, fs)
  | Ok _ => let '(r, fs) := remove_file file fs in (io_result r, fs)
  end.

Definition fs_create_dir (dir : string) (fs : Fs) : result string unit * Fs :=
  match validate_fs_path_argument dir "directory path" with
  | Err e => (Err e, fs)
  | Ok _ => let '(r, fs) := create_dir_all (key dir) fs in (io_result r, fs)
  end.

(** [std::fs::rename] of a file or of a directory with all that is in it. *)
Fixpoint strip_key (k q : list string) : option (list string) :=
  match k, q with
  | [], q => Some q
  | x :: k, y :: q => if String.eqb x y then strip_key k q else None
  | _ :: _, [] => None
  end.

Definition move_tree (ka kb : list string) (m : gmap (list string) Entry)
  : gmap (list string) Entry :=
  map_fold (fun q e m => <[match strip_key ka q with Some r => kb ++ r | None => q end := e]> m) ∅
    (delete kb m).

Definition rename_tree (ka kb : list string) : IO unit := fun fs =>
  if decide (ka ∈ denied fs \/ kb ∈ denied fs) then (Err OtherIo, fs)
  else match entries fs !! ka with
  | None => (Err NotFound, fs)
  | Some e =>
      if decide (ka = kb) then (Ok tt, fs)
      else if decide (is_Some (strip_key ka kb)) then (Err OtherIo, fs)
      else
        let fits :=
          match e, entries fs !! kb with
          | _, None => true
          | EDir, Some EDir => bool_decide (children fs kb = [])
          | EDir, Some _ => false
          | _, Some EDir => false
          | _, Some _ => true
          end in
        if fits && dir_of_exists fs kb then (Ok tt, set_entries (move_tree ka kb) fs)
        else (Err OtherIo, fs)
  end.

Definition rename_file (path new_name : string) (fs : Fs) : result string unit * Fs :=
  match (let? _ := validate_fs_path_argument path "path" in
         let? _ := if String.eqb new_name "" then Err "new file name cannot be empty" else Ok tt in
         validate_file_name_no_traversal new_name) with
  | Err e => (Err e, fs)
  | Ok _ =>
      if path_exists fs path then
        match parent_key (key path) with
        | None => (Err "Parent directoy not exists", fs)
        | Some dir =>
            let '(r, fs) := rename_tree (key path) (dir ++ key new_name) fs in (io_result r, fs)
        end
      else (Err "not exists", fs)
  end.

(** [transform_windows_path]. *)
Definition transform_windows_path (es : list FileEntry) : list FileEntry :=
  map (fun e =>
    mkFileEntry (entry_type e)
      (String.string_of_list_ascii
         (map (fun c => if Ascii.eqb c "\"%char then SLASH else c) (String.list_ascii_of_string (name e))))
      (is_hidden e) (size e) (modified_time e)) es.

(** ** Listing *)

Lemma children_spec fs k n : n ∈ children fs k <-> is_Some (entries fs !! (k ++ [n])).
Proof.
  unfold children. rewrite list_elem_of_omap. split.
  - intros ([q e] & Hin & Hc). apply elem_of_map_to_list in Hin. unfold child_of in Hc.
    destruct (last q) as [m|]; [|done]. case_decide as E; [|done]. injection Hc as <-. subst. eauto.
  - intros [e He]. exists (k ++ [n], e). split; [by apply elem_of_map_to_list|].
    unfold child_of. by rewrite last_snoc, decide_True.
Qed.

Lemma resolve_plain fs k e :
  entries fs !! k = Some e -> (forall t, e <> ELink t) -> resolve fs k = Some k.
Proof. intros E Hl. unfold resolve. cbn. rewrite E. destruct e; try done. by destruct (Hl target). Qed.

Lemma entry_at_plain fs k e :
  entries fs !! k = Some e -> (forall t, e <> ELink t) ->
  entry_at fs k = if decide (k ∈ denied fs) then None else Some e.
Proof. intros E Hl. unfold entry_at. by rewrite (resolve_plain fs k e), E. Qed.

Lemma follow_plain fuel fs k k' t : follow fuel fs k = Some k' -> entries fs !! k' <> Some (ELink t).
Proof.
  revert k. induction fuel as [|fuel IH]; intros k; cbn;
    destruct (entries fs !! k) as [[| |t']|] eqn:E; intros Hk; simplify_eq; try congruence; eauto.
Qed.

Lemma resolve_dir fs k k' :
  resolve fs k = Some k' -> entry_at fs k = Some EDir -> entries fs !! k' = Some EDir /\ k' ∉ denied fs.
Proof. intros E. unfold entry_at. rewrite E. by case_decide. Qed.

(** Every name of a directory is shown, except hidden ones when they are not asked for. *)
Definition shown (include_hidden : bool) (n : string) : Prop :=
  n <> "" /\ (hidden_name n = true -> include_hidden = true).

Section Listing.
Variable other_mtime : Fs -> list string -> Z.
Variable fs : Fs.
Variable inc : bool.

Abbreviation dir_entry := (dir_entry other_mtime fs).
Abbreviation recursive := (fun fuel => read_dir_recursive other_mtime fuel fs inc).

Lemma dir_entry_some k n e :
  dir_entry k inc n = Some e ->
  shown inc n /\ k ++ [n] ∉ denied fs /\ name e = n /\
  exists e0, entries fs !! (k ++ [n]) = Some e0 /\
    match e0 with
    | EFile i => e = mkFileEntry FileT n (hidden_name n) (lstat_len fs e0)
                       (lstat_mtime other_mtime fs (k ++ [n]) e0)
    | EDir => entry_type e = Dir
    | ELink _ => entry_type e = DirLink \/ entry_type e = FileLink
    end.
Proof.
  unfold FsDirs.dir_entry, symlink_metadata, shown. destruct (String.eqb_spec n ""); [done|].
  case_decide as Hd; [done|]. destruct (entries fs !! (k ++ [n])) as [e0|] eqn:E; [|done].
  destruct (hidden_name n && negb inc) eqn:Eh; [done|]. intros He.
  split; [split; [done|]; intros Hh; rewrite Hh in Eh; by destruct inc|]. split; [done|].
  destruct e0 as [i| |t].
  - rewrite (entry_at_plain fs _ _ E), decide_False in He by done. injection He as <-.
    split; [done|]. by exists (EFile i).
  - rewrite (entry_at_plain fs _ _ E), decide_False in He by done. injection He as <-.
    split; [done|]. by exists EDir.
  - destruct (entry_at fs (k ++ [n])) as [[]|]; injection He as <-;
      (split; [done|]; exists (ELink t); cbn; auto).
Qed.

Lemma dir_entry_shown k n e0 :
  shown inc n -> k ++ [n] ∉ denied fs -> entries fs !! (k ++ [n]) = Some e0 ->
  exists e, dir_entry k inc n = Some e.
Proof.
  intros [Hn Hh] Hd E. unfold FsDirs.dir_entry, symlink_metadata.
  destruct (String.eqb_spec n ""); [done|]. rewrite decide_False, E by done.
  assert (hidden_name n && negb inc = false) as ->.
  { destruct (hidden_name n); [by rewrite Hh|done]. }
  repeat case_match; eauto.
Qed.

(** The files below a directory that a listing names, by the way to them. *)
Inductive Listed : list string -> list string -> nat -> Prop :=
| Listed_file k n i :
    shown inc n -> k ++ [n] ∉ denied fs -> entries fs !! (k ++ [n]) = Some (EFile i) ->
    Listed k [n] i
| Listed_dir k n rel i :
    shown inc n -> k ++ [n] ∉ denied fs -> entries fs !! (k ++ [n]) = Some EDir ->
    Listed (k ++ [n]) rel i -> Listed k (n :: rel) i.

Definition listed_entry (prefix : string) (k rel : list string) (i : nat) : FileEntry :=
  mkFileEntry FileT (foldl path_join prefix rel)
    (match last rel with Some n => hidden_name n | None => false end)
    (lstat_len fs (EFile i)) (lstat_mtime other_mtime fs (k ++ rel) (EFile i)).

Lemma list_entries_spec rec k prefix es :
  (forall e, e ∈ es -> entry_type e = Dir ->
     exists tmp, rec (k ++ [name e]) (path_join prefix (name e)) = Some (Ok tmp)) ->
  exists files, list_entries rec k prefix es = Some files /\
    forall f, f ∈ files <->
      exists e, e ∈ es /\
        (entry_type e = FileT /\
           f = mkFileEntry FileT (path_join prefix (name e)) (is_hidden e) (size e) (modified_time e)
         \/ entry_type e = Dir /\
           exists tmp, rec (k ++ [name e]) (path_join prefix (name e)) = Some (Ok tmp) /\ f ∈ tmp).
Proof.
  induction es as [|e es IH]; intros Hrec.
  { exists []. split; [done|]. intros f. split; [by intros ?%elem_of_nil|].
    intros (e & He & _). by apply elem_of_nil in He. }
  destruct IH as (rest & Hrest & Hspec); [intros e' He'; apply Hrec; by right|].
  cbn [list_entries]. rewrite Hrest.
  assert (Hhead : forall f P, (f ∈ rest <-> exists e', e' ∈ es /\ P e') ->
            ((exists e', e' ∈ e :: es /\ P e') <-> P e \/ f ∈ rest)).
  { intros f P Hf. rewrite Hf. split.
    - intros (e' & [->|He']%elem_of_cons & HP); [by left|right; eauto].
    - intros [HP|(e' & He' & HP)]; [exists e; split; [by left|done]|exists e'; split; [by right|done]]. }
  assert (Hother : entry_type e <> FileT -> entry_type e <> Dir ->
    exists files, Some rest = Some files /\ forall f, f ∈ files <-> exists e', e' ∈ e :: es /\
        (entry_type e' = FileT /\
           f = mkFileEntry FileT (path_join prefix (name e')) (is_hidden e') (size e') (modified_time e')
         \/ entry_type e' = Dir /\
           exists tmp, rec (k ++ [name e']) (path_join prefix (name e')) = Some (Ok tmp) /\ f ∈ tmp)).
  { intros H1 H2. exists rest. split; [done|]. intros f. rewrite (Hhead f _ (Hspec f)).
    split; [by right|]. intros [[[E _]|[E _]]|Hf]; done. }
  destruct (entry_type e) eqn:Et; try (by apply Hother).
  - destruct (Hrec e) as (tmp & Htmp); [by left|done|]. rewrite Htmp.
    exists (tmp ++ rest). split; [done|]. intros f.
    rewrite elem_of_app, (Hhead f _ (Hspec f)). split.
    + intros [Hf|Hf]; [left; right; eauto|by right].
    + intros [[[E _]|[_ (tmp' & E & Hf)]]|Hf]; [congruence| |by right]. left. congruence.
  - eexists. split; [done|]. intros f. rewrite elem_of_cons, (Hhead f _ (Hspec f)). split.
    + intros [->|Hf]; [left; left; done|by right].
    + intros [[[_ ->]|[E _]]|Hf]; [by left|congruence|by right].
Qed.

Definition depth_below (d : nat) : Prop := forall q, is_Some (entries fs !! q) -> (length q <= d)%nat.

Lemma read_dir_plain k :
  entries fs !! k = Some EDir -> k ∉ denied fs ->
  read_dir other_mtime fs k inc = Ok (k, omap (dir_entry k inc) (children fs k)).
Proof.
  intros E Hd. unfold read_dir. rewrite (entry_at_plain fs k EDir E), decide_False by done.
  by rewrite (resolve_plain fs k EDir E).
Qed.

Lemma recursive_dir d fuel k prefix :
  depth_below d -> entries fs !! k = Some EDir -> k ∉ denied fs -> (d < length k + fuel)%nat ->
  exists files, recursive fuel k prefix = Some (Ok files) /\
    forall f, f ∈ files <-> exists rel i, Listed k rel i /\ f = listed_entry prefix k rel i.
Proof.
  intros Hdepth. revert k prefix. induction fuel as [|fuel IH]; intros k prefix E Hnd Hlen.
  { specialize (Hdepth k ltac:(eauto)). lia. }
  cbn [read_dir_recursive]. rewrite (entry_at_plain fs k EDir E), decide_False by done.
  rewrite (read_dir_plain k E Hnd). set (es := omap _ _).
  assert (Hes : forall e, e ∈ es <-> exists n, dir_entry k inc n = Some e).
  { intros e. unfold es. rewrite list_elem_of_omap. split; [intros (n & _ & He); eauto|].
    intros [n He]. exists n. split; [|done]. apply children_spec.
    apply dir_entry_some in He as (_ & _ & _ & e0 & He0 & _). eauto. }
  assert (Hsub : forall n e, dir_entry k inc n = Some e -> entry_type e = Dir ->
    exists tmp, recursive fuel (k ++ [name e]) (path_join prefix (name e)) = Some (Ok tmp) /\
      forall f, f ∈ tmp <-> exists rel i, Listed (k ++ [name e]) rel i
                             /\ f = listed_entry (path_join prefix (name e)) (k ++ [name e]) rel i).
  { intros n e He Ht. apply dir_entry_some in He as (_ & Hd & -> & e0 & He0 & Hty).
    destruct e0 as [i| |t]; [by subst| |destruct Hty; congruence].
    apply IH; [done..|]. rewrite length_app. cbn. lia. }
  destruct (list_entries_spec (recursive fuel) k prefix es) as (files & -> & Hf).
  { intros e [n He]%Hes Ht. destruct (Hsub n e He Ht) as (tmp & Htmp & _). eauto. }
  exists files. split; [done|]. intros f. rewrite Hf. split.
  - intros (e & [n He]%Hes & [[Ht ->]|[Ht (tmp & Htmp & Hin)]]).
    + apply dir_entry_some in He as (Hs & Hd & <- & e0 & He0 & Hty).
      destruct e0 as [i| |t]; [|congruence|destruct Hty; congruence]. exists [name e], i.
      split; [by constructor|]. unfold listed_entry. cbn. by rewrite Hty at 2 3 4.
    + destruct (Hsub n e He Ht) as (tmp' & E' & Hspec). rewrite Htmp in E'. injection E' as <-.
      apply Hspec in Hin as (rel & i & Hl & ->).
      apply dir_entry_some in He as (Hs & Hd & <- & e0 & He0 & Hty).
      destruct e0 as [j| |t]; [by subst; rewrite Hty in Ht| |destruct Hty; congruence].
      exists (name e :: rel), i. split; [by constructor|]. unfold listed_entry. cbn.
      rewrite <- app_assoc. f_equal. destruct rel; [by inversion Hl|done].
  - intros (rel & i & Hl & ->). inversion Hl as [k0 n i0 Hs Hd He|k0 n rel0 i0 Hs Hd He Hl0]; subst.
    + destruct (dir_entry_shown k n _ Hs Hd He) as [e Hde]. exists e. split; [apply Hes; eauto|].
      left. pose proof (dir_entry_some k n e Hde) as (_ & _ & Hn & e0 & He0 & Hty).
      rewrite He in He0. injection He0 as <-. by subst e.
    + destruct (dir_entry_shown k n _ Hs Hd He) as [e Hde]. exists e. split; [apply Hes; eauto|].
      pose proof (dir_entry_some k n e Hde) as (_ & _ & Hn & e0 & He0 & Hty).
      rewrite He in He0. injection He0 as <-. right. split; [done|].
      destruct (Hsub n e Hde Hty) as (tmp & Htmp & Hspec). exists tmp. split; [done|].
      apply Hspec. exists rel0, i. rewrite Hn. split; [done|]. unfold listed_entry. cbn.
      rewrite <- app_assoc. f_equal. destruct rel0; [by inversion Hl0|done].
Qed.

(** A link in last position is the directory it leads to. *)
Lemma recursive_resolved fuel k k' prefix :
  entry_at fs k = Some EDir -> resolve fs k = Some k' -> recursive fuel k prefix = recursive fuel k' prefix.
Proof.
  intros E Hr. destruct (resolve_dir fs k k' Hr E) as [Ek Hd]. destruct fuel as [|fuel]; [done|].
  cbn [read_dir_recursive]. rewrite E, (entry_at_plain fs k' EDir Ek), decide_False by done.
  rewrite (read_dir_plain k' Ek Hd). unfold read_dir. by rewrite E, Hr.
Qed.

Lemma fs_depth_below : depth_below (pred (fs_depth fs)).
Proof.
  intros q [e He]. unfold fs_depth. cbn [pred]. apply max_list_elem_of_le, list_elem_of_fmap.
  exists (q, e). split; [done|]. by apply elem_of_map_to_list.
Qed.
End Listing.

Lemma listing_spec other_mtime fs path inc :
  exists r, get_recursive_files other_mtime fs path inc = Some r /\
  match entry_at fs (key path), resolve fs (key path) with
  | Some EDir, Some k =>
      exists files, r = Ok files /\
        forall f, f ∈ files <->
          exists rel i, Listed fs inc k rel i /\ f = listed_entry other_mtime fs "" k rel i
  | Some (EFile i), _ =>
      r = Ok [mkFileEntry FileT "" false (lstat_len fs (EFile i))
                (lstat_mtime other_mtime fs (key path) (EFile i))]
  | _, _ => r = Err "Not exists"
  end.
Proof.
  unfold get_recursive_files. destruct (entry_at fs (key path)) as [[i| |t]|] eqn:E.
  - eexists. split; [|done]. unfold fs_depth. cbn [read_dir_recursive]. by rewrite E.
  - destruct (resolve fs (key path)) as [k|] eqn:Hr; [|unfold entry_at in E; by rewrite Hr in E].
    destruct (resolve_dir fs _ k Hr E) as [Ek Hd]. rewrite (recursive_resolved _ _ _ _ _ k) by done.
    destruct (recursive_dir other_mtime fs inc (pred (fs_depth fs)) (fs_depth fs) k "") as (files & -> & Hf);
      [apply fs_depth_below|done|done|unfold fs_depth; cbn; lia|].
    exists (Ok files). split; [done|]. exists files. done.
  - eexists. split; [|done]. unfold fs_depth. cbn [read_dir_recursive]. by rewrite E.
  - eexists. split; [|done]. unfold fs_depth. cbn [read_dir_recursive]. by rewrite E.
Qed.

(** C35: A folder is sent whole.  The listing always ends; of a directory it names
    exactly the regular files below it that can be reached through directories, not
    through links, none of them hidden unless hidden files were asked for, each by its
    path relative to the directory, with its size and time; of a file it names the
    file itself, with an empty name; anything else is an error. *)
Theorem listing_is_exact other_mtime fs path inc :
  exists r, get_recursive_files other_mtime fs path inc = Some r /\
  match entry_at fs (key path), resolve fs (key path) with
  | Some EDir, Some k =>
      exists files, r = Ok files /\
        forall f, f ∈ files <->
          exists rel i, Listed fs inc k rel i /\ f = listed_entry other_mtime fs "" k rel i
  | Some (EFile i), _ =>
      r = Ok [mkFileEntry FileT "" false (lstat_len fs (EFile i))
                (lstat_mtime other_mtime fs (key path) (EFile i))]
  | _, _ => r = Err "Not exists"
  end.
Proof. apply listing_spec. Qed.

(** ** What is listed is accepted *)

(** The names the system gives to entries. *)
Definition seg_ok (n : string) : Prop :=
  n <> "" /\ n <> "." /\ n <> ".." /\ has_slash n = false /\ has_nul n = false.

Definition well_named (fs : Fs) : Prop :=
  entries fs !! [] = None
  /\ forall q n, is_Some (entries fs !! (q ++ [n])) -> q ++ [n] = ["/"] \/ seg_ok n.

Lemma has_nul_app s t : has_nul (s +:+ t) = has_nul s || has_nul t.
Proof.
  induction s as [|a s IH]; [done|]. rewrite app_cons_string. unfold has_nul in *.
  cbn [String.list_ascii_of_string existsb]. by rewrite IH, orb_assoc.
Qed.

(** A path whose segments are names. *)
Definition plain_path (p : string) (segs : list string) : Prop :=
  split_on SLASH p = segs /\ segs <> [] /\ Forall seg_ok segs /\ has_nul p = false.

Lemma empty_not_ok segs : split_on SLASH "" = segs -> ~ Forall seg_ok segs.
Proof. intros <- H. apply Forall_cons in H as [(H & _) _]. by apply H. Qed.

Lemma plain_last p segs : plain_path p segs -> exists a, last_char p = Some a /\ Ascii.eqb a SLASH = false.
Proof.
  intros (Hs & Hne & Hok & _). destruct (last_char p) as [a|] eqn:E.
  - exists a. split; [done|]. destruct (Ascii.eqb a SLASH) eqn:Ea; [|done]. exfalso.
    apply Ascii.eqb_eq in Ea as ->. destruct (last_char_slash p E) as [p' ->].
    rewrite split_on_app in Hs. rewrite <- Hs in Hok. apply Forall_app in Hok as [_ Hok].
    by apply (empty_not_ok _ eq_refl) in Hok.
  - exfalso. apply last_char_none in E as ->. by apply (empty_not_ok segs Hs).
Qed.

Lemma plain_not_slash n : seg_ok n -> starts_with_char SLASH n = false.
Proof.
  intros (Hn & _ & _ & Hs & _). destruct n as [|a n]; [done|]. cbn in *.
  change (has_slash (String a n)) with (Ascii.eqb SLASH a || has_slash n) in Hs.
  apply orb_false_iff in Hs as [Hs _]. by rewrite Ascii.eqb_sym.
Qed.

Lemma plain_seg n : seg_ok n -> plain_path n [n].
Proof.
  intros H. pose proof H as (Hn & _ & _ & Hs & Hz). split_and!; try done.
  - by apply split_on_no_slash.
  - by apply Forall_singleton.
Qed.

Lemma plain_join p segs n : plain_path p segs -> seg_ok n -> plain_path (path_join p n) (segs ++ [n]).
Proof.
  intros Hp Hn. destruct (plain_last p segs Hp) as (a & Hl & Ha). destruct Hp as (Hs & Hne & Hok & Hz).
  pose proof Hn as (_ & _ & _ & Hsl & Hnz). unfold path_join. rewrite (plain_not_slash n Hn), Hl, Ha.
  change ("/" +:+ n) with (String SLASH n). split_and!.
  - by rewrite split_on_app, Hs, split_on_no_slash.
  - by destruct segs.
  - apply Forall_app. split; [done|]. by apply Forall_singleton.
  - rewrite has_nul_app, Hz. by apply Hnz.
Qed.

Lemma plain_foldl rel p segs :
  plain_path p segs -> Forall seg_ok rel -> plain_path (foldl path_join p rel) (segs ++ rel).
Proof.
  revert p segs. induction rel as [|n rel IH]; intros p segs Hp Hr; [by rewrite app_nil_r|].
  apply Forall_cons in Hr as [Hn Hr]. cbn [foldl].
  replace (segs ++ n :: rel) with ((segs ++ [n]) ++ rel) by (by rewrite <- app_assoc).
  apply IH; [by apply plain_join|done].
Qed.

Lemma plain_path_validates p segs : plain_path p segs -> p <> "" /\ validate_file_name_no_traversal p = Ok tt.
Proof.
  intros (Hs & Hne & Hok & Hz). split.
  { intros ->. by apply (empty_not_ok segs Hs). }
  unfold validate_file_name_no_traversal. rewrite Hz, Hs.
  destruct (existsb _ _) eqn:E.
  - exfalso. apply existsb_exists in E as (s & Hin & Es). apply String.eqb_eq in Es as <-.
    apply List.filter_In in Hin as [Hin _]. rewrite Forall_forall in Hok.
    by apply list_elem_of_In, Hok in Hin as (_ & _ & [] & _).
  - destruct (starts_with_char SLASH p) eqn:Ep; [|done]. exfalso.
    destruct p as [|a p]; [done|]. cbn in Ep. apply Ascii.eqb_eq in Ep as ->. cbn in Hs.
    subst segs. apply Forall_cons in Hok as [(H & _) _]. by apply H.
Qed.

Lemma plain_components p segs : plain_path p segs -> components p = Normal <$> segs.
Proof.
  intros Hp. destruct (plain_path_validates p segs Hp) as [Hne Hv]. destruct Hp as (Hs & _ & Hok & _).
  assert (Hslash : starts_with_char SLASH p = false).
  { unfold validate_file_name_no_traversal in Hv. by repeat case_match. }
  unfold components. rewrite Hslash, Hs.
  assert (Ho : omap seg_component segs = Normal <$> segs).
  { clear Hs. induction segs as [|s segs IH]; [done|]. apply Forall_cons in Hok as [Hs Hok].
    destruct Hs as (H1 & H2 & H3 & _). rewrite fmap_cons, <- (IH Hok). cbn. unfold seg_component at 1.
    by destruct (String.eqb_spec s ""), (String.eqb_spec s "."), (String.eqb_spec s ".."). }
  destruct segs as [|s segs]; [done|]. apply Forall_cons in Hok as [(_ & Hdot & _) _].
  destruct s as [|[[] [] [] [] [] [] [] []] s]; try exact Ho. by destruct s.
Qed.

Definition open_fs (fs : Fs) : Prop :=
  denied fs = ∅ /\ forall q t, entries fs !! q <> Some (ELink t).

Lemma open_check fs cur segs : open_fs fs -> check_components fs cur (Normal <$> segs) = Ok tt.
Proof.
  intros [Hd Hl]. revert cur. induction segs as [|s segs IH]; intros cur; [done|]. cbn.
  unfold symlink_metadata. rewrite Hd. rewrite decide_False by set_solver.
  destruct (entries fs !! key (path_join cur s)) as [[| |t]|] eqn:E; try apply IH. by destruct (Hl _ _ E).
Qed.

Lemma listed_segs fs inc k rel i :
  well_named fs -> k <> [] -> Listed fs inc k rel i -> rel <> [] /\ Forall seg_ok rel.
Proof.
  intros [_ Hw] Hk. induction 1 as [k n i Hs Hd He|k n rel i Hs Hd He Hl IH].
  - split; [done|]. apply Forall_singleton. destruct (Hw k n) as [E|]; [eauto| |done].
    destruct k as [|x [|]]; done.
  - split; [done|]. destruct IH as [_ IH]; [by destruct k|]. apply Forall_cons. split; [|done].
    destruct (Hw k n) as [E|]; [eauto| |done]. destruct k as [|x [|]]; done.
Qed.

Lemma listed_plain fs inc k rel i :
  well_named fs -> k <> [] -> Listed fs inc k rel i -> plain_path (foldl path_join "" rel) rel.
Proof.
  intros Hw Hk Hl. destruct (listed_segs fs inc k rel i Hw Hk Hl) as [Hne Hok].
  destruct rel as [|s rel]; [done|]. apply Forall_cons in Hok as [Hs Hok]. cbn [foldl].
  assert (path_join "" s = s) as -> by (unfold path_join; by case_match).
  apply (plain_foldl rel s [s]); [by apply plain_seg|done].
Qed.

(** The names of the files of a folder. *)
Lemma listed_names other_mtime fs path inc files :
  well_named fs -> entry_at fs (key path) = Some EDir ->
  get_recursive_files other_mtime fs path inc = Some (Ok files) ->
  Forall (fun x => exists segs, plain_path (name x) segs) files.
Proof.
  intros Hw He Hg. destruct (listing_spec other_mtime fs path inc) as (r & Hr & Hspec).
  rewrite Hg in Hr. injection Hr as <-. rewrite He in Hspec.
  destruct (resolve fs (key path)) as [k|] eqn:Hk; [|done].
  destruct (resolve_dir fs _ k Hk He) as [Ek _].
  assert (Hk0 : k <> []) by (intros ->; destruct Hw; congruence).
  destruct Hspec as (files' & [= <-] & Hin). apply Forall_forall. intros x Hx.
  apply Hin in Hx as (rel & i & Hl & ->). exists rel. by apply (listed_plain fs inc k rel i).
Qed.

Lemma plain_names_accepted files :
  Forall (fun x => exists segs, plain_path (name x) segs) files -> validate_transfer_file_names files = Ok tt.
Proof.
  intros Hall. assert (Hv : validate_each files = Ok tt).
  { induction Hall as [|x files [segs Hp] Hall IH]; [done|]. cbn.
    destruct (plain_path_validates _ _ Hp) as [Hne Hv].
    destruct (String.eqb_spec (name x) ""); [done|]. by rewrite Hv. }
  destruct files as [|x [|]]; try done. cbn in *. by destruct (String.eqb _ _).
Qed.

(** Both ends agree on names.  The list of files that a sender makes of a folder
    or of a file is accepted by a receiver, for any target directory: no name is
    empty, absolute, climbs up or holds a null byte, and nothing stands in the way
    when the receiver has no links and may look everywhere. *)
Theorem listing_is_accepted other_mtime fs path inc files base f2 id_ t remote_ n sh ir en :
  well_named fs -> get_recursive_files other_mtime fs path inc = Some (Ok files) -> open_fs f2 ->
  exists j, set_files f2 files (new_write id_ t remote_ (FilePath base) n sh ir en) = Ok j
    /\ FileTransfer.files j = files.
Proof.
  intros Hw Hg Hf. destruct (listing_spec other_mtime fs path inc) as (r & Hr & Hspec).
  rewrite Hg in Hr. injection Hr as <-.
  assert (Hcases : (exists f, files = [f] /\ name f = "") \/ Forall (fun x => exists segs, plain_path (name x) segs) files).
  { destruct (entry_at fs (key path)) as [[i| |tt']|] eqn:E; try done.
    - left. injection Hspec as ->. eauto.
    - right. by eapply listed_names. }
  unfold set_files. cbn [data_source new_write].
  destruct Hcases as [(f & -> & Hn)|Hall].
  - unfold validate_transfer_file_names. rewrite Hn. cbn. unfold validate_no_symlink_components.
    rewrite Hn. cbn. eauto.
  - assert (Hl : validate_all_no_symlink f2 base files = Ok tt).
    { clear Hg Hspec. induction Hall as [|x files [segs Hp] Hall IH]; [done|]. cbn. unfold validate_no_symlink_components.
      destruct (String.eqb_spec (name x) ""); cbn; [done|]. by rewrite (plain_components _ _ Hp), open_check. }
    rewrite (plain_names_accepted files Hall). cbn. rewrite Hl. cbn. eauto.
Qed.

(** ** Removing empty directories *)

(** Only directories and links below [k] have gone. *)
Definition pruned (k : list string) (f f' : Fs) : Prop :=
  inodes f' = inodes f /\ denied f' = denied f /\
  forall q, entries f' !! q = entries f !! q
    \/ entries f' !! q = None /\ (exists r, q = k ++ r)
       /\ match entries f !! q with Some (EFile _) => False | _ => True end.

Lemma pruned_refl k f : pruned k f f.
Proof. split_and!; auto. Qed.

Lemma pruned_trans k f1 f2 f3 : pruned k f1 f2 -> pruned k f2 f3 -> pruned k f1 f3.
Proof.
  intros (I1 & D1 & E1) (I2 & D2 & E2). split_and!; [congruence..|]. intros q.
  destruct (E2 q) as [->|(H2 & Hr & Hk)]; [apply E1|]. right. split_and!; [done..|].
  destruct (E1 q) as [<-|(H1 & _ & Hk1)]; done.
Qed.

Lemma pruned_weaken k n f f' : pruned (k ++ [n]) f f' -> pruned k f f'.
Proof.
  intros (I & D & E). split_and!; [done..|]. intros q.
  destruct (E q) as [|(H & [r ->] & Hk)]; [by left|]. right. split_and!; [done| |done].
  exists (n :: r). by rewrite <- app_assoc.
Qed.

Lemma pruned_delete k f e :
  entries f !! k = Some e -> (forall i, e <> EFile i) -> pruned k f (set_entries (delete k) f).
Proof.
  intros E Hf. split_and!; [done..|]. intros q. cbn. destruct (decide (q = k)) as [->|Hne].
  - right. rewrite lookup_delete_eq, E. split_and!; [done|exists []; by rewrite app_nil_r|].
    destruct e; try done. by destruct (Hf ino).
  - left. by rewrite lookup_delete_ne.
Qed.

Lemma pruned_sub k f f' q e : pruned k f f' -> entries f' !! q = Some e -> entries f !! q = Some e.
Proof. intros (_ & _ & E) H. destruct (E q) as [E'|[E' _]]; congruence. Qed.

Section Removal.
Variable other_mtime : Fs -> list string -> Z.

Lemma remove_link_pruned k f t :
  entries f !! k = Some (ELink t) ->
  pruned k f (exec (remove_entry k) f) /\ (k ∉ denied f -> entries (exec (remove_entry k) f) !! k = None).
Proof.
  intros E. unfold exec, remove_entry. case_decide; [split; [apply pruned_refl|done]|].
  rewrite E. cbn. split; [by apply (pruned_delete k f (ELink t))|].
  intros _. by rewrite lookup_delete_eq.
Qed.

Lemma remove_dir_pruned k f :
  pruned k f (exec (remove_dir k) f)
  /\ (k ∉ denied f -> entries f !! k = Some EDir -> (forall n, entries f !! (k ++ [n]) = None) ->
      entries (exec (remove_dir k) f) !! k = None).
Proof.
  unfold exec, remove_dir. case_decide; [split; [apply pruned_refl|done]|].
  destruct (entries f !! k) as [[i| |t]|] eqn:E; cbn;
    try (split; [apply pruned_refl|intros; congruence]).
  destruct (children f k) as [|n l] eqn:Ec; cbn.
  - split; [by apply (pruned_delete k f EDir)|]. intros. by rewrite lookup_delete_eq.
  - split; [apply pruned_refl|]. intros _ _ Hn. exfalso.
    assert (Hin : n ∈ children f k) by (rewrite Ec; by left).
    apply children_spec in Hin as [e He]. by rewrite Hn in He.
Qed.

(** Nothing below [k] is a file, out of reach or without a name. *)
Definition removable (k : list string) (f : Fs) : Prop :=
  forall r, k ++ r ∉ denied f
    /\ match entries f !! (k ++ r) with Some (EFile _) => False | _ => True end
    /\ (last r = Some "" -> entries f !! (k ++ r) = None).

(** Every entry is in a directory. *)
Definition tree (f : Fs) : Prop :=
  forall q n, q <> [] -> is_Some (entries f !! (q ++ [n])) -> entries f !! q = Some EDir.

Definition bound (d : nat) (f : Fs) : Prop := forall q, is_Some (entries f !! q) -> (length q <= d)%nat.

Lemma bound_pruned d k f f' : pruned k f f' -> bound d f -> bound d f'.
Proof. intros Hp Hb q [e He]. apply Hb. exists e. by eapply pruned_sub. Qed.

Lemma removable_sub k n f : removable k f -> removable (k ++ [n]) f.
Proof.
  intros H r. rewrite <- app_assoc. destruct (H ([n] ++ r)) as (H1 & H2 & H3). split_and!; [done..|].
  intros Hl. apply H3. cbn. destruct r; [done|]. by rewrite last_cons, Hl.
Qed.

Lemma removable_pruned k j f f' : pruned j f f' -> removable k f -> removable k f'.
Proof.
  intros (_ & D & E) H r. destruct (H r) as (H1 & H2 & H3). rewrite D.
  destruct (E (k ++ r)) as [->|[-> _]]; done.
Qed.

(** Below what is not a directory there is nothing. *)
Lemma tree_below f q r : tree f -> q <> [] -> entries f !! q <> Some EDir -> r <> [] -> entries f !! (q ++ r) = None.
Proof.
  intros Ht Hq Hn. induction r as [|n r IH] using rev_ind; intros Hr; [done|].
  destruct (entries f !! (q ++ r ++ [n])) as [e|] eqn:E; [|done]. exfalso.
  rewrite app_assoc in E. assert (Ed : entries f !! (q ++ r) = Some EDir).
  { eapply Ht; [by destruct q|eauto]. }
  destruct r as [|x r]; [by rewrite app_nil_r in Ed|]. by rewrite IH in Ed.
Qed.

Lemma tree_delete f k :
  tree f -> (forall n, entries f !! (k ++ [n]) = None) -> tree (set_entries (delete k) f).
Proof.
  intros Ht Hn q n Hq. cbn. intros [e [Hne He]%lookup_delete_Some].
  destruct (decide (q = k)) as [->|Hqk]; [by rewrite Hn in He|]. rewrite lookup_delete_ne by done.
  eapply Ht; eauto.
Qed.

Lemma remove_link_tree k f t :
  entries f !! k = Some (ELink t) -> k <> [] -> tree f -> tree (exec (remove_entry k) f).
Proof.
  intros E Hk Ht. unfold exec, remove_entry. case_decide; [done|]. rewrite E. apply tree_delete; [done|].
  intros n. apply tree_below; try done. congruence.
Qed.

Lemma remove_dir_tree k f : tree f -> tree (exec (remove_dir k) f).
Proof.
  intros Ht. unfold exec, remove_dir. case_decide; [done|].
  destruct (entries f !! k) as [[i| |t]|]; try done.
  destruct (children f k) eqn:Ec; [|done]. apply tree_delete; [done|].
  intros n. destruct (entries f !! (k ++ [n])) as [e|] eqn:E; [|done]. exfalso.
  assert (Hin : n ∈ children f k) by (apply children_spec; eauto).
  rewrite Ec in Hin. by apply elem_of_nil in Hin.
Qed.

(** What removing the tree at [q] does. *)
Definition removes (q : list string) (f f' : Fs) : Prop :=
  pruned q f f' /\ (tree f -> tree f')
  /\ (removable q f -> tree f -> forall r, entries f' !! (q ++ r) = None).

Definition gone (f : Fs) (q : list string) : Prop := entries f !! q = None.

Lemma removes_link k f t :
  entries f !! k = Some (ELink t) -> k <> [] -> removes k f (exec (remove_entry k) f).
Proof.
  intros E Hk. destruct (remove_link_pruned k f t E) as [Hp Hg]. split_and!; [done| |].
  - intros Ht. by eapply remove_link_tree.
  - intros Hr Ht r. destruct (decide (r = [])) as [->|Hne].
    + rewrite app_nil_r. apply Hg. destruct (Hr []) as [Hd _]. by rewrite app_nil_r in Hd.
    + destruct (entries (exec (remove_entry k) f) !! (k ++ r)) as [e|] eqn:Ee; [|done].
      apply (pruned_sub _ _ _ _ _ Hp) in Ee. rewrite (tree_below f k r) in Ee; try done. congruence.
Qed.

Lemma removes_none k f : k <> [] -> gone f k -> removes k f f.
Proof.
  intros Hk Hg. split_and!; [apply pruned_refl|done|]. intros _ Ht r.
  destruct (decide (r = [])) as [->|Hne]; [by rewrite app_nil_r|].
  apply tree_below; try done. unfold gone in Hg. congruence.
Qed.

(** The first removal keeps what the second needs. *)
Lemma removes_then k n f f1 f2 :
  removes (k ++ [n]) f f1 -> pruned k f1 f2 -> (tree f1 -> tree f2) ->
  pruned k f f2 /\ (tree f -> tree f2)
  /\ (removable k f -> tree f -> forall r, entries f2 !! (k ++ [n] ++ r) = None).
Proof.
  intros (Hp & Ht & Hg) Hp2 Ht2. split_and!; [|auto|].
  - eapply pruned_trans; [by eapply pruned_weaken|done].
  - intros Hr Htr r. specialize (Hg (removable_sub k n f Hr) Htr r). rewrite <- app_assoc in Hg.
    destruct (entries f2 !! (k ++ [n] ++ r)) as [e|] eqn:E; [|done].
    apply (pruned_sub _ _ _ _ _ Hp2) in E. congruence.
Qed.

Lemma remove_loop rec d fuel k es f :
  (forall q f, bound d f -> q <> [] -> entries f !! q = Some EDir \/ gone f q ->
     (0 < fuel)%nat -> (d < length q + fuel)%nat -> exists r f', rec q f = Some (r, f') /\ removes q f f') ->
  bound d f -> k <> [] -> (d < length k + S fuel)%nat -> (es <> [] -> length k < d)%nat ->
  (forall e, e ∈ es -> gone f (k ++ [name e]) \/
     match entry_type e with
     | Dir => entries f !! (k ++ [name e]) = Some EDir
     | DirLink | FileLink => exists t, entries f !! (k ++ [name e]) = Some (ELink t)
     | _ => True
     end) ->
  exists f', remove_entries rec k es f = Some f' /\ pruned k f f' /\ (tree f -> tree f')
    /\ (removable k f -> tree f -> forall e, e ∈ es -> entry_type e <> FileT -> entry_type e <> DirDrive ->
        forall r, entries f' !! (k ++ [name e] ++ r) = None).
Proof.
  intros Hrec Hb Hk Hlen Hd. revert f Hb. induction es as [|e es IH]; intros f Hb Hes.
  { exists f. split_and!; [done|apply pruned_refl|done|]. intros _ _ e He. by apply elem_of_nil in He. }
  assert (Hq : k ++ [name e] <> []) by (by destruct k).
  assert (Hstep : exists f1, (match entry_type e with
             | Dir => '(_, fs) ← rec (k ++ [name e]) f; Some fs
             | DirLink | FileLink => Some (exec (remove_entry (k ++ [name e])) f)
             | _ => Some f end) = Some f1
           /\ (entry_type e <> FileT -> entry_type e <> DirDrive -> removes (k ++ [name e]) f f1)
           /\ pruned (k ++ [name e]) f f1 /\ (tree f -> tree f1)).
  { assert (Hlink : (gone f (k ++ [name e]) \/ exists t, entries f !! (k ++ [name e]) = Some (ELink t)) ->
              removes (k ++ [name e]) f (exec (remove_entry (k ++ [name e])) f)).
    { intros [Hg|[t Ht]]; [|by eapply removes_link].
      assert (exec (remove_entry (k ++ [name e])) f = f) as ->.
      { unfold exec, remove_entry. case_decide; [done|]. unfold gone in Hg. by rewrite Hg. }
      by apply removes_none. }
    destruct (Hes e) as [Hg|He]; [by left| |]; destruct (entry_type e).
    all: try (exists f; split_and!; [done|done|apply pruned_refl|done]).
    all: try (eexists; split; [done|]; pose proof (Hlink ltac:(auto)) as Hr; split; [done|];
              destruct Hr as (? & ? & _); done).
    all: destruct (Hrec (k ++ [name e]) f) as (r & f1 & -> & Hr); [done|done|auto|specialize (Hd ltac:(done)); lia|rewrite length_app; cbn; lia|].
    all: exists f1; split; [done|]; split; [done|]; destruct Hr as (? & ? & _); done. }
  destruct Hstep as (f1 & E1 & Hr1 & Hp1 & Ht1). cbn [remove_entries]. rewrite E1. cbn.
  pose proof (pruned_weaken _ _ _ _ Hp1) as Hp1'.
  destruct (IH (fun _ => Hd ltac:(done)) f1) as (f2 & E2 & Hp2 & Ht2 & Hg2); [by eapply bound_pruned| |].
  { intros e' He'. destruct (entries f1 !! (k ++ [name e'])) as [x|] eqn:Ex; [|by left].
    pose proof (pruned_sub _ _ _ _ _ Hp1 Ex) as Ex0. right.
    destruct (Hes e') as [Hg|Hm]; [by right|unfold gone in Hg; congruence|].
    destruct (entry_type e'); try done; [congruence|..]; destruct Hm as [t Ht]; exists t; congruence. }
  exists f2. split; [done|]. split; [by eapply pruned_trans|]. split; [auto|].
  intros Hr Ht e' [->|He']%elem_of_cons Hn1 Hn2 r.
  - destruct (removes_then k (name e) f f1 f2 (Hr1 Hn1 Hn2) Hp2 Ht2) as (_ & _ & Hg).
    by apply Hg.
  - apply Hg2; auto. by eapply removable_pruned.
Qed.

Lemma remove_removes d fuel k f :
  bound d f -> k <> [] -> entries f !! k = Some EDir \/ gone f k -> (0 < fuel)%nat ->
  (d < length k + fuel)%nat ->
  exists r f', remove_all_empty_dir other_mtime fuel k f = Some (r, f') /\ removes k f f'.
Proof.
  revert k f. induction fuel as [|fuel IH]; intros k f Hb Hk Hc Hf Hlen; [lia|]. cbn [remove_all_empty_dir].
  destruct Hc as [Hc|Hg].
  2: { unfold read_dir, entry_at, resolve. cbn [follow]. unfold gone in Hg. rewrite Hg.
       case_decide; rewrite ?Hg; eexists _, f; (split; [done|]); by apply removes_none. }
  destruct (decide (k ∈ denied f)) as [Hden|Hnd].
  { unfold read_dir. rewrite (entry_at_plain f k EDir Hc), decide_True by done.
    eexists _, f. split; [done|]. split_and!; [apply pruned_refl|done|].
    intros Hr. destruct (Hr []) as [Hd _]. by rewrite app_nil_r in Hd. }
  rewrite (read_dir_plain other_mtime f true k Hc Hnd). set (es := omap _ _).
  assert (Hes : forall e, e ∈ es -> exists n, dir_entry other_mtime f k true n = Some e).
  { intros e He. unfold es in He. apply list_elem_of_omap in He as (n & _ & He). eauto. }
  destruct (remove_loop (remove_all_empty_dir other_mtime fuel) d fuel k es f)
    as (f1 & -> & Hp1 & Ht1 & Hg1); [intros; by apply IH|done|done|done| | |].
  { intros Hne. destruct es as [|e es'] eqn:Ees; [done|].
    destruct (Hes e) as [n Hn]; [by left|]. apply dir_entry_some in Hn as (_ & _ & _ & e0 & He0 & _).
    specialize (Hb (k ++ [n]) ltac:(eauto)). rewrite length_app in Hb. cbn in Hb. lia. }
  { intros e [n Hn]%Hes. apply dir_entry_some in Hn as (_ & _ & <- & e0 & He0 & Hty). right.
    destruct e0 as [i| |t]; [by rewrite Hty|by rewrite Hty|destruct Hty as [-> | ->]; eauto]. }
  cbn. eexists _, _. split; [done|]. destruct (remove_dir_pruned k f1) as [Hp2 Hg2].
  pose proof (pruned_trans _ _ _ _ Hp1 Hp2) as Hp. split_and!; [done| |].
  { intros Ht. by apply remove_dir_tree, Ht1. }
  intros Hr Ht.
  assert (Hbelow : forall r, r <> [] -> entries f1 !! (k ++ r) = None).
  { intros r Hne. destruct (entries f1 !! (k ++ r)) as [x|] eqn:Ex; [|done]. exfalso.
    pose proof (pruned_sub _ _ _ _ _ Hp1 Ex) as Ex0. destruct r as [|n r]; [done|].
    assert (Hn : exists e0, entries f !! (k ++ [n]) = Some e0).
    { destruct (entries f !! (k ++ [n])) as [e0|] eqn:E0; [eauto|]. exfalso.
      destruct r as [|m r]; [congruence|].
      change (k ++ n :: m :: r) with (k ++ [n] ++ m :: r) in Ex0. rewrite app_assoc in Ex0.
      rewrite tree_below in Ex0; try done; [by destruct k|congruence]. }
    destruct Hn as [e0 E0]. destruct (Hr [n]) as (Hd & Hfile & Hname). rewrite E0 in Hfile.
    assert (n <> "") by (intros ->; rewrite Hname in E0; done).
    destruct (dir_entry_shown other_mtime f true k n e0) as [e He]; [by split|done|done|].
    pose proof (dir_entry_some other_mtime f true k n e He) as (_ & _ & Hname' & e1 & E1 & Hty).
    rewrite E0 in E1. injection E1 as <-.
    assert (Hin : e ∈ es).
    { unfold es. apply list_elem_of_omap. exists n. split; [|done]. apply children_spec. eauto. }
    specialize (Hg1 Hr Ht e Hin). rewrite Hname' in Hg1.
    change (k ++ n :: r) with (k ++ [n] ++ r) in Ex. rewrite Hg1 in Ex; [done|..];
      destruct e0; try done; try (destruct Hty as [E|E]; rewrite E; done); by rewrite Hty. }
  intros r. destruct (decide (r = [])) as [->|Hne].
  - rewrite app_nil_r. destruct (entries f1 !! k) as [x|] eqn:Ex.
    + apply Hg2.
      * destruct Hp1 as (_ & -> & _). done.
      * pose proof (pruned_sub _ _ _ _ _ Hp1 Ex) as Ex0. congruence.
      * intros n. by apply Hbelow.
    + destruct (entries (exec (remove_dir k) f1) !! k) as [y|] eqn:Ey; [|done].
      apply (pruned_sub _ _ _ _ _ Hp2) in Ey. congruence.
  - destruct (entries (exec (remove_dir k) f1) !! (k ++ r)) as [y|] eqn:Ey; [|done].
    apply (pruned_sub _ _ _ _ _ Hp2) in Ey. by rewrite Hbelow in Ey.
Qed.

(** Deleting a folder never deletes a file.  Asked to remove a directory, the
    program always ends; it deletes only directories and links at or below it, and
    never a file or anything elsewhere; and when there are no files below it and
    everything is in reach, nothing of it is left. *)
Theorem only_empty_dirs_go fs k :
  entries fs !! k = Some EDir -> k <> [] ->
  exists r fs', remove_all_empty_dir other_mtime (fs_depth fs) k fs = Some (r, fs')
    /\ inodes fs' = inodes fs
    /\ (forall q, entries fs' !! q = entries fs !! q
          \/ entries fs' !! q = None /\ (exists s, q = k ++ s)
             /\ match entries fs !! q with Some (EFile _) => False | _ => True end)
    /\ (removable k fs -> tree fs -> forall s, entries fs' !! (k ++ s) = None).
Proof.
  intros E Hk. pose proof (fs_depth_below fs) as Hb.
  destruct (remove_removes (pred (fs_depth fs)) (fs_depth fs) k fs) as (r & f' & Hr & (Hi & _ & He) & _ & Hg);
    [exact Hb|done|by left|unfold fs_depth; lia|unfold fs_depth; cbn; lia|].
  exists r, f'. split_and!; done.
Qed.
End Removal.

(** ** Concrete inputs *)

Definition ex_fs : Fs :=
  mkFs {[ ["/"] := EDir; ["/"; "d"] := EDir; ["/"; "d"; "a"] := EFile 0; ["/"; "d"; "e"] := EDir;
          ["/"; "d"; "e"; "b"] := EFile 1; ["/"; "d"; "l"] := ELink "/x";
          ["/"; "t"] := EDir; ["/"; "t"; "s"] := EDir; ["/"; "t"; "l"] := ELink "/d" ]}
    {[ 0%nat := mkInode [x61] 5; 1%nat := mkInode [] 6 ]} 2 ∅ 7.
Definition no_mtime : Fs -> list string -> Z := fun _ _ => 0.

Lemma ex_fs_keys q :
  is_Some (entries ex_fs !! q) ->
  q ∈ [["/"]; ["/"; "d"]; ["/"; "d"; "a"]; ["/"; "d"; "e"]; ["/"; "d"; "e"; "b"]; ["/"; "d"; "l"];
       ["/"; "t"]; ["/"; "t"; "s"]; ["/"; "t"; "l"]].
Proof.
  intros [e He]. apply elem_of_map_to_list in He.
  assert (Hm : map fst (map_to_list (entries ex_fs))
    ⊆ [["/"]; ["/"; "d"]; ["/"; "d"; "a"]; ["/"; "d"; "e"]; ["/"; "d"; "e"; "b"]; ["/"; "d"; "l"];
       ["/"; "t"]; ["/"; "t"; "s"]; ["/"; "t"; "l"]]).
  { apply (bool_decide_unpack _). vm_compute. exact I. }
  apply Hm, list_elem_of_fmap. by exists (q, e).
Qed.

Lemma ex_well_named : well_named ex_fs.
Proof.
  split; [done|]. intros q n Hq%ex_fs_keys.
  repeat (apply elem_of_cons in Hq as [Hq|Hq]; [|]); try (by apply elem_of_nil in Hq).
  1: by left. all: right; destruct q as [|a [|b [|c [|d q]]]]; simplify_eq/=;
    try (split_and!; done); by destruct q.
Qed.

Lemma listing_is_accepted_witness :
  let files := [mkFileEntry FileT "e/b" false 0 6; mkFileEntry FileT "a" false 1 5] in
  get_recursive_files no_mtime ex_fs "/d" false = Some (Ok files) /\
  exists j, set_files (mkFs ∅ ∅ 0 ∅ 0) files
              (new_write 1 Generic "" (FilePath "/home") 0 false true true) = Ok j
    /\ FileTransfer.files j = files.
Proof.
  assert (Hg : get_recursive_files no_mtime ex_fs "/d" false
    = Some (Ok [mkFileEntry FileT "e/b" false 0 6; mkFileEntry FileT "a" false 1 5])).
  { vm_compute. reflexivity. }
  split; [exact Hg|]. apply (listing_is_accepted no_mtime ex_fs "/d" false);
    [exact ex_well_named|exact Hg|]. split; [reflexivity|]. intros q t. cbn. by rewrite lookup_empty.
Defined.

Lemma only_empty_dirs_go_witness :
  exists r fs', remove_all_empty_dir no_mtime (fs_depth ex_fs) ["/"; "t"] ex_fs = Some (r, fs')
    /\ entries fs' !! ["/"; "t"] = None /\ entries fs' !! ["/"; "d"] = Some EDir
    /\ forall q, entries fs' !! q = entries ex_fs !! q
          \/ entries fs' !! q = None /\ (exists s, q = ["/"; "t"] ++ s)
             /\ match entries ex_fs !! q with Some (EFile _) => False | _ => True end.
Proof.
  destruct (only_empty_dirs_go no_mtime ex_fs ["/"; "t"]) as (r & fs' & E & _ & H & _); [reflexivity|done|].
  exists r, fs'. split; [exact E|]. vm_compute in E. injection E as _ Ef. split; [|split; [|exact H]];
    rewrite <- Ef; vm_compute; reflexivity.
Defined.
