(* ===== verification/CmFiles.v ===== *)
(** * The files of the connection manager (src/ui_cm_interface.rs)

    The connection hands the file requests of its peer to the connection manager, which
    runs in the user's session ([ipc::FS]); it keeps the jobs that receive files and, for
    builds whose connections may not read the user's files, the jobs that send them.
    [handle_fs] is one request, [handle_read_jobs_tick] one beat of the file timer.

    What is sent back is the list [out] of the [Data] put on the channel to the
    connection; sending there never blocks, and its failures are only logged. *)

From S2P Require Import Prelude OsFs PathFacts Compress FileTransfer FsDirs TransferSafety.

(** ** Data *)

(** [ipc::FS]. *)
Inductive FsRequest : Type :=
| ReadEmptyDirs (dir : string) (include_hidden : bool)
| ReadDir (dir : string) (include_hidden : bool)
| RemoveDir (path : string) (id : Z) (recursive : bool)
| RemoveFile (path : string) (id file_num : Z)
| CreateDir (path : string) (id : Z)
| NewWrite (path : string) (id file_num : Z) (files : list (string * Z))
    (overwrite_detection : bool) (total_size conn_id : Z)
| CancelWrite (id : Z)
| WriteBlock (id file_num : Z) (data : list byte) (compressed : bool)
| WriteDone (id file_num : Z)
| WriteError (id file_num : Z) (err : string)
| CheckDigest (id file_num file_size last_modified : Z) (is_upload is_resume : bool)
| SendConfirm (r : option FileTransferSendConfirmRequest)   (* [None]: it does not parse *)
| Rename (id : Z) (path new_name : string)
| ReadFile (path : string) (id file_num : Z) (include_hidden : bool) (conn_id : Z)
    (overwrite_detection : bool)
| CancelRead (id : Z)
| SendConfirmForRead (id : Z) (skip : bool) (offset_blk : Z)
| ReadAllFiles (path : string) (id : Z) (include_hidden : bool) (conn_id : Z).

(** [ipc::Data], as far as file requests are answered with it. *)
Inductive CmData : Type :=
| RawMessage (m : Message)
| RawDir (fd : FileDirectory)
| RawEmptyDirs (path : string) (dirs : list FileDirectory)
| RawDigest (d : FileTransferDigest) (is_upload : bool)
| ReadJobInitResult (id file_num : Z) (include_hidden : bool) (conn_id : Z)
    (r : result string FileDirectory)
| FileBlockFromCM (b : FileTransferBlock) (conn_id : Z)
| FileReadError (id file_num : Z) (err : string) (conn_id : Z)
| FileReadDone (id file_num conn_id : Z)
| FileDigestFromCM (id file_num last_modified file_size : Z) (is_resume : bool) (conn_id : Z)
| AllFilesResult (id conn_id : Z) (path : string) (r : result string FileDirectory).

(** [serialize_transfer_job]: the job, whether it is done or cancelled, the error. *)
Inductive CmLog : Type := TransferLog (j : TransferJob) (done cancel : bool) (err : string).

Record Cm : Type := mkCm {
  write_jobs : list TransferJob;
  read_jobs : list TransferJob;
  cm_fs : Fs;
  out : list CmData;
  logs : list CmLog
}.

Definition with_writes (l : list TransferJob) (s : Cm) : Cm := mkCm l (read_jobs s) (cm_fs s) (out s) (logs s).
Definition with_reads (l : list TransferJob) (s : Cm) : Cm := mkCm (write_jobs s) l (cm_fs s) (out s) (logs s).
Definition with_fs (f : Fs) (s : Cm) : Cm := mkCm (write_jobs s) (read_jobs s) f (out s) (logs s).
Definition tell (d : CmData) (s : Cm) : Cm := mkCm (write_jobs s) (read_jobs s) (cm_fs s) (out s ++ [d]) (logs s).
Definition note (l : CmLog) (s : Cm) : Cm := mkCm (write_jobs s) (read_jobs s) (cm_fs s) (out s) (logs s ++ [l]).
Definition send_raw (m : Message) (s : Cm) : Cm := tell (RawMessage m) s.

(** Replace the first job with this id, the one that [get_job] found. *)
Fixpoint put_back (id_ : Z) (j' : TransferJob) (jobs : list TransferJob) : list TransferJob :=
  match jobs with
  | [] => []
  | j :: jobs => if id j =? id_ then j' :: jobs else j :: put_back id_ j' jobs
  end.

Definition with_conn_id (v : Z) (j : TransferJob) : TransferJob :=
  mkTransferJob (id j) (ty j) (remote j) (data_source j) (show_hidden j) (is_remote j)
    (is_last_job j) (is_resume j) (file_num j) (files j) v (data_stream j) (total_size j)
    (finished_size j) (transferred j) (enable_overwrite_detection j) (file_confirmed j)
    (file_skipped j) (file_is_waiting j) (default_overwrite_strategy j) (digest j).

(** An operation on a job, which talks to no peer. *)
Definition run_job {A} (m : JobM A) (j : TransferJob) (f : Fs) : result string A * TransferJob * Fs :=
  let '(r, (j, e)) := m (j, mkEnv f (mkNet [] false)) in (r, j, fs e).

Section Cm.
Context `{Zstd}.
Context (digest_to_json : FileDigest -> list byte)
        (digest_from_json : list byte -> option FileDigest).
Context (short : Z -> nat).
Variable other_mtime : Fs -> list string -> Z.
Variable home : string.                     (* [Config::get_home] *)
(** The number in the option [file-transfer-max-files], if it is one. *)
Variable max_files_option : option Z.

Definition DEFAULT_MAX_VALIDATED_FILES : Z := 10000.

Definition get_max_validated_files : Z :=
  let c := default USIZE_MAX max_files_option in
  if c =? 0 then DEFAULT_MAX_VALIDATED_FILES else c.

Definition check_file_count_limit (file_count : Z) : result string unit :=
  if get_max_validated_files <? file_count
  then Err "file transfer rejected: too many files" else Ok tt.

(** *** Requests that are answered at once *)

Definition handle_result (r : result string unit) (id file_num : Z) (s : Cm) : Cm :=
  match r with
  | Err err => send_raw (new_error id err file_num) s
  | Ok _ => send_raw (new_done id file_num) s
  end.

Definition cm_remove_file (path : string) (id file_num : Z) (s : Cm) : Cm :=
  let '(r, f) := fs_remove_file path (cm_fs s) in handle_result r id file_num (with_fs f s).

Definition cm_create_dir (path : string) (id : Z) (s : Cm) : Cm :=
  let '(r, f) := fs_create_dir path (cm_fs s) in handle_result r id 0 (with_fs f s).

Definition cm_rename_file (path new_name : string) (id : Z) (s : Cm) : Cm :=
  let '(r, f) := rename_file path new_name (cm_fs s) in handle_result r id 0 (with_fs f s).

Definition cm_remove_dir (path : string) (id : Z) (recursive : bool) (s : Cm) : Cm :=
  if recursive then
    match remove_all_empty_dir other_mtime (fs_depth (cm_fs s)) (key path) (cm_fs s) with
    | Some (r, f) => handle_result r id 0 (with_fs f s)
    | None => s
    end
  else let '(r, f) := remove_dir (key path) (cm_fs s) in handle_result (io_result r) id 0 (with_fs f s).

Definition cm_read_dir (dir : string) (include_hidden : bool) (s : Cm) : Cm :=
  let path := if String.eqb dir "" then home else dir in
  match read_dir other_mtime (cm_fs s) (key path) include_hidden with
  | Ok (_, es) => tell (RawDir (mkFileDirectory path es)) s
  | Err _ => s
  end.

Definition cm_read_empty_dirs (dir : string) (include_hidden : bool) (s : Cm) : Cm :=
  match get_empty_dirs_recursive other_mtime (cm_fs s) dir include_hidden with
  | Some (Ok dirs) => tell (RawEmptyDirs dir dirs) s
  | _ => s
  end.

Definition read_all_files (path : string) (include_hidden : bool) (id conn_id : Z) (s : Cm) : Cm :=
  match get_recursive_files other_mtime (cm_fs s) path include_hidden with
  | Some r =>
      tell (AllFilesResult id conn_id path
              (let? files := r in
               let? _ := check_file_count_limit (len files) in
               Ok (mkFileDirectory path files))) s
  | None => s
  end.

Definition start_read_job (path : string) (file_num : Z) (include_hidden : bool) (id conn_id_ : Z)
    (overwrite_detection : bool) (s : Cm) : Cm :=
  match new_read other_mtime (cm_fs s) id Generic "" (FilePath path) file_num include_hidden true
          overwrite_detection with
  | Some (Ok job) =>
      match check_file_count_limit (len (files job)) with
      | Err msg => tell (ReadJobInitResult id file_num include_hidden conn_id_ (Err msg)) s
      | Ok _ =>
          let s := tell (ReadJobInitResult id file_num include_hidden conn_id_
                           (Ok (mkFileDirectory path (files job)))) s in
          with_reads (read_jobs s ++ [with_conn_id conn_id_ job]) s
      end
  | Some (Err e) =>
      tell (ReadJobInitResult id file_num include_hidden conn_id_ (Err ("validation failed: " +:+ e))) s
  | None => s
  end.

(** *** The jobs that receive *)

Definition new_write_job (path : string) (id file_num : Z) (files : list (string * Z))
    (overwrite_detection : bool) (total_size conn_id_ : Z) (s : Cm) : Cm :=
  let file_entries := map (fun '(n, t) => mkFileEntry Dir n false 0 t) files in
  let job := new_write id Generic "" (FilePath path) file_num false false overwrite_detection in
  match set_files (cm_fs s) file_entries job with
  | Err e => send_raw (new_error id e file_num) s
  | Ok job =>
      with_writes (write_jobs s ++ [with_conn_id conn_id_ (with_total_size total_size job)]) s
  end.

Definition cancel_write (id : Z) (s : Cm) : Cm :=
  match remove_job id (write_jobs s) with
  | (Some job, jobs) =>
      note (TransferLog job false true "")
        (with_fs (remove_download_file job (cm_fs s)) (with_writes jobs s))
  | (None, _) => s
  end.

Definition write_done (id file_num : Z) (s : Cm) : Cm :=
  match remove_job id (write_jobs s) with
  | (Some job, jobs) =>
      note (TransferLog job true false "")
        (send_raw (new_done id file_num) (with_fs (modify_time job (cm_fs s)) (with_writes jobs s)))
  | (None, _) => s
  end.

Definition write_error (id_ file_num : Z) (err : string) (s : Cm) : Cm :=
  match remove_job id_ (write_jobs s) with
  | (Some job, jobs) =>
      send_raw (new_error (id job) err file_num)
        (note (TransferLog job false false err) (with_writes jobs s))
  | (None, _) => s
  end.

Definition write_block (id file_num : Z) (data : list byte) (compressed : bool) (s : Cm) : Cm :=
  match find_job id (write_jobs s) with
  | None => s
  | Some job =>
      let '(r, job, f) :=
        run_job (write digest_to_json (mkBlock id file_num data compressed)) job (cm_fs s) in
      let s := with_fs f (with_writes (put_back id job (write_jobs s)) s) in
      match r with
      | Ok _ => s
      | Err err => send_raw (new_error id err file_num) s
      end
  end.

Definition check_digest (id file_num file_size last_modified : Z) (is_upload is_resume : bool) (s : Cm)
  : Cm :=
  match find_job id (write_jobs s) with
  | None => s
  | Some job =>
      match entry_of job (as_usize file_num), data_source job with
      | Some file, FilePath p =>
          let digest := mkDigest id file_num last_modified file_size false 0 false in
          match is_write_need_confirmation digest_from_json (cm_fs s) is_resume (join p (name file)) digest with
          | Err err => send_raw (new_error id err file_num) s
          | Ok r =>
              let s := with_writes (put_back id (set_digest file_size last_modified job) (write_jobs s)) s in
              match r with
              | IsSame => send_raw (new_send_confirm (mkConfirm id file_num (Some (Skip true)))) s
              | NeedConfirm d => tell (RawDigest d is_upload) s
              | NoSuchFile => send_raw (new_send_confirm (mkConfirm id file_num (Some (OffsetBlk 0)))) s
              end
          end
      | _, _ => s
      end
  end.

Definition send_confirm (r : FileTransferSendConfirmRequest) (s : Cm) : Cm :=
  match find_job (cf_id r) (write_jobs s) with
  | None => s
  | Some job =>
      let '(_, job, f) := run_job (confirm r) job (cm_fs s) in
      with_fs f (with_writes (put_back (cf_id r) job (write_jobs s)) s)
  end.

(** *** The jobs that send *)

Definition cancel_read (id : Z) (s : Cm) : Cm :=
  match remove_job id (read_jobs s) with
  | (Some job, jobs) => note (TransferLog job false true "") (with_reads jobs s)
  | (None, _) => s
  end.

Definition send_confirm_for_read (id : Z) (skip : bool) (offset_blk : Z) (s : Cm) : Cm :=
  match find_job id (read_jobs s) with
  | None => s
  | Some job =>
      let req := mkConfirm id (file_num job)
                   (Some (if skip then Skip true else OffsetBlk offset_blk)) in
      let '(_, job, f) := run_job (confirm req) job (cm_fs s) in
      with_fs f (with_reads (put_back id job (read_jobs s)) s)
  end.

Definition handle_fs (r : FsRequest) (s : Cm) : Cm :=
  match r with
  | ReadEmptyDirs dir h => cm_read_empty_dirs dir h s
  | ReadDir dir h => cm_read_dir dir h s
  | RemoveDir path id recursive => cm_remove_dir path id recursive s
  | RemoveFile path id n => cm_remove_file path id n s
  | CreateDir path id => cm_create_dir path id s
  | NewWrite path id n fl od total conn => new_write_job path id n fl od total conn s
  | CancelWrite id => cancel_write id s
  | WriteDone id n => write_done id n s
  | WriteError id n err => write_error id n err s
  | WriteBlock id n data c => write_block id n data c s
  | CheckDigest id n size modified up resume => check_digest id n size modified up resume s
  | SendConfirm (Some r) => send_confirm r s
  | SendConfirm None => s
  | Rename id path new_name => cm_rename_file path new_name id s
  | ReadFile path id n h conn od => start_read_job path n h id conn od s
  | CancelRead id => cancel_read id s
  | SendConfirmForRead id skip offset => send_confirm_for_read id skip offset s
  | ReadAllFiles path id h conn => read_all_files path h id conn s
  end.

(** [init_read_job_for_cm]. *)
Definition init_read_job_for_cm (conn_id : Z) (j : TransferJob) (f : Fs)
  : result string (list CmData) * TransferJob * Fs :=
  match run_job (init_data_stream_for_cm) j f with
  | (Err e, j, f) => (Err e, j, f)
  | (Ok (Some (last_modified, file_size)), j, f) =>
      (Ok [FileDigestFromCM (id j) (file_num j) last_modified file_size (is_resume j) conn_id], j, f)
  | (Ok None, j, f) => (Ok [], j, f)
  end.

(** What one beat does with the first job that can start. *)
Definition tick_job (conn_id : Z) (j : TransferJob) (f : Fs) : list CmData * bool * TransferJob * Fs :=
  match run_job (read short) j f with
  | (Err err, j, f) => ([FileReadError (id j) (file_num j) err conn_id], true, j, f)
  | (Ok (Some block), j, f) => ([FileBlockFromCM block conn_id], false, j, f)
  | (Ok None, j, f) =>
      if job_completed j then
        ([match job_error j with
          | Some err => FileReadError (id j) (file_num j) err conn_id
          | None => FileReadDone (id j) (file_num j) conn_id
          end], true, j, f)
      else ([], false, j, f)
  end.

(** The loop: what is said, the ids that are finished, the jobs. *)
Fixpoint tick_jobs (conn_id : Z) (jobs : list TransferJob) (f : Fs)
  : list CmData * list Z * list TransferJob * Fs :=
  match jobs with
  | [] => ([], [], [], f)
  | j :: jobs =>
      if is_last_job j then
        let '(o, fin, jobs, f) := tick_jobs conn_id jobs f in (o, fin, j :: jobs, f)
      else
        match init_read_job_for_cm conn_id j f with
        | (Err err, j, f) =>
            let '(o, fin, jobs, f) := tick_jobs conn_id jobs f in
            (FileReadError (id j) (file_num j) err conn_id :: o, id j :: fin, j :: jobs, f)
        | (Ok o1, j, f) =>
            let '(o2, done, j, f) := tick_job conn_id j f in
            (o1 ++ o2, if done : bool then [id j] else [], j :: jobs, f)
        end
  end.

Definition handle_read_jobs_tick (conn_id : Z) (jobs : list TransferJob) (f : Fs)
  : list CmData * list TransferJob * Fs :=
  let '(o, fin, jobs, f) := tick_jobs conn_id jobs f in
  (o, fold_left (fun jobs id => snd (remove_job id jobs)) fin jobs, f).
End Cm.

(** ** Operations that only read *)

(** Nothing is written, and the peer's connection does not matter. *)
Definition reads {A} (m : JobM A) : Prop := forall j f,
  exists r j', forall n, m (j, mkEnv f n) = (r, (j', mkEnv f n)).

Lemma reads_ret {A} (a : A) : reads (mret a).
Proof. intros j f. by exists (Ok a), j. Qed.
Lemma reads_fail {A} err : reads (@st_fail _ _ A err).
Proof. intros j f. by exists (Err err), j. Qed.
Lemma reads_get_job : reads get_job.
Proof. intros j f. by exists (Ok j), j. Qed.
Lemma reads_get_fs : reads get_fs.
Proof. intros j f. by exists (Ok f), j. Qed.
Lemma reads_put_job g : reads (put_job g).
Proof. intros j f. by exists (Ok tt), (g j). Qed.

Lemma reads_bind {A B} (m : JobM A) (k : A -> JobM B) :
  reads m -> (forall a, reads (k a)) -> reads (m ≫= k).
Proof.
  intros Hm Hk j f. destruct (Hm j f) as (r & j1 & E). unfold mbind, st_mbind, st_bind.
  destruct r as [a|err].
  - destruct (Hk a j1 f) as (r2 & j2 & E2). exists r2, j2. intros n. rewrite E. apply E2.
  - exists (Err err), j1. intros n. by rewrite E.
Qed.

Lemma reads_try {A} (m : JobM A) : reads m -> reads (st_try m).
Proof.
  intros Hm j f. destruct (Hm j f) as (r & j1 & E). exists (Ok r), j1. intros n.
  unfold st_try. by rewrite E.
Qed.

Lemma reads_open p : reads (lift_io (open_read p)).
Proof.
  intros j f. unfold lift_io, open_read. cbn.
  destruct (entry_at f (key p)) as [[]|]; cbn; eexists _, j; intros n; reflexivity.
Qed.

Create HintDb reads discriminated.
#[export] Hint Resolve reads_ret reads_fail reads_get_job reads_get_fs reads_put_job reads_try
  reads_open : reads.

(** Sequences, matches and tests of reading operations. *)
Ltac reads_step :=
  match goal with
  | |- reads (_ ≫= _) => apply reads_bind; [|intros]
  | |- reads (let '(_, _) := ?x in _) => destruct x
  | |- reads (match ?x with _ => _ end) => destruct x
  | |- _ => solve [eauto with reads]
  end.

Lemma reads_init : reads init_data_stream_for_cm.
Proof. unfold init_data_stream_for_cm, open_data_stream, get_current_digest. repeat reads_step. Qed.

Lemma reads_block `{Zstd} name buf : reads (read_block name buf).
Proof. unfold read_block. repeat (cbv zeta; reads_step). Qed.

Lemma reads_read `{Zstd} short : reads (read short).
Proof. unfold read. repeat (cbv zeta; reads_step). apply reads_block. Qed.

Lemma run_reads {A} (m : JobM A) j f :
  reads m -> exists r j', run_job m j f = (r, j', f) /\ forall n, m (j, mkEnv f n) = (r, (j', mkEnv f n)).
Proof.
  intros Hm. destruct (Hm j f) as (r & j' & E). exists r, j'. split; [|done].
  unfold run_job. by rewrite E.
Qed.

(** ** The two loops that send *)

(** What the connection makes of the answers of a sending job. *)
Definition to_message (d : CmData) : option Message :=
  match d with
  | FileBlockFromCM b _ => Some (new_block b)
  | FileReadError id n err _ => Some (new_error id err n)
  | FileReadDone id n _ => Some (new_done id n)
  | FileDigestFromCM id n modified size resume _ =>
      Some (MsgDigest (mkDigest id n modified size false 0 resume))
  | _ => None
  end.

Definition after (n : Net) (o : list CmData) : Net := mkNet (sent n ++ omap to_message o) (broken n).

Lemma after_nil n : after n [] = n.
Proof. unfold after. cbn. rewrite app_nil_r. by destruct n. Qed.

Lemma after_app n o1 o2 : after n (o1 ++ o2) = after (after n o1) o2.
Proof. unfold after. cbn. by rewrite omap_app, app_assoc. Qed.

Lemma send_env_after d m f n :
  broken n = false -> to_message d = Some m -> send_env m (mkEnv f n) = (Ok tt, mkEnv f (after n [d])).
Proof. intros Hb Hm. unfold send_env, after. cbn. by rewrite Hb, Hm. Qed.

Lemma open_keeps_last j e r j' e' :
  open_data_stream (j, e) = (r, (j', e')) -> is_last_job j' = is_last_job j.
Proof.
  unfold open_data_stream. cbv beta iota delta [mbind st_mbind st_bind get_job fst].
  destruct (data_source j) as [p|c].
  - destruct (entry_of j _) as [entry|]; [|by intros [= _ <- _]].
    destruct (data_stream j); [by intros [= _ <- _]|].
    unfold st_try, lift_io. cbn. destruct (open_read _ _) as [[h|err] f']; cbn; by intros [= _ <- _].
  - destruct (data_stream j); by intros [= _ <- _].
Qed.

Lemma init_same conn j f n o j1 f1 :
  broken n = false -> init_read_job_for_cm conn j f = (Ok o, j1, f1) ->
  f1 = f /\ is_last_job j1 = is_last_job j
  /\ init_data_stream (j, mkEnv f n) = (Ok tt, (j1, mkEnv f (after n o))).
Proof.
  intros Hb. unfold init_read_job_for_cm. destruct (run_reads _ j f reads_init) as (r & j' & -> & E).
  specialize (E n). unfold init_data_stream_for_cm in E. unfold init_data_stream.
  cbv beta iota delta [mbind st_mbind st_bind] in E |- *.
  destruct (open_data_stream (j, mkEnv f n)) as [[b|err] [j2 e2]] eqn:Eo; [|by injection E as <- <- _].
  pose proof (open_keeps_last _ _ _ _ _ Eo) as Hl. destruct b.
  { injection E as <- <- ->. intros [= <- <- <-]. by rewrite after_nil. }
  cbn in E |- *. destruct (wants_digest j2) eqn:Ew.
  2: { injection E as <- <- ->. intros [= <- <- <-]. by rewrite after_nil. }
  unfold send_current_digest. cbv beta iota delta [mbind st_mbind st_bind] in E |- *.
  destruct (get_current_digest (j2, e2)) as [[[lm sz]|err] [j3 e3]] eqn:Eg; [|by injection E as <- <- _].
  assert (Hsame : j3 = j2 /\ e3 = e2).
  { revert Eg. unfold get_current_digest. cbv beta iota delta [mbind st_mbind st_bind get_job get_fs fst].
    destruct (data_stream j2) as [[h|]|]; try done.
    destruct (inodes _ !! _); [|done]. intros Eg. injection Eg. intros. by split. }
  destruct Hsame as [-> ->]. cbn in E. injection E as <- <- ->. intros [= <- <- <-].
  split; [done|]. split; [done|]. unfold after. cbn. by rewrite Hb.
Qed.

Lemma step_same `{Zstd} short conn j f n o done j1 f1 :
  broken n = false -> is_ok (fst (read short (j, mkEnv f n))) = true ->
  tick_job short conn j f = (o, done, j1, f1) ->
  f1 = f /\ exists log,
    step_job short j (mkEnv f n) =
      (Ok (log, if done : bool then Some (id j1) else None), (j1, mkEnv f (after n o))).
Proof.
  intros Hb Hok. unfold tick_job, step_job.
  destruct (run_reads _ j f (reads_read short)) as (r & j' & -> & E). rewrite (E n) in Hok |- *.
  destruct r as [[block|]|err]; [| |done].
  - intros [= <- <- <- <-]. split; [done|]. exists NoLog. by rewrite (send_env_after (FileBlockFromCM block conn)).
  - destruct (job_completed j') eqn:Ec.
    + destruct (job_error j') as [err|] eqn:Ee; intros [= <- <- <- <-]; (split; [done|]).
      * exists (JobFailed (id j') err). by rewrite (send_env_after (FileReadError (id j') (file_num j') err conn)).
      * exists (JobDone (id j')). by rewrite (send_env_after (FileReadDone (id j') (file_num j') conn)).
    + intros [= <- <- <- <-]. split; [done|]. exists NoLog. by rewrite after_nil.
Qed.

(** The two loops that send files agree.  For a job that meets no error, one beat of
    the connection manager leads to the same messages to the peer, the same job, and
    the same decision whether it is over, as one beat of the connection's own loop; and
    neither touches the file system. *)
Theorem cm_sends_like_connection `{Zstd} short conn j f n o1 j1 f1 :
  broken n = false -> is_last_job j = false ->
  init_read_job_for_cm conn j f = (Ok o1, j1, f1) ->
  is_ok (fst (read short (j1, mkEnv f n))) = true ->
  let '(o, jobs, f') := handle_read_jobs_tick short conn [j] f in
  f' = f /\ exists log,
    handle_read_jobs short [j] (mkEnv f n) = (Ok log, (jobs, mkEnv f (after n o))).
Proof.
  intros Hb Hl Hi Hok. unfold handle_read_jobs_tick. cbn [tick_jobs]. rewrite Hl, Hi.
  destruct (init_same conn j f n o1 j1 f1 Hb Hi) as (-> & Hl1 & Ei).
  destruct (tick_job short conn j1 f) as [[[o2 done] j2] f2] eqn:Et.
  assert (Hb1 : broken (after n o1) = false) by done.
  assert (Hok1 : is_ok (fst (read short (j1, mkEnv f (after n o1)))) = true).
  { destruct (reads_read short j1 f) as (r & j' & E). rewrite E in Hok |- *. done. }
  destruct (step_same short conn j1 f (after n o1) o2 done j2 f2 Hb1 Hok1 Et) as (-> & log & Es).
  split; [done|]. exists log. unfold handle_read_jobs. cbn [init_jobs]. rewrite Hl, Ei. cbn [step_jobs].
  rewrite Hl1, Hl, Es, after_app. by destruct done.
Qed.

(** The loops do differ on an error: the manager gives the job up, the connection goes
    on with the next file. *)
Lemma loops_differ_on_errors `{Zstd} short conn j f n o1 j1 f1 err :
  broken n = false -> is_last_job j = false ->
  init_read_job_for_cm conn j f = (Ok o1, j1, f1) ->
  fst (read short (j1, mkEnv f n)) = Err err ->
  let '(_, jobs, _) := handle_read_jobs_tick short conn [j] f in
  jobs = [] /\ exists j2, snd (handle_read_jobs short [j] (mkEnv f n))
    = ([j2], mkEnv f (after n (o1 ++ [FileReadError (id j2) (file_num j2) err conn]))).
Proof.
  intros Hb Hl Hi Hr. unfold handle_read_jobs_tick. cbn [tick_jobs]. rewrite Hl, Hi.
  destruct (init_same conn j f n o1 j1 f1 Hb Hi) as (-> & Hl1 & Ei).
  unfold tick_job. destruct (run_reads _ j1 f (reads_read short)) as (r & j2 & -> & E).
  rewrite (E n) in Hr. cbn in Hr. subst r. cbn [fold_left remove_job snd]. split.
  - cbn. by rewrite Z.eqb_refl.
  - exists j2. unfold handle_read_jobs. cbn [init_jobs]. rewrite Hl, Ei. cbn [step_jobs].
    rewrite Hl1, Hl. unfold step_job. rewrite E, after_app.
    by rewrite (send_env_after (FileReadError (id j2) (file_num j2) err conn)).
Qed.

(** ** Answers *)

Lemma io_result_ok {A} (r : result IoErr A) a : io_result r = Ok a -> r = Ok a.
Proof. by destruct r; cbn; intros [= ->]. Qed.

Lemma remove_entry_spec k f :
  match remove_entry k f with
  | (Ok _, f') => entries f' !! k = None /\ is_Some (entries f !! k)
  | (Err _, f') => f' = f
  end.
Proof.
  unfold remove_entry. case_decide; [done|]. destruct (entries f !! k) as [[]|] eqn:E; cbn; try done.
  all: rewrite lookup_delete_eq; eauto.
Qed.

Lemma remove_dir_spec k f :
  match remove_dir k f with
  | (Ok _, f') => entries f' !! k = None /\ entries f !! k = Some EDir /\ children f k = []
  | (Err _, f') => f' = f
  end.
Proof.
  unfold remove_dir. case_decide; [done|]. destruct (entries f !! k) as [[]|] eqn:E; cbn; try done.
  destruct (children f k) eqn:Ec; [|done]. cbn. by rewrite lookup_delete_eq.
Qed.

Lemma create_dirs_spec ks f :
  match create_dirs ks f with
  | (Ok _, f') => forall k, k ∈ ks -> entry_at f' k = Some EDir
  | (Err _, _) => True
  end.
Proof.
  revert f. induction ks as [|k ks IH]; intros f; cbn [create_dirs].
  { intros k Hk. by apply elem_of_nil in Hk. }
  case_decide as Hd; [done|].
  assert (Hkeep : forall g, entry_at g k = Some EDir ->
            match create_dirs ks g with (Ok _, f') => entry_at f' k = Some EDir | _ => True end).
  { clear IH Hd. induction ks as [|k' ks IH]; intros g Hg; [done|]. cbn [create_dirs].
    case_decide as Hd; [done|]. destruct (entry_at g k') as [[]|] eqn:E; try done; [by apply IH|].
    destruct (entries g !! k') as [x|] eqn:Ex; [done|]. apply IH.
    revert Hg. unfold entry_at. unfold resolve. generalize 40%nat as n. intros n.
    assert (Hf : forall q r, follow n g q = Some r -> is_Some (entries g !! r) ->
              follow n (set_entries (<[k':=EDir]>) g) q = Some r).
    { clear -Ex. induction n as [|n IHn]; intros q r; cbn; (destruct (decide (q = k')) as [->|Hq];
        [rewrite Ex; intros [= <-]; rewrite Ex; by intros [? ?]|rewrite lookup_insert_ne by done]);
        destruct (entries g !! q) as [[]|] eqn:Eq; try done. apply IHn. }
    destruct (follow n g k) as [r|] eqn:Er; [|done]. case_decide as Hrd; [done|]. intros Hr.
    rewrite (Hf k r Er) by eauto. cbn. rewrite decide_False by done.
    destruct (decide (r = k')) as [->|]; [by rewrite lookup_insert_eq|by rewrite lookup_insert_ne]. }
  destruct (entry_at f k) as [[]|] eqn:E; try done.
  - specialize (IH f). specialize (Hkeep f E). destruct (create_dirs ks f) as [[|] f']; [|done].
    intros q [->|Hq]%elem_of_cons; auto.
  - destruct (entries f !! k) as [x|] eqn:Ex; [done|].
    assert (E1 : entry_at (set_entries (<[k:=EDir]>) f) k = Some EDir).
    { rewrite (entry_at_plain _ k EDir); [|cbn; by rewrite lookup_insert_eq|done].
      by rewrite decide_False. }
    specialize (IH (set_entries (<[k:=EDir]>) f)). specialize (Hkeep _ E1).
    destruct (create_dirs ks _) as [[|] f']; [|done]. intros q [->|Hq]%elem_of_cons; auto.
Qed.

Lemma prefixes_whole {A} (l : list A) : l <> [] -> l ∈ prefixes l.
Proof.
  induction l as [|x l IH]; intros Hl; [done|]. cbn. destruct l as [|y l]; [by left|].
  right. apply list_elem_of_fmap. exists (y :: l). split; [done|]. by apply IH.
Qed.

Section Answers.
Context `{Zstd}.
Context (digest_to_json : FileDigest -> list byte)
        (digest_from_json : list byte -> option FileDigest).
Variable other_mtime : Fs -> list string -> Z.
Variable home : string.
Variable max_files_option : option Z.

Abbreviation handle := (handle_fs digest_to_json digest_from_json other_mtime home max_files_option).

(** [m] is the one new answer. *)
Definition says (s s' : Cm) (d : CmData) : Prop := out s' = out s ++ [d].

Definition done_or_error (s s' : Cm) (id n : Z) (ok : Prop) (failed : Prop) : Prop :=
  (says s s' (RawMessage (new_done id n)) /\ ok)
  \/ exists err, says s s' (RawMessage (new_error id err n)) /\ failed.

(** Requests are answered, and the answer is true.  A request to remove a file or
    an empty directory, to rename, or to make a directory gets exactly one answer that
    carries its id: "done", and then it is so, or an error, and then removing or
    renaming has changed nothing.  A rejected file list and a failed block are
    reported with their id as well, and a request to read or to list files is answered by one result. *)
Theorem requests_are_answered r s :
  let s' := handle r s in
  match r with
  | RemoveFile path id n =>
      done_or_error s s' id n
        (entries (cm_fs s') !! key path = None /\ is_Some (entries (cm_fs s) !! key path))
        (cm_fs s' = cm_fs s)
  | RemoveDir path id false =>
      done_or_error s s' id 0
        (entries (cm_fs s') !! key path = None /\ entries (cm_fs s) !! key path = Some EDir
         /\ children (cm_fs s) (key path) = [])
        (cm_fs s' = cm_fs s)
  | CreateDir path id =>
      done_or_error s s' id 0 (key path <> [] -> entry_at (cm_fs s') (key path) = Some EDir) True
  | Rename id path new_name =>
      done_or_error s s' id 0
        (exists dir, parent_key (key path) = Some dir /\
          (cm_fs s' = cm_fs s
           \/ cm_fs s' = set_entries (move_tree (key path) (dir ++ key new_name)) (cm_fs s)))
        (cm_fs s' = cm_fs s)
  | NewWrite path id n fl od total conn =>
      (out s' = out s /\ exists j, write_jobs s' = write_jobs s ++ [j])
      \/ exists err, s' = send_raw (new_error id err n) s
  | WriteBlock id n data c =>
      out s' = out s \/ exists err, says s s' (RawMessage (new_error id err n))
  | ReadFile path id n h conn od =>
      exists r, says s s' (ReadJobInitResult id n h conn r)
        /\ (if is_ok r then exists j, read_jobs s' = read_jobs s ++ [j] else read_jobs s' = read_jobs s)
  | ReadAllFiles path id h conn => exists r, says s s' (AllFilesResult id conn path r)
  | _ => True
  end.
Proof.
  intros s'. subst s'. unfold done_or_error, says. destruct r; cbn [handle_fs]; try exact I.
  - destruct recursive; [done|]. unfold cm_remove_dir.
    pose proof (remove_dir_spec (key path) (cm_fs s)) as Hs.
    destruct (remove_dir (key path) (cm_fs s)) as [[[]|e] f]; cbn; [left; done|]. subst f. right. eauto.
  - unfold cm_remove_file, fs_remove_file, remove_file.
    destruct (validate_fs_path_argument _ _); cbn; [|right; eauto].
    pose proof (remove_entry_spec (key path) (cm_fs s)) as Hs.
    destruct (remove_entry (key path) (cm_fs s)) as [[[]|e] f]; cbn; [left; done|]. subst f. right. eauto.
  - unfold cm_create_dir, fs_create_dir, create_dir_all.
    destruct (validate_fs_path_argument _ _); cbn; [|right; eauto].
    pose proof (create_dirs_spec (prefixes (key path)) (cm_fs s)) as Hs.
    destruct (create_dirs _ _) as [[[]|e] f]; cbn; [|right; eauto]. left. split; [done|].
    intros Hk. by apply Hs, prefixes_whole.
  - unfold new_write_job. destruct (set_files _ _ _) as [j|err]; cbn; [left; eauto|right; by exists err].
  - unfold write_block. destruct (find_job id (write_jobs s)) as [j|]; [|by left].
    destruct (run_job _ _ _) as [[[[]|err] j'] f]; cbn; [by left|right; by exists err].
  - unfold cm_rename_file, rename_file.
    destruct (let? _ := validate_fs_path_argument path "path" in _); cbn; [|right; eauto].
    destruct (path_exists (cm_fs s) path); cbn; [|right; eauto].
    destruct (parent_key (key path)) as [dir|]; cbn; [|right; eauto].
    unfold rename_tree. repeat case_match; simplify_eq; cbn in *; simplify_eq;
      try (right; by eauto); left; (split; [done|]); exists dir; eauto.
  - unfold start_read_job, new_read.
    destruct (listing_spec other_mtime (cm_fs s) path include_hidden) as (r & Hr & _). rewrite Hr.
    cbn. destruct r as [fl|e]; cbn; [|by eexists].
    destruct (check_file_count_limit _ _); cbn; eexists; (split; [done|]); [|done]. by eexists.
  - unfold read_all_files.
    destruct (listing_spec other_mtime (cm_fs s) path include_hidden) as (r & Hr & _). rewrite Hr.
    by eexists.
Qed.
End Answers.

(** ** Transfers stay where they were announced *)

Definition same_entries (f f' : Fs) : Prop := entries f' = entries f /\ next_ino f' = next_ino f.

(** Opening a file that exists creates nothing. *)
Lemma open_existing p f : path_exists f p = true -> same_entries f (exec (open_write false p) f).
Proof.
  unfold path_exists, entry_at, exec, open_write. destruct (resolve f (key p)) as [k|]; [|done].
  case_decide as Hd; [done|]. by destruct (entries f !! k) as [[]|].
Qed.

(** What a job is made of stays, and so do the entries of the file system. *)
Definition mild {A} (m : JobM A) : Prop := forall j e r j' e', m (j, e) = (r, (j', e')) ->
  same_entries (fs e) (fs e') /\ ty j' = ty j /\ data_source j' = data_source j /\ files j' = files j.

Lemma mild_bind {A B} (m : JobM A) (k : A -> JobM B) : mild m -> (forall a, mild (k a)) -> mild (m ≫= k).
Proof.
  intros Hm Hk j e r j' e'. unfold mbind, st_mbind, st_bind.
  destruct (m (j, e)) as [[a|err] [j1 e1]] eqn:E; destruct (Hm _ _ _ _ _ E) as ((E1 & N1) & T1 & D1 & F1).
  - intros E2. destruct (Hk a _ _ _ _ _ E2) as ((E3 & N3) & T3 & D3 & F3).
    split; [split; congruence|split_and!; congruence].
  - intros [= <- <- <-]. done.
Qed.

Lemma mild_put_job g : (forall j, ty (g j) = ty j /\ data_source (g j) = data_source j /\ files (g j) = files j) -> mild (put_job g).
Proof. intros Hg j e r j' e' [= <- <- <-]. by split. Qed.

Lemma mild_ret {A} (a : A) : mild (mret a).
Proof. by intros j e r j' e' [= <- <- <-]. Qed.
Lemma mild_fail {A} err : mild (@st_fail _ _ A err).
Proof. by intros j e r j' e' [= <- <- <-]. Qed.

Lemma mild_set_offset n offset : mild (set_stream_offset n offset).
Proof.
  intros j e r j' e'. unfold set_stream_offset. cbv beta iota delta [mbind st_mbind st_bind get_job get_fs fst snd].
  destruct (data_source j) as [p|c] eqn:Ed; [|by intros [= <- <- <-]].
  destruct (entry_of j _) as [entry|]; [|by intros [= <- <- <-]].
  destruct (resolve_entry_path _ _ _ _) as [path|]; [|by intros [= <- <- <-]].
  destruct (path_exists (fs e) (download_path path) && _) eqn:Ep.
  - apply andb_true_iff in Ep as [Ep _]. unfold st_ok, lift_io. pose proof (open_existing _ _ Ep) as Ho.
    unfold exec in Ho. destruct (open_write false _ _) as [[h|err] f']; cbn; by intros [= <- <- <-].
  - destruct (path_exists (fs e) path); [|by intros [= <- <- <-]]. unfold st_ok, lift_io, open_read.
    destruct (entry_at _ _) as [[]|]; cbn; by intros [= <- <- <-].
Qed.

Lemma mild_confirm r : mild (confirm r).
Proof.
  intros j e. unfold confirm. cbv beta iota delta [mbind st_mbind get_job]. unfold st_bind at 1. cbn [fst].
  revert j e. intros j e. apply (mild_bind _ (fun _ => mret true)); [|intros _; apply mild_ret].
  destruct (negb _); [apply mild_ret|]. destruct (cf_union r) as [[[]|off]|].
  - by apply mild_put_job.
  - by apply mild_put_job.
  - apply mild_bind; [by apply mild_put_job|]. intros _. destruct (0 <? off); [apply mild_set_offset|apply mild_ret].
  - apply mild_ret.
Qed.

Definition linkless (f : Fs) : Prop := allocated f /\ forall k t, entries f !! k <> Some (ELink t).

(** What has changed is at one of the targets, or leads to one. *)
Definition confined_to (ts : list Target) (f f' : Fs) : Prop := forall k,
  entries f' !! k <> entries f !! k ->
  exists t, t ∈ ts /\
    (below t k \/ (k `prefix_of` key (base_of t) /\ entries f' !! k = Some EDir)).

Lemma confined_refl bs f : confined_to bs f f.
Proof. by intros k. Qed.

Lemma confined_trans bs cs f g h :
  confined_to bs f g -> confined_to cs g h -> confined_to (bs ++ cs) f h.
Proof.
  intros H1 H2 k Hk. destruct (decide (entries h !! k = entries g !! k)) as [E|E].
  - rewrite E in *. destruct (H1 k Hk) as (b & Hb & Hc). exists b. split; [|done]. apply elem_of_app. by left.
  - destruct (H2 k E) as (b & Hb & Hc). exists b. split; [|done]. apply elem_of_app. by right.
Qed.

Lemma confined_same bs f f' : same_entries f f' -> confined_to bs f f'.
Proof. intros [E _] k. by rewrite E. Qed.

Lemma linkless_same f f' : same_entries f f' -> linkless f -> linkless f'.
Proof. unfold linkless, allocated. intros [-> ->]. done. Qed.

Lemma linkless_step (base : Target) f f' :
  safe_step base f f' -> linkless f -> linkless f' /\ confined_to [base] f f'.
Proof.
  intros Hs [Ha Hl]. destruct (Hs) as [[Hl' Ha'] Hc].
  { split; [|done]. intros k _ [t Ht]. by destruct (Hl k t). }
  split; [|intros k Hk; exists base; split; [by left|]; by destruct (Hc k Hk) as [?|[? ?]]; [left|right]].
  split; [done|]. intros k t Ht. destruct (decide (entries f' !! k = entries f !! k)) as [E|E].
  - apply (Hl k t). congruence.
  - destruct (Hc k E) as [Hb|[_ Hd]]; [|congruence]. apply (Hl' k Hb). by exists t.
Qed.

(** A job that receives at one of the targets. *)
Definition receives (bases : list Target) (j : TransferJob) : Prop :=
  exists base, base ∈ bases /\ dir_job base j.

Lemma find_receives bs id_ jobs j :
  find_job id_ jobs = Some j -> Forall (receives bs) jobs -> receives bs j.
Proof.
  intros Hf Hj. apply List.find_some in Hf as [Hin _]. rewrite Forall_forall in Hj.
  by apply Hj, list_elem_of_In.
Qed.

Lemma put_back_receives bs id_ j' jobs :
  receives bs j' -> Forall (receives bs) jobs -> Forall (receives bs) (put_back id_ j' jobs).
Proof.
  intros Hj. induction jobs as [|j jobs IH]; intros Hf; [done|]. apply Forall_cons in Hf as [H1 H2].
  cbn. destruct (id j =? id_); apply Forall_cons; auto.
Qed.

Lemma remove_receives bs id_ jobs :
  Forall (receives bs) jobs ->
  Forall (receives bs) (snd (remove_job id_ jobs))
  /\ forall j, fst (remove_job id_ jobs) = Some j -> receives bs j.
Proof.
  induction jobs as [|j jobs IH]; intros Hf; [done|]. apply Forall_cons in Hf as [H1 H2]. cbn.
  destruct (id j =? id_); [split; [done|]; by intros ? [= <-]|].
  destruct (IH H2) as [H3 H4]. destruct (remove_job id_ jobs) as [r l]. cbn in *.
  split; [by apply Forall_cons|done].
Qed.

Lemma receives_weaken bs cs j : receives bs j -> receives (bs ++ cs) j.
Proof. intros (b & Hb & Hj). exists b. split; [|done]. apply elem_of_app. by left. Qed.

Lemma remove_download_safe (base : Target) j f : dir_job base j -> safe_step base f (remove_download_file j f).
Proof.
  intros Hj. unfold remove_download_file. pose proof Hj as (Ht & Hd & Hf). rewrite Ht, Hd.
  destruct (entry_of j _) as [entry|] eqn:Ee; [|apply safe_refl].
  unfold resolve_entry_path. rewrite Ht.
  destruct (join_validated_path f (base_of base) (name entry)) as [p|] eqn:Ej; [|apply safe_refl].
  apply join_validated_inv in Ej as [-> Hrel]. cbn [ok].
  pose proof (entry_of_name _ _ _ _ Hj Ee) as Hne.
  eapply safe_trans; apply remove_file_safe; [by apply download_below|by apply digest_below].
Qed.

Section Confined.
Context `{Zstd}.
Context (digest_to_json : FileDigest -> list byte)
        (digest_from_json : list byte -> option FileDigest).
Context (short : Z -> nat).
Variable other_mtime : Fs -> list string -> Z.
Variable home : string.
Variable max_files_option : option Z.

Inductive CmOp : Type :=
| OpRequest (r : FsRequest)
| OpTick (conn_id : Z).

Definition cm_step (op : CmOp) (s : Cm) : Cm :=
  match op with
  | OpRequest r => handle_fs digest_to_json digest_from_json other_mtime home max_files_option r s
  | OpTick conn_id =>
      let '(o, jobs, f) := handle_read_jobs_tick short conn_id (read_jobs s) (cm_fs s) in
      mkCm (write_jobs s) jobs f (out s ++ o) (logs s)
  end.

Definition cm_run (ops : list CmOp) (s : Cm) : Cm := fold_left (fun s op => cm_step op s) ops s.

(** A request of a transfer, or one that only looks. *)
Definition transfer_op (op : CmOp) : bool :=
  match op with
  | OpRequest (RemoveDir _ _ _ | RemoveFile _ _ _ | CreateDir _ _ | Rename _ _ _) => false
  | _ => true
  end.

(** Where transfers were announced for: a directory, or the path of a file without a name. *)
Definition announced (op : CmOp) : list Target :=
  match op with
  | OpRequest (NewWrite path _ _ fl _ _ _) =>
      [if forallb (fun '(n, _) => negb (String.eqb n "")) fl then InDir path else AtPath path]
  | _ => []
  end.

Definition cm_ok (bases : list Target) (s : Cm) : Prop :=
  linkless (cm_fs s) /\ Forall (receives bases) (write_jobs s).

Lemma tick_fs conn jobs f : snd (tick_jobs short conn jobs f) = f.
Proof.
  induction jobs as [|j jobs IH]; [done|]. cbn [tick_jobs]. destruct (is_last_job j).
  { by destruct (tick_jobs short conn jobs f) as [[[o fin] jobs'] f']. }
  unfold init_read_job_for_cm. destruct (run_reads _ j f reads_init) as (r & j' & -> & _).
  assert (Ht : forall j o, snd (tick_job short conn j f) = f
            /\ snd (let '(o2, done, j, f) := tick_job short conn j f in
                    (o ++ o2, if done : bool then [id j] else [], j :: jobs, f)) = f).
  { intros j0 o. unfold tick_job. destruct (run_reads _ j0 f (reads_read short)) as (r0 & j1 & -> & _).
    destruct r0 as [[b|]|]; try done. by destruct (job_completed j1). }
  destruct r as [[[lm sz]|]|err]; [apply Ht|apply Ht|].
  by destruct (tick_jobs short conn jobs f) as [[[o fin] jobs'] f'].
Qed.

Lemma set_files_ok f fl j j' :
  set_files f fl j = Ok j' -> j' = with_files_field fl (with_total_size (sum_sizes fl) j).
Proof.
  unfold set_files, rbind. destruct (validate_transfer_file_names fl); [|done].
  by destruct (match data_source j with FilePath _ => _ | _ => _ end); intros [= <-].
Qed.

(** A step on one job: it goes on receiving, and what it changes is confined. *)
Lemma job_step bs s base j j' f' g :
  cm_ok bs s -> base ∈ bs -> dir_job base j' -> safe_step base (cm_fs s) f' ->
  (forall l, Forall (receives bs) l -> Forall (receives bs) (g j' l)) ->
  dir_job base j ->
  let s' := with_fs f' (with_writes (g j' (write_jobs s)) s) in
  cm_ok bs s' /\ confined_to bs (cm_fs s) f'.
Proof.
  intros [Hl Hw] Hb Hj' Hs Hg _ s'. destruct (linkless_step base _ _ Hs Hl) as [Hl' Hc].
  split; [split; [done|by apply Hg]|]. intros k Hk. destruct (Hc k Hk) as (b & Hin & Hd).
  apply list_elem_of_singleton in Hin as ->. eauto.
Qed.

Lemma run_job_safe {A} base (m : JobM A) j f r j' f' :
  safe base m (fun _ => True) -> dir_job base j -> run_job m j f = (r, j', f') -> dir_job base j' /\ safe_step base f f'.
Proof.
  intros Hm Hj. unfold run_job. destruct (m (j, mkEnv f (mkNet [] false))) as [r0 [j0 e0]] eqn:E.
  intros [= <- <- <-]. by destruct (Hm _ _ _ _ _ Hj E) as (H1 & H2 & _).
Qed.

Lemma run_mild {A} (m : JobM A) j f r j' f' :
  mild m -> run_job m j f = (r, j', f') ->
  same_entries f f' /\ forall base, dir_job base j -> dir_job base j'.
Proof.
  intros Hm. unfold run_job. destruct (m (j, mkEnv f (mkNet [] false))) as [r0 [j0 e0]] eqn:E.
  intros [= <- <- <-]. destruct (Hm _ _ _ _ _ E) as (H1 & Ht & Hd & Hf). split; [done|].
  intros base. unfold dir_job. by rewrite Ht, Hd, Hf.
Qed.

(** Nothing happens to the jobs that receive, nor to the entries. *)
Lemma same_step bs s s' :
  write_jobs s' = write_jobs s -> same_entries (cm_fs s) (cm_fs s') -> cm_ok bs s ->
  cm_ok (bs ++ []) s' /\ confined_to (bs ++ []) (cm_fs s) (cm_fs s').
Proof.
  intros Ew Hf [Hl Hw]. rewrite app_nil_r. split; [|by apply confined_same].
  split; [by eapply linkless_same|]. by rewrite Ew.
Qed.

Lemma cm_step_ok bs op s :
  transfer_op op = true -> cm_ok bs s ->
  cm_ok (bs ++ announced op) (cm_step op s)
  /\ confined_to (bs ++ announced op) (cm_fs s) (cm_fs (cm_step op s)).
Proof.
  intros Ht Hs. pose proof Hs as [Hl Hw]. destruct op as [r|conn].
  2: { cbn [cm_step announced]. unfold handle_read_jobs_tick. pose proof (tick_fs conn (read_jobs s) (cm_fs s)) as Hf.
       destruct (tick_jobs short conn (read_jobs s) (cm_fs s)) as [[[o fin] jobs] f]. cbn in Hf. subst f.
       by apply same_step. }
  destruct r; cbn [transfer_op] in Ht; try done; cbn [cm_step handle_fs announced].
  - unfold cm_read_empty_dirs. repeat case_match; by apply same_step.
  - unfold cm_read_dir. repeat case_match; by apply same_step.
  - (* NewWrite *)
    unfold new_write_job. destruct (set_files _ _ _) as [j|err] eqn:Ej; cbn [cm_fs].
    2: { split; [|apply confined_refl]. split; [done|]. eapply Forall_impl; [exact Hw|]. intros. by apply receives_weaken. }
    split; [|apply confined_refl]. split; [done|]. apply Forall_app. split.
    { eapply Forall_impl; [exact Hw|]. intros. by apply receives_weaken. }
    apply Forall_singleton. eexists. split; [apply elem_of_app; right; by left|].
    apply set_files_ok in Ej as ->. destruct (forallb _ _) eqn:Hn; (split_and!; [done..|]); cbn;
      rewrite Forall_fmap, Forall_forall; [|done].
    intros [n t] Hin. rewrite forallb_forall in Hn. apply list_elem_of_In in Hin. specialize (Hn _ Hin).
    cbn in *. by destruct (String.eqb_spec n "").
  - (* CancelWrite *)
    rewrite app_nil_r. unfold cancel_write. destruct (remove_receives bs id (write_jobs s) Hw) as [H1 H2].
    destruct (remove_job id (write_jobs s)) as [[j|] jobs]; [|by split; [|apply confined_refl]].
    destruct (H2 j eq_refl) as (base & Hb & Hj).
    destruct (job_step bs s base j j _ (fun _ _ => jobs) Hs Hb Hj (remove_download_safe base j _ Hj)
                (fun _ _ => H1) Hj) as [[Hl' _] Hc]. by split.
  - (* WriteBlock *)
    rewrite app_nil_r. unfold write_block. destruct (find_job id (write_jobs s)) as [j|] eqn:Ej;
      [|by split; [|apply confined_refl]].
    destruct (find_receives _ _ _ _ Ej Hw) as (base & Hb & Hj).
    destruct (run_job _ j (cm_fs s)) as [[r j'] f'] eqn:Er.
    destruct (run_job_safe base _ _ _ _ _ _ (write_safe digest_to_json base _) Hj Er) as [Hj' Hs'].
    destruct (job_step bs s base j j' f' (fun j' l => put_back id j' l) Hs Hb Hj' Hs') as [Hk Hc]; [|done|].
    { intros l Hf. apply put_back_receives; [|done]. by exists base. }
    destruct r; (split; [|exact Hc]); exact Hk.
  - (* WriteDone *)
    rewrite app_nil_r. unfold write_done. destruct (remove_receives bs id (write_jobs s) Hw) as [H1 H2].
    destruct (remove_job id (write_jobs s)) as [[j|] jobs]; [|by split; [|apply confined_refl]].
    destruct (H2 j eq_refl) as (base & Hb & Hj).
    destruct (job_step bs s base j j _ (fun _ _ => jobs) Hs Hb Hj (modify_time_safe base j _ Hj)
                (fun _ _ => H1) Hj) as [[Hl' _] Hc]. by split.
  - (* WriteError *)
    rewrite app_nil_r. unfold write_error. destruct (remove_receives bs id (write_jobs s) Hw) as [H1 H2].
    by destruct (remove_job id (write_jobs s)) as [[j|] jobs]; (split; [|apply confined_refl]).
  - (* CheckDigest *)
    rewrite app_nil_r. unfold check_digest. destruct (find_job id (write_jobs s)) as [j|] eqn:Ej;
      [|by split; [|apply confined_refl]].
    destruct (find_receives _ _ _ _ Ej Hw) as (base & Hb & Hj).
    destruct (entry_of j _) as [entry|]; [|by split; [|apply confined_refl]].
    destruct (data_source j) as [p|c]; [|by split; [|apply confined_refl]].
    assert (Hp : Forall (receives bs) (put_back id (set_digest file_size last_modified j) (write_jobs s))).
    { apply put_back_receives; [|done]. exists base. split; [done|]. by destruct Hj as (? & ? & ?). }
    destruct (is_write_need_confirmation _ _ _ _ _) as [[]|err]; (split; [|apply confined_refl]); by split.
  - (* SendConfirm *)
    rewrite app_nil_r. destruct r as [r|]; [|by split; [|apply confined_refl]].
    unfold send_confirm. destruct (find_job (cf_id r) (write_jobs s)) as [j|] eqn:Ej;
      [|by split; [|apply confined_refl]].
    destruct (find_receives _ _ _ _ Ej Hw) as (base & Hb & Hj).
    destruct (run_job (confirm r) j (cm_fs s)) as [[x j'] f'] eqn:Er.
    destruct (run_mild _ _ _ _ _ _ (mild_confirm r) Er) as [Hsame Hd].
    split; [|by apply confined_same]. split; [by eapply linkless_same|].
    apply put_back_receives; [|done]. exists base. split; [done|by apply Hd].
  - unfold start_read_job. repeat case_match; by apply same_step.
  - unfold cancel_read. destruct (remove_job id (read_jobs s)) as [[j|] jobs]; by apply same_step.
  - unfold send_confirm_for_read. destruct (find_job id (read_jobs s)) as [j|]; [|by apply same_step].
    destruct (run_job _ j (cm_fs s)) as [[x j'] f'] eqn:Er.
    destruct (run_mild _ _ _ _ _ _ (mild_confirm _) Er) as [Hsame _]. by apply same_step.
  - unfold read_all_files. repeat case_match; by apply same_step.
Qed.

(** C26: Transfers stay where they were announced.  Whatever sequence of transfer
    requests the peer sends -- new jobs, blocks for any of them, cancellations, ends,
    digests, confirmations, jobs that send -- on a file system without symbolic links,
    what it changes of the directory tree lies in the directories that its lists of
    files were announced for, or leads to such a directory and is created; a single file
    without a name is the announced path itself, with two companions.  No symbolic link
    appears. *)
Theorem cm_transfers_are_confined ops f :
  forallb transfer_op ops = true -> linkless f ->
  let s := cm_run ops (mkCm [] [] f [] []) in
  linkless (cm_fs s) /\ confined_to (concat (map announced ops)) f (cm_fs s).
Proof.
  intros Ht Hl. cbv zeta.
  assert (Hgen : forall bs s, cm_ok bs s ->
    cm_ok (bs ++ concat (map announced ops)) (cm_run ops s)
    /\ confined_to (bs ++ concat (map announced ops)) (cm_fs s) (cm_fs (cm_run ops s))).
  { clear Hl f. induction ops as [|op ops IH]; intros bs s Hs.
    { rewrite app_nil_r. split; [done|apply confined_refl]. }
    apply andb_true_iff in Ht as [Hop Ht]. destruct (cm_step_ok bs op s Hop Hs) as [Hs1 Hc1].
    destruct (IH Ht _ _ Hs1) as [Hs2 Hc2]. cbn [map concat]. rewrite app_assoc.
    split; [exact Hs2|]. intros k Hk. destruct (confined_trans _ _ _ _ _ Hc1 Hc2 k Hk) as (b & Hb & Hd).
    exists b. split; [|exact Hd]. set_solver. }
  destruct (Hgen [] (mkCm [] [] f [] [])) as [[Hl' _] Hc]; [by split|]. done.
Qed.
End Confined.

(** ** Concrete inputs *)

Definition ex_job : TransferJob :=
  with_files_field [file_entry "a" 1 5] (new_write 3 Generic "" (FilePath "/d") 0 false true true).

Lemma cm_sends_like_connection_witness :
  let n := mkNet [] false in
  let '(o, jobs, f') := @handle_read_jobs_tick toy_zstd (fun _ => 9%nat) 7 [ex_job] ex_fs in
  o = [FileDigestFromCM 3 0 5 1 false 7] /\ f' = ex_fs /\ exists log,
    @handle_read_jobs toy_zstd (fun _ => 9%nat) [ex_job] (mkEnv ex_fs n)
      = (Ok log, (jobs, mkEnv ex_fs (after n o))).
Proof.
  pose proof (@cm_sends_like_connection toy_zstd (fun _ => 9%nat) 7 ex_job ex_fs (mkNet [] false)
    [FileDigestFromCM 3 0 5 1 false 7]
    (with_file_is_waiting true (with_data_stream (Some (FileStream (mkFile 0 0))) ex_job)) ex_fs) as H.
  specialize (H eq_refl eq_refl ltac:(vm_compute; reflexivity) ltac:(vm_compute; reflexivity)).
  cbv zeta. assert (E : fst (fst (@handle_read_jobs_tick toy_zstd (fun _ => 9%nat) 7 [ex_job] ex_fs))
    = [FileDigestFromCM 3 0 5 1 false 7]) by (vm_compute; reflexivity).
  destruct (handle_read_jobs_tick _ 7 [ex_job] ex_fs) as [[o jobs] f']. split; [exact E|exact H].
Defined.

Definition ex_ops : list CmOp :=
  [OpRequest (NewWrite "/d" 1 0 [("s/f", 9)] false 3 4);
   OpRequest (WriteBlock 1 0 [x61; x62; x63] false);
   OpRequest (WriteDone 1 0); OpRequest (WriteBlock 1 0 [x64] false)].

Lemma plain_linkless : linkless plain_fs.
Proof.
  destruct tidy_plain as [_ Ha]. split; [exact Ha|]. intros k t.
  unfold plain_fs. cbn. rewrite !lookup_insert. by repeat case_decide.
Qed.

Lemma cm_transfers_are_confined_witness :
  let s := @cm_run toy_zstd demo_json (fun _ => None) (fun _ => 9%nat) no_mtime "/home" None ex_ops
             (mkCm [] [] plain_fs [] []) in
  entries (cm_fs s) !! ["/"; "d"; "s"; "f"] = Some (EFile 0)
  /\ linkless (cm_fs s) /\ confined_to (concat (map announced ex_ops)) plain_fs (cm_fs s).
Proof.
  cbv zeta. split; [vm_compute; reflexivity|].
  apply (@cm_transfers_are_confined toy_zstd demo_json (fun _ => None) (fun _ => 9%nat) no_mtime "/home" None);
    [reflexivity|exact plain_linkless].
Defined.
