(* ===== verification/FolderArrives.v ===== *)
(** * A folder that is received

    The blocks of several files, one file after the other, written by a job of
    [FileTransfer] into a place where none of the files is yet: at the end every file is at
    its place with its content and its time, whatever directories had to be made. *)

From S2P Require Import Prelude OsFs PathFacts Compress FileTransfer TransferSafety TransferContent TransferReceive FsDirs CmFiles.

(** ** A file system without links, where nothing is forbidden *)

Lemma open_entry_at f k : open_fs f -> entry_at f k = entries f !! k.
Proof.
  intros [Hd Hl]. unfold entry_at. rewrite (resolve_no_link f k) by (intros [t Ht]; by apply (Hl k t)).
  by rewrite Hd, decide_False by set_solver.
Qed.

Lemma open_set_entries g f :
  (forall q t, g (entries f) !! q <> Some (ELink t)) -> open_fs f -> open_fs (set_entries g f).
Proof. intros Hg [Hd _]. by split. Qed.

(** The directories that are missing are made. *)
Lemma open_create_dirs ks f :
  open_fs f -> allocated f ->
  Forall (fun q => entries f !! q = None \/ entries f !! q = Some EDir) ks ->
  exists f', create_dirs ks f = (Ok tt, f') /\ open_fs f' /\ allocated f'
    /\ inodes f' = inodes f /\ next_ino f' = next_ino f
    /\ forall q, entries f' !! q = if bool_decide (q ∈ ks) && bool_decide (entries f !! q = None)
                                   then Some EDir else entries f !! q.
Proof.
  revert f. induction ks as [|k ks IH]; intros f Ho Ha Hk.
  { exists f. by split_and!. }
  apply Forall_cons in Hk as [Hk Hks]. cbn [create_dirs]. pose proof Ho as [Hd Hl].
  rewrite Hd, decide_False by set_solver. rewrite open_entry_at by done.
  assert (Hext : forall q, bool_decide (q ∈ k :: ks) = bool_decide (q = k) || bool_decide (q ∈ ks)).
  { intros q. apply eq_true_iff_eq. rewrite orb_true_iff, !bool_decide_eq_true. by rewrite elem_of_cons. }
  destruct Hk as [E|E]; rewrite E.
  - set (g := set_entries <[k := EDir]> f). assert (Hg : forall q, entries g !! q = if decide (q = k) then Some EDir else entries f !! q).
    { intros q. cbn. rewrite lookup_insert. repeat case_decide; congruence. }
    destruct (IH g) as (f' & Hf & Ho' & Ha' & Hi & Hn & He).
    + apply open_set_entries; [|done]. intros q t. specialize (Hg q). cbn in Hg. rewrite Hg. case_decide; [done|apply Hl].
    + intros q i. rewrite Hg. case_decide; [done|apply Ha].
    + eapply Forall_impl; [exact Hks|]. intros q Hq. cbn beta. rewrite Hg. case_decide; [by right|done].
    + exists f'. split_and!; [done..|]. intros q. rewrite He, Hg, Hext.
      destruct (decide (q = k)) as [->|Hne].
      * rewrite (bool_decide_eq_true_2 (k = k)), (bool_decide_eq_true_2 (entries f !! k = None)) by done.
        cbn. by rewrite andb_false_r.
      * by rewrite (bool_decide_eq_false_2 (q = k)) by done.
  - destruct (IH f Ho Ha Hks) as (f' & Hf & Ho' & Ha' & Hi & Hn & He).
    exists f'. split_and!; [done..|]. intros q. rewrite He, Hext.
    destruct (decide (q = k)) as [->|Hne].
    + rewrite (bool_decide_eq_false_2 (entries f !! k = None)) by congruence. by rewrite !andb_false_r.
    + by rewrite (bool_decide_eq_false_2 (q = k)) by done.
Qed.

Section Folder.
Context `{Zstd} (digest_to_json : FileDigest -> list byte).
Variable base : string.

(** ** The places of one file *)

Definition place (x : FileEntry) : string := join base (name x).
Definition target (x : FileEntry) : list string := key (place x).
Definition dl (x : FileEntry) : list string := key (download_path (place x)).
Definition dg (x : FileEntry) : list string := key (digest_path (place x)).
Definition parent (x : FileEntry) : list string := default [] (parent_key (target x)).
Definition places (x : FileEntry) : list (list string) := [target x; dl x; dg x].

(** A name that is accepted, with three different places side by side. *)
Record proper (x : FileEntry) : Prop := {
  pr_valid : forall f, open_fs f -> join_validated_path f base (name x) = Ok (place x);
  pr_parent : parent_key (target x) = Some (parent x);
  pr_dl : parent_key (dl x) = Some (parent x);
  pr_dg : parent_key (dg x) = Some (parent x);
  pr_distinct : NoDup (places x);
  pr_above : forall q, q ∈ places x -> q ∉ prefixes (parent x) }.

Lemma proper_no_links f l : Forall proper l -> open_fs f -> validate_all_no_symlink f base l = Ok tt.
Proof.
  intros Hl Ho. induction Hl as [|x l Hx Hl IH]; [done|]. cbn [validate_all_no_symlink].
  pose proof (pr_valid _ Hx f Ho) as E. unfold join_validated_path in E.
  destruct (validate_file_name_no_traversal (name x)); [|done]. cbn in E.
  by destruct (validate_no_symlink_components f base (name x)).
Qed.

(** The path of a name, as the lists of folders have it, will do. *)
Lemma plain_proper x segs : plain_path (name x) segs -> key base <> [] -> proper x.
Proof.
  intros Hp Hb. destruct (plain_path_validates _ _ Hp) as [Hne Hv].
  assert (Hrel : starts_with_char SLASH (name x) = false).
  { unfold validate_file_name_no_traversal in Hv. by repeat case_match. }
  assert (Hpn : proper_name (name x)).
  { destruct Hp as (Hs & Hn & Hok & _). destruct segs as [|s init _] using rev_ind; [done|]. exists init, s. split; [done|].
    apply Forall_app in Hok as [_ Hok]. apply Forall_singleton in Hok as (H1 & H2 & _). unfold seg_key.
    by destruct (String.eqb_spec s ""), (String.eqb_spec s "."). }
  destruct (target_keys_distinct base (name x) Hne Hrel Hpn) as (D1 & D2 & D3 & Hk).
  destruct (target_keys base (name x) Hne Hrel Hpn) as (d & s & K1 & K2 & K3).
  assert (Hd : exists a l, d = a :: l).
  { destruct d as [|a l]; [|eauto]. exfalso. unfold join in K1.
    destruct (String.eqb_spec (name x) ""); [done|]. rewrite key_path_join in K1 by done.
    destruct (key base) as [|b kb]; [done|]. destruct (key (name x)) as [|c kn]; [done|]. destruct kb; done. }
  assert (Hpar : forall t, parent_key (d ++ [t]) = Some d).
  { assert (H2 : forall a b r, parent_key (a :: b :: r) = Some (removelast (a :: b :: r))).
    { intros a b r. by destruct a as [|[[] [] [] [] [] [] [] []] []]. }
    intros t. destruct Hd as (a & l & ->). transitivity (Some (removelast ((a :: l) ++ [t]))); [|by rewrite removelast_last].
    cbn [app]. destruct (l ++ [t]) as [|b r] eqn:E; [by destruct l|apply H2]. }
  assert (Hpx : parent x = d) by (unfold parent, target, place; by rewrite K1, Hpar).
  split; rewrite ?Hpx; unfold target, dl, dg, place; rewrite ?K1, ?K2, ?K3, ?Hpar; try done.
  - intros f Ho. unfold join_validated_path. rewrite Hv. cbn [rbind]. unfold validate_no_symlink_components.
    destruct (String.eqb_spec (name x) ""); [done|]. by rewrite (plain_components _ _ Hp), open_check.
  - unfold places, target, dl, dg, place. apply NoDup_cons_2; [|apply NoDup_cons_2; [|apply NoDup_singleton]].
    + by rewrite !elem_of_cons, elem_of_nil; intros [?|[?|[]]].
    + by rewrite elem_of_cons, elem_of_nil; intros [?|[]].
  - intros q Hq Hin. apply prefixes_spec, prefix_length in Hin. unfold places, target, dl, dg, place in Hq.
    rewrite K1, K2, K3 in Hq. rewrite !elem_of_cons in Hq. destruct Hq as [->|[->|[->|[]%elem_of_nil]]];
      rewrite length_app in Hin; cbn in Hin; lia.
Qed.

(** Nothing of the file is there. *)
Definition space (f : Fs) (x : FileEntry) : Prop :=
  (forall q, q ∈ places x -> entries f !! q = None) /\
  Forall (fun q => entries f !! q = None \/ entries f !! q = Some EDir) (prefixes (parent x)).

(** The download holds [c], in an inode of its own. *)
Record partial (f : Fs) (x : FileEntry) (i : nat) (c : list byte) : Prop := {
  pa_dl : entries f !! dl x = Some (EFile i);
  pa_content : content <$> inodes f !! i = Some c;
  pa_target : entries f !! target x = None;
  pa_parent : parent x = [] \/ entries f !! parent x = Some EDir;
  pa_alone : forall q, entries f !! q = Some (EFile i) -> q = dl x }.

(** The file is there. *)
Definition arrived (f : Fs) (x : FileEntry) (c : list byte) : Prop :=
  exists i, entries f !! target x = Some (EFile i) /\ inodes f !! i = Some (mkInode c (modified_time x)).

(** What the work on one file changes: its places, directories that lead there, and its
    inode and new ones. *)
Record touches (x : FileEntry) (i : option nat) (f f' : Fs) : Prop := {
  to_open : open_fs f';
  to_alloc : allocated f';
  to_entries : forall q, q ∉ places x ->
    entries f' !! q = entries f !! q
    \/ (entries f !! q = None /\ entries f' !! q = Some EDir /\ q ∈ prefixes (parent x));
  to_inodes : forall n, (n < next_ino f)%nat -> Some n <> i -> inodes f' !! n = inodes f !! n;
  to_next : (next_ino f <= next_ino f')%nat }.

Lemma touches_trans x i f g h : touches x i f g -> touches x i g h -> touches x i f h.
Proof.
  intros H1 H2. destruct H1 as [O1 A1 E1 I1 N1], H2 as [O2 A2 E2 I2 N2]. split; [done..| | |lia].
  - intros q Hq. destruct (E1 q Hq) as [Ea|(Ea & Eb & Hp)], (E2 q Hq) as [Ec|(Ec & Ed & Hp')].
    + left. congruence.
    + right. split_and!; congruence.
    + right. split_and!; congruence.
    + congruence.
  - intros n Hn Hi. rewrite I2, I1; [done|done|done|lia|done].
Qed.

(** *** The first block opens the download *)

Lemma make_parent_open x f :
  open_fs f -> allocated f -> proper x -> space f x ->
  let f' := make_parent (place x) f in
  touches x None f f' /\ (forall q, q ∈ places x -> entries f' !! q = None)
  /\ (parent x = [] \/ entries f' !! parent x = Some EDir)
  /\ inodes f' = inodes f /\ next_ino f' = next_ino f.
Proof.
  intros Ho Ha Hx [Hs Hp]. cbv zeta. unfold make_parent, create_dir_all, exec. fold (target x).
  rewrite (pr_parent _ Hx).
  destruct (open_create_dirs (prefixes (parent x)) f Ho Ha Hp) as (f' & -> & Ho' & Ha' & Hi & Hn & He).
  cbn [snd]. split_and!; [|..|done|done].
  - split; [done|done| |by rewrite Hi|lia]. intros q _. rewrite He.
    destruct (bool_decide_reflect (q ∈ prefixes (parent x))), (bool_decide_reflect (entries f !! q = None));
      cbn; auto.
  - intros q Hq. rewrite He, Hs by done. rewrite bool_decide_eq_false_2; [done|]. by apply (pr_above _ Hx).
  - destruct (parent x) as [|a l] eqn:Ep; [by left|]. right. rewrite He.
    assert (Hin : a :: l ∈ prefixes (a :: l)) by by apply prefixes_whole.
    rewrite (bool_decide_eq_true_2 _ Hin).
    rewrite Forall_forall in Hp. destruct (Hp _ Hin) as [E|E]; rewrite E;
      [by rewrite bool_decide_eq_true_2|by rewrite bool_decide_eq_false_2].
Qed.

(** A file that is created where there is none. *)
Lemma create_new x p f :
  open_fs f -> allocated f -> key p ∈ places x -> entries f !! key p = None ->
  parent_key (key p) = Some (parent x) -> (parent x = [] \/ entries f !! parent x = Some EDir) ->
  exists f', create p f = (Ok (mkFile (next_ino f) 0), f') /\ touches x None f f'
    /\ entries f' = <[key p := EFile (next_ino f)]> (entries f)
    /\ inodes f' = <[next_ino f := mkInode [] (clock f)]> (inodes f) /\ next_ino f' = S (next_ino f).
Proof.
  intros Ho Ha Hin He Hp Hd. unfold create, open_write. pose proof Ho as [Hden Hl].
  rewrite (resolve_no_link f) by (intros [t Ht]; congruence).
  rewrite Hden, decide_False, He by set_solver.
  assert (dir_of_exists f (key p) = true) as ->.
  { unfold dir_of_exists. rewrite Hp. destruct (parent x) as [|a l]; [done|]. destruct Hd as [?|Hd]; [done|].
    by rewrite open_entry_at, Hd. }
  eexists. split; [reflexivity|]. split_and!; [|reflexivity..]. split.
  - split; [done|]. cbn. intros q t. rewrite lookup_insert. case_decide; [done|apply Hl].
  - intros q i. cbn. rewrite lookup_insert. case_decide; [intros [= <-]; lia|].
    intros Hq. apply Ha in Hq. lia.
  - intros q Hq. left. cbn. rewrite lookup_insert_ne; [done|]. by intros <-.
  - intros n Hn _. cbn. by rewrite lookup_insert_ne by lia.
  - cbn. lia.
Qed.

Lemma open_phase x f data :
  open_fs f -> allocated f -> proper x -> space f x ->
  let f2 := make_parent (place x) f in
  exists i f4, path_exists f2 (digest_path (place x)) = false
    /\ create (download_path (place x)) f2 = (Ok (mkFile i 0), f4)
    /\ let f5 := exec (fs_write (digest_path (place x)) data) f4 in
       partial f5 x i [] /\ touches x None f f5.
Proof.
  intros Ho Ha Hx Hs. cbv zeta.
  destruct (make_parent_open x f Ho Ha Hx Hs) as (T1 & Hnone & Hpar & Hi & Hn).
  set (f2 := make_parent (place x) f) in *. pose proof (to_open _ _ _ _ T1) as O2. pose proof (to_alloc _ _ _ _ T1) as A2.
  pose proof (pr_distinct _ Hx) as Hd. unfold places in Hd.
  apply NoDup_cons in Hd as [Hd1 Hd]. apply NoDup_cons in Hd as [Hd2 _].
  assert (N1 : dl x <> target x) by (intros E; apply Hd1; rewrite <- E; by left).
  assert (N2 : dl x <> dg x) by (intros E; apply Hd2; rewrite <- E; by left).
  assert (N3 : target x <> dg x) by (intros E; apply Hd1; rewrite E; right; by left).
  assert (Pdl : dl x ∈ places x) by (right; by left).
  assert (Pdg : dg x ∈ places x) by (right; right; by left).
  assert (Pta : target x ∈ places x) by by left.
  destruct (create_new x (download_path (place x)) f2) as (f4 & E4 & T4 & Ee4 & Ei4 & En4);
    [done|done|done|by apply Hnone|by apply (pr_dl _ Hx)|done|].
  change (key (download_path (place x))) with (dl x) in Ee4.
  exists (next_ino f2), f4. split; [|split; [done|]].
  { unfold path_exists. rewrite open_entry_at by done. by rewrite Hnone. }
  assert (Hparent4 : parent x = [] \/ entries f4 !! parent x = Some EDir).
  { destruct Hpar as [?|Hpar]; [by left|]. right. rewrite Ee4, lookup_insert_ne; [done|].
    intros E. rewrite <- E, Hnone in Hpar by done. done. }
  destruct (create_new x (digest_path (place x)) f4) as (f5 & E5 & T5 & Ee5 & Ei5 & En5).
  { by apply (to_open _ _ _ _ T4). }
  { by apply (to_alloc _ _ _ _ T4). }
  { done. }
  { fold (dg x). rewrite Ee4, lookup_insert_ne by done. by apply Hnone. }
  { by apply (pr_dg _ Hx). }
  { done. }
  fold (dg x) in Ee5.
  unfold exec, fs_write, mbind, st_mbind, st_bind. rewrite E5. unfold write_file. cbn [ino pos].
  rewrite Ei5, lookup_insert_eq. cbn [snd].
  unfold mret, st_mret, st_ret. cbn [snd].
  assert (Hlook : forall q, entries f5 !! q = if decide (q = dg x) then Some (EFile (next_ino f4))
            else if decide (q = dl x) then Some (EFile (next_ino f2)) else entries f2 !! q).
  { intros q. rewrite Ee5, Ee4, !lookup_insert. repeat case_decide; congruence. }
  split.
  - split; cbn [entries inodes set_inodes].
    + rewrite Hlook. by rewrite decide_False, decide_True by done.
    + rewrite lookup_insert_ne by lia. rewrite Ei5, lookup_insert_ne by lia. rewrite Ei4, lookup_insert_eq. done.
    + rewrite Hlook, !decide_False by done. by apply Hnone.
    + destruct Hparent4 as [?|Hp4]; [by left|]. right. rewrite Ee5, lookup_insert_ne; [done|].
      intros E. destruct T1 as [_ _ E1 _ _].
      destruct Hpar as [Hpar|Hpar]; [rewrite Hpar in E; pose proof (pr_dg _ Hx) as Hk; by rewrite E in Hk|].
      rewrite <- E, Hnone in Hpar by done. done.
    + intros q Hq. rewrite Hlook in Hq. repeat case_decide; try done.
      * injection Hq as Hq. lia.
      * apply A2 in Hq. lia.
  - eapply touches_trans; [exact T1|]. eapply touches_trans; [exact T4|].
    destruct T5 as [O5 A5 E5' I5 N5]. split; [done|done|done| |done].
    intros n Hn' Hne. cbn [inodes set_inodes]. rewrite lookup_insert_ne by lia. by apply I5.
Qed.

(** *** The end of a file moves the download into place *)

Lemma parent_not_place x q : proper x -> q ∈ places x -> parent x = [] \/ parent x <> q.
Proof.
  intros Hx Hq. destruct (parent x) as [|a l] eqn:E; [by left|]. right. intros <-.
  apply (pr_above _ Hx _ Hq). rewrite E. by apply prefixes_whole.
Qed.

Lemma close_phase j f x i c :
  open_fs f -> allocated f -> proper x -> partial f x i c ->
  ty j = Generic -> data_source j = FilePath base -> entry_of j (as_usize (file_num j)) = Some x ->
  let f' := modify_time j f in
  arrived f' x c /\ touches x (Some i) f f' /\ is_Some (inodes f' !! i).
Proof.
  intros Ho Ha Hx Hp Hty Hd He. cbv zeta. unfold modify_time. rewrite Hty, Hd, He.
  unfold resolve_entry_path. rewrite Hty, (pr_valid _ Hx f Ho). cbn [ok].
  destruct Hp as [Pd Pc Pt Pp Pa]. pose proof (pr_distinct _ Hx) as Hnd. unfold places in Hnd.
  apply NoDup_cons in Hnd as [Hd1 Hnd]. apply NoDup_cons in Hnd as [Hd2 _].
  assert (N1 : dl x <> target x) by (intros E; apply Hd1; rewrite <- E; by left).
  assert (N2 : dl x <> dg x) by (intros E; apply Hd2; rewrite <- E; by left).
  assert (N3 : target x <> dg x) by (intros E; apply Hd1; rewrite E; right; by left).
  assert (Pdl : dl x ∈ places x) by (right; by left).
  assert (Pdg : dg x ∈ places x) by (right; right; by left).
  assert (Pta : target x ∈ places x) by by left.
  pose proof Ho as [Hden Hl].
  assert (H1 : exists f1, exec (remove_file (digest_path (place x))) f = f1 /\ open_fs f1 /\ allocated f1
            /\ inodes f1 = inodes f /\ next_ino f1 = next_ino f
            /\ (forall q, q <> dg x -> entries f1 !! q = entries f !! q)).
  { unfold exec, remove_file, remove_entry. rewrite Hden, decide_False by set_solver.
    destruct (entries f !! key (digest_path (place x))) as [[n| |t]|] eqn:E; cbn [snd];
      (eexists; split; [reflexivity|]); try by split_and!.
    all: split_and!; [|intros q n0 | | |]; try done;
      [split; [done|]; cbn; intros q t0; rewrite lookup_delete; case_decide; [done|apply Hl]
      |cbn; rewrite lookup_delete; case_decide; [done|apply Ha]
      |intros q Hq; cbn; by rewrite lookup_delete_ne by done]. }
  destruct H1 as (f1 & -> & [Hden1 Hl1] & Ha1 & Hi1 & Hn1 & He1).
  set (f2 := set_entries (fun m => <[target x := EFile i]> (delete (dl x) m)) f1).
  assert (Hren : exec (rename (download_path (place x)) (place x)) f1 = f2).
  { unfold exec, rename, rename_entry. rewrite Hden1, decide_False by set_solver.
    change (key (download_path (place x))) with (dl x). change (key (place x)) with (target x).
    rewrite (He1 (dl x)), (He1 (target x)), Pd, Pt by done.
    assert (dir_of_exists f1 (target x) = true) as ->; [|done].
    unfold dir_of_exists. rewrite (pr_parent _ Hx). destruct (parent_not_place x (dg x) Hx Pdg) as [->|Hne]; [done|].
    destruct (parent x) as [|a l]; [done|]. destruct Pp as [?|Pp]; [done|].
    rewrite open_entry_at by done. by rewrite He1, Pp. }
  rewrite Hren.
  assert (O2 : open_fs f2).
  { split; [done|]. cbn. intros q t. rewrite lookup_insert, lookup_delete. repeat case_decide; [done|done|apply Hl1]. }
  assert (Hset : exec (set_file_mtime (place x) (modified_time x)) f2
    = set_inodes (alter (fun n => mkInode (content n) (modified_time x)) i) f2).
  { unfold exec, set_file_mtime. rewrite open_entry_at by done.
    change (key (place x)) with (target x). cbn [f2 set_entries entries]. by rewrite lookup_insert_eq. }
  rewrite Hset.
  apply fmap_Some in Pc as (nd & Hnd & ->).
  assert (Hin : inodes (set_inodes (alter (fun n => mkInode (content n) (modified_time x)) i) f2) !! i
                = Some (mkInode (content nd) (modified_time x))).
  { cbn. rewrite lookup_alter_eq, Hi1, Hnd. done. }
  split_and!; [|split|exact (mk_is_Some _ _ Hin)].
  - exists i. split; [|exact Hin]. cbn. by rewrite lookup_insert_eq.
  - exact O2.
  - intros q n. cbn. rewrite lookup_insert, lookup_delete. repeat case_decide; [|done|apply Ha1].
    intros [= <-]. rewrite Hn1. by apply (Ha (dl x)).
  - intros q Hq. left. cbn. rewrite lookup_insert_ne, lookup_delete_ne by (intros <-; done).
    apply He1. by intros ->.
  - intros n _ Hne. cbn. rewrite lookup_alter_ne by congruence. by rewrite Hi1.
  - cbn. lia.
Qed.

(** Before the first file there is nothing to move. *)
Lemma close_nothing j f x :
  open_fs f -> proper x -> space f x ->
  ty j = Generic -> data_source j = FilePath base -> entry_of j (as_usize (file_num j)) = Some x ->
  modify_time j f = f.
Proof.
  intros Ho Hx [Hs _] Hty Hd He. unfold modify_time. rewrite Hty, Hd, He.
  unfold resolve_entry_path. rewrite Hty, (pr_valid _ Hx f Ho). cbn [ok]. pose proof Ho as [Hden _].
  assert (Pdl : dl x ∈ places x) by (right; by left).
  assert (Pdg : dg x ∈ places x) by (right; right; by left).
  assert (Pta : target x ∈ places x) by by left.
  assert (exec (remove_file (digest_path (place x))) f = f) as ->.
  { unfold exec, remove_file, remove_entry. rewrite Hden, decide_False by set_solver.
    change (key (digest_path (place x))) with (dg x). by rewrite (Hs (dg x)). }
  assert (exec (rename (download_path (place x)) (place x)) f = f) as ->.
  { unfold exec, rename, rename_entry. rewrite Hden, decide_False by set_solver.
    change (key (download_path (place x))) with (dl x). by rewrite (Hs (dl x)). }
  unfold exec, set_file_mtime. rewrite open_entry_at by done.
  change (key (place x)) with (target x). by rewrite (Hs (target x)).
Qed.

(** *** The blocks of one file *)

Lemma write_open_at j e k x :
  ty j = Generic -> data_source j = FilePath base -> entry_of j (as_usize (Z.of_nat k)) = Some x -> proper x ->
  negb (as_usize (Z.of_nat k) =? as_usize (file_num j)) = true \/ data_stream j = None ->
  match data_stream j with
  | Some (FileStream h) => is_Some (inodes (modify_time j (fs e)) !! ino h)
  | _ => True
  end ->
  let f1 := modify_time j (fs e) in
  open_fs f1 -> allocated f1 -> space f1 x ->
  exists i f5, write_open digest_to_json base (Z.of_nat k) (j, e)
    = (Ok tt, (with_data_stream (Some (FileStream (mkFile i 0))) (with_file_num (Z.of_nat k) j), mkEnv f5 (net e)))
    /\ partial f5 x i [] /\ touches x None f1 f5.
Proof.
  intros Hty Hd He Hx Hc Hsync f1 Ho Ha Hs.
  destruct (open_phase x f1 (digest_to_json (digest j)) Ho Ha Hx Hs) as (i & f4 & E1 & E2 & Hp & Ht).
  exists i, (exec (fs_write (digest_path (place x)) (digest_to_json (digest j))) f4). split; [|done].
  unfold write_open, mbind, st_mbind, st_bind, get_job, get_fs, put_fs, put_job, st_lift. cbn [fst snd]. cbv zeta.
  rewrite He.
  replace (negb (as_usize (Z.of_nat k) =? as_usize (file_num j)) || match data_stream j with None => true | Some _ => false end)
    with true by (destruct Hc as [->| ->]; [done|by rewrite orb_true_r]).
  cbn [fs net]. fold f1.
  set (s1 := (j, mkEnv f1 (net e))).
  assert (Hsy : match data_stream j with Some (FileStream h) => lift_io (sync_all h) | _ => mret tt end s1 = (Ok tt, s1)).
  { destruct (data_stream j) as [[h|]|]; [|done|done]. unfold lift_io, sync_all, s1. cbn [fs].
    destruct Hsync as [nd Hnd]. fold f1 in Hnd. by rewrite Hnd. }
  rewrite Hsy. unfold s1. cbn [fs net fst snd]. rewrite Hty, (pr_valid _ Hx f1 Ho). cbn [mret st_mret st_ret fs net snd].
  unfold mret, st_mret, st_ret. cbn [fs net snd]. fold (make_parent (place x) f1). rewrite E1.
  unfold lift_io. cbn [fs net]. rewrite E2. cbn [fs net]. reflexivity.
Qed.

(** The first block does what it would do on the opened download. *)
Lemma write_opened j e k j1 e1 b :
  write_open digest_to_json base (Z.of_nat k) (j, e) = (Ok tt, (j1, e1)) ->
  write_open digest_to_json base (Z.of_nat k) (j1, e1) = (Ok tt, (j1, e1)) ->
  data_source j = FilePath base -> data_source j1 = FilePath base -> id j1 = id j ->
  blk_id b = id j -> blk_file_num b = Z.of_nat k ->
  write digest_to_json b (j, e) = write digest_to_json b (j1, e1).
Proof.
  intros E1 E2 D1 D2 Hid Hbi Hb. unfold write, mbind, st_mbind, st_bind, get_job. cbn [fst].
  rewrite Hid, Hbi, Z.eqb_refl. cbn [negb]. by rewrite D1, D2, Hb, E1, E2.
Qed.

(** ** All files, one after the other *)

Variable files_ : list FileEntry.
Variable cs : list (list byte).
Variable id_ : Z.

(** No file is in the way of another. *)
Definition apart : Prop := forall l m x y,
  files_ !! l = Some x -> files_ !! m = Some y -> l <> m ->
  forall q, q ∈ places x -> q ∉ places y /\ q ∉ prefixes (parent y).

Hypothesis Hlen : len files_ < 2 ^ 31.
Hypothesis Hproper : Forall proper files_.
Hypothesis Hapart : apart.

(** The first [k] files are there, and nothing of the others is. *)
Record settled (k : nat) (f : Fs) : Prop := {
  se_open : open_fs f;
  se_alloc : allocated f;
  se_later : forall l x, files_ !! l = Some x -> (k <= l)%nat -> space f x;
  se_earlier : forall l x c, files_ !! l = Some x -> cs !! l = Some c -> (l < k)%nat -> arrived f x c }.

Record receiving (j : TransferJob) : Prop := {
  rc_type : ty j = Generic;
  rc_source : data_source j = FilePath base;
  rc_files : files j = files_;
  rc_id : id j = id_ }.

(** File [k] is being received: its download holds [c], the files before are there. *)
Definition holds (k : nat) (c : list byte) (j : TransferJob) (f : Fs) : Prop :=
  receiving j /\ exists x i, files_ !! k = Some x /\ partial f x i c
    /\ data_stream j = Some (FileStream (mkFile i (len c))) /\ file_num j = Z.of_nat k
    /\ open_fs f /\ allocated f
    /\ (forall l y, files_ !! l = Some y -> (k < l)%nat -> space f y)
    /\ (forall l y d, files_ !! l = Some y -> cs !! l = Some d -> (l < k)%nat -> arrived f y d).

(** The first [k] files came in completely; the last of them is still a download. *)
Definition ready (k : nat) (j : TransferJob) (f : Fs) : Prop :=
  match k with
  | O => receiving j /\ data_stream j = None /\ file_num j = 0 /\ settled 0 f
  | S k => exists c, cs !! k = Some c /\ holds k c j f
  end.

Lemma ready_receiving k j f : ready k j f -> receiving j.
Proof. destruct k as [|k]; [by intros []|]. by intros (c & _ & [? _]). Qed.

Lemma proper_at l x : files_ !! l = Some x -> proper x.
Proof. intros Hx. rewrite Forall_lookup in Hproper. by eapply Hproper. Qed.

(** Work on one file leaves the others alone. *)
Lemma touches_space k l x y o f f' :
  files_ !! k = Some x -> files_ !! l = Some y -> k <> l -> touches x o f f' -> space f y -> space f' y.
Proof.
  intros Hk Hl Hne [_ _ He _ _] [Hs Hp]. split.
  - intros q Hq. destruct (Hapart l k y x Hl Hk (not_eq_sym Hne) q Hq) as [Ha Hb].
    destruct (He q Ha) as [->|(_ & _ & Hc)]; [by apply Hs|done].
  - rewrite Forall_forall in Hp |- *. intros q Hq. specialize (Hp q Hq).
    destruct (decide (q ∈ places x)) as [Hx|Hx]; [by destruct (Hapart k l x y Hk Hl Hne q Hx)|].
    destruct (He q Hx) as [->|(_ & -> & _)]; [done|by right].
Qed.

Lemma touches_arrived k l x y o f f' d :
  files_ !! k = Some x -> files_ !! l = Some y -> k <> l -> touches x o f f' -> allocated f ->
  (forall i, o = Some i -> forall q, entries f !! q = Some (EFile i) -> q = dl x) ->
  arrived f y d -> arrived f' y d.
Proof.
  intros Hk Hl Hne [_ _ He Hi _] Ha Ho (i & E1 & E2). exists i.
  assert (Hq : target y ∈ places y) by by left.
  destruct (Hapart l k y x Hl Hk (not_eq_sym Hne) _ Hq) as [Hx _].
  split.
  - destruct (He _ Hx) as [->|(E & _)]; [done|congruence].
  - rewrite Hi; [done|by eapply Ha|]. intros <-. apply Hx. rewrite (Ho i eq_refl _ E1). right. by left.
Qed.

Lemma entry_of_files j k x : receiving j -> files_ !! k = Some x -> entry_of j (as_usize (Z.of_nat k)) = Some x.
Proof. intros Hr Hk. apply entry_of_spec; by rewrite (rc_files _ Hr). Qed.

(** [modify_time] brings the last file into place, where its stream can still be flushed. *)
Lemma ready_settles k j f :
  ready k j f -> settled k (modify_time j f)
  /\ match data_stream j with
     | Some (FileStream h) => is_Some (inodes (modify_time j f) !! ino h)
     | _ => True
     end.
Proof.
  intros Hk. pose proof (ready_receiving _ _ _ Hk) as Hr. pose proof Hr as [Hty Hd Hf _]. destruct k as [|k].
  - destruct Hk as (_ & -> & Hn & Hs). split; [|done]. destruct (files_ !! 0%nat) as [x|] eqn:E.
    + rewrite (close_nothing j f x); [done|apply Hs|by eapply proper_at|by eapply se_later|done|done|].
      rewrite Hn. by apply (entry_of_files j 0).
    + replace (modify_time j f) with f; [done|]. unfold modify_time. rewrite Hty, Hd, Hn.
      unfold entry_of. rewrite Hf. by destruct files_.
  - destruct Hk as (c & Hc & _ & x & i & Hx & Hp & -> & Hn & Ho & Ha & Hl & He).
    destruct (close_phase j f x i c) as (H1 & H2 & H3);
      [done|done|by eapply proper_at|done|done|done|rewrite Hn; by apply entry_of_files|].
    split; [split; [apply H2|apply H2| |]|exact H3].
    + intros l y Hy Hkl. eapply touches_space; [exact Hx|exact Hy|lia|exact H2|]. by eapply Hl.
    + intros l y d Hy Hdl Hkl. destruct (decide (l = k)) as [->|Hne]; [by simplify_eq|].
      eapply touches_arrived; [exact Hx|exact Hy|lia|exact H2|done| |eapply He; [done..|lia]].
      intros i' [= <-]. apply Hp.
Qed.

(** The next file is opened; the one before is in place then. *)
Lemma next_opened k j e x :
  ready k j (fs e) -> files_ !! k = Some x ->
  exists f5 j1, write_open digest_to_json base (Z.of_nat k) (j, e) = (Ok tt, (j1, mkEnv f5 (net e)))
    /\ write_open digest_to_json base (Z.of_nat k) (j1, mkEnv f5 (net e)) = (Ok tt, (j1, mkEnv f5 (net e)))
    /\ holds k [] j1 f5.
Proof.
  intros Hr Hx. pose proof (ready_receiving _ _ _ Hr) as Hrc. pose proof Hrc as [Hty Hd Hf Hid].
  destruct (ready_settles k j (fs e) Hr) as [Hs Hsy].
  pose proof (entry_of_files j k x Hrc Hx) as He.
  destruct (write_open_at j e k x Hty Hd He (proper_at _ _ Hx)) as (i & f5 & Hw & Hp & Ht);
    [|exact Hsy|apply Hs|apply Hs|by eapply se_later|].
  { destruct k as [|k0]; [by right; destruct Hr as (_ & ? & _)|left].
    destruct Hr as (c & _ & _ & y & i & Hy & _ & _ & Hn & _). rewrite Hn. pose proof (lookup_lt_Some _ _ _ Hx).
    unfold as_usize, len in *. rewrite !wrap_small by lia. apply negb_true_iff, Z.eqb_neq. lia. }
  exists f5, (with_data_stream (Some (FileStream (mkFile i 0))) (with_file_num (Z.of_nat k) j)).
  split; [done|]. split.
  - unfold write_open, mbind, st_mbind, st_bind, get_job. cbn [fst]. cbv zeta.
    change (entry_of _ _) with (entry_of j (as_usize (Z.of_nat k))). rewrite He. cbn [file_num data_stream with_data_stream with_file_num].
    by rewrite Z.eqb_refl.
  - split; [done|]. exists x, i. split_and!; [done..|apply Ht|apply Ht| |].
    + intros l y Hy Hl. eapply (touches_space k l); [done|done|lia|exact Ht|]. eapply se_later; [done|done|lia].
    + intros l y d Hy Hdl Hl. eapply (touches_arrived k l); [done|done|lia|exact Ht|apply Hs|done|].
      by eapply se_earlier.
Qed.

(** One more block of the file. *)
Lemma next_block k j e c b :
  holds k c j (fs e) -> blk_id b = id_ -> blk_file_num b = Z.of_nat k ->
  exists j' e', write digest_to_json b (j, e) = (Ok tt, (j', e')) /\ holds k (c ++ decoded b) j' (fs e').
Proof.
  intros (Hrc & x & i & Hx & Hp & Hst & Hn & Ho & Ha & Hl & He) Hbi Hbn. pose proof Hrc as [Hty Hd Hf Hid].
  assert (Hdl : downloading base j k i e c).
  { split_and!; [done..| |done|apply Hp]. exists x. by apply entry_of_files. }
  destruct (write_next digest_to_json base j k i e c b Hdl) as
    (j2 & e2 & W & (D1 & D2 & D3 & D4 & D5) & (I1 & I2 & I3) & (E1 & E2 & E3) & Hin); [congruence|done|].
  exists j2, e2. split; [done|]. split; [split; congruence|]. exists x, i.
  destruct Hp as [P1 _ P3 P4 P5], Ho as [Ho1 Ho2].
  split_and!; [done| |done|done|split; [congruence|intros q t; rewrite E1; apply Ho2]
              |intros q n; rewrite E1, E3; apply Ha| |].
  - split; [by rewrite E1|done|by rewrite E1|by rewrite E1|]. intros q. rewrite E1. apply P5.
  - intros l y Hy Hlt. destruct (Hl l y Hy Hlt) as [S1 S2].
    split; [intros q Hq; rewrite E1; by apply S1|]. eapply Forall_impl; [exact S2|]. intros q. by rewrite E1.
  - intros l y d Hy Hd' Hlt. destruct (He l y d Hy Hd' Hlt) as (n & A1 & A2).
    exists n. rewrite E1. split; [done|]. rewrite Hin; [done|]. intros ->. apply P5 in A1.
    destruct (Hapart l k y x Hy Hx ltac:(lia) (target y)) as [Q _]; [by left|].
    apply Q. rewrite A1. right. by left.
Qed.

(** The first block of the next file. *)
Lemma first_block k j e x b :
  ready k j (fs e) -> files_ !! k = Some x -> blk_id b = id_ -> blk_file_num b = Z.of_nat k ->
  exists j' e', write digest_to_json b (j, e) = (Ok tt, (j', e')) /\ holds k (decoded b) j' (fs e').
Proof.
  intros Hr Hx Hbi Hbn. destruct (next_opened k j e x Hr Hx) as (f5 & j1 & W1 & W2 & Hh).
  pose proof (ready_receiving _ _ _ Hr) as Hrc. pose proof Hh as [Hrc1 _].
  rewrite (write_opened _ _ _ _ _ b W1 W2 (rc_source _ Hrc) (rc_source _ Hrc1));
    [|by rewrite (rc_id _ Hrc), (rc_id _ Hrc1)|by rewrite (rc_id _ Hrc)|done].
  by apply (next_block k j1 (mkEnv f5 (net e)) [] b).
Qed.

(** The time stamps the sender announces in between do not matter. *)
Lemma ready_digest k j f s m : ready k j f -> ready k (set_digest s m j) f.
Proof.
  destruct k as [|k].
  - intros ([] & ? & ? & ?). by split_and!.
  - intros (c & Hc & [] & Hk). exists c. split; [done|]. by split.
Qed.
End Folder.
