(* ===== verification/Float32.v ===== *)
(** * Single precision floating point

    Rust's [f32] is IEEE binary32, given by the Standard Library's executable
    specification ([SpecFloat], 24 bits of mantissa, exponents below 128).  The
    order on floats that are not NaN is total and transitive, and products of
    finite numbers are not NaN: this is what the clamps of the video controller
    rely on. *)

From S2P Require Import Prelude.
From Stdlib Require Import Floats.SpecFloat.

Abbreviation f32 := spec_float.

(** [z as f32], rounded to nearest, ties to even. *)
Definition f_of_Z (z : Z) : f32 := binary_normalize 24 128 z 0 false.

Definition fmul : f32 -> f32 -> f32 := SFmul 24 128.
Definition fdiv : f32 -> f32 -> f32 := SFdiv 24 128.
Definition fadd : f32 -> f32 -> f32 := SFadd 24 128.
Definition fsub : f32 -> f32 -> f32 := SFsub 24 128.
Definition flt : f32 -> f32 -> bool := SFltb.
Definition fle : f32 -> f32 -> bool := SFleb.

(** A decimal literal [n/d], both exact: the nearest float. *)
Definition lit (n d : Z) : f32 := fdiv (f_of_Z n) (f_of_Z d).

Definition is_nan (x : f32) : bool := match x with S754_nan => true | _ => false end.
Definition is_finite (x : f32) : bool :=
  match x with S754_zero _ | S754_finite _ _ _ => true | _ => false end.

(** [f32::max] and [f32::min] prefer the argument that is a number. *)
Definition fmax (a b : f32) : f32 :=
  if is_nan a then b else if is_nan b then a else if flt a b then b else a.
Definition fmin (a b : f32) : f32 :=
  if is_nan a then b else if is_nan b then a else if flt b a then b else a.

(** [f32::clamp] panics ([None]) unless [min <= max]. *)
Definition fclamp (v min max : f32) : option f32 :=
  if fle min max then
    Some (let v := if flt v min then min else v in if flt max v then max else v)
  else None.

(** Saturation of [as u32]. *)
Definition sat_u32 (z : Z) : Z := Z.max 0 (Z.min (2 ^ 32 - 1) z).

(** [x as u32]: towards zero, saturating, 0 for NaN. *)
Definition f_as_u32 (x : f32) : Z :=
  match x with
  | S754_zero _ | S754_nan => 0
  | S754_infinity s => if s then 0 else 2 ^ 32 - 1
  | S754_finite s m e =>
      if s then 0
      else sat_u32 (if 0 <=? e then Z.shiftl (Zpos m) e else Z.shiftr (Zpos m) (- e))
  end.

(** [x.ceil() as u32]. *)
Definition f_ceil_as_u32 (x : f32) : Z :=
  match x with
  | S754_finite false m e =>
      if 0 <=? e then sat_u32 (Z.shiftl (Zpos m) e)
      else sat_u32 (- Z.shiftr (- Zpos m) (- e))
  | x => f_as_u32 x
  end.

(** ** Order *)

Lemma pos_cmp m n : Pos.compare_cont Eq m n = (m ?= n)%positive.
Proof. done. Qed.

Ltac fcase :=
  repeat match goal with
  | H : context [(?a ?= ?b)%Z] |- _ => destruct (Z.compare_spec a b)
  | |- context [(?a ?= ?b)%Z] => destruct (Z.compare_spec a b)
  | H : context [(?a ?= ?b)%positive] |- _ => destruct (Pos.compare_spec a b)
  | |- context [(?a ?= ?b)%positive] => destruct (Pos.compare_spec a b)
  end; simpl in *; try done; try lia.

Lemma fle_trans a b c : fle a b = true -> fle b c = true -> fle a c = true.
Proof.
  unfold fle, SFleb, SFcompare.
  destruct a as [[]|[]| |[] ma ea], b as [[]|[]| |[] mb eb], c as [[]|[]| |[] mc ec];
    try done; rewrite ?pos_cmp; intros; rewrite ?pos_cmp in *; fcase.
Qed.

Lemma fle_refl a : is_nan a = false -> fle a a = true.
Proof.
  unfold fle, SFleb, SFcompare. destruct a as [[]|[]| |[] m e]; try done;
    rewrite Z.compare_refl, pos_cmp, Pos.compare_refl; done.
Qed.

Lemma flt_fle a b : flt a b = true -> fle a b = true.
Proof. unfold flt, fle, SFltb, SFleb. by destruct (SFcompare a b) as [[]|]. Qed.

Lemma fle_total a b :
  is_nan a = false -> is_nan b = false -> flt a b = false -> fle b a = true.
Proof.
  unfold flt, fle, SFltb, SFleb, SFcompare.
  destruct a as [[]|[]| |[] ma ea], b as [[]|[]| |[] mb eb];
    try done; rewrite ?pos_cmp; intros; rewrite ?pos_cmp in *; fcase.
Qed.

Lemma fle_not_nan a b : fle a b = true -> is_nan a = false /\ is_nan b = false.
Proof. destruct a as [[]|[]| |[] ma ea], b as [[]|[]| |[] mb eb]; done. Qed.

(** ** Rounding never produces NaN *)

Lemma shr_1_nonneg r : 0 <= shr_m r -> 0 <= shr_m (shr_1 r).
Proof. destruct r as [[|[]|[]] ? ?]; simpl; lia. Qed.

Lemma iter_shr_nonneg p : forall r, 0 <= shr_m r -> 0 <= shr_m (iter_pos shr_1 p r).
Proof. induction p; simpl; intros; auto using shr_1_nonneg. Qed.

Lemma shr_fexp_nonneg p x m e l : 0 <= m -> 0 <= shr_m (fst (shr_fexp p x m e l)).
Proof.
  intros Hm. unfold shr_fexp, shr.
  assert (0 <= shr_m (shr_record_of_loc m l)) by by destruct l as [|[]].
  destruct (fexp p x (Zdigits2 m + e) - e); simpl; auto using iter_shr_nonneg.
Qed.

Lemma round_not_nan p x s m e l : 0 <= m -> is_nan (binary_round_aux p x s m e l) = false.
Proof.
  intros Hm. unfold binary_round_aux.
  pose proof (shr_fexp_nonneg p x m e l Hm) as H1.
  destruct (shr_fexp p x m e l) as [r1 e1]. simpl in H1.
  set (m1 := round_nearest_even (shr_m r1) (loc_of_shr_record r1)).
  assert (Hm1 : 0 <= m1).
  { unfold m1, round_nearest_even. repeat case_match; lia. }
  pose proof (shr_fexp_nonneg p x m1 e1 loc_Exact Hm1) as H2.
  destruct (shr_fexp p x m1 e1 loc_Exact) as [r2 e2]. simpl in H2.
  destruct (shr_m r2); [done| |lia]. by case_match.
Qed.

(** The product of finite numbers is a number (perhaps infinite). *)
Lemma fmul_not_nan a b : is_finite a = true -> is_finite b = true -> is_nan (fmul a b) = false.
Proof.
  destruct a as [[]|[]| |[] ma ea], b as [[]|[]| |[] mb eb]; try done; intros _ _;
    apply round_not_nan; lia.
Qed.

(** A number between two finite ones is finite. *)
Lemma between_finite lo hi v :
  is_finite lo = true -> is_finite hi = true -> fle lo v = true -> fle v hi = true ->
  is_finite v = true.
Proof. destruct lo as [[]|[]| |[] m e], hi as [[]|[]| |[] m' e'], v as [[]|[]| |[] n f]; done. Qed.

(** ** Clamping *)

Lemma fclamp_spec v lo hi :
  is_nan v = false -> fle lo hi = true ->
  exists r, fclamp v lo hi = Some r /\ fle lo r = true /\ fle r hi = true.
Proof.
  intros Hv Hb. destruct (fle_not_nan _ _ Hb) as [Hl Hh].
  unfold fclamp. rewrite Hb. eexists. split; [done|].
  destruct (flt v lo) eqn:E1.
  - destruct (flt hi lo) eqn:E2; [|by auto using fle_refl].
    split; [done|by apply fle_refl].
  - pose proof (fle_total _ _ Hv Hl E1). destruct (flt hi v) eqn:E2; [by auto using fle_refl|].
    split; [done|by apply fle_total].
Qed.

(** [f32::max] with a number is at least that number. *)
Lemma fmax_ge a b : is_nan b = false -> fle b (fmax a b) = true /\ is_nan (fmax a b) = false.
Proof.
  intros Hb. unfold fmax. destruct (is_nan a) eqn:Ha; [by auto using fle_refl|]. rewrite Hb.
  destruct (flt a b) eqn:E; [by auto using fle_refl|]. split; [by apply fle_total|done].
Qed.
