(* ===== verification/VideoQos.v ===== *)
(** * Video quality control (src/server/video_qos.rs)

    The controller keeps, per connected user, the recent network delays and the
    wishes of the user, and derives from them the frame rate and the bitrate
    ratio of the encoder.  A panic (a [clamp] whose bounds cross) is [None]: the
    release build aborts the whole process on one.  Arithmetic wraps, as in the
    release build.  [Instant]s are milliseconds, the current one is an argument;
    where the code walks a hash map the order is that of the map's elements. *)

From S2P Require Import Prelude Float32.
From Stdlib Require Import Floats.SpecFloat.

Definition FPS : Z := 30.
Definition MIN_FPS : Z := 1.
Definition MAX_FPS : Z := 120.
Definition INIT_FPS : Z := 15.

Definition BR_MAX : f32 := lit 40 1.
Definition BR_MIN : f32 := lit 2 10.
Definition BR_MIN_HIGH_RESOLUTION : f32 := lit 1 10.
Definition MAX_BR_MULTIPLE : f32 := lit 1 1.

Definition HISTORY_DELAY_LEN : Z := 2.
Definition ADJUST_RATIO_INTERVAL : Z := 3.
Definition DYNAMIC_SCREEN_THRESHOLD : Z := 2.
Definition DELAY_THRESHOLD_150MS : Z := 150.

(** libs/scrap/src/common/codec.rs *)
Definition BR_BEST : f32 := lit 15 10.
Definition BR_BALANCED : f32 := lit 67 100.
Definition BR_SPEED : f32 := lit 5 10.

Inductive Quality : Type := Best | Balanced | Low | Custom (v : f32).

Definition quality_ratio (q : Quality) : f32 :=
  match q with
  | Best => BR_BEST
  | Balanced => BR_BALANCED
  | Low => BR_SPEED
  | Custom v => v
  end.

(** ** Round trip times *)

Record RttCalculator : Type := mkRtt {
  min_rtt : option Z;
  window_min_rtt : option Z;
  smoothed_rtt : option Z;
  samples : list Z
}.

Definition WINDOW_SAMPLES : Z := 60.
Definition MIN_SAMPLES : Z := 10.
Definition ALPHA : f32 := lit 5 10.

Definition rtt_update (delay : Z) (r : RttCalculator) : RttCalculator :=
  let min_rtt :=
    match min_rtt r with
    | Some m => if delay <? m then Some delay else Some m
    | None => Some delay
    end in
  let samples := if WINDOW_SAMPLES <=? len (samples r) then tail (samples r) else samples r in
  let samples := samples ++ [delay] in
  let window_min_rtt := list_min samples in
  let smoothed_rtt :=
    if WINDOW_SAMPLES <=? len samples then
      match min_rtt, window_min_rtt with
      | Some m, Some w =>
          Some (f_as_u32 (fadd (fmul (fsub (lit 1 1) ALPHA) (f_of_Z m)) (fmul ALPHA (f_of_Z w))))
      | _, _ => smoothed_rtt r
      end
    else smoothed_rtt r in
  mkRtt min_rtt window_min_rtt smoothed_rtt samples.

Definition get_rtt (r : RttCalculator) : option Z :=
  match smoothed_rtt r with
  | Some rtt => Some rtt
  | None => if MIN_SAMPLES <=? len (samples r) then min_rtt r else None
  end.

(** ** Users *)

Record UserDelay : Type := mkUserDelay {
  response_delayed : bool;
  delay_history : list Z;
  delay_fps : option Z;
  rtt_calculator : RttCalculator;
  quick_increase_fps_count : Z;
  increase_fps_count : Z
}.

Definition default_delay : UserDelay := mkUserDelay false [] None (mkRtt None None None []) 0 0.

Definition add_delay (delay : Z) (u : UserDelay) : UserDelay :=
  let h := if HISTORY_DELAY_LEN <? len (delay_history u)
           then tail (delay_history u) else delay_history u in
  mkUserDelay (response_delayed u) (h ++ [delay]) (delay_fps u)
    (rtt_update delay (rtt_calculator u)) (quick_increase_fps_count u) (increase_fps_count u).

Definition sum_u32 (l : list Z) : Z := foldl (fun a b => as_u32 (a + b)) 0 l.

Definition avg_delay (u : UserDelay) : Z :=
  let n := len (delay_history u) in
  if 0 <? n then
    let avg := sum_u32 (delay_history u) / n in
    match get_rtt (rtt_calculator u) with
    | Some rtt => if rtt <? avg then avg - rtt else avg
    | None => avg
    end
  else DELAY_THRESHOLD_150MS.

Record UserData : Type := mkUserData {
  auto_adjust_fps : option Z;
  custom_fps : option Z;
  quality : option (Z * Quality);
  delay : UserDelay;
  user_record_flag : bool
}.

Definition default_user : UserData := mkUserData None None None default_delay false.

Definition with_delay (d : UserDelay) (u : UserData) : UserData :=
  mkUserData (auto_adjust_fps u) (custom_fps u) (quality u) d (user_record_flag u).

Record DisplayData : Type := mkDisplayData {
  send_counter : Z;
  support_changing_quality : bool
}.

Record VideoQoS : Type := mkQoS {
  fps_ : Z;
  ratio_ : f32;
  users : gmap Z UserData;
  displays : gmap string DisplayData;
  bitrate_store : Z;
  adjust_ratio_instant : Z;
  abr_config : bool;
  new_user_instant : Z
}.

Definition qos_default (now : Z) : VideoQoS :=
  mkQoS FPS BR_BALANCED ∅ ∅ 0 now true now.

Definition with_fps (v : Z) (s : VideoQoS) : VideoQoS :=
  mkQoS v (ratio_ s) (users s) (displays s) (bitrate_store s) (adjust_ratio_instant s)
    (abr_config s) (new_user_instant s).
Definition with_ratio (v : f32) (s : VideoQoS) : VideoQoS :=
  mkQoS (fps_ s) v (users s) (displays s) (bitrate_store s) (adjust_ratio_instant s)
    (abr_config s) (new_user_instant s).
Definition with_users (v : gmap Z UserData) (s : VideoQoS) : VideoQoS :=
  mkQoS (fps_ s) (ratio_ s) v (displays s) (bitrate_store s) (adjust_ratio_instant s)
    (abr_config s) (new_user_instant s).
Definition with_displays (v : gmap string DisplayData) (s : VideoQoS) : VideoQoS :=
  mkQoS (fps_ s) (ratio_ s) (users s) v (bitrate_store s) (adjust_ratio_instant s)
    (abr_config s) (new_user_instant s).

(** The values of a map, in the order of its elements. *)
Definition vals {K A} `{Countable K} (m : gmap K A) : list A := snd <$> map_to_list m.

(** ** Reading the state *)

Definition fps (s : VideoQoS) : Z :=
  if (MIN_FPS <=? fps_ s) && (fps_ s <=? MAX_FPS) then fps_ s else FPS.

Definition spf (s : VideoQoS) : f32 := fdiv (lit 1 1) (f_of_Z (fps s)).

Definition store_bitrate (bitrate : Z) (s : VideoQoS) : VideoQoS :=
  mkQoS (fps_ s) (ratio_ s) (users s) (displays s) bitrate (adjust_ratio_instant s)
    (abr_config s) (new_user_instant s).

Definition ratio (s : VideoQoS) : f32 * VideoQoS :=
  let s := if flt (ratio_ s) BR_MIN_HIGH_RESOLUTION || flt BR_MAX (ratio_ s)
           then with_ratio BR_BALANCED s else s in
  (ratio_ s, s).

Definition record (s : VideoQoS) : bool := existsb user_record_flag (vals (users s)).

Definition set_support_changing_quality (name : string) (support : bool) (s : VideoQoS)
  : VideoQoS :=
  with_displays (alter (fun d => mkDisplayData (send_counter d) support) name (displays s)) s.

Definition in_vbr_state (s : VideoQoS) : bool :=
  abr_config s && forallb support_changing_quality (vals (displays s)).

(** [u32::clamp]. *)
Definition clamp (v lo hi : Z) : option Z :=
  if lo <=? hi then Some (Z.max lo (Z.min v hi)) else None.

Definition user_fps (u : UserData) : Z :=
  let f := match custom_fps u with Some f => f | None => FPS end in
  match auto_adjust_fps u with
  | Some a => if (f =? 0) || (a <? f) then a else f
  | None => f
  end.

Definition highest_fps (s : VideoQoS) : Z :=
  let f := match list_min (List.filter (fun u => MIN_FPS <=? u) (user_fps <$> vals (users s))) with
           | Some f => f
           | None => FPS
           end in
  Z.max MIN_FPS (Z.min f MAX_FPS).

(** The last of the greatest elements, as [Iterator::max_by]. *)
Definition later (a b : Z * Quality) : Z * Quality := if fst b <? fst a then a else b.

Definition latest_quality (s : VideoQoS) : Quality :=
  match omap quality (vals (users s)) with
  | [] => Balanced
  | q :: qs => snd (foldl later q qs)
  end.

(** ** Adjusting the frame rate and the ratio *)

Definition elapsed_secs (now t : Z) : Z := (now - t) / 1000.

Definition adjust_fps (now : Z) (s : VideoQoS) : option VideoQoS :=
  let highest := highest_fps s in
  let f := match list_min ((fun u => match delay_fps (delay u) with
                                     | Some f => f
                                     | None => INIT_FPS
                                     end) <$> vals (users s)) with
           | Some f => f
           | None => INIT_FPS
           end in
  let f := if existsb (fun u => response_delayed (delay u)) (vals (users s)) then
             if MIN_FPS + 1 <? f then MIN_FPS + 1 else f
           else f in
  let f := if elapsed_secs now (new_user_instant s) <? 1 then
             if INIT_FPS <? f then INIT_FPS else f
           else f in
  f ← clamp f MIN_FPS highest;
  Some (with_fps f s).

(** The lower bound of the ratio for a quality. *)
Definition min_ratio (q : Quality) (ratio_1mbps : option f32) : f32 :=
  let lower min :=
    match ratio_1mbps with
    | Some r => if flt r min then r else min
    | None => min
    end in
  match q with
  | Best => fmax (lower (fdiv BR_BEST (lit 25 10))) BR_MIN
  | Balanced => fmax (lower (fmin (fdiv BR_BALANCED (lit 2 1)) (lit 4 10))) BR_MIN_HIGH_RESOLUTION
  | Low => BR_MIN_HIGH_RESOLUTION
  | Custom _ => BR_MIN_HIGH_RESOLUTION
  end.

Definition scaled_ratio (max_delay : Z) (dynamic_screen : bool) (current : f32) : f32 :=
  let up n := if dynamic_screen then fmul current (lit n 100) else current in
  if max_delay <? 50 then up 115
  else if max_delay <? 100 then up 110
  else if max_delay <? DELAY_THRESHOLD_150MS then up 105
  else if max_delay <? 200 then fmul current (lit 95 100)
  else if max_delay <? 300 then fmul current (lit 90 100)
  else if max_delay <? 500 then fmul current (lit 85 100)
  else fmul current (lit 80 100).

Definition adjust_ratio (now : Z) (dynamic_screen : bool) (s : VideoQoS) : option VideoQoS :=
  if negb (in_vbr_state s) then Some s
  else match list_max ((fun u => avg_delay (delay u)) <$> vals (users s)) with
  | None => Some s
  | Some max_delay =>
      let target := latest_quality s in
      let current_ratio := ratio_ s in
      let current_bitrate := bitrate_store s in
      let ratio_1mbps :=
        if 0 <? current_bitrate then
          Some (fmax (fdiv (fmul current_ratio (lit 1000 1)) (f_of_Z current_bitrate))
                  BR_MIN_HIGH_RESOLUTION)
        else None in
      let ratio_add_150kbps :=
        if 0 <? current_bitrate then
          Some (fdiv (fmul (f_of_Z (as_u32 (current_bitrate + 150))) current_ratio)
                  (f_of_Z current_bitrate))
        else None in
      let min := min_ratio target ratio_1mbps in
      let max := fmul (quality_ratio target) MAX_BR_MULTIPLE in
      let v := scaled_ratio max_delay dynamic_screen current_ratio in
      let v := match ratio_add_150kbps with
               | Some a => if flt a v && flt current_ratio a && fle BR_SPEED current_ratio
                           then a else v
               | None => v
               end in
      v ← fclamp v min max;
      Some (mkQoS (fps_ s) v (users s) (displays s) (bitrate_store s) now (abr_config s)
              (new_user_instant s))
  end.

(** ** Events *)

Definition on_connection_open (now : Z) (enable_abr : string) (id : Z) (s : VideoQoS)
  : VideoQoS :=
  mkQoS (fps_ s) (ratio_ s) (<[id := default_user]> (users s)) (displays s) (bitrate_store s)
    (adjust_ratio_instant s) (negb (String.eqb enable_abr "N")) now.

Definition on_connection_close (now : Z) (id : Z) (s : VideoQoS) : VideoQoS :=
  let m := delete id (users s) in
  if decide (m = ∅) then qos_default now else with_users m s.

Definition user_custom_fps (id f : Z) (s : VideoQoS) : VideoQoS :=
  if (f <? MIN_FPS) || (MAX_FPS <? f) then s
  else with_users (alter (fun u => mkUserData (auto_adjust_fps u) (Some f) (quality u) (delay u)
                                     (user_record_flag u)) id (users s)) s.

Definition user_auto_adjust_fps (id f : Z) (s : VideoQoS) : VideoQoS :=
  if (f <? MIN_FPS) || (MAX_FPS <? f) then s
  else with_users (alter (fun u => mkUserData (Some f) (custom_fps u) (quality u) (delay u)
                                     (user_record_flag u)) id (users s)) s.

(** [ImageQuality] of message.proto: Low 2, Balanced 3, Best 4. *)
Definition convert_quality (q : Z) : option Quality :=
  if q =? 3 then Some Balanced
  else if q =? 2 then Some Low
  else if q =? 4 then Some Best
  else
    let b := fdiv (f_of_Z (Z.land (Z.shiftr q 8) 0xFFF * 2)) (lit 100 1) in
    Custom <$> fclamp b BR_MIN BR_MAX.

(** [time] is [get_time()], milliseconds of the wall clock. *)
Definition user_image_quality (time id image_quality : Z) (s : VideoQoS) : option VideoQoS :=
  q ← convert_quality image_quality;
  match users s !! id with
  | None => Some s
  | Some u =>
      let u := mkUserData (auto_adjust_fps u) (custom_fps u) (Some (time, q)) (delay u)
                 (user_record_flag u) in
      let s := with_users (<[id := u]> (users s)) s in
      Some (with_ratio (quality_ratio (latest_quality s)) s)
  end.

Definition user_record (id : Z) (v : bool) (s : VideoQoS) : VideoQoS :=
  with_users (alter (fun u => mkUserData (auto_adjust_fps u) (custom_fps u) (quality u) (delay u) v)
                id (users s)) s.

(** The frame rate the delay of one user asks for, before the limits are applied,
    with the two counters. *)
Definition step_fps (min_fps normal_fps old_avg avg fps : Z) (quick inc : Z) : Z * Z * Z :=
  let '(f, quick) :=
    if avg <? 50 then
      let quick := quick + 1 in
      let step := if fps <? normal_fps then 1 else 0 in
      let '(step, quick) := if 3 <=? quick then (5, 0) else (step, quick) in
      (Z.max min_fps (fps + step), quick)
    else if avg <? 100 then
      let step := if avg <? old_avg then if fps <? normal_fps then 1 else 0 else 0 in
      (Z.max min_fps (fps + step), quick)
    else if avg <? DELAY_THRESHOLD_150MS then (Z.max min_fps fps, quick)
    else
      let devide_fps := f_ceil_as_u32
        (fdiv (f_of_Z fps) (fdiv (f_of_Z avg) (f_of_Z DELAY_THRESHOLD_150MS))) in
      let dividend_ms := DELAY_THRESHOLD_150MS * min_fps in
      if avg <? 200 then (Z.max min_fps devide_fps, quick)
      else if avg <? 300 then (Z.min min_fps devide_fps, quick)
      else if avg <? 600 then (dividend_ms / avg, quick)
      else (Z.min (dividend_ms / avg) devide_fps, quick) in
  let inc := if avg <? DELAY_THRESHOLD_150MS then inc + 1 else 0 in
  let '(f, inc) := if 3 <=? inc then (f + 1, 0) else (f, inc) in
  let quick := if 50 <? avg then 0 else quick in
  (f, quick, inc).

(** The rates a quality asks for on a bad and on a good network. *)
Definition fps_band (target_ratio : f32) : Z * Z :=
  if fle BR_BEST target_ratio then (8, 16)
  else if fle BR_BALANCED target_ratio then (10, 20)
  else (12, 24).

Definition user_network_delay (is_linux : bool) (now id new_delay : Z) (s : VideoQoS)
  : option VideoQoS :=
  let highest := highest_fps s in
  let '(min_fps, normal_fps) := fps_band (quality_ratio (latest_quality s)) in
  '(adjust, s) ←
    match users s !! id with
    | None => Some (false, s)
    | Some u =>
        let d := delay u in
        let old_avg := avg_delay d in
        let d := add_delay (Z.max new_delay 10) d in
        let avg := Z.max (avg_delay d) 10 in
        let '(f, quick, inc) := step_fps min_fps normal_fps old_avg avg (fps_ s)
                                  (quick_increase_fps_count d) (increase_fps_count d) in
        f ← clamp f MIN_FPS highest;
        let adjust := match delay_fps d with None => true | Some _ => false end in
        let d := mkUserDelay (response_delayed d) (delay_history d) (Some f) (rtt_calculator d)
                   quick inc in
        Some (adjust, with_users (<[id := with_delay d u]> (users s)) s)
    end;
  s ← adjust_fps now s;
  if (adjust : bool) && negb is_linux then adjust_ratio now false s else Some s.

Definition user_delay_response_elapsed (now id elapsed : Z) (s : VideoQoS) : option VideoQoS :=
  match users s !! id with
  | None => Some s
  | Some u =>
      let d := delay u in
      let delayed := 2000 <? elapsed in
      let d := mkUserDelay delayed (delay_history d) (delay_fps d) (rtt_calculator d)
                 (quick_increase_fps_count d) (increase_fps_count d) in
      let d := if delayed then add_delay (as_u32 elapsed) d else d in
      let s := with_users (<[id := with_delay d u]> (users s)) s in
      if delayed then adjust_fps now s else Some s
  end.

Definition new_display (name : string) (s : VideoQoS) : VideoQoS :=
  with_displays (<[name := mkDisplayData 0 false]> (displays s)) s.

Definition remove_display (name : string) (s : VideoQoS) : VideoQoS :=
  with_displays (delete name (displays s)) s.

Definition update_display_data (now : Z) (name : string) (sent : Z) (s : VideoQoS)
  : option VideoQoS :=
  let s := with_displays
    (alter (fun d => mkDisplayData (as_u64 (send_counter d + sent)) (support_changing_quality d))
       name (displays s)) s in
  s ← adjust_fps now s;
  if in_vbr_state s then
    if ADJUST_RATIO_INTERVAL <=? elapsed_secs now (adjust_ratio_instant s) then
      let dynamic_screen :=
        existsb (fun d => ADJUST_RATIO_INTERVAL * DYNAMIC_SCREEN_THRESHOLD <=? send_counter d)
          (vals (displays s)) in
      let s := with_displays
        ((fun d => mkDisplayData 0 (support_changing_quality d)) <$> displays s) s in
      adjust_ratio now dynamic_screen s
    else Some s
  else Some (with_ratio (quality_ratio (latest_quality s)) s).

(** ** Every event *)

Inductive Event : Type :=
| Open (now : Z) (enable_abr : string) (id : Z)
| Close (now id : Z)
| CustomFps (id f : Z)
| AutoAdjustFps (id f : Z)
| SetQuality (time id q : Z)
| Record_ (id : Z) (v : bool)
| NetworkDelay (now id d : Z)
| ResponseElapsed (now id elapsed : Z)
| NewDisplay (name : string)
| RemoveDisplay (name : string)
| SupportQuality (name : string) (b : bool)
| StoreBitrate (b : Z)
| ReadRatio
| DisplayTick (now : Z) (name : string) (sent : Z).

Definition on_event (is_linux : bool) (e : Event) (s : VideoQoS) : option VideoQoS :=
  match e with
  | Open now abr id => Some (on_connection_open now abr id s)
  | Close now id => Some (on_connection_close now id s)
  | CustomFps id f => Some (user_custom_fps id f s)
  | AutoAdjustFps id f => Some (user_auto_adjust_fps id f s)
  | SetQuality time id q => user_image_quality time id q s
  | Record_ id v => Some (user_record id v s)
  | NetworkDelay now id d => user_network_delay is_linux now id d s
  | ResponseElapsed now id e => user_delay_response_elapsed now id e s
  | NewDisplay n => Some (new_display n s)
  | RemoveDisplay n => Some (remove_display n s)
  | SupportQuality n b => Some (set_support_changing_quality n b s)
  | StoreBitrate b => Some (store_bitrate b s)
  | ReadRatio => Some (snd (ratio s))
  | DisplayTick now n k => update_display_data now n k s
  end.

Fixpoint run (is_linux : bool) (es : list Event) (s : VideoQoS) : option VideoQoS :=
  match es with
  | [] => Some s
  | e :: es => s ← on_event is_linux e s; run is_linux es s
  end.

(** ** The invariant *)

Definition in_fps (o : option Z) : Prop :=
  match o with Some f => MIN_FPS <= f <= MAX_FPS | None => True end.

Definition ratio_ok (r : f32) : Prop := fle BR_MIN_HIGH_RESOLUTION r = true /\ fle r BR_MAX = true.

(** A custom quality lies within the limits, also once multiplied. *)
Definition quality_ok (q : Quality) : Prop :=
  match q with
  | Custom v => ratio_ok v /\ ratio_ok (fmul v MAX_BR_MULTIPLE)
  | _ => True
  end.

Definition user_ok (u : UserData) : Prop :=
  in_fps (custom_fps u) /\ in_fps (auto_adjust_fps u) /\ in_fps (delay_fps (delay u)) /\
  (forall t q, quality u = Some (t, q) -> quality_ok q) /\
  len (delay_history (delay u)) <= HISTORY_DELAY_LEN + 1 /\
  len (samples (rtt_calculator (delay u))) <= WINDOW_SAMPLES.

Definition users_ok (s : VideoQoS) : Prop := map_Forall (fun _ => user_ok) (users s).

Definition qos_ok (s : VideoQoS) : Prop :=
  users_ok s /\ MIN_FPS <= fps_ s <= MAX_FPS /\ ratio_ok (ratio_ s).

Lemma vals_ok s : users_ok s -> Forall user_ok (vals (users s)).
Proof.
  intros H. rewrite Forall_forall. intros u Hu. unfold vals in Hu.
  apply list_elem_of_fmap in Hu as ([k u'] & -> & Hu). apply elem_of_map_to_list in Hu.
  by apply (H k).
Qed.

Lemma highest_range s : MIN_FPS <= highest_fps s <= MAX_FPS.
Proof. unfold highest_fps, MIN_FPS, MAX_FPS. lia. Qed.

Lemma clamp_range v lo hi : lo <= hi -> exists r, clamp v lo hi = Some r /\ lo <= r <= hi.
Proof. intros H. unfold clamp. destruct (Z.leb_spec lo hi); [|lia]. eexists. split; [done|lia]. Qed.

Lemma adjust_fps_ok now s :
  users_ok s -> ratio_ok (ratio_ s) -> exists s', adjust_fps now s = Some s' /\ qos_ok s'.
Proof.
  intros Hu Hr. unfold adjust_fps. pose proof (highest_range s) as Hh.
  match goal with |- context [clamp ?v _ _] =>
    destruct (clamp_range v MIN_FPS (highest_fps s)) as (f & Hf & Hb); [lia|] end.
  rewrite Hf. eexists. split; [done|]. split; [done|split; [cbn; lia|done]].
Qed.

Lemma later_ok q qs :
  quality_ok (snd q) -> Forall (fun x => quality_ok (snd x)) qs ->
  quality_ok (snd (foldl later q qs)).
Proof.
  revert q. induction qs as [|x qs IH]; intros q Hq Hqs; [done|].
  apply Forall_cons in Hqs as [Hx Hqs]. cbn. apply IH; [|done]. unfold later.
  by destruct (fst x <? fst q).
Qed.

Lemma latest_quality_ok s : users_ok s -> quality_ok (latest_quality s).
Proof.
  intros Hu. apply vals_ok in Hu. unfold latest_quality.
  assert (H : Forall (fun x => quality_ok (snd x)) (omap quality (vals (users s)))).
  { rewrite Forall_forall. intros [t q] Hx. apply list_elem_of_omap in Hx as (u & Hin & Hq).
    rewrite Forall_forall in Hu. destruct (Hu u Hin) as (_ & _ & _ & H & _). by apply (H t). }
  destruct (omap quality (vals (users s))) as [|q qs]; [done|].
  apply Forall_cons in H as [? ?]. by apply later_ok.
Qed.

(** All the custom qualities a message can ask for, checked one by one. *)
Definition custom_value (n : Z) : option f32 :=
  fclamp (fdiv (f_of_Z (n * 2)) (lit 100 1)) BR_MIN BR_MAX.

Definition ratio_okb (r : f32) : bool := fle BR_MIN_HIGH_RESOLUTION r && fle r BR_MAX.

Lemma custom_values_ok :
  forallb (fun n => match custom_value (Z.of_nat n) with
                    | Some v => ratio_okb v && ratio_okb (fmul v MAX_BR_MULTIPLE)
                    | None => false
                    end) (seq 0 4096) = true.
Proof. vm_compute. reflexivity. Qed.

Lemma convert_quality_ok q : exists r, convert_quality q = Some r /\ quality_ok r.
Proof.
  unfold convert_quality. destruct (q =? 3), (q =? 2), (q =? 4); try by eexists.
  set (n := Z.land (Z.shiftr q 8) 0xFFF).
  assert (Hn : 0 <= n < 4096).
  { unfold n. change 0xFFF with (Z.ones 12). rewrite Z.land_ones by lia.
    apply Z.mod_pos_bound. lia. }
  pose proof custom_values_ok as H. rewrite forallb_forall in H.
  specialize (H (Z.to_nat n)). rewrite Z2Nat.id in H by lia.
  assert (Hin : In (Z.to_nat n) (seq 0 4096)) by (apply in_seq; lia).
  specialize (H Hin). change (fclamp _ _ _) with (custom_value n).
  destruct (custom_value n) as [v|]; [|done]. eexists. split; [done|].
  unfold ratio_okb in H. to_prop. done.
Qed.

Lemma fmax_le a b hi : fle a hi = true -> fle b hi = true -> fle (fmax a b) hi = true.
Proof. unfold fmax. intros. by destruct (is_nan a), (is_nan b), (flt a b). Qed.

(** The bounds handed to the final clamp never cross. *)
Lemma min_ratio_ok q r :
  quality_ok q ->
  fle BR_MIN_HIGH_RESOLUTION (min_ratio q r) = true /\
  fle (min_ratio q r) (fmul (quality_ratio q) MAX_BR_MULTIPLE) = true /\
  fle (fmul (quality_ratio q) MAX_BR_MULTIPLE) BR_MAX = true.
Proof.
  intros Hq. assert (Hlow : forall m hi, fle m hi = true ->
    fle (match r with Some r => if flt r m then r else m | None => m end) hi = true).
  { intros m hi Hm. destruct r as [r|]; [|done]. destruct (flt r m) eqn:E; [|done].
    eapply fle_trans; [by apply flt_fle|done]. }
  destruct q as [| | |v]; cbn [min_ratio quality_ratio].
  - split_and!; [|apply fmax_le; [apply Hlow|]; vm_compute; reflexivity|vm_compute; reflexivity].
    eapply (fle_trans _ BR_MIN); [vm_compute; reflexivity|]. by apply fmax_ge.
  - split_and!; [by apply fmax_ge
                |apply fmax_le; [apply Hlow|]; vm_compute; reflexivity|vm_compute; reflexivity].
  - vm_compute. by split_and!.
  - destruct Hq as [_ [H1 H2]]. by split_and!.
Qed.

Lemma ratio_ok_finite r : ratio_ok r -> is_finite r = true.
Proof. intros [H1 H2]. by eapply (between_finite BR_MIN_HIGH_RESOLUTION BR_MAX). Qed.

Lemma scaled_ratio_number d b r : is_finite r = true -> is_nan (scaled_ratio d b r) = false.
Proof.
  intros Hr. assert (Hn : is_nan r = false) by by destruct r.
  unfold scaled_ratio. repeat case_match; try done; apply fmul_not_nan; done.
Qed.

Lemma adjust_ratio_ok now b s :
  qos_ok s -> exists s', adjust_ratio now b s = Some s' /\ qos_ok s'.
Proof.
  intros (Hu & Hf & Hr). unfold adjust_ratio.
  destruct (negb (in_vbr_state s)); [by eexists|].
  destruct (list_max _) as [md|]; [|by eexists]. cbv zeta.
  match goal with |- context [fclamp ?v (min_ratio ?q ?r) _] =>
    destruct (min_ratio_ok q r (latest_quality_ok s Hu)) as (B1 & B2 & B3);
    destruct (fclamp_spec v (min_ratio q r) (fmul (quality_ratio q) MAX_BR_MULTIPLE))
      as (x & Hx & X1 & X2); [|done|] end.
  - pose proof (scaled_ratio_number md b (ratio_ s) (ratio_ok_finite _ Hr)) as Hn.
    destruct (0 <? bitrate_store s); [|done].
    match goal with |- context [flt ?a ?v && _ && _] => destruct (flt a v) eqn:E end; [|done].
    apply flt_fle, fle_not_nan in E as [E _]. by repeat case_match.
  - rewrite Hx. eexists. split; [done|]. split; [done|]. split; [done|].
    split; eapply fle_trans; done.
Qed.

Lemma default_user_ok : user_ok default_user.
Proof. by split_and!. Qed.

Lemma quality_ratio_ok q : quality_ok q -> ratio_ok (quality_ratio q).
Proof. destruct q; [split; vm_compute; reflexivity..|]. by intros [? _]. Qed.

Lemma alter_ok f id (m : gmap Z UserData) :
  (forall u, user_ok u -> user_ok (f u)) ->
  map_Forall (fun _ => user_ok) m -> map_Forall (fun _ => user_ok) (alter f id m).
Proof.
  intros Hf Hm k u. rewrite lookup_alter. case_decide; [|by apply Hm].
  intros Hu. apply fmap_Some in Hu as (u' & Hu' & ->). eapply Hf, Hm, Hu'.
Qed.

(** A queue that drops its head when it is full stays bounded. *)
Lemma queue_bound {A} (n : Z) (l : list A) x :
  0 <= n -> len l <= n + 1 -> len ((if n <? len l then tail l else l) ++ [x]) <= n + 1.
Proof.
  intros Hn Hl. destruct (Z.ltb_spec n (len l)); autorewrite with len; [|lia].
  destruct l; autorewrite with len in *; cbn; autorewrite with len; lia.
Qed.

Lemma add_delay_ok x d :
  len (delay_history d) <= HISTORY_DELAY_LEN + 1 ->
  len (samples (rtt_calculator d)) <= WINDOW_SAMPLES ->
  len (delay_history (add_delay x d)) <= HISTORY_DELAY_LEN + 1 /\
  len (samples (rtt_calculator (add_delay x d))) <= WINDOW_SAMPLES.
Proof.
  intros H1 H2. split; [by apply queue_bound|]. cbn [rtt_calculator add_delay samples rtt_update].
  pose proof (queue_bound 59 (samples (rtt_calculator d)) x ltac:(lia) H2) as H.
  unfold WINDOW_SAMPLES in *.
  replace (60 <=? len (samples (rtt_calculator d))) with (59 <? len (samples (rtt_calculator d)));
    [done|]. apply eq_bool_prop_intro. rewrite !Is_true_true, Z.ltb_lt, Z.leb_le. lia.
Qed.

Lemma with_users_ok s m :
  qos_ok s -> map_Forall (fun _ => user_ok) m -> qos_ok (with_users m s).
Proof. by intros (? & ? & ?) ?. Qed.

Lemma user_network_delay_ok l now id d s :
  qos_ok s -> exists s', user_network_delay l now id d s = Some s' /\ qos_ok s'.
Proof.
  intros Hs. pose proof Hs as (Hu & Hf & Hr). unfold user_network_delay. cbv zeta.
  destruct (fps_band _) as [mf nf].
  set (m := match users s !! id with None => _ | Some _ => _ end).
  assert (Hm : exists b s1, m = Some (b, s1) /\ users_ok s1 /\ ratio_ok (ratio_ s1)).
  { unfold m. destruct (users s !! id) as [u|] eqn:E; [|by eexists _, _].
    destruct (step_fps _ _ _ _ _ _ _) as [[f q] i].
    destruct (clamp_range f MIN_FPS (highest_fps s)) as (g & -> & Hg); [apply highest_range|].
    eexists _, _. split; [done|]. split; [|done]. apply map_Forall_insert_2; [|done].
    destruct (Hu id u E) as (U1 & U2 & U3 & U4 & U5 & U6).
    destruct (add_delay_ok (Z.max d 10) (delay u) U5 U6) as [D1 D2].
    pose proof (highest_range s). split_and!; try done; cbn; lia. }
  destruct Hm as (b & s1 & -> & Hu1 & Hr1). cbn [mbind option_bind].
  destruct (adjust_fps_ok now s1 Hu1 Hr1) as (s2 & -> & H2). cbn [mbind option_bind].
  destruct (b && negb l); [by apply adjust_ratio_ok|by eexists].
Qed.

Lemma user_delay_response_ok now id el s :
  qos_ok s -> exists s', user_delay_response_elapsed now id el s = Some s' /\ qos_ok s'.
Proof.
  intros Hs. pose proof Hs as (Hu & Hf & Hr). unfold user_delay_response_elapsed. cbv zeta.
  destruct (users s !! id) as [u|] eqn:E; [|by eexists].
  destruct (Hu id u E) as (U1 & U2 & U3 & U4 & U5 & U6).
  match goal with |- context [with_delay ?d u] => set (d1 := d) end.
  assert (Hu1 : users_ok (with_users (<[id := with_delay d1 u]> (users s)) s)).
  { apply map_Forall_insert_2; [|done]. unfold d1.
    destruct (2000 <? el); [|by split_and!].
    match goal with |- context [add_delay ?x ?d] => destruct (add_delay_ok x d U5 U6) end.
    by split_and!. }
  destruct (2000 <? el); [by apply adjust_fps_ok|]. by eexists.
Qed.

Lemma update_display_ok now n k s :
  qos_ok s -> exists s', update_display_data now n k s = Some s' /\ qos_ok s'.
Proof.
  intros (Hu & Hf & Hr). unfold update_display_data. cbv zeta.
  match goal with |- context [adjust_fps now ?x] =>
    destruct (adjust_fps_ok now x Hu Hr) as (s2 & -> & H2) end. cbn [mbind option_bind].
  destruct H2 as (Hu2 & Hf2 & Hr2). destruct (in_vbr_state s2).
  - destruct (_ <=? _); [by apply adjust_ratio_ok|by eexists].
  - eexists. split; [done|]. split; [done|]. split; [done|].
    by apply quality_ratio_ok, latest_quality_ok.
Qed.

Lemma qos_default_ok now : qos_ok (qos_default now).
Proof.
  split; [apply map_Forall_empty|]. split; [by cbn|]. split; vm_compute; reflexivity.
Qed.

Lemma on_event_ok l e s : qos_ok s -> exists s', on_event l e s = Some s' /\ qos_ok s'.
Proof.
  intros Hs. pose proof Hs as (Hu & Hf & Hr).
  assert (Hsome : forall x, qos_ok x -> exists s', Some x = Some s' /\ qos_ok s') by eauto.
  destruct e; cbn [on_event];
    try (apply user_network_delay_ok || apply user_delay_response_ok || apply update_display_ok);
    try done; try by apply Hsome.
  - apply Hsome. split; [|done]. by apply map_Forall_insert_2; [apply default_user_ok|].
  - apply Hsome. unfold on_connection_close. case_decide; [apply qos_default_ok|].
    apply with_users_ok; [done|]. by apply map_Forall_delete.
  - apply Hsome. unfold user_custom_fps. destruct (_ || _) eqn:E; [done|]. to_prop.
    apply with_users_ok; [done|]. apply alter_ok; [|done].
    intros u (U1 & U2 & U3 & U4 & U5 & U6). by split_and!.
  - apply Hsome. unfold user_auto_adjust_fps. destruct (_ || _) eqn:E; [done|]. to_prop.
    apply with_users_ok; [done|]. apply alter_ok; [|done].
    intros u (U1 & U2 & U3 & U4 & U5 & U6). by split_and!.
  - unfold user_image_quality. destruct (convert_quality_ok q) as (r & -> & Hq).
    cbn [mbind option_bind]. destruct (users s !! id) as [u|] eqn:E; [|by apply Hsome].
    destruct (Hu id u E) as (U1 & U2 & U3 & U4 & U5 & U6). cbv zeta.
    match goal with |- context [with_users ?m s] =>
      assert (Hm : users_ok (with_users m s)) end.
    { apply map_Forall_insert_2; [|done]. split_and!; try done. cbn. by intros t x [= <- <-]. }
    apply Hsome. split; [done|]. split; [done|]. by apply quality_ratio_ok, latest_quality_ok.
  - apply Hsome. apply with_users_ok; [done|]. apply alter_ok; [|done].
    intros u (U1 & U2 & U3 & U4 & U5 & U6). by split_and!.
  - apply Hsome. unfold ratio. destruct (_ || _); [|done]. split; [done|]. split; [done|].
    split; vm_compute; reflexivity.
Qed.

(** C38: the controller never panics and never leaves its range.  Whatever the
    events, in whatever order and with whatever values, every clamp has bounds in
    order, the frame rate is between 1 and 120, the bitrate ratio is a number
    between 0.1 and 40, and per user the delay history holds at most 3 entries and
    the round-trip window at most 60. *)
Theorem qos_run_ok (is_linux : bool) (start : Z) (es : list Event) :
  exists s, run is_linux es (qos_default start) = Some s /\ qos_ok s.
Proof.
  generalize (qos_default_ok start). generalize (qos_default start). induction es as [|e es IH]; intros s Hs; [by eexists|].
  destruct (on_event_ok is_linux e s Hs) as (s' & He & Hs'). cbn. rewrite He. by apply IH.
Qed.

(** ** What the delays become *)

Definition last_n {A} (n : nat) (l : list A) : list A := drop (length l - n) l.

(** A full queue that drops its head keeps the last elements. *)
Lemma queue_last_n {A} (n : nat) (l : list A) x :
  (if (n <? length (last_n (S n) l))%nat then tail (last_n (S n) l) else last_n (S n) l) ++ [x]
  = last_n (S n) (l ++ [x]).
Proof.
  unfold last_n. rewrite !length_drop, length_app. cbn [length].
  destruct (Nat.ltb_spec n (length l - (length l - S n))).
  - rewrite drop_app_le by lia. f_equal. destruct (drop (length l - S n) l) as [|y t] eqn:E.
    + apply (f_equal length) in E. rewrite length_drop in E. cbn in E. lia.
    + cbn. replace (length l + 1 - S n)%nat with (length l - S n + 1)%nat by lia.
      by rewrite <- drop_drop, E.
  - replace (length l - S n)%nat with 0%nat by lia.
    replace (length l + 1 - S n)%nat with 0%nat by lia. done.
Qed.

Lemma ltb_len {A} n (l : list A) : (Z.of_nat n <? len l) = (n <? length l)%nat.
Proof.
  apply eq_bool_prop_intro. rewrite !Is_true_true, Z.ltb_lt, Nat.ltb_lt. unfold len. lia.
Qed.

Lemma leb_len {A} n (l : list A) : (Z.of_nat (S n) <=? len l) = (n <? length l)%nat.
Proof.
  apply eq_bool_prop_intro. rewrite !Is_true_true, Z.leb_le, Nat.ltb_lt. unfold len. lia.
Qed.

Definition after_delays (ds : list Z) : UserDelay := foldl (fun u d => add_delay d u) default_delay ds.

(** What a user's controller remembers of any sequence of delays: the last
    three of them, the last sixty in the round-trip window, the smallest delay ever
    seen and the smallest of the window. *)
Theorem delays_remembered (ds : list Z) :
  let u := after_delays ds in
  delay_history u = last_n 3 ds /\ samples (rtt_calculator u) = last_n 60 ds /\
  min_rtt (rtt_calculator u) = list_min ds /\
  window_min_rtt (rtt_calculator u) = list_min (last_n 60 ds).
Proof.
  cbv zeta. induction ds as [|x ds IH] using rev_ind; [done|].
  unfold after_delays in *. rewrite foldl_app. cbn [foldl].
  destruct IH as (H1 & H2 & H3 & H4). set (u := foldl _ _ ds) in *.
  cbn [add_delay delay_history rtt_calculator rtt_update samples min_rtt window_min_rtt].
  rewrite H1, H2, H3. change HISTORY_DELAY_LEN with (Z.of_nat 2).
  change WINDOW_SAMPLES with (Z.of_nat 60). rewrite ltb_len, leb_len, !queue_last_n.
  split_and!; [done|done| |done]. rewrite list_min_app. destruct (list_min ds) as [m|]; [|done].
  destruct (Z.ltb_spec x m); f_equal; lia.
Qed.

(** ** Frame rate and network delay *)

Lemma adjust_ratio_fps now b s s' :
  adjust_ratio now b s = Some s' -> users s' = users s /\ fps_ s' = fps_ s.
Proof.
  unfold adjust_ratio. destruct (negb (in_vbr_state s)); [by intros [= <-]|].
  destruct (list_max _); [|by intros [= <-]]. cbv zeta.
  destruct (fclamp _ _ _); [|done]. cbn. by intros [= <-].
Qed.

Lemma adjust_fps_le now s s' id u f :
  users s !! id = Some u -> delay_fps (delay u) = Some f -> MIN_FPS <= f ->
  adjust_fps now s = Some s' -> users s' = users s /\ fps_ s' <= f.
Proof.
  intros Hu Hf H1. unfold adjust_fps. cbv zeta.
  assert (Hin : f ∈ (fun u => match delay_fps (delay u) with
                              | Some f => f | None => INIT_FPS end) <$> vals (users s)).
  { apply list_elem_of_fmap. exists u. rewrite Hf. split; [done|]. unfold vals.
    apply list_elem_of_fmap. exists (id, u). split; [done|]. by apply elem_of_map_to_list. }
  destruct (list_min_le _ _ Hin) as (m & -> & Hm).
  unfold clamp. pose proof (highest_range s).
  destruct (Z.leb_spec MIN_FPS (highest_fps s)); [|lia]. cbn. intros [= <-]. split; [done|]. cbn.
  unfold MIN_FPS, INIT_FPS in *. repeat case_match; to_prop; lia.
Qed.

Lemma step_fps_band mf nf old avg fps q i f q' i' :
  0 < mf -> step_fps mf nf old avg fps q i = (f, q', i') ->
  (avg < DELAY_THRESHOLD_150MS -> mf <= f) /\ (200 <= avg -> f <= mf).
Proof.
  intros Hm. unfold step_fps. generalize (f_ceil_as_u32 (fdiv (f_of_Z fps)
    (fdiv (f_of_Z avg) (f_of_Z DELAY_THRESHOLD_150MS)))). intros dv.
  assert (Hd : 200 <= avg -> DELAY_THRESHOLD_150MS * mf / avg <= mf).
  { intros. apply Z.div_le_upper_bound; unfold DELAY_THRESHOLD_150MS; nia. }
  unfold DELAY_THRESHOLD_150MS in *.
  repeat case_match; intros; simplify_eq; to_prop; split; intros; lia.
Qed.

(** A delay report and the frame rate.  With the user's average delay below
    150 ms the rate asked for the user is at least the quality's lower rate (or
    the highest rate the users allow); from 200 ms on it is at most that lower
    rate; it stays between 1 and the highest rate allowed, and the frame rate of
    the encoder does not exceed it. *)
Theorem network_delay_fps (is_linux : bool) (now id d : Z) (s s' : VideoQoS) (u : UserData) :
  users s !! id = Some u -> user_network_delay is_linux now id d s = Some s' ->
  let avg := Z.max (avg_delay (add_delay (Z.max d 10) (delay u))) 10 in
  let min_fps := fst (fps_band (quality_ratio (latest_quality s))) in
  exists u' f, users s' !! id = Some u' /\ delay_fps (delay u') = Some f /\
    (avg < DELAY_THRESHOLD_150MS -> Z.min min_fps (highest_fps s) <= f) /\
    (200 <= avg -> f <= min_fps) /\ MIN_FPS <= f <= highest_fps s /\ fps_ s' <= f.
Proof.
  intros Hu. unfold user_network_delay. cbv zeta.
  destruct (fps_band (quality_ratio (latest_quality s))) as [mf nf] eqn:Eb. rewrite Hu.
  assert (Hmf : 0 < mf) by (unfold fps_band in Eb; repeat case_match; simplify_eq; lia).
  set (d1 := add_delay (Z.max d 10) (delay u)).
  destruct (step_fps mf nf _ _ _ _ _) as [[f0 q] i] eqn:Es.
  apply step_fps_band in Es as [S1 S2]; [|done].
  destruct (clamp_range f0 MIN_FPS (highest_fps s)) as (f & Hf & Hb); [apply highest_range|].
  assert (Hc : f = Z.max MIN_FPS (Z.min f0 (highest_fps s))).
  { unfold clamp in Hf. destruct (_ <=? _); [by injection Hf|done]. }
  rewrite Hf. cbn [mbind option_bind].
  match goal with |- context [adjust_fps now ?x] => set (s1 := x) end.
  destruct (adjust_fps now s1) as [s2|] eqn:E2; [|done]. cbn [mbind option_bind].
  intros Hend.
  match type of s1 with _ => pose (u' := with_delay (mkUserDelay (response_delayed d1)
    (delay_history d1) (Some f) (rtt_calculator d1) q i) u) end.
  destruct (adjust_fps_le now s1 s2 id u' f) as [U2 F2]; [by apply lookup_insert_eq|done|lia|done|].
  assert (H3 : users s' = users s2 /\ fps_ s' = fps_ s2).
  { destruct (_ && negb is_linux); [by apply adjust_ratio_fps in Hend|by injection Hend as <-]. }
  destruct H3 as [-> ->]. rewrite U2. exists u', f.
  unfold MIN_FPS in *. pose proof (highest_range s).
  split; [by apply lookup_insert_eq|]. cbn [fst]. split_and!; [done| | |lia|lia|lia].
  - intros Ha. specialize (S1 Ha). lia.
  - intros Ha. specialize (S2 Ha). lia.
Qed.

Definition one_user : VideoQoS := on_connection_open 0 "" 7 (qos_default 0).

Lemma network_delay_fps_witness :
  exists s' u' f, user_network_delay true 5000 7 320 one_user = Some s' /\
    users s' !! 7 = Some u' /\ delay_fps (delay u') = Some f /\ f <= 10 /\ fps_ s' <= f.
Proof.
  destruct (user_network_delay true 5000 7 320 one_user) as [s'|] eqn:E.
  - destruct (network_delay_fps true 5000 7 320 one_user s' default_user) as
      (u' & f & H1 & H2 & _ & H3 & _ & H4); [reflexivity|exact E|].
    exists s', u', f. split_and!; [reflexivity|exact H1|exact H2| |exact H4].
    apply H3. vm_compute. discriminate.
  - vm_compute in E. discriminate.
Defined.

(** Between 150 and 200 ms the rate may stay above the lower rate, which the
    comment at the top of the file rules out. *)
Lemma mid_delay_fps_above_minimum : fst (fst (step_fps 10 20 160 160 30 0 0)) = 29.
Proof. vm_compute. reflexivity. Qed.

(** The history called to hold 2 delays holds 3. *)
Lemma history_holds_three : delay_history (after_delays [10; 20; 30; 40]) = [20; 30; 40].
Proof. reflexivity. Qed.
