(* ===== verification/TermBuffer.v ===== *)
(** * Terminal output: replay buffer and UTF-8 chunks (src/server/terminal_service.rs)

    [OutputBuffer] keeps the recent output of a terminal, line by line, to be
    replayed when a client reconnects.  [Utf8ChunkAccumulator] sits between the
    reader of the pseudo terminal and the clients and holds back the beginning of
    a character that has not arrived completely. *)

From S2P Require Import Prelude.

(** ** The replay buffer *)

Definition MAX_OUTPUT_BUFFER_SIZE : Z := 1024 * 1024.
Definition MAX_BUFFER_LINES : Z := 10000.

Abbreviation NL := x0a.

Record OutputBuffer : Type := mkBuffer {
  lines : list (list byte);
  total_size : Z;
  last_line_incomplete : bool
}.

Definition buffer_new : OutputBuffer := mkBuffer [] 0 false.

(** [iter().position(|&b| b == b'\n')]. *)
Fixpoint position_nl (data : list byte) : option nat :=
  match data with
  | [] => None
  | b :: data => if Byte.eqb b NL then Some O else S <$> position_nl data
  end.

(** [slice::split] at the newlines. *)
Fixpoint split_nl (data : list byte) : list (list byte) :=
  match data with
  | [] => [[]]
  | b :: data =>
      if Byte.eqb b NL then [] :: split_nl data
      else match split_nl data with
           | [] => [[b]]
           | l :: ls => (b :: l) :: ls
           end
  end.

(** [back_mut] and [extend_from_slice]. *)
Fixpoint extend_last (d : list byte) (ls : list (list byte)) : list (list byte) :=
  match ls with
  | [] => []
  | [l] => [l ++ d]
  | l :: ls => l :: extend_last d ls
  end.

Definition is_empty {A} (l : list A) : bool := match l with [] => true | _ => false end.

Definition ends_with_nl (d : list byte) : bool :=
  match last d with Some b => Byte.eqb b NL | None => false end.

(** The loop over the lines of the new data. *)
Fixpoint push_lines (ends : bool) (ls : list (list byte)) (b : OutputBuffer) : OutputBuffer :=
  match ls with
  | [] => b
  | line :: rest =>
      let is_last := is_empty rest in
      let b := if is_last && negb ends && negb (is_empty line)
               then mkBuffer (lines b) (total_size b) true else b in
      let b := if negb (is_empty line) || negb is_last then
                 let line_data := if negb is_last || ends then line ++ [NL] else line in
                 mkBuffer (lines b ++ [line_data]) (total_size b + len line_data)
                   (last_line_incomplete b)
               else b in
      push_lines ends rest b
  end.

Definition sum_len (ls : list (list byte)) : Z := foldr (fun l n => len l + n) 0 ls.

(** The trimming loop: the oldest lines go. *)
Fixpoint trim (ls : list (list byte)) (total : Z) (incomplete : bool) : OutputBuffer :=
  if (MAX_OUTPUT_BUFFER_SIZE <? total) || (MAX_BUFFER_LINES <? len ls) then
    match ls with
    | [] => mkBuffer [] 0 false
    | removed :: ls =>
        let total := if total <? len removed then sum_len ls else total - len removed in
        trim ls total (if is_empty ls then false else incomplete)
    end
  else mkBuffer ls total incomplete.

(** What [append] does with the part of the data after the first newline, or with
    all of it. *)
Definition append_rest (remaining : list byte) (b : OutputBuffer) : OutputBuffer :=
  let b := push_lines (ends_with_nl remaining) (split_nl remaining) b in
  trim (lines b) (total_size b) (last_line_incomplete b).

Definition append (data : list byte) (b : OutputBuffer) : OutputBuffer :=
  if is_empty data then b
  else if last_line_incomplete b && negb (is_empty (lines b)) then
    match position_nl data with
    | Some p =>
        append_rest (drop (S p) data)
          (mkBuffer (extend_last (take (S p) data) (lines b)) (total_size b + (Z.of_nat p + 1)) false)
    | None =>
        mkBuffer (extend_last data (lines b)) (total_size b + len data) (last_line_incomplete b)
    end
  else append_rest data b.

(** A continuation byte of UTF-8. *)
Definition is_cont (b : byte) : bool := Z.land (u8_to_Z b) 0xC0 =? 0x80.

Fixpoint skip_cont (n : nat) (l : list byte) : list byte :=
  match n, l with
  | S n, b :: l' => if is_cont b then skip_cont n l' else l
  | _, _ => l
  end.

(** The chunks collected by [get_recent], newest first. *)
Fixpoint collect_recent (max_bytes size : Z) (ls : list (list byte)) : list (list byte) :=
  match ls with
  | [] => []
  | line :: ls =>
      if max_bytes <? size + len line then
        if (size =? 0) && (max_bytes <? len line) then
          let t := skip_cont 3 (drop (Z.to_nat (len line - max_bytes)) line) in
          if is_empty t then [] else [t]
        else []
      else line :: collect_recent max_bytes (size + len line) ls
  end.

Definition get_recent (b : OutputBuffer) (max_bytes : Z) : list byte :=
  if max_bytes =? 0 then []
  else concat (reverse (collect_recent max_bytes 0 (reverse (lines b)))).

(** ** UTF-8 chunks *)

(** The loop of [find_utf8_split_point]: [k] bytes are left to look at, the
    last of them at index [i]. *)
Fixpoint utf8_scan (k : nat) (buf : list byte) (i : nat) : nat :=
  match k with
  | O => length buf
  | S k =>
      match buf !! i with
      | None => length buf
      | Some b =>
          let b := u8_to_Z b in
          if Z.land b 0x80 =? 0 then length buf
          else if Z.land b 0xC0 =? 0x80 then utf8_scan k buf (i - 1)
          else
            let by_len seq_len := if (seq_len <=? length buf - i)%nat then length buf else i in
            if Z.land b 0xE0 =? 0xC0 then by_len 2%nat
            else if Z.land b 0xF0 =? 0xE0 then by_len 3%nat
            else if Z.land b 0xF8 =? 0xF0 then by_len 4%nat
            else length buf
      end
  end.

Definition find_utf8_split_point (buf : list byte) : nat :=
  if is_empty buf then O
  else utf8_scan (Nat.min 3 (length buf)) buf (length buf - 1).

(** [std::str::from_utf8]: the well-formed sequences of the Unicode standard. *)
Definition in_range (b : byte) (lo hi : Z) : bool := (lo <=? u8_to_Z b) && (u8_to_Z b <=? hi).

Definition seq2 (a b : byte) : bool := in_range a 0xC2 0xDF && in_range b 0x80 0xBF.

Definition seq3 (a b c : byte) : bool :=
  ((in_range a 0xE0 0xE0 && in_range b 0xA0 0xBF)
   || (in_range a 0xE1 0xEC && in_range b 0x80 0xBF)
   || (in_range a 0xED 0xED && in_range b 0x80 0x9F)
   || (in_range a 0xEE 0xEF && in_range b 0x80 0xBF))
  && in_range c 0x80 0xBF.

Definition seq4 (a b c d : byte) : bool :=
  ((in_range a 0xF0 0xF0 && in_range b 0x90 0xBF)
   || (in_range a 0xF1 0xF3 && in_range b 0x80 0xBF)
   || (in_range a 0xF4 0xF4 && in_range b 0x80 0x8F))
  && in_range c 0x80 0xBF && in_range d 0x80 0xBF.

Fixpoint utf8_valid (l : list byte) : bool :=
  match l with
  | [] => true
  | a :: t =>
      if in_range a 0 0x7F then utf8_valid t
      else match t with
           | [] => false
           | b :: t1 =>
               if seq2 a b then utf8_valid t1
               else match t1 with
                    | [] => false
                    | c :: t2 =>
                        if seq3 a b c then utf8_valid t2
                        else match t2 with
                             | [] => false
                             | d :: t3 => seq4 a b c d && utf8_valid t3
                             end
                    end
           end
  end.

(** The state is the remainder. *)
Definition push_chunk (remainder data : list byte) : option (list byte) * list byte :=
  if is_empty data then (None, remainder)
  else
    let had_remainder := negb (is_empty remainder) in
    let data := if had_remainder then remainder ++ data else data in
    let split := find_utf8_split_point data in
    if (split =? length data)%nat then (Some data, [])
    else if negb had_remainder && (0 <? split)%nat && negb (utf8_valid (take split data))
    then (Some data, [])
    else
      let rem := drop split data in
      let data := take split data in
      (if is_empty data then None else Some data, rem).

Definition finish (remainder : list byte) : option (list byte) * list byte :=
  if is_empty remainder then (None, []) else (Some remainder, []).

(** ** The replay buffer holds the end of the output *)

Definition history (b : OutputBuffer) : list byte := concat (lines b).

(** The size kept beside the lines is theirs. *)
Definition size_ok (b : OutputBuffer) : Prop := total_size b = len (history b).

Lemma is_empty_nil {A} (l : list A) : is_empty l = true -> l = [].
Proof. by destruct l. Qed.

Fixpoint join_nl (ls : list (list byte)) : list byte :=
  match ls with
  | [] => []
  | [l] => l
  | l :: ls => l ++ NL :: join_nl ls
  end.

Lemma split_nl_nonempty d : split_nl d <> [].
Proof. destruct d as [|b d]; [done|]. cbn. by destruct (Byte.eqb b NL), (split_nl d). Qed.

Lemma join_split_nl d : join_nl (split_nl d) = d.
Proof.
  induction d as [|b d IH]; [done|]. cbn [split_nl].
  pose proof (split_nl_nonempty d). destruct (split_nl d) as [|l ls]; [done|].
  destruct (Byte.eqb b NL) eqn:E.
  - apply Byte.byte_dec_bl in E as ->. cbn in *. by rewrite IH.
  - rewrite <- IH. by destruct ls.
Qed.

Lemma ends_split d : ends_with_nl d = true -> last (split_nl d) = Some [].
Proof.
  induction d as [|b d IH]; [done|]. intros H. cbn [split_nl].
  pose proof (split_nl_nonempty d) as Hn. destruct d as [|b' d].
  - unfold ends_with_nl in H. cbn in H. by rewrite H.
  - specialize (IH H). pose proof (join_split_nl (b' :: d)) as Hj.
    destruct (split_nl (b' :: d)) as [|l ls]; [done|].
    destruct (Byte.eqb b NL); [done|]. destruct ls; [|done].
    cbn in IH. injection IH as ->. done.
Qed.

Lemma push_lines_spec ends ls : forall b,
  ls <> [] -> (ends = true -> last ls = Some []) -> size_ok b ->
  history (push_lines ends ls b) = history b ++ join_nl ls /\ size_ok (push_lines ends ls b).
Proof.
  induction ls as [|l ls IH]; intros b Hne He Hb; [done|]. cbn [push_lines]. cbv zeta.
  assert (Hpush : forall d inc, size_ok b ->
    history (mkBuffer (lines b ++ [d]) (total_size b + len d) inc) = history b ++ d /\
    size_ok (mkBuffer (lines b ++ [d]) (total_size b + len d) inc)).
  { intros d inc Hs. unfold size_ok, history in *. cbn. rewrite concat_app. cbn.
    rewrite app_nil_r, len_app. split; [done|lia]. }
  destruct ls as [|l' ls]; cbn [is_empty andb negb orb].
  - cbn [push_lines join_nl]. rewrite orb_false_r. destruct l as [|x l]; cbn [is_empty andb negb].
    + rewrite andb_false_r, app_nil_r. done.
    + destruct ends; [by specialize (He eq_refl)|]. cbn [negb andb]. by apply Hpush.
  - rewrite orb_true_r.
    destruct (Hpush (l ++ [NL]) (last_line_incomplete b) Hb) as [H1 H2].
    destruct (IH (mkBuffer (lines b ++ [l ++ [NL]]) (total_size b + len (l ++ [NL]))
      (last_line_incomplete b))) as [H3 H4]; [done|done|done|].
    split; [|done]. rewrite H3, H1, <- !app_assoc. done.
Qed.

Lemma sum_len_concat ls : sum_len ls = len (concat ls).
Proof.
  induction ls as [|l ls IH]; [done|].
  change (len l + sum_len ls = len (l ++ concat ls)). rewrite len_app. by rewrite IH.
Qed.

Lemma trim_spec ls : forall total inc,
  total = len (concat ls) ->
  let b := trim ls total inc in
  lines b `suffix_of` ls /\ size_ok b /\
  total_size b <= MAX_OUTPUT_BUFFER_SIZE /\ len (lines b) <= MAX_BUFFER_LINES.
Proof.
  induction ls as [|l ls IH]; intros total inc Ht; cbn [trim].
  - subst. cbn. by split_and!.
  - destruct (_ || _) eqn:E.
    + cbv zeta. match goal with |- context [trim ls ?t ?i] =>
        destruct (IH t i) as (H1 & H2 & H3 & H4) end.
      { rewrite sum_len_concat. subst. cbn [concat]. rewrite len_app.
        pose proof (len_nonneg (concat ls)).
        destruct (Z.ltb_spec (len l + len (concat ls)) (len l)); lia. }
      split_and!; [|done..]. by apply suffix_cons_r.
    + to_prop. cbv zeta. by split_and!.
Qed.

Lemma suffix_concat {A} (l k : list (list A)) : l `suffix_of` k -> concat l `suffix_of` concat k.
Proof. intros [x ->]. rewrite concat_app. by exists (concat x). Qed.

Lemma append_rest_spec d b :
  size_ok b ->
  let b' := append_rest d b in
  history b' `suffix_of` history b ++ d /\ size_ok b' /\
  total_size b' <= MAX_OUTPUT_BUFFER_SIZE /\ len (lines b') <= MAX_BUFFER_LINES.
Proof.
  intros Hb. unfold append_rest.
  destruct (push_lines_spec (ends_with_nl d) (split_nl d) b) as [H1 H2];
    [apply split_nl_nonempty|apply ends_split|done|].
  rewrite join_split_nl in H1. set (b1 := push_lines _ _ b) in *.
  destruct (trim_spec (lines b1) (total_size b1) (last_line_incomplete b1)) as (T1 & T2 & T3 & T4);
    [done|].
  split_and!; [|done..]. rewrite <- H1. by apply suffix_concat.
Qed.

Lemma extend_last_spec d ls :
  ls <> [] -> concat (extend_last d ls) = concat ls ++ d /\ len (extend_last d ls) = len ls.
Proof.
  induction ls as [|l ls IH]; [done|]. intros _. destruct ls as [|l' ls].
  - cbn. by rewrite !app_nil_r.
  - destruct IH as [IH1 IH2]; [done|]. 
    change (extend_last d (l :: l' :: ls)) with (l :: extend_last d (l' :: ls)).
    rewrite !(len_cons l), IH2. change (concat (l :: ?x)) with (l ++ concat x).
    rewrite IH1. split; [by rewrite app_assoc|done].
Qed.

Lemma position_nl_lt d p : position_nl d = Some p -> (p < length d)%nat.
Proof.
  revert p. induction d as [|b d IH]; intros p; [done|]. cbn.
  destruct (Byte.eqb b NL); [intros [= <-]; lia|].
  destruct (position_nl d) as [q|]; [|done]. intros [= <-]. specialize (IH q eq_refl). lia.
Qed.

(** Data that leaves no line pending behind. *)
Definition starts_trim (d : list byte) (b : OutputBuffer) : bool :=
  negb (last_line_incomplete b && negb (is_empty (lines b))) || existsb (Byte.eqb NL) d.

Lemma position_nl_none d : position_nl d = None -> existsb (Byte.eqb NL) d = false.
Proof.
  induction d as [|b d IH]; [done|]. cbn. destruct (Byte.eqb b NL) eqn:E; [done|].
  destruct (position_nl d); [done|]. intros _. rewrite IH by done. rewrite orb_false_r.
  destruct (Byte.eqb NL b) eqn:E2; [|done]. apply Byte.byte_dec_bl in E2 as <-. done.
Qed.

Lemma append_spec d b :
  size_ok b -> len (lines b) <= MAX_BUFFER_LINES ->
  let b' := append d b in
  history b' `suffix_of` history b ++ d /\ size_ok b' /\ len (lines b') <= MAX_BUFFER_LINES /\
  (d <> [] -> starts_trim d b = true -> total_size b' <= MAX_OUTPUT_BUFFER_SIZE).
Proof.
  intros Hb Hl. unfold append, starts_trim. destruct d as [|x d].
  { rewrite app_nil_r. by split_and!. }
  cbn [is_empty]. set (data := x :: d).
  destruct (last_line_incomplete b && negb (is_empty (lines b))) eqn:E.
  - to_prop. assert (Hne : lines b <> []) by by destruct (lines b).
    destruct (position_nl data) as [p|] eqn:Ep.
    + destruct (extend_last_spec (take (S p) data) (lines b) Hne) as [X1 X2].
      pose proof (position_nl_lt _ _ Ep).
      match goal with |- context [append_rest ?r ?b1] =>
        destruct (append_rest_spec r b1) as (A1 & A2 & A3 & A4) end.
      { unfold size_ok, history in *. cbn [lines total_size]. rewrite X1, len_app, len_take.
        unfold len in *. lia. }
      change (concat (extend_last (take (S p) data) (lines b)))
        with (history (mkBuffer (extend_last (take (S p) data) (lines b))
                (total_size b + (Z.of_nat p + 1)) false)) in X1.
      rewrite X1, <- app_assoc, take_drop in A1.
      by split_and!.
    + destruct (extend_last_spec data (lines b) Hne) as [X1 X2].
      rewrite (position_nl_none _ Ep). split_and!.
      * unfold history. cbn [lines]. rewrite X1. done.
      * unfold size_ok, history in *. cbn [lines total_size]. rewrite X1, len_app. lia.
      * cbn [lines]. lia.
      * intros _ Hf. by cbn in Hf.
  - destruct (append_rest_spec data b Hb) as (A1 & A2 & A3 & A4). by split_and!.
Qed.

Definition buffered (chunks : list (list byte)) : OutputBuffer :=
  foldl (fun b d => append d b) buffer_new chunks.

(** the replay buffer.  After any output, in any pieces, the buffer holds the
    end of what was appended, byte for byte; the size it keeps is the size of what
    it holds; it holds at most 10000 lines; and after a piece that contains a
    newline (or that begins a line) it holds at most 1 MiB. *)
Theorem buffer_holds_suffix (chunks : list (list byte)) (d : list byte) :
  let b := buffered chunks in
  let b' := append d b in
  history b' `suffix_of` concat chunks ++ d /\
  total_size b' = len (history b') /\ len (lines b') <= MAX_BUFFER_LINES /\
  (d <> [] -> starts_trim d b = true -> total_size b' <= MAX_OUTPUT_BUFFER_SIZE).
Proof.
  cbv zeta. assert (H : size_ok (buffered chunks) /\ len (lines (buffered chunks)) <= MAX_BUFFER_LINES
    /\ history (buffered chunks) `suffix_of` concat chunks).
  { induction chunks as [|c cs IH] using rev_ind; [by split_and!|].
    destruct IH as (H1 & H2 & H3). unfold buffered in *. rewrite foldl_app, concat_app. cbn.
    rewrite app_nil_r. destruct (append_spec c _ H1 H2) as (A1 & A2 & A3 & _).
    split_and!; [done..|]. etransitivity; [exact A1|]. by apply suffix_app. }
  destruct H as (H1 & H2 & H3). destruct (append_spec d _ H1 H2) as (A1 & A2 & A3 & A4).
  split_and!; [|done..]. etransitivity; [exact A1|]. by apply suffix_app.
Qed.

(** Output without newlines is never trimmed: the limit of 1 MiB does not hold. *)
Lemma no_newline_unbounded (n : nat) :
  total_size (buffered (replicate (S n) [x61])) = Z.of_nat n + 1.
Proof.
  assert (H : exists l, buffered (replicate (S n) [x61]) = mkBuffer [l] (Z.of_nat n + 1) true).
  { induction n as [|n [l IH]]; [by exists [x61]|].
    exists (l ++ [x61]). rewrite replicate_S_end. unfold buffered in *. rewrite foldl_app, IH.
    unfold append. cbn. f_equal. unfold len. cbn. lia. }
  by destruct H as [l ->].
Qed.

(** ** Replay *)

Lemma skip_cont_suffix n l : skip_cont n l `suffix_of` l.
Proof.
  revert l. induction n as [|n IH]; intros l; [done|]. destruct l as [|b l]; [done|]. cbn.
  destruct (is_cont b); [|done]. by apply suffix_cons_r.
Qed.

Lemma suffix_len {A} (l k : list A) : l `suffix_of` k -> len l <= len k.
Proof. intros [x ->]. rewrite len_app. pose proof (len_nonneg x). lia. Qed.

Lemma reverse_concat_cons {A} (l : list A) (ls : list (list A)) :
  concat (reverse (l :: ls)) = concat (reverse ls) ++ l.
Proof. rewrite reverse_cons, concat_app. cbn. by rewrite app_nil_r. Qed.

Lemma reverse_concat_one {A} (l : list A) : concat (reverse [l]) = l.
Proof. cbn. apply app_nil_r. Qed.

Lemma collect_recent_spec m ls : forall size,
  0 <= size <= m ->
  concat (reverse (collect_recent m size ls)) `suffix_of` concat (reverse ls) /\
  size + len (concat (reverse (collect_recent m size ls))) <= m /\
  (size + len (concat (reverse ls)) <= m -> collect_recent m size ls = ls).
Proof.
  induction ls as [|l ls IH]; intros size Hs; cbn [collect_recent].
  { cbn. split_and!; [done|unfold len; cbn; lia|done]. }
  rewrite reverse_concat_cons, len_app. pose proof (len_nonneg (concat (reverse ls))).
  destruct (Z.ltb_spec m (size + len l)) as [Hm|Hm].
  - split_and!; [| |lia].
    + destruct (_ && _); [|by apply suffix_nil]. cbv zeta.
      match goal with |- context [is_empty ?t] => destruct (is_empty t) eqn:E end;
        [by apply suffix_nil|].
      rewrite reverse_concat_one. apply suffix_app_r.
      etransitivity; [apply skip_cont_suffix|]. by apply suffix_drop.
    + destruct ((size =? 0) && _) eqn:E; [|unfold len; cbn; lia]. to_prop. cbv zeta.
      match goal with |- context [is_empty ?t] => destruct (is_empty t) end;
        [unfold len; cbn; lia|].
      rewrite reverse_concat_one.
      pose proof (suffix_len _ _ (skip_cont_suffix 3 (drop (Z.to_nat (len l - m)) l))) as Hx.
      rewrite len_drop in Hx. lia.
  - destruct (IH (size + len l)) as (H1 & H2 & H3); [pose proof (len_nonneg l); lia|].
    rewrite reverse_concat_cons, len_app. split_and!.
    + by apply suffix_app.
    + lia.
    + intros Hx. f_equal. apply H3. lia.
Qed.

(** What a reconnecting client is shown.  [get_recent] returns the end of
    the buffer, at most the number of bytes asked for, and all of it when it
    fits. *)
Theorem get_recent_spec (b : OutputBuffer) (max_bytes : Z) :
  0 <= max_bytes ->
  get_recent b max_bytes `suffix_of` history b /\ len (get_recent b max_bytes) <= max_bytes /\
  (len (history b) <= max_bytes -> get_recent b max_bytes = history b).
Proof.
  intros Hm. unfold get_recent. destruct (Z.eqb_spec max_bytes 0) as [->|Hne].
  - split_and!; [apply suffix_nil|done|]. intros Hl. destruct (history b); [done|].
    rewrite len_cons in Hl. pose proof (len_nonneg l). lia.
  - destruct (collect_recent_spec max_bytes (reverse (lines b)) 0) as (H1 & H2 & H3); [lia|].
    rewrite reverse_involutive in *. split_and!; [done|lia|].
    intros Hl. rewrite H3 by (unfold history in Hl; lia). by rewrite reverse_involutive.
Qed.

Lemma get_recent_spec_witness :
  let b := buffered [[x61; x0a]; [x62; x0a; x63]] in
  get_recent b 3 `suffix_of` history b /\ get_recent b 3 = [x62; x0a; x63].
Proof.
  intros b. split; [|vm_compute; reflexivity]. apply (get_recent_spec b 3). lia.
Defined.

(** ** The chunks: nothing is lost, nothing is held long *)

Lemma utf8_scan_bound k buf : forall i,
  (i < length buf)%nat -> (length buf - 1 <= i + (3 - k))%nat -> (k <= 3)%nat ->
  (utf8_scan k buf i <= length buf /\ length buf <= utf8_scan k buf i + 3)%nat.
Proof.
  induction k as [|k IH]; intros i Hi Hk H3; cbn [utf8_scan]; [lia|].
  destruct (buf !! i) as [b|]; [|lia]. cbv zeta.
  destruct (Z.land (u8_to_Z b) 0x80 =? 0); [lia|].
  destruct (Z.land (u8_to_Z b) 0xC0 =? 0x80).
  - destruct i as [|i]; [|apply IH; lia]. apply IH; lia.
  - repeat case_match; lia.
Qed.

Lemma split_point_bound buf :
  (find_utf8_split_point buf <= length buf /\ length buf <= find_utf8_split_point buf + 3)%nat.
Proof.
  unfold find_utf8_split_point. destruct buf as [|b buf]; [cbn; lia|]. cbn [is_empty].
  apply utf8_scan_bound; cbn [length]; lia.
Qed.

Definition out (o : option (list byte)) : list byte := match o with Some d => d | None => [] end.

Lemma push_chunk_spec rem data o rem' :
  push_chunk rem data = (o, rem') -> (length rem <= 3)%nat ->
  out o ++ rem' = rem ++ data /\ (length rem' <= 3)%nat.
Proof.
  unfold push_chunk. intros H Hr. destruct data as [|x d].
  { injection H as <- <-. by rewrite app_nil_r. }
  cbn [is_empty] in H. cbv zeta in H. set (data := x :: d) in *.
  assert (Hd : (if negb (is_empty rem) then rem ++ data else data) = rem ++ data).
  { by destruct rem. }
  rewrite Hd in H. set (all := rem ++ data) in *.
  destruct (_ =? _)%nat; [injection H as <- <-; cbn; split; [apply app_nil_r|lia]|].
  destruct (_ && _ && _); [injection H as <- <-; cbn; split; [apply app_nil_r|lia]|].
  injection H as <- <-. pose proof (split_point_bound all).
  rewrite length_drop. split; [|lia].
  etransitivity; [|apply (take_drop (find_utf8_split_point all))].
  f_equal. by destruct (take (find_utf8_split_point all) all).
Qed.

(** A run of the reader thread's accumulator over the chunks it reads. *)
Fixpoint push_all (rem : list byte) (chunks : list (list byte)) : list (option (list byte)) * list byte :=
  match chunks with
  | [] => ([], rem)
  | c :: cs =>
      let '(o, rem) := push_chunk rem c in
      let '(os, rem) := push_all rem cs in
      (o :: os, rem)
  end.

(** cutting the output at character boundaries loses nothing and delays at
    most three bytes: whatever is read, the chunks passed on, followed by the
    remainder that [finish] flushes, are the bytes read, in order. *)
Theorem utf8_chunks_lossless (chunks : list (list byte)) :
  let '(os, rem) := push_all [] chunks in
  concat (map out os) ++ out (fst (finish rem)) = concat chunks /\ (length rem <= 3)%nat.
Proof.
  assert (H : forall cs rem, (length rem <= 3)%nat ->
    let '(os, rem') := push_all rem cs in
    concat (map out os) ++ rem' = rem ++ concat cs /\ (length rem' <= 3)%nat).
  { induction cs as [|c cs IH]; intros rem Hr; cbn [push_all].
    - cbn. by rewrite app_nil_r.
    - destruct (push_chunk rem c) as [o r1] eqn:E1.
      destruct (push_chunk_spec _ _ _ _ E1 Hr) as [H1 H2].
      specialize (IH r1 H2). destruct (push_all r1 cs) as [os r2]. destruct IH as [IH1 IH2].
      split; [|done]. cbn [map concat]. rewrite <- app_assoc, IH1, app_assoc, H1.
      by rewrite <- app_assoc. }
  specialize (H chunks [] ltac:(cbn; lia)). destruct (push_all [] chunks) as [os rem].
  destruct H as [H1 H2]. split; [|done]. by destruct rem.
Qed.

(** ** Valid text stays valid in every chunk *)

(** What the tests of the scan see of a byte: 1 for ASCII, 0 for a continuation
    byte, else the length of the sequence it begins (5 for none). *)
Definition byte_class (b : byte) : nat :=
  let b := u8_to_Z b in
  if Z.land b 0x80 =? 0 then 1
  else if Z.land b 0xC0 =? 0x80 then 0
  else if Z.land b 0xE0 =? 0xC0 then 2
  else if Z.land b 0xF0 =? 0xE0 then 3
  else if Z.land b 0xF8 =? 0xF0 then 4
  else 5.

Definition class_ok (b : byte) : bool :=
  (negb (in_range b 0 0x7F) || (byte_class b =? 1)%nat) &&
  (negb (in_range b 0x80 0xBF) || (byte_class b =? 0)%nat) &&
  (negb (in_range b 0xC2 0xDF) || (byte_class b =? 2)%nat) &&
  (negb (in_range b 0xE0 0xEF) || (byte_class b =? 3)%nat) &&
  (negb (in_range b 0xF0 0xF4) || (byte_class b =? 4)%nat).

Lemma class_ok_all b : class_ok b = true.
Proof.
  assert (H : forallb (fun n => class_ok (u8_of_Z (Z.of_nat n))) (seq 0 256) = true)
    by (vm_compute; reflexivity).
  rewrite forallb_forall in H. pose proof (u8_range b).
  specialize (H (Z.to_nat (u8_to_Z b))). rewrite Z2Nat.id, u8_of_to_Z in H by lia.
  apply H, in_seq. lia.
Qed.

Lemma in_range_sub b lo hi lo' hi' :
  in_range b lo hi = true -> lo' <= lo -> hi <= hi' -> in_range b lo' hi' = true.
Proof. unfold in_range. rewrite !andb_true_iff, !Z.leb_le. lia. Qed.

Lemma class_of b :
  (in_range b 0 0x7F = true -> byte_class b = 1%nat) /\
  (in_range b 0x80 0xBF = true -> byte_class b = 0%nat) /\
  (in_range b 0xC2 0xDF = true -> byte_class b = 2%nat) /\
  (in_range b 0xE0 0xEF = true -> byte_class b = 3%nat) /\
  (in_range b 0xF0 0xF4 = true -> byte_class b = 4%nat).
Proof.
  pose proof (class_ok_all b) as H. unfold class_ok in H.
  apply andb_true_iff in H as [H H4]. apply andb_true_iff in H as [H H3].
  apply andb_true_iff in H as [H H2]. apply andb_true_iff in H as [H0 H1].
  split_and!; intros Hr; rewrite Hr in *; cbn [negb orb] in *; by apply Nat.eqb_eq.
Qed.

(** A character: its first byte tells how many continuation bytes follow. *)
Definition char (l : list byte) : Prop :=
  match l with
  | [] => False
  | b :: t => byte_class b = length l /\ (1 <= length l <= 4)%nat /\ Forall (fun c => byte_class c = 0%nat) t
  end.

(** The beginning of a character that is not complete. *)
Definition partial (l : list byte) : Prop :=
  match l with
  | [] => False
  | b :: t => (length l < byte_class b <= 4)%nat /\ Forall (fun c => byte_class c = 0%nat) t
  end.

Lemma seq2_class a b : seq2 a b = true -> byte_class a = 2%nat /\ byte_class b = 0%nat.
Proof.
  unfold seq2. intros H. apply andb_true_iff in H as [H1 H2].
  split; [by apply class_of|by apply class_of].
Qed.

Lemma seq3_class a b c :
  seq3 a b c = true -> byte_class a = 3%nat /\ byte_class b = 0%nat /\ byte_class c = 0%nat.
Proof.
  unfold seq3. intros H. apply andb_true_iff in H as [H Hc].
  assert (Hab : in_range a 0xE0 0xEF = true /\ in_range b 0x80 0xBF = true).
  { repeat (apply orb_true_iff in H as [H|H]); apply andb_true_iff in H as [Ha Hb];
      split; eapply in_range_sub; eauto; lia. }
  destruct Hab. split_and!; by apply class_of.
Qed.

Lemma seq4_class a b c d :
  seq4 a b c d = true ->
  byte_class a = 4%nat /\ byte_class b = 0%nat /\ byte_class c = 0%nat /\ byte_class d = 0%nat.
Proof.
  unfold seq4. intros H. apply andb_true_iff in H as [H Hd]. apply andb_true_iff in H as [H Hc].
  assert (Hab : in_range a 0xF0 0xF4 = true /\ in_range b 0x80 0xBF = true).
  { repeat (apply orb_true_iff in H as [H|H]); apply andb_true_iff in H as [Ha Hb];
      split; eapply in_range_sub; eauto; lia. }
  destruct Hab. split_and!; by apply class_of.
Qed.

Lemma utf8_scan_class k buf i b :
  buf !! i = Some b ->
  utf8_scan (S k) buf i =
    match byte_class b with
    | 1 | 5 => length buf
    | 0 => utf8_scan k buf (i - 1)
    | n => if (n <=? length buf - i)%nat then length buf else i
    end%nat.
Proof. intros H. cbn [utf8_scan]. rewrite H. unfold byte_class. by repeat case_match. Qed.

(** The scan walks back over continuation bytes. *)
Lemma utf8_scan_conts a b t k j :
  Forall (fun c => byte_class c = 0%nat) t -> (j <= length t)%nat ->
  utf8_scan k (a ++ b :: t) (length a + j)
  = if (k <=? j)%nat then length (a ++ b :: t) else utf8_scan (k - j) (a ++ b :: t) (length a).
Proof.
  intros Ht. revert k. induction j as [|j IH]; intros k Hj.
  { rewrite Nat.add_0_r, Nat.sub_0_r. by destruct k. }
  destruct k as [|k]; [done|]. destruct (lookup_lt_is_Some_2 t j) as [c Hc]; [lia|].
  rewrite (utf8_scan_class _ _ _ c).
  - rewrite Forall_lookup in Ht. rewrite (Ht j c Hc).
    replace (length a + S j - 1)%nat with (length a + j)%nat by lia. apply IH. lia.
  - rewrite lookup_app_r by lia. by replace (length a + S j - length a)%nat with (S j) by lia.
Qed.

Lemma split_point_scan a b t :
  Forall (fun c => byte_class c = 0%nat) t ->
  find_utf8_split_point (a ++ b :: t)
  = if (3 <=? length t)%nat then length (a ++ b :: t)
    else match byte_class b with
         | 1 | 5 => length (a ++ b :: t)
         | 0 => utf8_scan (Nat.min 3 (length (a ++ b :: t)) - length t - 1) (a ++ b :: t) (length a - 1)
         | n => if (n <=? S (length t))%nat then length (a ++ b :: t) else length a
         end%nat.
Proof.
  intros Ht. unfold find_utf8_split_point.
  destruct (is_empty (a ++ b :: t)) eqn:He; [by apply is_empty_nil in He; destruct a|].
  set (n := length (a ++ b :: t)).
  assert (Hn : n = (length a + S (length t))%nat) by (unfold n; by rewrite length_app).
  replace (n - 1)%nat with (length a + length t)%nat by lia.
  rewrite utf8_scan_conts by done. fold n.
  destruct (Nat.leb_spec (Nat.min 3 n) (length t)), (Nat.leb_spec 3 (length t)); try lia.
  replace (Nat.min 3 n - length t)%nat with (S (Nat.min 3 n - length t - 1)) by lia.
  rewrite (utf8_scan_class _ _ _ b) by (rewrite lookup_app_r, Nat.sub_diag by lia; done).
  fold n. replace (n - length a)%nat with (S (length t)) by lia.
  by replace (S (Nat.min 3 n - length t - 1) - 1)%nat with (Nat.min 3 n - length t - 1)%nat by lia.
Qed.

(** A buffer that ends with a complete character is not split; one that ends
    within a character is split before it. *)
Lemma split_point_char a s : char s -> find_utf8_split_point (a ++ s) = length (a ++ s).
Proof.
  destruct s as [|b t]; [done|]. intros (Hc & Hl & Hf). rewrite split_point_scan, Hc by done.
  destruct t as [|? [|? [|? [|]]]]; cbn in *; try done; lia.
Qed.

Lemma split_point_partial a p : partial p -> find_utf8_split_point (a ++ p) = length a.
Proof.
  destruct p as [|b t]; [done|]. intros (Hl & Hf). rewrite split_point_scan by done.
  cbn [length] in Hl. destruct (byte_class b) as [|[|[|[|[|]]]]] eqn:E; try lia;
    destruct t as [|? [|? [|? [|]]]]; cbn in *; try done; lia.
Qed.

(** Valid text begins with a character, and what follows it is valid. *)
Lemma utf8_valid_cons a t :
  utf8_valid (a :: t) = true ->
  exists s u, a :: t = s ++ u /\ char s /\ forall v, utf8_valid (s ++ v) = utf8_valid v.
Proof.
  intros H. cbn [utf8_valid] in H. destruct (in_range a 0 0x7F) eqn:E1.
  { exists [a], t. apply class_of in E1 as E1'. split; [done|]. split; [by repeat constructor|].
    intros v. cbn [app utf8_valid]. by rewrite E1. }
  destruct t as [|b t]; [done|]. destruct (seq2 a b) eqn:E2.
  { exists [a; b], t. destruct (seq2_class _ _ E2). split; [done|].
    split; [by split_and!; [|cbn; lia|cbn; lia|repeat constructor]|].
    intros v. cbn [app utf8_valid]. by rewrite E1, E2. }
  destruct t as [|c t]; [done|]. destruct (seq3 a b c) eqn:E3.
  { exists [a; b; c], t. destruct (seq3_class _ _ _ E3) as (? & ? & ?). split; [done|].
    split; [by split_and!; [|cbn; lia|cbn; lia|repeat constructor]|].
    intros v. cbn [app utf8_valid]. by rewrite E1, E2, E3. }
  destruct t as [|d t]; [done|]. apply andb_true_iff in H as [E4 _].
  exists [a; b; c; d], t. destruct (seq4_class _ _ _ _ E4) as (? & ? & ? & ?). split; [done|].
  split; [by split_and!; [|cbn; lia|cbn; lia|repeat constructor]|].
  intros v. cbn [app utf8_valid]. by rewrite E1, E2, E3, E4.
Qed.

(** A prefix of valid text is valid text, and perhaps a part of a character. *)
Lemma valid_prefix y x :
  utf8_valid (x ++ y) = true ->
  exists a p, x = a ++ p /\ utf8_valid a = true /\ (a = [] \/ exists a' s, a = a' ++ s /\ char s) /\
    (p = [] \/ partial p) /\ utf8_valid (p ++ y) = true.
Proof.
  remember (length x) as n eqn:Hn. revert x Hn.
  induction n as [n IH] using lt_wf_ind. intros x -> Hv. destruct x as [|b x].
  { exists [], []. split_and!; auto. }
  destruct (utf8_valid_cons b (x ++ y) Hv) as (s & u & Hs & Hc & Hsv).
  change (b :: x ++ y) with ((b :: x) ++ y) in Hs.
  destruct (app_eq_inv _ _ _ _ Hs) as [(k & Hk & ->)|(k & -> & ->)].
  - rewrite Hk in *. destruct s as [|c s]; [done|].
    destruct (IH (length k)) with (x := k) as (a & p & -> & Ha & Hl & Hp & Hpv).
    { rewrite length_app. cbn. lia. }
    { done. }
    { by rewrite <- app_assoc, Hsv in Hv. }
    exists ((c :: s) ++ a), p. split_and!; [by rewrite app_assoc|by rewrite Hsv| |done|done].
    right. destruct Hl as [->|(a' & q & -> & Hq)].
    + exists [], (c :: s). by rewrite app_nil_r.
    + exists ((c :: s) ++ a'), q. by rewrite app_assoc.
  - destruct (decide (k = [])) as [->|Hk].
    + rewrite app_nil_r in *. exists (b :: x), []. rewrite app_nil_r.
      split_and!; [done| |right; by exists [], (b :: x)|by left|].
      * by rewrite <- (app_nil_r (b :: x)), Hsv.
      * by rewrite Hsv in Hv.
    + exists [], (b :: x). split_and!; auto. right. destruct Hc as (Hc & Hl & Hf).
      apply Forall_app in Hf as [Hf _]. split; [|done].
      rewrite Hc. change (b :: x ++ k) with ((b :: x) ++ k) in *. rewrite length_app in *.
      destruct k; [done|]. cbn [length] in *. lia.
Qed.

(** Dropping valid text leaves valid text. *)
Lemma valid_app a b : utf8_valid a = true -> utf8_valid (a ++ b) = utf8_valid b.
Proof.
  remember (length a) as n eqn:Hn. revert a Hn.
  induction n as [n IH] using lt_wf_ind. intros a -> Ha. destruct a as [|x a]; [done|].
  destruct (utf8_valid_cons x a Ha) as (s & u & Hs & Hc & Hsv). rewrite Hs in *.
  rewrite Hsv in Ha. rewrite <- app_assoc, Hsv. destruct s; [done|].
  eapply IH; [|done|done]. rewrite length_app. cbn. lia.
Qed.

Lemma partial_not_whole a p : partial p -> length a <> length (a ++ p).
Proof. destruct p; [done|]. intros _. rewrite length_app. cbn. lia. Qed.

(** One chunk of a text that is valid from the remainder on. *)
Lemma push_chunk_valid rem c rest o rem' :
  utf8_valid (rem ++ c ++ rest) = true -> push_chunk rem c = (o, rem') ->
  utf8_valid (out o) = true /\ utf8_valid (rem' ++ rest) = true.
Proof.
  intros Hv. unfold push_chunk. destruct c as [|x c].
  { intros [= <- <-]. by rewrite app_nil_l in Hv. }
  cbn [is_empty]. cbv zeta. set (data := x :: c) in *.
  assert (Hd : (if negb (is_empty rem) then rem ++ data else data) = rem ++ data) by by destruct rem.
  rewrite Hd. rewrite app_assoc in Hv. set (all := rem ++ data) in *.
  assert (Hne : all <> []) by (unfold all, data; by destruct rem).
  destruct (valid_prefix rest all Hv) as (a & p & Hall & Ha & Hl & Hp & Hpv).
  destruct Hp as [->|Hp].
  - rewrite app_nil_r in Hall. rewrite Hall in *. destruct Hl as [->|(a' & s & -> & Hs)]; [done|].
    rewrite (split_point_char a' s Hs), Nat.eqb_refl. intros [= <- <-]. done.
  - rewrite Hall, split_point_partial by done. rewrite take_app_length, drop_app_length.
    destruct (Nat.eqb_spec (length a) (length (a ++ p))) as [E|_]; [by apply partial_not_whole in E|].
    rewrite Ha, andb_false_r. intros [= <- <-]. by destruct a.
Qed.

(** Valid text stays valid in every chunk.  If the bytes a terminal writes
    are UTF-8, then however the reads cut them, every chunk passed on is UTF-8 by
    itself, and so is what [finish] flushes. *)
Theorem utf8_chunks_valid (chunks : list (list byte)) :
  utf8_valid (concat chunks) = true ->
  let '(os, rem) := push_all [] chunks in
  Forall (fun o => utf8_valid (out o) = true) os /\ utf8_valid rem = true.
Proof.
  assert (H : forall cs rem, utf8_valid (rem ++ concat cs) = true ->
    let '(os, rem') := push_all rem cs in
    Forall (fun o => utf8_valid (out o) = true) os /\ utf8_valid rem' = true).
  { induction cs as [|c cs IH]; intros rem Hv; cbn [push_all concat] in *.
    - rewrite app_nil_r in Hv. by split.
    - destruct (push_chunk rem c) as [o r1] eqn:E1.
      destruct (push_chunk_valid _ _ _ _ _ Hv E1) as [H1 H2]. specialize (IH r1 H2).
      destruct (push_all r1 cs) as [os r2]. destruct IH. split; [by constructor|done]. }
  apply (H chunks []).
Qed.

Lemma utf8_chunks_valid_witness :
  let chunks := [[xe4; xbd]; [xa0; x61; xf0; x9f]; [x98; x80]] in
  utf8_valid (concat chunks) = true /\
  push_all [] chunks = ([None; Some [xe4; xbd; xa0; x61]; Some [xf0; x9f; x98; x80]], []) /\
  Forall (fun o => utf8_valid (out o) = true) (fst (push_all [] chunks)).
Proof.
  intros chunks. split; [reflexivity|]. split; [vm_compute; reflexivity|].
  assert (Hc : utf8_valid (concat chunks) = true) by (vm_compute; reflexivity).
  generalize (utf8_chunks_valid chunks Hc). destruct (push_all [] chunks) as [os rem].
  intros [H _]. exact H.
Defined.
