(* ===== verification/TermService.v ===== *)
(** * Terminal services (src/server/terminal_service.rs)

    A service holds the terminals of one client and survives its connection when
    it is persistent.  A terminal owns a pseudo terminal, a child process and two
    threads, connected to it by two channels.  What the operating system answers
    during one call (whether a lock is free, a thread has finished, a child has
    exited, a resize or a kill succeeds) is a [World], an argument of the call.
    The model is of the Linux build; a channel is the list of what it holds. *)

From S2P Require Import Prelude Compress TermBuffer.

Definition MAX_SERVICES : Z := 100.
Definition SERVICE_IDLE_TIMEOUT : Z := 3600 * 1000.
Definition CHANNEL_BUFFER_SIZE : Z := 500.
Definition COMPRESS_THRESHOLD : Z := 512.
Definition DEFAULT_RECONNECT_BUFFER_BYTES : Z := 8 * 1024.
Definition MAX_SIGWINCH_PHASE_ATTEMPTS : Z := 3.

Inductive SigwinchPhase : Type :=
| Idle
| TempResize (retries : Z)
| Restore (retries : Z).

Inductive SigwinchAction : Type := DoTempResize | DoRestore.

Inductive SessionState : Type :=
| Closed
| Active (pending_buffer : option (list byte)) (sigwinch : SigwinchPhase).

Inductive WaitResult : Type := Running | Exited (code : Z) | WaitErr.

Record World : Type := mkWorld {
  busy : Z -> bool;
  reader_finished : Z -> bool;
  try_wait : Z -> WaitResult;
  resize_ok : bool;
  kill_ok : bool
}.

(** ** Sessions *)

Record TerminalSession : Type := mkSession {
  sess_created_at : Z;
  sess_last_activity : Z;
  pty_pair : option (Z * Z);
  child : option Z;
  input_tx : option (list (list byte));
  output_rx : option (list (list byte));
  exiting : bool;
  reader_thread : bool;
  writer_thread : bool;
  output_buffer : OutputBuffer;
  pid : Z;
  rows : Z;
  cols : Z;
  closed_message_sent : bool;
  state : SessionState
}.

Definition session_new (now rows cols : Z) : TerminalSession :=
  mkSession now now None None None None false false false buffer_new 0 rows cols false Closed.

Definition with_state (v : SessionState) (s : TerminalSession) : TerminalSession :=
  mkSession (sess_created_at s) (sess_last_activity s) (pty_pair s) (child s) (input_tx s)
    (output_rx s) (exiting s) (reader_thread s) (writer_thread s) (output_buffer s) (pid s)
    (rows s) (cols s) (closed_message_sent s) v.
Definition with_activity (v : Z) (s : TerminalSession) : TerminalSession :=
  mkSession (sess_created_at s) v (pty_pair s) (child s) (input_tx s)
    (output_rx s) (exiting s) (reader_thread s) (writer_thread s) (output_buffer s) (pid s)
    (rows s) (cols s) (closed_message_sent s) (state s).
Definition with_pty (v : option (Z * Z)) (s : TerminalSession) : TerminalSession :=
  mkSession (sess_created_at s) (sess_last_activity s) v (child s) (input_tx s)
    (output_rx s) (exiting s) (reader_thread s) (writer_thread s) (output_buffer s) (pid s)
    (rows s) (cols s) (closed_message_sent s) (state s).
Definition with_child (v : option Z) (s : TerminalSession) : TerminalSession :=
  mkSession (sess_created_at s) (sess_last_activity s) (pty_pair s) v (input_tx s)
    (output_rx s) (exiting s) (reader_thread s) (writer_thread s) (output_buffer s) (pid s)
    (rows s) (cols s) (closed_message_sent s) (state s).
Definition with_input (v : option (list (list byte))) (s : TerminalSession) : TerminalSession :=
  mkSession (sess_created_at s) (sess_last_activity s) (pty_pair s) (child s) v
    (output_rx s) (exiting s) (reader_thread s) (writer_thread s) (output_buffer s) (pid s)
    (rows s) (cols s) (closed_message_sent s) (state s).
Definition with_output (q : option (list (list byte))) (b : OutputBuffer) (s : TerminalSession)
  : TerminalSession :=
  mkSession (sess_created_at s) (sess_last_activity s) (pty_pair s) (child s) (input_tx s)
    q (exiting s) (reader_thread s) (writer_thread s) b (pid s)
    (rows s) (cols s) (closed_message_sent s) (state s).
Definition with_size (r c : Z) (s : TerminalSession) : TerminalSession :=
  mkSession (sess_created_at s) (sess_last_activity s) (pty_pair s) (child s) (input_tx s)
    (output_rx s) (exiting s) (reader_thread s) (writer_thread s) (output_buffer s) (pid s)
    r c (closed_message_sent s) (state s).
Definition with_closed_sent (v : bool) (s : TerminalSession) : TerminalSession :=
  mkSession (sess_created_at s) (sess_last_activity s) (pty_pair s) (child s) (input_tx s)
    (output_rx s) (exiting s) (reader_thread s) (writer_thread s) (output_buffer s) (pid s)
    (rows s) (cols s) v (state s).

(** [stop]: the stopped session and the child handed to the reaper. *)
Definition stop (s : TerminalSession) : TerminalSession * option Z :=
  (mkSession (sess_created_at s) (sess_last_activity s) None None None None true false false
     (output_buffer s) (pid s) (rows s) (cols s) (closed_message_sent s) Closed,
   child s).

(** ** Services *)

Record Service : Type := mkService {
  sessions : gmap Z TerminalSession;
  svc_created_at : Z;
  svc_last_activity : Z;
  is_persistent : bool;
  needs_session_sync : bool;
  is_specified_user : bool
}.

Definition service_new (now : Z) (persistent specified : bool) : Service :=
  mkService ∅ now now persistent false specified.

Definition with_sessions (v : gmap Z TerminalSession) (s : Service) : Service :=
  mkService v (svc_created_at s) (svc_last_activity s) (is_persistent s) (needs_session_sync s)
    (is_specified_user s).
Definition with_sync (v : bool) (s : Service) : Service :=
  mkService (sessions s) (svc_created_at s) (svc_last_activity s) (is_persistent s) v
    (is_specified_user s).

Definition update_activity (now : Z) (s : Service) : Service :=
  mkService (sessions s) (svc_created_at s) now (is_persistent s) (needs_session_sync s)
    (is_specified_user s).

Definition reset_status (persistent : bool) (s : Service) : Service :=
  mkService (with_state Closed <$> sessions s) (svc_created_at s) (svc_last_activity s)
    persistent true (is_specified_user s).

(** The global registry, and the children waiting to be reaped. *)
Record Registry : Type := mkRegistry {
  services : gmap string Service;
  tasks : list Z
}.

Definition with_services (v : gmap string Service) (r : Registry) : Registry :=
  mkRegistry v (tasks r).

Definition add_to_reaper (p : option Z) (r : Registry) : Registry :=
  mkRegistry (services r) (tasks r ++ option_list p).

Definition get_or_create_service (now : Z) (id : string) (persistent specified : bool)
    (r : Registry) : result string Registry :=
  match services r !! id with
  | None =>
      if MAX_SERVICES <=? Z.of_nat (size (services r))
      then Err "Maximum number of terminal services (100) reached"
      else Ok (with_services (<[id := reset_status persistent
                                        (service_new now persistent specified)]> (services r)) r)
  | Some s => Ok (with_services (<[id := reset_status persistent s]> (services r)) r)
  end.

(** The children of a map of sessions, as [stop] hands them over. *)
Definition children (m : gmap Z TerminalSession) : list Z :=
  omap (fun '(_, s) => child s) (map_to_list m).

Definition remove_service (id : string) (r : Registry) : Registry :=
  match services r !! id with
  | None => r
  | Some s => mkRegistry (delete id (services r)) (tasks r ++ children (sessions s))
  end.

Definition is_idle (now : Z) (s : Service) : bool :=
  if negb (is_persistent s) && (SERVICE_IDLE_TIMEOUT <? now - svc_last_activity s) then true
  else is_persistent s && bool_decide (sessions s = ∅)
       && (SERVICE_IDLE_TIMEOUT * 2 <? now - svc_last_activity s).

Definition cleanup_inactive_services (now : Z) (r : Registry) : Registry :=
  let to_remove := omap (fun '(id, s) => if is_idle now s then Some id else None)
                     (map_to_list (services r)) in
  foldl (fun r id => remove_service id r) r to_remove.

(** Only a child that still runs is kept. *)
Definition check_zombie_terminals (w : World) (r : Registry) : Registry :=
  mkRegistry (services r)
    (List.filter (fun p => match try_wait w p with Running => true | _ => false end) (tasks r)).

Definition set_persistent (id : string) (v : bool) (r : Registry) : result string Registry :=
  match services r !! id with
  | Some s =>
      Ok (with_services (<[id := mkService (sessions s) (svc_created_at s) (svc_last_activity s) v
                                   (needs_session_sync s) (is_specified_user s)]> (services r)) r)
  | None => Err "Service not found"
  end.

Definition on_disconnect (id : string) (persistent : bool) (r : Registry) : Registry :=
  if negb persistent then remove_service id r else r.

(** ** Responses *)

Record TerminalOpened : Type := mkOpened {
  op_id : Z;
  op_message : string;
  op_pid : Z;
  op_service_id : string;
  op_persistent_sessions : list Z;
  op_replay : bool
}.

Inductive Response : Type :=
| ROpened (o : TerminalOpened)
| RData (id : Z) (data : list byte) (compressed : bool)
| RClosed (id exit_code : Z)
| RError (message : string).

Section Service.
Context `{Zstd}.

Definition create_terminal_data_response (id : Z) (data : list byte) : Response :=
  if COMPRESS_THRESHOLD <? len data then
    let compressed := compress data in
    if len compressed <? len data then RData id compressed true else RData id data false
  else RData id data false.

(** ** Actions *)

(** The keys of the sessions, in the order of the map. *)
Definition session_ids (m : gmap Z TerminalSession) : list Z := fst <$> map_to_list m.

(** On the first open after a reconnection a terminal that does not exist stands
    for the surviving one with the lowest number. *)
Definition remap (id : Z) (s : Service) : Service :=
  if bool_decide (sessions s !! id = None) && needs_session_sync s
     && negb (bool_decide (sessions s = ∅)) then
    match list_min (session_ids (sessions s)) with
    | Some lowest =>
        match sessions s !! lowest with
        | Some x => with_sessions (<[id := x]> (delete lowest (sessions s))) s
        | None => s
        end
    | None => s
    end
  else s.

(** Drain at most [CHANNEL_BUFFER_SIZE] messages. *)
Definition drain (q : option (list (list byte))) : list (list byte) * option (list (list byte)) :=
  match q with
  | Some l => (take (Z.to_nat CHANNEL_BUFFER_SIZE) l, Some (drop (Z.to_nat CHANNEL_BUFFER_SIZE) l))
  | None => ([], None)
  end.

Definition append_all (ds : list (list byte)) (b : OutputBuffer) : OutputBuffer :=
  foldl (fun b d => append d b) b ds.

(** Reconnect to a session: what is replayed, and the session made active. *)
Definition reconnect (x : TerminalSession) : list byte * TerminalSession :=
  let '(backlog, q) := drain (output_rx x) in
  let b := append_all backlog (output_buffer x) in
  let buffer := get_recent b DEFAULT_RECONNECT_BUFFER_BYTES in
  let x := with_output q b x in
  (buffer, with_state (Active (if is_empty buffer then None else Some buffer)
                         (TempResize MAX_SIGWINCH_PHASE_ATTEMPTS)) x).

(** [spawned] is what opening the pseudo terminal and starting the shell give:
    the process id, or an error. *)
Definition handle_open (now : Z) (service_id : string) (spawned : result string Z)
    (id rows cols : Z) (s : Service) : result string (list Response) * Service :=
  let s := remap id s in
  match sessions s !! id with
  | Some x =>
      let '(buffer, x) := reconnect x in
      let others := if needs_session_sync s && (1 <? Z.of_nat (size (sessions s)))
                    then List.filter (fun k => negb (k =? id)) (session_ids (sessions s)) else [] in
      let message := if is_empty buffer then "Reconnected to existing terminal"
                     else "Reconnected to existing terminal with pending output" in
      (Ok [ROpened (mkOpened id message (pid x) service_id others (negb (is_empty buffer)))],
       with_sync false (with_sessions (<[id := x]> (sessions s)) s))
  | None =>
      match spawned with
      | Err e => (Err e, s)
      | Ok p =>
          let x := session_new now (as_u16 rows) (as_u16 cols) in
          let x := mkSession now now (Some (as_u16 rows, as_u16 cols)) (Some p) (Some []) (Some [])
                     false true true (output_buffer x) p (as_u16 rows) (as_u16 cols) false
                     (Active None Idle) in
          let others := if needs_session_sync s then session_ids (sessions s) else [] in
          (Ok [ROpened (mkOpened id "Terminal opened" p service_id others false)],
           with_sync false (with_sessions (<[id := x]> (sessions s)) s))
      end
  end.

Definition handle_resize (w : World) (now id rows cols : Z) (s : Service)
  : result string (list Response) * Service :=
  match sessions s !! id with
  | None => (Ok [], s)
  | Some x =>
      let x := with_size (as_u16 rows) (as_u16 cols) (with_activity now x) in
      match pty_pair x with
      | None => (Ok [], with_sessions (<[id := x]> (sessions s)) s)
      | Some _ =>
          if resize_ok w then
            (Ok [], with_sessions (<[id := with_pty (Some (as_u16 rows, as_u16 cols)) x]> (sessions s)) s)
          else (Err "resize", with_sessions (<[id := x]> (sessions s)) s)
      end
  end.

Definition handle_data (now id : Z) (data : list byte) (s : Service)
  : result string (list Response) * Service :=
  match sessions s !! id with
  | None => (Ok [], s)
  | Some x =>
      let x := with_activity now x in
      let x := match input_tx x with
               | Some q => with_input (Some (q ++ [data])) x
               | None => x
               end in
      (Ok [], with_sessions (<[id := x]> (sessions s)) s)
  end.

(** The child of the closed terminal goes to the reaper, once it is killed. *)
Definition handle_close (w : World) (id : Z) (s : Service)
  : result string (list Response) * option Z * Service :=
  match sessions s !! id with
  | None => (Ok [], None, s)
  | Some x =>
      let s := with_sessions (delete id (sessions s)) s in
      match child x with
      | Some p => if kill_ok w then (Ok [RClosed id (-1)], Some p, s) else (Err "kill", None, s)
      | None => (Ok [RClosed id 0], None, s)
      end
  end.

Inductive Action : Type :=
| AOpen (id rows cols : Z)
| AResize (id rows cols : Z)
| AData (id : Z) (data : list byte)
| AClose (id : Z)
| ANone.

Definition handle_action (w : World) (now : Z) (service_id : string) (spawned : result string Z)
    (a : Action) (r : Registry) : result string (list Response) * Registry :=
  match services r !! service_id with
  | None => (Ok [RError ("Terminal service " +:+ service_id +:+ " not found")], r)
  | Some s =>
      let s := update_activity now s in
      let put s := with_services (<[service_id := s]> (services r)) r in
      match a with
      | AOpen id rows cols =>
          let '(o, s) := handle_open now service_id spawned id rows cols s in (o, put s)
      | AResize id rows cols => let '(o, s) := handle_resize w now id rows cols s in (o, put s)
      | AData id data => let '(o, s) := handle_data now id data s in (o, put s)
      | AClose id => let '(o, c, s) := handle_close w id s in (o, add_to_reaper c (put s))
      | ANone => (Ok [], put s)
      end
  end.

(** ** Polling *)

Definition temp_rows (rows : Z) (a : SigwinchAction) : Z :=
  match a with
  | DoTempResize => if 2 <? rows then rows - 1 else rows + 1
  | DoRestore => rows
  end.

(** [do_sigwinch_resize]: whether it succeeded, and the new size. *)
Definition do_sigwinch_resize (w : World) (x : TerminalSession) (a : SigwinchAction)
  : bool * option (Z * Z) :=
  if (rows x =? 0) || (cols x =? 0) then (false, pty_pair x)
  else match pty_pair x with
       | Some _ => if resize_ok w then (true, Some (temp_rows (rows x) a, cols x))
                   else (false, pty_pair x)
       | None => (false, None)
       end.

Definition sigwinch_start (p : SigwinchPhase) : SigwinchPhase * option SigwinchAction :=
  match p with
  | TempResize n => if n =? 0 then (Idle, None) else (TempResize (n - 1), Some DoTempResize)
  | Restore n => if n =? 0 then (Idle, None) else (Restore (n - 1), Some DoRestore)
  | Idle => (Idle, None)
  end.

Definition sigwinch_end (a : SigwinchAction) (ok : bool) (p : SigwinchPhase) : SigwinchPhase :=
  match a, ok with
  | DoTempResize, true => Restore MAX_SIGWINCH_PHASE_ATTEMPTS
  | DoRestore, true => Idle
  | _, false => p
  end.

(** The phase after a poll, with the resize done in between. *)
Definition poll_sigwinch (w : World) (p : SigwinchPhase) (x : TerminalSession)
  : SigwinchPhase * option (Z * Z) :=
  let '(p, a) := sigwinch_start p in
  match a with
  | None => (p, pty_pair x)
  | Some a => let '(ok, size) := do_sigwinch_resize w x a in (sigwinch_end a ok p, size)
  end.

(** Whether the end of the terminal is found out in this poll. *)
Definition found_closed (w : World) (id : Z) (x : TerminalSession) : bool :=
  negb (closed_message_sent x) &&
  ((reader_thread x && reader_finished w id)
   || match child x with
      | Some p => match try_wait w p with Exited _ => true | _ => false end
      | None => false
      end).

(** The body of the loop of [read_outputs] for one session whose lock is free. *)
Definition poll_session (w : World) (now id : Z) (x : TerminalSession)
  : TerminalSession * list Response * bool :=
  let closed := found_closed w id x in
  let x := if closed then with_closed_sent true x else x in
  let received := match output_rx x with Some q => q | None => [] end in
  let x := with_output (match output_rx x with Some _ => Some [] | None => None end)
             (append_all received (output_buffer x)) x in
  match state x with
  | Closed => (x, [], closed)
  | Active pending phase =>
      let replay := match pending with
                    | Some b => if is_empty b then [] else [create_terminal_data_response id b]
                    | None => []
                    end in
      let x := if is_empty received then x else with_activity now x in
      let '(phase, size) := poll_sigwinch w phase x in
      let x := with_pty size (with_state (Active None phase) x) in
      (x, replay ++ (create_terminal_data_response id <$> received), closed)
  end.

Fixpoint poll_sessions (w : World) (now : Z) (l : list (Z * TerminalSession))
    (m : gmap Z TerminalSession) : gmap Z TerminalSession * list Response * list Z :=
  match l with
  | [] => (m, [], [])
  | (id, x) :: l =>
      if busy w id then poll_sessions w now l m
      else
        let '(x, rs, closed) := poll_session w now id x in
        let '(m, rs', ids) := poll_sessions w now l (<[id := x]> m) in
        (m, rs ++ rs', if closed then id :: ids else ids)
  end.

(** The terminals found closed leave the service, persistent or not (the message
    that marks them as closed was just sent); their children are reaped. *)
Fixpoint remove_closed (w : World) (ids : list Z) (m : gmap Z TerminalSession)
  : gmap Z TerminalSession * list Response * list Z :=
  match ids with
  | [] => (m, [], [])
  | id :: ids =>
      let c := match m !! id with Some x => child x | None => None end in
      let code := match c with
                  | Some p => match try_wait w p with Exited code => code | _ => 0 end
                  | None => 0
                  end in
      let '(m, rs, ps) := remove_closed w ids (delete id m) in
      (m, RClosed id code :: rs, option_list c ++ ps)
  end.

Definition read_outputs (w : World) (now : Z) (service_id : string) (r : Registry)
  : list Response * Registry :=
  match services r !! service_id with
  | None => ([], r)
  | Some s =>
      let '(m, rs, ids) := poll_sessions w now (map_to_list (sessions s)) (sessions s) in
      let '(m, rs', ps) := remove_closed w ids m in
      (rs ++ rs', mkRegistry (<[service_id := with_sessions m s]> (services r)) (tasks r ++ ps))
  end.

(** The end of the service's thread. *)
Definition run_end (service_id : string) (r : Registry) : Registry :=
  match services r !! service_id with
  | Some s => if negb (is_persistent s) then remove_service service_id r else r
  | None => r
  end.
End Service.

(** ** The number of services *)

Definition bounded (r : Registry) : Prop := Z.of_nat (size (services r)) <= MAX_SERVICES.

(** Everything that happens to the registry. *)
Inductive Step : Type :=
| SOpen (now : Z) (id : string) (persistent specified : bool)
| SAction (w : World) (now : Z) (id : string) (spawned : result string Z) (a : Action)
| SPoll (w : World) (now : Z) (id : string)
| SPersist (id : string) (v : bool)
| SDisconnect (id : string) (persistent : bool)
| SRunEnd (id : string)
| SCleanup (now : Z)
| SZombies (w : World).

Definition step `{Zstd} (st : Step) (r : Registry) : Registry :=
  match st with
  | SOpen now id p u => match get_or_create_service now id p u r with Ok r => r | Err _ => r end
  | SAction w now id sp a => snd (handle_action w now id sp a r)
  | SPoll w now id => snd (read_outputs w now id r)
  | SPersist id v => match set_persistent id v r with Ok r => r | Err _ => r end
  | SDisconnect id p => on_disconnect id p r
  | SRunEnd id => run_end id r
  | SCleanup now => cleanup_inactive_services now r
  | SZombies w => check_zombie_terminals w r
  end.

Lemma size_insert_some {A} (m : gmap string A) k x y :
  m !! k = Some y -> size (<[k := x]> m) = size m.
Proof. intros Hk. by rewrite map_size_insert_Some. Qed.

Lemma remove_service_size id r : (size (services (remove_service id r)) <= size (services r))%nat.
Proof.
  unfold remove_service. destruct (services r !! id) eqn:E; [|done]. cbn.
  rewrite map_size_delete, E. cbn. lia.
Qed.

Section Registry.
Context `{Zstd}.

Lemma handle_action_size w now id sp a r :
  size (services (snd (handle_action w now id sp a r))) = size (services r).
Proof.
  unfold handle_action. destruct (services r !! id) as [s|] eqn:E; [|done]. cbv zeta.
  destruct a.
  - destruct (handle_open _ _ _ _ _ _ _) as [o s']. by apply (size_insert_some _ _ _ s).
  - destruct (handle_resize _ _ _ _ _ _) as [o s']. by apply (size_insert_some _ _ _ s).
  - destruct (handle_data _ _ _ _) as [o s']. by apply (size_insert_some _ _ _ s).
  - destruct (handle_close _ _ _) as [[o c] s']. by apply (size_insert_some _ _ _ s).
  - by apply (size_insert_some _ _ _ s).
Qed.

Lemma step_bounded st r : bounded r -> bounded (step st r).
Proof.
  unfold bounded. intros Hb. destruct st; cbn [step].
  - unfold get_or_create_service. destruct (services r !! id) as [s|] eqn:E.
    + cbn. rewrite (size_insert_some _ _ _ s) by done. done.
    + destruct (Z.leb_spec MAX_SERVICES (Z.of_nat (size (services r)))); [done|]. cbn.
      rewrite map_size_insert_None by done. lia.
  - by rewrite handle_action_size.
  - unfold read_outputs. destruct (services r !! id) as [s|] eqn:E; [|done].
    destruct (poll_sessions _ _ _ _) as [[m rs] ids]. destruct (remove_closed _ _ _) as [[m' rs'] ps].
    cbn. by rewrite (size_insert_some _ _ _ s).
  - unfold set_persistent. destruct (services r !! id) as [s|] eqn:E; [|done]. cbn.
    by rewrite (size_insert_some _ _ _ s).
  - unfold on_disconnect. destruct persistent; [done|]. cbn.
    pose proof (remove_service_size id r). lia.
  - unfold run_end. destruct (services r !! id); [|done]. destruct (negb _); [|done].
    pose proof (remove_service_size id r). lia.
  - unfold cleanup_inactive_services.
    generalize (omap (fun '(id, s) => if is_idle now s then Some id else None)
                  (map_to_list (services r))). intros l. revert r Hb.
    induction l as [|id l IH]; intros r Hb; [done|]. cbn. apply IH.
    pose proof (remove_service_size id r). lia.
  - done.
Qed.

(** However clients connect, act and leave, there are never more than 100
    terminal services. *)
Theorem services_bounded (sts : list Step) :
  Z.of_nat (size (services (foldl (fun r st => step st r) (mkRegistry ∅ []) sts))) <= MAX_SERVICES.
Proof.
  assert (H0 : bounded (mkRegistry ∅ [])) by done.
  revert H0. generalize (mkRegistry ∅ []). induction sts as [|st sts IH]; intros r Hr; [done|].
  cbn. apply IH. by apply step_bounded.
Qed.
End Registry.

(** ** Cleaning up *)

Lemma remove_service_lookup id k r :
  services (remove_service id r) !! k = if decide (id = k) then None else services r !! k.
Proof.
  unfold remove_service. destruct (services r !! id) eqn:E; cbn.
  - apply lookup_delete.
  - case_decide; [by subst|done].
Qed.

Lemma remove_services_lookup l k : forall r,
  services (foldl (fun r id => remove_service id r) r l) !! k
  = if decide (k ∈ l) then None else services r !! k.
Proof.
  induction l as [|id l IH]; intros r; cbn; [by rewrite decide_False by set_solver|].
  rewrite IH, remove_service_lookup.
  repeat case_decide; try done; set_solver.
Qed.

(** The periodic cleanup removes exactly the services idle for too long: one
    that is not persistent after an hour without activity, one that is persistent
    after two hours and only if it has no terminal left. *)
Theorem cleanup_exact (now : Z) (r : Registry) (id : string) :
  services (cleanup_inactive_services now r) !! id =
    match services r !! id with
    | None => None
    | Some s =>
        let idle := now - svc_last_activity s in
        if (negb (is_persistent s) && (SERVICE_IDLE_TIMEOUT <? idle))
           || (is_persistent s && bool_decide (sessions s = ∅) && (SERVICE_IDLE_TIMEOUT * 2 <? idle))
        then None else Some s
    end.
Proof.
  unfold cleanup_inactive_services. rewrite remove_services_lookup.
  set (l := omap _ _).
  assert (Hl : id ∈ l <-> exists s, services r !! id = Some s /\ is_idle now s = true).
  { unfold l. rewrite list_elem_of_omap. split.
    - intros ([k s] & Hin & Hk). apply elem_of_map_to_list in Hin.
      destruct (is_idle now s) eqn:E; [|done]. injection Hk as ->. eauto.
    - intros (s & Hs & Hi). exists (id, s). rewrite elem_of_map_to_list, Hi. done. }
  assert (Hi : forall s, is_idle now s =
    (negb (is_persistent s) && (SERVICE_IDLE_TIMEOUT <? now - svc_last_activity s))
    || (is_persistent s && bool_decide (sessions s = ∅)
        && (SERVICE_IDLE_TIMEOUT * 2 <? now - svc_last_activity s))).
  { intros s. unfold is_idle. by destruct (_ && _). }
  destruct (services r !! id) as [s|] eqn:E; [|by case_decide]. cbv zeta. rewrite <- Hi.
  destruct (is_idle now s) eqn:Ei; case_decide as Hd; try done.
  - exfalso. apply Hd, Hl. eauto.
  - apply Hl in Hd as (s' & [= <-] & Hs'). congruence.
Qed.

(** ** No child process is forgotten *)

Definition map_owns (m : gmap Z TerminalSession) (p : Z) : Prop :=
  exists k x, m !! k = Some x /\ child x = Some p.

Definition owned (r : Registry) (p : Z) : Prop :=
  p ∈ tasks r \/ exists id s, services r !! id = Some s /\ map_owns (sessions s) p.

(** One service replaced: what it owned it still owns, or was handed over. *)
Lemma owned_put r id s s' ps p :
  services r !! id = Some s ->
  (map_owns (sessions s) p -> map_owns (sessions s') p \/ p ∈ ps) ->
  owned r p -> owned (mkRegistry (<[id := s']> (services r)) (tasks r ++ ps)) p.
Proof.
  intros Hs Hm [Ht|(k & t & Hk & Ho)]; [left; cbn; set_solver|].
  destruct (decide (k = id)) as [->|Hne].
  - assert (t = s) as -> by congruence. destruct (Hm Ho) as [Ho'|Hp]; [|left; cbn; set_solver].
    right. exists id, s'. cbn. by rewrite lookup_insert_eq.
  - right. exists k, t. cbn. by rewrite lookup_insert_ne.
Qed.

Lemma owned_put_same r id s s' p :
  services r !! id = Some s -> (map_owns (sessions s) p -> map_owns (sessions s') p) ->
  owned r p -> owned (with_services (<[id := s']> (services r)) r) p.
Proof.
  intros Hs Hm Ho. unfold with_services. rewrite <- (app_nil_r (tasks r)).
  apply (owned_put r id s); auto.
Qed.

Lemma owns_insert_same m k x x' p :
  m !! k = Some x -> child x' = child x -> map_owns m p -> map_owns (<[k := x']> m) p.
Proof.
  intros Hk Hc (j & y & Hj & Hy). destruct (decide (j = k)) as [->|Hne].
  - exists k, x'. rewrite lookup_insert_eq. split; [done|]. congruence.
  - exists j, y. by rewrite lookup_insert_ne.
Qed.

Lemma owns_insert_new m k x p : m !! k = None -> map_owns m p -> map_owns (<[k := x]> m) p.
Proof.
  intros Hk (j & y & Hj & Hy). exists j, y. split; [|done].
  rewrite lookup_insert_ne; [done|]. congruence.
Qed.

Lemma owns_fmap m f p :
  (forall x, child (f x) = child x) -> map_owns m p -> map_owns (f <$> m) p.
Proof.
  intros Hf (k & x & Hk & Hx). exists k, (f x). rewrite lookup_fmap, Hk. split; [done|]. by rewrite Hf.
Qed.

Lemma remap_owns id s p : map_owns (sessions s) p -> map_owns (sessions (remap id s)) p.
Proof.
  intros Ho. unfold remap. destruct (bool_decide (sessions s !! id = None)) eqn:Eid; [|done].
  apply bool_decide_eq_true in Eid. destruct (_ && _); [|done].
  destruct (list_min _) as [low|]; [|done]. destruct (sessions s !! low) as [x|] eqn:El; [|done].
  destruct Ho as (k & y & Hk & Hy). cbn. destruct (decide (k = low)) as [->|Hne].
  - exists id, x. rewrite lookup_insert_eq. split; [done|]. congruence.
  - exists k, y. rewrite lookup_insert_ne, lookup_delete_ne by congruence. done.
Qed.

Lemma reconnect_child x : child (snd (reconnect x)) = child x.
Proof. unfold reconnect. destruct (drain (output_rx x)). done. Qed.

Section Children.
Context `{Zstd}.

Lemma handle_open_owns now sid sp id rs cs s p :
  map_owns (sessions s) p -> map_owns (sessions (snd (handle_open now sid sp id rs cs s))) p.
Proof.
  intros Ho. apply (remap_owns id) in Ho. unfold handle_open.
  destruct (sessions (remap id s) !! id) as [x|] eqn:E.
  - pose proof (reconnect_child x) as Hc. destruct (reconnect x) as [b x']. cbn in *.
    by eapply owns_insert_same.
  - destruct sp; [|done]. cbn. by apply owns_insert_new.
Qed.

Lemma handle_resize_owns w now id rs cs s p :
  map_owns (sessions s) p -> map_owns (sessions (snd (handle_resize w now id rs cs s))) p.
Proof.
  intros Ho. unfold handle_resize. destruct (sessions s !! id) as [x|] eqn:E; [|done].
  repeat case_match; cbn; by eapply owns_insert_same.
Qed.

Lemma handle_data_owns now id d s p :
  map_owns (sessions s) p -> map_owns (sessions (snd (handle_data now id d s))) p.
Proof.
  intros Ho. unfold handle_data. destruct (sessions s !! id) as [x|] eqn:E; [|done]. cbn.
  eapply owns_insert_same; [done| |done]. by destruct (input_tx x).
Qed.

Lemma poll_session_child w now id x : child (fst (fst (poll_session w now id x))) = child x.
Proof.
  unfold poll_session. cbv zeta.
  destruct (found_closed w id x);
    (match goal with |- context [match ?st with Closed => _ | Active _ _ => _ end] => destruct st end;
     [done|]; destruct (poll_sigwinch _ _ _) as [ph sz]; cbn; by destruct (is_empty _)).
Qed.

Lemma poll_sessions_child w now l : forall m,
  Forall (fun '(id, x) => child <$> m !! id = Some (child x)) l ->
  forall k, child <$> (fst (fst (poll_sessions w now l m)) !! k) = child <$> (m !! k).
Proof.
  induction l as [|[id x] l IH]; intros m Hl k; [done|].
  apply Forall_cons in Hl as [Hx Hl]. cbn [poll_sessions]. destruct (busy w id); [by apply IH|].
  pose proof (poll_session_child w now id x) as Hc.
  destruct (poll_session w now id x) as [[x' rs] cl]. cbn in Hc.
  assert (Hm : forall j, child <$> (<[id := x']> m) !! j = child <$> m !! j).
  { intros j. rewrite lookup_insert. case_decide; [subst; cbn; congruence|done]. }
  specialize (IH (<[id := x']> m)).
  destruct (poll_sessions w now l (<[id := x']> m)) as [[m' rs'] ids]. cbn in *.
  rewrite IH, Hm; [done|]. eapply Forall_impl; [done|]. intros [j y]. by rewrite Hm.
Qed.

Lemma remove_closed_owns w ids : forall m p,
  map_owns m p ->
  map_owns (fst (fst (remove_closed w ids m))) p \/ p ∈ snd (remove_closed w ids m).
Proof.
  induction ids as [|id ids IH]; intros m p Ho; [by left|]. cbn [remove_closed].
  assert (Hd : map_owns (delete id m) p \/ p ∈ option_list (m !! id ≫= child)).
  { destruct Ho as (k & x & Hk & Hx). destruct (decide (k = id)) as [->|Hne].
    - right. rewrite Hk. cbn. rewrite Hx. set_solver.
    - left. exists k, x. by rewrite lookup_delete_ne. }
  assert (Hc : match m !! id with Some x => child x | None => None end = m !! id ≫= child)
    by by destruct (m !! id).
  specialize (IH (delete id m) p).
  destruct (remove_closed w ids (delete id m)) as [[m' rs] ps]. cbn in *. rewrite Hc.
  destruct Hd as [Hd|Hd]; [|right; set_solver].
  destruct (IH Hd); [by left|]. right. set_solver.
Qed.

Lemma read_outputs_owned w now id r p : owned r p -> owned (snd (read_outputs w now id r)) p.
Proof.
  unfold read_outputs. destruct (services r !! id) as [s|] eqn:E; [|done].
  pose proof (poll_sessions_child w now (map_to_list (sessions s)) (sessions s)) as Hp.
  destruct (poll_sessions w now _ _) as [[m rs] ids]. cbn in Hp.
  pose proof (fun q => remove_closed_owns w ids m q) as Hr.
  destruct (remove_closed w ids m) as [[m' rs'] ps]. cbn in *.
  apply (owned_put r id s); [done|]. intros (k & x & Hk & Hx). apply Hr.
  assert (Hkm : child <$> m !! k = child <$> sessions s !! k).
  { apply Hp. rewrite Forall_forall. intros [j y] Hj. apply elem_of_map_to_list in Hj.
    by rewrite Hj. }
  rewrite Hk in Hkm. apply fmap_Some in Hkm as (x' & Hx' & Heq).
  exists k, x'. split; [done|]. congruence.
Qed.

Lemma children_elem m p : map_owns m p -> p ∈ children m.
Proof.
  intros (k & x & Hk & Hx). unfold children. apply list_elem_of_omap. exists (k, x).
  by rewrite elem_of_map_to_list.
Qed.

Lemma remove_service_owned id r p : owned r p -> owned (remove_service id r) p.
Proof.
  unfold remove_service. destruct (services r !! id) as [s|] eqn:E; [|done].
  intros [Ht|(k & t & Hk & Ho)]; [left; cbn; set_solver|].
  destruct (decide (k = id)) as [->|Hne].
  - assert (t = s) as -> by congruence. apply children_elem in Ho. left. cbn. set_solver.
  - right. exists k, t. cbn. by rewrite lookup_delete_ne.
Qed.

(** The steps that let go of a child on purpose: reaping, and a kill that fails. *)
Definition keeps_children (st : Step) : bool :=
  match st with
  | SZombies _ => false
  | SAction w _ _ _ (AClose _) => kill_ok w
  | _ => true
  end.

(** No child process is forgotten.  A child that belongs to a terminal or
    waits for the reaper still does after any action, poll, cleanup or removal;
    only the reaper lets go of it (and a close whose kill fails). *)
Theorem children_kept (st : Step) (r : Registry) (p : Z) :
  keeps_children st = true -> owned r p -> owned (step st r) p.
Proof.
  intros Hst Ho. destruct st; cbn [step]; [..|done].
  - unfold get_or_create_service. destruct (services r !! id) as [s|] eqn:E.
    + apply (owned_put_same r id s); [done| |done]. by apply owns_fmap.
    + destruct (_ <=? _); [done|]. destruct Ho as [Ht|(k & s & Hk & Hm)]; [by left|].
      right. exists k, s. cbn. rewrite lookup_insert_ne by congruence. done.
  - unfold handle_action. destruct (services r !! id) as [s|] eqn:E; [|done]. cbv zeta.
    destruct a; cbn [keeps_children] in Hst.
    + pose proof (handle_open_owns now id spawned id0 rows0 cols0 (update_activity now s) p) as Hx.
      destruct (handle_open _ _ _ _ _ _ _) as [o s']. by apply (owned_put_same r id s).
    + pose proof (handle_resize_owns w now id0 rows0 cols0 (update_activity now s) p) as Hx.
      destruct (handle_resize _ _ _ _ _ _) as [o s']. by apply (owned_put_same r id s).
    + pose proof (handle_data_owns now id0 data (update_activity now s) p) as Hx.
      destruct (handle_data _ _ _ _) as [o s']. by apply (owned_put_same r id s).
    + unfold handle_close. cbn [sessions update_activity].
      destruct (sessions s !! id0) as [x|] eqn:Ex; cbn.
      2: { apply (owned_put r id s); auto. }
      destruct (child x) as [q|] eqn:Ec; [rewrite Hst|]; cbn;
        (apply (owned_put r id s); [done| |done]); intros (k & y & Hk & Hy);
        (destruct (decide (k = id0)) as [->|Hne]; [|left; exists k, y; cbn; by rewrite lookup_delete_ne]).
      * right. set_solver.
      * congruence.
    + by apply (owned_put_same r id s).
  - by apply read_outputs_owned.
  - unfold set_persistent. destruct (services r !! id) as [s|] eqn:E; [|done].
    by apply (owned_put_same r id s).
  - unfold on_disconnect. destruct persistent; [done|]. by apply remove_service_owned.
  - unfold run_end. destruct (services r !! id); [|done]. destruct (negb _); [|done].
    by apply remove_service_owned.
  - unfold cleanup_inactive_services.
    generalize (omap (fun '(id, s) => if is_idle now s then Some id else None)
                  (map_to_list (services r))). intros l. revert r Ho.
    induction l as [|id l IH]; intros r Ho; [done|]. cbn. by apply IH, remove_service_owned.
Qed.
End Children.

Definition two_terminals : Registry :=
  let x p := mkSession 0 0 (Some (24, 80)) (Some p) (Some []) (Some []) false true true
               buffer_new p 24 80 false (Active None Idle) in
  mkRegistry {[ "ts" := mkService (<[5 := x 105]> (<[2 := x 102]> ∅)) 0 0 true true false ]} [].

Definition calm : World := mkWorld (fun _ => false) (fun _ => false) (fun _ => Running) true true.

Lemma children_kept_witness :
  owned (@step toy_zstd (SAction calm 9 "ts" (Err "no pty") (AClose 2)) two_terminals) 102 /\
  owned (@step toy_zstd (SCleanup 9) two_terminals) 105.
Proof.
  split; apply children_kept; try reflexivity; right; exists "ts"; eexists; (split; [reflexivity|]).
  - exists 2. eexists. split; [vm_compute; reflexivity|reflexivity].
  - exists 5. eexists. split; [vm_compute; reflexivity|reflexivity].
Defined.

(** A close whose kill fails forgets the child: it is in no terminal and the
    reaper does not know it. *)
Lemma failed_kill_forgets_child :
  let w := mkWorld (fun _ => false) (fun _ => false) (fun _ => Running) true false in
  let r := @step toy_zstd (SAction w 9 "ts" (Err "no pty") (AClose 2)) two_terminals in
  tasks r = [] /\ (child <$> (services r !! "ts" ≫= fun s => sessions s !! 2)) = None.
Proof. vm_compute. done. Qed.

(** ** What a poll delivers *)

Section Delivery.
Context `{Zstd, !ZstdLaws, !ZstdTotal}.

(** The terminal and the bytes a response carries. *)
Definition payload (r : Response) : option (Z * list byte) :=
  match r with
  | RData id d c => Some (id, if c then decompress d else d)
  | _ => None
  end.

Lemma data_response_payload id d :
  len d <= MAX_DECOMPRESSED_SIZE -> payload (create_terminal_data_response id d) = Some (id, d).
Proof.
  intros Hd. unfold create_terminal_data_response. repeat case_match; try done. cbn.
  by rewrite decompress_compress.
Qed.

Definition queue (x : TerminalSession) : list (list byte) :=
  match output_rx x with Some q => q | None => [] end.

Definition pending_of (st : SessionState) : list byte :=
  match st with Active (Some b) _ => b | _ => [] end.

Definition is_active (st : SessionState) : bool := match st with Active _ _ => true | Closed => false end.

(** output is neither lost nor repeated.  One poll of a terminal empties the
    channel of its reader into the replay buffer; if a client is attached it is
    sent the pending replay and then every chunk, in order and intact (whether or
    not it was compressed), and nothing stays pending; if not, nothing is sent. *)
Theorem poll_delivers (w : World) (now id : Z) (x : TerminalSession) :
  Forall (fun d => len d <= MAX_DECOMPRESSED_SIZE) (pending_of (state x) :: queue x) ->
  let '(x', rs, _) := poll_session w now id x in
  queue x' = [] /\ output_buffer x' = append_all (queue x) (output_buffer x) /\
  pending_of (state x') = [] /\ is_active (state x') = is_active (state x) /\
  (payload <$> rs) =
    (if is_active (state x)
     then (fun d => Some (id, d)) <$>
            ((if is_empty (pending_of (state x)) then [] else [pending_of (state x)]) ++ queue x)
     else []).
Proof.
  intros Hall. apply Forall_cons in Hall as [Hp Hq]. unfold poll_session. cbv zeta.
  set (x1 := if found_closed w id x then with_closed_sent true x else x).
  assert (E1 : output_rx x1 = output_rx x) by (unfold x1; by destruct (found_closed w id x)).
  assert (E2 : output_buffer x1 = output_buffer x) by (unfold x1; by destruct (found_closed w id x)).
  assert (E3 : state x1 = state x) by (unfold x1; by destruct (found_closed w id x)).
  change (match output_rx x1 with Some q => q | None => [] end) with (queue x1).
  assert (Hqx : queue x1 = queue x) by (unfold queue; by rewrite E1).
  rewrite Hqx, E1, E2. cbn [state with_output]. rewrite E3.
  assert (Hpl : payload <$> (create_terminal_data_response id <$> queue x)
    = (fun d => Some (id, d)) <$> queue x).
  { rewrite <- list_fmap_compose. apply list_fmap_ext. intros i d Hd. cbn.
    rewrite Forall_lookup in Hq. eapply data_response_payload, Hq, Hd. }
  destruct (state x) as [|pend ph]; cbn [is_active pending_of] in *.
  - unfold queue. cbn. rewrite E3. by destruct (output_rx x).
  - destruct (poll_sigwinch _ _ _) as [ph' sz]. cbn.
    split_and!.
    + unfold queue at 1. cbn. by destruct (is_empty (queue x)), (output_rx x).
    + by destruct (is_empty (queue x)).
    + done.
    + done.
    + rewrite !fmap_app, Hpl. f_equal. destruct pend as [[|b t]|]; try done.
      cbn [is_empty fmap list_fmap]. by rewrite data_response_payload.
Qed.
End Delivery.

Lemma poll_delivers_witness :
  let x := mkSession 0 0 (Some (24, 80)) (Some 7) (Some []) (Some [[x61]; [x62; x0a]]) false true
             true buffer_new 7 24 80 false (Active (Some [x7a]) Idle) in
  let '(x', rs, _) := @poll_session toy_zstd calm 1 3 x in
  rs = [RData 3 [x7a] false; RData 3 [x61] false; RData 3 [x62; x0a] false] /\
  queue x' = [] /\ history (output_buffer x') = [x61; x62; x0a].
Proof.
  intros x. pose proof (@poll_delivers toy_zstd _ _ calm 1 3 x) as H.
  destruct (@poll_session toy_zstd calm 1 3 x) as [[x' rs] c] eqn:E.
  destruct H as (H1 & H2 & _); [repeat constructor; vm_compute; discriminate|].
  split; [|split; [exact H1|rewrite H2; vm_compute; reflexivity]].
  change rs with (snd (fst (x', rs, c))). rewrite <- E. vm_compute. reflexivity.
Defined.

(** ** The two-phase redraw *)

(** Polls left before the phase is over, at most. *)
Definition phase_fuel (p : SigwinchPhase) : Z :=
  match p with
  | Idle => 0
  | Restore n => n + 1
  | TempResize n => if n =? 0 then 1 else n + 4
  end.

Definition phase_ok (p : SigwinchPhase) : Prop :=
  match p with Idle => True | Restore n | TempResize n => 0 <= n end.

Lemma poll_sigwinch_decreases w p x :
  phase_ok p ->
  let p' := fst (poll_sigwinch w p x) in
  phase_ok p' /\ phase_fuel p' <= Z.max 0 (phase_fuel p - 1).
Proof.
  unfold poll_sigwinch. destruct p as [|n|n]; cbn [sigwinch_start]; [cbn; lia|..];
    intros Hn; destruct (Z.eqb_spec n 0) as [->|Hz]; try (cbn; lia);
    destruct (do_sigwinch_resize w x _) as [[] sz]; cbn in *;
    unfold MAX_SIGWINCH_PHASE_ATTEMPTS; repeat case_match; to_prop; lia.
Qed.

Fixpoint polls `{Zstd} (ws : list World) (now id : Z) (x : TerminalSession) : TerminalSession :=
  match ws with
  | [] => x
  | w :: ws => polls ws now id (fst (fst (poll_session w now id x)))
  end.

Definition phase (x : TerminalSession) : SigwinchPhase :=
  match state x with Active _ p => p | Closed => Idle end.

Lemma poll_session_active `{Zstd} w now id x b p :
  state x = Active b p ->
  let x' := fst (fst (poll_session w now id x)) in
  exists y, state x' = Active None (fst (poll_sigwinch w p y)) /\
    pty_pair x' = snd (poll_sigwinch w p y) /\
    rows y = rows x /\ cols y = cols x /\ pty_pair y = pty_pair x /\
    rows x' = rows x /\ cols x' = cols x.
Proof.
  intros Hs. unfold poll_session. cbv zeta.
  set (x1 := if found_closed w id x then with_closed_sent true x else x).
  assert (E3 : state x1 = state x) by (unfold x1; by destruct (found_closed w id x)).
  assert (Er : rows x1 = rows x /\ cols x1 = cols x /\ pty_pair x1 = pty_pair x)
    by (unfold x1; by destruct (found_closed w id x)).
  destruct Er as (R1 & R2 & R3). cbn [state with_output]. rewrite E3, Hs.
  match goal with |- context [poll_sigwinch w p ?y] => exists y end.
  destruct (poll_sigwinch w p _) as [p' sz]. cbn.
  split_and!; try done; by destruct (is_empty _).
Qed.

(** C40: the redraw after a reconnection.  However the resizes turn out, seven
    polls after a terminal was reconnected its redraw sequence is over; and if the
    first two resizes work, the first poll changes the height of the pseudo
    terminal and the second gives it back the size the client asked for. *)
Theorem sigwinch_settles `{Zstd} (ws : list World) (now id : Z) (x : TerminalSession) :
  (7 <= length ws)%nat ->
  phase (polls ws now id (snd (reconnect x))) = Idle /\
  (forall w1 w2, resize_ok w1 = true -> resize_ok w2 = true -> is_Some (pty_pair x) ->
   0 < rows x -> 0 < cols x ->
   let x1 := polls [w1] now id (snd (reconnect x)) in
   let x2 := polls [w1; w2] now id (snd (reconnect x)) in
   (exists r, pty_pair x1 = Some (r, cols x) /\ r <> rows x) /\
   pty_pair x2 = Some (rows x, cols x) /\ phase x2 = Idle).
Proof.
  intros Hws. set (x0 := snd (reconnect x)).
  assert (H0 : exists b, state x0 = Active b (TempResize MAX_SIGWINCH_PHASE_ATTEMPTS) /\
    rows x0 = rows x /\ cols x0 = cols x /\ pty_pair x0 = pty_pair x).
  { unfold x0, reconnect. destruct (drain (output_rx x)). by eexists. }
  destruct H0 as (b & Hs & R1 & R2 & R3). split.
  - assert (Hgen : forall vs y b p, state y = Active b p -> phase_ok p ->
      phase_fuel p <= Z.of_nat (length vs) -> phase (polls vs now id y) = Idle).
    { induction vs as [|v vs IH]; intros y c p Hy Hok Hf; cbn [polls length] in *.
      - unfold phase. rewrite Hy. destruct p as [|n|n]; cbn in *; [done|..];
          repeat case_match; to_prop; lia.
      - destruct (poll_session_active v now id y c p Hy) as (z & Hz & _).
        destruct (poll_sigwinch_decreases v p z Hok) as [D1 D2].
        eapply IH; [exact Hz|exact D1|]. lia. }
    eapply Hgen; [exact Hs|cbn; unfold MAX_SIGWINCH_PHASE_ATTEMPTS; lia|].
    cbn. unfold MAX_SIGWINCH_PHASE_ATTEMPTS. lia.
  - intros w1 w2 W1 W2 [[pr pc] Hp] Hr Hc. cbn [polls].
    destruct (poll_session_active w1 now id x0 _ _ Hs) as (y & S1 & P1 & Y1 & Y2 & Y3 & X1 & X2).
    set (x1 := fst (fst (poll_session w1 now id x0))) in *.
    assert (E1 : poll_sigwinch w1 (TempResize MAX_SIGWINCH_PHASE_ATTEMPTS) y
      = (Restore MAX_SIGWINCH_PHASE_ATTEMPTS, Some (temp_rows (rows x) DoTempResize, cols x))).
    { unfold poll_sigwinch, do_sigwinch_resize. cbn [sigwinch_start].
      rewrite Y1, Y2, Y3, R1, R2, R3, Hp, W1.
      destruct (Z.eqb_spec (rows x) 0), (Z.eqb_spec (cols x) 0); try lia. done. }
    rewrite E1 in S1, P1. cbn in S1, P1.
    destruct (poll_session_active w2 now id x1 _ _ S1) as (z & S2 & P2 & Z1 & Z2 & Z3 & _ & _).
    assert (E2 : poll_sigwinch w2 (Restore MAX_SIGWINCH_PHASE_ATTEMPTS) z = (Idle, Some (rows x, cols x))).
    { unfold poll_sigwinch, do_sigwinch_resize. cbn [sigwinch_start].
      rewrite Z1, Z2, Z3, X1, X2, R1, R2, P1, W2.
      destruct (Z.eqb_spec (rows x) 0), (Z.eqb_spec (cols x) 0); try lia. done. }
    rewrite E2 in S2, P2. split_and!.
    + eexists. split; [exact P1|]. cbn. destruct (Z.ltb_spec 2 (rows x)); lia.
    + exact P2.
    + unfold phase. by rewrite S2.
Qed.

Lemma sigwinch_settles_witness :
  let x := mkSession 0 0 (Some (24, 80)) (Some 7) (Some []) (Some []) false true
             true buffer_new 7 24 80 false Closed in
  phase (@polls toy_zstd (replicate 7 calm) 1 3 (snd (reconnect x))) = Idle.
Proof.
  intros x.
  destruct (@sigwinch_settles toy_zstd (replicate 7 calm) 1 3 x) as [H _]; [cbn; lia|exact H].
Defined.

(** ** Reconnecting *)

Lemma remap_exists id s :
  needs_session_sync s = true -> sessions s <> ∅ ->
  is_Some (sessions (remap id s) !! id) /\
  size (sessions (remap id s)) = size (sessions s) /\
  needs_session_sync (remap id s) = true.
Proof.
  intros Hn He. unfold remap. rewrite Hn, (bool_decide_eq_false_2 _ He).
  destruct (sessions s !! id) as [x|] eqn:Eid.
  { rewrite bool_decide_eq_false_2 by done. cbn. rewrite Eid. by split_and!. }
  rewrite bool_decide_eq_true_2 by done. cbn [andb negb].
  destruct (list_min (session_ids (sessions s))) as [low|] eqn:El.
  - apply list_min_in in El. unfold session_ids in El.
    apply list_elem_of_fmap in El as ([k x] & -> & Hk). apply elem_of_map_to_list in Hk.
    cbn [fst]. rewrite Hk. cbn. rewrite lookup_insert_eq. split_and!; [done| |done].
    rewrite map_size_insert_None by (rewrite lookup_delete_ne; [done|congruence]).
    rewrite map_size_delete, Hk. cbn. assert (size (sessions s) <> 0%nat) by by apply map_size_ne_0_lookup; eauto. lia.
  - exfalso. apply He. apply map_empty. intros k. destruct (sessions s !! k) as [x|] eqn:Ek; [|done].
    exfalso. assert (Hin : k ∈ session_ids (sessions s)).
    { unfold session_ids. apply list_elem_of_fmap. exists (k, x). by rewrite elem_of_map_to_list. }
    apply list_min_le in Hin as (m & Hm & _). congruence.
Qed.


