(* ===== verification/Services.v ===== *)
(** * Services and their subscribers (src/server/service.rs, src/server.rs)

    The audio, clipboard, cursor and video of the controlled side are services that
    connections subscribe to.  A service that needs a snapshot (the cursor, the
    clipboard) keeps new subscribers apart until they have got one.  The [Server] owns
    the services and the connections.

    A subscriber is its connection's id.  Sending is an [Output]: the message with the
    ids of its receivers. *)

From stdpp Require Import gmap sets pretty.
From S2P Require Import Prelude.

(** ** A service *)

Record Service : Type := mkService {
  service_name : string;
  subscribes : gset Z;
  new_subscribes : gset Z;
  active : bool;
  need_snapshot : bool;
  service_options : gmap string string }.

Definition service_new (name : string) (need_snapshot : bool) : Service :=
  mkService name ∅ ∅ true need_snapshot ∅.

Definition with_subs (subs news : gset Z) (s : Service) : Service :=
  mkService (service_name s) subs news (active s) (need_snapshot s) (service_options s).

Definition is_subed (id : Z) (s : Service) : bool :=
  bool_decide (id ∈ subscribes s) || bool_decide (id ∈ new_subscribes s).

Definition on_subscribe (id : Z) (s : Service) : Service :=
  if bool_decide (id ∈ subscribes s) then s
  else if need_snapshot s then with_subs (subscribes s) ({[id]} ∪ new_subscribes s) s
  else with_subs ({[id]} ∪ subscribes s) (new_subscribes s) s.

Definition on_unsubscribe (id : Z) (s : Service) : Service :=
  if bool_decide (id ∈ subscribes s) then with_subs (subscribes s ∖ {[id]}) (new_subscribes s) s
  else with_subs (subscribes s) (new_subscribes s ∖ {[id]}) s.

Definition has_subscribes (s : Service) : bool :=
  negb (bool_decide (subscribes s = ∅)) || negb (bool_decide (new_subscribes s = ∅)).

Definition service_ok (s : Service) : bool := active s && has_subscribes s.

Definition set_option (opt val : string) (s : Service) : Service :=
  mkService (service_name s) (subscribes s) (new_subscribes s) (active s) (need_snapshot s)
    (<[opt := val]> (service_options s)).

Definition is_option_true (opt : string) (s : Service) : bool :=
  bool_decide (service_options s !! opt = Some "1"%string).

Definition join (s : Service) : Service :=
  mkService (service_name s) (subscribes s) (new_subscribes s) false (need_snapshot s)
    (service_options s).

Section Sending.
Context {Msg : Type}.

Definition Output : Type := Msg * gset Z.

Definition send_shared (m : Msg) (s : Service) : Output := (m, subscribes s).
Definition send_to (m : Msg) (id : Z) (s : Service) : Output := (m, subscribes s ∩ {[id]}).
Definition send_to_others (m : Msg) (id : Z) (s : Service) : Output := (m, subscribes s ∖ {[id]}).

Definition swap_new_subscribes (s : Service) : Service :=
  with_subs (subscribes s ∪ new_subscribes s) ∅ s.

(** The callback sends [msgs] to the new subscribers, and may fail; they become
    subscribers when the [ServiceSwap] is dropped, in either case. *)
Definition snapshot (msgs : list Msg) (fails : bool) (s : Service) : list Output * bool * Service :=
  if bool_decide (new_subscribes s = ∅) then ([], true, s)
  else (map (fun m => (m, new_subscribes s)) msgs, negb fails, swap_new_subscribes s).
End Sending.

(** *** The threads of a service *)

Definition HIBERNATE_TIMEOUT : Z := 30.
Definition MAX_ERROR_TIMEOUT : Z := 1000.

(** One round of [repeat]: whether the state is initialized, the callback called, the
    state reset. *)
Definition repeat_round (may_reset has_subs : bool) : bool * (bool * bool * bool) :=
  if has_subs then (true, (negb may_reset, true, false))
  else if may_reset then (false, (false, false, true))
  else (false, (false, false, false)).

(** The pause after an error of [run]; [elapsed] is how long the callback ran. *)
Definition run_error_timeout (error_timeout elapsed : Z) : Z :=
  let t := if MAX_ERROR_TIMEOUT <? elapsed then HIBERNATE_TIMEOUT else error_timeout * 2 in
  if MAX_ERROR_TIMEOUT <? t then MAX_ERROR_TIMEOUT else t.

(** ** The server *)

Record Server : Type := mkServer {
  connections : gset Z;
  services : gmap string Service;
  id_count : Z }.

Definition set_services (sv : gmap string Service) (s : Server) : Server :=
  mkServer (connections s) sv (id_count s).

Definition add_service (sv : Service) (s : Server) : Server :=
  set_services (<[service_name sv := sv]> (services s)) s.

Definition contains (name : string) (s : Server) : bool :=
  bool_decide (is_Some (services s !! name)).

Definition subscribe (name : string) (id : Z) (sub : bool) (s : Server) : Server :=
  match services s !! name with
  | None => s
  | Some sv =>
      if Bool.eqb (is_subed id sv) sub then s
      else set_services (<[name := if sub then on_subscribe id sv else on_unsubscribe id sv]> (services s)) s
  end.

(** [VideoSource]. *)
Definition service_name_prefix (camera : bool) : string := if camera then "camera" else "monitor".
Definition get_service_name (camera : bool) (idx : Z) : string :=
  (service_name_prefix camera ++ pretty idx)%string.
Definition is_video_service_name (name : string) : bool :=
  String.prefix "monitor" name || String.prefix "camera" name.

Definition video_service_new (camera : bool) (idx : Z) : Service :=
  service_new (get_service_name camera idx) true.

Definition add_video_service (camera : bool) (idx : Z) (s : Server) : Server :=
  if contains (get_service_name camera idx) s then s
  else add_service (video_service_new camera idx) s.

Definition PRIMARY_CAMERA_IDX : Z := 0.

Section Server.
Variable primary_display : Z.                (* PRIMARY_DISPLAY_IDX *)
Variable primary_camera_exists : bool.

Definition try_add_primary_camera_service (s : Server) : Server :=
  if primary_camera_exists then add_video_service true PRIMARY_CAMERA_IDX s else s.

Definition try_add_primay_video_service (s : Server) : Server :=
  add_video_service false primary_display s.

Definition add_camera_connection (id : Z) (s : Server) : Server :=
  let s :=
    if primary_camera_exists then
      match services s !! get_service_name true PRIMARY_CAMERA_IDX with
      | Some sv =>
          set_services (<[get_service_name true PRIMARY_CAMERA_IDX := on_subscribe id sv]> (services s)) s
      | None => s
      end
    else s in
  mkServer ({[id]} ∪ connections s) (services s) (id_count s).

(** All services but those in [noperms] and the displays that are not the primary. *)
Definition add_connection (id : Z) (noperms : list string) (s : Server) : Server :=
  let join_service name sv :=
    if is_video_service_name name && negb (bool_decide (name = get_service_name false primary_display))
    then sv
    else if bool_decide (name ∈ noperms) then sv else on_subscribe id sv in
  mkServer ({[id]} ∪ connections s) (map_imap (fun n sv => Some (join_service n sv)) (services s))
    (id_count s).

Definition remove_connection (id : Z) (s : Server) : Server :=
  mkServer (connections s ∖ {[id]}) (on_unsubscribe id <$> services s) (id_count s).

Definition get_new_id (s : Server) : Z * Server :=
  let n := as_i32 (id_count s + 1) in (n, mkServer (connections s) (services s) n).

Definition set_video_service_opt (display : option (bool * Z)) (opt value : string) (s : Server)
  : Server :=
  set_services
    (map_imap (fun k v =>
       Some (if match display with
                | Some (source, d) => negb (bool_decide (k = get_service_name source d))
                | None => false
                end then v
             else if is_video_service_name k then set_option opt value v else v))
       (services s)) s.

Definition get_subbed_displays_count (id : Z) (s : Server) : nat :=
  size (filter (fun '(k, sv) => is_video_service_name k && is_subed id sv = true) (services s)).

(** Of the displays, subscribe to those of the list, and drop the others. *)
Definition capture_displays (id : Z) (camera : bool) (displays : list Z) (include exclude : bool)
    (s : Server) : Server :=
  let names := map (get_service_name camera) displays in
  fold_left (fun s name =>
      if is_video_service_name name then
        if bool_decide (name ∈ names) then if include then subscribe name id true s else s
        else if exclude then subscribe name id false s else s
      else s)
    (map fst (map_to_list (services s))) s.

Definition NAME_WINDOW_FOCUS : string := "window_focus".

(** [Connection::capture_displays], with the connection's new [multi_ui_session]. *)
Definition conn_capture_displays (id : Z) (camera follow_remote_window : bool) (add sub set : list Z)
    (s : Server) : bool * Server :=
  let s := fold_left (fun s d => add_video_service camera d s) add s in
  let s := fold_left (fun s d => add_video_service camera d s) set s in
  let s :=
    match add, sub with
    | _ :: _, _ => capture_displays id camera add true false s
    | [], _ :: _ => capture_displays id camera sub false true s
    | [], [] => capture_displays id camera set true true s
    end in
  let multi_ui_session := (1 <? get_subbed_displays_count id s)%nat in
  (multi_ui_session,
   if follow_remote_window then subscribe NAME_WINDOW_FOCUS id (negb multi_ui_session) s else s).

(** [Connection::switch_display_to]; [multi_ui]: the peer manages its displays itself. *)
Definition switch_display_to (id : Z) (camera multi_ui : bool) (old_idx display_idx : Z) (s : Server)
  : Server :=
  let s := if negb (display_idx =? primary_display) then add_video_service camera display_idx s else s in
  let s := if multi_ui then s else subscribe (get_service_name camera old_idx) id false s in
  subscribe (get_service_name camera display_idx) id true s.
End Server.

(** ** What the services promise

    The abstract state is which services exist, and who is subscribed to what. *)

Definition subscribed (s : Server) (n : string) (id : Z) : bool :=
  match services s !! n with Some sv => is_subed id sv | None => false end.

Record Spec : Type := mkSpec { sp_names : gset string; sp_subs : string -> Z -> bool }.

(** A service is filed under its name, and nobody is subscribed twice. *)
Definition service_wf (n : string) (sv : Service) : Prop :=
  service_name sv = n /\ subscribes sv ## new_subscribes sv
  /\ (need_snapshot sv = false -> new_subscribes sv = ∅).
Definition wf (s : Server) : Prop := map_Forall service_wf (services s).

Definition abstracts (s : Server) (sp : Spec) : Prop :=
  dom (services s) = sp_names sp /\ forall n id, subscribed s n id = sp_subs sp n id.

Inductive ServerOp : Type :=
| OpSubscribe (name : string) (id : Z) (sub : bool)
| OpAddConnection (id : Z) (noperms : list string)
| OpAddCameraConnection (id : Z)
| OpRemoveConnection (id : Z)
| OpAddVideoService (camera : bool) (idx : Z)
| OpCapture (id : Z) (camera follow : bool) (add sub set : list Z)
| OpSwitch (id : Z) (camera multi_ui : bool) (old_idx display_idx : Z)
| OpSnapshot (name : string).

Section Refinement.
Variable primary_display : Z.
Variable primary_camera_exists : bool.

(** The thread of a service gives its new subscribers their snapshot. *)
Definition swap_service (name : string) (s : Server) : Server :=
  set_services (alter swap_new_subscribes name (services s)) s.

Definition server_step (op : ServerOp) (s : Server) : Server :=
  match op with
  | OpSubscribe name id sub => subscribe name id sub s
  | OpAddConnection id noperms =>
      add_connection primary_display id noperms (try_add_primay_video_service primary_display s)
  | OpAddCameraConnection id =>
      add_camera_connection primary_camera_exists id
        (try_add_primary_camera_service primary_camera_exists s)
  | OpRemoveConnection id => remove_connection id s
  | OpAddVideoService camera idx => add_video_service camera idx s
  | OpCapture id camera follow add sub set => (conn_capture_displays id camera follow add sub set s).2
  | OpSwitch id camera multi_ui old_idx display_idx =>
      switch_display_to primary_display id camera multi_ui old_idx display_idx s
  | OpSnapshot name => swap_service name s
  end.

Definition spec_subscribe (name : string) (id : Z) (sub : bool) (sp : Spec) : Spec :=
  mkSpec (sp_names sp) (fun n j =>
    if bool_decide (n = name /\ j = id /\ n ∈ sp_names sp) then sub else sp_subs sp n j).

Definition spec_add (name : string) (sp : Spec) : Spec :=
  mkSpec ({[name]} ∪ sp_names sp) (sp_subs sp).

Definition spec_join (id : Z) (allowed : string -> bool) (sp : Spec) : Spec :=
  mkSpec (sp_names sp) (fun n j =>
    if bool_decide (j = id /\ n ∈ sp_names sp) && allowed n then true else sp_subs sp n j).

Definition spec_adds (names : list string) (sp : Spec) : Spec :=
  mkSpec (list_to_set names ∪ sp_names sp) (sp_subs sp).

(** The displays of [names] are captured, the other ones are dropped. *)
Definition spec_capture (id : Z) (names : list string) (include exclude : bool) (sp : Spec) : Spec :=
  mkSpec (sp_names sp) (fun n j =>
    if bool_decide (j = id /\ n ∈ sp_names sp) && is_video_service_name n then
      if bool_decide (n ∈ names) then include || sp_subs sp n j
      else negb exclude && sp_subs sp n j
    else sp_subs sp n j).

(** How many displays [id] looks at. *)
Definition spec_displays (id : Z) (sp : Spec) : nat :=
  size (filter (fun n => is_video_service_name n && sp_subs sp n id = true) (sp_names sp)).

Definition spec_step (op : ServerOp) (sp : Spec) : Spec :=
  match op with
  | OpSubscribe name id sub => spec_subscribe name id sub sp
  | OpAddConnection id noperms =>
      spec_join id
        (fun n => (negb (is_video_service_name n)
                   || bool_decide (n = get_service_name false primary_display))
                  && negb (bool_decide (n ∈ noperms)))
        (spec_add (get_service_name false primary_display) sp)
  | OpAddCameraConnection id =>
      if primary_camera_exists then
        spec_subscribe (get_service_name true PRIMARY_CAMERA_IDX) id true
          (spec_add (get_service_name true PRIMARY_CAMERA_IDX) sp)
      else sp
  | OpRemoveConnection id =>
      mkSpec (sp_names sp) (fun n j => negb (bool_decide (j = id)) && sp_subs sp n j)
  | OpAddVideoService camera idx => spec_add (get_service_name camera idx) sp
  | OpCapture id camera follow add sub set =>
      let named := map (get_service_name camera) in
      let sp := spec_adds (named set) (spec_adds (named add) sp) in
      let sp :=
        match add, sub with
        | _ :: _, _ => spec_capture id (named add) true false sp
        | [], _ :: _ => spec_capture id (named sub) false true sp
        | [], [] => spec_capture id (named set) true true sp
        end in
      if follow then spec_subscribe NAME_WINDOW_FOCUS id (spec_displays id sp <=? 1)%nat sp else sp
  | OpSwitch id camera multi_ui old_idx display_idx =>
      let sp := if negb (display_idx =? primary_display)
                then spec_add (get_service_name camera display_idx) sp else sp in
      let sp := if multi_ui then sp
                else spec_subscribe (get_service_name camera old_idx) id false sp in
      spec_subscribe (get_service_name camera display_idx) id true sp
  | OpSnapshot _ => sp
  end.

(** *** One service *)

Definition all_subs (sv : Service) : gset Z := subscribes sv ∪ new_subscribes sv.

Lemma is_subed_all id sv : is_subed id sv = bool_decide (id ∈ all_subs sv).
Proof. unfold is_subed, all_subs. repeat case_bool_decide; try done; exfalso; set_solver. Qed.

Lemma on_subscribe_all id sv : all_subs (on_subscribe id sv) = {[id]} ∪ all_subs sv.
Proof.
  unfold on_subscribe, all_subs. destruct (decide (id ∈ subscribes sv)).
  - rewrite bool_decide_true by done. set_solver.
  - rewrite bool_decide_false by done. destruct (need_snapshot sv); cbn; set_solver.
Qed.

Lemma on_unsubscribe_all id n sv :
  service_wf n sv -> all_subs (on_unsubscribe id sv) = all_subs sv ∖ {[id]}.
Proof.
  intros (_ & Hd & _). unfold on_unsubscribe, all_subs. destruct (decide (id ∈ subscribes sv)).
  - rewrite bool_decide_true by done. cbn. set_solver.
  - rewrite bool_decide_false by done. cbn. set_solver.
Qed.

Lemma on_subscribe_subed id j sv :
  is_subed j (on_subscribe id sv) = bool_decide (j = id) || is_subed j sv.
Proof.
  rewrite !is_subed_all, on_subscribe_all. repeat case_bool_decide; try done; exfalso; set_solver.
Qed.

Lemma on_unsubscribe_subed id j n sv :
  service_wf n sv -> is_subed j (on_unsubscribe id sv) = negb (bool_decide (j = id)) && is_subed j sv.
Proof.
  intros Hw. rewrite !is_subed_all, (on_unsubscribe_all id n sv Hw).
  repeat case_bool_decide; try done; exfalso; set_solver.
Qed.

Lemma on_subscribe_wf id n sv : service_wf n sv -> service_wf n (on_subscribe id sv).
Proof.
  intros (Hn & Hd & Hs). unfold on_subscribe. destruct (decide (id ∈ subscribes sv)).
  { by rewrite bool_decide_true. }
  rewrite bool_decide_false by done.
  destruct (need_snapshot sv) eqn:E; unfold service_wf; cbn; rewrite ?E; split_and!; try done.
  - set_solver.
  - rewrite (Hs eq_refl). set_solver.
Qed.

Lemma on_unsubscribe_wf id n sv : service_wf n sv -> service_wf n (on_unsubscribe id sv).
Proof.
  intros (Hn & Hd & Hs). unfold on_unsubscribe. destruct (decide (id ∈ subscribes sv)).
  - rewrite bool_decide_true by done. unfold service_wf. cbn. split_and!; try done. set_solver.
  - rewrite bool_decide_false by done. unfold service_wf. cbn. split_and!; try done; [set_solver|].
    intros E. rewrite (Hs E). set_solver.
Qed.

Lemma swap_subed j sv : is_subed j (swap_new_subscribes sv) = is_subed j sv.
Proof. rewrite !is_subed_all. unfold all_subs. cbn.
  assert (subscribes sv ∪ new_subscribes sv ∪ ∅ = subscribes sv ∪ new_subscribes sv) as -> by set_solver.
  done. Qed.

Lemma swap_wf n sv : service_wf n sv -> service_wf n (swap_new_subscribes sv).
Proof. intros (Hn & Hd & Hs). unfold service_wf. cbn. split_and!; try done; set_solver. Qed.

(** *** The operations *)

Definition refined (s : Server) (sp : Spec) : Prop := wf s /\ abstracts s sp.

Lemma refined_names s sp n : refined s sp -> n ∈ sp_names sp <-> is_Some (services s !! n).
Proof. intros (_ & Hd & _). rewrite <- Hd. apply elem_of_dom. Qed.

(** Replace a service by one that is in order. *)
Lemma refined_replace s sp n sv sv' (f : Z -> bool) :
  refined s sp -> services s !! n = Some sv -> service_wf n sv' ->
  (forall j, is_subed j sv' = f j) ->
  refined (set_services (<[n := sv']> (services s)) s)
    (mkSpec (sp_names sp) (fun m j => if bool_decide (m = n) then f j else sp_subs sp m j)).
Proof.
  intros (Hw & Hd & Hs) Hn Hwf Hf. split; [by apply map_Forall_insert_2|]. split; cbn.
  - rewrite dom_insert_L, Hd. assert (n ∈ sp_names sp); [|set_solver].
    rewrite <- Hd. by eapply elem_of_dom_2.
  - intros m j. unfold subscribed. cbn. case_bool_decide as E.
    + subst. by rewrite lookup_insert_eq.
    + rewrite lookup_insert_ne by done. apply Hs.
Qed.

Lemma refined_ext s sp sp' :
  refined s sp -> sp_names sp = sp_names sp' -> (forall n j, sp_subs sp n j = sp_subs sp' n j) ->
  refined s sp'.
Proof. intros (Hw & Hd & Hs) Hn He. split; [done|]. split; [congruence|]. intros. by rewrite Hs. Qed.

Lemma subscribe_refined name id sub s sp :
  refined s sp -> refined (subscribe name id sub s) (spec_subscribe name id sub sp).
Proof.
  intros Hr. unfold subscribe. destruct (services s !! name) as [sv|] eqn:E.
  2: { eapply refined_ext; [exact Hr|done|]. intros n j. cbn.
       rewrite bool_decide_false; [done|]. intros (-> & _ & Hn).
       apply (refined_names s sp name Hr) in Hn as [? ?]. congruence. }
  assert (Hin : name ∈ sp_names sp) by (apply (refined_names s sp name Hr); eauto).
  pose proof Hr as (Hw & Hd & Hs). pose proof (Hw name sv E) as Hsv.
  assert (Hsub : forall j, sp_subs sp name j = is_subed j sv)
    by (intros j; rewrite <- Hs; unfold subscribed; by rewrite E).
  destruct (Bool.eqb (is_subed id sv) sub) eqn:Eb.
  - apply Bool.eqb_prop in Eb. eapply refined_ext; [exact Hr|done|]. intros n j. cbn.
    case_bool_decide as Hc; [|done]. destruct Hc as (-> & -> & _). by rewrite Hsub.
  - eapply refined_ext.
    + apply (refined_replace s sp name sv _ (fun j => if bool_decide (j = id) then sub else is_subed j sv)
               Hr E).
      * destruct sub; [by apply on_subscribe_wf|by apply on_unsubscribe_wf].
      * intros j. destruct sub; [rewrite on_subscribe_subed|rewrite (on_unsubscribe_subed _ _ name) by done];
          by case_bool_decide.
    + done.
    + intros n j. cbn. destruct (decide (n = name)) as [->|Hne].
      * rewrite bool_decide_true by done. destruct (decide (j = id)) as [->|Hj].
        -- by rewrite !bool_decide_true by done.
        -- rewrite !bool_decide_false by naive_solver. by rewrite Hsub.
      * by rewrite !bool_decide_false by naive_solver.
Qed.

Lemma add_refined camera idx s sp :
  refined s sp -> refined (add_video_service camera idx s) (spec_add (get_service_name camera idx) sp).
Proof.
  intros Hr. unfold add_video_service, contains. set (n := get_service_name camera idx).
  pose proof (refined_names s sp n Hr) as Hn. destruct Hr as (Hw & Hd & Hs).
  case_bool_decide as Hc.
  - split; [done|]. split; [cbn; rewrite Hd; apply Hn in Hc; set_solver|done].
  - apply eq_None_not_Some in Hc. split.
    + apply map_Forall_insert_2; [|done]. unfold service_wf. cbn. split_and!; [done|set_solver|done].
    + split; cbn; [rewrite dom_insert_L, Hd; set_solver|]. intros m j. rewrite <- Hs.
      unfold subscribed. cbn. destruct (decide (m = n)) as [->|Hne].
      * rewrite lookup_insert_eq, Hc. unfold is_subed. cbn. by rewrite !bool_decide_false by set_solver.
      * by rewrite lookup_insert_ne.
Qed.

Lemma adds_refined camera ds s sp :
  refined s sp ->
  refined (fold_left (fun s d => add_video_service camera d s) ds s)
    (spec_adds (map (get_service_name camera) ds) sp).
Proof.
  revert s sp. induction ds as [|d ds IH]; intros s sp Hr; cbn [fold_left map].
  - eapply refined_ext; [exact Hr| |done]. cbn. set_solver.
  - eapply refined_ext; [by apply IH, add_refined| |done]. cbn. set_solver.
Qed.

(** Apply a function to every service. *)
Lemma refined_imap s sp c i (g : string -> Service -> Service) (f : string -> Z -> bool -> bool) :
  refined s sp ->
  (forall n sv, service_wf n sv -> service_wf n (g n sv)) ->
  (forall n sv j, service_wf n sv -> n ∈ sp_names sp -> is_subed j (g n sv) = f n j (is_subed j sv)) ->
  (forall n j, n ∉ sp_names sp -> f n j false = false) ->
  refined (mkServer c (map_imap (fun n sv => Some (g n sv)) (services s)) i)
    (mkSpec (sp_names sp) (fun n j => f n j (sp_subs sp n j))).
Proof.
  intros Hr Hg Hf Hn. pose proof (fun n => refined_names s sp n Hr) as Hin.
  destruct Hr as (Hw & Hd & Hs). split; [|split].
  - intros n sv. cbn. rewrite map_lookup_imap. destruct (services s !! n) as [sv0|] eqn:E; [|done].
    intros [= <-]. by apply Hg, Hw.
  - cbn. rewrite <- Hd. apply set_eq. intros n. rewrite !elem_of_dom, map_lookup_imap.
    destruct (services s !! n); cbn; split; intros [? ?]; eauto; done.
  - intros n j. cbn. unfold subscribed. cbn. rewrite map_lookup_imap, <- Hs. unfold subscribed.
    destruct (services s !! n) as [sv|] eqn:E; cbn.
    + apply Hf; [by apply Hw|]. apply Hin. eauto.
    + symmetry. apply Hn. rewrite Hin, E. by intros [? ?].
Qed.

Lemma add_connection_refined id noperms s sp :
  refined s sp ->
  refined (add_connection primary_display id noperms s)
    (spec_join id
       (fun n => (negb (is_video_service_name n)
                  || bool_decide (n = get_service_name false primary_display))
                 && negb (bool_decide (n ∈ noperms))) sp).
Proof.
  intros Hr. unfold add_connection, spec_join.
  apply (refined_imap s sp _ _ _ (fun n j b =>
    if bool_decide (j = id /\ n ∈ sp_names sp)
       && ((negb (is_video_service_name n) || bool_decide (n = get_service_name false primary_display))
           && negb (bool_decide (n ∈ noperms))) then true else b)); [done| | |].
  - intros n sv Hw. repeat case_match; try done. by apply on_subscribe_wf.
  - intros n sv j Hw Hin.
    assert (bool_decide (j = id /\ n ∈ sp_names sp) = bool_decide (j = id)) as ->
      by (apply bool_decide_ext; naive_solver).
    destruct (is_video_service_name n), (bool_decide (n = get_service_name false primary_display));
      cbn; rewrite ?andb_false_r; try done;
      destruct (bool_decide (n ∈ noperms)); cbn; rewrite ?andb_false_r, ?andb_true_r; try done;
      rewrite on_subscribe_subed; by case_bool_decide.
  - intros n j Hn. rewrite bool_decide_false by naive_solver. done.
Qed.

Lemma remove_refined id s sp :
  refined s sp ->
  refined (remove_connection id s)
    (mkSpec (sp_names sp) (fun n j => negb (bool_decide (j = id)) && sp_subs sp n j)).
Proof.
  intros (Hw & Hd & Hs). split; [|split].
  - intros n sv E. apply lookup_fmap_Some in E as (sv0 & <- & E).
    by apply on_unsubscribe_wf, Hw.
  - cbn. by rewrite dom_fmap_L.
  - intros n j. cbn. rewrite <- Hs. unfold subscribed. cbn. rewrite lookup_fmap.
    destruct (services s !! n) as [sv|] eqn:E; cbn; [|by rewrite andb_false_r].
    by apply (on_unsubscribe_subed _ _ n), Hw.
Qed.

Lemma camera_refined id s sp :
  refined s sp ->
  refined (add_camera_connection primary_camera_exists id
             (try_add_primary_camera_service primary_camera_exists s))
    (if primary_camera_exists then
       spec_subscribe (get_service_name true PRIMARY_CAMERA_IDX) id true
         (spec_add (get_service_name true PRIMARY_CAMERA_IDX) sp)
     else sp).
Proof.
  intros Hr. unfold add_camera_connection, try_add_primary_camera_service.
  destruct primary_camera_exists; [|exact Hr].
  pose proof (add_refined true PRIMARY_CAMERA_IDX s sp Hr) as Hr1.
  set (s1 := add_video_service _ _ _) in *. set (name := get_service_name _ _) in *.
  destruct (services s1 !! name) as [sv|] eqn:E.
  - pose proof (refined_replace s1 _ name sv (on_subscribe id sv)
                  (fun j => bool_decide (j = id) || is_subed j sv) Hr1 E) as Hr2.
    assert (Hsub : forall j, sp_subs (spec_add name sp) name j = is_subed j sv).
    { intros j. destruct Hr1 as (_ & _ & Hs). rewrite <- Hs. unfold subscribed. by rewrite E. }
    destruct Hr2 as (Hw2 & Hd2 & Hs2).
    + destruct Hr1 as (Hw1 & _). by apply on_subscribe_wf, Hw1.
    + intros j. apply on_subscribe_subed.
    + split; [exact Hw2|]. split; [exact Hd2|]. intros n j.
      transitivity (subscribed (set_services (<[name:=on_subscribe id sv]> (services s1)) s1) n j);
        [done|]. rewrite Hs2. cbn.
      destruct (decide (n = name)) as [->|Hne].
      * rewrite bool_decide_true by done. destruct (decide (j = id)) as [->|Hj].
        -- rewrite !bool_decide_true; [done|split_and!; [done..|set_solver]|done].
        -- rewrite !bool_decide_false by naive_solver. cbn. by rewrite <- Hsub.
      * by rewrite !bool_decide_false by naive_solver.
  - exfalso. assert (Hin : name ∈ sp_names (spec_add name sp)) by (cbn; set_solver).
    apply (refined_names s1 _ name Hr1) in Hin as [? ?]. congruence.
Qed.

(** One service of a capture request. *)
Definition spec_capture1 (id : Z) (names : list string) (include exclude : bool) (sp : Spec)
    (n : string) : Spec :=
  if is_video_service_name n then
    if bool_decide (n ∈ names) then if include then spec_subscribe n id true sp else sp
    else if exclude then spec_subscribe n id false sp
    else sp
  else sp.

Lemma spec_capture1_names id names i e sp n : sp_names (spec_capture1 id names i e sp n) = sp_names sp.
Proof. unfold spec_capture1. by repeat case_match. Qed.

Lemma spec_captures id names i e ks sp :
  sp_names (fold_left (spec_capture1 id names i e) ks sp) = sp_names sp
  /\ forall n j,
    sp_subs (fold_left (spec_capture1 id names i e) ks sp) n j
    = if bool_decide (j = id /\ n ∈ sp_names sp) && is_video_service_name n && bool_decide (n ∈ ks) then
        if bool_decide (n ∈ names) then i || sp_subs sp n j else negb e && sp_subs sp n j
      else sp_subs sp n j.
Proof.
  revert sp. induction ks as [|k ks IH]; intros sp; cbn.
  { split; [done|]. intros n j. by rewrite (bool_decide_false (n ∈ @nil string)), andb_false_r by (by intros ?%elem_of_nil). }
  destruct (IH (spec_capture1 id names i e sp k)) as [Hn Hs]. rewrite Hn, spec_capture1_names.
  split; [done|]. intros n j. rewrite Hs, spec_capture1_names.
  assert (Hk : sp_subs (spec_capture1 id names i e sp k) n j
    = if bool_decide (n = k) && bool_decide (j = id /\ n ∈ sp_names sp) && is_video_service_name n then
        if bool_decide (n ∈ names) then i || sp_subs sp n j else negb e && sp_subs sp n j
      else sp_subs sp n j).
  { unfold spec_capture1. destruct (decide (n = k)) as [->|Hne].
    - rewrite (bool_decide_true (k = k)) by done. cbn.
      assert (E : bool_decide (k = k /\ j = id /\ k ∈ sp_names sp)
                  = bool_decide (j = id /\ k ∈ sp_names sp)) by (apply bool_decide_ext; naive_solver).
      unfold spec_subscribe. cbn.
      destruct (is_video_service_name k), (bool_decide (k ∈ names)), i, e; cbn; rewrite ?E;
        by destruct (bool_decide (j = id /\ _)).
    - rewrite (bool_decide_false (n = k)) by done. cbn.
      destruct (is_video_service_name k), (bool_decide (k ∈ names)), i, e; cbn; try done;
        by rewrite bool_decide_false by naive_solver. }
  rewrite Hk. destruct (decide (n = k)) as [->|Hne].
  - rewrite (bool_decide_true (k = k)), (bool_decide_true (k ∈ k :: ks)) by (done || set_solver).
    destruct (bool_decide (j = id /\ k ∈ sp_names sp)), (is_video_service_name k),
      (bool_decide (k ∈ ks)), (bool_decide (k ∈ names)), i, e; cbn; done.
  - rewrite (bool_decide_false (n = k)) by done. cbn.
    assert (bool_decide (n ∈ k :: ks) = bool_decide (n ∈ ks)) as ->
      by (apply bool_decide_ext; set_solver). done.
Qed.

Lemma capture1_refined id (names : list string) (i e : bool) (ks : list string) s sp :
  refined s sp ->
  refined
    (fold_left (fun s name =>
      if is_video_service_name name then
        if bool_decide (name ∈ names) then if i then subscribe name id true s else s
        else if e then subscribe name id false s else s
      else s) ks s)
    (fold_left (spec_capture1 id names i e) ks sp).
Proof.
  revert s sp. induction ks as [|k ks IH]; intros s sp Hr; [done|]. cbn. apply IH.
  unfold spec_capture1. repeat case_match; try done; by apply subscribe_refined.
Qed.

Lemma capture_refined id camera displays i e s sp :
  refined s sp ->
  refined (capture_displays id camera displays i e s)
    (spec_capture id (map (get_service_name camera) displays) i e sp).
Proof.
  intros Hr. unfold capture_displays. set (ks := map fst (map_to_list (services s))).
  assert (Hks : forall n, n ∈ ks <-> n ∈ sp_names sp).
  { intros n. rewrite (refined_names s sp n Hr). unfold ks. rewrite list_elem_of_fmap. split.
    - intros ([m sv] & -> & Hin). apply elem_of_map_to_list in Hin. cbn. eauto.
    - intros [sv Hin]. exists (n, sv). split; [done|]. by apply elem_of_map_to_list. }
  destruct (spec_captures id (map (get_service_name camera) displays) i e ks sp) as [Hn Hs].
  eapply refined_ext; [by apply capture1_refined|exact Hn|]. intros n j. rewrite Hs. cbn.
  assert (bool_decide (j = id /\ n ∈ sp_names sp) && is_video_service_name n && bool_decide (n ∈ ks)
          = bool_decide (j = id /\ n ∈ sp_names sp) && is_video_service_name n) as ->; [|done].
  repeat case_bool_decide; rewrite ?andb_true_r; try done; try by rewrite !andb_false_l.
  exfalso. naive_solver.
Qed.

Lemma displays_refined id s sp : refined s sp -> get_subbed_displays_count id s = spec_displays id sp.
Proof.
  intros Hr. unfold get_subbed_displays_count, spec_displays. rewrite <- size_dom. f_equal.
  pose proof (fun n => refined_names s sp n Hr) as Hn. destruct Hr as (_ & _ & Hs).
  apply set_eq. intros n. rewrite elem_of_dom, elem_of_filter, Hn, <- Hs. unfold subscribed. split.
  - intros [sv E]. apply map_lookup_filter_Some in E as [E Hp]. rewrite E. cbn in Hp. eauto.
  - intros [Hp [sv E]]. rewrite E in Hp. exists sv. by apply map_lookup_filter_Some.
Qed.

Lemma swap_refined name s sp : refined s sp -> refined (swap_service name s) sp.
Proof.
  intros (Hw & Hd & Hs). split; [|split].
  - intros n sv. cbn. rewrite lookup_alter. case_decide as E.
    + subst. destruct (services s !! n) as [sv0|] eqn:E0; cbn; [|done].
      intros [= <-]. by apply swap_wf, Hw.
    + apply Hw.
  - cbn. by rewrite dom_alter_L.
  - intros n j. rewrite <- Hs. unfold subscribed. cbn. rewrite lookup_alter. case_decide as E; [|done].
    subst. destruct (services s !! n); cbn; [apply swap_subed|done].
Qed.

Lemma step_refined op s sp : refined s sp -> refined (server_step op s) (spec_step op sp).
Proof.
  intros Hr. destruct op as [name id sub|id noperms|id|id|camera idx|id camera follow add sub set
                             |id camera multi old new|name]; cbn [server_step spec_step].
  - by apply subscribe_refined.
  - by apply add_connection_refined, add_refined.
  - by apply camera_refined.
  - by apply remove_refined.
  - by apply add_refined.
  - unfold conn_capture_displays.
    assert (Ha := adds_refined camera set _ _ (adds_refined camera add _ _ Hr)).
    match goal with |- refined (snd (_, if _ then subscribe _ _ _ ?s1 else _)) (if _ then spec_subscribe _ _ _ ?sp1 else _) =>
      assert (Hr1 : refined s1 sp1)
        by (destruct add as [|a add]; [destruct sub as [|b sub]|]; by apply capture_refined) end.
    cbn [snd]. destruct follow; [|exact Hr1]. rewrite (displays_refined _ _ _ Hr1), Nat.leb_antisym.
    by apply subscribe_refined.
  - unfold switch_display_to. apply subscribe_refined.
    destruct multi; [|apply subscribe_refined]; destruct (negb (new =? primary_display));
      try done; by apply add_refined.
  - by apply swap_refined.
Qed.

Definition server_run (ops : list ServerOp) (s : Server) : Server :=
  fold_left (fun s op => server_step op s) ops s.
Definition spec_run (ops : list ServerOp) (sp : Spec) : Spec :=
  fold_left (fun sp op => spec_step op sp) ops sp.

(** C20: The server keeps its word about subscriptions.  Over every sequence of
    operations of connections and services -- subscribing, joining, leaving, capturing
    and switching displays, handing out snapshots -- who is subscribed to what is as in
    the abstract specification, where a service has a set of subscribers and nothing
    else, and nobody is ever subscribed twice to a service. *)
Theorem server_refines_spec ops s sp :
  wf s -> abstracts s sp -> wf (server_run ops s) /\ abstracts (server_run ops s) (spec_run ops sp).
Proof.
  intros Hw Ha. assert (refined s sp) as Hr by done. clear Hw Ha. revert s sp Hr.
  induction ops as [|op ops IH]; intros s sp Hr; [done|]. by apply IH, step_refined.
Qed.

End Refinement.

(** *** Snapshots

    Who subscribes to a service with a snapshot gets no message before it. *)

(** The outputs of a service's thread: a message to the subscribers, or a snapshot. *)
Inductive ServiceAct (Msg : Type) : Type :=
| ActSubscribe (id : Z)
| ActUnsubscribe (id : Z)
| ActSend (m : Msg)
| ActSnapshot (msgs : list Msg) (fails : bool).
Arguments ActSubscribe {_} _.
Arguments ActUnsubscribe {_} _.
Arguments ActSend {_} _.
Arguments ActSnapshot {_} _ _.

Definition act {Msg} (a : ServiceAct Msg) (s : Service) : list (@Output Msg) * Service :=
  match a with
  | ActSubscribe id => ([], on_subscribe id s)
  | ActUnsubscribe id => ([], on_unsubscribe id s)
  | ActSend m => ([send_shared m s], s)
  | ActSnapshot msgs fails => let '(out, _, s) := snapshot msgs fails s in (out, s)
  end.

Fixpoint acts {Msg} (l : list (ServiceAct Msg)) (s : Service) : list (@Output Msg) * Service :=
  match l with
  | [] => ([], s)
  | a :: l => let '(o1, s) := act a s in let '(o2, s) := acts l s in (o1 ++ o2, s)
  end.

(** What [id] is sent. *)
Definition inbox {Msg} (id : Z) (out : list (@Output Msg)) : list Msg :=
  flat_map (fun '(m, to) => if bool_decide (id ∈ to) then [m] else []) out.
Definition about {Msg} (id : Z) (a : ServiceAct Msg) : bool :=
  match a with ActSubscribe j | ActUnsubscribe j => j =? id | _ => false end.

Fixpoint sends {Msg} (l : list (ServiceAct Msg)) : list Msg :=
  match l with [] => [] | ActSend m :: l => m :: sends l | _ :: l => sends l end.

(** Nothing, until the next snapshot. *)
Fixpoint from_snapshot {Msg} (l : list (ServiceAct Msg)) : list Msg :=
  match l with
  | [] => []
  | ActSnapshot msgs _ :: l => msgs ++ sends l
  | _ :: l => from_snapshot l
  end.

Lemma inbox_app {Msg} id (o1 o2 : list (@Output Msg)) : inbox id (o1 ++ o2) = inbox id o1 ++ inbox id o2.
Proof. apply flat_map_app. Qed.

Lemma inbox_cons {Msg} id (a : ServiceAct Msg) l s :
  inbox id (acts (a :: l) s).1 = inbox id (act a s).1 ++ inbox id (acts l (act a s).2).1.
Proof.
  cbn [acts]. destruct (act a s) as [o1 s1]. destruct (acts l s1) as [o2 s2] eqn:E.
  cbn [fst snd]. by rewrite E, inbox_app.
Qed.

Lemma inbox_to {Msg} id (msgs : list Msg) (to : gset Z) :
  inbox id (map (fun m => (m, to)) msgs) = if bool_decide (id ∈ to) then msgs else [].
Proof.
  unfold inbox. induction msgs as [|m msgs IH]; cbn in *; [by case_bool_decide|].
  rewrite IH. by case_bool_decide.
Qed.

(** A subscriber that is served, and one that waits. *)
Definition served (id : Z) (s : Service) : Prop := id ∈ subscribes s /\ id ∉ new_subscribes s.
Definition waiting (id : Z) (s : Service) : Prop := id ∉ subscribes s /\ id ∈ new_subscribes s.

Lemma others_keep {Msg} id (a : ServiceAct Msg) s :
  about id a = false ->
  match a with ActSnapshot _ _ => True | _ => (id ∈ subscribes (act a s).2 <-> id ∈ subscribes s)
     /\ (id ∈ new_subscribes (act a s).2 <-> id ∈ new_subscribes s) end.
Proof.
  destruct a as [j|j|m|msgs fails]; cbn; try done; intros E; try apply Z.eqb_neq in E.
  - unfold on_subscribe. case_bool_decide; [done|]. destruct (need_snapshot s); cbn; set_solver.
  - unfold on_unsubscribe. case_bool_decide; cbn; set_solver.
Qed.

Lemma served_inbox {Msg} id (l : list (ServiceAct Msg)) s :
  served id s -> Forall (fun a => about id a = false) l -> inbox id (acts l s).1 = sends l.
Proof.
  revert s. induction l as [|a l IH]; intros s Hs Hl; [done|].
  inversion_clear Hl as [|? ? Ha Hl']. rewrite inbox_cons, IH; [| |done].
  - destruct Hs as [Hin Hnew]. destruct a as [j|j|m|msgs fails]; try done; cbn [act sends].
    + cbn. by rewrite bool_decide_true.
    + unfold snapshot. case_bool_decide; [done|]. cbn [fst].
      by rewrite inbox_to, bool_decide_false.
  - pose proof (others_keep id a s Ha) as Hk. unfold served in *.
    destruct a as [j|j|m|msgs fails]; [naive_solver..|]. cbn. unfold snapshot.
    case_bool_decide; cbn; set_solver.
Qed.

Lemma waiting_inbox {Msg} id (l : list (ServiceAct Msg)) s :
  waiting id s -> Forall (fun a => about id a = false) l -> inbox id (acts l s).1 = from_snapshot l.
Proof.
  revert s. induction l as [|a l IH]; intros s [Hin Hnew] Hl; [done|].
  inversion_clear Hl as [|? ? Ha Hl']. pose proof (others_keep id a s Ha) as Hk.
  rewrite inbox_cons. destruct a as [j|j|m|msgs fails].
  1-3: rewrite IH; [|unfold waiting; naive_solver|done].
  1-2: done.
  - cbn. by rewrite bool_decide_false.
  - cbn [act]. unfold snapshot. rewrite bool_decide_false by set_solver. cbn [fst snd].
    by rewrite inbox_to, bool_decide_true, served_inbox by (done || split; cbn; set_solver).
Qed.

(** A snapshot comes first.  Who subscribes to a service with a snapshot (the
    cursor, the clipboard, a display) is sent none of the messages the service sends in
    the meantime, then the snapshot, then every message after it, in order; whatever
    other subscribers come and go. *)
Theorem snapshot_comes_first {Msg : Type} id (l : list (ServiceAct Msg)) s :
  need_snapshot s = true -> is_subed id s = false -> Forall (fun a => about id a = false) l ->
  inbox id (acts (ActSubscribe id :: l) s).1 = from_snapshot l.
Proof.
  intros Hn Hs Hl. apply orb_false_iff in Hs as [H1 H2].
  apply bool_decide_eq_false in H1, H2. rewrite inbox_cons. apply waiting_inbox; [|done].
  unfold waiting. cbn. unfold on_subscribe. rewrite bool_decide_false, Hn by done. cbn. set_solver.
Qed.

(** ** Concrete inputs *)

Definition ex_server : Server :=
  add_service (service_new "cursor" true) (add_service (service_new "audio" false) (mkServer ∅ ∅ 0)).

Definition ex_spec : Spec := mkSpec {["audio"%string; "cursor"%string]} (fun _ _ => false).

(** Connection 7 joins without audio, looks at display 1 in place of display 0, and
    leaves; connection 8 joins. *)
Definition ex_ops : list ServerOp :=
  [OpAddConnection 7 ["audio"%string]; OpSwitch 7 false false 0 1; OpSnapshot "cursor"%string;
   OpAddConnection 8 []; OpCapture 8 false true [1] [] []].

Lemma server_refines_spec_witness :
  wf (server_run 0 false ex_ops ex_server)
  /\ abstracts (server_run 0 false ex_ops ex_server) (spec_run 0 false ex_ops ex_spec)
  /\ map (fun n => subscribed (server_run 0 false ex_ops ex_server) n 7)
         ["audio"; "cursor"; "monitor0"; "monitor1"]%string = [false; true; false; true]
  /\ map (fun n => sp_subs (spec_run 0 false ex_ops ex_spec) n 8)
         ["audio"; "cursor"; "monitor0"; "monitor1"]%string = [true; true; true; true].
Proof.
  assert (wf ex_server /\ abstracts ex_server ex_spec) as [Hw Ha].
  { assert (Hw : wf ex_server).
    { apply map_Forall_insert_2; [|apply map_Forall_insert_2; [|apply map_Forall_empty]];
        unfold service_wf; cbn; split_and!; try done; set_solver. }
    split; [done|]. split; [vm_compute; reflexivity|]. intros n id. unfold subscribed. cbn.
    destruct (decide (n = "cursor"%string)) as [->|]; [rewrite lookup_insert_eq; reflexivity|].
    rewrite lookup_insert_ne by done.
    destruct (decide (n = "audio"%string)) as [->|]; [rewrite lookup_insert_eq; reflexivity|].
    by rewrite lookup_insert_ne. }
  destruct (server_refines_spec 0 false ex_ops ex_server ex_spec Hw Ha) as [H1 H2].
  split; [exact H1|split; [exact H2|split; vm_compute; reflexivity]].
Defined.

Lemma snapshot_comes_first_witness :
  inbox 7 (acts [ActSubscribe 7; ActSend 1%nat; ActSubscribe 8; ActSnapshot [10%nat] false; ActSend 2%nat]
             (service_new "cursor" true)).1 = [10%nat; 2%nat].
Proof.
  apply (snapshot_comes_first 7 [ActSend 1%nat; ActSubscribe 8; ActSnapshot [10%nat] false; ActSend 2%nat]
           (service_new "cursor" true)); [reflexivity|reflexivity|repeat constructor].
Defined.
