(* ===== verification/CodecChoice.v ===== *)
(** * Choice of the video codec (libs/scrap/src/common/codec.rs)

    Every peer says which codecs it decodes and which one it prefers.  The encoder of
    the controlled side serves all of them at once: [update] keeps what the peers said
    and chooses one codec, [setup_encoder] (src/server/video_service.rs) creates the
    encoder.  The build is the Linux one: hardware encoders, no textures. *)

From stdpp Require Import sorting.
From S2P Require Import Prelude.

Inductive CodecFormat : Type := VP8 | VP9 | AV1 | H264 | H265 | Unknown.
#[export] Instance CodecFormat_eq_dec : EqDecision CodecFormat.
Proof. solve_decision. Defined.

(** The [prefer] field, an [EnumOrUnknown]. *)
Inductive PreferCodec : Type :=
| PreferAuto | PreferVP9 | PreferH264 | PreferH265 | PreferVP8 | PreferAV1 | PreferUnknown (n : Z).
#[export] Instance PreferCodec_eq_dec : EqDecision PreferCodec.
Proof. solve_decision. Defined.

Record SupportedDecoding : Type := mkDecoding {
  ability_vp8 : Z;
  ability_vp9 : Z;
  ability_av1 : Z;
  ability_h264 : Z;
  ability_h265 : Z;
  prefer : PreferCodec;
  i444_vp9 : bool;
  i444_av1 : bool;
  prefer_i444 : bool                         (* [prefer_chroma] is I444 *)
}.

Record SupportedEncoding : Type := mkEncoding { vp8 : bool; av1 : bool; h264 : bool; h265 : bool }.

Inductive EncodingUpdate : Type :=
| Update (id : Z) (d : SupportedDecoding)
| Remove (id : Z)
| NewOnlyVP9 (id : Z)
| Check_.

Record Codecs : Type := mkCodecs {
  peer_decodings : gmap Z SupportedDecoding;
  encode_codec_format : CodecFormat;
  usable_encoding : option SupportedEncoding
}.

Definition codecs_init : Codecs := mkCodecs ∅ VP9 None.

(** What the machine has.  [order] is the order in which a [HashMap] is iterated. *)
Class Machine : Type := {
  disable_av1 : bool;
  av1_test : bool;                           (* the option is not "N" *)
  small_memory : bool;                       (* at most 4 GB *)
  enable_hwcodec : bool;
  best_h264 : option string;                 (* the best hardware encoders, by name *)
  best_h265 : option string;
  soft_decoders : bool * bool;               (* of the hwcodec library, for H264 and H265 *)
  best_decoders : bool * bool;
  order : gmap Z SupportedDecoding -> list (Z * SupportedDecoding)
}.

Definition only_vp9 : SupportedDecoding := mkDecoding 0 1 0 0 0 PreferAuto false false false.

(** The most frequent element, the first one of several; [counts] keeps the order in
    which the elements were first met. *)
Fixpoint count_one (p : PreferCodec) (counts : list (PreferCodec * nat)) : list (PreferCodec * nat) :=
  match counts with
  | [] => [(p, 1%nat)]
  | (q, n) :: counts =>
      if bool_decide (q = p) then (q, S n) :: counts else (q, n) :: count_one p counts
  end.
Definition count_prefs (l : list PreferCodec) : list (PreferCodec * nat) :=
  fold_left (fun counts p => count_one p counts) l [].

Definition most_frequent (l : list PreferCodec) : PreferCodec :=
  let counts := count_prefs l in
  let max_count := max_list (map snd counts) in
  match List.find (fun '(_, n) => (n =? max_count)%nat) counts with
  | Some (p, _) => p
  | None => PreferAuto
  end.

Definition all_peers (able : SupportedDecoding -> Z) (m : gmap Z SupportedDecoding) : bool :=
  negb (bool_decide (m = ∅)) && bool_decide (map_Forall (fun _ d => 0 < able d) m).

Section Encoder.
Context `{Machine}.

(** [HwRamEncoder::try_get]. *)
Definition try_get (f : CodecFormat) : option string :=
  match f with H264 => best_h264 | H265 => best_h265 | _ => None end.

Definition hw_encoder (all_support : bool) (f : CodecFormat) : option string :=
  if enable_hwcodec && all_support then try_get f else None.

Definition insert_decoding (u : EncodingUpdate) (m : gmap Z SupportedDecoding)
  : gmap Z SupportedDecoding :=
  match u with
  | Update id d => <[id := d]> m
  | Remove id => delete id m
  | NewOnlyVP9 id => <[id := only_vp9]> m
  | Check_ => m
  end.

(** Whether the peers' codec is one that all of them, and this machine, can use. *)
Definition usable (m : gmap Z SupportedDecoding) : SupportedEncoding :=
  mkEncoding
    (all_peers ability_vp8 m)
    (all_peers ability_av1 m && negb disable_av1)
    (all_peers ability_h264 m
     && bool_decide (is_Some (hw_encoder (all_peers ability_h264 m) H264)))
    (all_peers ability_h265 m
     && bool_decide (is_Some (hw_encoder (all_peers ability_h265 m) H265))).

Definition counted (e : SupportedEncoding) (p : PreferCodec) : bool :=
  match p with
  | PreferVP9 => true
  | PreferVP8 => vp8 e
  | PreferAV1 => av1 e
  | PreferH264 => h264 e
  | PreferH265 => h265 e
  | _ => false
  end.

Definition preferences (m : gmap Z SupportedDecoding) : list PreferCodec :=
  map (fun '(_, d) => prefer d)
    (List.filter (fun '(_, d) => counted (usable m) (prefer d)) (order m)).

Definition auto_codec (e : SupportedEncoding) : CodecFormat :=
  let auto := if av1 e && av1_test then AV1 else VP9 in
  let auto := if h264 e then H264 else auto in
  let auto := if h265 e then H265 else auto in
  match auto with
  | VP9 | AV1 => if vp8 e && small_memory then VP8 else auto
  | _ => auto
  end.

Definition choose (m : gmap Z SupportedDecoding) : CodecFormat :=
  let auto := auto_codec (usable m) in
  match most_frequent (preferences m) with
  | PreferVP8 => VP8
  | PreferVP9 => VP9
  | PreferAV1 => AV1
  | PreferH264 =>
      if bool_decide (is_Some (hw_encoder (all_peers ability_h264 m) H264)) then H264 else auto
  | PreferH265 =>
      if bool_decide (is_Some (hw_encoder (all_peers ability_h265 m) H265)) then H265 else auto
  | PreferAuto | PreferUnknown _ => auto
  end.

Definition update (u : EncodingUpdate) (s : Codecs) : Codecs :=
  let m := insert_decoding u (peer_decodings s) in
  mkCodecs m (choose m) (Some (usable m)).

Definition negotiated_codec (s : Codecs) : CodecFormat := encode_codec_format s.

Definition supported_encoding : SupportedEncoding :=
  mkEncoding true (negb disable_av1)
    (enable_hwcodec && bool_decide (is_Some (try_get H264)))
    (enable_hwcodec && bool_decide (is_Some (try_get H265))).

(** *** The encoder of a display *)

Inductive EncoderCfg : Type :=
| CfgVPX (vp8 : bool)
| CfgAOM
| CfgHWRAM (name : string).

Definition get_encoder_config (s : Codecs) : EncoderCfg :=
  match negotiated_codec s with
  | VP8 => CfgVPX true
  | AV1 => CfgAOM
  | H264 | H265 =>
      match try_get (negotiated_codec s) with
      | Some name => CfgHWRAM name
      | None => CfgVPX false
      end
  | _ => CfgVPX false
  end.

(** [lower] is [str::to_lowercase]. *)
Definition cfg_format (lower : string -> string) (cfg : EncoderCfg) : CodecFormat :=
  match cfg with
  | CfgVPX true => VP8
  | CfgVPX false => VP9
  | CfgAOM => AV1
  | CfgHWRAM name =>
      let name := lower name in
      if str_contains "vp8" name then VP8
      else if str_contains "vp9" name then VP9
      else if str_contains "av1" name then AV1
      else if str_contains "h264" name then H264
      else H265
  end.

Definition set_fallback (lower : string -> string) (cfg : EncoderCfg) (s : Codecs) : Codecs :=
  mkCodecs (peer_decodings s) (cfg_format lower cfg) (usable_encoding s).

Definition use_i444 (cfg : EncoderCfg) (s : Codecs) : bool :=
  let m := peer_decodings s in
  let useable :=
    match cfg with
    | CfgVPX true | CfgHWRAM _ => false
    | CfgVPX false => bool_decide (map_Forall (fun _ d => i444_vp9 d = true) m)
    | CfgAOM => bool_decide (map_Forall (fun _ d => i444_av1 d = true) m)
    end in
  bool_decide (map_Forall (fun _ d => prefer_i444 d = true) m) && useable
  && negb (bool_decide (m = ∅)).

(** [Encoder::new]; [created]: whether the library makes the encoder.  A hardware encoder
    that fails is given up for VP9. *)
Definition encoder_new (created : bool) (cfg : EncoderCfg) (s : Codecs) : bool * Codecs :=
  match cfg with
  | CfgHWRAM _ => (created, if created then s else mkCodecs (peer_decodings s) VP9 (usable_encoding s))
  | _ => (created, s)
  end.

(** The encoder, the codec, whether it encodes in 4:4:4; or a failure. *)
Definition setup_encoder (lower : string -> string) (created : bool) (s : Codecs)
  : option (EncoderCfg * CodecFormat * bool) * Codecs :=
  let cfg := get_encoder_config s in
  let s := set_fallback lower cfg s in
  let codec_format := negotiated_codec s in
  let i444 := use_i444 cfg s in
  let '(ok, s) := encoder_new created cfg s in
  (if ok then Some (cfg, codec_format, i444) else None, s).

(** *** What a peer decodes *)

(** [Decoder::preference]; [options] are the options kept for the peer. *)
Definition preference (id : string) (options : gmap string string) : PreferCodec * bool :=
  if bool_decide (id = "") then (PreferAuto, false)
  else
    let codec := default "" (options !! "codec-preference") in
    (if String.eqb codec "vp8" then PreferVP8
     else if String.eqb codec "vp9" then PreferVP9
     else if String.eqb codec "av1" then PreferAV1
     else if String.eqb codec "h264" then PreferH264
     else if String.eqb codec "h265" then PreferH265
     else PreferAuto,
     bool_decide (options !! "i444" = Some "Y")).

(** [HwRamDecoder::try_get]. *)
Definition decoder_try_get (f : CodecFormat) : bool :=
  match f with
  | H264 => fst soft_decoders || enable_hwcodec && fst best_decoders
  | H265 => snd soft_decoders || enable_hwcodec && snd best_decoders
  | _ => false
  end.

Definition mark (d : SupportedDecoding) (unsupported : CodecFormat) : SupportedDecoding :=
  let ability (f : CodecFormat) (n : Z) := if bool_decide (f = unsupported) then 0 else n in
  mkDecoding (ability VP8 (ability_vp8 d)) (ability VP9 (ability_vp9 d)) (ability AV1 (ability_av1 d))
    (ability H264 (ability_h264 d)) (ability H265 (ability_h265 d))
    (prefer d) (i444_vp9 d) (i444_av1 d) (prefer_i444 d).

Definition supported_decodings (id : string) (options : gmap string string)
    (mark_unsupported : list CodecFormat) : SupportedDecoding :=
  let '(prefer, chroma) := preference id options in
  fold_left mark mark_unsupported
    (mkDecoding 1 1 (if disable_av1 then 0 else 1) (Z.b2z (decoder_try_get H264))
       (Z.b2z (decoder_try_get H265)) prefer true true chroma).
End Encoder.

(** ** Every peer can decode *)

Definition ability (f : CodecFormat) (d : SupportedDecoding) : Z :=
  match f with
  | VP8 => ability_vp8 d
  | VP9 => ability_vp9 d
  | AV1 => ability_av1 d
  | H264 => ability_h264 d
  | H265 => ability_h265 d
  | Unknown => 0
  end.

Definition decodable (f : CodecFormat) (m : gmap Z SupportedDecoding) : Prop :=
  f = VP9 \/ m <> ∅ /\ map_Forall (fun _ d => 0 < ability f d) m.

Inductive CodecOp : Type :=
| OpUpdate (u : EncodingUpdate)
| OpSetup (created : bool).

Section Safety.
Variable lower : string -> string.

(** Hardware encoders are called after what they encode. *)
Definition named `{Machine} : Prop :=
  forall f name, try_get f = Some name -> cfg_format lower (CfgHWRAM name) = f.

Definition codec_step `{Machine} (op : CodecOp) (s : Codecs) : Codecs :=
  match op with
  | OpUpdate u => update u s
  | OpSetup created => snd (setup_encoder lower created s)
  end.

(** The machine is another one at every step: memory runs out, encoders are given up. *)
Definition codec_run (ops : list (Machine * CodecOp)) (s : Codecs) : Codecs :=
  fold_left (fun s '(mach, op) => @codec_step mach op s) ops s.

Lemma all_peers_true able m :
  all_peers able m = true -> m <> ∅ /\ map_Forall (fun _ d => 0 < able d) m.
Proof.
  intros [Hm%negb_true_iff%bool_decide_eq_false Ha%bool_decide_eq_true]%andb_true_iff. done.
Qed.

Lemma all_decodable f m : all_peers (ability f) m = true -> decodable f m.
Proof. intros Hm. right. by apply all_peers_true. Qed.

Lemma auto_decodable `{Machine} m : decodable (auto_codec (usable m)) m.
Proof.
  unfold auto_codec, usable. cbn [vp8 av1 h264 h265].
  repeat case_match; try (by left); to_prop; try done; by apply all_decodable.
Qed.

Lemma find_counted (p : PreferCodec) (max n : nat) counts :
  List.find (fun '(_, n) => (n =? max)%nat) counts = Some (p, n) -> (p, n) ∈ counts /\ n = max.
Proof.
  intros E. apply List.find_some in E as [Hin Hn]. apply Nat.eqb_eq in Hn.
  by apply list_elem_of_In in Hin.
Qed.

Lemma count_one_in p q n counts : (q, n) ∈ count_one p counts -> q = p \/ exists k, (q, k) ∈ counts.
Proof.
  induction counts as [|[r k] counts IH]; cbn.
  - intros [[= -> ->]|Hin]%elem_of_cons; [by left|by apply elem_of_nil in Hin].
  - case_bool_decide as E; intros [[= -> ->]|Hin]%elem_of_cons.
    + by left.
    + right. exists n. by right.
    + right. exists k. by left.
    + destruct (IH Hin) as [->|[j Hj]]; [by left|]. right. exists j. by right.
Qed.

Lemma count_prefs_in l q n : (q, n) ∈ count_prefs l -> q ∈ l.
Proof.
  unfold count_prefs.
  assert (Hg : forall counts, (q, n) ∈ fold_left (fun c p => count_one p c) l counts ->
            q ∈ l \/ exists k, (q, k) ∈ counts).
  { revert n. induction l as [|p l IH]; intros n counts; cbn; [right; by exists n|].
    intros [Hl|[k Hk]]%IH; [left; by right|].
    apply count_one_in in Hk as [->|Hk]; [left; by left|by right]. }
  intros [Hl|[k Hk]]%Hg; [done|]. by apply elem_of_nil in Hk.
Qed.

Lemma most_frequent_in l : most_frequent l = PreferAuto \/ most_frequent l ∈ l.
Proof.
  unfold most_frequent. destruct (List.find _ _) as [[p n]|] eqn:E; [|by left].
  apply find_counted in E as [Hin _]. right. by apply count_prefs_in in Hin.
Qed.

(** Only what can be used is counted. *)
Lemma winner_counted `{Machine} m :
  most_frequent (preferences m) = PreferAuto
  \/ counted (usable m) (most_frequent (preferences m)) = true.
Proof.
  destruct (most_frequent_in (preferences m)) as [->|Hin]; [by left|]. right.
  unfold preferences in Hin at 2. apply list_elem_of_fmap in Hin as ([id d] & -> & Hin).
  apply list_elem_of_In, List.filter_In in Hin as [_ Hc]. exact Hc.
Qed.

Lemma choose_decodable `{Machine} m : decodable (choose m) m.
Proof.
  pose proof (winner_counted m) as Hw. pose proof (auto_decodable m) as Ha. unfold choose.
  destruct (most_frequent (preferences m)) eqn:E; try exact Ha; try (by left);
    destruct Hw as [|Hw]; try done; cbn in Hw; unfold usable in Hw; cbn in Hw; to_prop;
    repeat case_match; try exact Ha; by apply all_decodable.
Qed.

Definition codecs_ok (s : Codecs) : Prop := decodable (encode_codec_format s) (peer_decodings s).

Lemma setup_decodable `{Machine} created s :
  named -> codecs_ok s ->
  let '(r, s') := setup_encoder lower created s in
  codecs_ok s' /\ peer_decodings s' = peer_decodings s
  /\ match r with
     | None => True
     | Some (cfg, f, i444) =>
         cfg_format lower cfg = f /\ encode_codec_format s' = f /\ decodable f (peer_decodings s)
         /\ (i444 = true ->
             map_Forall (fun _ d => prefer_i444 d = true
               /\ match f with VP9 => i444_vp9 d | AV1 => i444_av1 d | _ => false end = true)
               (peer_decodings s))
     end.
Proof.
  intros Hn Hs. unfold setup_encoder, codecs_ok in *. set (cfg := get_encoder_config s).
  assert (Hf : decodable (cfg_format lower cfg) (peer_decodings s)).
  { unfold cfg, get_encoder_config, negotiated_codec.
    destruct (encode_codec_format s) eqn:E; try (by left); try exact Hs.
    - destruct (try_get H264) as [name|] eqn:E2; [|by left]. by rewrite (Hn _ _ E2).
    - destruct (try_get H265) as [name|] eqn:E2; [|by left]. by rewrite (Hn _ _ E2). }
  assert (Hi : use_i444 cfg (set_fallback lower cfg s) = true ->
    map_Forall (fun _ d => prefer_i444 d = true
      /\ match cfg_format lower cfg with VP9 => i444_vp9 d | AV1 => i444_av1 d | _ => false end = true)
      (peer_decodings s)).
  { unfold use_i444. cbn [peer_decodings set_fallback].
    intros [[Hp%bool_decide_eq_true Hu]%andb_true_iff _]%andb_true_iff id d Hd.
    split; [exact (Hp id d Hd)|].
    destruct cfg as [[]| |]; cbn; try done; apply bool_decide_eq_true in Hu; exact (Hu id d Hd). }
  destruct cfg as [v| |name] eqn:Ec; cbn -[cfg_format]; destruct created; cbn -[cfg_format];
    split_and!; try done; by left.
Qed.

(** Everybody can watch.  After any sequence of peers coming, changing their mind
    and leaving, and of encoders being created, failing and being given up, the codec
    in use is VP9 or one that every connected peer has said it decodes; and 4:4:4
    colours are only sent when every peer wants and decodes them. *)
Theorem codec_is_decodable ops mach created :
  Forall (fun '(mach, _) => @named mach) ops -> @named mach ->
  let s := codec_run ops codecs_init in
  decodable (negotiated_codec s) (peer_decodings s)
  /\ forall cfg f i444 s', @setup_encoder mach lower created s = (Some (cfg, f, i444), s') ->
     cfg_format lower cfg = f /\ decodable f (peer_decodings s')
     /\ (i444 = true ->
         map_Forall (fun _ d => prefer_i444 d = true
           /\ match f with VP9 => i444_vp9 d | AV1 => i444_av1 d | _ => false end = true)
           (peer_decodings s')).
Proof.
  intros Hops Hn s. assert (Hs : codecs_ok s).
  { assert (Hi : codecs_ok codecs_init) by (by left).
    subst s. revert Hops Hi. generalize codecs_init.
    induction ops as [|[m op] ops IH]; intros s Hf Hs; [done|].
    apply Forall_cons in Hf as [Hm Hf]. apply IH; [done|]. destruct op as [u|c]; cbn.
    - apply choose_decodable.
    - pose proof (@setup_decodable m c s Hm Hs) as Hd. destruct (setup_encoder _ _ _). by destruct Hd. }
  split; [exact Hs|]. intros cfg f i444 s' E.
  pose proof (@setup_decodable mach created s Hn Hs) as Hd. rewrite E in Hd.
  destruct Hd as (_ & -> & Hc & _ & Hf & Hi). done.
Qed.
End Safety.

(** ** The vote *)

Definition votes (p : PreferCodec) (l : list PreferCodec) : nat := length (List.filter (fun q => bool_decide (q = p)) l).

Definition counts_ok (l : list PreferCodec) (counts : list (PreferCodec * nat)) : Prop :=
  NoDup (map fst counts)
  /\ forall p n, (p, n) ∈ counts <-> n = votes p l /\ (0 < n)%nat.

Lemma count_one_ok p q n counts :
  NoDup (map fst counts) ->
  (q, n) ∈ count_one p counts <->
    (if bool_decide (q = p)
     then (exists k, (p, k) ∈ counts /\ n = S k) \/ (p ∉ map fst counts /\ n = 1%nat)
     else (q, n) ∈ counts).
Proof.
  induction counts as [|[r k] counts IH]; cbn [count_one map fst]; intros Hnd.
  - case_bool_decide as E; split.
    + intros [[= _ ->]|Hin]%elem_of_cons; [|by apply elem_of_nil in Hin]. right. split; [|done].
      apply not_elem_of_nil.
    + intros [(j & Hin & _)|[_ ->]]; [by apply elem_of_nil in Hin|]. subst. by left.
    + intros [[= -> ->]|Hin]%elem_of_cons; done.
    + by intros Hin%elem_of_nil.
  - apply NoDup_cons in Hnd as [Hr Hnd]. specialize (IH Hnd).
    assert (Hfst : forall j, (r, j) ∈ counts -> False).
    { intros j Hj. apply Hr, list_elem_of_fmap. by exists (r, j). }
    destruct (decide (r = p)) as [E|E];
      [rewrite (bool_decide_true (r = p)) by done|rewrite (bool_decide_false (r = p)) by done].
    + subst r. rewrite elem_of_cons. case_bool_decide as E2.
      * subst q. split.
        -- intros [[= ->]|Hin]; [left; exists k; split; [by left|done]|by destruct (Hfst n)].
        -- intros [(j & Hin & ->)|[Hin _]]; [|by destruct Hin; left].
           apply elem_of_cons in Hin as [[= ->]|Hin]; [by left|by destruct (Hfst j)].
      * rewrite elem_of_cons. split; intros [[= -> ->]|Hin]; try done; by right.
    + rewrite elem_of_cons, IH. case_bool_decide as E2.
      * subst q. split.
        -- intros [[= <- _]|[(j & Hin & ->)|[Hin ->]]]; [done|left; exists j; split; [by right|done]|].
           right. split; [|done]. apply not_elem_of_cons. by split.
        -- intros [(j & [[= <- _]|Hin]%elem_of_cons & ->)|[[_ Hin]%not_elem_of_cons ->]]; [done|..]; right;
             [left; by exists j|by right].
      * by rewrite elem_of_cons.
Qed.

Lemma count_one_fst p counts x : x ∈ map fst (count_one p counts) <-> x = p \/ x ∈ map fst counts.
Proof.
  induction counts as [|[r k] counts IH]; cbn; [rewrite list_elem_of_singleton, elem_of_nil; naive_solver|].
  case_bool_decide; cbn; rewrite !elem_of_cons, ?IH; naive_solver.
Qed.

Lemma count_one_nodup p counts : NoDup (map fst counts) -> NoDup (map fst (count_one p counts)).
Proof.
  induction counts as [|[r k] counts IH]; cbn; intros Hnd.
  - apply NoDup_singleton.
  - apply NoDup_cons in Hnd as [Hr Hnd]. case_bool_decide; cbn; apply NoDup_cons; split; auto.
    rewrite count_one_fst. naive_solver.
Qed.

Lemma votes_app p l k : votes p (l ++ k) = (votes p l + votes p k)%nat.
Proof. unfold votes. by rewrite List.filter_app, length_app. Qed.

Lemma count_prefs_ok l : counts_ok l (count_prefs l).
Proof.
  unfold count_prefs. induction l as [|p l [Hnd IH]] using rev_ind.
  { split; [apply NoDup_nil_2|]. intros p n. rewrite elem_of_nil. unfold votes. cbn. lia. }
  rewrite fold_left_app. cbn [fold_left]. set (counts := fold_left _ l []) in *.
  split; [by apply count_one_nodup|]. intros q n. rewrite (count_one_ok p q n counts Hnd), votes_app.
  assert (Hin : p ∈ map fst counts <-> (0 < votes p l)%nat).
  { rewrite list_elem_of_fmap. split.
    - intros ([q' k] & -> & Hk). apply IH in Hk. cbn. lia.
    - intros Hv. exists (p, votes p l). split; [done|]. by apply IH. }
  unfold votes at 2. cbn [List.filter]. case_bool_decide as E.
  - subst q. rewrite bool_decide_true by done. cbn [length]. split.
    + intros [(k & Hk & ->)|[Hk ->]]; [apply IH in Hk; lia|]. rewrite Hin in Hk. lia.
    + intros [-> _]. destruct (decide (0 < votes p l)%nat) as [Hv|Hv].
      * left. exists (votes p l). split; [by apply IH|lia].
      * right. split; [by rewrite Hin|lia].
  - rewrite bool_decide_false by naive_solver. cbn [length]. rewrite IH. by rewrite Nat.add_0_r.
Qed.

Lemma most_frequent_max l q : (votes q l <= votes (most_frequent l) l)%nat \/ l = [].
Proof.
  destruct l as [|x l0]; [by right|]. left. set (l := x :: l0).
  destruct (count_prefs_ok l) as [_ Hc]. unfold most_frequent. set (counts := count_prefs l) in *.
  set (mx := max_list (map snd counts)).
  assert (Hle : forall p n, (p, n) ∈ counts -> (n <= mx)%nat).
  { intros p n Hin. apply max_list_elem_of_le, list_elem_of_fmap. by exists (p, n). }
  assert (Hq : (votes q l <= mx)%nat).
  { destruct (decide (0 < votes q l)%nat); [|lia]. apply (Hle q). by apply Hc. }
  destruct (List.find _ counts) as [[p n]|] eqn:E.
  - apply find_counted in E as [Hin ->]. apply Hc in Hin as [Hin _]. by rewrite <- Hin.
  - exfalso. assert (Hx : (x, votes x l) ∈ counts).
    { apply Hc. split; [done|]. unfold votes, l. cbn. rewrite bool_decide_true by done. cbn. lia. }
    assert (Hm : mx ∈ map snd counts).
    { unfold mx. apply max_list_elem_of. intros E0. apply (f_equal length) in E0.
      rewrite length_map in E0. destruct counts; [by apply elem_of_nil in Hx|done]. }
    apply list_elem_of_fmap in Hm as ([p n] & En & Hin). cbn in En.
    apply list_elem_of_In in Hin.
    pose proof (List.find_none _ _ E (p, n) Hin) as Hn. cbn in Hn.
    apply Nat.eqb_neq in Hn. congruence.
Qed.

(** How many peers prefer a codec. *)
Definition preferred_by (p : PreferCodec) (m : gmap Z SupportedDecoding) : nat :=
  votes p (map (fun '(_, d) => prefer d) (map_to_list m)).

Definition format_of (p : PreferCodec) : CodecFormat :=
  match p with
  | PreferVP9 => VP9
  | PreferVP8 => VP8
  | PreferAV1 => AV1
  | PreferH264 => H264
  | PreferH265 => H265
  | _ => Unknown
  end.

Lemma votes_perm p l k : l ≡ₚ k -> votes p l = votes p k.
Proof. unfold votes. induction 1; cbn; repeat case_match; cbn; congruence. Qed.

Lemma votes_preferences `{Machine} m p :
  order m ≡ₚ map_to_list m ->
  votes p (preferences m) = if counted (usable m) p then preferred_by p m else O.
Proof.
  intros Ho. unfold preferences, preferred_by.
  rewrite <- (votes_perm p _ _ (Permutation_map (fun '(_, d) => prefer d) Ho)).
  clear Ho. unfold votes. generalize (usable m) as u. intros u.
  induction (order m) as [|[id d] l IH]; cbn; [by case_match|].
  destruct (decide (prefer d = p)) as [E|Hne].
  - rewrite (bool_decide_true (prefer d = p)) by done. rewrite E in *.
    revert IH. destruct (counted u p); cbn; intros IH; [|exact IH].
    rewrite E, bool_decide_true by done. cbn. by rewrite IH.
  - rewrite (bool_decide_false (prefer d = p)) by done.
    destruct (counted u (prefer d)); cbn; [|exact IH]. by rewrite bool_decide_false by done.
Qed.

(** The most wanted codec wins.  When more peers prefer one usable codec than any
    other usable one, it is chosen, whatever the order in which the peers are kept;
    preferences that cannot be met are not counted. *)
Theorem most_wanted_codec_wins `{Machine} m p :
  order m ≡ₚ map_to_list m -> counted (usable m) p = true -> (0 < preferred_by p m)%nat ->
  (forall q, q <> p -> counted (usable m) q = true -> (preferred_by q m < preferred_by p m)%nat) ->
  choose m = format_of p.
Proof.
  intros Ho Hp Hpos Hmax. assert (Hv := fun q => votes_preferences m q Ho).
  assert (Hmf : most_frequent (preferences m) = p).
  { destruct (most_frequent_max (preferences m) p) as [Hle|Hnil].
    - destruct (decide (most_frequent (preferences m) = p)) as [|Hne]; [done|].
      rewrite !Hv, Hp in Hle. destruct (counted _ (most_frequent _)) eqn:Ec; [|lia].
      specialize (Hmax _ Hne Ec). lia.
    - specialize (Hv p). rewrite Hp, Hnil in Hv. unfold votes in Hv. cbn in Hv. lia. }
  unfold choose. rewrite Hmf. destruct p; try done; cbn in Hp; unfold usable in Hp; cbn in Hp;
    apply andb_true_iff in Hp as [_ ->]; done.
Qed.

(** ** What the scheme does not give *)

(** A peer that does not decode VP9 is sent VP9. *)
Lemma vp9_is_not_asked `{Machine} :
  let d := supported_decodings "peer" ∅ [VP9; AV1; VP8; H264; H265] in
  ability_vp9 d = 0 /\ negotiated_codec (update (Update 1 d) codecs_init) = VP9.
Proof.
  cbv zeta. set (d := supported_decodings _ _ _).
  assert (Hd : d = mkDecoding 0 0 0 0 0 PreferAuto true true false) by (vm_compute; by destruct disable_av1).
  rewrite Hd. split; [done|]. unfold update, negotiated_codec. cbn [encode_codec_format insert_decoding].
  change (peer_decodings codecs_init) with (∅ : gmap Z SupportedDecoding).
  pose proof (winner_counted (<[1 := mkDecoding 0 0 0 0 0 PreferAuto true true false]> ∅)) as Hw.
  unfold choose. destruct Hw as [->|Hw]; [reflexivity|].
  destruct (most_frequent _); try reflexivity; by vm_compute in Hw.
Qed.

(** ** Concrete inputs *)

Definition ex_machine : Machine := {|
  disable_av1 := false;
  av1_test := true;
  small_memory := false;
  enable_hwcodec := true;
  best_h264 := Some "h264_vaapi"%string;
  best_h265 := Some "hevc_vaapi"%string;
  soft_decoders := (true, true);
  best_decoders := (false, false);
  order := map_to_list
|}.

Definition ex_wants (p : PreferCodec) : SupportedDecoding := mkDecoding 1 1 1 1 0 p true true true.

Lemma ex_codec_named : @named (fun s => s) ex_machine.
Proof. intros [] name [= <-]; reflexivity. Qed.

(** Two peers, then one more that only knows VP9. *)
Lemma codec_is_decodable_witness :
  let ops := [(ex_machine, OpUpdate (Update 1 (ex_wants PreferAV1)));
              (ex_machine, OpUpdate (Update 2 (ex_wants PreferH264)));
              (ex_machine, OpSetup true); (ex_machine, OpUpdate (NewOnlyVP9 3))] in
  (let s := codec_run (fun s => s) (take 1 ops) codecs_init in
   negotiated_codec s = AV1 /\ decodable (negotiated_codec s) (peer_decodings s))
  /\ (let s := codec_run (fun s => s) ops codecs_init in
      negotiated_codec s = VP9 /\ decodable (negotiated_codec s) (peer_decodings s)).
Proof.
  split; (split; [vm_compute; reflexivity|]);
    apply (codec_is_decodable (fun s => s) _ ex_machine true);
    try exact ex_codec_named; repeat (apply List.Forall_cons || apply List.Forall_nil); exact ex_codec_named.
Defined.

Lemma most_wanted_codec_wins_witness :
  @choose ex_machine {[1 := ex_wants PreferVP8; 2 := ex_wants PreferH264; 3 := ex_wants PreferH264;
                       4 := ex_wants PreferH265]} = H264.
Proof.
  apply (@most_wanted_codec_wins ex_machine _ PreferH264); [reflexivity|vm_compute; reflexivity|vm_compute; lia|].
  intros [] Hq; try (intros E; vm_compute in E; discriminate E); vm_compute; try lia; by destruct Hq.
Defined.
