(* ===== verification/LoginGuard.v ===== *)
(** * Guards against guessing passwords

    src/server/login_failure_check.rs and the failure counters of
    src/server/connection.rs.  Wrong passwords are counted per address and, for
    IPv6, per network prefix; wrong operating-system credentials are counted for
    the whole machine and answered with growing delays.

    A counter is kept under the text of an address or of a prefix ("2001:db8::/64");
    here the key is the address or the masked prefix itself, which the text renders
    one to one. *)

From S2P Require Import Prelude.
From Stdlib Require Import Sorted.

(** ** Addresses and counters *)

(** The peer's address as the connection has it: its text, and the value when the
    text (without its zone) parses as IPv6. *)
Record PeerIp : Type := mkPeerIp { ip_text : string; ipv6_value : option Z }.

Inductive Key : Type :=
| KAddr (text : string)
| KPrefix (bits value : Z).

#[export] Instance key_eq_dec : EqDecision Key.
Proof. solve_decision. Defined.

#[export] Instance key_countable : Countable Key.
Proof.
  refine (inj_countable'
    (fun k => match k with KAddr t => inl t | KPrefix b v => inr (b, v) end)
    (fun s => match s with inl t => KAddr t | inr (b, v) => KPrefix b v end) _).
  by intros [].
Defined.

(** [(!0u128) << (128 - prefix)]. *)
Definition mask_u128 (addr prefix : Z) : Z :=
  let mask := if (prefix =? 0) || (128 <? prefix) then 0
              else as_u128 (Z.shiftl (2 ^ 128 - 1) (128 - prefix)) in
  Z.land addr mask.

Definition get_ipv6_prefixes (ip : PeerIp) : option (Key * Key * Key) :=
  match ipv6_value ip with
  | None => None
  | Some v => Some (KPrefix 64 (mask_u128 v 64), KPrefix 56 (mask_u128 v 56),
                    KPrefix 48 (mask_u128 v 48))
  end.

(** Minute of the last failure, failures in that minute, failures in all. *)
Abbreviation Entry := (Z * Z * Z)%type.

Abbreviation Failures := (gmap Key Entry).

Definition bump_failure_entry (cur : Entry) (time : Z) : Entry :=
  let '(t, c, n) := cur in
  if t =? time then (t, c + 1, n + 1) else (time, 1, n + 1).

Definition get (m : Failures) (k : Key) : Entry :=
  match m !! k with Some e => e | None => (0, 0, 0) end.

Definition bump (time : Z) (m : Failures) (k : Key) : Failures :=
  <[k := bump_failure_entry (get m k) time]> m.

(** The counters an attempt from an address touches. *)
Definition keys_of (ip : PeerIp) : list Key :=
  match get_ipv6_prefixes ip with
  | Some (p64, p56, p48) => [p64; p56; p48; KAddr (ip_text ip)]
  | None => [KAddr (ip_text ip)]
  end.

(** [update_failure] of the default scope: [failure] is what the check read. *)
Definition update_failure (ip : PeerIp) (failure : Entry) (time : Z) (remove : bool)
    (m : Failures) : Failures :=
  if remove then
    if negb (fst (fst failure) =? 0) then foldl (fun m k => delete k m) m (keys_of ip) else m
  else foldl (bump time) m (keys_of ip).

(** What a refused client is told, and which alarm is raised. *)
Inductive Refusal : Type :=
| TooManyForPrefix (bits : Z)
| TooManyAttempts
| OneMinuteLater.

Definition check_failure_ipv6_prefix (m : Failures) (k : Key) (bits thresh : Z)
  : option (Entry * Refusal) :=
  let '(t, c, n) := get m k in
  if thresh <? n then Some ((t, c, n), TooManyForPrefix bits) else None.

(** [check_failure] of the default scope: the entry read, and the refusal if any. *)
Definition check_failure (ip : PeerIp) (time : Z) (m : Failures) : Entry * option Refusal :=
  let blocked :=
    match get_ipv6_prefixes ip with
    | None => None
    | Some (p64, p56, p48) =>
        match check_failure_ipv6_prefix m p64 64 60 with
        | Some r => Some r
        | None =>
            match check_failure_ipv6_prefix m p56 56 80 with
            | Some r => Some r
            | None => check_failure_ipv6_prefix m p48 48 100
            end
        end
    end in
  match blocked with
  | Some (e, r) => (e, Some r)
  | None =>
      let '(t, c, n) := get m (KAddr (ip_text ip)) in
      ((t, c, n),
       if 30 <? n then Some TooManyAttempts
       else if (time =? t) && (6 <? c) then Some OneMinuteLater
       else None)
  end.

(** ** Operating-system credentials *)

Definition OS_CREDENTIAL_LOGIN_TOTAL_IDLE_RESET_MS : Z := 120 * 60 * 1000.
Definition OS_CREDENTIAL_LOGIN_BACKOFF_BASE_SECONDS : Z := 15.
Definition OS_CREDENTIAL_LOGIN_BACKOFF_MAX_SECONDS : Z := 30 * 60.

Record OsFailures : Type := mkOs {
  total_failures : Z;
  backoff_until_ms : option Z;
  last_failure_ms : option Z
}.

Definition os_default : OsFailures := mkOs 0 None None.

Definition os_credential_login_backoff_seconds (total : Z) : Z :=
  if total <=? 2 then 0
  else
    let exp := Z.min (total - 3) 7 in
    Z.min (OS_CREDENTIAL_LOGIN_BACKOFF_BASE_SECONDS * Z.shiftl 1 exp)
      OS_CREDENTIAL_LOGIN_BACKOFF_MAX_SECONDS.

Definition normalize_backoff (now : Z) (s : OsFailures) : OsFailures :=
  match backoff_until_ms s with
  | Some until => if until <=? now then mkOs (total_failures s) None (last_failure_ms s) else s
  | None => s
  end.

(** [i64::saturating_sub] and [i32::saturating_add]. *)
Definition sat_i64 (z : Z) : Z := Z.max (- 2 ^ 63) (Z.min (2 ^ 63 - 1) z).
Definition sat_i32 (z : Z) : Z := Z.max (- 2 ^ 31) (Z.min (2 ^ 31 - 1) z).

Definition reset_totals_on_idle (now : Z) (s : OsFailures) : OsFailures :=
  match last_failure_ms s with
  | Some last =>
      if OS_CREDENTIAL_LOGIN_TOTAL_IDLE_RESET_MS <=? sat_i64 (now - last)
      then mkOs 0 None None else s
  | None => s
  end.

(** [None] when the login may proceed, else the seconds of "Please try again in". *)
Definition evaluate_os_credential_policy (now : Z) (s : OsFailures) : option Z * OsFailures :=
  let s := normalize_backoff now (reset_totals_on_idle now s) in
  (match backoff_until_ms s with
   | Some until => Some (Z.max 1 ((Z.max 0 (until - now) + 999) / 1000))
   | None => None
   end, s).

Definition record_os_credential_failure (now : Z) (s : OsFailures) : OsFailures :=
  let s := normalize_backoff now (reset_totals_on_idle now s) in
  let total := sat_i32 (total_failures s + 1) in
  let seconds := os_credential_login_backoff_seconds total in
  mkOs total (if 0 <? seconds then Some (now + seconds * 1000) else backoff_until_ms s) (Some now).

(** ** Attempts *)

(** One login with a wrong password: the guard is asked, and only when it lets the
    attempt through is the password tested and the failure recorded. *)
Definition attempt (m : Failures) (ip : PeerIp) (time : Z) : Failures * bool :=
  let '(failure, refusal) := check_failure ip time m in
  match refusal with
  | Some _ => (m, false)
  | None => (update_failure ip failure time false m, true)
  end.

(** A history of wrong passwords; [allowed] is the attempts that were let through. *)
Fixpoint allowed (m : Failures) (l : list (PeerIp * Z)) : list (PeerIp * Z) :=
  match l with
  | [] => []
  | (ip, time) :: l =>
      let '(m, ok) := attempt m ip time in
      if ok then (ip, time) :: allowed m l else allowed m l
  end.

(** ** How many passwords can be tried *)

Definition total (m : Failures) (k : Key) : Z := snd (get m k).

(** The attempts a counter admits. *)
Definition limit (k : Key) : Z :=
  match k with
  | KAddr _ => 31
  | KPrefix bits _ => if bits =? 64 then 61 else if bits =? 56 then 81 else 101
  end.

Definition touches (k : Key) (a : PeerIp * Z) : bool := bool_decide (k ∈ keys_of (fst a)).

Definition count (k : Key) (l : list (PeerIp * Z)) : Z := len (List.filter (touches k) l).

Lemma keys_of_NoDup ip : NoDup (keys_of ip).
Proof.
  unfold keys_of, get_ipv6_prefixes. destruct (ipv6_value ip); repeat constructor; set_solver.
Qed.

Lemma get_bump time m k k' :
  get (bump time m k) k' = if decide (k = k') then bump_failure_entry (get m k) time else get m k'.
Proof. unfold bump, get at 1. rewrite lookup_insert. by case_decide. Qed.

Lemma get_bumps time l : forall m k,
  NoDup l ->
  get (foldl (bump time) m l) k
  = if decide (k ∈ l) then bump_failure_entry (get m k) time else get m k.
Proof.
  induction l as [|k0 l IH]; intros m k Hn; [by rewrite decide_False by set_solver|].
  apply NoDup_cons in Hn as [Hk0 Hn]. cbn [foldl]. rewrite IH, !get_bump by done.
  destruct (decide (k0 = k)) as [->|Hne].
  - rewrite decide_False by done. by rewrite decide_True by set_solver.
  - repeat case_decide; try done; set_solver.
Qed.

Lemma total_bump_entry e time : snd (bump_failure_entry e time) = snd e + 1.
Proof. destruct e as [[t c] n]. cbn. by destruct (t =? time). Qed.

(** An attempt that is let through finds every counter below its limit. *)
Lemma check_passes ip time m e k :
  check_failure ip time m = (e, None) -> k ∈ keys_of ip -> total m k < limit k.
Proof.
  unfold check_failure, keys_of, check_failure_ipv6_prefix, total.
  destruct (get_ipv6_prefixes ip) as [[[p64 p56] p48]|] eqn:Ep.
  - unfold get_ipv6_prefixes in Ep. destruct (ipv6_value ip) as [v|]; [|done].
    injection Ep as <- <- <-.
    destruct (get m (KPrefix 64 _)) as [[t1 c1] n1] eqn:E1.
    destruct (Z.ltb_spec 60 n1); [done|].
    destruct (get m (KPrefix 56 _)) as [[t2 c2] n2] eqn:E2.
    destruct (Z.ltb_spec 80 n2); [done|].
    destruct (get m (KPrefix 48 _)) as [[t3 c3] n3] eqn:E3.
    destruct (Z.ltb_spec 100 n3); [done|].
    destruct (get m (KAddr _)) as [[t4 c4] n4] eqn:E4.
    destruct (Z.ltb_spec 30 n4); [done|]. intros _ Hk.
    rewrite !elem_of_cons, elem_of_nil in Hk.
    destruct Hk as [->|[->|[->|[->|[]]]]]; rewrite ?E1, ?E2, ?E3, ?E4; cbn; lia.
  - destruct (get m (KAddr _)) as [[t c] n] eqn:E.
    destruct (Z.ltb_spec 30 n); [done|]. intros _ Hk.
    rewrite elem_of_cons, elem_of_nil in Hk. destruct Hk as [->|[]]. rewrite E. cbn. lia.
Qed.

Lemma count_allowed k l : forall m,
  total m k <= limit k -> total m k + count k (allowed m l) <= limit k.
Proof.
  induction l as [|[ip time] l IH]; intros m Hm; [unfold count, len; cbn [allowed List.filter length]; lia|].
  cbn [allowed]. unfold attempt. destruct (check_failure ip time m) as [e r] eqn:E.
  destruct r as [r|]; [by apply IH|]. cbn [update_failure].
  specialize (IH (foldl (bump time) m (keys_of ip))). unfold total in *.
  rewrite get_bumps in IH by apply keys_of_NoDup. unfold count in *. cbn [List.filter].
  unfold touches at 1. cbn [fst]. unfold update_failure. case_decide as Hk.
  - rewrite bool_decide_eq_true_2 by done. rewrite len_cons, total_bump_entry in *.
    pose proof (check_passes _ _ _ _ _ E Hk) as Hc. unfold total in Hc. lia.
  - rewrite bool_decide_eq_false_2 by done. by apply IH.
Qed.


(** *** Per minute *)

Definition in_minute (text : string) (t : Z) (a : PeerIp * Z) : bool :=
  String.eqb (ip_text (fst a)) text && (snd a =? t).

(** The failures of minute [t] a counter remembers. *)
Definition minute_count (m : Failures) (text : string) (t : Z) : Z :=
  let '(t0, c, _) := get m (KAddr text) in if t0 =? t then c else 0.

Definition last_minute (m : Failures) (text : string) : Z := fst (fst (get m (KAddr text))).

Lemma text_in_keys ip text : KAddr text ∈ keys_of ip <-> ip_text ip = text.
Proof.
  unfold keys_of, get_ipv6_prefixes. destruct (ipv6_value ip);
    rewrite ?elem_of_cons, ?elem_of_nil; intuition congruence.
Qed.

Lemma check_minute ip time m e :
  check_failure ip time m = (e, None) -> minute_count m (ip_text ip) time <= 6.
Proof.
  unfold check_failure, minute_count. cbv zeta.
  match goal with |- (match ?b with Some _ => _ | None => _ end) = _ -> _ =>
    destruct b as [[? ?]|]; [done|] end. destruct (get m (KAddr (ip_text ip))) as [[t c] n]. intros H.
  injection H as _ H. destruct (30 <? n); [done|].
  destruct (Z.eqb_spec t time) as [->|]; [|lia]. rewrite Z.eqb_refl in H. cbn in H.
  destruct (Z.ltb_spec 6 c); [done|lia].
Qed.

Lemma none_later text t l m :
  Forall (fun a => t < snd a) l -> List.filter (in_minute text t) (allowed m l) = [].
Proof.
  revert m. induction l as [|[ip time] l IH]; intros m Hl; [done|].
  apply Forall_cons in Hl as [Ht Hl]. cbn [allowed]. destruct (attempt m ip time) as [m' []]; [|by apply IH].
  cbn [List.filter]. unfold in_minute at 1. cbn [snd fst] in *.
  destruct (Z.eqb_spec time t); [lia|]. rewrite andb_false_r. by apply IH.
Qed.

Lemma minute_allowed text t l : forall m,
  StronglySorted Z.le (snd <$> l) -> Forall (fun a => last_minute m text <= snd a) l ->
  minute_count m text t <= 7 ->
  minute_count m text t + len (List.filter (in_minute text t) (allowed m l)) <= 7.
Proof.
  induction l as [|[ip time] l IH]; intros m Hs Hl Hm; [unfold len; cbn; lia|].
  inversion Hs as [|? ? Hs' Hle]; subst. apply Forall_cons in Hl as [Ht Hl]. cbn [snd] in Ht.
  assert (Hle' : Forall (fun a => time <= snd a) l).
  { rewrite Forall_fmap in Hle. eapply Forall_impl; [exact Hle|]. by intros [? ?]. }
  cbn [allowed]. unfold attempt. destruct (check_failure ip time m) as [e r] eqn:E.
  destruct r as [r|]; [by apply IH|].
  set (m' := update_failure ip e time false m).
  assert (Hg : get m' (KAddr text) = if decide (ip_text ip = text)
            then bump_failure_entry (get m (KAddr text)) time else get m (KAddr text)).
  { unfold m', update_failure. rewrite get_bumps by apply keys_of_NoDup.
    repeat case_decide; try done; exfalso; rewrite text_in_keys in *; done. }
  cbn [List.filter]. unfold in_minute at 1. cbn [fst snd].
  destruct (decide (ip_text ip = text)) as [Heq|Hne].
  2: { destruct (String.eqb_spec (ip_text ip) text); [done|]. cbn [andb].
       assert (E1 : minute_count m' text t = minute_count m text t) by (unfold minute_count; by rewrite Hg).
       rewrite <- E1. apply IH; [done|unfold last_minute; by rewrite Hg|by rewrite E1]. }
  subst text. rewrite String.eqb_refl. cbn [andb].
  pose proof (check_minute _ _ _ _ E) as Hc.
  assert (Hlast : last_minute m' (ip_text ip) = time).
  { unfold last_minute. rewrite Hg. destruct (get m (KAddr (ip_text ip))) as [[t0 c] n]. cbn.
    by destruct (Z.eqb_spec t0 time). }
  destruct (Z.eqb_spec time t) as [->|Hnt].
  - assert (E1 : minute_count m' (ip_text ip) t = minute_count m (ip_text ip) t + 1).
    { unfold minute_count. rewrite Hg. destruct (get m (KAddr (ip_text ip))) as [[t0 c] n]. cbn.
      destruct (Z.eqb_spec t0 t) as [->|]; cbn; rewrite Z.eqb_refl; lia. }
    rewrite len_cons. specialize (IH m'). rewrite Hlast, E1 in IH. specialize (IH Hs' Hle' ltac:(lia)). lia.
  - destruct (Z.eqb_spec (last_minute m (ip_text ip)) t) as [Hlt|Hlt].
    + rewrite none_later; [unfold len; cbn; lia|]. eapply Forall_impl; [exact Hle'|]. cbn. intros; lia.
    + assert (E0 : minute_count m (ip_text ip) t = 0).
      { unfold minute_count, last_minute in *. destruct (get m (KAddr (ip_text ip))) as [[t0 c] n].
        cbn in Hlt. by destruct (Z.eqb_spec t0 t). }
      assert (E1 : minute_count m' (ip_text ip) t = 0).
      { unfold minute_count, last_minute in *. destruct (get m' (KAddr (ip_text ip))) as [[t0 c] n].
        cbn in Hlast. subst t0. by destruct (Z.eqb_spec time t). }
      specialize (IH m'). rewrite Hlast, E1 in IH. specialize (IH Hs' Hle' ltac:(lia)). lia.
Qed.

(** guessing is slowed down.  While the clock does not go back, at most 7
    wrong passwords are tested for one address within one minute. *)
Theorem guesses_per_minute (l : list (PeerIp * Z)) (text : string) (t : Z) :
  StronglySorted Z.le (snd <$> l) -> Forall (fun a => 0 <= snd a) l ->
  len (List.filter (in_minute text t) (allowed ∅ l)) <= 7.
Proof.
  intros Hs Hl. assert (Hg : get ∅ (KAddr text) = (0, 0, 0)) by (unfold get; by rewrite lookup_empty).
  assert (Hc : minute_count ∅ text t = 0) by (unfold minute_count; rewrite Hg; by destruct (0 =? t)).
  pose proof (minute_allowed text t l ∅ Hs) as H. unfold last_minute in H. rewrite Hg, Hc in H.
  specialize (H Hl ltac:(lia)). lia.
Qed.

Definition v4 (s : string) : PeerIp := mkPeerIp s None.

Lemma guesses_per_minute_witness :
  let l := replicate 9 (v4 "10.0.0.7", 5) in
  len (List.filter (in_minute "10.0.0.7" 5) (allowed ∅ l)) <= 7 /\ len (allowed ∅ l) = 7.
Proof.
  intros l. split; [|vm_compute; reflexivity].
  apply (guesses_per_minute l "10.0.0.7" 5); repeat constructor; cbn; lia.
Defined.

(** The bound of 31 is reached: the alarm called "thirty attempts" is raised by
    the thirty-second. *)
Lemma thirty_one_guesses :
  let l := (fun n => (v4 "10.0.0.7", Z.of_nat n)) <$> seq 1 40 in len (allowed ∅ l) = 31.
Proof. vm_compute. reflexivity. Qed.

(** ** Growing delays *)

(** The delays, in seconds, after the first ten failures and from then on. *)
Lemma backoff_table :
  map os_credential_login_backoff_seconds [1; 2; 3; 4; 5; 6; 7; 8; 9; 10]
  = [0; 0; 15; 30; 60; 120; 240; 480; 960; 1800].
Proof. reflexivity. Qed.

Lemma backoff_range n : 0 <= os_credential_login_backoff_seconds n <= 1800.
Proof.
  unfold os_credential_login_backoff_seconds, OS_CREDENTIAL_LOGIN_BACKOFF_BASE_SECONDS,
    OS_CREDENTIAL_LOGIN_BACKOFF_MAX_SECONDS. destruct (Z.leb_spec n 2); [lia|]. cbv zeta.
  rewrite Z.shiftl_mul_pow2 by lia. pose proof (Z.pow_pos_nonneg 2 (Z.min (n - 3) 7)). lia.
Qed.

Lemma backoff_monotone n k :
  n <= k -> os_credential_login_backoff_seconds n <= os_credential_login_backoff_seconds k.
Proof.
  intros Hnk. unfold os_credential_login_backoff_seconds, OS_CREDENTIAL_LOGIN_BACKOFF_BASE_SECONDS,
    OS_CREDENTIAL_LOGIN_BACKOFF_MAX_SECONDS. cbv zeta.
  destruct (Z.leb_spec n 2), (Z.leb_spec k 2); try lia.
  - rewrite Z.shiftl_mul_pow2 by lia. pose proof (Z.pow_pos_nonneg 2 (Z.min (k - 3) 7)). lia.
  - rewrite !Z.shiftl_mul_pow2 by lia.
    pose proof (Z.pow_le_mono_r 2 (Z.min (n - 3) 7) (Z.min (k - 3) 7)). lia.
Qed.

(** Failures less than two hours apart add up. *)
Definition close_after (s : OsFailures) (t : Z) : Prop :=
  match last_failure_ms s with
  | Some last => 0 <= t - last < OS_CREDENTIAL_LOGIN_TOTAL_IDLE_RESET_MS
  | None => True
  end.

Lemma no_idle_reset s t : close_after s t -> reset_totals_on_idle t s = s.
Proof.
  unfold close_after, reset_totals_on_idle. destruct (last_failure_ms s); [|done]. intros Hc.
  unfold OS_CREDENTIAL_LOGIN_TOTAL_IDLE_RESET_MS, sat_i64 in *.
  destruct (Z.leb_spec (120 * 60 * 1000) (Z.max (- 2 ^ 63) (Z.min (2 ^ 63 - 1) (t - z)))); [lia|done].
Qed.

Fixpoint close_times (last : option Z) (ts : list Z) : Prop :=
  match ts with
  | [] => True
  | t :: ts =>
      match last with
      | Some l => 0 <= t - l < OS_CREDENTIAL_LOGIN_TOTAL_IDLE_RESET_MS
      | None => True
      end /\ close_times (Some t) ts
  end.

Definition after_failures (ts : list Z) : OsFailures :=
  foldl (fun s t => record_os_credential_failure t s) os_default ts.

Lemma failures_add_up ts : forall s,
  0 <= total_failures s -> total_failures s + len ts < 2 ^ 31 -> close_times (last_failure_ms s) ts ->
  total_failures (foldl (fun s t => record_os_credential_failure t s) s ts)
  = total_failures s + len ts.
Proof.
  induction ts as [|t ts IH]; intros s H0 Hl Hc; [unfold len; cbn; lia|].
  destruct Hc as [Hc1 Hc2]. cbn [foldl]. rewrite len_cons in *. pose proof (len_nonneg ts).
  assert (Ht : total_failures (record_os_credential_failure t s) = total_failures s + 1).
  { unfold record_os_credential_failure. rewrite no_idle_reset by exact Hc1. cbn [total_failures].
    assert (Hn : total_failures (normalize_backoff t s) = total_failures s).
    { unfold normalize_backoff. by repeat case_match. }
    rewrite Hn. unfold sat_i32. lia. }
  rewrite IH; rewrite ?Ht; [lia|lia|lia|exact Hc2].
Qed.

(** growing delays.  After [n] wrong operating-system credentials, each less
    than two hours after the one before, a login is refused for exactly
    [backoff n] seconds after the last one (0 for the first two, then 15, 30, ...
    up to half an hour), and the number of seconds the client is told to wait is
    what remains, rounded up. *)
Theorem os_login_backoff (ts : list Z) (last t : Z) :
  let n := len ts + 1 in
  let s := after_failures (ts ++ [last]) in
  let seconds := os_credential_login_backoff_seconds n in
  close_times None (ts ++ [last]) -> n < 2 ^ 31 -> 3 <= n -> last <= t ->
  fst (evaluate_os_credential_policy t s)
  = if t - last <? seconds * 1000 then Some ((last + seconds * 1000 - t + 999) / 1000) else None.
Proof.
  intros n s seconds Hc Hn H3 Ht.
  assert (Hs : exists s0, s = record_os_credential_failure last s0 /\ total_failures s = n).
  { unfold s, after_failures. rewrite foldl_app. cbn [foldl]. eexists. split; [done|].
    pose proof (failures_add_up (ts ++ [last]) os_default) as H. rewrite foldl_app in H. cbn [foldl] in H.
    rewrite len_app in H. change (len [last]) with 1 in H. cbn [total_failures os_default last_failure_ms] in H.
    rewrite H by (done || lia). lia. }
  destruct Hs as (s0 & Hs & Htot).
  assert (Hsec : 15 <= seconds <= 1800).
  { pose proof (backoff_monotone 3 n H3) as M. pose proof (backoff_range n) as R.
    change (os_credential_login_backoff_seconds 3) with 15 in M. unfold seconds. lia. }
  assert (Hst : s = mkOs n (Some (last + seconds * 1000)) (Some last)).
  { rewrite Hs in *. unfold record_os_credential_failure in *. cbv zeta in *. cbn [total_failures] in Htot.
    rewrite Htot. fold seconds. destruct (Z.ltb_spec 0 seconds); [done|lia]. }
  unfold evaluate_os_credential_policy. rewrite Hst. cbv zeta.
  destruct (Z.ltb_spec (t - last) (seconds * 1000)) as [Hlt|Hge].
  - rewrite no_idle_reset by (cbn; unfold OS_CREDENTIAL_LOGIN_TOTAL_IDLE_RESET_MS; lia).
    unfold normalize_backoff. cbn [backoff_until_ms].
    destruct (Z.leb_spec (last + seconds * 1000) t); [lia|]. cbn [fst backoff_until_ms].
    f_equal. rewrite Z.max_r by zlia. f_equal. lia.
  - unfold reset_totals_on_idle. cbn [last_failure_ms]. destruct (_ <=? _); [done|].
    unfold normalize_backoff. cbn [backoff_until_ms].
    by destruct (Z.leb_spec (last + seconds * 1000) t); [|lia].
Qed.

Lemma os_login_backoff_witness :
  fst (evaluate_os_credential_policy 20500 (after_failures ([1000; 2000; 3000] ++ [9000]))) = Some 19.
Proof.
  rewrite (os_login_backoff [1000; 2000; 3000] 9000 20500);
    [reflexivity|cbn; unfold OS_CREDENTIAL_LOGIN_TOTAL_IDLE_RESET_MS; lia|vm_compute; reflexivity
    |vm_compute; discriminate|lia].
Defined.
