(* ===== verification/Messages.v ===== *)
(** * Session messages (libs/hbb_common/protos/message.proto)

    The messages of a session as the server matches on them.  A [oneof] is an
    optional value of an inductive type; an enum field is the number on the wire,
    which [enum_value] decodes when it is known ([EnumOrUnknown]).  A submessage the
    server forwards without looking inside is kept in its encoded form. *)

From Stdlib Require Import Ascii.
From S2P Require Import Prelude TermBuffer TermService.

Notation raw := (list byte).

(** ** Options *)

Inductive BoolOption : Type := NotSet | No | Yes.
Inductive ImageQuality : Type := QNotSet | Low | Balanced | Best.

#[export] Instance bool_option_eq_dec : EqDecision BoolOption.
Proof. solve_decision. Defined.
#[export] Instance image_quality_eq_dec : EqDecision ImageQuality.
Proof. solve_decision. Defined.

(** An enum known to this version, and its numbers. *)
Class ProtoEnum (A : Type) : Type := { value : A -> Z; enum_value : Z -> option A }.

#[export] Instance bool_option_enum : ProtoEnum BoolOption := {
  value b := match b with NotSet => 0 | No => 1 | Yes => 2 end;
  enum_value z :=
    if z =? 0 then Some NotSet else if z =? 1 then Some No else if z =? 2 then Some Yes else None }.
#[export] Instance image_quality_enum : ProtoEnum ImageQuality := {
  value q := match q with QNotSet => 0 | Low => 2 | Balanced => 3 | Best => 4 end;
  enum_value z :=
    if z =? 0 then Some QNotSet else if z =? 2 then Some Low
    else if z =? 3 then Some Balanced else if z =? 4 then Some Best else None }.

Record OptionMessage : Type := mkOption {
  o_image_quality : Z;
  o_lock_after_session_end : Z;
  o_show_remote_cursor : Z;
  o_privacy_mode : Z;
  o_block_input : Z;
  o_custom_image_quality : Z;
  o_disable_audio : Z;
  o_disable_clipboard : Z;
  o_enable_file_transfer : Z;
  o_supported_decoding : option raw;
  o_custom_fps : Z;
  o_disable_keyboard : Z;
  o_follow_remote_cursor : Z;
  o_follow_remote_window : Z;
  o_disable_camera : Z;
  o_terminal_persistent : Z;
  o_show_my_cursor : Z }.

(** [OptionMessage::new()]. *)
Definition option_default : OptionMessage :=
  mkOption 0 0 0 0 0 0 0 0 0 None 0 0 0 0 0 0 0.

(** ** Login *)

Inductive LoginUnion : Type :=
| LFileTransfer (dir : string) (show_hidden : bool)
| LPortForward (host : string) (port : Z)
| LViewCamera
| LTerminal (service_id : string).

Record LoginRequest : Type := mkLogin {
  username : string;
  password : raw;
  my_id : string;
  my_name : string;
  login_option : option OptionMessage;
  login_union : option LoginUnion;
  video_ack_required : bool;
  session_id : Z;
  version : string;
  os_username : string;
  os_password : string;
  my_platform : string;
  hwid : raw }.

Definition login_default : LoginRequest :=
  mkLogin "" [] "" "" None None false 0 "" "" "" "" [].

(** ** Files *)

Inductive FileAction : Type :=
| ReadDir (path : string) (include_hidden : bool)
| FaSend (id : Z) (path : string) (include_hidden : bool) (file_num : Z) (file_type : Z)
| Receive (id : Z) (path : string) (files : list (string * Z)) (file_num total_size : Z)
| Create (id : Z) (path : string)
| RemoveDir (id : Z) (path : string) (recursive : bool)
| RemoveFile (id : Z) (path : string) (file_num : Z)
| AllFiles (id : Z) (path : string) (include_hidden : bool)
| Cancel (id : Z)
| SendConfirm (id file_num : Z) (skip : bool) (offset_blk : Z)
| Rename (id : Z) (path new_name : string)
| ReadEmptyDirs (path : string) (include_hidden : bool).

Inductive FileResponse : Type :=
| FrDir (m : raw)
| FrBlock (id file_num : Z) (data : raw) (compressed : bool)
| FrError (id : Z) (error : string) (file_num : Z)
| FrDone (id file_num : Z)
| FrDigest (id file_num last_modified file_size : Z) (is_resume : bool)
| FrEmptyDirs (m : raw).

(** ** Input *)

Record MouseEvent : Type := mkMouse { mask : Z; mouse_x : Z; mouse_y : Z; mouse_modifiers : list Z }.

Inductive KeyUnion : Type :=
| ControlKey (z : Z)
| Chr (code : Z)
| Unicode (code : Z)
| Seq (s : string)
| Win2WinHotkey (z : Z).

Record KeyEvent : Type := mkKey {
  key_down : bool; key_press : bool; key_union : option KeyUnion; key_mode : Z; key_modifiers : list Z }.

(** ** The unions *)

Record SwitchDisplay : Type := mkSwitchDisplay { sd_display : Z; sd_width : Z; sd_height : Z }.

Inductive Misc : Type :=
| ChatMessage (text : string)
| MSwitchDisplay (s : SwitchDisplay)
| PermissionInfo (m : raw)
| MOption (o : OptionMessage)
| AudioFormat (m : raw)
| CloseReason (reason : string)
| RefreshVideo (b : bool)
| VideoReceived (b : bool)
| BackNotification (m : raw)
| RestartRemoteDevice (b : bool)
| Uac (b : bool)
| ForegroundWindowElevated (b : bool)
| StopService (b : bool)
| ElevationRequest (m : raw)
| ElevationResponse (text : string)
| PortableServiceRunning (b : bool)
| SwitchSidesRequest (uuid : raw)
| SwitchBack
| ChangeResolution (width height : Z)
| PluginRequest (m : raw)
| PluginFailure (m : raw)
| FullSpeedFps (fps : Z)
| AutoAdjustFps (fps : Z)
| ClientRecordStatus (b : bool)
| CaptureDisplays (add sub set : list Z)
| RefreshVideoDisplay (display : Z)
| ToggleVirtualDisplay (display : Z) (on : bool)
| TogglePrivacyMode (impl_key : string) (on : bool)
| SupportedEncoding (m : raw)
| SelectedSid (sid : Z)
| ChangeDisplayResolution (display width height : Z)
| MessageQuery (switch_display : Z)
| FollowCurrentDisplay (display : Z).

Inductive Message : Type :=
| SignedId (m : raw)
| PublicKey (m : raw)
| TestDelay (time : Z) (from_client : bool) (last_delay target_bitrate : Z)
| VideoFrame (m : raw)
| MLoginRequest (lr : LoginRequest)
| LoginResponse (m : raw)
| Hash (salt challenge : string)
| MMouseEvent (me : MouseEvent)
| AudioFrame (m : raw)
| CursorData (m : raw)
| CursorPosition (x y : Z)
| CursorId (id : Z)
| MKeyEvent (ke : KeyEvent)
| Clipboard (cb : raw)
| MFileAction (fa : option FileAction)
| MFileResponse (fr : option FileResponse)
| MMisc (m : option Misc)
| Cliprdr (m : raw)
| MessageBox (msgtype title text link : string)
| SwitchSidesResponse (uuid : raw) (lr : option LoginRequest)
| VoiceCallRequest (req_timestamp : Z) (is_connect : bool)
| VoiceCallResponse (m : raw)
| PeerInfo (m : raw)
| PointerDeviceEvent (m : raw)
| Auth2FA (code : string) (hwid : raw)
| MultiClipboards (cbs : list raw)
| ScreenshotRequest (display : Z) (sid : string)
| ScreenshotResponse (m : raw)
| TerminalAction (a : Action)
| TerminalResponse (m : raw).

(** ** Versions

    [get_version_number] of libs/hbb_common/src/lib.rs. *)

Definition parse_or_0 (s : string) : Z := default 0 (parse_int 64 s).

Definition get_version_number (v : string) : Z :=
  let parts := split_on "-"%char v in
  let '(n, last) :=
    fold_left (fun '(n, _) x => let last := parse_or_0 x in (swrap 64 (n * 1000 + last), last))
      (split_on "."%char (default EmptyString (head parts))) (0, 0) in
  let n := swrap 64 (swrap 64 (n - last) + swrap 64 (last * 10)) in
  match parts with
  | _ :: patch :: _ => swrap 64 (n + parse_or_0 patch)
  | _ => n
  end.
