(* ===== verification/SessionScope.v ===== *)
(** * What a session of each kind may ask for (src/server/connection.rs)

    An authorized connection has a kind (remote control, file transfer, port
    forwarding, camera, terminal), and a message outside of its kind's scope is
    reported and dropped before any handler sees it.  Options are filtered field
    by field.  The functions here are pure; [Connection] composes them with the
    handlers.  Builds other than the Windows one. *)

From S2P Require Import Prelude Messages.

Inductive AuthConnType : Type := Remote | FileTransfer | PortForward | ViewCamera | Terminal.

#[export] Instance auth_conn_type_eq_dec : EqDecision AuthConnType.
Proof. solve_decision. Defined.

Definition as_str (t : AuthConnType) : string :=
  match t with
  | Remote => "remote"
  | FileTransfer => "file_transfer"
  | PortForward => "port_forward"
  | ViewCamera => "view_camera"
  | Terminal => "terminal"
  end.

Definition is_connection_housekeeping_message (m : option Message) : bool :=
  match m with
  | Some (MLoginRequest _) => true
  | Some (TestDelay _ _ _ _) => true
  | Some (MMisc (Some (CloseReason _))) => true
  | _ => false
  end.

(** ** Fields of an option message *)

Definition is_bool_option_not_set (z : Z) : bool :=
  bool_decide (enum_value z = Some NotSet).

Definition quality_not_set (o : OptionMessage) : bool :=
  bool_decide (enum_value (o_image_quality o) = Some QNotSet).

Definition is_supported_decoding_only_option (o : OptionMessage) : bool :=
  bool_decide (is_Some (o_supported_decoding o))
  && quality_not_set o
  && (o_custom_image_quality o =? 0)
  && (o_custom_fps o =? 0)
  && is_bool_option_not_set (o_lock_after_session_end o)
  && is_bool_option_not_set (o_show_remote_cursor o)
  && is_bool_option_not_set (o_privacy_mode o)
  && is_bool_option_not_set (o_block_input o)
  && is_bool_option_not_set (o_disable_audio o)
  && is_bool_option_not_set (o_disable_clipboard o)
  && is_bool_option_not_set (o_enable_file_transfer o)
  && is_bool_option_not_set (o_disable_keyboard o)
  && is_bool_option_not_set (o_follow_remote_cursor o)
  && is_bool_option_not_set (o_follow_remote_window o)
  && is_bool_option_not_set (o_disable_camera o)
  && is_bool_option_not_set (o_terminal_persistent o)
  && is_bool_option_not_set (o_show_my_cursor o).

Definition option_has_non_view_camera_login_field (o : OptionMessage) : bool :=
  negb (is_bool_option_not_set (o_lock_after_session_end o)
        && is_bool_option_not_set (o_show_remote_cursor o)
        && is_bool_option_not_set (o_privacy_mode o)
        && is_bool_option_not_set (o_block_input o)
        && is_bool_option_not_set (o_disable_clipboard o)
        && is_bool_option_not_set (o_enable_file_transfer o)
        && is_bool_option_not_set (o_disable_keyboard o)
        && is_bool_option_not_set (o_follow_remote_cursor o)
        && is_bool_option_not_set (o_follow_remote_window o)
        && is_bool_option_not_set (o_disable_camera o)
        && is_bool_option_not_set (o_terminal_persistent o)
        && is_bool_option_not_set (o_show_my_cursor o)).

Definition option_has_non_terminal_login_field (o : OptionMessage) : bool :=
  negb (quality_not_set o)
  || negb (o_custom_image_quality o =? 0)
  || negb (o_custom_fps o =? 0)
  || bool_decide (is_Some (o_supported_decoding o))
  || negb (is_bool_option_not_set (o_lock_after_session_end o))
  || negb (is_bool_option_not_set (o_show_remote_cursor o))
  || negb (is_bool_option_not_set (o_privacy_mode o))
  || negb (is_bool_option_not_set (o_block_input o))
  || negb (is_bool_option_not_set (o_disable_audio o))
  || negb (is_bool_option_not_set (o_disable_clipboard o))
  || negb (is_bool_option_not_set (o_enable_file_transfer o))
  || negb (is_bool_option_not_set (o_disable_keyboard o))
  || negb (is_bool_option_not_set (o_follow_remote_cursor o))
  || negb (is_bool_option_not_set (o_follow_remote_window o))
  || negb (is_bool_option_not_set (o_disable_camera o))
  || negb (is_bool_option_not_set (o_show_my_cursor o)).

Definition option_has_any_field (o : OptionMessage) : bool :=
  option_has_non_terminal_login_field o
  || negb (is_bool_option_not_set (o_terminal_persistent o)).

(** [b.then_some(a)]. *)
Definition then_some {A} (b : bool) (a : A) : option A := if b then Some a else None.

Definition scoped_terminal_login_option (o : OptionMessage)
  : option OptionMessage * option string :=
  let '(scoped, violation) :=
    match enum_value (o_terminal_persistent o) with
    | Some v =>
        (mkOption 0 0 0 0 0 0 0 0 0 None 0 0 0 0 0 (value (v : BoolOption)) 0, false)
    | None => (option_default, true)
    end in
  let violation := if option_has_non_terminal_login_field o then true else violation in
  (then_some (option_has_any_field scoped) scoped, then_some violation "login.option"%string).

Definition scoped_view_camera_option (o : OptionMessage)
  : option OptionMessage * option string :=
  let iq := match enum_value (o_image_quality o) : option ImageQuality with
            | Some _ => o_image_quality o | None => 0 end in
  let ciq := if o_custom_image_quality o >=? 0 then o_custom_image_quality o else 0 in
  let fps := if o_custom_fps o >=? 0 then o_custom_fps o else 0 in
  let audio := match enum_value (o_disable_audio o) with
               | Some v => value (v : BoolOption) | None => 0 end in
  let scoped :=
    mkOption iq 0 0 0 0 ciq audio 0 0 (o_supported_decoding o) fps 0 0 0 0 0 0 in
  let violation := option_has_non_view_camera_login_field o in
  (then_some (option_has_any_field scoped) scoped, then_some violation "login.option"%string).

Definition scoped_login_option (t : AuthConnType) (o : OptionMessage)
  : option OptionMessage * option string :=
  match t with
  | Remote => (Some o, None)
  | ViewCamera => scoped_view_camera_option o
  | Terminal => scoped_terminal_login_option o
  | FileTransfer | PortForward =>
      (None, then_some (option_has_any_field o) "login.option"%string)
  end.

Definition scoped_update_option_message (t : option AuthConnType) (o : OptionMessage)
  : option OptionMessage :=
  match t with
  | Some ViewCamera => fst (scoped_view_camera_option o)
  | Some Terminal => fst (scoped_terminal_login_option o)
  | Some (Remote | FileTransfer | PortForward) | None => None
  end.

(** ** Scopes of messages *)

Definition is_render_broadcast_noop_compat_message (m : option Message) : bool :=
  match m with
  | Some (MMisc (Some (RefreshVideo _))) | Some (MMisc (Some (RefreshVideoDisplay _))) => true
  | Some (MMisc (Some (MOption o))) => is_supported_decoding_only_option o
  | _ => false
  end.

Definition is_text_clipboard_noop_compat_message (m : option Message) : bool :=
  match m with
  | Some (Clipboard _) | Some (MultiClipboards _) => true
  | _ => false
  end.

Definition is_file_transfer_scoped_misc (_ : option Misc) : bool := false.

Definition is_file_transfer_scoped_message (m : option Message) : bool :=
  match m with
  | Some (MFileAction _) | Some (MFileResponse _) => true
  | Some (MMisc misc) => is_file_transfer_scoped_misc misc
  | _ => false
  end.

Definition is_terminal_scoped_option (o : OptionMessage) : bool :=
  bool_decide (snd (scoped_terminal_login_option o) = None).

Definition is_terminal_scoped_misc (m : option Misc) : bool :=
  match m with
  | Some (ChatMessage _) => true
  | Some (MOption o) => is_terminal_scoped_option o
  | _ => false
  end.

Definition is_terminal_scoped_message (m : option Message) : bool :=
  match m with
  | Some (TerminalAction _) => true
  | Some (MMisc misc) => is_terminal_scoped_misc misc
  | _ => false
  end.

Definition is_view_camera_scoped_option (o : OptionMessage) : bool :=
  bool_decide (snd (scoped_view_camera_option o) = None).

Definition is_view_camera_scoped_misc (m : option Misc) : bool :=
  match m with
  | Some (MSwitchDisplay _)
  | Some (CaptureDisplays _ _ _)
  | Some (RefreshVideo _)
  | Some (RefreshVideoDisplay _)
  | Some (VideoReceived _)
  | Some (ChatMessage _)
  | Some (AudioFormat _)
  | Some (ClientRecordStatus _)
  | Some (MessageQuery _)
  | Some (TogglePrivacyMode _ _)
  | Some (ToggleVirtualDisplay _ _)
  | Some (ChangeResolution _ _)
  | Some (ChangeDisplayResolution _ _ _) => true
  | Some (MOption o) => is_view_camera_scoped_option o
  | _ => false
  end.

Definition is_view_camera_scoped_message (m : option Message) : bool :=
  match m with
  | Some (ScreenshotRequest _ _) => true
  | Some (MMisc misc) => is_view_camera_scoped_misc misc
  | Some (MMouseEvent _) | Some (PointerDeviceEvent _) | Some (MKeyEvent _) => true
  | Some (AudioFrame _) | Some (VoiceCallRequest _ _) | Some (VoiceCallResponse _) => true
  | _ => false
  end.

Definition misc_message_family (m : option Misc) : string :=
  match m with
  | Some (ChatMessage _) => "misc.chat_message"
  | Some (MSwitchDisplay _) => "misc.switch_display"
  | Some (MOption _) => "misc.option"
  | Some (AudioFormat _) => "misc.audio_format"
  | Some (CaptureDisplays _ _ _) => "misc.capture_displays"
  | Some (ClientRecordStatus _) => "misc.client_record_status"
  | Some (TogglePrivacyMode _ _) => "misc.toggle_privacy_mode"
  | Some (ToggleVirtualDisplay _ _) => "misc.toggle_virtual_display"
  | Some (SelectedSid _) => "misc.selected_sid"
  | Some (ChangeResolution _ _) => "misc.change_resolution"
  | Some (ChangeDisplayResolution _ _ _) => "misc.change_display_resolution"
  | Some (MessageQuery _) => "misc.message_query"
  | Some (FollowCurrentDisplay _) => "misc.follow_current_display"
  | Some _ => "misc.other"
  | None => "misc.empty"
  end.

Definition message_family (m : option Message) : string :=
  match m with
  | Some (MMouseEvent _) => "mouse_event"
  | Some (AudioFrame _) => "audio_frame"
  | Some (PointerDeviceEvent _) => "pointer_device_event"
  | Some (MKeyEvent _) => "key_event"
  | Some (Clipboard _) => "clipboard"
  | Some (MFileAction _) => "file_action"
  | Some (MFileResponse _) => "file_response"
  | Some (VoiceCallRequest _ _) => "voice_call_request"
  | Some (VoiceCallResponse _) => "voice_call_response"
  | Some (MultiClipboards _) => "multi_clipboards"
  | Some (ScreenshotRequest _ _) => "screenshot_request"
  | Some (ScreenshotResponse _) => "screenshot_response"
  | Some (TerminalAction _) => "terminal_action"
  | Some (TerminalResponse _) => "terminal_response"
  | Some (MMisc misc) => misc_message_family misc
  | Some _ => "message.other"
  | None => "empty"
  end.

Definition authorized_message_scope_violation (t : AuthConnType) (m : option Message)
  : option string :=
  if is_connection_housekeeping_message m then None
  else
    let noop_compat :=
      match t with
      | FileTransfer | Terminal =>
          is_render_broadcast_noop_compat_message m || is_text_clipboard_noop_compat_message m
      | PortForward => is_render_broadcast_noop_compat_message m
      | ViewCamera => is_text_clipboard_noop_compat_message m
      | Remote => false
      end in
    if noop_compat then None
    else
      let allowed :=
        match t with
        | Remote => true
        | FileTransfer => is_file_transfer_scoped_message m
        | PortForward => false
        | ViewCamera => is_view_camera_scoped_message m
        | Terminal => is_terminal_scoped_message m
        end in
      if negb allowed then Some (message_family m) else None.

Definition authorized_scope_violation (t : option AuthConnType) (m : option Message)
  : option string :=
  match t with
  | None => then_some (negb (is_connection_housekeeping_message m)) "session.auth_type"%string
  | Some t => authorized_message_scope_violation t m
  end.

(** ** Filtered options *)

Lemma nonneg_kept z : (if (if z >=? 0 then z else 0) >=? 0 then (if z >=? 0 then z else 0) else 0)
                      = (if z >=? 0 then z else 0).
Proof. by destruct (z >=? 0) eqn:E; rewrite ?E. Qed.

(** Filtering the options of a session leaves only what belongs to its kind: the
    filtered message is accepted unchanged and without a complaint by the same
    filter. *)
Theorem scoped_option_is_in_scope t o o' v :
  scoped_login_option t o = (Some o', v) -> scoped_login_option t o' = (Some o', None).
Proof.
  destruct t; cbn; intros E; try congruence.
  - unfold scoped_view_camera_option in *. cbv zeta in *.
    destruct (enum_value (o_image_quality o) : option ImageQuality) as [q|] eqn:Eq;
      destruct (enum_value (o_disable_audio o) : option BoolOption) as [w|] eqn:Ew;
      unfold then_some in E; destruct (option_has_any_field _) eqn:Ef; try done;
      injection E as <- _;
      cbn [o_image_quality o_custom_image_quality o_custom_fps o_disable_audio o_supported_decoding];
      rewrite !nonneg_kept, ?Eq; try destruct w;
      lazymatch type of Ef with
      | option_has_any_field ?y = _ =>
          lazymatch goal with
          | |- (then_some (option_has_any_field ?x) ?x, _) = _ => change x with y
          end
      end; by rewrite Ef.
  - unfold scoped_terminal_login_option in *.
    destruct (enum_value (o_terminal_persistent o)) as [w|] eqn:Ew; cbn zeta in *.
    + injection E as E _. unfold then_some in E. destruct (option_has_any_field _) eqn:Ef; [|done].
      injection E as <-. by destruct w.
    + discriminate E.
Qed.

Lemma scoped_option_is_in_scope_witness :
  let o := mkOption 3 2 0 0 0 0 1 0 0 None 30 0 0 0 0 0 0 in
  let o' := mkOption 3 0 0 0 0 0 1 0 0 None 30 0 0 0 0 0 0 in
  scoped_login_option ViewCamera o = (Some o', Some "login.option"%string)
  /\ scoped_login_option ViewCamera o' = (Some o', None).
Proof.
  intros o o'. split; [vm_compute; reflexivity|].
  apply (scoped_option_is_in_scope ViewCamera o o' (Some "login.option"%string)).
  vm_compute; reflexivity.
Defined.
