(* ===== verification/Passwords.v ===== *)
(** * Stored and presented passwords

    libs/hbb_common/src/password_security.rs, libs/hbb_common/src/config/permanent_password.rs,
    the password part of libs/hbb_common/src/config.rs, and the checks of
    src/server/connection.rs.  The permanent password is stored as the hash of the
    password and a salt, encrypted under a key of the machine; a peer proves that it
    knows a password by hashing that hash with the connection's challenge.

    Texts are their UTF-8 bytes.  SHA-256, base64 and the secret box are parameters
    ([Crypto]); [CryptoLaws] is what their documentation promises.  Random values
    (nonces, salts, generated passwords) are arguments. *)

From S2P Require Import Prelude Nacl TermBuffer.

Notation text := (list byte).

Class Crypto : Type := {
  sha256 : list byte -> list byte;
  b64_encode : list byte -> text;
  b64_decode : text -> option (list byte);
  crypto_secretbox :: SecretBox
}.

Class CryptoLaws `{Crypto} : Prop := {
  sha256_len d : len (sha256 d) = 32;
  b64_decode_encode d : b64_decode (b64_encode d) = Some d;
  b64_encode_ascii d : Forall (fun b => u8_to_Z b < 128) (b64_encode d);
  (** Four characters for every three bytes begun. *)
  b64_encode_len d : len d <= len (b64_encode d) <= 2 * len d + 2;
  crypto_secretbox_laws :: SecretBoxLaws
}.

(** ** Texts *)

Definition v00 : text := [x30; x30].
Definition v01 : text := [x30; x31].

Fixpoint strip_prefix (p s : text) : option text :=
  match p, s with
  | [], _ => Some s
  | a :: p, b :: s => if Byte.eqb a b then strip_prefix p s else None
  | _ :: _, [] => None
  end.

Definition starts_with (s p : text) : bool := bool_decide (is_Some (strip_prefix p s)).

(** [s.chars().count()]: every byte but the continuation bytes starts a character. *)
Definition char_count (s : text) : Z :=
  len (filter (fun b => Is_true (negb (in_range b 0x80 0xBF))) s).

(** [String::from_utf8_lossy]: every maximal piece of an ill-formed sequence becomes
    one replacement character. *)
Definition REPLACEMENT : text := [xef; xbf; xbd].

Definition second_of_3 (a b : byte) : bool :=
  (in_range a 0xE0 0xE0 && in_range b 0xA0 0xBF)
  || (in_range a 0xE1 0xEC && in_range b 0x80 0xBF)
  || (in_range a 0xED 0xED && in_range b 0x80 0x9F)
  || (in_range a 0xEE 0xEF && in_range b 0x80 0xBF).

Definition second_of_4 (a b : byte) : bool :=
  (in_range a 0xF0 0xF0 && in_range b 0x90 0xBF)
  || (in_range a 0xF1 0xF3 && in_range b 0x80 0xBF)
  || (in_range a 0xF4 0xF4 && in_range b 0x80 0x8F).

Definition cont (b : byte) : bool := in_range b 0x80 0xBF.

Fixpoint from_utf8_lossy (l : list byte) : text :=
  match l with
  | [] => []
  | a :: t =>
      if in_range a 0 0x7F then a :: from_utf8_lossy t
      else match t with
           | [] => REPLACEMENT
           | b :: t1 =>
               if seq2 a b then a :: b :: from_utf8_lossy t1
               else if second_of_3 a b then
                 match t1 with
                 | [] => REPLACEMENT
                 | c :: t2 =>
                     if cont c then a :: b :: c :: from_utf8_lossy t2
                     else REPLACEMENT ++ from_utf8_lossy t1
                 end
               else if second_of_4 a b then
                 match t1 with
                 | [] => REPLACEMENT
                 | c :: t2 =>
                     if cont c then
                       match t2 with
                       | [] => REPLACEMENT
                       | d :: t3 =>
                           if cont d then a :: b :: c :: d :: from_utf8_lossy t3
                           else REPLACEMENT ++ from_utf8_lossy t2
                       end
                     else REPLACEMENT ++ from_utf8_lossy t1
                 end
               else REPLACEMENT ++ from_utf8_lossy t
           end
  end.

(** ** Encryption of stored values (password_security.rs) *)

(** The machine's identifier, and the public key of an existing key pair. *)
Record Machine : Type := mkMachine { uuid : list byte; existing_pk : option (list byte) }.

Definition FORMAT_V1 : byte := x01.
Definition VERSION_LEN : Z := 2.

(** [keybuf.resize(KEYBYTES, 0)]. *)
Definition key_of (l : list byte) : list byte :=
  take (Z.to_nat KEYBYTES) (l ++ replicate (Z.to_nat KEYBYTES) x00).

Definition legacy_nonce : list byte := replicate (Z.to_nat NONCEBYTES) x00.

Section Crypto.
Context `{Crypto}.

Definition open_secretbox_payload (data key : list byte) : option (list byte) :=
  let v1 :=
    if bool_decide (head data = Some FORMAT_V1) && (1 + NONCEBYTES + MACBYTES <=? len data)
    then let rest := tail data in
         unseal (drop (Z.to_nat NONCEBYTES) rest) (take (Z.to_nat NONCEBYTES) rest) key
    else None in
  match v1 with
  | Some d => Some d
  | None => unseal data legacy_nonce key
  end.

Definition symmetric_encrypt (m : Machine) (nonce data : list byte) : list byte :=
  FORMAT_V1 :: nonce ++ seal data nonce (key_of (uuid m)).

Definition symmetric_decrypt (m : Machine) (data : list byte) : option (list byte) :=
  match open_secretbox_payload data (key_of (uuid m)) with
  | Some d => Some d
  | None =>
      match existing_pk m with
      | Some pk =>
          if bool_decide (pk = uuid m) then None
          else open_secretbox_payload data (key_of pk)
      | None => None
      end
  end.

Definition is_encrypted (v : text) : bool :=
  if (len v <=? VERSION_LEN) || negb (starts_with v v00) then false
  else match b64_decode (drop 2 v) with
       | Some decoded => MACBYTES <=? len decoded
       | None => false
       end.

Definition encrypt (m : Machine) (nonce v : list byte) : option text :=
  if is_empty v then None else Some (b64_encode (symmetric_encrypt m nonce v)).

Definition decrypt (m : Machine) (v : text) : option (list byte) :=
  if is_empty v then None
  else match b64_decode v with Some d => symmetric_decrypt m d | None => None end.

Definition encrypt_str_or_original (m : Machine) (nonce : list byte) (s version : text)
    (max_len : Z) : text :=
  if is_encrypted s then s
  else if max_len <? char_count s then []
  else if bool_decide (version = v00) then
    match encrypt m nonce s with Some e => version ++ e | None => s end
  else s.

Definition decrypt_str_or_original (m : Machine) (s current_version : text)
  : text * bool * bool :=
  let original := (s, false, negb (is_empty s) && negb (is_encrypted s)) in
  if (VERSION_LEN <? len s) && starts_with s v00 then
    match decrypt m (drop 2 s) with
    | Some v => (from_utf8_lossy v, true, negb (bool_decide (v00 = current_version)))
    | None => original
    end
  else original.

Definition encrypt_vec_or_original (m : Machine) (nonce v version : list byte) (max_len : Z)
  : list byte :=
  if is_encrypted v then v
  else if max_len <? len v then []
  else if bool_decide (version = v00) then
    match encrypt m nonce v with Some e => version ++ e | None => v end
  else v.

Definition decrypt_vec_or_original (m : Machine) (v current_version : list byte)
  : list byte * bool * bool :=
  let original := (v, false, negb (is_empty v) && negb (is_encrypted v)) in
  if VERSION_LEN <? len v then
    let version := from_utf8_lossy (take 2 v) in
    if bool_decide (version = v00) then
      match decrypt m (drop 2 v) with
      | Some d => (d, true, negb (bool_decide (version = current_version)))
      | None => original
      end
    else original
  else original.

(** ** The permanent password (config/permanent_password.rs) *)

Definition PASSWORD_ENC_VERSION : text := v00.
Definition PERMANENT_PASSWORD_ENC_VERSION : text := v01.
Definition PERMANENT_PASSWORD_HASH_PREFIX : text := v00.
Definition HBBS_PRESET_PASSWORD_HASH_PREFIX : text := v00.
Definition PERMANENT_PASSWORD_H1_LEN : Z := 32.
Definition DEFAULT_SALT_LEN : Z := 32.
Definition ENCRYPT_MAX_LEN : Z := 128.

Definition compute_permanent_password_h1 (password salt : text) : list byte :=
  sha256 (password ++ salt).

Definition encode_permanent_password_storage_from_h1 (h1 : list byte) : text :=
  PERMANENT_PASSWORD_HASH_PREFIX ++ b64_encode h1.

Definition encrypt_permanent_password_storage (m : Machine) (nonce : list byte) (storage : text)
  : option text :=
  if ENCRYPT_MAX_LEN <? char_count storage then None
  else Some (PERMANENT_PASSWORD_ENC_VERSION ++ b64_encode (symmetric_encrypt m nonce storage)).

Definition encode_permanent_password_encrypted_storage_from_h1 (m : Machine) (nonce h1 : list byte)
  : option text :=
  encrypt_permanent_password_storage m nonce (encode_permanent_password_storage_from_h1 h1).

Definition decode_password_h1_after_prefix (storage prefix : text) : option (list byte) :=
  match strip_prefix prefix storage with
  | None => None
  | Some encoded =>
      match b64_decode encoded with
      | None => None
      | Some v => if len v =? PERMANENT_PASSWORD_H1_LEN then Some v else None
      end
  end.

Definition decode_permanent_password_h1_from_hashed_storage (storage : text) : option (list byte) :=
  decode_password_h1_after_prefix storage PERMANENT_PASSWORD_HASH_PREFIX.

Definition decrypt_permanent_password_str_or_original (m : Machine) (storage : text)
  : text * bool * bool :=
  let original := (storage, false, negb (is_empty storage)) in
  if (VERSION_LEN <? len storage) && starts_with storage PERMANENT_PASSWORD_ENC_VERSION then
    match b64_decode (drop 2 storage) with
    | Some decoded =>
        match symmetric_decrypt m decoded with
        | Some v => (from_utf8_lossy v, true, false)
        | None => original
        end
    | None => original
    end
  else original.

Definition decode_permanent_password_h1_from_storage (m : Machine) (storage : text)
  : option (list byte) :=
  if starts_with storage PERMANENT_PASSWORD_ENC_VERSION then
    let '(hashed_storage, decrypted, _) := decrypt_permanent_password_str_or_original m storage in
    if negb decrypted then None
    else decode_permanent_password_h1_from_hashed_storage hashed_storage
  else None.

Definition local_permanent_password_storage_is_usable_for_auth (m : Machine) (storage salt : text)
  : bool :=
  if is_empty storage then false
  else match decode_permanent_password_h1_from_storage m storage with
  | Some _ => negb (is_empty salt)
  | None =>
      if starts_with storage PERMANENT_PASSWORD_ENC_VERSION
         && snd (fst (decrypt_permanent_password_str_or_original m storage))
      then false
      else
        let '(_, decrypted, looks_like_plaintext) :=
          decrypt_str_or_original m storage PASSWORD_ENC_VERSION in
        if starts_with storage PASSWORD_ENC_VERSION && negb decrypted
           && negb looks_like_plaintext
        then false else true
  end.

Definition decode_preset_password_h1_from_storage (storage : text) : option (list byte) :=
  decode_password_h1_after_prefix storage HBBS_PRESET_PASSWORD_HASH_PREFIX.

Definition preset_permanent_password_storage_is_usable_for_auth (storage salt : text) : bool :=
  if is_empty storage then false
  else if is_empty salt then true
  else bool_decide (is_Some (decode_preset_password_h1_from_storage storage)).

(** [constant_time_eq_32] is equality. *)
Definition preset_permanent_password_storage_matches_plain (storage salt input : text) : bool :=
  if is_empty storage || is_empty input then false
  else if is_empty salt then bool_decide (storage = input)
  else match decode_preset_password_h1_from_storage storage with
       | None => false
       | Some stored_h1 =>
           bool_decide (compute_permanent_password_h1 input salt = stored_h1)
       end.

Definition password_is_empty_or_not_hashed (m : Machine) (storage : text) : bool :=
  if is_empty storage then true
  else match decode_permanent_password_h1_from_storage m storage with
  | Some _ => false
  | None =>
      if starts_with storage PERMANENT_PASSWORD_ENC_VERSION then false
      else
        let '(_, decrypted, looks_like_plaintext) :=
          decrypt_str_or_original m storage PASSWORD_ENC_VERSION in
        decrypted || looks_like_plaintext
  end.

(** ** The configuration (config.rs) *)

(** What the configuration holds of the permanent password, and the preset one that
    the installation may bring. *)
Record Config : Type := mkConfig {
  cfg_password : text; cfg_salt : text;
  preset_storage : text; preset_salt : text;
  disable_change : bool;
  verification_option : string; approve_option : string;
  temporary_password : text }.

Definition with_password (p s : text) (c : Config) : Config :=
  mkConfig p s (preset_storage c) (preset_salt c) (disable_change c)
    (verification_option c) (approve_option c) (temporary_password c).

Definition with_temporary (t : text) (c : Config) : Config :=
  mkConfig (cfg_password c) (cfg_salt c) (preset_storage c) (preset_salt c) (disable_change c)
    (verification_option c) (approve_option c) t.

Inductive VerificationMethod : Type :=
| OnlyUseTemporaryPassword | OnlyUsePermanentPassword | UseBothPasswords.
Inductive ApproveMode : Type := Both | Password | Click.

#[local] Instance verification_eq_dec : EqDecision VerificationMethod.
Proof. solve_decision. Defined.

Definition verification_method (c : Config) : VerificationMethod :=
  if bool_decide (verification_option c = "use-temporary-password"%string)
  then OnlyUseTemporaryPassword
  else if bool_decide (verification_option c = "use-permanent-password"%string)
  then OnlyUsePermanentPassword
  else UseBothPasswords.

Definition temporary_enabled (c : Config) : bool :=
  negb (bool_decide (verification_method c = OnlyUsePermanentPassword)).
Definition permanent_enabled (c : Config) : bool :=
  negb (bool_decide (verification_method c = OnlyUseTemporaryPassword)).

Definition approve_mode (c : Config) : ApproveMode :=
  if bool_decide (approve_option c = "password"%string) then Password
  else if bool_decide (approve_option c = "click"%string) then Click
  else Both.

Definition has_permanent_password (m : Machine) (c : Config) : bool :=
  if negb (is_empty (cfg_password c)) then
    local_permanent_password_storage_is_usable_for_auth m (cfg_password c) (cfg_salt c)
  else preset_permanent_password_storage_is_usable_for_auth (preset_storage c) (preset_salt c).

Definition has_valid_password (m : Machine) (c : Config) : bool :=
  (temporary_enabled c && negb (is_empty (temporary_password c)))
  || (permanent_enabled c && has_permanent_password m c).

Definition set_salt (m : Machine) (salt : text) (c : Config) : Config :=
  if bool_decide (salt = cfg_salt c) then c
  else if negb (password_is_empty_or_not_hashed m (cfg_password c))
          && negb (is_empty (cfg_salt c))
  then c
  else with_password (cfg_password c) salt c.

(** [fresh] is the salt generated when there is none. *)
Definition get_salt (m : Machine) (fresh : text) (c : Config) : text * Config :=
  if is_empty (cfg_salt c) then (fresh, set_salt m fresh c) else (cfg_salt c, c).

Definition get_effective_permanent_password_salt (m : Machine) (fresh : text) (c : Config)
  : text * Config :=
  if negb (is_empty (cfg_password c)) then
    if local_permanent_password_storage_is_usable_for_auth m (cfg_password c) (cfg_salt c)
    then get_salt m fresh c
    else ([], c)
  else if negb (is_empty (preset_salt c)) then
    if preset_permanent_password_storage_is_usable_for_auth (preset_storage c) (preset_salt c)
    then (preset_salt c, c)
    else ([], c)
  else get_salt m fresh c.

Definition ensure_permanent_password_salt (fresh : text) (c : Config) : Config :=
  if is_empty (cfg_salt c) then with_password (cfg_password c) fresh c else c.

Definition compute_permanent_password_storage_for_update (m : Machine) (nonce fresh password : text)
    (c : Config) : option text * Config :=
  let c := ensure_permanent_password_salt fresh c in
  let h1 := compute_permanent_password_h1 password (cfg_salt c) in
  (encode_permanent_password_encrypted_storage_from_h1 m nonce h1, c).

Definition set_permanent_password (m : Machine) (nonce fresh password : text) (c : Config)
  : bool * Config :=
  if disable_change c then (false, c)
  else if preset_permanent_password_storage_matches_plain (preset_storage c) (preset_salt c) password
          && is_empty (cfg_password c)
  then (true, c)
  else
    let '(stored, c) :=
      if is_empty password then (Some [], c)
      else compute_permanent_password_storage_for_update m nonce fresh password c in
    match stored with
    | None => (false, c)
    | Some stored =>
        if bool_decide (stored = cfg_password c) then (true, c)
        else (true, with_password stored (cfg_salt c) c)
    end.

Definition apply_permanent_password_storage_for_sync (m : Machine) (storage salt : text)
    (c : Config) : result string bool * Config :=
  if is_empty storage then
    if is_empty (cfg_password c) && (is_empty salt || bool_decide (cfg_salt c = salt))
    then (Ok false, c)
    else (Ok true, with_password [] (if is_empty salt then cfg_salt c else salt) c)
  else if is_empty salt then
    (Err "Refusing to persist permanent password storage without salt"%string, c)
  else match decode_permanent_password_h1_from_storage m storage with
  | None => (Err "Invalid permanent password storage sync payload"%string, c)
  | Some _ =>
      if bool_decide (cfg_password c = storage) && bool_decide (cfg_salt c = salt)
      then (Ok false, c)
      else (Ok true, with_password storage salt c)
  end.

Definition validate_or_decrypt_permanent_password_storage (m : Machine) (c : Config)
  : result string unit * Config :=
  let pw := cfg_password c in
  if is_empty pw then (Ok tt, c)
  else if starts_with pw PASSWORD_ENC_VERSION then
    let '(plain, decrypted, should_store) := decrypt_str_or_original m pw PASSWORD_ENC_VERSION in
    if decrypted then (Ok tt, with_password plain (cfg_salt c) c)
    else if negb should_store then
      (Err "Invalid permanent password encrypted hash storage"%string, c)
    else (Ok tt, c)
  else
    let '(decrypted_storage, decrypted, _) := decrypt_permanent_password_str_or_original m pw in
    if decrypted then
      if is_empty (cfg_salt c) then
        (Err "Permanent password hash storage requires a non-empty salt"%string, c)
      else match decode_permanent_password_h1_from_hashed_storage decrypted_storage with
           | Some _ => (Ok tt, c)
           | None => (Err "Invalid permanent password encrypted hash storage"%string, c)
           end
    else (Ok tt, c).

Definition prepare_config_for_store (m : Machine) (c : Config) : Config :=
  match validate_or_decrypt_permanent_password_storage m c with
  | (Ok _, c) => c
  | (Err _, c) => with_password [] [] c
  end.

Definition keep_encrypted_storage_if_plaintext_unchanged (m : Machine) (nonce plain stored : text)
  : text :=
  let '(stored_plain, encrypted, _) := decrypt_str_or_original m stored PASSWORD_ENC_VERSION in
  if encrypted && bool_decide (stored_plain = plain) then stored
  else encrypt_str_or_original m nonce plain PASSWORD_ENC_VERSION ENCRYPT_MAX_LEN.

(** What [Config::store] writes for the password; [stored] is what the file had. *)
Definition store (m : Machine) (nonce : text) (c : Config) (stored : text) : Config :=
  let c := prepare_config_for_store m c in
  if negb (is_empty (cfg_password c))
     && bool_decide (decode_permanent_password_h1_from_storage m (cfg_password c) = None)
  then with_password
         (keep_encrypted_storage_if_plaintext_unchanged m nonce (cfg_password c) stored)
         (cfg_salt c) c
  else c.

(** The password after [Config::load]: an error is logged. *)
Definition load (m : Machine) (c : Config) : Config :=
  snd (validate_or_decrypt_permanent_password_storage m c).

(** ** Checking a presented password (connection.rs) *)

(** What the host sends before the login. *)
Record HashMsg : Type := mkHash { hash_salt : text; hash_challenge : text }.

(** [constant_time_eq] is equality. *)
Definition verify_h1 (h : HashMsg) (reply h1 : list byte) : bool :=
  bool_decide (sha256 (h1 ++ hash_challenge h) = reply).

Definition validate_password_plain (h : HashMsg) (reply : list byte) (password : text) : bool :=
  if is_empty password then false
  else verify_h1 h reply (sha256 (password ++ hash_salt h)).

Definition validate_password_storage (m : Machine) (h : HashMsg) (reply : list byte)
    (storage : text) : bool :=
  if is_empty storage then false
  else match decode_permanent_password_h1_from_storage m storage with
  | Some h1 => verify_h1 h reply h1
  | None => validate_password_plain h reply storage
  end.

Definition validate_preset_password_storage (h : HashMsg) (reply : list byte)
    (storage salt : text) : bool :=
  if is_empty salt then validate_password_plain h reply storage
  else match decode_preset_password_h1_from_storage storage with
  | None => false
  | Some h1 => verify_h1 h reply h1
  end.

(** By which password a peer was let in. *)
Inductive PrimaryAuth : Type := NoAuth | ByClick | ByTemporary | ByPermanent | BySwitchSides.

#[global] Instance primary_auth_eq_dec : EqDecision PrimaryAuth.
Proof. solve_decision. Defined.

Definition validate_password (m : Machine) (c : Config) (h : HashMsg) (reply : list byte)
    (allow_permanent_password : bool) : option PrimaryAuth :=
  if temporary_enabled c && validate_password_plain h reply (temporary_password c)
  then Some ByTemporary
  else if permanent_enabled c || allow_permanent_password then
    if negb (is_empty (cfg_password c)) then
      if local_permanent_password_storage_is_usable_for_auth m (cfg_password c) (cfg_salt c)
         && validate_password_storage m h reply (cfg_password c)
      then Some ByPermanent else None
    else
      if preset_permanent_password_storage_is_usable_for_auth (preset_storage c) (preset_salt c)
         && validate_preset_password_storage h reply (preset_storage c) (preset_salt c)
      then Some ByPermanent else None
  else None.
End Crypto.

Definition MAX_CONSECUTIVE_FAILURES : Z := 10.

(** The failures counted against the current temporary password. *)
Record TempFailures : Type := mkTempFailures { tf_password : text; tf_failures : Z }.

(** [fresh] is the password generated when the current one is replaced. *)
Definition check_update_temporary_password (fresh : text) (temporary_password_success : bool)
    (s : TempFailures) (c : Config) : TempFailures * Config :=
  if negb (temporary_enabled c) then (s, c)
  else
    let current_password := temporary_password c in
    if is_empty current_password then (s, c)
    else
      let s := if bool_decide (tf_password s = current_password) then s
               else mkTempFailures current_password 0 in
      if temporary_password_success then (mkTempFailures (tf_password s) 0, c)
      else
        let failures := tf_failures s + 1 in
        if failures <? MAX_CONSECUTIVE_FAILURES
        then (mkTempFailures (tf_password s) failures, c)
        else (mkTempFailures fresh 0, with_temporary fresh c).

(** The client's answer (src/client.rs, [handle_login_from_ui]): the hash of the
    password and the salt, hashed with the challenge. *)
Definition client_reply `{Crypto} (h : HashMsg) (password : text) : list byte :=
  sha256 (sha256 (password ++ hash_salt h) ++ hash_challenge h).

(** ** Texts *)

Lemma strip_prefix_app p s : strip_prefix p (p ++ s) = Some s.
Proof. induction p as [|a p IH]; cbn; [done|]. by rewrite (Byte.byte_dec_lb eq_refl). Qed.

Lemma strip_prefix_Some p s r : strip_prefix p s = Some r -> s = p ++ r.
Proof.
  revert s. induction p as [|a p IH]; intros [|b s]; cbn; intros E; try congruence.
  destruct (Byte.eqb a b) eqn:Hab; [|done]. apply Byte.byte_dec_bl in Hab as ->.
  by rewrite (IH _ E).
Qed.

Lemma starts_with_app p s : starts_with (p ++ s) p = true.
Proof. unfold starts_with. rewrite strip_prefix_app. apply bool_decide_eq_true_2; eauto. Qed.

Lemma starts_with_inv s p : starts_with s p = true -> exists r, s = p ++ r.
Proof. intros [r E]%bool_decide_eq_true_1. exists r. by apply strip_prefix_Some. Qed.

Lemma is_empty_true {A} (l : list A) : is_empty l = true <-> l = [].
Proof. by destruct l. Qed.

Lemma is_empty_false {A} (l : list A) : is_empty l = false <-> l <> [].
Proof. by destruct l. Qed.

Lemma lossy_valid l : utf8_valid l = true -> from_utf8_lossy l = l.
Proof.
  remember (length l) as n eqn:Hn. revert l Hn.
  induction n as [n IH] using lt_wf_ind; intros l -> Hv.
  destruct l as [|a t]; [done|]. cbn [utf8_valid from_utf8_lossy] in *.
  destruct (in_range a 0 127).
  { f_equal. eapply IH; [| reflexivity | done]. cbn; lia. }
  destruct t as [|b t1]; [done|].
  destruct (seq2 a b).
  { do 2 f_equal. eapply IH; [| reflexivity | done]. cbn; lia. }
  destruct t1 as [|c t2]; [done|].
  destruct (seq3 a b c) eqn:H3.
  { unfold seq3 in H3. apply andb_true_iff in H3 as [H3 Hc].
    unfold second_of_3, cont. rewrite H3, Hc. do 3 f_equal.
    eapply IH; [| reflexivity | done]. cbn; lia. }
  destruct t2 as [|d t3]; [done|]. apply andb_true_iff in Hv as [H4 Hv].
  unfold seq4 in H4. apply andb_true_iff in H4 as [H4 Hd].
  apply andb_true_iff in H4 as [H4 Hc].
  assert (second_of_3 a b = false) as ->.
  { unfold seq3 in H3. unfold second_of_3. rewrite Hc, andb_true_r in H3. done. }
  unfold second_of_4, cont. rewrite H4, Hc, Hd. do 4 f_equal.
  eapply IH; [| reflexivity | done]. cbn; lia.
Qed.

Lemma ascii_valid l : Forall (fun b => u8_to_Z b < 128) l -> utf8_valid l = true.
Proof.
  induction 1 as [|b l Hb _ IH]; [done|]. cbn [utf8_valid].
  assert (in_range b 0 127 = true) as ->; [|done].
  unfold in_range. pose proof (u8_range b). apply andb_true_intro; split; lia.
Qed.

Lemma char_count_le s : char_count s <= len s.
Proof. unfold char_count, len. pose proof (length_filter (fun b => Is_true (negb (in_range b 128 191))) s). lia. Qed.

(** ** Encrypting and decrypting *)

Section Laws.
Context `{CryptoLaws}.

Lemma open_v1 d nonce key :
  len nonce = NONCEBYTES ->
  open_secretbox_payload (FORMAT_V1 :: nonce ++ seal d nonce key) key = Some d.
Proof.
  intros Hn. unfold open_secretbox_payload. cbn [head tail].
  rewrite bool_decide_true by done.
  assert (Z.to_nat NONCEBYTES = length nonce) as -> by (unfold len in Hn; lia).
  rewrite take_app_length, drop_app_length, unseal_seal.
  destruct (Z.leb_spec (1 + NONCEBYTES + MACBYTES) (len (FORMAT_V1 :: nonce ++ seal d nonce key)))
    as [_|Hl]; [done|].
  rewrite len_cons, len_app, seal_len in Hl. pose proof (len_nonneg d). lia.
Qed.

Lemma symmetric_roundtrip m nonce d :
  len nonce = NONCEBYTES -> symmetric_decrypt m (symmetric_encrypt m nonce d) = Some d.
Proof. intros Hn. unfold symmetric_decrypt, symmetric_encrypt. by rewrite open_v1. Qed.

(** A version prefix and an encoding of something. *)
Lemma encoded_long v d :
  len v = 2 -> d <> [] -> (VERSION_LEN <? len (v ++ b64_encode d)) = true.
Proof.
  intros Hv Hd. pose proof (b64_encode_len d). apply Z.ltb_lt.
  rewrite len_app, Hv. unfold VERSION_LEN. destruct d; [done|]. rewrite len_cons in *.
  pose proof (len_nonneg d). lia.
Qed.

Lemma encoded_nonempty m nonce p : is_empty (b64_encode (symmetric_encrypt m nonce p)) = false.
Proof.
  pose proof (b64_encode_len (symmetric_encrypt m nonce p)) as Hb.
  apply is_empty_false. intros E. rewrite E in Hb. unfold symmetric_encrypt in Hb.
  rewrite len_cons in Hb. change (len (@nil byte)) with 0 in Hb.
  pose proof (len_nonneg (nonce ++ seal p nonce (key_of (uuid m)))). lia.
Qed.

Lemma decrypt_permanent_encrypted m nonce d :
  len nonce = NONCEBYTES ->
  decrypt_permanent_password_str_or_original m (v01 ++ b64_encode (symmetric_encrypt m nonce d))
  = (from_utf8_lossy d, true, false).
Proof.
  intros Hn. unfold decrypt_permanent_password_str_or_original, PERMANENT_PASSWORD_ENC_VERSION.
  rewrite starts_with_app, encoded_long by done.
  change (drop 2 (v01 ++ ?x)) with x. cbn [andb].
  by rewrite b64_decode_encode, symmetric_roundtrip.
Qed.

Lemma hashed_storage_ascii h1 :
  Forall (fun b => u8_to_Z b < 128) (encode_permanent_password_storage_from_h1 h1).
Proof.
  unfold encode_permanent_password_storage_from_h1.
  apply Forall_app; split; [|apply b64_encode_ascii]. by repeat constructor.
Qed.

Lemma decode_hashed_encode h1 :
  len h1 = 32 ->
  decode_permanent_password_h1_from_hashed_storage (encode_permanent_password_storage_from_h1 h1)
  = Some h1.
Proof.
  intros Hl. unfold decode_permanent_password_h1_from_hashed_storage,
    decode_password_h1_after_prefix, encode_permanent_password_storage_from_h1.
  by rewrite strip_prefix_app, b64_decode_encode, Hl.
Qed.

(** A hash can be stored, and comes back. *)
Lemma decode_encode_h1 m nonce h1 :
  len nonce = NONCEBYTES -> len h1 = 32 ->
  exists s, encode_permanent_password_encrypted_storage_from_h1 m nonce h1 = Some (v01 ++ s)
            /\ decode_permanent_password_h1_from_storage m (v01 ++ s) = Some h1.
Proof.
  intros Hn Hl. unfold encode_permanent_password_encrypted_storage_from_h1,
    encrypt_permanent_password_storage.
  set (st := encode_permanent_password_storage_from_h1 h1).
  assert ((ENCRYPT_MAX_LEN <? char_count st) = false) as ->.
  { apply Z.ltb_ge. etransitivity; [apply char_count_le|].
    subst st. unfold encode_permanent_password_storage_from_h1, ENCRYPT_MAX_LEN.
    rewrite len_app. pose proof (b64_encode_len h1). change (len PERMANENT_PASSWORD_HASH_PREFIX) with 2.
    lia. }
  eexists; split; [reflexivity|].
  unfold decode_permanent_password_h1_from_storage.
  rewrite starts_with_app, decrypt_permanent_encrypted by done. cbn [negb].
  subst st. by rewrite lossy_valid, decode_hashed_encode by (apply ascii_valid, hashed_storage_ascii || done).
Qed.

(** *** Setting a password and logging in with it *)

Lemma verify_h1_own h h1 : verify_h1 h (sha256 (h1 ++ hash_challenge h)) h1 = true.
Proof. by apply bool_decide_eq_true_2. Qed.

(** What a successful update leaves: a decodable hash under a salt, or the unchanged
    preset password. *)
Lemma set_permanent_password_ok m nonce fresh pw c c' :
  len nonce = NONCEBYTES -> fresh <> [] -> pw <> [] ->
  set_permanent_password m nonce fresh pw c = (true, c') ->
  (cfg_password c' <> [] /\ cfg_salt c' <> [] /\ verification_option c' = verification_option c
   /\ decode_permanent_password_h1_from_storage m (cfg_password c')
      = Some (sha256 (pw ++ cfg_salt c')))
  \/ (c' = c /\ cfg_password c = []
      /\ preset_permanent_password_storage_matches_plain (preset_storage c) (preset_salt c) pw
         = true).
Proof.
  intros Hn Hf Hp. unfold set_permanent_password. destruct (disable_change c); [done|].
  destruct (_ && is_empty (cfg_password c)) eqn:E.
  { intros [= <-]. apply andb_true_iff in E as [E1 E2%is_empty_true]. auto. }
  apply is_empty_false in Hp. rewrite Hp.
  unfold compute_permanent_password_storage_for_update.
  set (c1 := ensure_permanent_password_salt fresh c).
  assert (Hs : cfg_salt c1 <> [] /\ verification_option c1 = verification_option c).
  { subst c1. unfold ensure_permanent_password_salt.
    destruct (is_empty (cfg_salt c)) eqn:Es; cbn; [done|]. by apply is_empty_false in Es. }
  destruct (decode_encode_h1 m nonce (compute_permanent_password_h1 pw (cfg_salt c1)))
    as (s & -> & Hd); [done|apply sha256_len|].
  intros E2. left. case_bool_decide as Eq.
  - injection E2 as <-. rewrite <- Eq. split_and!; [done|apply Hs..|done].
  - injection E2 as <-. cbn. split_and!; [done|apply Hs..|done].
Qed.

Lemma local_usable m c h1 :
  cfg_password c <> [] -> cfg_salt c <> [] ->
  decode_permanent_password_h1_from_storage m (cfg_password c) = Some h1 ->
  local_permanent_password_storage_is_usable_for_auth m (cfg_password c) (cfg_salt c) = true.
Proof.
  intros Hp%is_empty_false Hs%is_empty_false Hd.
  unfold local_permanent_password_storage_is_usable_for_auth. by rewrite Hp, Hd, Hs.
Qed.

(** A preset password that matches is accepted. *)
Lemma preset_accepted m c fresh challenge pw :
  cfg_password c = [] ->
  preset_permanent_password_storage_matches_plain (preset_storage c) (preset_salt c) pw = true ->
  let h := mkHash (fst (get_effective_permanent_password_salt m fresh c)) challenge in
  preset_permanent_password_storage_is_usable_for_auth (preset_storage c) (preset_salt c) = true
  /\ validate_preset_password_storage h (client_reply h pw) (preset_storage c) (preset_salt c)
     = true.
Proof.
  intros Hc Hm h. unfold preset_permanent_password_storage_matches_plain in Hm.
  unfold preset_permanent_password_storage_is_usable_for_auth, validate_preset_password_storage.
  destruct (is_empty (preset_storage c)) eqn:Es; [done|].
  destruct (is_empty pw) eqn:Ep; [done|]. cbn in Hm.
  destruct (is_empty (preset_salt c)) eqn:Esl.
  { apply bool_decide_eq_true_1 in Hm as ->. split; [done|].
    unfold validate_password_plain. rewrite Ep. apply verify_h1_own. }
  destruct (decode_preset_password_h1_from_storage (preset_storage c)) as [h1|] eqn:Ed; [|done].
  apply bool_decide_eq_true_1 in Hm as <-. split; [by apply bool_decide_eq_true_2|].
  subst h. unfold get_effective_permanent_password_salt. rewrite Hc. cbn [is_empty negb].
  rewrite Esl. cbn [negb].
  unfold preset_permanent_password_storage_is_usable_for_auth. rewrite Es, Esl, Ed.
  rewrite bool_decide_true by eauto. apply verify_h1_own.
Qed.

(** The password set is the password that works: after [set_permanent_password] has
    accepted a password, a client that answers the challenge of a connection with that
    password is let in, if permanent passwords are allowed. *)
Lemma set_password_accepted m nonce fresh fresh' pw challenge c c' allow :
  len nonce = NONCEBYTES -> fresh <> [] -> pw <> [] ->
  set_permanent_password m nonce fresh pw c = (true, c') ->
  permanent_enabled c || allow = true ->
  let h := mkHash (fst (get_effective_permanent_password_salt m fresh' c')) challenge in
  is_Some (validate_password m c' h (client_reply h pw) allow).
Proof.
  intros Hn Hf Hp E Ha h. unfold validate_password.
  destruct (temporary_enabled c' && _); [eauto|].
  destruct (set_permanent_password_ok _ _ _ _ _ _ Hn Hf Hp E)
    as [(Hne & Hs & Hv & Hd)|(-> & Hc & Hm)].
  - assert (permanent_enabled c' || allow = true) as ->.
    { unfold permanent_enabled, verification_method in *. by rewrite Hv. }
    pose proof (local_usable _ _ _ Hne Hs Hd) as Hu.
    pose proof Hne as He. apply is_empty_false in He. rewrite He, Hu. cbn [negb andb].
    unfold validate_password_storage. rewrite He, Hd.
    subst h. unfold get_effective_permanent_password_salt. rewrite He, Hu. cbn [negb].
    unfold get_salt. apply is_empty_false in Hs. rewrite Hs. cbn [fst].
    unfold client_reply. cbn [hash_salt hash_challenge].
    unfold verify_h1. cbn [hash_challenge]. rewrite bool_decide_true by done. eauto.
  - rewrite Ha. rewrite Hc. cbn [is_empty negb].
    destruct (preset_accepted m c fresh' challenge pw Hc Hm) as [Hu Hv].
    subst h. rewrite Hu, Hv. eauto.
Qed.

(** *** The file *)

Lemma decrypt_encrypted m nonce p :
  len nonce = NONCEBYTES -> p <> [] -> utf8_valid p = true ->
  decrypt_str_or_original m (v00 ++ b64_encode (symmetric_encrypt m nonce p)) v00
  = (p, true, false).
Proof.
  intros Hn Hp Hv. unfold decrypt_str_or_original.
  rewrite encoded_long, starts_with_app by done. cbn [andb].
  change (drop 2 (v00 ++ ?x)) with x. unfold decrypt.
  rewrite encoded_nonempty.
  rewrite b64_decode_encode, symmetric_roundtrip, lossy_valid by done. done.
Qed.

(** A password kept in memory: a hash with its salt, or a text of an older version
    that does not look encrypted. *)
Definition good_password (m : Machine) (c : Config) : Prop :=
  (is_Some (decode_permanent_password_h1_from_storage m (cfg_password c)) /\ cfg_salt c <> [])
  \/ (cfg_password c <> [] /\ utf8_valid (cfg_password c) = true
      /\ char_count (cfg_password c) <= ENCRYPT_MAX_LEN
      /\ is_encrypted (cfg_password c) = false
      /\ snd (fst (decrypt_str_or_original m (cfg_password c) v00)) = false
      /\ snd (fst (decrypt_permanent_password_str_or_original m (cfg_password c))) = false).

Lemma starts_with_01_00 s : starts_with s v01 = true -> starts_with s v00 = false.
Proof. intros [r ->]%starts_with_inv. reflexivity. Qed.

Lemma hashed_validates m c :
  is_Some (decode_permanent_password_h1_from_storage m (cfg_password c)) -> cfg_salt c <> [] ->
  validate_or_decrypt_permanent_password_storage m c = (Ok tt, c).
Proof.
  intros [h1 Hd] Hs%is_empty_false. unfold validate_or_decrypt_permanent_password_storage.
  unfold decode_permanent_password_h1_from_storage in Hd.
  destruct (starts_with (cfg_password c) PERMANENT_PASSWORD_ENC_VERSION) eqn:E1; [|done].
  unfold PASSWORD_ENC_VERSION. rewrite (starts_with_01_00 _ E1).
  destruct (decrypt_permanent_password_str_or_original m (cfg_password c)) as [[d b] x].
  destruct b; [|done]. cbn [negb] in Hd. rewrite Hs, Hd.
  apply starts_with_inv in E1 as [r Er]. by rewrite Er.
Qed.

Lemma plain_not_hash m s :
  snd (fst (decrypt_permanent_password_str_or_original m s)) = false ->
  decode_permanent_password_h1_from_storage m s = None.
Proof.
  intros Hd. unfold decode_permanent_password_h1_from_storage.
  destruct (decrypt_permanent_password_str_or_original m s) as [[d b] x]. cbn in Hd. subst b.
  by destruct (starts_with s _).
Qed.

Lemma decrypt_str_failed m s d sh :
  decrypt_str_or_original m s v00 = (d, false, sh) ->
  d = s /\ sh = negb (is_empty s) && negb (is_encrypted s).
Proof. unfold decrypt_str_or_original. repeat case_match; intros; by simplify_eq. Qed.

Lemma plain_validates m c :
  cfg_password c <> [] -> is_encrypted (cfg_password c) = false ->
  snd (fst (decrypt_str_or_original m (cfg_password c) v00)) = false ->
  snd (fst (decrypt_permanent_password_str_or_original m (cfg_password c))) = false ->
  validate_or_decrypt_permanent_password_storage m c = (Ok tt, c).
Proof.
  intros Hp%is_empty_false He Hz Ho. unfold validate_or_decrypt_permanent_password_storage.
  rewrite Hp. unfold PASSWORD_ENC_VERSION.
  destruct (decrypt_str_or_original m (cfg_password c) v00) as [[d b] sh] eqn:E.
  cbn in Hz. subst b. apply decrypt_str_failed in E as [-> ->]. rewrite Hp, He.
  destruct (decrypt_permanent_password_str_or_original m (cfg_password c)) as [[d b] x].
  cbn in Ho. subst b. by destruct (starts_with (cfg_password c) v00).
Qed.

(** What is written for a text decrypts to the text. *)
Lemma kept_storage_decrypts m nonce p stored :
  len nonce = NONCEBYTES -> p <> [] -> utf8_valid p = true -> char_count p <= ENCRYPT_MAX_LEN ->
  is_encrypted p = false ->
  let s := keep_encrypted_storage_if_plaintext_unchanged m nonce p stored in
  exists sh, decrypt_str_or_original m s v00 = (p, true, sh) /\ starts_with s v00 = true.
Proof.
  intros Hn Hp Hv Hc He. unfold keep_encrypted_storage_if_plaintext_unchanged.
  unfold PASSWORD_ENC_VERSION.
  destruct (decrypt_str_or_original m stored v00) as [[d b] sh] eqn:E.
  destruct (b && bool_decide (d = p)) eqn:Eb.
  - apply andb_true_iff in Eb as [-> ->%bool_decide_eq_true_1]. exists sh. split; [done|].
    unfold decrypt_str_or_original in E. cbv zeta in E.
    destruct ((VERSION_LEN <? len stored) && starts_with stored v00) eqn:E2; [|by simplify_eq].
    by apply andb_true_iff in E2 as [_ E2].
  - unfold encrypt_str_or_original. rewrite He, bool_decide_true by done.
    destruct (Z.ltb_spec ENCRYPT_MAX_LEN (char_count p)); [lia|].
    unfold encrypt. pose proof Hp as Hp'. apply is_empty_false in Hp'. rewrite Hp'.
    rewrite decrypt_encrypted, starts_with_app by done. eauto.
Qed.

(** Storing the configuration and loading it gives the password back: the hash
    and its salt unchanged, a text of an older version decrypted again, whatever the
    file held before. *)
Theorem stored_password_survives m nonce c stored :
  len nonce = NONCEBYTES -> good_password m c ->
  load m (store m nonce c stored) = c.
Proof.
  intros Hn [[Hd Hs]|(Hp & Hv & Hc & He & Hz & Ho)]; unfold load, store, prepare_config_for_store.
  - rewrite (hashed_validates m c Hd Hs). pose proof Hd as [h1 E]. rewrite E.
    rewrite bool_decide_false, andb_false_r by done. by rewrite (hashed_validates m c Hd Hs).
  - rewrite (plain_validates m c) by done. rewrite plain_not_hash by done.
    pose proof Hp as Hp'. apply is_empty_false in Hp'. rewrite Hp'.
    rewrite bool_decide_true by done. cbn [negb andb].
    destruct (kept_storage_decrypts m nonce (cfg_password c) stored) as (sh & E & E0); [done..|].
    unfold validate_or_decrypt_permanent_password_storage. cbn [cfg_password with_password].
    unfold PASSWORD_ENC_VERSION. rewrite E0, E.
    destruct (starts_with_inv _ _ E0) as [r ->]. cbn. by destruct c.
Qed.

(** *** Only the password is accepted *)

Lemma verify_h1_true h reply h1 :
  verify_h1 h reply h1 = true -> reply = sha256 (h1 ++ hash_challenge h).
Proof. by intros <-%bool_decide_eq_true_1. Qed.

Lemma validate_plain_true h reply p :
  validate_password_plain h reply p = true -> p <> [] /\ reply = client_reply h p.
Proof.
  unfold validate_password_plain. destruct (is_empty p) eqn:E; [done|].
  intros ->%verify_h1_true. by apply is_empty_false in E.
Qed.

Lemma set_permanent_password_keeps m nonce fresh pw c b c' :
  set_permanent_password m nonce fresh pw c = (b, c') ->
  temporary_password c' = temporary_password c
  /\ verification_option c' = verification_option c
  /\ preset_storage c' = preset_storage c /\ preset_salt c' = preset_salt c.
Proof.
  unfold set_permanent_password, compute_permanent_password_storage_for_update,
    ensure_permanent_password_salt.
  repeat case_match; intros; simplify_eq; done.
Qed.

Lemma preset_only m c fresh challenge pw reply :
  cfg_password c = [] ->
  preset_permanent_password_storage_matches_plain (preset_storage c) (preset_salt c) pw = true ->
  let h := mkHash (fst (get_effective_permanent_password_salt m fresh c)) challenge in
  validate_preset_password_storage h reply (preset_storage c) (preset_salt c) = true ->
  reply = client_reply h pw.
Proof.
  intros Hc Hm h. unfold preset_permanent_password_storage_matches_plain in Hm.
  unfold validate_preset_password_storage.
  destruct (is_empty (preset_storage c)) eqn:Es; [done|].
  destruct (is_empty pw) eqn:Ep; [done|]. cbn in Hm.
  destruct (is_empty (preset_salt c)) eqn:Esl.
  { apply bool_decide_eq_true_1 in Hm as <-. by intros [_ ->]%validate_plain_true. }
  destruct (decode_preset_password_h1_from_storage (preset_storage c)) as [h1|] eqn:Ed; [|done].
  apply bool_decide_eq_true_1 in Hm as <-. intros ->%verify_h1_true.
  subst h. unfold get_effective_permanent_password_salt. rewrite Hc. cbn [is_empty negb].
  rewrite Esl. cbn [negb].
  unfold preset_permanent_password_storage_is_usable_for_auth. rewrite Es, Esl, Ed.
  by rewrite bool_decide_true by eauto.
Qed.


(** A hash that can no longer be decrypted is taken for a password of an older
    version: the stored text itself is accepted. *)
Lemma locked_storage_is_accepted m c challenge salt s :
  cfg_password c = v01 ++ s -> permanent_enabled c = true ->
  snd (fst (decrypt_permanent_password_str_or_original m (v01 ++ s))) = false ->
  let h := mkHash salt challenge in
  is_Some (validate_password m c h (client_reply h (v01 ++ s)) false).
Proof.
  intros Hc Hp Hd h. unfold validate_password. rewrite Hc, Hp.
  destruct (temporary_enabled c && _); [eauto|]. cbn [orb]. change (is_empty (v01 ++ s)) with false.
  cbn [negb]. assert (Hnd : decode_permanent_password_h1_from_storage m (v01 ++ s) = None)
    by (by apply plain_not_hash).
  assert (local_permanent_password_storage_is_usable_for_auth m (v01 ++ s) (cfg_salt c) = true) as ->.
  { unfold local_permanent_password_storage_is_usable_for_auth.
    change (is_empty (v01 ++ s)) with false. rewrite Hnd, Hd, andb_false_r.
    destruct (decrypt_str_or_original _ _ _) as [[? ?] ?]. reflexivity. }
  unfold validate_password_storage. change (is_empty (v01 ++ s)) with false. rewrite Hnd.
  unfold validate_password_plain. change (is_empty (v01 ++ s)) with false.
  unfold client_reply. rewrite verify_h1_own. cbn [andb]. eauto.
Qed.
End Laws.

(** ** The temporary password is replaced *)

(** Failed logins in a row; a list of the passwords that would be generated. *)
Fixpoint fail_logins (fresh : list text) (s : TempFailures) (c : Config) : TempFailures * Config :=
  match fresh with
  | [] => (s, c)
  | f :: fresh =>
      let '(s, c) := check_update_temporary_password f false s c in fail_logins fresh s c
  end.

(** The failures already counted against the current password. *)
Definition counted (s : TempFailures) (c : Config) : Z :=
  if bool_decide (tf_password s = temporary_password c) then tf_failures s else 0.

Lemma check_fail f s c :
  temporary_enabled c = true -> temporary_password c <> [] ->
  check_update_temporary_password f false s c
  = if counted s c + 1 <? MAX_CONSECUTIVE_FAILURES
    then (mkTempFailures (temporary_password c) (counted s c + 1), c)
    else (mkTempFailures f 0, with_temporary f c).
Proof.
  intros He Hp%is_empty_false. unfold check_update_temporary_password, counted.
  rewrite He, Hp. cbn [negb]. case_bool_decide as E; cbn; [by rewrite E|done].
Qed.

Lemma fail_logins_below fresh s c :
  temporary_enabled c = true -> temporary_password c <> [] -> 0 <= counted s c ->
  counted s c + len fresh < MAX_CONSECUTIVE_FAILURES ->
  snd (fail_logins fresh s c) = c /\ counted (fst (fail_logins fresh s c)) c = counted s c + len fresh.
Proof.
  intros He Hp. revert s. induction fresh as [|f fresh IH]; intros s Hc Hl.
  { cbn. change (len []) with 0. split; [done|lia]. }
  cbn [fail_logins]. rewrite check_fail by done. rewrite len_cons in *.
  pose proof (len_nonneg fresh).
  destruct (Z.ltb_spec (counted s c + 1) MAX_CONSECUTIVE_FAILURES); [|lia].
  assert (Ec : counted (mkTempFailures (temporary_password c) (counted s c + 1)) c = counted s c + 1).
  { unfold counted at 1. by rewrite bool_decide_true. }
  destruct (IH (mkTempFailures (temporary_password c) (counted s c + 1))) as [E1 E2];
    rewrite ?Ec; [lia..|]. split; [done|]. rewrite E2, Ec. lia.
Qed.

(** A temporary password lives through nine failed logins and not through ten:
    until then it does not change, and the tenth failure counted against it replaces
    it by a generated one and starts counting anew. *)
Theorem temporary_password_rotates fresh f s c :
  temporary_enabled c = true -> temporary_password c <> [] -> 0 <= counted s c ->
  counted s c + len fresh = MAX_CONSECUTIVE_FAILURES - 1 ->
  snd (fail_logins fresh s c) = c
  /\ fail_logins (fresh ++ [f]) s c = (mkTempFailures f 0, with_temporary f c).
Proof.
  intros He Hp Hc Hl.
  destruct (fail_logins_below fresh s c) as [E1 E2]; [done..|lia|]. split; [done|].
  assert (Happ : forall l s c, fail_logins (l ++ [f]) s c
     = let '(s, c) := fail_logins l s c in check_update_temporary_password f false s c).
  { clear. induction l as [|g l IH]; intros s c; cbn.
    - by destruct (check_update_temporary_password f false s c).
    - destruct (check_update_temporary_password g false s c). apply IH. }
  rewrite Happ. destruct (fail_logins fresh s c) as [s' c']. cbn in E1, E2. subst c'.
  rewrite check_fail by done. rewrite E2.
  destruct (Z.ltb_spec (counted s c + len fresh + 1) MAX_CONSECUTIVE_FAILURES); [lia|done].
Qed.

(** ** A concrete instance, for the witnesses *)

Fixpoint hex_encode (d : list byte) : text :=
  match d with
  | [] => []
  | b :: d => u8_of_Z (97 + u8_to_Z b / 16) :: u8_of_Z (97 + u8_to_Z b mod 16) :: hex_encode d
  end.

Fixpoint hex_decode (t : text) : option (list byte) :=
  match t with
  | [] => Some []
  | a :: b :: t =>
      match hex_decode t with
      | Some d => Some (u8_of_Z ((u8_to_Z a - 97) * 16 + (u8_to_Z b - 97)) :: d)
      | None => None
      end
  | _ => None
  end.

Definition toy_crypto : Crypto := {|
  sha256 d := take 32 (d ++ replicate 32 x00);
  b64_encode := hex_encode;
  b64_decode := hex_decode;
  crypto_secretbox := toy_secretbox
|}.

Lemma hex_nibbles b : 97 <= 97 + u8_to_Z b / 16 < 113 /\ 97 <= 97 + u8_to_Z b mod 16 < 113.
Proof. pose proof (u8_range b). zlia. Qed.

Lemma hex_decode_encode d : hex_decode (hex_encode d) = Some d.
Proof.
  induction d as [|b d IH]; [done|]. cbn [hex_encode hex_decode]. rewrite IH.
  pose proof (hex_nibbles b). do 2 f_equal. rewrite !u8_to_of_Z, !Z.mod_small by lia.
  rewrite <- (u8_of_to_Z b) at 3. f_equal. pose proof (u8_range b). zlia.
Qed.

Lemma hex_encode_len d : len (hex_encode d) = 2 * len d.
Proof. induction d as [|b d IH]; [done|]. cbn [hex_encode]. rewrite !len_cons. lia. Qed.

Lemma toy_laws : @CryptoLaws toy_crypto.
Proof.
  split; unfold sha256, b64_encode, b64_decode, crypto_secretbox, toy_crypto.
  - intros d. unfold len. rewrite length_take, length_app, length_replicate. lia.
  - apply hex_decode_encode.
  - intros d. induction d as [|b d IH]; [constructor|]. cbn [hex_encode].
    pose proof (hex_nibbles b).
    repeat (constructor; [rewrite u8_to_of_Z, Z.mod_small by lia; lia|]). done.
  - intros d. rewrite hex_encode_len. pose proof (len_nonneg d). lia.
  - apply toy_secretbox_laws.
Qed.

Definition ex_machine : Machine := mkMachine [x6d; x31] None.
Definition ex_other_machine : Machine := mkMachine [x6d; x32] None.
Definition ex_nonce : list byte := replicate 24 x07.
Definition ex_salt : text := [x73; x61; x6c; x74].
Definition ex_pw : text := [x70; x77].
Definition ex_config : Config :=
  mkConfig [] [] [] [] false "use-permanent-password" "" [].
Definition ex_set : bool * Config :=
  set_permanent_password (H := toy_crypto) ex_machine ex_nonce ex_salt ex_pw ex_config.
Definition ex_hash : HashMsg := mkHash ex_salt [x63; x68].


Lemma stored_password_survives_witness :
  load (H := toy_crypto) ex_machine (store (H := toy_crypto) ex_machine ex_nonce (snd ex_set) [])
  = snd ex_set.
Proof.
  apply (stored_password_survives (H := toy_crypto) (H0 := toy_laws)); [reflexivity|].
  left. split; [eexists; vm_compute; reflexivity | done].
Defined.

Lemma temporary_password_rotates_witness :
  let c := with_temporary ex_pw (mkConfig [] [] [] [] false "" "" []) in
  let s := mkTempFailures [] 0 in
  snd (fail_logins (replicate 9 ex_salt) s c) = c
  /\ fail_logins (replicate 9 ex_salt ++ [ex_salt]) s c
     = (mkTempFailures ex_salt 0, with_temporary ex_salt c).
Proof. apply temporary_password_rotates; (reflexivity || done). Defined.

(** With the storage of another machine (or after the identifier of this one has
    changed), the encrypted text in the configuration file logs in. *)
Lemma locked_storage_example :
  let c := snd ex_set in
  let h := mkHash ex_salt [x63; x68] in
  validate_password (H := toy_crypto) ex_other_machine c h
    (client_reply (H := toy_crypto) h (cfg_password c)) false = Some ByPermanent.
Proof. vm_compute. reflexivity. Qed.
