(* ===== verification/Hosts.v ===== *)
(** * Names of servers (libs/hbb_common/src/socket_client.rs, libs/hbb_common/src/lib.rs)

    A server is written as a host name or an IP address, with or without a port; an IPv6
    address with a port is in brackets. *)

From Stdlib Require Import Ascii.
From stdpp Require Import pretty.
From S2P Require Import Prelude.

Definition is_hex (a : ascii) : bool :=
  let n := Z.of_N (N_of_ascii a) in
  is_digit a || ((65 <=? n) && (n <=? 70)) || ((97 <=? n) && (n <=? 102)).

(** The regular expression [([a-fA-F0-9]{1,4}:{1,2})+[a-fA-F0-9]{1,4}], followed by what
    [rest] accepts: the digits and the colons of the group that is being read, and whether
    a group was read before it. *)
Fixpoint ipv6_groups (rest : string -> bool) (hexes colons : nat) (seen : bool) (s : string) : bool :=
  let stop := (0 <? Z.of_nat hexes) && bool_decide (colons = O) && seen && rest s in
  match s with
  | EmptyString => stop
  | String a s' =>
      if is_hex a then
        if bool_decide (colons = O) then (Z.of_nat hexes <? 4) && ipv6_groups rest (S hexes) 0 seen s'
        else ipv6_groups rest 1 0 true s'
      else if Ascii.eqb a ":"%char then
        (0 <? Z.of_nat hexes) && (Z.of_nat colons <? 2) && ipv6_groups rest hexes (S colons) seen s'
      else stop
  end.

Fixpoint all_digits (s : string) : bool :=
  match s with EmptyString => true | String a s => is_digit a && all_digits s end.
(** [\]:\d+]. *)
Definition bracket_port (s : string) : bool :=
  match s with
  | String "]" (String ":" (String a s)) => is_digit a && all_digits s
  | _ => false
  end.

Definition is_ipv6_str (id : string) : bool :=
  ipv6_groups (fun s => bool_decide (s = "")) 0 0 false id
  || match id with String "["%char s => ipv6_groups bracket_port 0 0 false s | _ => false end.

Definition starts_with_bracket (s : string) : bool :=
  match s with String "["%char _ => true | _ => false end.

Definition check_port (host : string) (port : Z) : string :=
  if is_ipv6_str host then
    if starts_with_bracket host then host else ("[" ++ host ++ "]:" ++ pretty port)%string
  else if negb (str_contains ":" host) then (host ++ ":" ++ pretty port)%string
  else host.

(** [host.split("]:")], for a text that [is_ipv6_str] accepts: the two sides of the only
    separator. *)
Fixpoint split_bracket (s : string) : list string :=
  match s with
  | EmptyString => [EmptyString]
  | String a s' =>
      match s with
      | String "]" (String ":" rest) => EmptyString :: split_bracket rest
      | _ => match split_bracket s' with w :: r => String a w :: r | [] => [String a EmptyString] end
      end
  end.

(** The host and the port, when both are there. *)
Definition host_and_port (host : string) : option (string * string * Z) :=
  let parts :=
    if is_ipv6_str host then (if starts_with_bracket host then Some ("]"%string, split_bracket host) else None)
    else if str_contains ":" host then Some (""%string, split_on ":"%char host)
    else None in
  match parts with
  | Some (close, [h; p]) =>
      let port := default 0 (parse_int 32 p) in
      if 0 <? port then Some (h, close, port) else None
  | _ => None
  end.

Definition increase_port (host : string) (offset : Z) : string :=
  match host_and_port host with
  | Some (h, close, port) => (h ++ close ++ ":" ++ pretty (as_i32 (port + offset)))%string
  | None => host
  end.

Definition split_host_port (host : string) : option (string * Z) :=
  match host_and_port host with
  | Some (h, close, port) => Some ((h ++ close)%string, port)
  | None => None
  end.

(** ** What the functions do on each kind of name *)

Example check_port_name : check_port "rs-ny.rustdesk.com" 21116 = "rs-ny.rustdesk.com:21116"%string.
Proof. vm_compute. reflexivity. Qed.
Example check_port_ipv6 : check_port "2001:db8::1" 21116 = "[2001:db8::1]:21116"%string.
Proof. vm_compute. reflexivity. Qed.
Example increase_port_ipv6 : increase_port "[2001:db8::1]:21116" 1 = "[2001:db8::1]:21117"%string.
Proof. vm_compute. reflexivity. Qed.
Example split_name : split_host_port "example.org:80" = Some ("example.org"%string, 80).
Proof. vm_compute. reflexivity. Qed.

(** ** Numbers and their texts *)

Lemma pretty_char_digit n :
  (n < 10)%N -> is_digit (pretty_N_char n) = true /\ Z.of_N (N_of_ascii (pretty_N_char n)) - 48 = Z.of_N n.
Proof.
  intros H. destruct n as [|p]; [done|].
  do 4 (try destruct p as [p|p|]); try done; lia.
Qed.

Lemma digits_pretty_go x s : digits 0 (pretty_N_go x s) = digits (Z.of_N x) s.
Proof.
  revert s. induction (N.lt_wf_0 x) as [x _ IH]; intros s.
  assert (x = 0 \/ 0 < x)%N as [->|Hx] by lia; [done|].
  rewrite pretty_N_go_step, IH by (done || by apply N.div_lt). cbn [digits].
  destruct (pretty_char_digit (x mod 10)) as [-> ->]; [by apply N.mod_lt|].
  f_equal. rewrite N2Z.inj_div, N2Z.inj_mod. zlia.
Qed.

(** A number that is written is read back. *)
Lemma digits_pretty x : 0 < x -> digits 0 (pretty x) = Some x.
Proof.
  intros Hx. destruct x as [|p|p]; [lia| |lia]. unfold pretty, pretty_Z, pretty_positive, pretty, pretty_N.
  rewrite decide_False by done. by rewrite digits_pretty_go.
Qed.

(** A port of five digits. *)
Lemma pretty_five x :
  10000 <= x < 100000 ->
  exists a b c d e, pretty x = String a (String b (String c (String d (String e "")))) /\
    Forall (fun a => is_digit a = true) [a; b; c; d; e].
Proof.
  intros Hx. destruct x as [|p|p]; [lia| |lia].
  unfold pretty, pretty_Z, pretty_positive, pretty, pretty_N. rewrite decide_False by done.
  set (x := N.pos p). assert (Hr : (10000 <= x < 100000)%N) by lia. clearbody x. clear Hx p.
  do 5 (rewrite pretty_N_go_step by (repeat apply N.div_str_pos; zify; zlia)).
  assert (x / 10 / 10 / 10 / 10 / 10 = 0)%N as ->.
  { rewrite !N.Div0.div_div. apply N.div_small. lia. }
  do 5 eexists. split; [reflexivity|]. repeat constructor; apply pretty_char_digit, N.mod_lt; done.
Qed.

Lemma digit_hex a : is_digit a = true -> is_hex a = true.
Proof. unfold is_hex. by intros ->. Qed.

Lemma colon_not_hex : is_hex ":"%char = false.
Proof. done. Qed.

(** Five digits after the last colon are no group of an IPv6 address. *)
Lemma ipv6_groups_five rest h hexes a b c d e :
  Forall (fun a => is_digit a = true) [a; b; c; d; e] -> str_contains ":" h = false ->
  ipv6_groups rest hexes 0 false
    (h ++ String ":" (String a (String b (String c (String d (String e "")))))) = false.
Proof.
  intros Hd Hh. revert hexes.
  repeat match goal with H : Forall _ (_ :: _) |- _ => apply Forall_cons in H as [?%digit_hex H] end.
  induction h as [|x h IH]; intros hexes.
  - change ("" +:+ ?s) with s. cbn [ipv6_groups]. rewrite colon_not_hex.
    cbn -[is_hex Z.of_nat Z.ltb].
    repeat match goal with H : is_hex ?x = true |- _ => rewrite H; clear H; cbn -[is_hex] end.
    rewrite ?andb_false_r. done.
  - change (String x h +:+ ?s) with (String x (h +:+ s)). cbn [ipv6_groups]. cbn in Hh. apply orb_false_iff in Hh as [Hx Hh]. rewrite !andb_false_r. cbn [andb].
    destruct (is_hex x); [rewrite IH by done; by rewrite andb_false_r|].
    destruct (Ascii.eqb_spec x ":"%char) as [->|]; [|done]. by destruct h.
Qed.

(** A name without a colon, followed by a port of five digits, is a name. *)
Lemma named_port h p :
  str_contains ":" h = false -> 10000 <= p < 100000 ->
  is_ipv6_str (h ++ ":" ++ pretty p) = false /\ str_contains ":" (h ++ ":" ++ pretty p) = true /\
  split_on ":"%char (h ++ ":" ++ pretty p) = [h; pretty p].
Proof.
  intros Hh Hp. destruct (pretty_five p Hp) as (a & b & c & d & e & -> & Hd).
  change (":" +:+ ?s) with (String ":" s). split_and!.
  - unfold is_ipv6_str. rewrite ipv6_groups_five by done. cbn [orb].
    destruct h as [|x h]; [done|]. change (String x h +:+ ?s) with (String x (h +:+ s)).
    cbn in Hh. apply orb_false_iff in Hh as [_ Hh].
    assert (ipv6_groups bracket_port 0 0 false
      (h +:+ String ":" (String a (String b (String c (String d (String e "")))))) = false)
      by (by apply ipv6_groups_five).
    destruct x as [[] [] [] [] [] [] [] []]; done.
  - clear. induction h as [|x h IH]; [done|].
    rewrite app_cons_string. cbn [str_contains]. by rewrite IH, orb_true_r.
  - rewrite split_on_app, (split_on_none _ h) by done. cbn [app]. f_equal.
    apply split_on_none.
    repeat match goal with H : Forall _ (_ :: _) |- _ => apply Forall_cons in H as [? H] end.
    assert (Hn : forall x s, is_digit x = true -> str_contains ":" s = false ->
                   str_contains ":" (String x s) = false).
    { intros x s Hx Hs. cbn [str_contains]. rewrite Hs, orb_false_r. revert Hx. clear.
      by destruct x as [[] [] [] [] [] [] [] []]. }
    by repeat apply Hn.
Qed.

Lemma ipv6_groups_no_colon rest hexes s :
  str_contains ":" s = false -> ipv6_groups rest hexes 0 false s = false.
Proof.
  revert hexes. induction s as [|a s IH]; intros hexes; cbn; rewrite ?andb_false_r; [done|].
  intros [Ha Hs]%orb_false_iff. rewrite IH, andb_false_r by done.
  destruct (is_hex a); [done|]. destruct (Ascii.eqb_spec a ":"%char) as [->|]; [|done]. by destruct s.
Qed.

Lemma no_colon_not_ipv6 h : str_contains ":" h = false -> is_ipv6_str h = false.
Proof.
  intros Hh. unfold is_ipv6_str. rewrite ipv6_groups_no_colon by done. cbn [orb].
  destruct h as [|x h]; [done|]. cbn [str_contains] in Hh. apply orb_false_iff in Hh as [_ Hh].
  apply (ipv6_groups_no_colon bracket_port 0) in Hh. revert Hh.
  destruct x as [[] [] [] [] [] [] [] []]; (done || (intros; done)).
Qed.

Lemma parse_pretty p : 0 < p < 2 ^ 31 -> parse_int 32 (pretty p) = Some p.
Proof.
  intros Hp. pose proof (digits_pretty p ltac:(lia)) as Hd. unfold parse_int.
  destruct (pretty p) as [|a s] eqn:E; [injection Hd; lia|].
  assert (Hs : is_digit a = true) by (cbn in Hd; by destruct (is_digit a)).
  assert ((match String a s with
           | String "+"%char s => (1, s) | String "-"%char s => (-1, s) | _ => (1, String a s) end)
          = (1, String a s)) as ->.
  { revert Hs. clear. by destruct a as [[] [] [] [] [] [] [] []]. }
  rewrite Hd, Z.mul_1_l.
  destruct (Z.leb_spec (- 2 ^ (32 - 1)) p), (Z.ltb_spec p (2 ^ (32 - 1))); cbn; (done || lia).
Qed.

(** a name that is given the default port keeps it when it is given one again, is split
    into the name and the port, and the neighbouring ports are found from it.  (The ports
    of the program have five digits.) *)
Theorem ports_round_trip h p q k :
  str_contains ":" h = false -> 10000 <= p < 65536 -> 0 <= k < 1000 ->
  let host := check_port h p in
  check_port host q = host /\ split_host_port host = Some (h, p) /\
  increase_port host k = check_port h (p + k).
Proof.
  intros Hh Hp Hk. cbn zeta.
  assert (forall x, check_port h x = h ++ ":" ++ pretty x)%string as Hcp.
  { intros x. unfold check_port. by rewrite no_colon_not_ipv6, Hh. }
  rewrite !Hcp.
  destruct (named_port h p Hh ltac:(lia)) as (H6 & Hc & Hs).
  assert (host_and_port (h ++ ":" ++ pretty p) = Some (h, ""%string, p)) as Hhp.
  { unfold host_and_port. rewrite H6, Hc, Hs, parse_pretty by lia. cbn [default id].
    destruct (Z.ltb_spec 0 p); [done|lia]. }
  split_and!.
  - unfold check_port. by rewrite H6, Hc.
  - unfold split_host_port. rewrite Hhp. f_equal. f_equal.
    clear. induction h as [|a h IH]; [done|]. by rewrite app_cons_string, IH.
  - unfold increase_port. rewrite Hhp. unfold swrap. rewrite Z.mod_small by lia.
    destruct (Z.ltb_spec (p + k) (2 ^ (32 - 1))); [done|lia].
Qed.

(** A name of at most four hexadecimal digits with a short port is taken for an IPv6
    address. *)
Example short_name_is_taken_for_ipv6 :
  check_port "cafe:8080" 21116 = "[cafe:8080]:21116"%string /\ split_host_port "cafe:8080" = None.
Proof. split; vm_compute; reflexivity. Qed.

Lemma ports_round_trip_witness :
  increase_port (check_port "rs-ny.rustdesk.com" 21116) 1 = check_port "rs-ny.rustdesk.com" (21116 + 1).
Proof. apply (ports_round_trip "rs-ny.rustdesk.com" 21116 0 1); [reflexivity|lia|lia]. Defined.
