(* ===== verification/Options.v ===== *)
(** * Settings (libs/hbb_common/src/config.rs, src/common.rs)

    A setting is looked up in three maps: what a custom client forces, what the user has
    set, what the custom client provides as a default.  The user's part is written to a
    file at every change; the custom client's part comes from a signed file.  Next to the
    settings, [Config] and [Config2] keep the identity under which the program registers,
    the servers it registers with and the proxy.

    Every change of the configuration is written to its file at once; [Passwords] models
    the file and the encryption of its secrets, here the configuration is a value. *)

From Stdlib Require Import Ascii.
From stdpp Require Import gmap pretty.
From S2P Require Import Prelude Nacl SecureStream.

Abbreviation Settings := (gmap string string).

(** ** Looking up *)

Definition get_or (a b c : Settings) (k : string) : option string :=
  match a !! k with
  | Some v => Some v
  | None => match b !! k with Some v => Some v | None => c !! k end
  end.

Definition is_option_can_save (overwrite : Settings) (k : string) (defaults : Settings) (v : string)
  : bool :=
  if bool_decide (is_Some (overwrite !! k))
     || match defaults !! k with Some x => bool_decide (x = v) | None => false end
  then false else true.

Definition option2bool (key value : string) : bool :=
  if String.prefix "enable-" key then negb (bool_decide (value = "N"%string))
  else if String.prefix "allow-" key
          || bool_decide (key = "stop-service"%string)
          || bool_decide (key = "direct-server"%string)
          || bool_decide (key = "force-always-relay"%string)
  then bool_decide (value = "Y"%string)
  else negb (bool_decide (value = "N"%string)).

(** ** State *)

(** What a custom client fixes. *)
Record Fixed : Type := mkFixed {
  APP_NAME : string;
  DEFAULT_SETTINGS : Settings;
  OVERWRITE_SETTINGS : Settings;
  DEFAULT_DISPLAY_SETTINGS : Settings;
  OVERWRITE_DISPLAY_SETTINGS : Settings;
  DEFAULT_LOCAL_SETTINGS : Settings;
  OVERWRITE_LOCAL_SETTINGS : Settings;
  HARD_SETTINGS : Settings;
  BUILTIN_SETTINGS : Settings;
  EXE_RENDEZVOUS_SERVER : string;
  PROD_RENDEZVOUS_SERVER : string }.

Record Socks5Server : Type := mkSocks {
  proxy : string;
  socks_username : string;
  socks_password : string }.
#[export] Instance Socks5Server_eq_dec : EqDecision Socks5Server.
Proof. solve_decision. Defined.

Definition no_socks : Socks5Server := mkSocks "" "" "".

Record Config2 : Type := mkConfig2 {
  rendezvous_server : string;
  nat_type : Z;
  serial : Z;
  unlock_pin : string;
  socks : option Socks5Server;
  options : Settings }.

(** The part of [Config] that is not a password. *)
Record Config : Type := mkConfig {
  id : string;
  key_confirmed : bool;
  keys_confirmed : gmap string bool }.

Record LocalConfig : Type := mkLocalConfig {
  local_options : Settings;
  ui_flutter : Settings }.

Definition with_options (o : Settings) (c : Config2) : Config2 :=
  mkConfig2 (rendezvous_server c) (nat_type c) (serial c) (unlock_pin c) (socks c) o.

(** ** Options *)

Section Options.
Variable fx : Fixed.

Definition get_options (c : Config2) : Settings :=
  OVERWRITE_SETTINGS fx ∪ (options c ∪ DEFAULT_SETTINGS fx).

Definition purify_options (v : Settings) : Settings :=
  filter (fun '(k, v) => Is_true (is_option_can_save (OVERWRITE_SETTINGS fx) k (DEFAULT_SETTINGS fx) v)) v.

Definition set_options (v : Settings) (c : Config2) : Config2 :=
  let v := purify_options v in
  if bool_decide (options c = v) then c else with_options v c.

Definition get_option (k : string) (c : Config2) : string :=
  default "" (get_or (OVERWRITE_SETTINGS fx) (options c) (DEFAULT_SETTINGS fx) k).

Definition get_bool_option (k : string) (c : Config2) : bool := option2bool k (get_option k c).

(** [None] deletes: the map a setter leaves, when it changes it. *)
Definition set_in (k v : string) (o : Settings) : Settings :=
  let v2 := if bool_decide (v = "") then None else Some v in
  if bool_decide (v2 = o !! k) then o
  else match v2 with
       | None => base.delete k o
       | Some v => <[k := v]> o
       end.

Definition set_option (k v : string) (c : Config2) : Config2 :=
  if negb (is_option_can_save (OVERWRITE_SETTINGS fx) k (DEFAULT_SETTINGS fx) v)
  then with_options (base.delete k (options c)) c
  else with_options (set_in k v (options c)) c.

(** *** Local options *)

Definition local_get_option (k : string) (c : LocalConfig) : string :=
  default "" (get_or (OVERWRITE_LOCAL_SETTINGS fx) (local_options c) (DEFAULT_LOCAL_SETTINGS fx) k).

Definition local_set_option (k v : string) (c : LocalConfig) : LocalConfig :=
  if negb (is_option_can_save (OVERWRITE_LOCAL_SETTINGS fx) k (DEFAULT_LOCAL_SETTINGS fx) v)
  then mkLocalConfig (base.delete k (local_options c)) (ui_flutter c)
  else if bool_decide (k = "lang") && bool_decide (v = "default")
  then mkLocalConfig (<[k := ""]> (local_options c)) (ui_flutter c)
  else mkLocalConfig (set_in k v (local_options c)) (ui_flutter c).

Definition get_flutter_option (k : string) (c : LocalConfig) : string :=
  default "" (get_or (OVERWRITE_LOCAL_SETTINGS fx) (ui_flutter c) (DEFAULT_LOCAL_SETTINGS fx) k).

Definition set_flutter_option (k v : string) (c : LocalConfig) : LocalConfig :=
  mkLocalConfig (local_options c) (set_in k v (ui_flutter c)).

(** *** Display options, the defaults of a new peer ([UserDefaultConfig]) *)

Definition get_after (k : string) (o : Settings) : option string :=
  get_or (OVERWRITE_DISPLAY_SETTINGS fx) o (DEFAULT_DISPLAY_SETTINGS fx) k.

Definition get_string (k dflt : string) (others : list string) (o : Settings) : string :=
  match get_after k o with
  | Some v => if bool_decide (v ∈ others) then v else dflt
  | None => dflt
  end.

Definition user_default_set (k v : string) (o : Settings) : Settings :=
  if negb (is_option_can_save (OVERWRITE_DISPLAY_SETTINGS fx) k (DEFAULT_DISPLAY_SETTINGS fx) v)
  then base.delete k o
  else if bool_decide (v = "") then base.delete k o else <[k := v]> o.

(** [get_num_string] is generic in the type of the number: its texts, its order and its
    parser. *)
Section Num.
Context {T : Type} (to_string : T -> string) (parse : string -> option T) (geb leb : T -> T -> bool).
Definition get_num_string (k : string) (dflt min max : T) (o : Settings) : string :=
  match get_after k o with
  | Some v =>
      let v := default dflt (parse v) in
      if geb v min && leb v max then to_string v else to_string dflt
  | None => to_string dflt
  end.
End Num.

(** The two integers and the two floats; a float is given by its operations. *)
Class F64 : Type := {
  f64 : Type;
  f64_of_Z : Z -> f64;
  f64_parse : string -> option f64;
  f64_to_string : f64 -> string;
  f64_geb : f64 -> f64 -> bool;
  f64_leb : f64 -> f64 -> bool }.

Definition get_f64_string `{F64} (k : string) (dflt min max : Z) (o : Settings) : string :=
  get_num_string f64_to_string f64_parse f64_geb f64_leb k (f64_of_Z dflt) (f64_of_Z min) (f64_of_Z max) o.
Definition get_i32_string (k : string) (dflt min max : Z) (o : Settings) : string :=
  get_num_string pretty (parse_int 32) Z.geb Z.leb k dflt min max o.

Definition user_default_get `{F64} (k : string) (o : Settings) : string :=
  if bool_decide (k = "view_style") then get_string k "original" ["adaptive"] o
  else if bool_decide (k = "scroll_style") then get_string k "scrollauto" ["scrolledge"; "scrollbar"] o
  else if bool_decide (k = "image_quality") then get_string k "balanced" ["best"; "low"; "custom"] o
  else if bool_decide (k = "codec-preference") then
    get_string k "auto" ["vp8"; "vp9"; "av1"; "h264"; "h265"] o
  else if bool_decide (k = "custom_image_quality") then get_f64_string k 50 10 0xFFF o
  else if bool_decide (k = "custom-fps") then get_f64_string k 30 5 120 o
  else if bool_decide (k = "enable-file-copy-paste") then get_string k "Y" [""; "N"] o
  else if bool_decide (k = "edge-scroll-edge-thickness") then get_i32_string k 100 20 150 o
  else if bool_decide (k = "trackpad-speed") then get_i32_string k 100 10 1000 o
  else default "" (get_after k o).
End Options.

(** ** Proxy, identity, servers *)

Inductive NetworkType : Type := Direct | ProxySocks.
#[export] Instance NetworkType_eq_dec : EqDecision NetworkType.
Proof. solve_decision. Defined.

Definition SERIAL : Z := 3.
Definition RENDEZVOUS_PORT : Z := 21116.
Definition RENDEZVOUS_SERVERS : list string := ["rs-ny.rustdesk.com"].

Definition with_config2 (rs : string) (nat ser : Z) (pin : string) (sk : option Socks5Server) (c : Config2)
  : Config2 := mkConfig2 rs nat ser pin sk (options c).

Section Network.
Variable fx : Fixed.

Definition set_socks (s : option Socks5Server) (c : Config2) : Config2 :=
  if bool_decide (is_Some (OVERWRITE_SETTINGS fx !! "proxy-url")) then c
  else if bool_decide (socks c = s) then c
  else
    let equal_to_default key value :=
      match DEFAULT_SETTINGS fx !! key with Some x => bool_decide (x = value) | None => false end in
    let given := default no_socks s in
    if bool_decide (socks c = None)
       && (bool_decide (is_Some (DEFAULT_SETTINGS fx !! "proxy-url"))
           && equal_to_default "proxy-url" (proxy given)
           && equal_to_default "proxy-username" (socks_username given)
           && equal_to_default "proxy-password" (socks_password given))
    then c
    else with_config2 (rendezvous_server c) (nat_type c) (serial c) (unlock_pin c) s c.

Definition get_socks_from_custom_client_advanced_settings (settings : Settings) : option Socks5Server :=
  match settings !! "proxy-url" with
  | None => None
  | Some url =>
      Some (mkSocks url (default "" (settings !! "proxy-username"))
              (default "" (settings !! "proxy-password")))
  end.

Definition or_else {A} (a b : option A) : option A :=
  match a with Some _ => a | None => b end.

Definition get_socks (c : Config2) : option Socks5Server :=
  or_else (or_else (get_socks_from_custom_client_advanced_settings (OVERWRITE_SETTINGS fx)) (socks c))
    (get_socks_from_custom_client_advanced_settings (DEFAULT_SETTINGS fx)).

Definition get_network_type (c : Config2) : NetworkType :=
  if bool_decide (is_Some (OVERWRITE_SETTINGS fx !! "proxy-url")) then ProxySocks
  else if bool_decide (is_Some (socks c)) then ProxySocks
  else if bool_decide (is_Some (DEFAULT_SETTINGS fx !! "proxy-url")) then ProxySocks
  else Direct.

Definition is_proxy (c : Config2) : bool := negb (bool_decide (get_network_type c = Direct)).

Definition is_disable_unlock_pin : bool :=
  match BUILTIN_SETTINGS fx !! "disable-unlock-pin" with
  | Some v => bool_decide (v = "Y") | None => false end.

Definition get_unlock_pin (c : Config2) : string := if is_disable_unlock_pin then "" else unlock_pin c.

Definition set_unlock_pin (pin : string) (c : Config2) : Config2 :=
  if is_disable_unlock_pin then c
  else if bool_decide (pin = unlock_pin c) then c
  else with_config2 (rendezvous_server c) (nat_type c) (serial c) pin (socks c) c.

Definition set_nat_type (n : Z) (c : Config2) : Config2 :=
  if bool_decide (n = nat_type c) then c
  else with_config2 (rendezvous_server c) n (serial c) (unlock_pin c) (socks c) c.

Definition set_serial (n : Z) (c : Config2) : Config2 :=
  if bool_decide (n = serial c) then c
  else with_config2 (rendezvous_server c) (nat_type c) n (unlock_pin c) (socks c) c.

Definition get_serial (c : Config2) : Z := Z.max (serial c) SERIAL.

Definition get_rendezvous_servers (c : Config2) : list string :=
  let custom := get_option fx "custom-rendezvous-server" c in
  if negb (bool_decide (EXE_RENDEZVOUS_SERVER fx = "")) then [EXE_RENDEZVOUS_SERVER fx]
  else if negb (bool_decide (custom = "")) then [custom]
  else if negb (bool_decide (PROD_RENDEZVOUS_SERVER fx = "")) then [PROD_RENDEZVOUS_SERVER fx]
  else
    let ss :=
      if SERIAL <? serial c then
        List.filter (str_contains ".") (split_on ","%char (get_option fx "rendezvous-servers" c))
      else [] in
    match ss with
    | [] => RENDEZVOUS_SERVERS
    | _ => ss
    end.

Definition first_nonempty (a b : string) : string := if bool_decide (a = "") then b else a.

Definition get_rendezvous_server (c : Config2) : string :=
  let s := EXE_RENDEZVOUS_SERVER fx in
  let s := first_nonempty s (get_option fx "custom-rendezvous-server" c) in
  let s := first_nonempty s (PROD_RENDEZVOUS_SERVER fx) in
  let s := first_nonempty s (rendezvous_server c) in
  let s := first_nonempty s (default "" (head (get_rendezvous_servers c))) in
  if str_contains ":" s then s else (s ++ ":" ++ pretty RENDEZVOUS_PORT)%string.

Definition use_ws (c : Config2) : bool := get_bool_option fx "allow-websocket" c.

Definition no_register_device : bool :=
  match BUILTIN_SETTINGS fx !! "register-device" with
  | Some v => bool_decide (v = "N") | None => false end.

Definition is_some_hard_opton (name : string) : bool :=
  match HARD_SETTINGS fx !! name with Some v => bool_decide (v = "Y") | None => false end.
Definition is_disable_tcp_listen : bool := is_some_hard_opton "disable-tcp-listen".
Definition is_outgoing_only : bool :=
  match HARD_SETTINGS fx !! "conn-type" with Some v => bool_decide (v = "outgoing") | None => false end.

(** [is_udp_disabled] and [using_public_server] of src/common.rs; the custom server of the
    latter comes from the options the interface process has. *)
Definition is_udp_disabled (c : Config2) : bool := bool_decide (get_option fx "disable-udp" c = "Y").

Definition get_custom_rendezvous_server (custom : string) : string :=
  if negb (bool_decide (custom = "")) then custom
  else PROD_RENDEZVOUS_SERVER fx.
Definition using_public_server (ui_options : Settings) : bool :=
  bool_decide (get_custom_rendezvous_server (default "" (ui_options !! "custom-rendezvous-server")) = "").

(** *** The identity *)

(** What the machine answers: the host name and the hardware address, when there are. *)
Record Host : Type := mkHost {
  hostname : option string;
  mac_address : option (list byte) }.

Fixpoint replace_char (a b : ascii) (s : string) : string :=
  match s with
  | EmptyString => EmptyString
  | String c s => String (if Ascii.eqb c a then b else c) (replace_char a b s)
  end.

Definition get_auto_id (h : Host) : option string :=
  match mac_address h with
  | Some ma =>
      let n := fold_left (fun n x => Z.lor (as_u32 (Z.shiftl n 8)) (u8_to_Z x)) (drop 2 ma) 0 in
      Some (pretty (Z.land n 0x1FFFFFFF))
  | None => None
  end.

Definition gen_id (h : Host) : option string :=
  let hostname_as_id :=
    match BUILTIN_SETTINGS fx !! "allow-hostname-as-id" with
    | Some v => option2bool "allow-hostname-as-id" v | None => false end in
  if hostname_as_id then
    match hostname h with
    | Some n => Some (replace_char " "%char "-"%char n)
    | None => get_auto_id h
    end
  else get_auto_id h.

Definition set_id (i : string) (c : Config) : Config :=
  if bool_decide (i = id c) then c else mkConfig i (key_confirmed c) (keys_confirmed c).

(** The id may be generated, and is kept then. *)
Definition get_id (h : Host) (c : Config) : string * Config :=
  if bool_decide (id c = "") then
    match gen_id h with
    | Some i => (i, set_id i c)
    | None => (id c, c)
    end
  else (id c, c).

(** [random] is between 1000000000 and 2000000000. *)
Definition update_id (h : Host) (random : Z) (c : Config) : Config :=
  let '(_, c) := get_id h c in set_id (pretty random) c.
End Network.

(** *** Confirmed keys *)

Definition set_key_confirmed (v : bool) (c : Config) : Config :=
  if Bool.eqb (key_confirmed c) v then c
  else mkConfig (id c) v (if v then keys_confirmed c else ∅).

Definition get_host_key_confirmed (host : string) (c : Config) : bool :=
  bool_decide (keys_confirmed c !! host = Some true).

Definition set_host_key_confirmed (host : string) (v : bool) (c : Config) : Config :=
  if Bool.eqb (get_host_key_confirmed host c) v then c
  else mkConfig (id c) (key_confirmed c) (<[host := v]> (keys_confirmed c)).

(** *** Latencies *)

(** The fastest server of a list, as the loop finds it. *)
Definition faster (best next : string * Z) : string * Z :=
  if (0 <? next.2) && (next.2 <? best.2) then next else best.
Definition fastest (l : list (string * Z)) : string * Z := fold_left faster l ("", 2 ^ 63 - 1).

(** The map of the servers is walked in an order of its own. *)
Definition update_latency (order : gmap string Z -> list (string * Z)) (host : string) (latency : Z)
    (online : gmap string Z) (c : Config2) : gmap string Z * Config2 :=
  let online := <[host := latency]> online in
  let host := (fastest (order online)).1 in
  (online,
   if negb (bool_decide (host = "")) && negb (bool_decide (host = rendezvous_server c))
   then with_config2 host (nat_type c) (serial c) (unlock_pin c) (socks c) c
   else c).

Definition get_online_state (online : gmap string Z) : Z :=
  default 0 (list_max (map snd (map_to_list online))).

(** ** The settings of a custom client (src/common.rs) *)

(** A value of the settings file; what is neither a text nor an object is skipped. *)
Inductive Value : Type :=
| VString (s : string)
| VObject (fields : list (string * option string))   (* a field that is a text, or not *)
| VOther.

Definition KEYS_DISPLAY_SETTINGS : list string :=
  ["view_only"; "show_monitors_toolbar"; "collapse_toolbar"; "show_remote_cursor";
   "follow_remote_cursor"; "follow_remote_window"; "zoom-cursor"; "show_quality_monitor";
   "disable_audio"; "enable-file-copy-paste"; "disable_clipboard"; "lock_after_session_end";
   "privacy_mode"; "touch-mode"; "i444"; "reverse_mouse_wheel"; "swap-left-right-mouse";
   "displays_as_individual_windows"; "use_all_my_displays_for_the_remote_session"; "view_style";
   "terminal-persistent"; "scroll_style"; "edge-scroll-edge-thickness"; "image_quality";
   "custom_image_quality"; "custom-fps"; "codec-preference"; "sync-init-clipboard"; "trackpad-speed"].

Definition KEYS_LOCAL_SETTINGS : list string :=
  ["theme"; "lang"; "enable-confirm-closing-tabs"; "enable-open-new-connections-in-tabs";
   "use-texture-render"; "allow-d3d-render"; "sync-ab-with-recent-sessions"; "sync-ab-tags";
   "filter-ab-by-intersection"; "remote-menubar-drag-left"; "remote-menubar-drag-right";
   "hideAbTagsPanel"; "remoteMenubarState"; "peer-sorting"; "peer-tab-index"; "peer-tab-order";
   "peer-tab-visible"; "peer-card-ui-type"; "current-ab-name"; "disable-floating-window";
   "floating-window-size"; "floating-window-untouchable"; "floating-window-transparency";
   "floating-window-svg"; "keep-screen-on"; "keep-awake-during-outgoing-sessions";
   "disable-group-panel"; "disable-discovery-panel"; "pre-elevate-service";
   "allow-remote-cm-modification"; "allow-auto-record-outgoing"; "hide-recording-button";
   "video-save-directory"; "enable-udp-punch"; "enable-ipv6-punch"; "touch-mode";
   "show-virtual-mouse"; "show-virtual-joystick"; "enable-flutter-http-on-rust"; "allow-ask-for-note"].

Definition KEYS_SETTINGS : list string :=
  ["access-mode"; "enable-keyboard"; "enable-clipboard"; "enable-file-transfer"; "enable-camera";
   "enable-terminal"; "enable-remote-printer"; "enable-audio"; "enable-tunnel";
   "enable-remote-restart"; "enable-record-session"; "enable-block-input"; "enable-privacy-mode";
   "allow-scope-violation-close"; "allow-scope-violation-alarm"; "allow-remote-config-modification";
   "allow-numeric-one-time-password"; "enable-lan-discovery"; "direct-server"; "direct-access-port";
   "whitelist"; "id-whitelist"; "allow-auto-disconnect"; "auto-disconnect-timeout";
   "allow-only-conn-window-open"; "allow-auto-record-incoming";
   "windows-service-video-save-directory"; "enable-abr"; "allow-remove-wallpaper";
   "allow-always-software-render"; "allow-linux-headless"; "enable-hwcodec"; "approve-mode";
   "verification-method"; "temporary-password-length"; "proxy-url"; "proxy-username";
   "proxy-password"; "custom-rendezvous-server"; "api-server"; "key"; "allow-websocket";
   "preset-address-book-name"; "preset-address-book-tag"; "preset-address-book-alias";
   "preset-address-book-password"; "preset-address-book-note"; "preset-device-username";
   "preset-device-name"; "preset-note"; "enable-directx-capture";
   "enable-android-software-encoding-half-scale"; "enable-trusted-devices"; "relay-server";
   "ice-servers"; "disable-udp"; "allow-insecure-tls-fallback";
   "keep-awake-during-incoming-sessions"; "allow-auto-update"].

Definition KEYS_BUILDIN_SETTINGS : list string :=
  ["display-name"; "avatar"; "preset-device-group-name"; "preset-user-name"; "preset-strategy-name";
   "remove-preset-password-warning"; "hide-security-settings"; "hide-network-settings";
   "hide-server-settings"; "hide-proxy-settings"; "hide-remote-printer-settings";
   "hide-websocket-settings"; "hide-stop-service"; "hide-username-on-card"; "hide-help-cards";
   "default-connect-password"; "hide-tray"; "one-way-clipboard-redirection";
   "allow-logon-screen-password"; "allow-deep-link-password"; "allow-deep-link-server-settings";
   "one-way-file-transfer"; "allow-https-21114"; "allow-hostname-as-id"; "register-device";
   "hide-powered-by-me"; "main-window-always-on-top"; "file-transfer-max-files";
   "disable-change-permanent-password"; "disable-change-id"; "disable-unlock-pin";
   "use-raw-tcp-for-api"; "enable-perm-change-in-accept-window";
   "allow-command-line-settings-when-settings-disabled"].

(** The map from the hyphenated name of a key to the key; a later key wins. *)
Definition key_map (keys : list string) : Settings :=
  fold_left (fun m s => <[replace_char "_"%char "-"%char s := s]> m) keys ∅.

Record Maps : Type := mkMaps { m_display : Settings; m_local : Settings; m_server : Settings; m_builtin : Settings }.

Definition read_field (m : Maps) (k v : string) : Maps :=
  match key_map KEYS_DISPLAY_SETTINGS !! k with
  | Some k2 => mkMaps (<[k2 := v]> (m_display m)) (m_local m) (m_server m) (m_builtin m)
  | None =>
  match key_map KEYS_LOCAL_SETTINGS !! k with
  | Some k2 => mkMaps (m_display m) (<[k2 := v]> (m_local m)) (m_server m) (m_builtin m)
  | None =>
  match key_map KEYS_SETTINGS !! k with
  | Some k2 => mkMaps (m_display m) (m_local m) (<[k2 := v]> (m_server m)) (m_builtin m)
  | None =>
  match key_map KEYS_BUILDIN_SETTINGS !! k with
  | Some k2 => mkMaps (m_display m) (m_local m) (m_server m) (<[k2 := v]> (m_builtin m))
  | None =>
      let k2 := replace_char "_"%char "-"%char k in
      let k := replace_char "-"%char "_"%char k2 in
      let both s := <[k2 := v]> (<[k := v]> s) in
      mkMaps (both (m_display m)) (both (m_local m)) (both (m_server m)) (both (m_builtin m))
  end end end end.

Definition read_fields (settings : Value) (m : Maps) : Maps :=
  match settings with
  | VObject fields =>
      fold_left (fun m '(k, v) => match v with Some v => read_field m k v | None => m end) fields m
  | _ => m
  end.

Definition read_custom_client_advanced_settings (settings : Value) (is_override : bool) (fx : Fixed)
  : Fixed :=
  if is_override then
    let m := read_fields settings
               (mkMaps (OVERWRITE_DISPLAY_SETTINGS fx) (OVERWRITE_LOCAL_SETTINGS fx)
                  (OVERWRITE_SETTINGS fx) (BUILTIN_SETTINGS fx)) in
    mkFixed (APP_NAME fx) (DEFAULT_SETTINGS fx) (m_server m) (DEFAULT_DISPLAY_SETTINGS fx) (m_display m)
      (DEFAULT_LOCAL_SETTINGS fx) (m_local m) (HARD_SETTINGS fx) (m_builtin m)
      (EXE_RENDEZVOUS_SERVER fx) (PROD_RENDEZVOUS_SERVER fx)
  else
    let m := read_fields settings
               (mkMaps (DEFAULT_DISPLAY_SETTINGS fx) (DEFAULT_LOCAL_SETTINGS fx)
                  (DEFAULT_SETTINGS fx) (BUILTIN_SETTINGS fx)) in
    mkFixed (APP_NAME fx) (m_server m) (OVERWRITE_SETTINGS fx) (m_display m) (OVERWRITE_DISPLAY_SETTINGS fx)
      (m_local m) (OVERWRITE_LOCAL_SETTINGS fx) (HARD_SETTINGS fx) (m_builtin m)
      (EXE_RENDEZVOUS_SERVER fx) (PROD_RENDEZVOUS_SERVER fx).

Definition set_app_name (v : Value) (fx : Fixed) : Fixed :=
  match v with
  | VString s =>
      mkFixed s (DEFAULT_SETTINGS fx) (OVERWRITE_SETTINGS fx) (DEFAULT_DISPLAY_SETTINGS fx)
        (OVERWRITE_DISPLAY_SETTINGS fx) (DEFAULT_LOCAL_SETTINGS fx) (OVERWRITE_LOCAL_SETTINGS fx)
        (HARD_SETTINGS fx) (BUILTIN_SETTINGS fx) (EXE_RENDEZVOUS_SERVER fx) (PROD_RENDEZVOUS_SERVER fx)
  | _ => fx
  end.

Definition hard_setting (fx : Fixed) (k : string) (v : Value) : Fixed :=
  match v with
  | VString s =>
      mkFixed (APP_NAME fx) (DEFAULT_SETTINGS fx) (OVERWRITE_SETTINGS fx) (DEFAULT_DISPLAY_SETTINGS fx)
        (OVERWRITE_DISPLAY_SETTINGS fx) (DEFAULT_LOCAL_SETTINGS fx) (OVERWRITE_LOCAL_SETTINGS fx)
        (<[k := s]> (HARD_SETTINGS fx)) (BUILTIN_SETTINGS fx) (EXE_RENDEZVOUS_SERVER fx)
        (PROD_RENDEZVOUS_SERVER fx)
  | _ => fx
  end.

(** The parsed file: a map of values. *)
Definition apply_custom_client (data : gmap string Value) (fx : Fixed) : Fixed :=
  let fx := match data !! "app-name" with Some v => set_app_name v fx | None => fx end in
  let fx := match data !! "default-settings" with
            | Some v => read_custom_client_advanced_settings v false fx | None => fx end in
  let fx := match data !! "override-settings" with
            | Some v => read_custom_client_advanced_settings v true fx | None => fx end in
  map_fold (fun k v fx => hard_setting fx k v) fx
    (base.delete "override-settings" (base.delete "default-settings" (base.delete "app-name" data))).

Section CustomClient.
Context `{Sign}.
Variable decode64 : string -> option (list byte).               (* base64 *)
Variable parse : list byte -> option (gmap string Value).       (* serde_json *)

Definition get_rs_pk (str_base64 : string) : option (list byte) :=
  match decode64 str_base64 with
  | Some pk => get_pk pk
  | None => None
  end.

Definition CUSTOM_CLIENT_KEY : string := "5h72ajqmWmW7Xxx3zCZ+WcbGKfb1fN/ZWJszUXNSWvE=".

Definition read_custom_client (config : string) (fx : Fixed) : Fixed :=
  match decode64 config with
  | None => fx
  | Some data =>
      match get_rs_pk CUSTOM_CLIENT_KEY with
      | None => fx
      | Some pk =>
          match verify data pk with
          | None => fx
          | Some data =>
              match parse data with
              | None => fx
              | Some data => apply_custom_client data fx
              end
          end
      end
  end.
End CustomClient.

(** ** Lemmas *)

Lemma can_save_false ow k d v :
  is_option_can_save ow k d v = false -> is_Some (ow !! k) \/ (ow !! k = None /\ d !! k = Some v).
Proof.
  unfold is_option_can_save. destruct (ow !! k) as [o|] eqn:E; [eauto|]. cbn.
  destruct (d !! k) as [x|] eqn:Ed; [|done]. case_bool_decide; [|done]. subst. by right.
Qed.

Lemma can_save_true ow k d v :
  is_option_can_save ow k d v = true -> ow !! k = None /\ d !! k <> Some v.
Proof.
  unfold is_option_can_save. destruct (ow !! k) as [o|] eqn:E; [done|]. cbn.
  destruct (d !! k) as [x|] eqn:Ed; [|done]. case_bool_decide; [done|]. naive_solver.
Qed.

Lemma set_in_lookup k v o k' :
  set_in k v o !! k' =
  if decide (k' = k) then (if decide (v = "") then None else Some v) else o !! k'.
Proof.
  unfold set_in. repeat case_bool_decide; subst; repeat case_decide; subst;
    rewrite ?lookup_delete_ne, ?lookup_insert_ne, ?lookup_delete, ?lookup_insert by done;
    simplify_eq; rewrite ?decide_True by done; done.
Qed.

(** What reading a setting gives after writing one: the shared statement of the three
    kinds of settings. *)
Definition written (ow d : Settings) (k v k' : string) (before : string) : string :=
  if decide (k' = k) then
    match ow !! k with
    | Some forced => forced
    | None => if decide (v = "") then default "" (d !! k) else v
    end
  else before.

Lemma read_written ow d k v k' o :
  default "" (get_or ow
    (if negb (is_option_can_save ow k d v) then base.delete k o else set_in k v o) d k')
  = written ow d k v k' (default "" (get_or ow o d k')).
Proof.
  unfold written, get_or. destruct (is_option_can_save ow k d v) eqn:E; cbn.
  - apply can_save_true in E as [Ho Hd]. rewrite set_in_lookup. repeat case_decide; subst;
      by rewrite ?Ho.
  - case_decide as Hk; [subst|by rewrite lookup_delete_ne].
    apply can_save_false in E as [[f Hf]|[Ho Hd]].
    + by rewrite Hf.
    + rewrite Ho, lookup_delete_eq, Hd. cbn. case_decide; by subst.
Qed.

Lemma set_option_written fx k v k' c :
  get_option fx k' (set_option fx k v c)
  = written (OVERWRITE_SETTINGS fx) (DEFAULT_SETTINGS fx) k v k' (get_option fx k' c).
Proof.
  unfold get_option, set_option. rewrite <- read_written. by destruct (is_option_can_save _ _ _ _).
Qed.

(** The same for the local options, but that "default" as a language is stored as the empty
    text, which hides the custom client's default. *)
Lemma local_set_option_written fx k v k' c :
  ~ (k = "lang" /\ v = "default") ->
  local_get_option fx k' (local_set_option fx k v c)
  = written (OVERWRITE_LOCAL_SETTINGS fx) (DEFAULT_LOCAL_SETTINGS fx) k v k' (local_get_option fx k' c).
Proof.
  intros Hl. unfold local_get_option, local_set_option. rewrite <- read_written.
  destruct (is_option_can_save _ _ _ _); cbn; [|done].
  destruct (bool_decide (k = "lang") && bool_decide (v = "default")) eqn:E; [|done].
  apply andb_true_iff in E as [E1 E2]. apply bool_decide_eq_true_1 in E1, E2. tauto.
Qed.

Lemma default_language fx c :
  OVERWRITE_LOCAL_SETTINGS fx !! "lang" = None -> DEFAULT_LOCAL_SETTINGS fx !! "lang" <> Some "default" ->
  local_get_option fx "lang" (local_set_option fx "lang" "default" c) = "".
Proof.
  intros Ho Hd. unfold local_get_option, local_set_option.
  destruct (is_option_can_save _ _ _ _) eqn:E; cbn; [|apply can_save_false in E as [[x Hx]|[_ H]]; congruence].
  rewrite !bool_decide_true by done. unfold get_or. cbn [local_options andb].
  by rewrite Ho, lookup_insert_eq.
Qed.

Lemma user_default_set_written fx k v k' o :
  default "" (get_after fx k' (user_default_set fx k v o))
  = written (OVERWRITE_DISPLAY_SETTINGS fx) (DEFAULT_DISPLAY_SETTINGS fx) k v k'
      (default "" (get_after fx k' o)).
Proof.
  unfold get_after. rewrite <- read_written. unfold user_default_set.
  destruct (is_option_can_save _ _ _ _); cbn; [|done]. do 3 f_equal. apply map_eq. intros i.
  rewrite set_in_lookup. repeat case_bool_decide; repeat case_decide; subst;
    by rewrite ?lookup_delete_eq, ?lookup_insert_eq, ?lookup_delete_ne, ?lookup_insert_ne.
Qed.

(** after a setting is set, it has the value that was set, the custom client's default
    when the value is empty, and the custom client's value whatever was set when it forces
    one; every other setting keeps its value.  This holds of the options, of the local
    options (but for "default" as a language) and of the display options. *)
Theorem settings_are_read fx k v k' :
  (forall c, get_option fx k' (set_option fx k v c)
     = written (OVERWRITE_SETTINGS fx) (DEFAULT_SETTINGS fx) k v k' (get_option fx k' c)) /\
  (~ (k = "lang" /\ v = "default") -> forall c,
     local_get_option fx k' (local_set_option fx k v c)
     = written (OVERWRITE_LOCAL_SETTINGS fx) (DEFAULT_LOCAL_SETTINGS fx) k v k' (local_get_option fx k' c)) /\
  (forall o, default "" (get_after fx k' (user_default_set fx k v o))
     = written (OVERWRITE_DISPLAY_SETTINGS fx) (DEFAULT_DISPLAY_SETTINGS fx) k v k'
         (default "" (get_after fx k' o))).
Proof.
  split_and!; intros; [apply set_option_written|by apply local_set_option_written|].
  apply user_default_set_written.
Qed.

Lemma get_options_lookup fx c k :
  get_options fx c !! k = get_or (OVERWRITE_SETTINGS fx) (options c) (DEFAULT_SETTINGS fx) k.
Proof.
  unfold get_options, get_or. rewrite !lookup_union.
  by destruct (OVERWRITE_SETTINGS fx !! k), (options c !! k), (DEFAULT_SETTINGS fx !! k).
Qed.

Lemma purify_lookup fx v k x :
  purify_options fx v !! k = Some x <->
  v !! k = Some x /\ is_option_can_save (OVERWRITE_SETTINGS fx) k (DEFAULT_SETTINGS fx) x = true.
Proof. unfold purify_options. rewrite map_lookup_filter_Some. by rewrite Is_true_true. Qed.

Lemma options_with o c : options (with_options o c) = o.
Proof. done. Qed.

Lemma set_options_options fx v c : options (set_options fx v c) = purify_options fx v.
Proof. unfold set_options. by case_bool_decide. Qed.

(** the settings read all at once, changed nowhere and written back (as the settings
    page does) leave every option as it was, and nothing that the custom client forces or
    that equals its default is stored. *)
Theorem options_written_back fx c :
  let c' := set_options fx (get_options fx c) c in
  (forall k, get_option fx k c' = get_option fx k c) /\
  (forall k v, options c' !! k = Some v ->
     OVERWRITE_SETTINGS fx !! k = None /\ DEFAULT_SETTINGS fx !! k <> Some v) /\
  set_options fx (get_options fx c') c' = c'.
Proof.
  cbn zeta. assert (Hget : forall k,
    get_or (OVERWRITE_SETTINGS fx) (purify_options fx (get_options fx c)) (DEFAULT_SETTINGS fx) k
    = get_options fx c !! k).
  { intros k. rewrite get_options_lookup. unfold get_or at 1.
    destruct (OVERWRITE_SETTINGS fx !! k) as [o|] eqn:Eo; [unfold get_or; by rewrite Eo|].
    destruct (purify_options fx (get_options fx c) !! k) as [x|] eqn:Ep.
    - apply purify_lookup in Ep as [Ep _]. by rewrite get_options_lookup in Ep.
    - unfold get_or. rewrite Eo. destruct (options c !! k) as [y|] eqn:Ey; [|done].
      destruct (is_option_can_save (OVERWRITE_SETTINGS fx) k (DEFAULT_SETTINGS fx) y) eqn:Ec.
      + assert (purify_options fx (get_options fx c) !! k = Some y) as H; [|by rewrite Ep in H].
        apply purify_lookup. split; [|done]. rewrite get_options_lookup. unfold get_or.
        by rewrite Eo, Ey.
      + apply can_save_false in Ec as [[f Hf]|[_ Hd]]; [by rewrite Hf in Eo|done]. }
  split_and!.
  - intros k. unfold get_option. rewrite set_options_options, Hget. by rewrite get_options_lookup.
  - intros k v H. rewrite set_options_options in H. apply purify_lookup in H as [_ H].
    by apply can_save_true in H.
  - unfold set_options at 1. rewrite bool_decide_true; [done|].
    rewrite set_options_options. f_equal. apply map_eq. intros k.
    rewrite (get_options_lookup _ (set_options _ _ _)), set_options_options. done.
Qed.

(** *** The proxy *)

(** the proxy that was set is the one that is used, unless the custom client forces
    its own; without a proxy of the user the custom client's default is used; and the
    program takes itself to be behind a proxy exactly when there is one to use. *)
Theorem proxy_is_used fx s c :
  let forced := get_socks_from_custom_client_advanced_settings (OVERWRITE_SETTINGS fx) in
  let dflt := get_socks_from_custom_client_advanced_settings (DEFAULT_SETTINGS fx) in
  get_socks fx (set_socks fx s c)
  = match forced with
    | Some _ => or_else forced (socks c)
    | None => or_else s dflt
    end
  /\ (is_proxy fx c = true <-> get_socks fx c <> None).
Proof.
  cbn zeta. split.
  - unfold get_socks, set_socks, get_socks_from_custom_client_advanced_settings.
    destruct (OVERWRITE_SETTINGS fx !! "proxy-url") as [u|] eqn:Eo; cbn; [done|].
    case_bool_decide as Hs; [by rewrite Hs|].
    destruct (_ && _) eqn:E; [|done]. repeat (apply andb_true_iff in E as [E ?]; try done).
    to_prop. repeat match goal with H : _ && _ = true |- _ => apply andb_true_iff in H as [? ?] end.
    match goal with H : bool_decide (socks c = None) = true |- _ =>
      apply bool_decide_eq_true_1 in H; rewrite H in * end.
    destruct s as [[p n w]|]; [|done]. cbn in *.
    destruct (DEFAULT_SETTINGS fx !! "proxy-url") as [du|]; [|done].
    destruct (DEFAULT_SETTINGS fx !! "proxy-username") as [dn|]; [|done].
    destruct (DEFAULT_SETTINGS fx !! "proxy-password") as [dp|]; [|done]. cbn.
    repeat match goal with H : bool_decide _ = true |- _ => apply bool_decide_eq_true_1 in H end.
    by subst.
  - unfold is_proxy, get_network_type, get_socks, get_socks_from_custom_client_advanced_settings.
    destruct (OVERWRITE_SETTINGS fx !! "proxy-url"), (socks c), (DEFAULT_SETTINGS fx !! "proxy-url");
      cbn; split; done.
Qed.

(** *** The servers *)

Lemma fastest_spec l best :
  (fold_left faster l best = best /\ forall x, x ∈ l -> 0 < x.2 -> best.2 <= x.2)
  \/ (fold_left faster l best ∈ l /\ 0 < (fold_left faster l best).2 < best.2 /\
      forall x, x ∈ l -> 0 < x.2 -> (fold_left faster l best).2 <= x.2).
Proof.
  revert best. induction l as [|y l IH]; intros best; cbn [fold_left].
  { left. split; [done|]. intros x H. by apply elem_of_nil in H. }
  assert (faster best y = y /\ 0 < y.2 < best.2 \/ faster best y = best /\ (0 < y.2 -> best.2 <= y.2))
    as [[-> Hy]|[-> Hy]].
  { unfold faster. destruct (Z.ltb_spec 0 y.2), (Z.ltb_spec y.2 best.2); cbn; [left|right..]; (split; [done|lia]). }
  - right. destruct (IH y) as [[-> H]|(Hin & Hd & H)].
    + split_and!; [by left|lia|lia|]. intros x [->|Hx]%elem_of_cons Hp; [lia|eauto].
    + split_and!; [by right|lia|lia|]. intros x [->|Hx]%elem_of_cons Hp; [lia|eauto].
  - destruct (IH best) as [[-> H]|(Hin & Hd & H)].
    + left. split; [done|]. intros x [->|Hx]%elem_of_cons Hp; [lia|eauto].
    + right. split_and!; [by right|lia|lia|]. intros x [->|Hx]%elem_of_cons Hp; [lia|eauto].
Qed.

(** after a measurement the preferred server is one that answers (its latency is
    positive) and none that answers is faster, in whatever order the servers are looked
    at; when none answers the preferred server stays. *)
Theorem fastest_server_is_kept order host latency online c :
  (forall m, order m ≡ₚ map_to_list m) ->
  online !! "" = None -> host <> "" ->
  (forall h d, <[host := latency]> online !! h = Some d -> d < 2 ^ 63 - 1) ->
  let '(online', c') := update_latency order host latency online c in
  online' = <[host := latency]> online /\
  ((forall h d, online' !! h = Some d -> d <= 0) /\ c' = c
   \/ exists d, online' !! rendezvous_server c' = Some d /\ 0 < d /\
      (forall h' d', online' !! h' = Some d' -> 0 < d' -> d <= d')).
Proof.
  intros Ho Hne Hh Hd. unfold update_latency, fastest. set (o := <[host := latency]> online) in *.
  assert (Hin : forall h d, (h, d) ∈ order o <-> o !! h = Some d).
  { intros h d. rewrite (Ho o). apply elem_of_map_to_list. }
  destruct (fastest_spec (order o) ("", 2 ^ 63 - 1)) as [[-> H]|(Hm & Hr & H)].
  - split; [done|]. left. split; [|done]. intros h d E. destruct (Z.le_gt_cases d 0) as [?|Hp]; [done|].
    exfalso. apply Hin in E as E'. specialize (H _ E' ltac:(cbn; lia)). specialize (Hd _ _ E). cbn in H. lia.
  - destruct (fold_left _ _ _) as [h d]. cbn in *. split; [done|]. right. apply Hin in Hm as Hs. exists d.
    assert (Hne' : h <> "").
    { intros ->. unfold o in Hs. rewrite lookup_insert_ne in Hs by done. congruence. }
    rewrite (bool_decide_false (h = "")) by done. cbn [negb andb].
    split_and!; [|lia|].
    + case_bool_decide as Hc; cbn; [by subst|done].
    + intros h' d' E Hp. by apply (H (h', d')); [apply Hin|].
Qed.

(** *** The custom client *)

Lemma key_map_app l k : key_map (l ++ [k]) = <[replace_char "_"%char "-"%char k := k]> (key_map l).
Proof. unfold key_map. by rewrite fold_left_app. Qed.

(** Where a setting of the file goes when it is one of [KEYS_SETTINGS]. *)
Definition is_server_key (k : string) : bool :=
  bool_decide (key_map KEYS_DISPLAY_SETTINGS !! k = None)
  && bool_decide (key_map KEYS_LOCAL_SETTINGS !! k = None)
  && bool_decide (key_map KEYS_SETTINGS !! k = Some k).

(** Every key of [KEYS_SETTINGS] is one. *)
Lemma server_keys : forallb is_server_key KEYS_SETTINGS = true.
Proof. vm_compute. reflexivity. Qed.

Lemma server_key_read k v m :
  is_server_key k = true -> read_field m k v = mkMaps (m_display m) (m_local m) (<[k := v]> (m_server m)) (m_builtin m).
Proof.
  unfold is_server_key, read_field. intros H. apply andb_true_iff in H as [H H3].
  apply andb_true_iff in H as [H1 H2]. apply bool_decide_eq_true_1 in H1, H2, H3.
  by rewrite H1, H2, H3.
Qed.

(** The values of a key map are keys whose hyphenated name is the index. *)
Lemma key_map_value keys k k2 :
  key_map keys !! k = Some k2 -> replace_char "_"%char "-"%char k2 = k.
Proof.
  induction keys as [|s keys IH] using rev_ind; [done|]. rewrite key_map_app.
  rewrite lookup_insert. case_decide; [naive_solver|done].
Qed.

Lemma hyphens_idem s :
  replace_char "_"%char "-"%char (replace_char "-"%char "_"%char (replace_char "_"%char "-"%char s))
  = replace_char "_"%char "-"%char s.
Proof.
  induction s as [|a s IH]; [done|]. cbn [replace_char]. rewrite IH. f_equal.
  destruct (Ascii.eqb_spec a "_"%char) as [->|Ha]; [done|].
  destruct (Ascii.eqb_spec a "-"%char) as [->|Ha']; [done|].
  destruct (Ascii.eqb_spec a "_"%char); [done|done].
Qed.

Lemma hyphens_twice s :
  replace_char "_"%char "-"%char (replace_char "_"%char "-"%char s) = replace_char "_"%char "-"%char s.
Proof.
  induction s as [|a s IH]; [done|]. cbn [replace_char]. rewrite IH. f_equal.
  destruct (Ascii.eqb_spec a "_"%char) as [->|Ha]; [done|].
  by destruct (Ascii.eqb_spec a "_"%char).
Qed.

(** A field of another (hyphenated) name leaves a setting alone. *)
Lemma other_field_read m k v k' :
  replace_char "_"%char "-"%char k <> replace_char "_"%char "-"%char k' ->
  m_server (read_field m k v) !! k' = m_server m !! k'.
Proof.
  intros Hk. unfold read_field. repeat case_match; try done; cbn.
  - apply lookup_insert_ne. intros ->.
    match goal with H : key_map KEYS_SETTINGS !! k = Some k' |- _ =>
      apply key_map_value in H; subst k end.
    by rewrite hyphens_twice in Hk.
  - rewrite !lookup_insert_ne; [done| |]; intros <-; [by rewrite hyphens_idem in Hk|by rewrite hyphens_twice in Hk].
Qed.

Abbreviation hyphens := (replace_char "_"%char "-"%char).

(** The fields that follow leave a setting, when no name of theirs is a spelling of it. *)
Lemma read_fields_other fields m k :
  (forall k', k' ∈ fields.*1 -> hyphens k' <> hyphens k) ->
  m_server (fold_left (fun m '(k, v) => match v with Some v => read_field m k v | None => m end) fields m) !! k
  = m_server m !! k.
Proof.
  revert m. induction fields as [|[k' v] fields IH]; intros m Hf; [done|]. cbn [fold_left].
  rewrite IH by (intros; apply Hf; by right). destruct v; [|done].
  apply other_field_read, Hf. by left.
Qed.

Lemma read_fields_server fields m k v :
  is_server_key k = true -> NoDup (hyphens <$> fields.*1) -> (k, Some v) ∈ fields ->
  m_server (read_fields (VObject fields) m) !! k = Some v.
Proof.
  intros Hk Hnd Hin. apply list_elem_of_split in Hin as (l1 & l2 & ->). cbn [read_fields].
  rewrite fold_left_app. cbn [fold_left].
  rewrite read_fields_other.
  - rewrite server_key_read by done. cbn. by rewrite lookup_insert_eq.
  - intros k' Hin E. rewrite !fmap_app in Hnd. apply NoDup_app in Hnd as (_ & _ & Hnd).
    cbn in Hnd. apply NoDup_cons in Hnd as [Hnd _]. apply Hnd. rewrite <- E.
    by apply list_elem_of_fmap_2.
Qed.

(** Hard settings change no other map. *)
Lemma hard_settings_keep data fx :
  OVERWRITE_SETTINGS (map_fold (fun k v fx => hard_setting fx k v) fx data) = OVERWRITE_SETTINGS fx /\
  DEFAULT_SETTINGS (map_fold (fun k v fx => hard_setting fx k v) fx data) = DEFAULT_SETTINGS fx.
Proof.
  apply (map_fold_weak_ind (fun r _ => OVERWRITE_SETTINGS r = OVERWRITE_SETTINGS fx /\
                                  DEFAULT_SETTINGS r = DEFAULT_SETTINGS fx)); [done|].
  intros i x m r _ [H1 H2]. by destruct x.
Qed.

Section ForcedSettings.
Context `{Sign}.
Variable decode64 : string -> option (list byte).
Variable parse : list byte -> option (gmap string Value).

(** an overriding setting of a signed custom client file is what the program reads,
    whatever the user's options are and whatever the user sets afterwards. *)
Theorem forced_settings_hold config fx signed pk msg data fields k v :
  decode64 config = Some signed -> get_rs_pk decode64 CUSTOM_CLIENT_KEY = Some pk ->
  verify signed pk = Some msg -> parse msg = Some data ->
  data !! "override-settings" = Some (VObject fields) ->
  NoDup (hyphens <$> fields.*1) -> (k, Some v) ∈ fields -> k ∈ KEYS_SETTINGS ->
  let fx' := read_custom_client decode64 parse config fx in
  forall (sets : list (string * string)) c,
    get_option fx' k (fold_left (fun c '(k, v) => set_option fx' k v c) sets c) = v.
Proof.
  intros Hd Hpk Hv Hp Ho Hnd Hin Hk fx' sets c. unfold get_option, get_or.
  assert (OVERWRITE_SETTINGS fx' !! k = Some v) as ->; [|done].
  unfold fx', read_custom_client. rewrite Hd, Hpk, Hv, Hp. unfold apply_custom_client.
  rewrite Ho. destruct (hard_settings_keep
    (base.delete "override-settings" (base.delete "default-settings" (base.delete "app-name" data)))
    (read_custom_client_advanced_settings (VObject fields) true
       match data !! "default-settings" with
       | Some v => read_custom_client_advanced_settings v false
                     match data !! "app-name" with Some v0 => set_app_name v0 fx | None => fx end
       | None => match data !! "app-name" with Some v0 => set_app_name v0 fx | None => fx end
       end)) as [-> _].
  unfold read_custom_client_advanced_settings at 1. cbn [OVERWRITE_SETTINGS].
  apply read_fields_server; [|done..].
  pose proof server_keys as Hs. rewrite forallb_forall in Hs. apply Hs. by apply list_elem_of_In.
Qed.

(** An unsigned file changes nothing. *)
Lemma unsigned_file_is_ignored config fx signed :
  decode64 config = Some signed ->
  (forall pk, get_rs_pk decode64 CUSTOM_CLIENT_KEY = Some pk -> verify signed pk = None) ->
  read_custom_client decode64 parse config fx = fx.
Proof.
  intros Hd Hv. unfold read_custom_client. rewrite Hd.
  destruct (get_rs_pk decode64 CUSTOM_CLIENT_KEY) as [pk|] eqn:E; [|done]. by rewrite Hv.
Qed.
End ForcedSettings.

(** ** Where the code differs from what it says *)

(** "touch-mode" is listed among the local settings, where the interface looks for the
    custom client's choice, but also among the display settings, which are looked at first:
    the file never reaches the local settings. *)
Example touch_mode_is_not_local m v :
  "touch-mode" ∈ KEYS_LOCAL_SETTINGS /\ m_local (read_field m "touch-mode" v) = m_local m.
Proof.
  split; [by apply (bool_decide_unpack _); vm_compute|].
  unfold read_field. replace (key_map KEYS_DISPLAY_SETTINGS !! "touch-mode") with (Some "touch-mode").
  - done.
  - vm_compute. reflexivity.
Qed.

(** An empty text cannot be stored where the custom client has a default. *)
Example default_cannot_be_emptied fx k d c :
  OVERWRITE_SETTINGS fx !! k = None -> DEFAULT_SETTINGS fx !! k = Some d ->
  get_option fx k (set_option fx k "" c) = d.
Proof. intros Ho Hd. rewrite set_option_written. unfold written. by rewrite !decide_True, Ho, Hd. Qed.

(** ** Witnesses *)

Definition ex_fixed : Fixed := mkFixed "UnyDesk" ∅ ∅ ∅ ∅ ∅ ∅ ∅ ∅ "" "".
Definition ex_config2 : Config2 := mkConfig2 "" 0 0 "" None ∅.
Definition ex_order (m : gmap string Z) : list (string * Z) := map_to_list m.

Lemma fastest_server_is_kept_witness :
  rendezvous_server (update_latency ex_order "a" 20 {[ "b" := 30 ]} ex_config2).2 = "a" /\
  let '(online', c') := update_latency ex_order "a" 20 {[ "b" := 30 ]} ex_config2 in
  online' = <[ "a" := 20 ]> {[ "b" := 30 ]} /\
  ((forall h d, online' !! h = Some d -> d <= 0) /\ c' = ex_config2
   \/ exists d, online' !! rendezvous_server c' = Some d /\ 0 < d /\
      (forall h' d', online' !! h' = Some d' -> 0 < d' -> d <= d')).
Proof.
  split; [vm_compute; reflexivity|].
  apply (fastest_server_is_kept ex_order "a" 20 {[ "b" := 30 ]} ex_config2); [done|done|done|].
  intros h d H. rewrite lookup_insert in H. case_decide; [injection H; intros; lia|].
  apply lookup_singleton_Some in H as [_ <-]. lia.
Defined.

Definition ex_sign_pk : list byte := replicate 32 x01.
Definition ex_decode64 (s : string) : option (list byte) :=
  if bool_decide (s = CUSTOM_CLIENT_KEY) then Some ex_sign_pk
  else Some (ex_sign_pk ++ [x02]).
Definition ex_parse (m : list byte) : option (gmap string Value) :=
  Some {[ "override-settings" := VObject [("enable-tunnel", Some "N")] ]}.

Lemma forced_settings_hold_witness :
  let fx' := @read_custom_client toy_sign ex_decode64 ex_parse "file" ex_fixed in
  get_option fx' "enable-tunnel" (set_option fx' "enable-tunnel" "Y" ex_config2) = "N".
Proof.
  apply (@forced_settings_hold toy_sign ex_decode64 ex_parse "file" ex_fixed (ex_sign_pk ++ [x02]) ex_sign_pk [x02]
    {[ "override-settings" := VObject [("enable-tunnel", Some "N")] ]} [("enable-tunnel", Some "N")]
    "enable-tunnel" "N" ltac:(reflexivity) ltac:(reflexivity) ltac:(vm_compute; reflexivity)
    ltac:(reflexivity) ltac:(reflexivity) ltac:(repeat constructor; apply not_elem_of_nil)
    ltac:(by left) ltac:(by apply (bool_decide_unpack _); vm_compute)
    [("enable-tunnel", "Y")] ex_config2).
Defined.

Lemma settings_are_read_witness :
  local_get_option ex_fixed "theme" (local_set_option ex_fixed "theme" "dark" (mkLocalConfig ∅ ∅)) = "dark".
Proof.
  rewrite (proj1 (proj2 (settings_are_read ex_fixed "theme" "dark" "theme"))).
  - reflexivity.
  - intros [H _]. discriminate H.
Defined.
