(* ===== verification/Rendezvous.v ===== *)
(** * The rendezvous mediator (src/rendezvous_mediator.rs)

    The controlled side keeps itself registered with every rendezvous server, and answers
    the requests for a connection that a server passes on.  One task per server runs
    [start_udp] or [start_tcp]; the tasks share the configuration and a few globals ([G]).

    An event is a message from the server or a tick of the timer; handling one reads the
    clock once.  The handlers run to their end without another task in between: they wait
    only for sockets and for locks that no one holds.  Times are microseconds, [elapsed]
    saturates as [Instant::elapsed] does. *)

From Stdlib Require Import Ascii.
From stdpp Require Import gmap pretty.
From S2P Require Import Prelude AddrMangle Hosts Options.

(** ** Data *)

#[export] Instance SocketAddr_eq_dec : EqDecision SocketAddr.
Proof. solve_decision. Defined.

Definition addr_port (a : SocketAddr) : Z := match a with V4 _ p => p | V6 _ p _ _ => p end.
Definition set_port (p : Z) (a : SocketAddr) : SocketAddr :=
  match a with V4 ip _ => V4 ip p | V6 ip _ f s => V6 ip p f s end.

Inductive TargetAddr : Type := Ip (a : SocketAddr) | Domain (host : string) (port : Z).

Definition is_ipv4 (target : TargetAddr) : bool :=
  match target with Ip (V4 _ _) => true | Ip (V6 _ _ _ _) => false | Domain _ _ => true end.

(** [ConnectionMeta]: what the server says of the peer. *)
Record Meta : Type := mkMeta { control_permissions : option Z; controlled_context : option string }.

Record PunchHole : Type := mkPunchHole {
  ph_socket_addr : list byte;
  ph_relay_server : string;
  ph_nat_type : Z;
  ph_udp_port : Z;
  ph_force_relay : bool;
  ph_socket_addr_v6 : list byte;
  ph_control_permissions : option Z;
  ph_controlled_context : option string }.

Record RequestRelay : Type := mkRequestRelay {
  rr_socket_addr : list byte;
  rr_relay_server : string;
  rr_uuid : string;
  rr_secure : bool;
  rr_control_permissions : option Z;
  rr_controlled_context : option string }.

Record FetchLocalAddr : Type := mkFetchLocalAddr {
  fla_socket_addr : list byte;
  fla_relay_server : string;
  fla_socket_addr_v6 : list byte;
  fla_control_permissions : option Z;
  fla_controlled_context : option string }.

Inductive Request : Type :=
| Punch (ph : PunchHole)
| Relay (rr : RequestRelay)
| Intranet (fla : FetchLocalAddr).

(** [RegisterPkResponse::Result], by its number. *)
Definition PK_OK : Z := 0.
Definition UUID_MISMATCH : Z := 2.
Definition NOT_DEPLOYED : Z := 8.

Inductive Union : Type :=
| RegisterPeerResponse (request_pk : bool)
| RegisterPkResponse (result keep_alive : Z)
| Requested (r : Request)
| ConfigureUpdate (serial : Z) (rendezvous_servers : list string)
| OtherUnion.

(** *** State *)

Record G : Type := mkG {
  config : Config;
  config2 : Config2;
  online : gmap string Z;
  SOLVING_PK_MISMATCH : string;
  LAST_MSG : SocketAddr * Z;
  LAST_RELAY_MSG : SocketAddr * Z;
  SHOULD_EXIT : bool;
  MANUAL_RESTARTED : bool;
  SENT_REGISTER_PK : bool;
  NEEDS_DEPLOY : bool;
  LAST_NOT_DEPLOYED_REGISTER : option Z }.

Definition set_config (c : Config) (g : G) : G :=
  mkG c (config2 g) (online g) (SOLVING_PK_MISMATCH g) (LAST_MSG g) (LAST_RELAY_MSG g) (SHOULD_EXIT g)
    (MANUAL_RESTARTED g) (SENT_REGISTER_PK g) (NEEDS_DEPLOY g) (LAST_NOT_DEPLOYED_REGISTER g).
Definition set_config2 (c : Config2) (g : G) : G :=
  mkG (config g) c (online g) (SOLVING_PK_MISMATCH g) (LAST_MSG g) (LAST_RELAY_MSG g) (SHOULD_EXIT g)
    (MANUAL_RESTARTED g) (SENT_REGISTER_PK g) (NEEDS_DEPLOY g) (LAST_NOT_DEPLOYED_REGISTER g).
Definition set_online (o : gmap string Z) (g : G) : G :=
  mkG (config g) (config2 g) o (SOLVING_PK_MISMATCH g) (LAST_MSG g) (LAST_RELAY_MSG g) (SHOULD_EXIT g)
    (MANUAL_RESTARTED g) (SENT_REGISTER_PK g) (NEEDS_DEPLOY g) (LAST_NOT_DEPLOYED_REGISTER g).
Definition set_solving (h : string) (g : G) : G :=
  mkG (config g) (config2 g) (online g) h (LAST_MSG g) (LAST_RELAY_MSG g) (SHOULD_EXIT g)
    (MANUAL_RESTARTED g) (SENT_REGISTER_PK g) (NEEDS_DEPLOY g) (LAST_NOT_DEPLOYED_REGISTER g).
Definition set_last_msg (m : SocketAddr * Z) (g : G) : G :=
  mkG (config g) (config2 g) (online g) (SOLVING_PK_MISMATCH g) m (LAST_RELAY_MSG g) (SHOULD_EXIT g)
    (MANUAL_RESTARTED g) (SENT_REGISTER_PK g) (NEEDS_DEPLOY g) (LAST_NOT_DEPLOYED_REGISTER g).
Definition set_last_relay_msg (m : SocketAddr * Z) (g : G) : G :=
  mkG (config g) (config2 g) (online g) (SOLVING_PK_MISMATCH g) (LAST_MSG g) m (SHOULD_EXIT g)
    (MANUAL_RESTARTED g) (SENT_REGISTER_PK g) (NEEDS_DEPLOY g) (LAST_NOT_DEPLOYED_REGISTER g).
Definition set_exit (exit manual : bool) (g : G) : G :=
  mkG (config g) (config2 g) (online g) (SOLVING_PK_MISMATCH g) (LAST_MSG g) (LAST_RELAY_MSG g) exit
    manual (SENT_REGISTER_PK g) (NEEDS_DEPLOY g) (LAST_NOT_DEPLOYED_REGISTER g).
Definition set_sent (b : bool) (g : G) : G :=
  mkG (config g) (config2 g) (online g) (SOLVING_PK_MISMATCH g) (LAST_MSG g) (LAST_RELAY_MSG g) (SHOULD_EXIT g)
    (MANUAL_RESTARTED g) b (NEEDS_DEPLOY g) (LAST_NOT_DEPLOYED_REGISTER g).
Definition set_deploy (needs : bool) (last : option Z) (g : G) : G :=
  mkG (config g) (config2 g) (online g) (SOLVING_PK_MISMATCH g) (LAST_MSG g) (LAST_RELAY_MSG g) (SHOULD_EXIT g)
    (MANUAL_RESTARTED g) (SENT_REGISTER_PK g) needs last.

(** [RendezvousMediator]. *)
Record Rz : Type := mkRz {
  addr : TargetAddr;
  host : string;
  host_prefix : string;
  keep_alive : Z }.

(** [get_host_prefix]: the first label of the name, the whole of an address. *)
Definition get_host_prefix (host : string) : string :=
  match split_on "."%char host with
  | x :: _ => match parse_int 32 x with Some _ => host | None => x end
  | [] => host
  end.

(** What leaves the mediator. *)
Inductive Output : Type :=
| SendRegisterPk (id : string) (pk : list byte) (no_register_device : bool)
| SendRegisterPeer (id : string) (serial : Z)
| SendHeartbeat
| Spawn (r : Request) (rz : Rz).

(** A task: the globals, the mediator, the variables of its loop, what it has sent. *)
Record W (L : Type) : Type := mkW { g : G; rz : Rz; lo : L; outs : list Output }.
Arguments mkW {L}. Arguments g {L}. Arguments rz {L}. Arguments lo {L}. Arguments outs {L}.

Definition on_g {L} (f : G -> G) (w : W L) : W L := mkW (f (g w)) (rz w) (lo w) (outs w).
Definition on_rz {L} (f : Rz -> Rz) (w : W L) : W L := mkW (g w) (f (rz w)) (lo w) (outs w).
Definition on_lo {L} (f : L -> L) (w : W L) : W L := mkW (g w) (rz w) (f (lo w)) (outs w).

(** What is found while one event is handled. *)
Record Env : Type := mkEnv {
  now : Z;
  fx : Fixed;
  ui_options : Settings;
  machine : Host;
  random_id : Z;
  key_pair_pk : list byte;
  order : gmap string Z -> list (string * Z);
  send_ok : bool;
  rebind : result string (option TargetAddr) }.

Definition elapsed_us (env : Env) (t : Z) : Z := Z.max 0 (now env - t).
Definition elapsed_ms (env : Env) (t : Z) : Z := elapsed_us env t / 1000.

Definition DEPLOY_RETRY_INTERVAL : Z := 30000.
Definition REG_INTERVAL : Z := 15000.
Definition DEFAULT_KEEP_ALIVE : Z := 60000.

(** ** Registering *)

Section Mediator.
Context {L : Type} (env : Env).
Abbreviation M := (ST string (W L)).

Definition deploy_register_throttled (g : G) : bool :=
  if negb (NEEDS_DEPLOY g) then false
  else match LAST_NOT_DEPLOYED_REGISTER g with
       | Some t => elapsed_ms env t <? DEPLOY_RETRY_INTERVAL
       | None => false
       end.

Definition modify_g (f : G -> G) : M unit := st_modify (on_g f).

(** [Sink::send]. *)
Definition send (o : Output) : M unit :=
  if send_ok env then st_modify (fun w => mkW (g w) (rz w) (lo w) (outs w ++ [o]))
  else st_fail "send".

(** [Config::get_id]. *)
Definition current_id : M string :=
  w ← st_get;
  let '(i, c) := get_id (fx env) (machine env) (config (g w)) in
  modify_g (set_config c) ;; mret i.

Definition register_pk : M unit :=
  w ← st_get;
  if deploy_register_throttled (g w) then mret tt
  else
    modify_g (fun g => set_deploy (NEEDS_DEPLOY g) (if NEEDS_DEPLOY g then Some (now env) else None) g) ;;
    i ← current_id;
    send (SendRegisterPk i (key_pair_pk env) (no_register_device (fx env))) ;;
    modify_g (set_sent true).

Definition on_config (f : Config -> Config) : M unit :=
  modify_g (fun g => set_config (f (config g)) g).

Definition handle_uuid_mismatch : M unit :=
  w ← st_get;
  if bool_decide (SOLVING_PK_MISMATCH (g w) = "") || bool_decide (SOLVING_PK_MISMATCH (g w) = host (rz w)) then
    on_config (set_key_confirmed false) ;;
    on_config (update_id (fx env) (machine env) (random_id env)) ;;
    modify_g (set_solving (host (rz w))) ;;
    register_pk
  else mret tt.

Definition register_peer : M unit :=
  w ← st_get;
  if negb (bool_decide (SOLVING_PK_MISMATCH (g w) = "") || bool_decide (SOLVING_PK_MISMATCH (g w) = host (rz w)))
  then mret tt
  else if negb (key_confirmed (config (g w)))
          || negb (get_host_key_confirmed (host_prefix (rz w)) (config (g w)))
  then register_pk
  else
    i ← current_id;
    send (SendRegisterPeer i (get_serial (config2 (g w)))).

(** [Config::update_latency]. *)
Definition report_latency (latency : Z) : M unit :=
  w ← st_get;
  let '(o, c) := update_latency (order env) (host (rz w)) latency (online (g w)) (config2 (g w)) in
  modify_g (fun g => set_config2 c (set_online o g)).

Definition restart (g : G) : G := set_exit true true g.

Definition join_comma (l : list string) : string := String.concat "," l.

(** The key was registered. *)
Definition on_pk_registered : M unit :=
  on_config (set_key_confirmed true) ;;
  w ← st_get;
  on_config (set_host_key_confirmed (host_prefix (rz w)) true) ;;
  modify_g (set_solving "") ;;
  modify_g (fun g => set_deploy false (LAST_NOT_DEPLOYED_REGISTER g) g).

(** The server does not know the device. *)
Definition on_not_deployed : M unit :=
  modify_g (fun g => set_deploy true (LAST_NOT_DEPLOYED_REGISTER g) g) ;;
  on_config (set_key_confirmed false) ;;
  w ← st_get;
  on_config (set_host_key_confirmed (host_prefix (rz w)) false).

Definition on_pk_result (result : Z) : M unit :=
  if bool_decide (result = PK_OK) then on_pk_registered
  else if bool_decide (result = UUID_MISMATCH) then handle_uuid_mismatch
  else if bool_decide (result = NOT_DEPLOYED) then on_not_deployed
  else mret tt.

Definition handle_resp (update_latency : M unit) (msg : option Union) : M unit :=
  match msg with
  | Some (RegisterPeerResponse request_pk) =>
      update_latency ;;
      if request_pk then register_pk else mret tt
  | Some (RegisterPkResponse result ka) =>
      update_latency ;;
      on_pk_result result ;;
      if 0 <? ka then
        st_modify (on_rz (fun r => mkRz (addr r) (host r) (host_prefix r) (as_i32 (ka * 1000))))
      else mret tt
  | Some (Requested r) =>
      st_modify (fun w => mkW (g w) (rz w) (lo w) (outs w ++ [Spawn r (rz w)]))
  | Some (ConfigureUpdate ser servers) =>
      w ← st_get;
      let v0 := get_rendezvous_servers (fx env) (config2 (g w)) in
      modify_g (fun g => set_config2
        (set_serial ser (set_option (fx env) "rendezvous-servers" (join_comma servers) (config2 g))) g) ;;
      w ← st_get;
      if bool_decide (v0 = get_rendezvous_servers (fx env) (config2 (g w))) then mret tt
      else modify_g restart
  | _ => mret tt
  end.
End Mediator.

(** ** The loop over UDP *)

Definition MIN_REG_TIMEOUT : Z := 3000.
Definition MAX_REG_TIMEOUT : Z := 30000.
Definition MAX_FAILS1 : Z := 2.
Definition MAX_FAILS2 : Z := 4.
Definition DNS_INTERVAL : Z := 60000.

Record UdpLoop : Type := mkUdp {
  reg_timeout : Z;
  fails : Z;
  last_register_resp : option Z;
  last_register_sent : option Z;
  last_dns_check : Z;
  old_latency : Z;
  ema_latency : Z }.

Inductive Received : Type :=
| Message (m : option Union)               (* the [oneof] of a message that was parsed *)
| Empty                                    (* no bytes *)
| NotAMessage
| ReceiveError
| Closed.

Inductive Event : Type := Receive (r : Received) | Tick.
Inductive Flow : Type := Continue | Break.

Definition start_udp (t : Z) (h : string) (a : TargetAddr) : Rz * UdpLoop :=
  let h := check_port h RENDEZVOUS_PORT in
  (mkRz a h (get_host_prefix h) DEFAULT_KEEP_ALIVE, mkUdp MIN_REG_TIMEOUT 0 None None t 0 0).

Section Udp.
Variable env : Env.
Abbreviation M := (ST string (W UdpLoop)).

(** The closure [update_latency]. *)
Definition udp_update_latency : M unit :=
  w ← st_get;
  let l := lo w in
  let latency := match last_register_sent l with Some t => elapsed_us env t | None => 0 end in
  st_modify (on_lo (fun l => mkUdp MIN_REG_TIMEOUT 0 (Some (now env)) None (last_dns_check l) (old_latency l)
                               (ema_latency l))) ;;
  if (latency <? 0) || (1000000 <? latency) then mret tt
  else
    let ema := if ema_latency l =? 0 then latency
               else Z.quot latency 30 + Z.quot (ema_latency l * 29) 30 in
    let latency := if ema_latency l =? 0 then latency else ema in
    st_modify (on_lo (fun l => mkUdp (reg_timeout l) (fails l) (last_register_resp l) (last_register_sent l)
                                 (last_dns_check l) (old_latency l) ema)) ;;
    let n := Z.max 3000 (Z.quot latency 5) in
    if (n <? Z.abs (latency - old_latency l)) || (old_latency l <=? 0) then
      report_latency env latency ;;
      st_modify (on_lo (fun l => mkUdp (reg_timeout l) (fails l) (last_register_resp l) (last_register_sent l)
                                   (last_dns_check l) latency (ema_latency l)))
    else mret tt.

Definition set_old_latency (n : Z) (l : UdpLoop) : UdpLoop :=
  mkUdp (reg_timeout l) (fails l) (last_register_resp l) (last_register_sent l) (last_dns_check l) n
    (ema_latency l).

(** [rebind_udp_for] and what follows it. *)
Definition rebind_if_due : M unit :=
  w ← st_get;
  if DNS_INTERVAL <? elapsed_ms env (last_dns_check (lo w)) then
    r ← st_lift (rebind env);
    match r with
    | Some a => st_modify (on_rz (fun r => mkRz a (host r) (host_prefix r) (keep_alive r)))
    | None => mret tt
    end ;;
    st_modify (on_lo (fun l => mkUdp (reg_timeout l) (fails l) (last_register_resp l) (last_register_sent l)
                                 (now env) (old_latency l) (ema_latency l)))
  else mret tt.

(** A registration was not answered. *)
Definition on_timeout : M unit :=
  st_modify (on_lo (fun l => mkUdp (reg_timeout l) (fails l + 1) (last_register_resp l) (last_register_sent l)
                               (last_dns_check l) (old_latency l) (ema_latency l))) ;;
  w ← st_get;
  if MAX_FAILS2 <=? fails (lo w) then
    report_latency env (-1) ;;
    st_modify (on_lo (set_old_latency 0)) ;;
    rebind_if_due
  else if MAX_FAILS1 <=? fails (lo w) then
    report_latency env 0 ;;
    st_modify (on_lo (set_old_latency 0))
  else mret tt.

Definition expired (l : UdpLoop) : bool :=
  match last_register_resp l with Some x => REG_INTERVAL <=? elapsed_ms env x | None => true end.
Definition timed_out (l : UdpLoop) : bool :=
  match last_register_sent l with Some x => reg_timeout l <=? elapsed_ms env x | None => false end.

(** The exponential back-off of the public server. *)
Definition back_off (timeout : bool) (l : UdpLoop) : UdpLoop :=
  if using_public_server (fx env) (ui_options env) && (timeout && (reg_timeout l <? MAX_REG_TIMEOUT))
  then mkUdp (reg_timeout l + MIN_REG_TIMEOUT) (fails l) (last_register_resp l) (last_register_sent l)
         (last_dns_check l) (old_latency l) (ema_latency l)
  else l.

Definition is_none {A} (o : option A) : bool := match o with None => true | Some _ => false end.

(** Whether this tick registers. *)
Definition due (l : UdpLoop) : bool := timed_out l || (is_none (last_register_sent l) && expired l).

Definition udp_tick : M Flow :=
  w ← st_get;
  if SHOULD_EXIT (g w) then mret Break
  else if deploy_register_throttled env (g w) then mret Continue
  else
    let timeout := timed_out (lo w) in
    st_modify (on_lo (back_off timeout)) ;;
    (if due (lo w) then
       (if timeout then on_timeout else mret tt) ;;
       register_peer env ;;
       st_modify (on_lo (fun l => mkUdp (reg_timeout l) (fails l) (last_register_resp l) (Some (now env))
                                    (last_dns_check l) (old_latency l) (ema_latency l)))
     else mret tt) ;;
    mret Continue.

Definition udp_receive (r : Received) : M Flow :=
  match r with
  | Message m => handle_resp env udp_update_latency m ;; mret Continue
  | NotAMessage => mret Continue
  | Empty => handle_resp env udp_update_latency None ;; mret Continue
  | ReceiveError => st_fail "Failed to receive next"
  | Closed => st_fail "Socket receive none. Maybe socks5 server is down."
  end.

Definition udp_event (e : Event) : M Flow :=
  match e with Receive r => udp_receive r | Tick => udp_tick end.
End Udp.

(** ** The loop over TCP *)

Record TcpLoop : Type := mkTcp { tcp_last_register_sent : option Z; last_recv_msg : Z }.

Definition start_tcp (t : Z) (h : string) (a : TargetAddr) (g : G) : G * Rz * TcpLoop :=
  let h := check_port h RENDEZVOUS_PORT in
  (set_config (set_host_key_confirmed (get_host_prefix h) false (config g)) g,
   mkRz a h (get_host_prefix h) DEFAULT_KEEP_ALIVE, mkTcp None t).

Section Tcp.
Variable env : Env.
Abbreviation M := (ST string (W TcpLoop)).

Definition tcp_update_latency : M unit :=
  w ← st_get;
  report_latency env
    match tcp_last_register_sent (lo w) with Some t => elapsed_us env t | None => 0 end.

Definition tcp_receive (r : Received) : M Flow :=
  st_modify (on_lo (fun l => mkTcp (tcp_last_register_sent l) (now env))) ;;
  match r with
  | Closed => st_fail "Rendezvous connection is reset by the peer"
  | ReceiveError => st_fail "receive"
  | Empty => send env SendHeartbeat ;; mret Continue
  | NotAMessage => st_fail "parse"
  | Message m => handle_resp env tcp_update_latency m ;; mret Continue
  end.

(** [rz.keep_alive as u64 * 3 / 2]. *)
Definition keep_alive_limit (ka : Z) : Z := as_u64 (as_u64 ka * 3) / 2.

Definition tcp_tick : M Flow :=
  w ← st_get;
  if SHOULD_EXIT (g w) then mret Break
  else if keep_alive_limit (keep_alive (rz w)) <? elapsed_ms env (last_recv_msg (lo w))
  then st_fail "Rendezvous connection is timeout"
  else
    (if (negb (key_confirmed (config (g w)))
         || negb (get_host_key_confirmed (host_prefix (rz w)) (config (g w))))
        && (REG_INTERVAL <=? match tcp_last_register_sent (lo w) with
                             | Some t => elapsed_ms env t | None => REG_INTERVAL end)
     then
       register_pk env ;;
       st_modify (on_lo (fun l => mkTcp (Some (now env)) (last_recv_msg l)))
     else mret tt) ;;
    mret Continue.

Definition tcp_event (e : Event) : M Flow :=
  match e with Receive r => tcp_receive r | Tick => tcp_tick end.
End Tcp.

(** [RendezvousMediator::start]: which loop a server gets. *)
Definition by_tcp (fx : Fixed) (c : Config2) : bool :=
  is_proxy fx c || use_ws fx c || is_udp_disabled fx c.

(** ** All servers *)

(** The tasks of one round of [start_all], over UDP, by the name of their server.  A task
    that ends makes the others end. *)
Record Sys : Type := mkSys { globals : G; tasks : gmap string (Rz * UdpLoop) }.

Definition udp_step (h : string) (env : Env) (e : Event) (s : Sys) : Sys * list Output :=
  match tasks s !! h with
  | None => (s, [])
  | Some (r, l) =>
      match udp_event env e (mkW (globals s) r l []) with
      | (Ok Continue, w) => (mkSys (g w) (<[h := (rz w, lo w)]> (tasks s)), outs w)
      | (_, w) =>
          (mkSys (set_exit true (MANUAL_RESTARTED (g w)) (g w)) (base.delete h (tasks s)), outs w)
      end
  end.

(** A run, as the list of what each step did. *)
Record Step : Type := mkStep { st_host : string; st_env : Env; st_event : Event }.

Fixpoint udp_run (steps : list Step) (s : Sys) : Sys * list (Step * list Output) :=
  match steps with
  | [] => (s, [])
  | x :: steps =>
      let '(s, o) := udp_step (st_host x) (st_env x) (st_event x) s in
      let '(s, tr) := udp_run steps s in (s, (x, o) :: tr)
  end.

(** The pause of [start_all] after a round that took [elapsed] ms; a reset connection or an
    unknown host shortens the time to the next round. *)
Definition round_pause (manual : bool) (timeout elapsed : Z) : Z :=
  if negb manual then if elapsed <? timeout then (timeout - elapsed) / 1000 * 1000 else 0
  else 33.

(** ** Letting a peer in *)

(** What is done to let a peer in, in order.  The last three open a connection with the
    peer; [ListenIpv6] and [PunchTcp] only prepare one. *)
Inductive Way : Type :=
| ListenIpv6 (peer_v6 peer_addr : SocketAddr) (meta : Meta)
| SendRelayResponse (socket_addr socket_addr_v6 : list byte) (offer : option (string * string * string))
| SendPunchHoleSent (socket_addr : list byte) (id relay_server : string) (nat : Z) (socket_addr_v6 : list byte)
| SendLocalAddr (id : string) (socket_addr local_addr : list byte) (relay_server : string) (socket_addr_v6 : list byte)
| PunchTcp (peer_addr : SocketAddr)
| ConnectRelay (relay_server uuid : string) (peer_addr : SocketAddr) (secure ipv4 : bool) (meta : Meta)
| AcceptTcp (peer_addr : SocketAddr) (secure : bool) (meta : Meta)
| ListenUdp (peer_addr : SocketAddr) (meta : Meta).

(** What the network answers to one request. *)
Record Net : Type := mkNet {
  connect_ok : bool;                        (* a TCP connection to the rendezvous server *)
  net_local_addr : SocketAddr;              (* its local address *)
  net_send_ok : bool;
  udp_ok : bool;                            (* a UDP socket for the rendezvous server *)
  ipv6_socket : option (list byte);         (* a public IPv6 socket, its mangled address *)
  micros : Z;                               (* the time since the epoch *)
  new_uuid : string }.

Section Requests.
Variables (env : Env) (net : Net) (rz : Rz).
Abbreviation M := (ST string (G * list Way)).

Definition way (w : Way) : M unit := st_modify (fun '(g, ws) => (g, ws ++ [w])).
Definition get_g : M G := s ← st_get; mret s.1.
Definition connect : M unit := if connect_ok net then mret tt else st_fail "connect".
Definition net_send (w : Way) : M unit := if net_send_ok net then way w else st_fail "send".

Definition request_id : M string :=
  g ← get_g;
  let '(i, c) := get_id (fx env) (machine env) (config g) in
  st_modify (fun '(g, ws) => (set_config c g, ws)) ;; mret i.

(** Whether the same peer asked less than 100 ms ago. *)
Definition duplicate (a : SocketAddr) (last : SocketAddr * Z) : bool :=
  bool_decide (last.1 = a) && (elapsed_ms env last.2 <? 100).

Definition get_relay_server (provided : string) (g : G) : string :=
  let s := first_nonempty (get_option (fx env) "relay-server" (config2 g)) provided in
  first_nonempty s (increase_port (host rz) 1).

Definition create_relay (socket_addr : list byte) (relay_server uuid : string) (secure initiate : bool)
    (socket_addr_v6 : list byte) (meta : Meta) : M unit :=
  let peer_addr := decode socket_addr in
  connect ;;
  offer ← (if initiate then i ← request_id; mret (Some (uuid, relay_server, i)) else mret None);
  net_send (SendRelayResponse socket_addr socket_addr_v6 offer) ;;
  way (ConnectRelay relay_server uuid peer_addr secure (is_ipv4 (addr rz)) meta).

Definition handle_request_relay (rr : RequestRelay) : M unit :=
  let a := decode (rr_socket_addr rr) in
  g ← get_g;
  st_modify (fun '(g, ws) => (set_last_relay_msg (a, now env) g, ws)) ;;
  if duplicate a (LAST_RELAY_MSG g) then mret tt
  else
    create_relay (rr_socket_addr rr) (rr_relay_server rr) (rr_uuid rr) (rr_secure rr) false []
      (mkMeta (rr_control_permissions rr) (rr_controlled_context rr)).

Definition start_ipv6 (peer_v6 peer_v4 : SocketAddr) (meta : Meta) : M (list byte) :=
  match ipv6_socket net with
  | Some a => way (ListenIpv6 peer_v6 peer_v4 meta) ;; mret a
  | None => mret []
  end.

(** The text of an IPv6 address has no brackets and is not parsed back. *)
Definition handle_intranet_ (fla : FetchLocalAddr) (relay_server : string) (socket_addr_v6 : list byte)
    (meta : Meta) : M unit :=
  let peer_addr := decode (fla_socket_addr fla) in
  connect ;;
  match net_local_addr net with
  | V6 _ _ _ _ => st_fail "parse"
  | V4 ip port =>
      i ← request_id;
      net_send (SendLocalAddr i (encode (micros net) peer_addr) (encode (micros net) (V4 ip port))
                  relay_server socket_addr_v6) ;;
      way (AcceptTcp peer_addr true meta)
  end.

Definition handle_intranet (fla : FetchLocalAddr) : M unit :=
  let a := decode (fla_socket_addr fla) in
  g ← get_g;
  st_modify (fun '(g, ws) => (set_last_msg (a, now env) g, ws)) ;;
  if duplicate a (LAST_MSG g) then mret tt
  else
    let peer_addr_v6 := decode (fla_socket_addr_v6 fla) in
    let relay_server := get_relay_server (fla_relay_server fla) g in
    let relay := use_ws (fx env) (config2 g) || is_proxy (fx env) (config2 g) in
    let meta := mkMeta (fla_control_permissions fla) (fla_controlled_context fla) in
    socket_addr_v6 ← (if (0 <? addr_port peer_addr_v6) && negb relay
                      then start_ipv6 peer_addr_v6 a meta else mret []);
    done ← (if is_ipv4 (addr rz) && negb relay && negb (is_disable_tcp_listen (fx env)) then
              r ← st_try (handle_intranet_ fla relay_server socket_addr_v6 meta);
              mret (is_ok r)
            else mret false);
    if (done : bool) then mret tt
    else create_relay (fla_socket_addr fla) relay_server (new_uuid net) true true socket_addr_v6 meta.

Definition SYMMETRIC : Z := 2.

(** [NatType::from_i32(..).unwrap_or(UNKNOWN_NAT)]. *)
Definition known_nat (n : Z) : Z := if (0 <=? n) && (n <=? 2) then n else 0.

Definition punch_udp_hole (peer_addr : SocketAddr) (msg : Way) (meta : Meta) : M unit :=
  (if udp_ok net then mret tt else st_fail "udp") ;;
  net_send msg ;;
  way (ListenUdp peer_addr meta).

Definition handle_punch_hole (ph : PunchHole) : M unit :=
  let peer_addr := decode (ph_socket_addr ph) in
  g ← get_g;
  st_modify (fun '(g, ws) => (set_last_msg (peer_addr, now env) g, ws)) ;;
  if duplicate peer_addr (LAST_MSG g) then mret tt
  else
    let peer_addr_v6 := decode (ph_socket_addr_v6 ph) in
    let relay := use_ws (fx env) (config2 g) || is_proxy (fx env) (config2 g) || ph_force_relay ph in
    let meta := mkMeta (ph_control_permissions ph) (ph_controlled_context ph) in
    socket_addr_v6 ← (if (0 <? addr_port peer_addr_v6) && negb relay
                      then start_ipv6 peer_addr_v6 peer_addr meta else mret []);
    let relay_server := get_relay_server (ph_relay_server ph) g in
    if (ph_nat_type ph =? SYMMETRIC) || (nat_type (config2 g) =? SYMMETRIC) || relay
       || (is_disable_tcp_listen (fx env) && (ph_udp_port ph <=? 0))
    then create_relay (ph_socket_addr ph) relay_server (new_uuid net) true true socket_addr_v6 meta
    else
      i ← request_id;
      let msg_punch := SendPunchHoleSent (ph_socket_addr ph) i relay_server (known_nat (nat_type (config2 g)))
                         socket_addr_v6 in
      if 0 <? ph_udp_port ph then punch_udp_hole (set_port (as_u16 (ph_udp_port ph)) peer_addr) msg_punch meta
      else
        connect ;;
        way (PunchTcp peer_addr) ;;
        net_send msg_punch ;;
        way (AcceptTcp peer_addr true meta).

(** The task that a server's request is given to. *)
Definition handle_request (r : Request) : M unit :=
  match r with
  | Punch ph => handle_punch_hole ph
  | Relay rr => handle_request_relay rr
  | Intranet fla => handle_intranet fla
  end.
End Requests.

Definition request_meta (r : Request) : Meta :=
  match r with
  | Punch ph => mkMeta (ph_control_permissions ph) (ph_controlled_context ph)
  | Relay rr => mkMeta (rr_control_permissions rr) (rr_controlled_context rr)
  | Intranet fla => mkMeta (fla_control_permissions fla) (fla_controlled_context fla)
  end.

Definition request_addr (r : Request) : SocketAddr :=
  decode match r with
         | Punch ph => ph_socket_addr ph | Relay rr => rr_socket_addr rr | Intranet fla => fla_socket_addr fla
         end.

(** ** The server for direct access *)

Definition get_direct_port (fx : Fixed) (c : Config2) : Z :=
  let port := default 0 (parse_int 32 (get_option fx "direct-access-port" c)) in
  if port <=? 0 then RENDEZVOUS_PORT + 2 else port.

Definition direct_disabled (fx : Fixed) (c : Config2) : bool :=
  negb (option2bool "direct-server" (get_option fx "direct-server" c))
  || option2bool "stop-service" (get_option fx "stop-service" c).

(** One turn of the loop of [direct_server]: the port of the listener, when there is one.
    [listen] says whether a port can be listened on; after a failure the loop waits until
    another port is configured ([Waiting]). *)
Inductive Direct : Type :=
| NotListening
| Waiting (port : Z)
| Listening (port : Z).

Definition direct_turn (fx : Fixed) (c : Config2) (listen : Z -> bool) (d : Direct) : Direct :=
  let port := get_direct_port fx c in
  match d with
  | Waiting p => if port =? p then Waiting p else NotListening
  | NotListening =>
      if direct_disabled fx c then NotListening
      else if listen (as_u16 port) then Listening port
      else Waiting port
  | Listening p => if direct_disabled fx c || negb (port =? p) then NotListening else Listening p
  end.

(** ** Lemmas on time and on runs *)

Lemma elapsed_ms_ge env t k : k <= elapsed_ms env t -> 0 < k -> t + k * 1000 <= now env.
Proof. unfold elapsed_ms, elapsed_us. intros. zlia. Qed.

Lemma elapsed_ms_lt env t k : elapsed_ms env t < k -> now env < t + k * 1000.
Proof. unfold elapsed_ms, elapsed_us. intros. zlia. Qed.

(** What a step does, when there is a task. *)
Lemma udp_step_run h env e s s' o :
  udp_step h env e s = (s', o) ->
  tasks s !! h = None /\ s' = s /\ o = [] \/
  exists r l rs w, tasks s !! h = Some (r, l) /\ udp_event env e (mkW (globals s) r l []) = (rs, w) /\
    o = outs w /\ config (globals s') = config (g w) /\ NEEDS_DEPLOY (globals s') = NEEDS_DEPLOY (g w) /\
    LAST_NOT_DEPLOYED_REGISTER (globals s') = LAST_NOT_DEPLOYED_REGISTER (g w) /\
    online (globals s') = online (g w) /\
    (tasks s' = <[h := (rz w, lo w)]> (tasks s) /\ rs = Ok Continue /\ globals s' = g w
     \/ tasks s' = base.delete h (tasks s) /\ rs <> Ok Continue).
Proof.
  unfold udp_step. destruct (tasks s !! h) as [[r l]|] eqn:Et; [|intros [= <- <-]; by left].
  destruct (udp_event _ _ _) as [[[|]|err] w] eqn:Ee; intros [= <- <-]; right; exists r, l; do 2 eexists;
    (split; [done|]); (split; [exact Ee|]); cbn; split_and!; try done; [by left|by right|by right].
Qed.

Lemma udp_run_step x steps s s' trace :
  udp_run (x :: steps) s = (s', trace) ->
  exists s1 o tr, udp_step (st_host x) (st_env x) (st_event x) s = (s1, o) /\
    udp_run steps s1 = (s', tr) /\ trace = (x, o) :: tr.
Proof.
  cbn [udp_run]. destruct (udp_step _ _ _ s) as [s1 o]. destruct (udp_run steps s1) as [s2 tr] eqn:E.
  intros [= <- <-]. by do 3 eexists.
Qed.

(** Times, microseconds, at least [k] apart, the first of them [k] after [last]. *)
Fixpoint spaced (k : Z) (last : option Z) (times : list Z) : Prop :=
  match times with
  | [] => True
  | t :: times => match last with Some s => s + k <= t | None => True end /\ spaced k (Some t) times
  end.

Lemma spaced_weaken k last last' times :
  spaced k (Some last') times -> (forall s, last = Some s -> s <= last') -> spaced k last times.
Proof.
  destruct times as [|t times]; [done|]. cbn. intros [Ht H] Hl. split; [|done].
  destruct last as [s|]; [|done]. specialize (Hl s eq_refl). lia.
Qed.

(** The task of a server keeps the server's name. *)
Definition prefix_of (h : string) : string := get_host_prefix (check_port h RENDEZVOUS_PORT).
Definition named (s : Sys) : Prop :=
  forall h r l, tasks s !! h = Some (r, l) -> host_prefix r = prefix_of h.

(** ** Examples to compute with *)

Definition ex_env (t : Z) : Env :=
  mkEnv t ex_fixed ∅ (mkHost None None) 1234567890 [x01] (fun m => map_to_list m) true (Ok None).
Definition ex_addr : SocketAddr := V4 [x00; x00; x00; x00] 0.
Definition ex_g : G :=
  mkG (mkConfig "123" false ∅) ex_config2 ∅ "" (ex_addr, 0) (ex_addr, 0) false false false false None.
Definition ex_task : Rz * UdpLoop := start_udp 0 "rs-ny.rustdesk.com" (Domain "rs-ny.rustdesk.com" 21116).
Definition ex_sys : Sys := mkSys ex_g {[ "rs-ny.rustdesk.com" := ex_task ]}.

Definition ex_host : string := "rs-ny.rustdesk.com".
Definition ex_steps : list Step :=
  [mkStep ex_host (ex_env 1000000) Tick;
   mkStep ex_host (ex_env 1100000) (Receive (Message (Some (RegisterPkResponse NOT_DEPLOYED 0))));
   mkStep ex_host (ex_env 17000000) Tick;
   mkStep ex_host (ex_env 17100000) (Receive (Message (Some (RegisterPkResponse NOT_DEPLOYED 0))));
   mkStep ex_host (ex_env 48000000) Tick].

Definition ex_run (s : Sys) : list (Step * list Output) := (udp_run ex_steps s).2.

Lemma ex_run_eq s : udp_run ex_steps s = ((udp_run ex_steps s).1, ex_run s).
Proof. apply surjective_pairing. Qed.

Lemma ex_sys_named : named ex_sys.
Proof.
  intros h r l E. unfold ex_sys in E. cbn [tasks] in E. apply lookup_singleton_Some in E as [<- E]. injection E as <- <-. vm_compute. reflexivity.
Qed.
