(* ===== verification/RendezvousKeys.v ===== *)
(** * Registration with the rendezvous servers: keys and identity

    Theorems about [Rendezvous], over all sequences of messages and ticks of the tasks of
    all servers: when a server's key counts as registered, when the program announces
    itself, how a conflict of ids is solved, and how often the key of a device that waits
    for its deployment is sent. *)

From stdpp Require Import gmap pretty.
From S2P Require Import Prelude AddrMangle Hosts Options Rendezvous.

Lemma get_id_keys fx h c i c' :
  get_id fx h c = (i, c') -> key_confirmed c' = key_confirmed c /\ keys_confirmed c' = keys_confirmed c.
Proof.
  unfold get_id, set_id. repeat case_bool_decide; try (destruct (gen_id fx h)); repeat case_bool_decide;
    by intros [= <- <-].
Qed.

(** *** Confirmed keys *)

(** No server's key is confirmed while the key is not. *)
Definition keys_ok (c : Config) : Prop :=
  key_confirmed c = false -> forall h, get_host_key_confirmed h c = false.

Definition unconfirmed (p : string) (c : Config) : Prop :=
  keys_ok c /\ get_host_key_confirmed p c = false.

Lemma set_key_false c : keys_ok c -> forall p, unconfirmed p (set_key_confirmed false c).
Proof.
  unfold set_key_confirmed. intros Hc p. destruct (key_confirmed c) eqn:E; cbn.
  - split; [intros _ h|]; unfold get_host_key_confirmed; cbn; by rewrite lookup_empty.
  - split; [done|by apply Hc].
Qed.

Lemma key_set_key v c : key_confirmed (set_key_confirmed v c) = v.
Proof. unfold set_key_confirmed. destruct (Bool.eqb _ _) eqn:E; [by apply eqb_prop in E|done]. Qed.

Lemma set_key_true p c : unconfirmed p c -> unconfirmed p (set_key_confirmed true c).
Proof.
  intros [Hk Hp]. unfold set_key_confirmed. destruct (key_confirmed c) eqn:E; [done|].
  split; [done|]. exact Hp.
Qed.

Lemma get_set_host q v p c :
  get_host_key_confirmed p (set_host_key_confirmed q v c)
  = if decide (p = q) then v else get_host_key_confirmed p c.
Proof.
  unfold set_host_key_confirmed. destruct (Bool.eqb _ _) eqn:E.
  - apply eqb_prop in E. by case_decide; subst.
  - unfold get_host_key_confirmed. cbn. rewrite lookup_insert.
    case_decide as H1; case_decide as H2; subst; try done.
    destruct v; [by apply bool_decide_eq_true_2|by apply bool_decide_eq_false_2].
Qed.

Lemma set_host_key_keeps q v c :
  key_confirmed (set_host_key_confirmed q v c) = key_confirmed c.
Proof. unfold set_host_key_confirmed. by destruct (Bool.eqb _ _). Qed.

Lemma set_host_unconfirmed q v p c :
  unconfirmed p c -> (v = true -> key_confirmed c = true) -> (q = p -> v = false) ->
  unconfirmed p (set_host_key_confirmed q v c).
Proof.
  intros [Hk Hp] Hv Hq. split.
  - intros H h. rewrite set_host_key_keeps in H. rewrite get_set_host. case_decide; [|by apply Hk].
    destruct v; [|done]. by rewrite Hv in H.
  - rewrite get_set_host. case_decide; [|done]. by apply Hq.
Qed.

Lemma same_keys_unconfirmed p c c' :
  key_confirmed c' = key_confirmed c -> keys_confirmed c' = keys_confirmed c ->
  unconfirmed p c -> unconfirmed p c'.
Proof.
  intros H1 H2 [Hk Hp]. unfold unconfirmed, keys_ok, get_host_key_confirmed in *. by rewrite H1, H2.
Qed.

Lemma update_id_keys fx h n c p : unconfirmed p c -> unconfirmed p (update_id fx h n c).
Proof.
  unfold update_id. destruct (get_id fx h c) as [i c'] eqn:E. apply get_id_keys in E as [E1 E2].
  unfold set_id. case_bool_decide; intros Hu; by eapply same_keys_unconfirmed.
Qed.

Definition is_peer (o : Output) : bool := match o with SendRegisterPeer _ _ => true | _ => false end.
Definition is_pk (o : Output) : bool := match o with SendRegisterPk _ _ _ => true | _ => false end.

(** While the key of [p] is unconfirmed it stays so, and no presence is sent to a server of
    that name. *)
Section Keys.
Context {L : Type} (p : string).

Definition keeps_unconfirmed (w w' : W L) : Prop :=
  unconfirmed p (config (g w)) ->
  unconfirmed p (config (g w')) /\ host_prefix (rz w') = host_prefix (rz w) /\
  (host_prefix (rz w) = p -> List.filter is_peer (outs w') = List.filter is_peer (outs w)).

#[local] Instance keeps_unconfirmed_refl : Reflexive keeps_unconfirmed.
Proof. by intros w H. Qed.
#[local] Instance keeps_unconfirmed_trans : Transitive keeps_unconfirmed.
Proof.
  intros w1 w2 w3 H1 H2 H. destruct (H1 H) as (U & E & F). destruct (H2 U) as (U' & E' & F').
  split_and!; [done|congruence|]. intros Hp. rewrite F', F; congruence.
Qed.

Variable env : Env.
Abbreviation at_ m w := (st_at (E := string) keeps_unconfirmed m w).

Lemma modify_keeps f w :
  (unconfirmed p (config (g w)) -> unconfirmed p (config (g (f w)))) ->
  host_prefix (rz (f w)) = host_prefix (rz w) -> outs (f w) = outs w ->
  at_ (st_modify f) w.
Proof. intros Hc Hr Ho Hu. cbn. rewrite Hr, Ho. auto. Qed.

Lemma send_keeps o w : is_peer o = false -> at_ (send env o) w.
Proof.
  intros Ho. unfold send. apply st_at_if; intros _; [|apply st_at_fail; apply _].
  intros Hu. cbn. split_and!; [done|done|]. intros _. rewrite List.filter_app. cbn. rewrite Ho.
  apply app_nil_r.
Qed.

Lemma current_id_keeps w : at_ (current_id env) w.
Proof.
  unfold current_id. apply st_at_get_bind. destruct (get_id _ _ _) as [i c] eqn:E.
  apply get_id_keys in E as [E1 E2].
  apply (st_at_bind _); [|intros; apply (st_at_ret _)].
  apply modify_keeps; [|done|done]. by apply same_keys_unconfirmed.
Qed.

Lemma register_pk_keeps w : at_ (register_pk env) w.
Proof.
  unfold register_pk. repeat st_step; try (by apply modify_keeps).
  - apply current_id_keeps.
  - by apply send_keeps.
Qed.

Lemma on_config_keeps f w :
  (unconfirmed p (config (g w)) -> unconfirmed p (f (config (g w)))) -> at_ (on_config f) w.
Proof. intros Hf. by apply modify_keeps. Qed.

Lemma handle_uuid_mismatch_keeps w : at_ (handle_uuid_mismatch env) w.
Proof.
  unfold handle_uuid_mismatch. repeat st_step; try (by apply modify_keeps); [| |apply register_pk_keeps].
  - apply on_config_keeps. intros [Hk _]. by apply set_key_false.
  - by apply on_config_keeps, update_id_keys.
Qed.

(** A server whose key is unconfirmed is sent the key. *)
Lemma register_peer_keeps w : at_ (register_peer env) w.
Proof.
  unfold register_peer. apply st_at_get_bind.
  apply st_at_if; intros _; [apply (st_at_ret _)|].
  apply st_at_if; [intros _; apply register_pk_keeps|]. intros [_ Hk%negb_false_iff]%orb_false_iff.
  destruct (decide (host_prefix (rz w) = p)) as [Hp|Hp].
  - intros [_ Hu]. by rewrite Hp, Hu in Hk.
  - intros Hu. refine (st_at_bind _ _ _ _ (current_id_keeps w) _ Hu). intros i w' _ Hw' Hu'.
    destruct (Hw' Hu) as (_ & E & _). unfold send. destruct (send_ok env); cbn; [|done].
    split_and!; [done|done|]. by rewrite E.
Qed.

Lemma report_latency_keeps n w : at_ (report_latency env n) w.
Proof.
  unfold report_latency. repeat st_step. by apply modify_keeps.
Qed.

(** The answer that confirms the key of a server. *)
Definition confirms (r : Rz) (m : option Union) : bool :=
  match m with
  | Some (RegisterPkResponse result _) => bool_decide (result = PK_OK) && bool_decide (host_prefix r = p)
  | _ => false
  end.

Lemma pk_ok_keeps w :
  host_prefix (rz w) <> p ->
  at_ on_pk_registered w.
Proof.
  intros Hp. intros Hu. cbn. split_and!; [|done|done].
  apply set_host_unconfirmed; [by apply set_key_true| |done]. intros _. apply key_set_key.
Qed.

Lemma not_deployed_keeps w :
  at_ on_not_deployed w.
Proof.
  intros [Hk Hu]. cbn. split_and!; [|done|done].
  apply set_host_unconfirmed; [by apply set_key_false|done|done].
Qed.

Lemma on_pk_result_keeps result w :
  bool_decide (result = PK_OK) && bool_decide (host_prefix (rz w) = p) = false -> at_ (on_pk_result env result) w.
Proof.
  intros Hc. unfold on_pk_result. apply st_at_if; intros H1.
  { apply pk_ok_keeps. rewrite H1 in Hc. by apply bool_decide_eq_false_1 in Hc. }
  apply st_at_if; intros _; [apply handle_uuid_mismatch_keeps|].
  apply st_at_if; intros _; [apply not_deployed_keeps|apply (st_at_ret _)].
Qed.

Lemma handle_resp_keeps upd m w :
  (forall w, at_ upd w) -> confirms (rz w) m = false -> at_ (handle_resp env upd m) w.
Proof.
  intros Hupd Hc. destruct m as [[b|result ka|r|ser ss|]|]; cbn [handle_resp]; try apply (st_at_ret _).
  - apply (st_at_bind _); [apply Hupd|]. intros _ w1 _ _.
    apply st_at_if; intros _; [apply register_pk_keeps|apply (st_at_ret _)].
  - intros Hu. refine (st_at_bind _ _ _ _ (Hupd w) _ Hu). intros _ w1 _ Hw1 Hu1.
    refine (st_at_bind keeps_unconfirmed _ _ _ _ _ Hu1).
    + apply on_pk_result_keeps. cbn in Hc. destruct (Hw1 Hu) as (_ & -> & _). done.
    + intros _ w2 _ _. apply st_at_if; intros _; [by apply modify_keeps|apply (st_at_ret _)].
  - intros Hu. cbn. split_and!; [done|done|]. intros _. rewrite List.filter_app. cbn. by rewrite app_nil_r.
  - apply st_at_get_bind. apply (st_at_bind _); [by apply modify_keeps|]. intros _ w1 _ _.
    apply st_at_get_bind. apply st_at_if; intros _; [apply (st_at_ret _)|by apply modify_keeps].
Qed.
End Keys.

Section UdpKeys.
Variables (p : string) (env : Env).
Abbreviation at_ m w := (st_at (E := string) (keeps_unconfirmed (L := UdpLoop) p) m w).
#[local] Existing Instance keeps_unconfirmed_refl.
#[local] Existing Instance keeps_unconfirmed_trans.

Lemma on_lo_keeps f w : at_ (st_modify (on_lo f)) w.
Proof. by apply modify_keeps. Qed.

Lemma udp_update_latency_keeps w : at_ (udp_update_latency env) w.
Proof.
  unfold udp_update_latency. repeat st_step; (apply on_lo_keeps || apply report_latency_keeps).
Qed.

Lemma rebind_keeps w : at_ (rebind_if_due env) w.
Proof.
  unfold rebind_if_due. repeat st_step; by apply modify_keeps.
Qed.

Lemma on_timeout_keeps w : at_ (on_timeout env) w.
Proof.
  unfold on_timeout. repeat st_step; (apply on_lo_keeps || apply report_latency_keeps || apply rebind_keeps).
Qed.

Lemma udp_tick_keeps w : at_ (udp_tick env) w.
Proof.
  unfold udp_tick. repeat st_step;
    (apply on_lo_keeps || apply on_timeout_keeps || apply register_peer_keeps).
Qed.

Definition event_confirms (r : Rz) (e : Event) : bool :=
  match e with Receive (Message m) => confirms p r m | _ => false end.

Lemma udp_event_keeps e w : event_confirms (rz w) e = false -> at_ (udp_event env e) w.
Proof.
  destruct e as [[m| | | |]|]; cbn [udp_event udp_receive event_confirms]; intros Hc;
    try apply (st_at_ret _); try apply (st_at_fail _).
  - apply (st_at_bind _); [|intros; apply (st_at_ret _)].
    apply handle_resp_keeps; [apply udp_update_latency_keeps|done].
  - apply udp_tick_keeps.
Qed.
End UdpKeys.

Lemma udp_step_keeps p h env e s s' o :
  udp_step h env e s = (s', o) -> named s ->
  (prefix_of h = p -> forall result ka, e = Receive (Message (Some (RegisterPkResponse result ka))) -> result <> PK_OK) ->
  unconfirmed p (config (globals s)) ->
  named s' /\ unconfirmed p (config (globals s')) /\ (prefix_of h = p -> List.filter is_peer o = []).
Proof.
  intros Hs Hn He Hu. apply udp_step_run in Hs as [(Ht & -> & ->)|(r & l & rs & w & Ht & Hw & -> & Hc & _ & _ & _ & Ht')].
  { done. }
  assert (Hcf : event_confirms p r e = false).
  { destruct e as [[[[| result ka| | |]|]| | | |]|]; try done. cbn. rewrite (Hn _ _ _ Ht).
    destruct (bool_decide_reflect (result = PK_OK)) as [E|]; [|done]. cbn. apply bool_decide_eq_false_2.
    intros Hp. by apply (He Hp result ka). }
  pose proof (udp_event_keeps p env e (mkW (globals s) r l []) Hcf) as Hk. unfold st_at in Hk. rewrite Hw in Hk.
  destruct (Hk Hu) as (Hu' & Hr & Ho). cbn in Hu', Hr, Ho. split_and!.
  - intros h' r' l' E. destruct Ht' as [(E' & _)|(E' & _)]; rewrite E' in E.
    + apply lookup_insert_Some in E as [[<- [= <- <-]]|[_ E]]; [rewrite Hr|]; by eapply Hn.
    + apply lookup_delete_Some in E as [_ E]. by eapply Hn.
  - by rewrite Hc.
  - intros Hp. apply Ho. rewrite <- Hp. by eapply Hn.
Qed.

Definition is_ok_answer (e : Event) : bool :=
  match e with
  | Receive (Message (Some (RegisterPkResponse result _))) => bool_decide (result = PK_OK)
  | _ => false
  end.

(** The program's key is unconfirmed only together with every server's: an answer of one
    server cannot break this for the others. *)
Lemma keys_ok_step h env e s s' o :
  udp_step h env e s = (s', o) -> named s -> keys_ok (config (globals s)) ->
  named s' /\ keys_ok (config (globals s')).
Proof.
  intros Hs Hn Hk.
  set (p := fresh (dom (keys_confirmed (config (globals s))) ∪ {[ prefix_of h ]})).
  assert (Hp : p ∉ dom (keys_confirmed (config (globals s))) ∪ {[ prefix_of h ]}) by apply is_fresh.
  apply not_elem_of_union in Hp as [Hd Hp%not_elem_of_singleton].
  destruct (udp_step_keeps p _ _ _ _ _ _ Hs Hn) as (Hn' & [Hk' _] & _); [congruence| |done].
  split; [done|]. unfold get_host_key_confirmed. apply not_elem_of_dom in Hd. by rewrite Hd.
Qed.


(** *** Waiting for deployment *)

Definition pks (l : list Output) : list Output := List.filter is_pk l.

Section Deploy.
Context {L : Type} (env : Env).

(** While the device waits for its deployment, an event sends the key at most once, and
    only when the last time is long enough ago. *)
Definition waits (w w' : W L) : Prop :=
  NEEDS_DEPLOY (g w) = true ->
  NEEDS_DEPLOY (g w') = true /\
  (pks (outs w') = pks (outs w) /\
     LAST_NOT_DEPLOYED_REGISTER (g w') = LAST_NOT_DEPLOYED_REGISTER (g w)
   \/ deploy_register_throttled env (g w) = false /\ LAST_NOT_DEPLOYED_REGISTER (g w') = Some (now env)).

#[local] Instance waits_refl : Reflexive waits.
Proof. intros w H. auto. Qed.
#[local] Instance waits_trans : Transitive waits.
Proof.
  intros w1 w2 w3 H1 H2 H. destruct (H1 H) as (N & C). destruct (H2 N) as (N' & C'). split; [done|].
  destruct C as [[P1 E1]|[T1 E1]], C' as [[P2 E2]|[T2 E2]].
  - left. split; congruence.
  - right. split; [|done]. unfold deploy_register_throttled in *. rewrite H. by rewrite N, E1 in T2.
  - right. by rewrite E2.
  - right. done.
Qed.

Abbreviation at_ m w := (st_at (E := string) waits m w).

Lemma modify_waits f w :
  NEEDS_DEPLOY (g (f w)) = NEEDS_DEPLOY (g w) ->
  LAST_NOT_DEPLOYED_REGISTER (g (f w)) = LAST_NOT_DEPLOYED_REGISTER (g w) -> pks (outs (f w)) = pks (outs w) ->
  at_ (st_modify f) w.
Proof. intros Hn Hl Ho Hu. cbn. rewrite Hn. auto. Qed.

Lemma send_waits o w : is_pk o = false -> at_ (send env o) w.
Proof.
  intros Ho. unfold send. repeat st_step. apply modify_waits; [done|done|].
  cbn. unfold pks. rewrite List.filter_app. cbn. rewrite Ho. apply app_nil_r.
Qed.

Lemma current_id_waits w : at_ (current_id env) w.
Proof. unfold current_id. repeat st_step. by apply modify_waits. Qed.

Lemma register_pk_waits w : at_ (register_pk env) w.
Proof.
  unfold register_pk. apply st_at_get_bind. apply st_at_if; intros Ht; [apply (st_at_ret _)|].
  intros Hn. unfold current_id, send, modify_g, mbind, st_mbind, st_bind, st_get, st_modify. cbn -[get_id].
  destruct (get_id (fx env) (machine env) (config (g w))) as [i c]. cbn.
  destruct (send_ok env); cbn; rewrite Hn; auto.
Qed.

Lemma report_latency_waits n w : at_ (report_latency env n) w.
Proof. unfold report_latency. repeat st_step. by apply modify_waits. Qed.

Lemma on_config_waits f w : at_ (on_config f) w.
Proof. by apply modify_waits. Qed.

Lemma uuid_mismatch_waits w : at_ (handle_uuid_mismatch env) w.
Proof.
  unfold handle_uuid_mismatch. repeat st_step; (apply register_pk_waits || by apply modify_waits).
Qed.

Lemma register_peer_waits w : at_ (register_peer env) w.
Proof.
  unfold register_peer. repeat st_step;
    (apply register_pk_waits || apply current_id_waits || by apply send_waits).
Qed.

Lemma not_deployed_waits w : at_ on_not_deployed w.
Proof. intros Hn. cbn. auto. Qed.

Lemma pk_result_waits result w : result <> PK_OK -> at_ (on_pk_result env result) w.
Proof.
  intros Hr. unfold on_pk_result. rewrite (bool_decide_false (result = PK_OK)) by done.
  repeat st_step; (apply uuid_mismatch_waits || apply not_deployed_waits).
Qed.

Lemma handle_resp_waits upd m w :
  (forall w, at_ upd w) -> is_ok_answer (Receive (Message m)) = false -> at_ (handle_resp env upd m) w.
Proof.
  intros Hupd Hc. destruct m as [[b|result ka|r|ser ss|]|]; cbn [handle_resp]; repeat st_step;
    try (apply Hupd || apply register_pk_waits || by apply modify_waits).
  - apply pk_result_waits. cbn in Hc. by apply bool_decide_eq_false_1 in Hc.
  - apply modify_waits; [done|done|]. cbn. unfold pks. rewrite List.filter_app. cbn. apply app_nil_r.
Qed.
End Deploy.

Section UdpDeploy.
Variable env : Env.
Abbreviation at_ m w := (st_at (E := string) (waits (L := UdpLoop) env) m w).
#[local] Existing Instance waits_refl.
#[local] Existing Instance waits_trans.

Lemma udp_event_waits e w : is_ok_answer e = false -> at_ (udp_event env e) w.
Proof.
  intros Hc. destruct e as [[m| | | |]|]; cbn [udp_event udp_receive].
  - repeat st_step. apply handle_resp_waits; [|done]. intros w'. unfold udp_update_latency.
    repeat st_step; (apply report_latency_waits || by apply modify_waits).
  - cbn [handle_resp]. by repeat st_step.
  - by repeat st_step.
  - by repeat st_step.
  - by repeat st_step.
  - unfold udp_tick, on_timeout, rebind_if_due.
    repeat st_step; (apply report_latency_waits || apply register_peer_waits || by apply modify_waits).
Qed.
End UdpDeploy.

(** When the key was sent. *)
Definition key_times (trace : list (Step * list Output)) : list Z :=
  omap (fun '(x, o) => if decide (pks o = []) then None else Some (now (st_env x))) trace.

(** From the moment a server has said that the device is not deployed until one says
    that its key is registered, the tasks together send the key at most once in 30 s,
    whatever the servers send. *)
Theorem deployment_is_awaited steps s s' trace :
  NEEDS_DEPLOY (globals s) = true ->
  Forall (fun x => is_ok_answer (st_event x) = false) steps ->
  udp_run steps s = (s', trace) ->
  NEEDS_DEPLOY (globals s') = true /\
  spaced (DEPLOY_RETRY_INTERVAL * 1000) (LAST_NOT_DEPLOYED_REGISTER (globals s)) (key_times trace).
Proof.
  revert s trace. induction steps as [|x steps IH]; intros s trace Hn Hf Hr.
  { injection Hr as <- <-. done. }
  apply Forall_cons in Hf as [Hx Hf]. apply udp_run_step in Hr as (s1 & o & tr & Hs & Hr & ->).
  unfold key_times. cbn [omap list_omap].
  apply udp_step_run in Hs as [(_ & -> & ->)|(r & l & rs & w & _ & Hw & -> & _ & Hn1 & Hl1 & _)].
  { apply (IH _ _ Hn Hf Hr). }
  pose proof (udp_event_waits (st_env x) _ (mkW (globals s) r l []) Hx) as Hev.
  unfold st_at in Hev. rewrite Hw in Hev. destruct (Hev Hn) as (Hn' & Hc). cbn in Hn', Hc.
  destruct (IH s1 tr ltac:(congruence) Hf Hr) as [HN HS]. split; [done|].
  rewrite Hl1 in HS. destruct Hc as [[Hp Hl]|[Ht Hl]]; rewrite Hl in HS.
  - rewrite decide_True by (cbn in Hp; done). done.
  - assert (Hd : forall s0, LAST_NOT_DEPLOYED_REGISTER (globals s) = Some s0 ->
                   s0 + DEPLOY_RETRY_INTERVAL * 1000 <= now (st_env x)).
    { intros s0 E. unfold deploy_register_throttled in Ht. rewrite Hn, E in Ht. cbn [negb] in Ht. to_prop.
      apply (elapsed_ms_ge _ _ _ Ht). done. }
    case_decide.
    + eapply spaced_weaken; [exact HS|]. intros s0 E. specialize (Hd s0 E). unfold DEPLOY_RETRY_INTERVAL in Hd. lia.
    + split; [|done]. destruct (LAST_NOT_DEPLOYED_REGISTER (globals s)); [by apply Hd|done].
Qed.

(** *** An identity that another machine has *)

Lemma pretty_pos_nonempty n : 0 < n -> pretty n <> "".
Proof. intros Hn E. pose proof (digits_pretty n Hn) as H. rewrite E in H. injection H. lia. Qed.

Lemma get_id_kept fx h c : id c <> "" -> get_id fx h c = (id c, c).
Proof. intros H. unfold get_id. by rewrite bool_decide_false. Qed.

Lemma update_id_new fx h n c : id (update_id fx h n c) = pretty n.
Proof.
  unfold update_id. destruct (get_id fx h c) as [i c']. unfold set_id. by case_bool_decide.
Qed.

Lemma register_pk_run {L} env (w : W L) :
  deploy_register_throttled env (g w) = false -> send_ok env = true -> id (config (g w)) <> "" ->
  register_pk env w =
  (Ok tt, mkW (set_sent true (set_deploy (NEEDS_DEPLOY (g w))
                 (if NEEDS_DEPLOY (g w) then Some (now env) else None) (g w)))
            (rz w) (lo w)
            (outs w ++ [SendRegisterPk (id (config (g w))) (key_pair_pk env) (no_register_device (fx env))])).
Proof.
  intros Ht Hs Hi. unfold register_pk, current_id, send, modify_g, mbind, st_mbind, st_bind, st_get, st_modify,
    mret, st_mret, st_ret. cbn -[get_id]. rewrite Ht. cbn -[get_id]. by rewrite get_id_kept, Hs.
Qed.

(** when a server says that the id belongs to another machine, a new id is taken, the
    old registrations are forgotten at every server, and the new id is sent with the key at
    once; while one server's conflict is being solved, the others' answers change nothing. *)
Theorem conflict_gets_a_new_id {L} env (w : W L) :
  keys_ok (config (g w)) -> 0 < random_id env -> send_ok env = true ->
  deploy_register_throttled env (g w) = false ->
  let (res, w') := handle_uuid_mismatch env w in
  res = Ok tt /\
  if bool_decide (SOLVING_PK_MISMATCH (g w) = "" \/ SOLVING_PK_MISMATCH (g w) = host (rz w)) then
    id (config (g w')) = pretty (random_id env) /\ (forall p, unconfirmed p (config (g w'))) /\
    SOLVING_PK_MISMATCH (g w') = host (rz w) /\
    outs w' = outs w ++ [SendRegisterPk (pretty (random_id env)) (key_pair_pk env) (no_register_device (fx env))]
  else w' = w.
Proof.
  intros Hk Hr Hs Ht. unfold handle_uuid_mismatch. rewrite st_bind_run. cbn [st_get].
  rewrite <- bool_decide_or. case_bool_decide as Hc; [|done].
  set (c := update_id (fx env) (machine env) (random_id env) (set_key_confirmed false (config (g w)))).
  assert (Hid : id c = pretty (random_id env)) by apply update_id_new.
  assert (Hu : forall p, unconfirmed p c) by (intros p; by apply update_id_keys, set_key_false).
  rewrite st_bind_run. cbn [on_config modify_g st_modify]. rewrite st_bind_run.
  cbn [on_config modify_g st_modify]. rewrite st_bind_run. cbn [modify_g st_modify].
  match goal with |- context [register_pk env ?w2] =>
    rewrite (register_pk_run env w2 Ht Hs); change (config (g w2)) with c end;
    rewrite Hid; [|by apply pretty_pos_nonempty].
  split; [done|]. cbn. fold c. by rewrite Hid.
Qed.

(** ** Where the code differs from what it says *)

(** The number of seconds that the server wants the connection kept open is multiplied
    without a check: a large one becomes less than a second. *)
Example keep_alive_wraps :
  keep_alive (rz (handle_resp (ex_env 0) (mret tt) (Some (RegisterPkResponse PK_OK 4294968))
    (mkW ex_g ex_task.1 ex_task.2 [])).2) = 704.
Proof. vm_compute. reflexivity. Qed.

(** An answer does not say which id it confirms: the late answer to the registration of the
    old id confirms the new one. *)
Example late_answer_confirms_new_id :
  let w := mkW ex_g ex_task.1 ex_task.2 [] in
  let w1 := (handle_resp (ex_env 0) (mret tt) (Some (RegisterPkResponse UUID_MISMATCH 0)) w).2 in
  let w2 := (handle_resp (ex_env 1) (mret tt) (Some (RegisterPkResponse PK_OK 0)) w1).2 in
  id (config (g w2)) = "1234567890" /\ key_confirmed (config (g w2)) = true /\
  (register_peer (ex_env 2) w2).2.(outs)
  = [SendRegisterPk "1234567890" [x01] false; SendRegisterPeer "1234567890" 3].
Proof. vm_compute. split_and!; reflexivity. Qed.

(** ** Witnesses *)


Definition ex_waiting : Sys := mkSys (set_deploy true None ex_g) (tasks ex_sys).

Lemma deployment_is_awaited_witness :
  key_times (ex_run ex_waiting) = [1000000; 48000000] /\
  spaced (DEPLOY_RETRY_INTERVAL * 1000) (LAST_NOT_DEPLOYED_REGISTER (globals ex_waiting))
    (key_times (ex_run ex_waiting)).
Proof.
  split; [vm_compute; reflexivity|].
  exact (proj2 (deployment_is_awaited ex_steps ex_waiting (udp_run ex_steps ex_waiting).1 (ex_run ex_waiting)
    eq_refl ltac:(repeat constructor) (ex_run_eq ex_waiting))).
Defined.

Lemma conflict_gets_a_new_id_witness :
  id (config (g (handle_uuid_mismatch (ex_env 0) (mkW ex_g ex_task.1 ex_task.2 [])).2)) = "1234567890".
Proof.
  pose proof (conflict_gets_a_new_id (ex_env 0) (mkW ex_g ex_task.1 ex_task.2 [])
    ltac:(intros _ h; reflexivity) ltac:(reflexivity) ltac:(reflexivity) ltac:(reflexivity)) as H.
  destruct (handle_uuid_mismatch _ _) as [res w']. apply H.
Defined.
