(* ===== verification/RendezvousTimer.v ===== *)
(** * Registration with the rendezvous servers: time

    Theorems about the timer of [Rendezvous]: a server that does not answer is noticed in
    bounded time, and no server is registered with more often than it should be. *)

From stdpp Require Import gmap pretty.
From S2P Require Import Prelude AddrMangle Hosts Options Rendezvous.

(** *** Ticks of the timer *)

Section Ticks.
Context {L : Type} (env : Env).

(** What registering leaves alone. *)
Definition registers (w w' : W L) : Prop :=
  lo w' = lo w /\ online (g w') = online (g w) /\ rz w' = rz w /\
  SHOULD_EXIT (g w') = SHOULD_EXIT (g w) /\ NEEDS_DEPLOY (g w') = NEEDS_DEPLOY (g w).

#[local] Instance registers_refl : Reflexive registers.
Proof. by repeat split. Qed.
#[local] Instance registers_trans : Transitive registers.
Proof.
  intros w1 w2 w3 (A1 & A2 & A3 & A4 & A5) (B1 & B2 & B3 & B4 & B5).
  repeat split; etrans; eassumption.
Qed.

Lemma current_id_registers w : st_at registers (current_id env) w.
Proof. unfold current_id. repeat st_step. by repeat split. Qed.

Lemma send_registers o w : st_at registers (send env o) w.
Proof. unfold send. repeat st_step. by repeat split. Qed.

Lemma register_peer_registers w : st_at registers (register_peer env) w.
Proof.
  unfold register_peer, register_pk. repeat st_step;
    (apply current_id_registers || apply send_registers || by repeat split).
Qed.

(** Nothing but a failed sending makes a registration fail. *)
Lemma register_peer_ok (w : W L) :
  match register_peer env w with
  | (Ok _, _) => True
  | (Err _, w') => send_ok env = false /\ outs w' = outs w
  end.
Proof.
  unfold register_peer, register_pk, current_id, send, modify_g, mbind, st_mbind, st_bind,
    st_get, st_modify. cbn -[get_id].
  destruct (get_id (fx env) (machine env) (config (g w))) as [i c].
  repeat (match goal with |- context [if ?b then _ else _] => destruct b eqn:? end; cbn -[get_id]); try done.
  all: destruct (get_id _ _ _); cbn; (done || destruct (send_ok env); done).
Qed.
End Ticks.

(** The times that decide when to register. *)
Definition timing (l : UdpLoop) : Z * option Z * option Z :=
  (reg_timeout l, last_register_resp l, last_register_sent l).

Definition keeps_timing (w w' : W UdpLoop) : Prop := timing (lo w') = timing (lo w).
#[local] Instance keeps_timing_refl : Reflexive keeps_timing.
Proof. done. Qed.
#[local] Instance keeps_timing_trans : Transitive keeps_timing.
Proof. intros w1 w2 w3 H1 H2. by etrans. Qed.

Section UdpTicks.
Variable env : Env.

Lemma report_latency_timing n w : st_at keeps_timing (report_latency env n) w.
Proof. unfold report_latency. by repeat st_step. Qed.

Lemma on_timeout_timing w : st_at keeps_timing (on_timeout env) w.
Proof.
  unfold on_timeout, rebind_if_due. repeat st_step; (apply report_latency_timing || done).
Qed.

(** An unanswered registration is counted, and reported from the second one on. *)
Lemma on_timeout_run w :
  match on_timeout env w with
  | (Ok _, w') =>
      outs w' = outs w /\ fails (lo w') = fails (lo w) + 1 /\ host (rz w') = host (rz w) /\
      SHOULD_EXIT (g w') = SHOULD_EXIT (g w) /\ NEEDS_DEPLOY (g w') = NEEDS_DEPLOY (g w) /\
      online (g w')
      = if MAX_FAILS2 <=? fails (lo w) + 1 then <[host (rz w) := -1]> (online (g w))
        else if MAX_FAILS1 <=? fails (lo w) + 1 then <[host (rz w) := 0]> (online (g w))
        else online (g w)
  | (Err e, w') => outs w' = outs w /\ rebind env = Err e
  end.
Proof.
  unfold on_timeout, report_latency, update_latency, rebind_if_due, modify_g, mbind, st_mbind, st_bind, st_get,
    st_modify, st_lift. cbn.
  destruct (MAX_FAILS2 <=? fails (lo w) + 1); cbn.
  - destruct (DNS_INTERVAL <? _); cbn; [|done].
    by destruct (rebind env) as [[a|]|e].
  - destruct (MAX_FAILS1 <=? fails (lo w) + 1); done.
Qed.

(** A tick that does nothing, or registers. *)
Definition idle (w w' : W UdpLoop) : Prop :=
  w' = w /\ (SHOULD_EXIT (g w) = true \/ deploy_register_throttled env (g w) = true \/ due env (lo w) = false).

Definition registered (w w' : W UdpLoop) : Prop :=
  due env (lo w) = true /\
  timing (lo w') = (reg_timeout (back_off env (timed_out env (lo w)) (lo w)), last_register_resp (lo w), Some (now env)) /\
  fails (lo w') = fails (lo w) + (if timed_out env (lo w) then 1 else 0) /\
  host (rz w') = host (rz w) /\
  SHOULD_EXIT (g w') = SHOULD_EXIT (g w) /\ NEEDS_DEPLOY (g w') = NEEDS_DEPLOY (g w) /\
  online (g w') =
    if timed_out env (lo w) then
      if MAX_FAILS2 <=? fails (lo w) + 1 then <[host (rz w) := -1]> (online (g w))
      else if MAX_FAILS1 <=? fails (lo w) + 1 then <[host (rz w) := 0]> (online (g w))
      else online (g w)
    else online (g w).

Lemma timing_back_off b l :
  timing (back_off env b l) = (reg_timeout (back_off env b l), last_register_resp l, last_register_sent l) /\
  fails (back_off env b l) = fails l.
Proof. unfold back_off. by destruct (_ && _). Qed.

Lemma not_due_no_back_off l : due env l = false -> back_off env (timed_out env l) l = l.
Proof.
  unfold due. intros [-> _]%orb_false_iff. unfold back_off. by rewrite andb_false_r.
Qed.

Lemma maybe_timeout_spec (b : bool) w :
  match (if b then on_timeout env else mret tt) w with
  | (Ok _, w') =>
      timing (lo w') = timing (lo w) /\ outs w' = outs w /\ fails (lo w') = fails (lo w) + (if b then 1 else 0) /\
      host (rz w') = host (rz w) /\ SHOULD_EXIT (g w') = SHOULD_EXIT (g w) /\
      NEEDS_DEPLOY (g w') = NEEDS_DEPLOY (g w) /\
      online (g w') =
        if b then
          if MAX_FAILS2 <=? fails (lo w) + 1 then <[host (rz w) := -1]> (online (g w))
          else if MAX_FAILS1 <=? fails (lo w) + 1 then <[host (rz w) := 0]> (online (g w))
          else online (g w)
        else online (g w)
  | (Err e, w') => outs w' = outs w /\ rebind env = Err e
  end.
Proof.
  destruct b; [|cbn; split_and!; (done || lia)].
  pose proof (on_timeout_run w) as Hr. pose proof (on_timeout_timing w) as Ht. unfold st_at, keeps_timing in Ht.
  destruct (on_timeout env w) as [[u|e] w2]; cbn in Ht; [|done]. tauto.
Qed.

(** The registration proper of a tick. *)
Definition tick_body (w : W UdpLoop) : ST string (W UdpLoop) unit :=
  (if timed_out env (lo w) then on_timeout env else mret tt) ;;
  register_peer env ;;
  st_modify (on_lo (fun l => mkUdp (reg_timeout l) (fails l) (last_register_resp l) (Some (now env))
                               (last_dns_check l) (old_latency l) (ema_latency l))).

Lemma tick_body_spec w :
  due env (lo w) = true ->
  match tick_body w (on_lo (back_off env (timed_out env (lo w))) w) with
  | (Ok _, w') => registered w w'
  | (Err _, w') => outs w' = outs w /\ (send_ok env = false \/ exists e, rebind env = Err e)
  end.
Proof.
  intros Hdue. unfold tick_body. set (w1 := on_lo (back_off env (timed_out env (lo w))) w).
  pose proof (maybe_timeout_spec (timed_out env (lo w)) w1) as Hto.
  destruct (timing_back_off (timed_out env (lo w)) (lo w)) as [Hb Hf]. rewrite st_bind_run.
  destruct ((if timed_out env (lo w) then on_timeout env else mret tt) w1) as [[u|e] w2];
    [|destruct Hto as [H1 H2]; split; [exact H1|right; eauto]].
  rewrite st_bind_run. pose proof (register_peer_ok env w2) as Hok.
  pose proof (register_peer_registers env w2) as Hreg. unfold st_at, registers in Hreg.
  destruct (register_peer env w2) as [[v|e] w3]; cbn in Hreg.
  - destruct Hto as (T1 & _ & T3 & T4 & T5 & T6 & T7), Hreg as (R1 & R2 & R3 & R4 & R5).
    cbn in T1, T3, T7. rewrite Hb in T1. rewrite Hf in T3, T7. injection T1 as T1a T1b T1c.
    unfold registered. cbn. rewrite R1, R2, R3, R4, R5. unfold timing. cbn.
    split_and!; try done. by rewrite T1a, T1b.
  - destruct Hto as (_ & T2 & _), Hok as [O1 O2]. split; [by rewrite O2, T2|by left].
Qed.

Lemma udp_tick_spec w :
  match udp_tick env w with
  | (Ok fl, w') => fl = (if SHOULD_EXIT (g w) then Break else Continue) /\ (idle w w' \/ registered w w')
  | (Err _, w') => outs w' = outs w /\ (send_ok env = false \/ exists e, rebind env = Err e)
  end.
Proof.
  unfold udp_tick. rewrite st_bind_run. cbn [st_get].
  destruct (SHOULD_EXIT (g w)) eqn:He; [split; [done|left; split; [done|tauto]]|].
  destruct (deploy_register_throttled env (g w)) eqn:Hd; [split; [done|left; split; [done|tauto]]|].
  cbn zeta. rewrite st_bind_run. cbn [st_modify]. destruct (due env (lo w)) eqn:Hdue.
  - pose proof (tick_body_spec w Hdue) as Hb. unfold tick_body in Hb. rewrite st_bind_run.
    destruct (((if timed_out env (lo w) then on_timeout env else mret tt) ≫= _) _) as [[u|e] w2]; [|done].
    split; [done|by right].
  - split; [done|]. left. split; [|tauto]. unfold on_lo. rewrite not_due_no_back_off by done. by destruct w.
Qed.
End UdpTicks.

(** *** A server that does not answer *)

(** The ticks of a task that receives nothing. *)
Fixpoint silent_ticks (envs : list Env) (w : W UdpLoop) : option (W UdpLoop) :=
  match envs with
  | [] => Some w
  | env :: envs =>
      match udp_tick env w with
      | (Ok Continue, w') => silent_ticks envs w'
      | _ => None
      end
  end.

(** Ticks at most [d] apart, the first at most [d] after [t]; sending works. *)
Fixpoint ticking (d t : Z) (envs : list Env) : Prop :=
  match envs with
  | [] => True
  | env :: envs =>
      t <= now env <= t + d /\ send_ok env = true /\ is_ok (rebind env) = true /\ ticking d (now env) envs
  end.

Fixpoint last_time (t : Z) (envs : list Env) : Z :=
  match envs with [] => t | env :: envs => last_time (now env) envs end.

(** The time by which a server whose registrations have failed [f] times is given up. *)
Fixpoint patience (d : Z) (f : nat) : Z :=      (* [f] registrations more *)
  match f with
  | O => 0
  | S f => 3000 * (4 - Z.of_nat f) * 1000 + d + patience d f
  end.

Lemma patience_nonneg d f : 0 <= d -> (f <= 4)%nat -> 0 <= patience d f.
Proof. intros Hd. induction f as [|f IH]; intros Hf; cbn [patience]; [lia|]. specialize (IH ltac:(lia)). lia. Qed.

(** What holds between two ticks at time [t]: the server is given up, or its last
    registration is waited for, and everything will be over by [deadline]. *)
Definition waiting (d deadline t : Z) (w : W UdpLoop) : Prop :=
  SHOULD_EXIT (g w) = false /\ NEEDS_DEPLOY (g w) = false /\
  exists s, last_register_sent (lo w) = Some s /\
  (4 <= fails (lo w) /\ online (g w) !! host (rz w) = Some (-1)
   \/ exists f : nat, fails (lo w) + Z.of_nat f = 4 /\ (0 < f)%nat /\ 0 <= fails (lo w) /\
      0 <= reg_timeout (lo w) <= 3000 * (fails (lo w) + 1) /\
      t <= s + reg_timeout (lo w) * 1000 /\ s + patience d f <= deadline).

Lemma timed_out_early env l s :
  last_register_sent l = Some s -> timed_out env l = false -> now env <= s + reg_timeout l * 1000.
Proof. unfold timed_out. intros -> H. to_prop. apply elapsed_ms_lt in H. lia. Qed.

Lemma back_off_le env b l : reg_timeout l <= reg_timeout (back_off env b l) <= reg_timeout l + 3000.
Proof. unfold back_off, MIN_REG_TIMEOUT. destruct (_ && _); cbn; lia. Qed.

Lemma waiting_tick d deadline t env w :
  0 <= d -> waiting d deadline t w -> t <= now env <= t + d -> send_ok env = true -> is_ok (rebind env) = true ->
  exists w', udp_tick env w = (Ok Continue, w') /\ host (rz w') = host (rz w) /\
    waiting d deadline (now env) w'.
Proof.
  intros Hd (He & Hn & s & Hs & Hw) Ht Hsend Hreb.
  pose proof (udp_tick_spec env w) as Hspec. destruct (udp_tick env w) as [[fl|e] w'] eqn:Ew.
  2:{ destruct Hspec as (_ & [?|[e' E]]); [congruence|]. by rewrite E in Hreb. }
  rewrite He in Hspec. destruct Hspec as [-> [[-> Hidle]|(Hdue & Htim & Hf & Hh & Hx & Hdep & Hon)]].
  - assert (Hdue : due env (lo w) = false).
    { destruct Hidle as [?|[Hthr|?]]; [congruence| |done]. unfold deploy_register_throttled in Hthr.
      by rewrite Hn in Hthr. }
    exists w. split_and!; [done|done|]. apply orb_false_iff in Hdue as [Hto _].
    split_and!; [done|done|]. exists s. split; [done|].
    destruct Hw as [?|(f & ?)]; [by left|right]. exists f. apply (timed_out_early _ _ s) in Hto; [|done].
    tauto.
  - exists w'. split_and!; [done|done|]. unfold due in Hdue. rewrite Hs in Hdue. cbn in Hdue.
    rewrite orb_false_r in Hdue. rewrite Hdue in *. pose proof (back_off_le env true (lo w)) as Hb.
    injection Htim as Hr _ Hs'. split_and!; [congruence|congruence|]. exists (now env). split; [done|].
    rewrite Hon, Hh, Hf, Hr. unfold MAX_FAILS1, MAX_FAILS2.
    destruct Hw as [[H4 _]|(f & Hf4 & Hf0 & Hf1 & Hreg & Hts & Hdl)].
    + left. split; [lia|]. destruct (Z.leb_spec 4 (fails (lo w) + 1)); [|lia]. by rewrite lookup_insert_eq.
    + destruct f as [|[|f]]; [lia| |].
      * left. split; [lia|]. destruct (Z.leb_spec 4 (fails (lo w) + 1)); [|lia]. by rewrite lookup_insert_eq.
      * right. exists (S f). cbn [patience] in *. split_and!; lia.
Qed.

Lemma waiting_ticks d deadline envs t w :
  0 <= d -> waiting d deadline t w -> ticking d t envs ->
  exists w', silent_ticks envs w = Some w' /\ host (rz w') = host (rz w) /\ waiting d deadline (last_time t envs) w'.
Proof.
  intros Hd. revert t w. induction envs as [|env envs IH]; intros t w Hw; [by eexists|].
  intros (Ht & Hs & Hr & Hrest). destruct (waiting_tick _ _ _ _ _ Hd Hw Ht Hs Hr) as (w1 & E1 & H1 & Hw1).
  cbn [silent_ticks last_time]. rewrite E1. destruct (IH _ _ Hw1 Hrest) as (w2 & E2 & H2 & Hw2).
  exists w2. split_and!; [done|congruence|done].
Qed.


(** *** Registering is not hurried *)

(** A task was started, or has sent at [last] at the latest; nothing is in the future. *)
Definition paced (last : option Z) (t : Z) (l : UdpLoop) : Prop :=
  (exists k, reg_timeout l = 3000 * k /\ 1 <= k <= 10) /\
  forall s, last = Some s -> exists s', s <= s' <= t /\
    (last_register_sent l = Some s' \/ last_register_sent l = None /\ last_register_resp l = Some s').

Lemma back_off_paced env b l :
  (exists k, reg_timeout l = 3000 * k /\ 1 <= k <= 10) ->
  exists k, reg_timeout (back_off env b l) = 3000 * k /\ 1 <= k <= 10.
Proof.
  intros (k & E & Hk). unfold back_off, MAX_REG_TIMEOUT, MIN_REG_TIMEOUT.
  destruct (_ && (b && _)) eqn:Hb; [|eauto]. cbn. apply andb_true_iff in Hb as [_ Hb].
  apply andb_true_iff in Hb as [_ Hb]. to_prop. exists (k + 1). lia.
Qed.

Lemma paced_later last t t' l : paced last t l -> t <= t' -> paced last t' l.
Proof.
  intros [Hk H] Ht. split; [done|]. intros s E. destruct (H s E) as (s' & Hs & ?). exists s'. split; [lia|done].
Qed.

(** A tick that registers comes 3 s after the one before. *)
Lemma paced_tick last t env w w' fl :
  paced last t (lo w) -> t <= now env -> udp_tick env w = (Ok fl, w') ->
  (outs w' = outs w /\ paced last (now env) (lo w')) \/
  (paced (Some (now env)) (now env) (lo w') /\ forall s, last = Some s -> s + 3000 * 1000 <= now env).
Proof.
  intros Hp Ht Ew. pose proof (udp_tick_spec env w) as Hspec. rewrite Ew in Hspec.
  destruct Hspec as (_ & [[-> _]|(Hdue & Htim & _)]).
  { left. split; [done|]. by eapply paced_later. }
  right. destruct Hp as [Hk Hp]. injection Htim as Hr _ Hs. split.
  - split; [rewrite Hr; by apply back_off_paced|]. intros s [= <-]. exists (now env). split; [lia|by left].
  - intros s E. destruct (Hp s E) as (s' & Hs' & Hc). destruct Hk as (k & Hk & Hk').
    unfold due, timed_out, expired in Hdue. destruct Hc as [Hc|[Hc Hc']]; rewrite ?Hc, ?Hc' in Hdue; cbn in Hdue.
    + rewrite orb_false_r in Hdue. to_prop. apply elapsed_ms_ge in Hdue; lia.
    + to_prop. apply elapsed_ms_ge in Hdue; unfold REG_INTERVAL in *; lia.
Qed.

Section Answers.
Variable env : Env.

(** A message leaves the times as they are, or is an answer that resets them. *)
Definition answers (w w' : W UdpLoop) : Prop :=
  timing (lo w') = timing (lo w) \/ timing (lo w') = (MIN_REG_TIMEOUT, Some (now env), None).
#[local] Instance answers_refl : Reflexive answers.
Proof. by left. Qed.
#[local] Instance answers_trans : Transitive answers.
Proof. intros w1 w2 w3 H1 [H2|H2]; [|by right]. unfold answers. by rewrite H2. Qed.
Abbreviation at_ m w := (st_at (E := string) answers m w).

Lemma modify_answers f w : lo (f w) = lo w -> at_ (st_modify f) w.
Proof. intros E. left. cbn. by rewrite E. Qed.

Lemma report_latency_answers n w : at_ (report_latency env n) w.
Proof. unfold report_latency. repeat st_step. by apply modify_answers. Qed.

Lemma update_latency_answers w : at_ (udp_update_latency env) w.
Proof.
  unfold udp_update_latency. repeat st_step; try apply report_latency_answers; (by left) || (by right).
Qed.

Lemma register_pk_answers w : at_ (register_pk env) w.
Proof. unfold register_pk, current_id, send. repeat st_step; by apply modify_answers. Qed.

Lemma receive_answers r w : at_ (udp_receive env r) w.
Proof.
  destruct r as [m| | | |]; cbn [udp_receive]; [|cbn [handle_resp]; by repeat st_step..].
  destruct m as [[b|result ka|r|ser ss|]|]; cbn [handle_resp];
    unfold on_pk_result, on_pk_registered, handle_uuid_mismatch, on_not_deployed;
    repeat st_step; (apply update_latency_answers || apply register_pk_answers || by apply modify_answers).
Qed.
End Answers.

Lemma paced_answer last t env w w' :
  answers env w w' -> paced last t (lo w) -> t <= now env -> paced last (now env) (lo w').
Proof.
  intros [H|H] Hp Ht; apply (paced_later _ _ (now env)) in Hp; [|done| |done].
  - injection H as Hr Hs Hl. unfold paced in *. by rewrite Hr, Hs, Hl.
  - injection H as Hr Hs Hl. destruct Hp as [_ Hp]. split; [exists 1; rewrite Hr; done|].
    intros s E. destruct (Hp s E) as (s' & Hs' & _). exists (now env). split; [lia|]. by right.
Qed.

(** Time passes from step to step. *)
Fixpoint clock (t : Z) (steps : list Step) : Prop :=
  match steps with
  | [] => True
  | x :: steps => t <= now (st_env x) /\ clock (now (st_env x)) steps
  end.

Definition tick_of (h : string) (x : Step) (o : list Output) : option Z :=
  match st_event x with
  | Tick => if decide (st_host x = h) then if decide (o = []) then None else Some (now (st_env x)) else None
  | Receive _ => None
  end.
Definition tick_times (h : string) (trace : list (Step * list Output)) : list Z :=
  omap (fun '(x, o) => tick_of h x o) trace.

Definition task_paced (h : string) (last : option Z) (t : Z) (s : Sys) : Prop :=
  forall r l, tasks s !! h = Some (r, l) -> paced last t l.

Lemma paced_step h x last t s s' o :
  task_paced h last t s -> t <= now (st_env x) -> udp_step (st_host x) (st_env x) (st_event x) s = (s', o) ->
  match tick_of h x o with
  | None => task_paced h last (now (st_env x)) s'
  | Some n => n = now (st_env x) /\ task_paced h (Some n) n s' /\ forall s, last = Some s -> s + 3000 * 1000 <= n
  end.
Proof.
  intros Hp Ht Hs. apply udp_step_run in Hs as [(Hn & -> & ->)|(r & l & rs & w & Hl & Hw & -> & _ & _ & _ & _ & Ht')].
  { assert (tick_of h x [] = None) as ->.
    { unfold tick_of. destruct (st_event x); [done|]. by case_decide. }
    intros r l E. eapply paced_later; [by eapply Hp|done]. }
  destruct (decide (st_host x = h)) as [<-|Hh].
  2:{ assert (tick_of h x (outs w) = None) as ->.
      { unfold tick_of. destruct (st_event x); [done|]. by rewrite decide_False. }
      intros r' l' E. eapply paced_later; [|exact Ht]. apply (Hp r').
      destruct Ht' as [(E' & _)|(E' & _)]; rewrite E' in E;
        by rewrite ?lookup_insert_ne, ?lookup_delete_ne in E by done. }
  specialize (Hp _ _ Hl). destruct (st_event x) as [rc|] eqn:Ee; cbn [udp_event] in Hw.
  - unfold tick_of. rewrite Ee. intros r' l' E. destruct Ht' as [(E' & _)|(E' & _)]; rewrite E' in E;
      [|by rewrite lookup_delete_eq in E]. rewrite lookup_insert_eq in E. injection E as <- <-.
    pose proof (receive_answers (st_env x) rc (mkW (globals s) r l [])) as Ha. unfold st_at in Ha.
    rewrite Hw in Ha. by eapply (paced_answer _ _ _ _ w Ha).
  - unfold tick_of. rewrite Ee, decide_True by done.
    assert (Ht'' : forall r' l', tasks s' !! st_host x = Some (r', l') -> l' = lo w /\ rs = Ok Continue).
    { intros r' l' E. destruct Ht' as [(E' & -> & _)|(E' & _)]; rewrite E' in E;
        [|by rewrite lookup_delete_eq in E]. rewrite lookup_insert_eq in E. by injection E as <- <-. }
    pose proof (udp_tick_spec (st_env x) (mkW (globals s) r l [])) as Hspec.
    destruct rs as [fl|e]; rewrite Hw in Hspec.
    + destruct (paced_tick last t (st_env x) (mkW (globals s) r l []) w fl Hp Ht Hw) as [[Ho Hp']|[Hp' Hlast]];
        cbn in Hp'.
      * rewrite decide_True by done. intros r' l' E. by destruct (Ht'' _ _ E) as [-> _].
      * case_decide; [|split_and!; [done| |done]]; intros r' l' E; destruct (Ht'' _ _ E) as [-> _]; [|done].
        destruct Hp' as [Hk Hp']. split; [done|]. intros s0 E0. specialize (Hlast s0 E0).
        destruct (Hp' _ eq_refl) as (s1 & ? & ?). exists s1. split; [lia|done].
    + destruct Hspec as [Ho _]. rewrite decide_True by done. intros r' l' E. by destruct (Ht'' _ _ E).
Qed.

(** The timer registers a server at most once in 3 s, whatever is received in between,
    from any server; the time it waits for an answer stays between 3 and 30 s. *)
Theorem registering_is_paced h t steps s s' trace :
  (forall r l, tasks s !! h = Some (r, l) -> exists k, reg_timeout l = 3000 * k /\ 1 <= k <= 10) ->
  clock t steps -> udp_run steps s = (s', trace) ->
  spaced (3000 * 1000) None (tick_times h trace) /\
  (forall r l, tasks s' !! h = Some (r, l) -> MIN_REG_TIMEOUT <= reg_timeout l <= MAX_REG_TIMEOUT).
Proof.
  intros Hs. assert (Hp : task_paced h None t s) by (intros r l E; by split; [eapply Hs|]).
  clear Hs. revert Hp. generalize (@None Z). revert t s trace.
  induction steps as [|x steps IH]; intros t s trace last Hp Hc Hr.
  { injection Hr as <- <-. split; [done|]. intros r l E. destruct (Hp r l E) as [(k & -> & Hk) _].
    unfold MIN_REG_TIMEOUT, MAX_REG_TIMEOUT. lia. }
  destruct Hc as [Ht Hc]. apply udp_run_step in Hr as (s1 & o & tr & Hs & Hr & ->).
  pose proof (paced_step h x last t s s1 o Hp Ht Hs) as Hstep.
  unfold tick_times. cbn [omap list_omap]. destruct (tick_of h x o) as [n|].
  - destruct Hstep as (-> & Hp1 & Hl). destruct (IH _ _ _ _ Hp1 Hc Hr) as [Hsp Hreg]. split; [|done].
    split; [|done]. destruct last as [s0|]; [by apply Hl|done].
  - by apply (IH _ _ _ _ Hstep Hc Hr).
Qed.

(** ** Where the code differs from what it says *)

(** The loop over TCP is not gated while the device waits for its deployment: a
    registration that is not sent counts as sent. *)
Example tcp_timer_is_not_gated :
  let w := mkW (set_deploy true (Some 0) ex_g) ex_task.1 (mkTcp None 0) [] in
  let w' := (tcp_tick (ex_env 1000000) w).2 in
  deploy_register_throttled (ex_env 1000000) (g w) = true /\
  outs w' = [] /\ tcp_last_register_sent (lo w') = Some 1000000.
Proof. vm_compute. split_and!; reflexivity. Qed.

(** While the conflict of another server is being solved nothing is sent to a server, and
    its silence is counted against it all the same. *)
Example unsent_registration_counts :
  let w := mkW (set_solving "other" ex_g) ex_task.1 ex_task.2 [] in
  let ticks := map (fun i => ex_env (Z.of_nat i * 1000000)) (seq 1 32) in
  match silent_ticks ticks w with
  | Some w' => outs w' = [] /\ fails (lo w') = 4 /\ online (g w') !! host ex_task.1 = Some (-1)
  | None => False
  end.
Proof. vm_compute. split_and!; reflexivity. Qed.

(** ** Witnesses *)

Lemma registering_is_paced_witness :
  tick_times ex_host (ex_run ex_sys) = [1000000; 17000000; 48000000] /\
  spaced (3000 * 1000) None (tick_times ex_host (ex_run ex_sys)).
Proof.
  split; [vm_compute; reflexivity|].
  refine (proj1 (registering_is_paced ex_host 0 ex_steps ex_sys (udp_run ex_steps ex_sys).1 (ex_run ex_sys)
    _ _ (ex_run_eq ex_sys))).
  - intros r l E. unfold ex_sys in E. cbn [tasks] in E. apply lookup_singleton_Some in E as [_ E].
    injection E as <- <-. by exists 1.
  - vm_compute. repeat split; discriminate.
Defined.

Definition ex_ticks : list Env := map (fun i => ex_env (Z.of_nat i * 1000000)) (seq 1 40).

