(* ===== verification/PeerRequests.v ===== *)
(** * Letting a peer in

    Theorems about the requests of [Rendezvous]: what is done, and in what order, to let a
    peer in that a rendezvous server sends. *)

From stdpp Require Import gmap pretty.
From S2P Require Import Prelude AddrMangle Hosts Options Rendezvous.

(** *** Requests *)

Definition opens (w : Way) : bool :=
  match w with ConnectRelay _ _ _ _ _ _ | AcceptTcp _ _ _ | ListenUdp _ _ => true | _ => false end.

(** What shows our address to the peer, or the peer's to us. *)
Definition direct (w : Way) : bool :=
  match w with ListenIpv6 _ _ _ | PunchTcp _ | AcceptTcp _ _ _ | ListenUdp _ _ => true | _ => false end.

Definition way_meta (w : Way) : option Meta :=
  match w with
  | ListenIpv6 _ _ m | ConnectRelay _ _ _ _ _ m | AcceptTcp _ _ m | ListenUdp _ m => Some m
  | _ => None
  end.

Section RequestFacts.
Variables (env : Env) (net : Net) (r : Rz).

(** A computation that adds ways, all for [meta], and none of them direct when [relayed]. *)
Definition adds (meta : Meta) (relayed : bool) (s s' : G * list Way) : Prop :=
  exists ext, s'.2 = s.2 ++ ext /\
    Forall (fun w => (forall m, way_meta w = Some m -> m = meta) /\ (relayed = true -> direct w = false)) ext.
#[local] Instance adds_refl meta relayed : Reflexive (adds meta relayed).
Proof. intros s. exists []. by rewrite app_nil_r. Qed.
#[local] Instance adds_trans meta relayed : Transitive (adds meta relayed).
Proof.
  intros s1 s2 s3 (e1 & E1 & F1) (e2 & E2 & F2). exists (e1 ++ e2).
  rewrite E2, E1, app_assoc. split; [done|]. by apply Forall_app.
Qed.

Abbreviation at_ meta relayed m s := (st_at (E := string) (adds meta relayed) m s).

Lemma way_adds meta relayed w s :
  (forall m, way_meta w = Some m -> m = meta) -> (relayed = true -> direct w = false) ->
  at_ meta relayed (way w) s.
Proof. intros Hm Hd. destruct s as [g ws]. exists [w]. split; [done|]. by repeat constructor. Qed.

Lemma modify_adds meta relayed f s : (f s).2 = s.2 -> at_ meta relayed (st_modify f) s.
Proof. intros E. exists []. cbn. by rewrite E, app_nil_r. Qed.

Lemma request_id_adds meta relayed s : at_ meta relayed (request_id env) s.
Proof. unfold request_id, get_g. repeat st_step. destruct s'. by apply modify_adds. Qed.

Lemma net_send_adds meta relayed w s :
  way_meta w = None -> direct w = false -> at_ meta relayed (net_send net w) s.
Proof. intros Hm Hd. unfold net_send. repeat st_step. apply way_adds; [by rewrite Hm|done]. Qed.

Lemma create_relay_adds sa rs uuid secure initiate v6 meta relayed s :
  at_ meta relayed (create_relay env net r sa rs uuid secure initiate v6 meta) s.
Proof.
  unfold create_relay, connect. repeat st_step; try apply request_id_adds.
  - by apply net_send_adds.
  - apply way_adds; [by intros m [= <-]|done].
Qed.

Lemma start_ipv6_adds p4 p6 meta s : at_ meta false (start_ipv6 net p6 p4 meta) s.
Proof. unfold start_ipv6. repeat st_step. apply way_adds; [by intros m [= <-]|done]. Qed.

Lemma maybe_ipv6_adds (b relayed : bool) p4 p6 meta s :
  at_ meta relayed (if b && negb relayed then start_ipv6 net p6 p4 meta else mret []) s.
Proof.
  destruct relayed; [rewrite andb_false_r; apply (st_at_ret _)|].
  repeat st_step. apply start_ipv6_adds.
Qed.

Lemma handle_intranet__adds fla rs v6 meta s : at_ meta false (handle_intranet_ env net fla rs v6 meta) s.
Proof.
  unfold handle_intranet_, connect. repeat st_step; try apply request_id_adds.
  - by apply net_send_adds.
  - apply way_adds; [by intros m [= <-]|done].
Qed.

Definition relayed (q : Request) (c : Config2) : bool :=
  use_ws (fx env) c || is_proxy (fx env) c || match q with Punch ph => ph_force_relay ph | _ => false end.

Lemma st_try_adds {A} meta b (m : ST string (G * list Way) A) s : at_ meta b m s -> at_ meta b (st_try m) s.
Proof. unfold st_at, st_try. by destruct (m s). Qed.

Lemma get_g_bind {A} meta b (k : G -> ST string (G * list Way) A) s :
  at_ meta b (k s.1) s -> at_ meta b (get_g ≫= k) s.
Proof. done. Qed.

Lemma set_last_adds meta b (f : G -> G) s : at_ meta b (st_modify (fun '(g, ws) => (f g, ws))) s.
Proof. destruct s. by apply modify_adds. Qed.

Lemma punch_hole_adds ph s :
  at_ (request_meta (Punch ph)) (relayed (Punch ph) (config2 s.1)) (handle_punch_hole env net r ph) s.
Proof.
  unfold handle_punch_hole. apply get_g_bind. apply (st_at_bind _); [apply set_last_adds|]. intros _ s1 _ _.
  apply st_at_if; intros _; [apply (st_at_ret _)|]. cbn zeta.
  change (use_ws (fx env) (config2 s.1) || is_proxy (fx env) (config2 s.1) || ph_force_relay ph)
    with (relayed (Punch ph) (config2 s.1)).
  apply (st_at_bind _); [apply maybe_ipv6_adds|]. intros v6 s2 _ _.
  apply st_at_if; [intros _; apply create_relay_adds|]. intros [[_ ->]%orb_false_iff _]%orb_false_iff.
  apply (st_at_bind _); [apply request_id_adds|]. intros i s3 _ _.
  unfold punch_udp_hole, connect. repeat st_step; try (by apply net_send_adds);
    apply way_adds; try done; by intros m [= <-].
Qed.

Lemma intranet_adds fla s :
  at_ (request_meta (Intranet fla)) (relayed (Intranet fla) (config2 s.1)) (handle_intranet env net r fla) s.
Proof.
  unfold handle_intranet. apply get_g_bind. apply (st_at_bind _); [apply set_last_adds|]. intros _ s1 _ _.
  apply st_at_if; intros _; [apply (st_at_ret _)|]. cbn zeta.
  assert (relayed (Intranet fla) (config2 s.1)
          = use_ws (fx env) (config2 s.1) || is_proxy (fx env) (config2 s.1)) as <- by apply orb_false_r.
  apply (st_at_bind _); [apply maybe_ipv6_adds|]. intros v6 s2 _ _.
  apply (st_at_bind _).
  - apply st_at_if; [|intros _; apply (st_at_ret _)]. intros [[_ Hr%negb_true_iff]%andb_true_iff _]%andb_true_iff.
    rewrite Hr. repeat st_step. apply st_try_adds, handle_intranet__adds.
  - intros done s3 _ _. repeat st_step. apply create_relay_adds.
Qed.

Lemma handle_request_adds q s : at_ (request_meta q) (relayed q (config2 s.1)) (handle_request env net r q) s.
Proof.
  destruct q as [ph|rr|fla]; [apply punch_hole_adds| |apply intranet_adds].
  cbn [handle_request]. unfold handle_request_relay. apply get_g_bind.
  apply (st_at_bind _); [apply set_last_adds|]. intros _ s1 _ _.
  apply st_at_if; intros _; [apply (st_at_ret _)|apply create_relay_adds].
Qed.
End RequestFacts.

Lemma get_g_run s : get_g s = (Ok s.1, s).
Proof. done. Qed.

Section Settling.
Variables (env : Env) (net : Net) (r : Rz).
Hypotheses (Hconn : connect_ok net = true) (Hsend : net_send_ok net = true) (Hudp : udp_ok net = true).

(** One connection is opened, as the last thing done. *)
Definition settles (s : G * list Way) (x : result string unit * (G * list Way)) : Prop :=
  exists s' ext w, x = (Ok tt, s') /\ s'.2 = s.2 ++ ext ++ [w] /\ opens w = true /\
    Forall (fun w => opens w = false) ext.

Lemma settles_after g g' ws ext x :
  Forall (fun w => opens w = false) ext -> settles (g', ws ++ ext) x -> settles (g, ws) x.
Proof.
  intros He (s' & ext' & w & -> & E & Hw & He'). exists s', (ext ++ ext'), w. cbn in *.
  rewrite E, <- !app_assoc. split_and!; [done|done|done|]. by apply Forall_app.
Qed.

Lemma request_id_run g ws : exists i c, request_id env (g, ws) = (Ok i, (set_config c g, ws)).
Proof.
  unfold request_id, get_g, mbind, st_mbind, st_bind, st_get, st_modify, mret, st_mret, st_ret. cbn -[get_id].
  destruct (get_id (fx env) (machine env) (config g)) as [i c]. by exists i, c.
Qed.

Lemma connect_run s : connect net s = (Ok tt, s).
Proof. unfold connect. by rewrite Hconn. Qed.
Lemma net_send_run w g ws : net_send net w (g, ws) = (Ok tt, (g, ws ++ [w])).
Proof. unfold net_send. by rewrite Hsend. Qed.

Lemma send_and_open p w g ws :
  opens p = false -> opens w = true -> settles (g, ws) ((net_send net p ;; way w) (g, ws)).
Proof.
  intros Hp Hw. rewrite st_bind_run, net_send_run. exists (g, (ws ++ [p]) ++ [w]), [p], w.
  split; [done|]. split; [cbn; by rewrite <- app_assoc|]. split; [done|]. by repeat constructor.
Qed.

Lemma create_relay_settles sa rs uuid secure initiate v6 meta g ws :
  settles (g, ws) (create_relay env net r sa rs uuid secure initiate v6 meta (g, ws)).
Proof.
  unfold create_relay. rewrite st_bind_run, connect_run, st_bind_run. destruct initiate.
  - rewrite st_bind_run. destruct (request_id_run g ws) as (i & c & ->). cbn [mret st_mret st_ret].
    apply (settles_after _ (set_config c g) _ []); [done|]. rewrite app_nil_r. by apply send_and_open.
  - by apply send_and_open.
Qed.

Lemma maybe_ipv6_run (b : bool) p6 p4 meta g ws :
  exists v ext, (if b then start_ipv6 net p6 p4 meta else mret []) (g, ws) = (Ok v, (g, ws ++ ext)) /\
    Forall (fun w => opens w = false) ext.
Proof.
  destruct b; [|exists [], []; by rewrite app_nil_r]. unfold start_ipv6.
  destruct (ipv6_socket net) as [a|]; [|exists [], []; by rewrite app_nil_r].
  exists a, [ListenIpv6 p6 p4 meta]. split; [done|]. by repeat constructor.
Qed.

(** Answering on the local network succeeds, or leaves nothing done. *)
Lemma handle_intranet__run fla rs v6 meta g ws :
  settles (g, ws) (handle_intranet_ env net fla rs v6 meta (g, ws)) \/
  exists e, handle_intranet_ env net fla rs v6 meta (g, ws) = (Err e, (g, ws)).
Proof.
  unfold handle_intranet_. rewrite st_bind_run, connect_run.
  destruct (net_local_addr net) as [ip port|]; [left|right; by eexists].
  rewrite st_bind_run. destruct (request_id_run g ws) as (i & c & ->).
  apply (settles_after _ (set_config c g) _ []); [done|]. rewrite app_nil_r. by apply send_and_open.
Qed.

Lemma intranet_settles fla g :
  duplicate env (request_addr (Intranet fla)) (LAST_MSG g) = false ->
  settles (g, []) (handle_intranet env net r fla (g, [])).
Proof.
  intros Hd. unfold handle_intranet. rewrite st_bind_run, get_g_run, st_bind_run. cbn [st_modify fst].
  change (decode (fla_socket_addr fla)) with (request_addr (Intranet fla)). rewrite Hd. cbn zeta.
  rewrite st_bind_run.
  match goal with |- context [(if ?b then start_ipv6 net ?p6 ?p4 ?m else mret []) (?g', _)] =>
    destruct (maybe_ipv6_run b p6 p4 m g' []) as (v & ext & E & Hext); rewrite E end.
  eapply (settles_after _ _ _ ext); [done|]. rewrite st_bind_run.
  match goal with |- context [if ?b then _ else mret false] => destruct b end; [|apply create_relay_settles].
  rewrite st_bind_run. unfold st_try at 1.
  match goal with |- context [handle_intranet_ env net ?f ?rs ?v ?m ?s] =>
    destruct (handle_intranet__run f rs v m s.1 s.2) as [(s' & e & w & E2 & H)|[e E2]]; cbn [fst snd] in E2; rewrite E2 end.
  - by exists s', e, w.
  - apply create_relay_settles.
Qed.

Lemma punch_settles ph g :
  duplicate env (request_addr (Punch ph)) (LAST_MSG g) = false ->
  settles (g, []) (handle_punch_hole env net r ph (g, [])).
Proof.
  intros Hd. unfold handle_punch_hole. rewrite st_bind_run, get_g_run, st_bind_run. cbn [st_modify fst].
  change (decode (ph_socket_addr ph)) with (request_addr (Punch ph)). rewrite Hd. cbn zeta.
  rewrite st_bind_run.
  match goal with |- context [(if ?b then start_ipv6 net ?p6 ?p4 ?m else mret []) (?g', _)] =>
    destruct (maybe_ipv6_run b p6 p4 m g' []) as (v & ext & E & Hext); rewrite E end.
  eapply (settles_after _ _ _ ext); [done|].
  match goal with |- context [if ?b then create_relay _ _ _ _ _ _ _ _ _ _ else _] => destruct b end;
    [apply create_relay_settles|].
  rewrite st_bind_run. match goal with |- context [request_id env (?g', ?ws)] =>
    destruct (request_id_run g' ws) as (i & c & ->) end.
  eapply (settles_after _ _ _ []); [done|]. rewrite app_nil_r.
  destruct (0 <? ph_udp_port ph).
  - unfold punch_udp_hole. rewrite st_bind_run, Hudp. cbn [mret st_mret st_ret]. by apply send_and_open.
  - rewrite st_bind_run, connect_run, st_bind_run. cbn [way st_modify].
    eapply (settles_after _ _ _ [PunchTcp _]); [by repeat constructor|]. by apply send_and_open.
Qed.

Lemma relay_settles rr g :
  duplicate env (request_addr (Relay rr)) (LAST_RELAY_MSG g) = false ->
  settles (g, []) (handle_request_relay env net r rr (g, [])).
Proof.
  intros Hd. unfold handle_request_relay. rewrite st_bind_run, get_g_run, st_bind_run. cbn [st_modify fst].
  change (decode (rr_socket_addr rr)) with (request_addr (Relay rr)). rewrite Hd.
  eapply (settles_after _ _ _ []); [done|]. apply create_relay_settles.
Qed.
End Settling.

Definition last_of (q : Request) (g : G) : SocketAddr * Z :=
  match q with Relay _ => LAST_RELAY_MSG g | _ => LAST_MSG g end.

(** A request of a peer that asked less than 100 ms ago is dropped. *)
Lemma duplicate_is_dropped env net r q g :
  duplicate env (request_addr q) (last_of q g) = true ->
  exists g', handle_request env net r q (g, []) = (Ok tt, (g', [])).
Proof.
  destruct q as [ph|rr|fla]; unfold request_addr; cbn [last_of handle_request]; intros Hd;
    unfold handle_punch_hole, handle_request_relay, handle_intranet;
    rewrite st_bind_run, get_g_run, st_bind_run; cbn [st_modify fst]; rewrite Hd;
    by eexists.
Qed.


(** A peer behind an ordinary router asks for a connection: it is let in with one listener
    for it, after its address was punched and the server told. *)
Definition ex_peer : SocketAddr := V4 [x0a; x00; x00; x01] 5000.
Definition ex_net : Net := mkNet true ex_addr true true None 77 "uuid".
Definition ex_punch : Request :=
  Punch (mkPunchHole (encode 55 ex_peer) "relay.example" 1 0 false [] (Some 3) None).


(** ** Where the code differs from what it says *)

(** A configured port above 65535 is cut to 16 bits. *)
Example direct_port_is_cut :
  let c := set_option ex_fixed "direct-server" "Y" (set_option ex_fixed "direct-access-port" "70000" ex_config2) in
  direct_turn ex_fixed c (fun p => p =? 4464) NotListening = Listening 70000.
Proof. vm_compute. reflexivity. Qed.
