(* ===== verification/ClientJobs.v ===== *)
(** * The file jobs of the controlling side (src/client/io_loop.rs)

    The user of a file session starts transfers, deletions and renamings
    ([handle_msg_from_ui]); the peer answers ([handle_file_response]); a timer sends the
    files of the jobs that read ([on_timer]).  What is put on the loop's own channel comes
    back as a request of the user ([queue]).  What the window shows is recorded in [ui],
    what is sent in [sent_out]; a send that fails is only logged. *)

From S2P Require Import Prelude OsFs PathFacts Compress FileTransfer FsDirs TransferSafety Messages CmFiles.

(** ** Data *)

Record RemoveJob : Type := mkRemove {
  rm_files : list FileEntry;
  rm_path : string;
  rm_sep : string;
  rm_is_remote : bool;
  no_confirm : bool;
  last_update_job_status : Z }.

(** [Data], the requests about files. *)
Inductive Data : Type :=
| SendFiles (id : Z) (t : JobType) (path to : string) (file_num : Z) (include_hidden is_remote : bool)
| AddJob (id : Z) (t : JobType) (path to : string) (file_num : Z) (include_hidden is_remote : bool)
| ResumeJob (id : Z) (is_remote : bool)
| SetNoConfirm (id : Z)
| ConfirmDeleteFiles (id file_num : Z)
| SetConfirmOverrideFile (id file_num : Z) (need_override remember is_upload : bool)
| RemoveDirAll (id : Z) (path : string) (is_remote include_hidden : bool)
| CancelJob (id : Z)
| RemoveDir (id : Z) (path : string)
| RemoveFile (id : Z) (path : string) (file_num : Z) (is_remote : bool)
| CreateDir (id : Z) (path : string) (is_remote : bool)
| RenameFile (id : Z) (path new_name : string) (is_remote : bool).

(** What the peer says about files; the union of a [FileResponse], or a confirmation. *)
Inductive Response : Type :=
| REmptyDirs (path : string)
| RDir (id : Z) (path : string) (entries : list FileEntry)
| RDigest (d : FileTransferDigest) (is_upload : bool)
| RBlock (b : FileTransferBlock)
| RDone (id file_num : Z)
| RError (id : Z) (err : string) (file_num : Z)
| RConfirm (r : FileTransferSendConfirmRequest).

Inductive ToPeer : Type :=
| Transfer (m : FileTransfer.Message)
| Asked (a : FileAction).

(** The calls of the window.  Of the speed, the bytes and the milliseconds. *)
Inductive Ui : Type :=
| UiError (id : Z) (err : string) (file_num : Z)
| UiDone (id file_num : Z)
| UiProgress (id file_num bytes elapsed finished : Z)
| UiFolderFiles (id : Z) (files : list FileEntry) (path : string) (is_local only_count : bool)
| UiEmptyDirs (path : string)
| UiConfirmDelete (id file_num : Z) (name : string)
| UiOverride (id file_num : Z) (path : string) (is_upload is_identical : bool)
| UiClosed (err : string).

Record Remote : Type := mkRemote {
  read_jobs : list TransferJob;
  write_jobs : list TransferJob;
  remove_jobs : gmap Z RemoveJob;
  remote_fs : Fs;
  last_update_jobs_status : Z * gmap Z Z;
  fast_timer : bool;                         (* [timer]: 1 ms, or 30 s when no job reads *)
  queue : list Data;
  sent_out : list ToPeer;
  ui : list Ui }.

Definition with_reads (l : list TransferJob) (s : Remote) : Remote :=
  mkRemote l (write_jobs s) (remove_jobs s) (remote_fs s) (last_update_jobs_status s) (fast_timer s)
    (queue s) (sent_out s) (ui s).
Definition with_writes (l : list TransferJob) (s : Remote) : Remote :=
  mkRemote (read_jobs s) l (remove_jobs s) (remote_fs s) (last_update_jobs_status s) (fast_timer s)
    (queue s) (sent_out s) (ui s).
Definition with_removes (m : gmap Z RemoveJob) (s : Remote) : Remote :=
  mkRemote (read_jobs s) (write_jobs s) m (remote_fs s) (last_update_jobs_status s) (fast_timer s)
    (queue s) (sent_out s) (ui s).
Definition with_fs (f : Fs) (s : Remote) : Remote :=
  mkRemote (read_jobs s) (write_jobs s) (remove_jobs s) f (last_update_jobs_status s) (fast_timer s)
    (queue s) (sent_out s) (ui s).
Definition with_status (x : Z * gmap Z Z) (s : Remote) : Remote :=
  mkRemote (read_jobs s) (write_jobs s) (remove_jobs s) (remote_fs s) x (fast_timer s)
    (queue s) (sent_out s) (ui s).
Definition with_timer (b : bool) (s : Remote) : Remote :=
  mkRemote (read_jobs s) (write_jobs s) (remove_jobs s) (remote_fs s) (last_update_jobs_status s) b
    (queue s) (sent_out s) (ui s).
Definition with_queue (q : list Data) (s : Remote) : Remote :=
  mkRemote (read_jobs s) (write_jobs s) (remove_jobs s) (remote_fs s) (last_update_jobs_status s)
    (fast_timer s) q (sent_out s) (ui s).
Definition send_msgs (ms : list ToPeer) (s : Remote) : Remote :=
  mkRemote (read_jobs s) (write_jobs s) (remove_jobs s) (remote_fs s) (last_update_jobs_status s)
    (fast_timer s) (queue s) (sent_out s ++ ms) (ui s).
Definition show (u : Ui) (s : Remote) : Remote :=
  mkRemote (read_jobs s) (write_jobs s) (remove_jobs s) (remote_fs s) (last_update_jobs_status s)
    (fast_timer s) (queue s) (sent_out s) (ui s ++ [u]).

Definition set_is_last_job (b : bool) (j : TransferJob) : TransferJob :=
  mkTransferJob (id j) (ty j) (remote j) (data_source j) (show_hidden j) (is_remote j) b (is_resume j)
    (file_num j) (files j) (conn_id j) (data_stream j) (total_size j) (finished_size j) (transferred j)
    (enable_overwrite_detection j) (file_confirmed j) (file_skipped j) (file_is_waiting j)
    (default_overwrite_strategy j) (digest j).
Definition set_is_resume (b : bool) (j : TransferJob) : TransferJob :=
  mkTransferJob (id j) (ty j) (remote j) (data_source j) (show_hidden j) (is_remote j) (is_last_job j) b
    (file_num j) (files j) (conn_id j) (data_stream j) (total_size j) (finished_size j) (transferred j)
    (enable_overwrite_detection j) (file_confirmed j) (file_skipped j) (file_is_waiting j)
    (default_overwrite_strategy j) (digest j).

(** What the rest of the program answers during one step. *)
Record Env : Type := mkEnv {
  now : Z;                                   (* in milliseconds *)
  version : Z;                               (* of the peer *)
  peer_is_windows : bool;
  broken : bool }.                           (* the connection: nothing can be sent *)

Section Remote.
Context `{Zstd}.
Context (digest_to_json : FileDigest -> list byte)
        (digest_from_json : list byte -> option FileDigest).
Context (short : Z -> nat).
Variable other_mtime : Fs -> list string -> Z.
Variable env : Env.

(** ** What the operations share *)

(** [allow_err!(peer.send(&msg).await)]. *)
Definition send (m : ToPeer) (s : Remote) : Remote := if broken env then s else send_msgs [m] s.

Definition can_enable_overwrite_detection : bool := get_version_number "1.1.10" <=? version env.
Definition is_support_file_transfer_resume_num : bool := get_version_number "1.4.2" <=? version env.

(** [get_path_sep]. *)
Definition get_path_sep (is_remote : bool) : string :=
  if is_remote && peer_is_windows env then "\" else "/".

Definition report (id file_num : Z) (err : option string) (s : Remote) : Remote :=
  match err with
  | Some err => show (UiError id err file_num) s
  | None => show (UiDone id file_num) s
  end.

(** The next file of a deletion that needs no confirmation. *)
Definition handle_job_status (id file_num : Z) (err : option string) (s : Remote) : Remote :=
  match remove_jobs s !! id with
  | Some job =>
      if no_confirm job then
        let n := as_usize (swrap 32 (file_num + 1)) in
        match (if n <? len (rm_files job) then rm_files job !! Z.to_nat n else None) with
        | Some f =>
            let path := rm_path job +:+ rm_sep job +:+ name f in
            let s := with_queue (queue s ++ [RemoveFile id path (as_i32 n) (rm_is_remote job)]) s in
            if 1000 <=? as_i32 (now env - last_update_job_status job) then
              report id file_num err
                (with_removes
                   (<[id := mkRemove (rm_files job) (rm_path job) (rm_sep job) (rm_is_remote job)
                              (no_confirm job) (now env)]> (remove_jobs s)) s)
            else s
        | None => report id file_num err (with_removes (base.delete id (remove_jobs s)) s)
        end
      else report id file_num err s
  | None => report id file_num err s
  end.

Definition update_job_status (elapsed : Z) (s : Remote) (job : TransferJob) : Remote :=
  if elapsed <=? 0 then s
  else
    let '(t, m) := last_update_jobs_status s in
    let last_transferred := default 0 (m !! id job) in
    show (UiProgress (id job) (as_i32 (file_num job - 1)) (as_u64 (transferred job - last_transferred))
            elapsed (finished_size job))
      (with_status (t, <[id job := transferred job]> m) s).

Definition update_jobs_status (s : Remote) : Remote :=
  let elapsed := as_i32 (now env - (last_update_jobs_status s).1) in
  if 1000 <=? elapsed then
    let s := fold_left (update_job_status elapsed) (read_jobs s) s in
    let s := fold_left (update_job_status elapsed) (write_jobs s) s in
    with_status (now env, (last_update_jobs_status s).2) s
  else s.

Definition cancel_transfer_job (id : Z) (s : Remote) : Remote :=
  let s := send (Asked (Cancel id)) s in
  let s := match FileTransfer.remove_job id (write_jobs s) with
           | (Some job, jobs) => with_fs (remove_download_file job (remote_fs s)) (with_writes jobs s)
           | (None, _) => s
           end in
  let s := with_reads (snd (FileTransfer.remove_job id (read_jobs s))) s in
  with_removes (base.delete id (remove_jobs s)) s.

(** An operation on the job [id] of a list, as [fs::get_job] finds it. *)
Definition on_job {A} (m : JobM A) (j : TransferJob) (s : Remote) : TransferJob * Remote :=
  let '(_, j, f) := run_job m j (remote_fs s) in (j, with_fs f s).

Definition confirmation (id file_num : Z) (over : bool) (offset : Z) : FileTransferSendConfirmRequest :=
  mkConfirm id file_num (Some (if over then OffsetBlk offset else Skip true)).

(** [job.confirm(&req)], for a job that reads or writes. *)
Definition confirm_read (req : FileTransferSendConfirmRequest) (j : TransferJob) (s : Remote) : Remote :=
  let '(j, s) := on_job (confirm req) j s in with_reads (put_back (id j) j (read_jobs s)) s.
Definition confirm_write (req : FileTransferSendConfirmRequest) (j : TransferJob) (s : Remote) : Remote :=
  let '(j, s) := on_job (confirm req) j s in with_writes (put_back (id j) j (write_jobs s)) s.

(** ** Requests of the user *)

Definition source_of (t : JobType) (to : string) : DataSource :=
  match t with Generic => FilePath to | Printer => MemoryCursor [] end.

Definition send_files (id : Z) (t : JobType) (path to : string) (n : Z) (include_hidden is_remote : bool)
    (s : Remote) : Remote :=
  let od := can_enable_overwrite_detection in
  if is_remote then
    let job := new_write id t path (source_of t to) n include_hidden is_remote od in
    send (Transfer (new_send id t path n include_hidden)) (with_writes (write_jobs s ++ [job]) s)
  else
    match new_read other_mtime (remote_fs s) id t to (FilePath path) n include_hidden is_remote od with
    | Some (Ok job) =>
        let s := show (UiFolderFiles id (files job) path true true) s in
        let s := with_timer true (with_reads (read_jobs s ++ [job]) s) in
        send (Transfer (new_receive id to n (files job) (total_size job))) s
    | Some (Err err) => handle_job_status id (-1) (Some err) s
    | None => s
    end.

(** A job of an earlier session, that waits to be resumed. *)
Definition add_job (id : Z) (t : JobType) (path to : string) (n : Z) (include_hidden is_remote : bool)
    (s : Remote) : Remote :=
  let od := can_enable_overwrite_detection in
  if is_remote then
    let job := new_write id t path (FilePath to) n include_hidden is_remote od in
    with_writes (write_jobs s ++ [set_is_last_job true job]) s
  else
    match new_read other_mtime (remote_fs s) id t to (FilePath path) n include_hidden is_remote od with
    | Some (Ok job) =>
        let s := show (UiFolderFiles id (files job) path true true) s in
        with_timer true (with_reads (read_jobs s ++ [set_is_last_job true job]) s)
    | Some (Err err) => handle_job_status id (-1) (Some err) s
    | None => s
    end.

Definition resume_job (id_ : Z) (is_remote : bool) (s : Remote) : Remote :=
  if is_remote then
    match find_job id_ (write_jobs s) with
    | Some job =>
        let job := set_is_resume true (set_is_last_job false job) in
        send (Transfer (new_send id_ Generic (remote job) (file_num job) (show_hidden job)))
          (with_writes (put_back id_ job (write_jobs s)) s)
    | None => s
    end
  else
    match find_job id_ (read_jobs s) with
    | Some job =>
        match data_source job with
        | FilePath _ =>
            let job := set_finished_size_on_resume (set_is_resume true (set_is_last_job false job)) in
            send (Transfer (new_receive id_ (remote job) (file_num job) (files job) (total_size job)))
              (with_reads (put_back id_ job (read_jobs s)) s)
        | MemoryCursor _ => s
        end
    | None => s
    end.

Definition set_no_confirm (id : Z) (s : Remote) : Remote :=
  match remove_jobs s !! id with
  | Some j =>
      with_removes (<[id := mkRemove (rm_files j) (rm_path j) (rm_sep j) (rm_is_remote j) true
                              (last_update_job_status j)]> (remove_jobs s)) s
  | None => s
  end.

Definition confirm_delete_files (id n : Z) (s : Remote) : Remote :=
  match remove_jobs s !! id with
  | Some j =>
      match (if as_usize n <? len (rm_files j) then rm_files j !! Z.to_nat (as_usize n) else None) with
      | Some f => show (UiConfirmDelete id n (name f)) s
      | None => s
      end
  | None => s
  end.

Definition set_confirm_override_file (id n : Z) (need_override remember is_upload : bool) (s : Remote)
  : Remote :=
  let req := confirmation id n need_override 0 in
  let strategy j := if remember then set_overwrite_strategy (Some need_override) j else j in
  if is_upload then
    match find_job id (read_jobs s) with
    | Some job => confirm_read req (strategy job) s
    | None => s
    end
  else
    match find_job id (write_jobs s) with
    | Some job => send (Transfer (new_send_confirm req)) (confirm_write req (strategy job) s)
    | None => s
    end.

Definition remove_dir_all (id : Z) (path : string) (is_remote include_hidden : bool) (s : Remote) : Remote :=
  let job fl := mkRemove fl path (get_path_sep is_remote) is_remote false (now env) in
  if is_remote then
    let s := send (Asked (AllFiles id path include_hidden)) s in
    with_removes (<[id := job []]> (remove_jobs s)) s
  else
    match get_recursive_files other_mtime (remote_fs s) path include_hidden with
    | Some (Ok entries) =>
        let s := show (UiFolderFiles id entries path true false) s in
        with_removes (<[id := job entries]> (remove_jobs s)) s
    | Some (Err err) => handle_job_status id (-1) (Some err) s
    | None => s
    end.

Definition err_of (r : result string unit) : option string :=
  match r with Ok _ => None | Err e => Some e end.

Definition remove_file (id : Z) (path : string) (n : Z) (is_remote : bool) (s : Remote) : Remote :=
  if is_remote then send (Asked (Messages.RemoveFile id path n)) s
  else let '(r, f) := fs_remove_file path (remote_fs s) in handle_job_status id n (err_of r) (with_fs f s).

Definition create_dir (id : Z) (path : string) (is_remote : bool) (s : Remote) : Remote :=
  if is_remote then send (Asked (Create id path)) s
  else let '(r, f) := fs_create_dir path (remote_fs s) in
       handle_job_status id (-1) (err_of r) (with_fs f s).

Definition rename (id : Z) (path new_name : string) (is_remote : bool) (s : Remote) : Remote :=
  if is_remote then send (Asked (Messages.Rename id path new_name)) s
  else let '(r, f) := FsDirs.rename_file path new_name (remote_fs s) in
       handle_job_status id (-1) (err_of r) (with_fs f s).

(** The part of [handle_msg_from_ui] on files. *)
Definition handle_msg_from_ui (d : Data) (s : Remote) : Remote :=
  match d with
  | SendFiles id t path to n h r => send_files id t path to n h r s
  | AddJob id t path to n h r => add_job id t path to n h r s
  | ResumeJob id r => resume_job id r s
  | SetNoConfirm id => set_no_confirm id s
  | ConfirmDeleteFiles id n => confirm_delete_files id n s
  | SetConfirmOverrideFile id n over rem up => set_confirm_override_file id n over rem up s
  | RemoveDirAll id path r h => remove_dir_all id path r h s
  | CancelJob id => cancel_transfer_job id s
  | RemoveDir id path => send (Asked (Messages.RemoveDir id path true)) s
  | RemoveFile id path n r => remove_file id path n r s
  | CreateDir id path r => create_dir id path r s
  | RenameFile id path new_name r => rename id path new_name r s
  end.

(** ** Answers of the peer *)

Definition on_dir (id_ : Z) (path : string) (es : list FileEntry) (s : Remote) : Remote :=
  let es := if peer_is_windows env then transform_windows_path es else es in
  match find_job id_ (write_jobs s) with
  | Some job =>
      match set_files (remote_fs s) es job with
      | Err err => handle_job_status id_ (-1) (Some err) (cancel_transfer_job id_ s)
      | Ok job =>
          let job := set_finished_size_on_resume job in
          show (UiFolderFiles id_ (files job) path false false)
            (with_writes (put_back id_ job (write_jobs s)) s)
      end
  | None =>
      match remove_jobs s !! id_ with
      | Some j =>
          show (UiFolderFiles id_ es path false false)
            (with_removes (<[id_ := mkRemove es (rm_path j) (rm_sep j) (rm_is_remote j) (no_confirm j)
                                      (last_update_job_status j)]> (remove_jobs s)) s)
      | None => show (UiFolderFiles id_ es path false false) s
      end
  end.

(** What is decided without the user: [Some (overwrite, offset)]. *)
Definition decided (j : TransferJob) (d : FileTransferDigest) : option (bool * Z) :=
  if dg_is_identical d && is_resume j && (0 <? dg_transferred_size d)
  then Some (true, as_u32 (dg_transferred_size d))
  else (fun b => (b, 0)) <$> default_overwrite_strategy j.

Definition on_digest_upload (d : FileTransferDigest) (s : Remote) : Remote :=
  match find_job (dg_id d) (read_jobs s) with
  | Some job =>
      match entry_of job (as_usize (dg_file_num d)), data_source job with
      | Some file, FilePath p =>
          match decided job d with
          | Some (overwrite, offset) =>
              let req := confirmation (dg_id d) (dg_file_num d) overwrite offset in
              send (Transfer (new_send_confirm req)) (confirm_read req job s)
          | None =>
              show (UiOverride (dg_id d) (dg_file_num d) (join p (name file)) true (dg_is_identical d)) s
          end
      | _, _ => s
      end
  | None => s
  end.

Definition on_digest_download (d : FileTransferDigest) (s : Remote) : Remote :=
  match find_job (dg_id d) (write_jobs s) with
  | Some job =>
      match entry_of job (as_usize (dg_file_num d)), data_source job with
      | Some file, FilePath p =>
          let job := set_digest (dg_file_size d) (dg_last_modified d) job in
          let s := with_writes (put_back (dg_id d) job (write_jobs s)) s in
          let answer overwrite offset :=
            let req := confirmation (dg_id d) (dg_file_num d) overwrite offset in
            send (Transfer (new_send_confirm req)) (confirm_write req job s) in
          match is_write_need_confirmation digest_from_json (remote_fs s)
                  (is_support_file_transfer_resume_num && is_resume job) (join p (name file)) d with
          | Ok IsSame => answer false 0
          | Ok (NeedConfirm d') =>
              match decided job d' with
              | Some (overwrite, offset) => answer overwrite offset
              | None =>
                  show (UiOverride (dg_id d) (dg_file_num d) (join p (name file)) false (dg_is_identical d')) s
              end
          | Ok NoSuchFile => answer true 0
          | Err _ => s
          end
      | _, _ => s
      end
  | None => s
  end.

Definition on_block (b : FileTransferBlock) (s : Remote) : Remote :=
  match find_job (blk_id b) (write_jobs s) with
  | Some job =>
      let '(job, s) := on_job (write digest_to_json b) job s in
      let s := with_writes (put_back (blk_id b) job (write_jobs s)) s in
      match ty job with Generic => update_jobs_status s | Printer => s end
  | None => s
  end.

Definition on_done (id_ n : Z) (s : Remote) : Remote :=
  match FileTransfer.remove_job id_ (write_jobs s) with
  | (Some job, jobs) =>
      let s := with_fs (modify_time job (remote_fs s)) (with_writes jobs s) in
      match ty job with
      | Generic => handle_job_status id_ n (job_error job) s
      | Printer => s
      end
  | (None, _) => handle_job_status id_ n None s
  end.

Definition on_error (id_ : Z) (err : string) (n : Z) (s : Remote) : Remote :=
  let '(j, s) :=
    match FileTransfer.remove_job id_ (write_jobs s) with
    | (Some j, jobs) => (Some j, with_writes jobs s)
    | (None, _) =>
        let '(j, jobs) := FileTransfer.remove_job id_ (read_jobs s) in (j, with_reads jobs s)
    end in
  match default Generic (ty <$> j) with
  | Generic => handle_job_status id_ n (Some err) s
  | Printer => s
  end.

Definition on_confirm (r : FileTransferSendConfirmRequest) (s : Remote) : Remote :=
  match find_job (cf_id r) (read_jobs s) with
  | Some job => confirm_read r job s
  | None => s
  end.

(** The branches [FileResponse] and [FileAction] of [handle_msg_from_peer]. *)
Definition handle_file_response (r : Response) (s : Remote) : Remote :=
  match r with
  | REmptyDirs path => show (UiEmptyDirs path) s
  | RDir id path es => on_dir id path es s
  | RDigest d true => on_digest_upload d s
  | RDigest d false => on_digest_download d s
  | RBlock b => on_block b s
  | RDone id n => on_done id n s
  | RError id err n => on_error id err n s
  | RConfirm r => on_confirm r s
  end.

(** ** The timer of the loop *)

(** [false]: the loop ends. *)
Definition on_timer (s : Remote) : bool * Remote :=
  match read_jobs s with
  | [] => (true, with_timer false s)
  | _ :: _ =>
      let '(r, (jobs, e)) :=
        handle_read_jobs short (read_jobs s) (FileTransfer.mkEnv (remote_fs s) (mkNet [] (broken env))) in
      let s := send_msgs (Transfer <$> sent (net e)) (with_fs (fs e) (with_reads jobs s)) in
      match r with
      | Err err => (false, show (UiClosed err) s)
      | Ok _ => (true, update_jobs_status s)
      end
  end.

(** One turn of the loop; a request comes from the user or from the loop's own channel. *)
Inductive Step : Type :=
| FromUi (d : Data)
| FromQueue
| FromPeer (r : Response)
| Timer.

Definition step (x : Step) (s : Remote) : Remote :=
  match x with
  | FromUi d => handle_msg_from_ui d s
  | FromQueue =>
      match queue s with
      | [] => s
      | d :: q => handle_msg_from_ui d (with_queue q s)
      end
  | FromPeer r => handle_file_response r s
  | Timer => (on_timer s).2
  end.
End Remote.

(** Turns of the loop, each with what the rest of the program answers. *)
Definition run `{Zstd} dto dfrom short other_mtime (xs : list (Env * Step)) (s : Remote) : Remote :=
  fold_left (fun s x => step dto dfrom short other_mtime x.1 x.2 s) xs s.

Definition fresh (f : Fs) (now : Z) : Remote := mkRemote [] [] ∅ f (now, ∅) false [] [] [].
