(* ===== verification/ClientConfined.v ===== *)
(** * What a peer can change on the controlling side

    Downloads of [ClientJobs] stay where the user asked for them, and what becomes of the
    deletions that a user has started. *)

From S2P Require Import Prelude OsFs PathFacts Compress FileTransfer FsDirs TransferSafety Messages CmFiles ClientJobs.

Section Confined.
Context `{Zstd}.
Context (digest_to_json : FileDigest -> list byte)
        (digest_from_json : list byte -> option FileDigest).
Context (short : Z -> nat).
Variable other_mtime : Fs -> list string -> Z.

Abbreviation step := (step digest_to_json digest_from_json short other_mtime).

Abbreviation run := (run digest_to_json digest_from_json short other_mtime).

(** ** The invariant *)

Definition in_memory (j : TransferJob) : Prop := is_file_path (data_source j) = false.

(** The jobs that receive do so at a target; what is being deleted is the peer's. *)
Record cl_ok (ts : list Target) (s : Remote) : Prop := {
  ok_fs : linkless (remote_fs s);
  ok_jobs : Forall (fun j => receives ts j \/ in_memory j) (write_jobs s);
  ok_removes : forall id r, remove_jobs s !! id = Some r -> rm_is_remote r = true;
  ok_queue : Forall (fun d => exists id p n, d = RemoveFile id p n true) (queue s) }.

(** What one operation does. *)
Definition goes (ts : list Target) (s s' : Remote) : Prop :=
  cl_ok ts s -> cl_ok ts s' /\ confined_to ts (remote_fs s) (remote_fs s').

Lemma confined_trans' ts f g h : confined_to ts f g -> confined_to ts g h -> confined_to ts f h.
Proof.
  intros H1 H2 k Hk. destruct (confined_trans _ _ _ _ _ H1 H2 k Hk) as (t & Ht & Hd).
  exists t. split; [set_solver|done].
Qed.

Lemma goes_trans ts s1 s2 s3 : goes ts s1 s2 -> goes ts s2 s3 -> goes ts s1 s3.
Proof.
  intros H1 H2 Hs. destruct (H1 Hs) as [Hs2 C1]. destruct (H2 Hs2) as [Hs3 C2].
  split; [done|]. by eapply confined_trans'.
Qed.

Lemma goes_same ts s s' :
  write_jobs s' = write_jobs s -> remove_jobs s' = remove_jobs s -> remote_fs s' = remote_fs s ->
  queue s' = queue s -> goes ts s s'.
Proof.
  intros E1 E2 E3 E4 [? ? ? ?]. split; [split; rewrite ?E1, ?E2, ?E3, ?E4; done|].
  rewrite E3. apply confined_refl.
Qed.

Lemma goes_refl ts s : goes ts s s.
Proof. by apply goes_same. Qed.

Lemma goes_writes ts s l :
  (cl_ok ts s -> Forall (fun j => receives ts j \/ in_memory j) l) -> goes ts s (with_writes l s).
Proof. intros Hl Hs. specialize (Hl Hs). destruct Hs. split; [by split|apply confined_refl]. Qed.

Lemma goes_removes ts s m :
  (cl_ok ts s -> forall id r, m !! id = Some r -> rm_is_remote r = true) -> goes ts s (with_removes m s).
Proof. intros Hm Hs. specialize (Hm Hs). destruct Hs. split; [by split|apply confined_refl]. Qed.

Lemma goes_delete ts s id : goes ts s (with_removes (base.delete id (remove_jobs s)) s).
Proof.
  apply goes_removes. intros Hs i r Hr. apply lookup_delete_Some in Hr as [_ Hr]. by apply (ok_removes _ _ Hs i).
Qed.

Lemma goes_update ts s id r :
  (forall r0, remove_jobs s !! id = Some r0 -> rm_is_remote r0 = true -> rm_is_remote r = true) ->
  is_Some (remove_jobs s !! id) -> goes ts s (with_removes (<[id := r]> (remove_jobs s)) s).
Proof.
  intros Hr [r0 H0]. apply goes_removes. intros Hs i r'. rewrite lookup_insert_Some.
  intros [[-> ->]|[_ Hl]]; [apply (Hr _ H0)|]; by eapply (ok_removes _ _ Hs).
Qed.

(** A change of the file system by a job that receives at one of the targets. *)
Lemma goes_fs ts s f t : t ∈ ts -> safe_step t (remote_fs s) f -> goes ts s (with_fs f s).
Proof.
  intros Hin Hst [Hl ? ? ?]. destruct (linkless_step t _ _ Hst Hl) as [Hl' Hc].
  split; [by split|]. intros k Hk. destruct (Hc k Hk) as (t' & ->%list_elem_of_singleton & Hd). eauto.
Qed.

Lemma goes_same_entries ts s f : same_entries (remote_fs s) f -> goes ts s (with_fs f s).
Proof. intros Hf [? ? ? ?]. split; [split; [by eapply linkless_same|done..]|by apply confined_same]. Qed.

#[local] Hint Resolve goes_refl goes_delete : goes.
#[local] Hint Extern 2 (goes _ _ _) => apply goes_same; reflexivity : goes.

(** ** The operations *)

Section Ops.
Variables (env : Env) (ts : list Target).

Lemma send_goes m s : goes ts s (send env m s).
Proof. unfold send. destruct (broken env); eauto with goes. Qed.
Lemma show_goes u s : goes ts s (show u s).
Proof. eauto with goes. Qed.
Lemma report_goes id n err s : goes ts s (report id n err s).
Proof. destruct err; eauto with goes. Qed.

Lemma queue_goes s id r p n :
  remove_jobs s !! id = Some r -> goes ts s (with_queue (queue s ++ [RemoveFile id p n (rm_is_remote r)]) s).
Proof.
  intros Hr Hs. pose proof (ok_removes _ _ Hs id r Hr) as ->. destruct Hs.
  split; [|apply confined_refl]. split; [done..|]. apply Forall_app. split; [done|].
  apply Forall_singleton. eauto.
Qed.

Lemma status_goes id n err s : goes ts s (handle_job_status env id n err s).
Proof.
  unfold handle_job_status. destruct (remove_jobs s !! id) as [r|] eqn:Er; [|apply report_goes].
  destruct (no_confirm r); [|apply report_goes]. cbv zeta.
  destruct (if _ <? _ then _ else None) as [f|].
  - set (p := rm_path r +:+ rm_sep r +:+ name f). set (m := as_i32 (as_usize _)).
    eapply goes_trans; [by apply (queue_goes s id r p m)|].
    destruct (1000 <=? _); [|apply goes_refl].
    eapply goes_trans; [|apply report_goes]. apply goes_update; cbn; rewrite Er; [by intros ? [= <-]|done].
  - eapply goes_trans; [apply goes_delete|apply report_goes].
Qed.

Lemma update_one_goes elapsed s j : goes ts s (update_job_status elapsed s j).
Proof.
  unfold update_job_status. destruct (elapsed <=? 0); [apply goes_refl|].
  destruct (last_update_jobs_status s). eauto with goes.
Qed.

Lemma update_fold_goes elapsed l s : goes ts s (fold_left (update_job_status elapsed) l s).
Proof.
  revert s. induction l as [|j l IH]; intros s; [apply goes_refl|].
  cbn. eapply goes_trans; [apply update_one_goes|apply IH].
Qed.

Lemma update_goes s : goes ts s (update_jobs_status env s).
Proof.
  unfold update_jobs_status. destruct (1000 <=? _); [|apply goes_refl]. cbv zeta.
  eapply goes_trans; [apply update_fold_goes|]. eapply goes_trans; [apply update_fold_goes|].
  eauto with goes.
Qed.

(** *** The lists of jobs *)

Abbreviation okj := (fun j => receives ts j \/ in_memory j).

Lemma find_ok id_ s j : cl_ok ts s -> find_job id_ (write_jobs s) = Some j -> okj j.
Proof.
  intros Hs Hf. apply List.find_some in Hf as [Hin _]. destruct Hs as [_ Hw _ _].
  rewrite Forall_forall in Hw. by apply Hw, list_elem_of_In.
Qed.

Lemma put_back_ok id_ j jobs : okj j -> Forall okj jobs -> Forall okj (put_back id_ j jobs).
Proof.
  intros Hj. induction jobs as [|x jobs IH]; intros Hf; [done|]. apply Forall_cons in Hf as [H1 H2].
  cbn. destruct (id x =? id_); apply Forall_cons; auto.
Qed.

Lemma remove_ok id_ jobs :
  Forall okj jobs ->
  Forall okj (snd (FileTransfer.remove_job id_ jobs))
  /\ forall j, fst (FileTransfer.remove_job id_ jobs) = Some j -> okj j.
Proof.
  induction jobs as [|j jobs IH]; intros Hf; [done|]. apply Forall_cons in Hf as [H1 H2]. cbn.
  destruct (id j =? id_); [split; [done|]; by intros ? [= <-]|].
  destruct (IH H2) as [H3 H4]. destruct (FileTransfer.remove_job id_ jobs) as [r l]. cbn in *.
  split; [by apply Forall_cons|done].
Qed.

(** Only what a job is made of matters. *)
Lemma ok_like j j' :
  ty j' = ty j -> data_source j' = data_source j -> files j' = files j -> okj j -> okj j'.
Proof.
  intros Et Ed Ef [(t & Ht & Hj)|Hj]; [left; exists t; split; [done|]|right].
  - unfold dir_job in *. by rewrite Et, Ed, Ef.
  - unfold in_memory in *. by rewrite Ed.
Qed.

Lemma resumed_like j : ty (set_finished_size_on_resume j) = ty j
  /\ data_source (set_finished_size_on_resume j) = data_source j
  /\ files (set_finished_size_on_resume j) = files j.
Proof. unfold set_finished_size_on_resume. by destruct (is_resume j && _). Qed.

Lemma set_files_keeps f fl j j' : set_files f fl j = Ok j' -> okj j ->
  (forall t, t ∈ ts -> exists b, t = AtPath b) -> okj j'.
Proof.
  intros ->%set_files_ok Hj Hts. destruct Hj as [(t & Ht & Hty & Hd & _)|Hj]; [|by right].
  left. exists t. split; [done|]. destruct (Hts t Ht) as [b ->]. split_and!; [done..|].
  by apply Forall_forall.
Qed.

(** Confirmations open no new entries. *)
Lemma confirm_write_goes req j s :
  cl_ok ts s -> okj j -> goes ts s (confirm_write req j s).
Proof.
  intros Hs Hj. unfold confirm_write, on_job. destruct (run_job (confirm req) j (remote_fs s)) as [[r j'] f] eqn:Er.
  unfold run_job in Er. destruct (confirm req (j, _)) as [r0 [j0 e0]] eqn:Ec. injection Er as <- <- <-.
  destruct (mild_confirm req _ _ _ _ _ Ec) as (Hf & Et & Ed & Ef).
  eapply goes_trans; [by apply (goes_same_entries ts s (fs e0))|]. apply goes_writes. intros Hs'.
  apply put_back_ok; [|by destruct Hs']. by eapply ok_like.
Qed.

Lemma confirm_read_goes req j s : goes ts s (confirm_read req j s).
Proof.
  unfold confirm_read, on_job. destruct (run_job (confirm req) j (remote_fs s)) as [[r j'] f] eqn:Er.
  destruct (run_mild _ _ _ _ _ _ (mild_confirm req) Er) as [Hf _].
  eapply goes_trans; [by apply (goes_same_entries ts s f)|]. eauto with goes.
Qed.

Lemma download_file_goes j s : okj j -> goes ts s (with_fs (remove_download_file j (remote_fs s)) s).
Proof.
  intros [(t & Ht & Hj)|Hj].
  - apply (goes_fs ts s _ t); [done|by apply remove_download_safe].
  - apply goes_same_entries. unfold remove_download_file, in_memory in *.
    destruct (ty j), (data_source j); done.
Qed.

Lemma modify_goes j s : okj j -> goes ts s (with_fs (modify_time j (remote_fs s)) s).
Proof.
  intros [(t & Ht & Hj)|Hj].
  - apply (goes_fs ts s _ t); [done|by apply modify_time_safe].
  - apply goes_same_entries. unfold modify_time, in_memory in *. destruct (ty j), (data_source j); done.
Qed.

Lemma stream_mild data : mild (stream_write_all data).
Proof.
  unfold stream_write_all. intros j e. unfold mbind, st_mbind, st_bind, get_job. cbn [fst].
  destruct (data_stream j) as [[h|buf at_]|]; intros r j' e'.
  - unfold lift_io, write_file. destruct (inodes (fs e) !! ino h); by intros [= <- <- <-].
  - by intros [= <- <- <-].
  - by intros [= <- <- <-].
Qed.

(** A block of a job in memory changes no entry. *)
Lemma memory_block b j f r j' f' :
  in_memory j -> run_job (write digest_to_json b) j f = (r, j', f') -> same_entries f f' /\ in_memory j'.
Proof.
  intros Hj. unfold run_job. destruct (write digest_to_json b _) as [r0 [j0 e0]] eqn:E. intros [= <- <- <-].
  assert (Hm : exists m : JobM unit, mild m /\ write digest_to_json b (j, FileTransfer.mkEnv f (mkNet [] false)) = m (j, FileTransfer.mkEnv f (mkNet [] false))).
  { unfold in_memory in Hj. destruct (data_source j) as [p|c] eqn:Ed; [done|].
    eexists (if negb (blk_id b =? id j) then st_fail "Wrong id" else _). split; cycle 1.
    - unfold write. unfold mbind at 1, st_mbind at 1, st_bind at 1, get_job. cbn [fst]. rewrite Ed. reflexivity.
    - destruct (negb _); [apply mild_fail|]. apply mild_bind.
      { destruct (data_stream j); [apply mild_ret|]. by apply mild_put_job. }
      intros _. apply mild_bind.
      { destruct (blk_compressed b); (apply mild_bind; [apply stream_mild|]; intros; by apply mild_put_job). }
      intros. by apply mild_put_job. }
  destruct Hm as (m & Hm & Em). rewrite Em in E. destruct (Hm _ _ _ _ _ E) as (Hf & _ & Ed & _).
  split; [done|]. unfold in_memory in *. by rewrite Ed.
Qed.

Lemma block_goes b s : goes ts s (on_block digest_to_json env b s).
Proof.
  intros Hs. revert Hs. unfold on_block. destruct (find_job (blk_id b) (write_jobs s)) as [j|] eqn:Ej; [|apply goes_refl].
  unfold on_job. destruct (run_job (write digest_to_json b) j (remote_fs s)) as [[r j'] f] eqn:Er. intros Hs.
  assert (H1 : okj j' /\ goes ts s (with_fs f s)).
  { destruct (find_ok _ _ _ Hs Ej) as [(t & Ht & Hj)|Hj].
    - destruct (run_job_safe t _ _ _ _ _ _ (write_safe digest_to_json t b) Hj Er) as [Hj' Hf].
      split; [left; by exists t|by apply (goes_fs ts s f t)].
    - destruct (memory_block _ _ _ _ _ _ Hj Er) as [Hf Hj']. split; [by right|by apply goes_same_entries]. }
  destruct H1 as [Hj' Hg]. revert Hs. eapply goes_trans; [exact Hg|].
  eapply (goes_trans _ _ (with_writes (put_back (blk_id b) j' (write_jobs s)) (with_fs f s))).
  { apply goes_writes. intros Hs'. apply put_back_ok; [done|by destruct Hs']. }
  cbn [write_jobs with_fs]. destruct (ty j'); [apply update_goes|apply goes_refl].
Qed.

(** *** The peer *)

Hypothesis at_paths : forall t, t ∈ ts -> exists b, t = AtPath b.

Lemma cancel_goes id s : goes ts s (cancel_transfer_job env id s).
Proof.
  unfold cancel_transfer_job. cbv zeta. eapply goes_trans; [apply (send_goes (Asked (Cancel id)))|].
  set (s1 := send env (Asked (Cancel id)) s). clearbody s1. clear s. intros Hs.
  destruct (remove_ok id (write_jobs s1) (ok_jobs _ _ Hs)) as [H1 H2]. revert Hs.
  assert (Hend : forall s, goes ts s (with_removes (base.delete id (remove_jobs s))
    (with_reads (snd (FileTransfer.remove_job id (read_jobs s))) s))).
  { intros s. set (s2 := with_reads (snd (FileTransfer.remove_job id (read_jobs s))) s).
    eapply (goes_trans _ _ s2); [eauto with goes|apply (goes_delete ts s2)]. }
  destruct (FileTransfer.remove_job id (write_jobs s1)) as [[j|] jobs]; [|exact (Hend s1)].
  eapply goes_trans; [|exact (Hend _)].
  eapply (goes_trans _ _ (with_writes jobs s1)); [by apply goes_writes|].
  apply (download_file_goes j (with_writes jobs s1)). by apply H2.
Qed.

Lemma dir_goes id path es s : goes ts s (on_dir env id path es s).
Proof.
  unfold on_dir. cbv zeta. set (es' := if peer_is_windows env then _ else _). clearbody es'.
  destruct (find_job id (write_jobs s)) as [j|] eqn:Ej.
  - destruct (set_files (remote_fs s) es' j) as [j'|err] eqn:Ef.
    2: { eapply goes_trans; [apply cancel_goes|apply status_goes]. }
    intros Hs. assert (Hj : okj (set_finished_size_on_resume j')).
    { destruct (resumed_like j') as (R1 & R2 & R3). apply (ok_like j'); [done..|].
      eapply set_files_keeps; [exact Ef|by eapply find_ok|done]. }
    revert Hs. eapply goes_trans; [|apply show_goes]. apply goes_writes. intros Hs.
    apply put_back_ok; [done|by destruct Hs].
  - destruct (remove_jobs s !! id) as [r|] eqn:Er; [|apply show_goes].
    eapply goes_trans; [|apply show_goes]. apply goes_update; cbn; rewrite Er; [by intros ? [= <-]|done].
Qed.

Lemma upload_goes d s : goes ts s (on_digest_upload env d s).
Proof.
  unfold on_digest_upload. destruct (find_job _ (read_jobs s)) as [j|]; [|apply goes_refl].
  destruct (entry_of j _), (data_source j); try apply goes_refl.
  destruct (decided j d) as [[over off]|]; [|apply show_goes].
  eapply goes_trans; [apply confirm_read_goes|apply send_goes].
Qed.

Lemma download_goes d s : goes ts s (on_digest_download digest_from_json env d s).
Proof.
  unfold on_digest_download. destruct (find_job _ (write_jobs s)) as [j|] eqn:Ej; [|apply goes_refl].
  destruct (entry_of j _); [|apply goes_refl]. destruct (data_source j) as [p|c] eqn:Ed; [|apply goes_refl].
  cbv zeta. set (j' := set_digest _ _ j). intros Hs.
  assert (Hj : okj j') by (eapply (ok_like j); [done..|by eapply find_ok]). revert Hs.
  eapply (goes_trans _ _ (with_writes (put_back (dg_id d) j' (write_jobs s)) s)).
  { apply goes_writes. intros Hs. apply put_back_ok; [done|by destruct Hs]. }
  set (s1 := with_writes _ s).
  assert (Ha : forall req, goes ts s1 (send env (Transfer (new_send_confirm req)) (confirm_write req j' s1))).
  { intros req Hs. revert Hs. eapply goes_trans; [|apply send_goes]. intros Hs. by apply confirm_write_goes. }
  destruct (is_write_need_confirmation _ _ _ _ _) as [[|d'|]|err]; [apply Ha| |apply Ha|apply goes_refl].
  destruct (decided j' d') as [[over off]|]; [apply Ha|apply show_goes].
Qed.

Lemma done_goes id n s : goes ts s (on_done env id n s).
Proof.
  unfold on_done. intros Hs. destruct (remove_ok id (write_jobs s) (ok_jobs _ _ Hs)) as [H1 H2]. revert Hs.
  destruct (FileTransfer.remove_job id (write_jobs s)) as [[j|] jobs]; [|apply status_goes].
  cbv zeta. eapply (goes_trans _ _ (with_writes jobs s)); [by apply goes_writes|].
  eapply goes_trans; [by apply (modify_goes j (with_writes jobs s)), H2|].
  destruct (ty j); [apply status_goes|apply goes_refl].
Qed.

Lemma error_goes id err n s : goes ts s (on_error env id err n s).
Proof.
  unfold on_error. intros Hs. destruct (remove_ok id (write_jobs s) (ok_jobs _ _ Hs)) as [H1 H2]. revert Hs.
  assert (Hend : forall s j, goes ts s (match default Generic (ty <$> j : option JobType) with
    Generic => handle_job_status env id n (Some err) s | Printer => s end)).
  { intros s' j. destruct (default Generic (ty <$> j)); [apply status_goes|apply goes_refl]. }
  destruct (FileTransfer.remove_job id (write_jobs s)) as [[j|] jobs].
  - eapply goes_trans; [|apply (Hend _ (Some j))]. by apply goes_writes.
  - destruct (FileTransfer.remove_job id (read_jobs s)) as [j jobs'].
    eapply goes_trans; [|apply (Hend _ j)]. eauto with goes.
Qed.

Lemma response_goes r s : goes ts s (handle_file_response digest_to_json digest_from_json env r s).
Proof.
  destruct r as [| | |b| | |r]; cbn [handle_file_response].
  - apply show_goes.
  - apply dir_goes.
  - destruct is_upload; [apply upload_goes|apply download_goes].
  - apply block_goes.
  - apply done_goes.
  - apply error_goes.
  - unfold on_confirm. destruct (find_job (cf_id r) (read_jobs s)); [apply confirm_read_goes|apply goes_refl].
Qed.

(** *** The timer *)

Definition keeps_fs {A} (m : JobM A) : Prop := forall j e, fs (m (j, e)).2.2 = fs e.

Lemma keeps_bind {A B} (m : JobM A) (k : A -> JobM B) : keeps_fs m -> (forall a, keeps_fs (k a)) -> keeps_fs (m ≫= k).
Proof.
  intros Hm Hk j e. unfold mbind, st_mbind, st_bind. specialize (Hm j e).
  destruct (m (j, e)) as [[a|err] [j1 e1]]; cbn in Hm; [|done]. by rewrite Hk.
Qed.

Lemma keeps_reads {A} (m : JobM A) : reads m -> keeps_fs m.
Proof. intros Hm j [f n]. destruct (Hm j f) as (r & j' & E). by rewrite E. Qed.

Lemma keeps_send m : keeps_fs (FileTransfer.send m).
Proof. intros j e. unfold FileTransfer.send. by destruct (FileTransfer.broken (net e)). Qed.

Lemma init_fs : keeps_fs init_data_stream.
Proof.
  unfold init_data_stream, open_data_stream, send_current_digest, get_current_digest.
  apply keeps_bind; [apply keeps_reads; repeat reads_step|]. intros []; [by apply keeps_reads, reads_ret|].
  apply keeps_bind; [apply keeps_reads; eauto with reads|]. intros j. destruct (wants_digest j);
    [|by apply keeps_reads, reads_ret].
  apply keeps_bind; [|intros; apply keeps_reads; eauto with reads].
  apply keeps_bind; [apply keeps_reads; repeat reads_step|]. intros [lm sz].
  apply keeps_bind; [apply keeps_reads; eauto with reads|]. intros. apply keeps_send.
Qed.

Lemma init_jobs_fs jobs e : fs (init_jobs jobs e).2.2 = fs e.
Proof.
  revert e. induction jobs as [|j jobs IH]; intros e; [done|]. cbn [init_jobs].
  destruct (is_last_job j).
  { specialize (IH e). by destruct (init_jobs jobs e) as [r [jobs' e']]. }
  pose proof (init_fs j e) as Hi.
  destruct (init_data_stream (j, e)) as [[[]|err] [j1 e1]]; cbn in Hi.
  - specialize (IH e1). rewrite Hi in IH. by destruct (init_jobs jobs e1) as [r [jobs' e']].
  - unfold send_env. destruct (FileTransfer.broken (net e1)); [done|].
    set (e2 := FileTransfer.mkEnv (fs e1) _). specialize (IH e2).
    destruct (init_jobs jobs e2) as [r [jobs' e']]. cbn in *. congruence.
Qed.

Lemma step_jobs_fs jobs e : fs (step_jobs short jobs e).2.2 = fs e.
Proof.
  revert e. induction jobs as [|j jobs IH]; intros e; [done|]. cbn [step_jobs].
  destruct (is_last_job j).
  { specialize (IH e). by destruct (step_jobs short jobs e) as [r [jobs' e']]. }
  unfold step_job. destruct e as [f n]. destruct (reads_read short j f) as (r & j' & E). rewrite E.
  destruct r as [[b|]|err]; unfold send_env; cbn; try (by destruct (FileTransfer.broken n)).
  destruct (job_completed j'); [|done]. destruct (job_error j'); by destruct (FileTransfer.broken n).
Qed.

Lemma timer_goes s : goes ts s (on_timer short env s).2.
Proof.
  unfold on_timer. destruct (read_jobs s) as [|j jobs]; [eauto with goes|].
  set (e := FileTransfer.mkEnv _ _). unfold handle_read_jobs.
  pose proof (init_jobs_fs (j :: jobs) e) as H1. destruct (init_jobs (j :: jobs) e) as [[[]|err] [l1 e1]]; cbn in H1.
  2: { apply goes_same; [done..|cbn; by rewrite H1|done]. }
  pose proof (step_jobs_fs l1 e1) as H2. destruct (step_jobs short l1 e1) as [[[log fin]|err] [l2 e2]]; cbn in H2.
  2: { apply goes_same; [done..|cbn; by rewrite H2, H1|done]. }
  eapply goes_trans; [|apply update_goes]. apply goes_same; [done..|cbn; by rewrite H2, H1|done].
Qed.

(** *** The user *)

Lemma ui_goes d s :
  match d with
  | SendFiles _ Generic _ to _ _ true | AddJob _ Generic _ to _ _ true => AtPath to ∈ ts
  | AddJob _ Printer _ _ _ _ true => False
  | RemoveDirAll _ _ r _ | RemoveFile _ _ _ r | CreateDir _ _ r | RenameFile _ _ _ r => r = true
  | _ => True
  end ->
  goes ts s (handle_msg_from_ui other_mtime env d s).
Proof.
  assert (Hadd : forall j, okj j -> goes ts s (with_writes (write_jobs s ++ [j]) s)).
  { intros j Hj. apply goes_writes. intros Hs. apply Forall_app. split; [by destruct Hs|by apply Forall_singleton]. }
  assert (Hnew : forall id path to n h od, AtPath to ∈ ts -> okj (new_write id Generic path (FilePath to) n h true od)).
  { intros. left. exists (AtPath to). split; [done|]. by split_and!. }
  destruct d; cbn [handle_msg_from_ui]; intros Hd.
  - unfold send_files. destruct is_remote.
    + eapply goes_trans; [|apply send_goes]. apply Hadd. destruct t; [by apply Hnew|by right].
    + unfold new_read. destruct (get_recursive_files _ _ _ _) as [[fl|err]|]; cbn; [|apply status_goes|apply goes_refl].
      eapply goes_trans; [|apply send_goes]. eauto with goes.
  - unfold add_job. destruct is_remote.
    + apply Hadd. destruct t; [|done]. apply (ok_like (new_write id Generic path (FilePath to) file_num include_hidden true
        (can_enable_overwrite_detection env))); [done..|by apply Hnew].
    + unfold new_read. destruct (get_recursive_files _ _ _ _) as [[fl|err]|]; cbn; [|apply status_goes|apply goes_refl].
      eauto with goes.
  - unfold resume_job. destruct is_remote.
    + destruct (find_job id (write_jobs s)) as [j|] eqn:Ej; [|apply goes_refl].
      eapply goes_trans; [|apply send_goes]. apply goes_writes. intros Hs. apply put_back_ok; [|by destruct Hs].
      eapply (ok_like j); [done..|by eapply find_ok].
    + destruct (find_job id (read_jobs s)) as [j|]; [|apply goes_refl].
      destruct (data_source j); [|apply goes_refl]. eapply goes_trans; [|apply send_goes]. eauto with goes.
  - unfold set_no_confirm. destruct (remove_jobs s !! id) as [r|] eqn:Er; [|apply goes_refl].
    apply goes_update; cbn; rewrite Er; [by intros ? [= <-]|done].
  - unfold confirm_delete_files. destruct (remove_jobs s !! id) as [r|]; [|apply goes_refl].
    destruct (if _ <? _ then _ else _); [apply show_goes|apply goes_refl].
  - unfold set_confirm_override_file. destruct is_upload.
    + destruct (find_job id (read_jobs s)) as [j|]; [apply confirm_read_goes|apply goes_refl].
    + destruct (find_job id (write_jobs s)) as [j|] eqn:Ej; [|apply goes_refl]. intros Hs.
      assert (Hj : okj j) by by eapply find_ok. revert Hs.
      eapply goes_trans; [|apply send_goes]. intros Hs. apply confirm_write_goes; [done| |done].
      destruct remember; [|done]. by apply (ok_like j).
  - unfold remove_dir_all. subst is_remote.
    eapply goes_trans; [apply (send_goes (Asked (AllFiles id path include_hidden)))|].
    apply goes_removes. intros Hs i r. rewrite lookup_insert_Some. intros [[-> <-]|[_ Hl]]; [done|].
    by apply (ok_removes _ _ Hs i).
  - apply cancel_goes.
  - apply send_goes.
  - subst is_remote. apply send_goes.
  - subst is_remote. apply send_goes.
  - subst is_remote. apply send_goes.
Qed.

Lemma queue_step_goes s : goes ts s (step env FromQueue s).
Proof.
  cbn [ClientJobs.step]. destruct (queue s) as [|d q] eqn:Eq; [apply goes_refl|]. intros Hs.
  pose proof (ok_queue _ _ Hs) as Hq. rewrite Eq in Hq. apply Forall_cons in Hq as [(i & p & n & ->) Hq].
  revert Hs. eapply goes_trans; [|by apply ui_goes].
  intros [? ? ? ?]. split; [by split|apply confined_refl].
Qed.
End Ops.

(** ** Downloads *)

(** The user's own changes of his files are left out, and jobs of a printer that an
    earlier session has left. *)
Definition not_own (x : Env * Step) : bool :=
  match x.2 with
  | FromUi (AddJob _ Printer _ _ _ _ true) => false
  | FromUi (RemoveDirAll _ _ r _ | RemoveFile _ _ _ r | CreateDir _ _ r | RenameFile _ _ _ r) => r
  | _ => true
  end.

Definition asked_for (x : Env * Step) : list Target :=
  match x.2 with
  | FromUi (SendFiles _ Generic _ to _ _ true | AddJob _ Generic _ to _ _ true) => [AtPath to]
  | _ => []
  end.

Lemma asked_at_paths xs t : t ∈ concat (map asked_for xs) -> exists b, t = AtPath b.
Proof.
  induction xs as [|[env x] xs IH]; [by intros ?%elem_of_nil|]. cbn. intros [Ht|Ht]%elem_of_app; [|by apply IH].
  unfold asked_for in Ht. cbn in Ht.
  repeat case_match; try by apply elem_of_nil in Ht. all: apply list_elem_of_singleton in Ht as ->; by eexists.
Qed.

Lemma step_goes ts env x s :
  (forall t, t ∈ ts -> exists b, t = AtPath b) -> not_own (env, x) = true ->
  (forall t, t ∈ asked_for (env, x) -> t ∈ ts) -> goes ts s (step env x s).
Proof.
  intros Hat Hn Ha. destruct x as [d| |r|]; cbn [ClientJobs.step].
  - apply ui_goes. unfold not_own, asked_for in *. cbn in Hn, Ha.
    destruct d; try done; try (destruct t); destruct is_remote; try done; apply Ha; by left.
  - by apply queue_step_goes.
  - by apply response_goes.
  - apply timer_goes.
Qed.

(** C27: A peer can change nothing on the controlling side but what the user downloads.
    Whatever lists of files, blocks, digests, ends and errors it sends, whatever the user
    asks for meanwhile (uploads, downloads, resumptions, deletions on the peer), in
    whatever order and however the times and the connection behave: on a file system
    without symbolic links only entries at or below the paths that the user named for
    downloads change, with the two companions of such a path, or directories that lead
    there; and no symbolic link appears. *)
Theorem downloads_are_confined xs f t0 :
  forallb not_own xs = true -> linkless f ->
  let s := run xs (fresh f t0) in
  linkless (remote_fs s) /\ confined_to (concat (map asked_for xs)) f (remote_fs s).
Proof.
  intros Hn Hl. cbv zeta. set (ts := concat (map asked_for xs)).
  assert (Hts : forall x t, x ∈ xs -> t ∈ asked_for x -> t ∈ ts).
  { intros x t Hx Ht. unfold ts. apply list_elem_of_In, in_concat. exists (asked_for x).
    split; [by apply in_map, list_elem_of_In|by apply list_elem_of_In]. }
  assert (Hat : forall t, t ∈ ts -> exists b, t = AtPath b) by apply asked_at_paths.
  assert (Hg : goes ts (fresh f t0) (run xs (fresh f t0))).
  { generalize (fresh f t0). clearbody ts. clear t0 Hl. induction xs as [|[env x] xs IH]; intros s; [apply goes_refl|].
    apply andb_true_iff in Hn as [Hx Hn]. unfold ClientJobs.run. cbn [fold_left].
    eapply goes_trans; [|apply IH; [done|intros; eapply Hts; [by right|done]]].
    apply step_goes; [done|done|]. intros t. apply Hts. by left. }
  destruct Hg as [[Hl' _ _ _] Hc]; [by split|]. done.
Qed.
End Confined.

(** ** Example *)

Definition ex_env (t : Z) : Env := mkEnv t 1004002 false false.

(** A download into [/d], and a peer that tries its hand at other places. *)
Definition ex_download : list (Env * Step) :=
  [(ex_env 1, FromUi (SendFiles 3 Generic "/r" "/d" 0 false true));
   (ex_env 2, FromPeer (RDir 3 "/r" [file_entry "../x" 1 1]));
   (ex_env 3, FromUi (SendFiles 4 Generic "/r" "/d" 0 false true));
   (ex_env 4, FromPeer (RDir 4 "/r" [file_entry "s/f" 3 9]));
   (ex_env 5, FromPeer (RBlock (mkBlock 4 0 [x61; x62; x63] false)));
   (ex_env 6, FromPeer (RDone 4 0)); (ex_env 7, Timer)].

Lemma downloads_are_confined_witness :
  let s := run (H := toy_zstd) demo_json (fun _ => None) (fun _ => 9%nat) no_mtime ex_download (fresh plain_fs 0) in
  entries (remote_fs s) !! ["/"; "d"; "s"; "f"] = Some (EFile 0)
  /\ linkless (remote_fs s) /\ confined_to (concat (map asked_for ex_download)) plain_fs (remote_fs s).
Proof.
  cbv zeta. split; [vm_compute; reflexivity|].
  apply (@downloads_are_confined toy_zstd demo_json (fun _ => None) (fun _ => 9%nat) no_mtime);
    [reflexivity|exact plain_linkless].
Defined.
