(* ===== verification/ClientDeletes.v ===== *)
(** * Deleting a folder on the controlling side

    A deletion of [ClientJobs] works through a list of files: every file that is removed
    puts the removal of the next one on the loop's own channel. *)

From S2P Require Import Prelude OsFs PathFacts Compress FileTransfer FsDirs TransferSafety TransferContent Messages CmFiles ClientJobs.

Section Deletes.
Context `{Zstd}.
Context (digest_to_json : FileDigest -> list byte)
        (digest_from_json : list byte -> option FileDigest).
Context (short : Z -> nat).
Variable other_mtime : Fs -> list string -> Z.

Abbreviation step := (step digest_to_json digest_from_json short other_mtime).
Abbreviation run := (run digest_to_json digest_from_json short other_mtime).

(** The file [n] of a deletion, as it is asked for. *)
Definition path_of (r : RemoveJob) (f : FileEntry) : string := rm_path r +:+ rm_sep r +:+ name f.

(** The deletion runs, at file [n]. *)
Record deleting (id : Z) (fl : list FileEntry) (path sep : string) (n : nat) (s : Remote) : Prop := {
  del_job : exists t, remove_jobs s !! id = Some (mkRemove fl path sep false true t);
  del_next : exists f, fl !! n = Some f
    /\ queue s = [RemoveFile id (path +:+ sep +:+ name f) (Z.of_nat n) false] }.

(** Files that can be removed: where they are there is no directory, and nothing is denied. *)
Definition clear (f : Fs) (ps : list string) : Prop :=
  denied f = ∅ /\ Forall (fun p => entries f !! key p <> Some EDir /\ p <> "" /\ has_nul p = false) ps.

Definition removed (ps : list string) (m : gmap (list string) Entry) : gmap (list string) Entry :=
  fold_left (fun m p => base.delete (key p) m) ps m.

Lemma fs_remove_file_clear p ps f :
  clear f (p :: ps) -> entries (fs_remove_file p f).2 = base.delete (key p) (entries f)
  /\ clear (fs_remove_file p f).2 ps.
Proof.
  intros [Hd Hc]. apply Forall_cons in Hc as [(Hp & Hne & Hz) Hc].
  unfold fs_remove_file, validate_fs_path_argument. destruct (String.eqb_spec p ""); [done|]. rewrite Hz.
  unfold OsFs.remove_file, remove_entry. rewrite Hd, decide_False by set_solver.
  assert (Hdel : forall ps, Forall (fun p => entries f !! key p <> Some EDir /\ p <> "" /\ has_nul p = false) ps ->
            Forall (fun q => base.delete (key p) (entries f) !! key q <> Some EDir /\ q <> "" /\ has_nul q = false) ps).
  { intros l Hl. eapply Forall_impl; [exact Hl|]. intros q (Hq & ? & ?). split_and!; [|done..]. rewrite lookup_delete. by case_decide. }
  destruct (entries f !! key p) as [[i| |t]|] eqn:E; cbn; try done.
  - split; [done|]. split; [done|by apply Hdel].
  - split; [done|]. split; [done|by apply Hdel].
  - split; [by rewrite delete_id|]. by split.
Qed.

Lemma report_keeps id n err s :
  remove_jobs (report id n err s) = remove_jobs s /\ queue (report id n err s) = queue s
  /\ remote_fs (report id n err s) = remote_fs s.
Proof. by destruct err. Qed.

Lemma as_index n : (n < 2 ^ 31)%Z -> (0 <= n)%Z -> as_usize n = n /\ swrap 32 n = n.
Proof. intros Hn H0. split; [apply wrap_small; lia|by apply as_i32_small]. Qed.

(** One turn: the file is gone, and the deletion is at the next one or over. *)
Lemma delete_step env id fl path sep n s :
  len fl < 2 ^ 31 -> deleting id fl path sep n s ->
  clear (remote_fs s) ((fun f => path +:+ sep +:+ name f) <$> drop n fl) ->
  exists f, fl !! n = Some f /\
    let s' := step env FromQueue s in
    entries (remote_fs s') = base.delete (key (path +:+ sep +:+ name f)) (entries (remote_fs s))
    /\ clear (remote_fs s') ((fun f => path +:+ sep +:+ name f) <$> drop (S n) fl)
    /\ (if (S n <? length fl)%nat then deleting id fl path sep (S n) s'
        else queue s' = [] /\ remove_jobs s' !! id = None).
Proof.
  intros Hl [(t & Hj) (f & Hf & Hq)] Hc. exists f. split; [done|]. cbv zeta.
  assert (Hdrop : drop n fl = f :: drop (S n) fl) by by apply drop_S.
  rewrite Hdrop, fmap_cons in Hc.
  cbn [ClientJobs.step]. rewrite Hq. cbn [handle_msg_from_ui]. unfold remove_file.
  cbn [remote_fs with_queue].
  destruct (fs_remove_file_clear _ _ _ Hc) as [He Hc'].
  destruct (fs_remove_file _ (remote_fs s)) as [r f'] eqn:Er. cbn [snd] in He, Hc'.
  pose proof (lookup_lt_Some _ _ _ Hf) as Hlt. unfold len in Hl.
  set (s1 := with_fs f' (with_queue [] s)). unfold handle_job_status.
  replace (remove_jobs s1 !! id) with (Some (mkRemove fl path sep false true t)) by by rewrite <- Hj.
  cbn [no_confirm rm_files rm_path rm_sep rm_is_remote ClientJobs.last_update_job_status]. cbv zeta.
  destruct (as_index (Z.of_nat n + 1)) as [E1 E2]; [lia..|]. rewrite E2, E1.
  replace (Z.of_nat n + 1) with (Z.of_nat (S n)) by lia. unfold len. rewrite Nat2Z.id.
  destruct (Nat.ltb_spec (S n) (length fl)) as [Hn|Hn].
  - rewrite (proj2 (Z.ltb_lt (Z.of_nat (S n)) (Z.of_nat (length fl)))) by lia.
    destruct (lookup_lt_is_Some_2 fl (S n) Hn) as [g Hg]. rewrite Hg.
    replace (as_i32 (Z.of_nat (S n))) with (Z.of_nat (S n)) by (symmetry; apply as_index; lia).
    assert (Hdel : forall s', remove_jobs s' = remove_jobs s1 \/ (exists t', remove_jobs s' = <[id := mkRemove fl path sep false true t']> (remove_jobs s1)) ->
      queue s' = [RemoveFile id (path +:+ sep +:+ name g) (Z.of_nat (S n)) false] -> deleting id fl path sep (S n) s').
    { intros s' Hr Hq'. split; [|by exists g]. destruct Hr as [->|[t' ->]]; [by exists t|].
      exists t'. by rewrite lookup_insert_eq. }
    destruct (1000 <=? _).
    + set (s2 := with_removes _ _). destruct (report_keeps id (Z.of_nat n) (err_of r) s2) as (K1 & K2 & K3).
      rewrite K3. split_and!; [done|done|]. apply Hdel; [right; eexists; by rewrite K1|by rewrite K2].
    + split_and!; [done|done|]. apply Hdel; by auto.
  - rewrite (proj2 (Z.ltb_ge (Z.of_nat (S n)) (Z.of_nat (length fl)))) by lia.
    set (s2 := with_removes _ _). destruct (report_keeps id (Z.of_nat n) (err_of r) s2) as (K1 & K2 & K3).
    rewrite K1, K2, K3. split_and!; [done..|]. cbn. by rewrite lookup_delete_eq.
Qed.

Lemma delete_run id fl path sep envs : forall n s,
  len fl < 2 ^ 31 -> (n + length envs)%nat = length fl -> envs <> [] ->
  deleting id fl path sep n s ->
  clear (remote_fs s) ((fun f => path +:+ sep +:+ name f) <$> drop n fl) ->
  let s' := run ((fun e => (e, FromQueue)) <$> envs) s in
  queue s' = [] /\ remove_jobs s' !! id = None
  /\ entries (remote_fs s') = removed ((fun f => path +:+ sep +:+ name f) <$> drop n fl) (entries (remote_fs s)).
Proof.
  induction envs as [|e envs IH]; intros n s Hl Hn Hne Hd Hc; [done|]. cbv zeta.
  destruct (delete_step e _ _ _ _ _ _ Hl Hd Hc) as (f & Hf & He & Hc' & Hnext). cbv zeta in *.
  unfold ClientJobs.run. cbn [fmap list_fmap fold_left]. cbn [fst snd].
  rewrite (drop_S _ _ _ Hf), fmap_cons. unfold removed. cbn [fold_left].
  cbn [length] in Hn. destruct envs as [|e2 envs].
  - destruct (Nat.ltb_spec (S n) (length fl)); [cbn in Hn; lia|]. destruct Hnext as [Hq Hr].
    rewrite drop_ge by lia. cbn. by split_and!.
  - destruct (Nat.ltb_spec (S n) (length fl)); [|cbn in Hn; lia].
    destruct (IH (S n) (step e FromQueue s)) as (H1 & H2 & H3); [done|cbn in *; lia|done..|].
    split_and!; [done..|]. etransitivity; [exact H3|]. by rewrite He.
Qed.

Lemma removed_lookup ps m q : removed ps m !! q = if decide (q ∈ key <$> ps) then None else m !! q.
Proof.
  unfold removed. revert m. induction ps as [|p ps IH]; intros m; [done|]. cbn [fold_left fmap list_fmap].
  rewrite IH, lookup_delete. destruct (decide (q ∈ key <$> ps)) as [Hi|Hi].
  { rewrite decide_True by (apply elem_of_cons; by right). done. }
  destruct (decide (key p = q)) as [<-|Hne]; [by rewrite decide_True by by left|].
  rewrite decide_False; [done|]. intros [?|?]%elem_of_cons; congruence.
Qed.

(** Where a listed file is. *)
Lemma listed_key f inc path rel i :
  well_named f -> key path <> [] -> has_nul path = false -> path <> "" -> Listed f inc (key path) rel i ->
  let p := path +:+ "/" +:+ foldl path_join "" rel in
  key p = key path ++ rel /\ p <> "" /\ has_nul p = false.
Proof.
  intros Hw Hk Hz Hne Hl. destruct (listed_plain _ _ _ _ _ Hw Hk Hl) as (Hs & _ & Hok & Hn). cbv zeta.
  change ("/" +:+ ?x) with (String SLASH x). split_and!.
  - rewrite key_app_slash, Hs by done. f_equal. clear Hl Hs Hn.
    induction rel as [|x rel IH]; [done|]. apply Forall_cons in Hok as [(H1 & H2 & _) Hok].
    cbn. rewrite (IH Hok). unfold seg_key. by destruct (String.eqb_spec x ""), (String.eqb_spec x ".").
  - by destruct path.
  - rewrite has_nul_app, Hz. by apply Hn.
Qed.

(** C28: Deleting a folder of one's own.  The user asks for the files of a folder, chooses
    not to be asked for each, and starts with the first: when the loop has worked off its
    channel -- one turn for each further file -- the deletion has ended, exactly the files
    that the folder showed are gone, hidden ones when they were asked for, and every other
    entry is as it was. *)
Theorem folder_is_emptied id path inc e1 e2 e3 envs f0 fl s :
  let f := remote_fs s in
  open_fs f -> well_named f -> has_nul path = false -> entries f !! key path = Some EDir ->
  queue s = [] -> get_recursive_files other_mtime f path inc = Some (Ok (f0 :: fl)) ->
  len (f0 :: fl) < 2 ^ 31 -> length envs = length fl ->
  let s' := run ([(e1, FromUi (RemoveDirAll id path false inc)); (e2, FromUi (SetNoConfirm id));
                  (e3, FromUi (RemoveFile id (path +:+ "/" +:+ name f0) 0 false))]
                 ++ ((fun e => (e, FromQueue)) <$> envs)) s in
  queue s' = [] /\ remove_jobs s' !! id = None
  /\ (forall rel i, Listed f inc (key path) rel i -> entries (remote_fs s') !! (key path ++ rel) = None)
  /\ (forall q, ~ (exists rel i, q = key path ++ rel /\ Listed f inc (key path) rel i) ->
        entries (remote_fs s') !! q = entries f !! q).
Proof.
  intros f Ho Hw Hz Hdir Hq Hg Hlen He s'.
  assert (Hk : key path <> []) by (intros E; destruct Hw as [Hw _]; congruence).
  assert (Hne : path <> "") by (intros ->; by apply Hk).
  pose proof Ho as [Hden Hlinks].
  assert (Hspec : forall x, x ∈ f0 :: fl <-> exists rel i, Listed f inc (key path) rel i
                    /\ x = listed_entry other_mtime f "" (key path) rel i).
  { destruct (listing_spec other_mtime f path inc) as (r & Hr & Hcase). rewrite Hg in Hr.
    injection Hr as <-. unfold entry_at in Hcase.
    rewrite (resolve_no_link _ (key path)) in Hcase by (intros [t Ht]; congruence).
    rewrite Hdir, Hden, decide_False in Hcase by set_solver. destruct Hcase as (files & [= <-] & Hin). exact Hin. }
  set (s2 := with_queue [RemoveFile id (path +:+ "/" +:+ name f0) 0 false]
    (with_removes (<[id := mkRemove (f0 :: fl) path "/" false true (now e1)]>
       (<[id := mkRemove (f0 :: fl) path "/" false false (now e1)]> (remove_jobs s)))
    (show (UiFolderFiles id (f0 :: fl) path true false) s))).
  assert (Es : s' = run ((fun e => (e, FromQueue)) <$> e3 :: envs) s2).
  { unfold s', ClientJobs.run. rewrite fold_left_app. rewrite fmap_cons. cbn [fold_left fst snd ClientJobs.step].
    f_equal. cbn [handle_msg_from_ui]. unfold remove_dir_all at 1. unfold f in Hg. rewrite Hg.
    unfold set_no_confirm. cbn [remove_jobs with_removes show]. rewrite lookup_insert_eq.
    unfold get_path_sep. cbn [andb rm_files rm_path rm_sep rm_is_remote no_confirm ClientJobs.last_update_job_status].
    cbn [queue s2 with_queue]. f_equal. unfold s2, with_removes, with_queue, show. cbn. by rewrite Hq. }
  set (pf := fun x : FileEntry => path +:+ "/" +:+ name x).
  destruct (delete_run id (f0 :: fl) path "/" (e3 :: envs) 0 s2) as (R1 & R2 & R3); [done|cbn; lia|done|..].
  { split; [exists (now e1); cbn; by rewrite lookup_insert_eq|by exists f0]. }
  { split; [exact Hden|]. rewrite drop_0, Forall_fmap, Forall_forall. intros x Hx.
    apply Hspec in Hx as (rel & i & Hl & ->). cbn [listed_entry name compose].
    destruct (listed_key f inc path rel i Hw Hk Hz Hne Hl) as (K1 & K2 & K3). split_and!; [|done..].
    cbn beta. rewrite K1. change (remote_fs s2) with f.
    assert (Hfile : exists i, entries f !! (key path ++ rel) = Some (EFile i)).
    { clear -Hl. induction Hl as [k n i Hs Hd E|k n rel i Hs Hd E Hl [i' IH]]; [by eauto|].
      exists i'. by rewrite <- app_assoc in IH. }
    destruct Hfile as [i' ->]. done. }
  rewrite <- Es in R1, R2, R3. rewrite drop_0 in R3. split_and!; [done..| |].
  - intros rel i Hl. rewrite R3, removed_lookup, decide_True; [done|].
    apply list_elem_of_fmap. exists (pf (listed_entry other_mtime f "" (key path) rel i)). split.
    + symmetry. by apply (listed_key f inc path rel i).
    + apply list_elem_of_fmap. eexists. split; [reflexivity|]. apply Hspec. eauto.
  - intros q Hq'. rewrite R3, removed_lookup, decide_False; [done|]. intros Hin. apply Hq'.
    apply list_elem_of_fmap in Hin as (p & -> & Hin). apply list_elem_of_fmap in Hin as (x & -> & Hx).
    apply Hspec in Hx as (rel & i & Hl & ->). exists rel, i. split; [|done].
    by apply (listed_key f inc path rel i).
Qed.
End Deletes.

(** ** Examples *)

Definition ex_env (t : Z) : Env := mkEnv t 1004002 false false.

(** A folder with two files and a hidden one. *)
Definition ex_folder : Fs :=
  mkFs (<[["/"; "d"; ".h"] := EFile 2]> (<[["/"; "d"; "s"; "b"] := EFile 1]> (<[["/"; "d"; "s"] := EDir]>
         (<[["/"; "d"; "a"] := EFile 0]> (<[["/"; "d"] := EDir]> (<[["/"] := EDir]> ∅))))))
    (<[0%nat := mkInode [] 1]> (<[1%nat := mkInode [x61] 2]> (<[2%nat := mkInode [] 3]> ∅))) 3 ∅ 9.

Abbreviation ex_run := (@run toy_zstd demo_json (fun _ => None) (fun _ => 9%nat) no_mtime).
Definition ex_listed : list FileEntry :=
  match get_recursive_files no_mtime ex_folder "/d" false with Some (Ok l) => l | _ => [] end.
Definition ex_first : FileEntry := default (file_entry "" 0 0) (head ex_listed).

Lemma ex_open : open_fs ex_folder.
Proof.
  split; [done|]. intros q t. unfold ex_folder. cbn. rewrite !lookup_insert. by repeat case_decide.
Qed.

Lemma ex_named : well_named ex_folder.
Proof.
  split; [by vm_compute|]. intros q n [e He]. unfold ex_folder in He. cbn [entries] in He.
  repeat (apply lookup_insert_Some in He as [[Hk _]|[_ He]];
    [|]; [apply (f_equal last) in Hk as Hl; rewrite last_snoc in Hl; cbn in Hl; injection Hl as <-;
          first [right; split_and!; done
                |left; destruct q as [|x [|y q]]; [done|cbn in Hk; simplify_eq..]]|]).
  by rewrite lookup_empty in He.
Qed.

Lemma folder_is_emptied_witness :
  let s' := ex_run ([(ex_env 1, FromUi (RemoveDirAll 7 "/d" false false)); (ex_env 2, FromUi (SetNoConfirm 7));
                     (ex_env 3, FromUi (RemoveFile 7 ("/d" +:+ "/" +:+ name ex_first) 0 false))]
                    ++ ((fun e => (e, FromQueue)) <$> [ex_env 4])) (fresh ex_folder 0) in
  length ex_listed = 2%nat /\ queue s' = [] /\ remove_jobs s' !! 7 = None
  /\ (forall rel i, Listed ex_folder false ["/"; "d"] rel i -> entries (remote_fs s') !! (["/"; "d"] ++ rel) = None)
  /\ (forall q, ~ (exists rel i, q = ["/"; "d"] ++ rel /\ Listed ex_folder false ["/"; "d"] rel i) ->
        entries (remote_fs s') !! q = entries ex_folder !! q).
Proof.
  intros s'. split; [vm_compute; reflexivity|].
  apply (@folder_is_emptied toy_zstd demo_json (fun _ => None) (fun _ => 9%nat) no_mtime 7 "/d" false
           (ex_env 1) (ex_env 2) (ex_env 3) [ex_env 4] ex_first (tail ex_listed) (fresh ex_folder 0)).
  - exact ex_open.
  - exact ex_named.
  - reflexivity.
  - vm_compute. reflexivity.
  - reflexivity.
  - vm_compute. reflexivity.
  - vm_compute. reflexivity.
  - vm_compute. reflexivity.
Defined.

(** ** Findings *)

(** The peer's list of files replaces that of a deletion on the own side: the next file
    that the controlling side removes is one that the peer names, here outside of the
    folder that the user is deleting. *)
Example peer_names_what_is_deleted :
  let s := ex_run [(ex_env 1, FromUi (RemoveDirAll 7 "/d" false false)); (ex_env 2, FromUi (SetNoConfirm 7));
                   (ex_env 3, FromPeer (RDir 7 "" [file_entry "a" 0 0; file_entry "../s/x" 0 0]));
                   (ex_env 4, FromPeer (RDone 7 0))] (fresh ex_folder 0) in
  queue s = [RemoveFile 7 "/d/../s/x" 1 false].
Proof. vm_compute. reflexivity. Qed.

(** A removal that fails -- the file has gone meanwhile -- within a second of the last
    notice is not shown. *)
Example failed_removal_is_not_shown :
  let s1 := ex_run [(ex_env 1, FromUi (RemoveDirAll 7 "/d" false false)); (ex_env 2, FromUi (SetNoConfirm 7))]
              (fresh ex_folder 0) in
  let s2 := with_fs (set_entries (base.delete ["/"; "d"; "a"]) (remote_fs s1)) s1 in
  let x := (ex_env 3, FromUi (RemoveFile 7 "/d/a" 0 false)) in
  (fs_remove_file "/d/a" (remote_fs s2)).1 = Err "No such file or directory"
  /\ existsb (fun u => match u with UiError _ _ _ => true | _ => false end) (ui (ex_run [x] s2)) = false.
Proof. vm_compute. split; reflexivity. Qed.
