(* ===== verification/Upload.v ===== *)
(** * A folder that is uploaded, from end to end

    The controlling side sends the files of a job ([ClientJobs]); the connection of the
    controlled side passes what it gets on to the connection manager ([requests_of]), which
    receives the files ([CmFiles]) and whose answers go back ([answer_of]).  Messages keep
    their order in both directions; when each is delivered, and when the timer of the sender
    fires, is arbitrary. *)

From S2P Require Import Prelude OsFs PathFacts Compress FileTransfer TransferSafety TransferContent FsDirs CmFiles FolderArrives SendTurns Messages ClientJobs.

(** ** What the connection passes on *)

(** The branches [FileAction] and [FileResponse] of [Connection::on_message] in a session of
    files, as far as the connection manager works on them; [od] tells whether the version of
    the peer knows overwrite detection.  The connection sends files itself, and reads the
    list of a folder to be removed. *)
Definition requests_of (od : bool) (conn_id : Z) (m : ToPeer) : list FsRequest :=
  match m with
  | Transfer (MsgReceive id path n files total) =>
      [NewWrite path id n (map (fun f => (name f, modified_time f)) files) od total conn_id]
  | Transfer (MsgBlock b) => [WriteBlock (blk_id b) (blk_file_num b) (blk_data b) (blk_compressed b)]
  | Transfer (MsgDone id n) => [WriteDone id n]
  | Transfer (MsgDigest d) =>
      [CheckDigest (dg_id d) (dg_file_num d) (dg_file_size d) (dg_last_modified d) true (dg_is_resume d)]
  | Transfer (MsgError id err n) => [WriteError id n err]
  | Transfer (MsgSendConfirm r) => [CmFiles.SendConfirm (Some r)]
  | Transfer (MsgDir _ _ _) | Transfer (MsgSend _ _ _ _ _) => []
  | Asked a =>
      match a with
      | Messages.ReadDir path h => [CmFiles.ReadDir path h]
      | Messages.ReadEmptyDirs path h => [CmFiles.ReadEmptyDirs path h]
      | Messages.RemoveDir id path r => [CmFiles.RemoveDir path id r]
      | Messages.RemoveFile id path n => [CmFiles.RemoveFile path id n]
      | Create id path => [CmFiles.CreateDir path id]
      | Cancel id => [CancelWrite id; CancelRead id]
      | Messages.SendConfirm id n skip offset =>
          [CmFiles.SendConfirm (Some (mkConfirm id n (Some (if skip then Skip true else OffsetBlk offset))))]
      | Messages.Rename id path new_name => [CmFiles.Rename id path new_name]
      | Messages.Receive id path files n total => [NewWrite path id n files od total conn_id]
      | Messages.AllFiles _ _ _ | FaSend _ _ _ _ _ => []
      end
  end.

(** The answers that are messages for the peer as they are ([Data::RawMessage]). *)
Definition answer_of (d : CmData) : option Response :=
  match d with
  | RawMessage (MsgError id err n) => Some (RError id err n)
  | RawMessage (MsgDone id n) => Some (RDone id n)
  | RawMessage (MsgSendConfirm r) => Some (RConfirm r)
  | RawMessage (MsgBlock b) => Some (RBlock b)
  | RawMessage (MsgDir id path es) => Some (RDir id path es)
  | RawMessage (MsgDigest d) => Some (RDigest d false)
  | RawDigest d is_upload => Some (RDigest d is_upload)
  | RawDir fd => Some (RDir 0 (dir_path fd) (dir_entries fd))
  | RawEmptyDirs path _ => Some (REmptyDirs path)
  | _ => None
  end.

(** ** The two sides *)

(** How many messages of the client were delivered, and how many answers it has taken. *)
Record System : Type := mkSystem { client : Remote; server : Cm; delivered : nat; taken : nat }.

Inductive Move : Type :=
| Tick (now : Z)
| Deliver
| Answer (now : Z).

Section Upload.
Context `{Zstd}.
Context (digest_to_json : FileDigest -> list byte)
        (digest_from_json : list byte -> option FileDigest).
Context (short : Z -> nat).
Variable other_mtime : Fs -> list string -> Z.
Variable home : string.
Variable max_files : option Z.
Variable version : Z.                       (* of the server *)
Variable windows : bool.
Variable od : bool.
Variable conn_id : Z.

Definition env (t : Z) : ClientJobs.Env := ClientJobs.mkEnv t version windows false.

Definition client_step (x : Step) (t : Z) : Remote -> Remote :=
  ClientJobs.step digest_to_json digest_from_json short other_mtime (env t) x.

Definition serve (s : Cm) (m : ToPeer) : Cm :=
  fold_left (fun s r => handle_fs digest_to_json digest_from_json other_mtime home max_files r s)
    (requests_of od conn_id m) s.

Definition move (x : Move) (s : System) : System :=
  match x with
  | Tick t => mkSystem (client_step Timer t (client s)) (server s) (delivered s) (taken s)
  | Deliver =>
      match sent_out (client s) !! delivered s with
      | Some m => mkSystem (client s) (serve (server s) m) (S (delivered s)) (taken s)
      | None => s
      end
  | Answer t =>
      match omap answer_of (out (server s)) !! taken s with
      | Some r => mkSystem (client_step (FromPeer r) t (client s)) (server s) (delivered s) (S (taken s))
      | None => s
      end
  end.

Definition moves (xs : list Move) (s : System) : System := fold_left (fun s x => move x s) xs s.

(** What is on the way, and the server when all of it has arrived. *)
Definition on_way (s : System) : list ToPeer := drop (delivered s) (sent_out (client s)).
Definition drained (s : System) : Cm := fold_left serve (on_way s) (server s).
Definition answers (c : Cm) : list Response := omap answer_of (out c).
Definition pending (s : System) : list Response := drop (taken s) (answers (drained s)).

(** ** Order of the messages *)

Lemma out_grows r c :
  out c `prefix_of` out (handle_fs digest_to_json digest_from_json other_mtime home max_files r c).
Proof.
  destruct r; cbn [handle_fs]; unfold cm_remove_dir, cm_remove_file, cm_create_dir, cm_rename_file, cm_read_dir,
    cm_read_empty_dirs, CmFiles.read_all_files, start_read_job, new_write_job, cancel_write, write_done, write_error, write_block,
    check_digest, CmFiles.send_confirm, cancel_read, send_confirm_for_read, handle_result;
    repeat case_match; cbn; try done; by apply prefix_app_r.
Qed.

Lemma serve_grows c m : out c `prefix_of` out (serve c m).
Proof.
  unfold serve. generalize (requests_of od conn_id m) as l. intros l. revert c.
  induction l as [|r l IH]; intros c; [done|]. cbn. etrans; [apply out_grows|apply IH].
Qed.

Lemma all_served_grow ms c : answers c `prefix_of` answers (fold_left serve ms c).
Proof.
  assert (Hp : out c `prefix_of` out (fold_left serve ms c)).
  { revert c. induction ms as [|m ms IH]; intros c; [done|]. cbn. etrans; [apply serve_grows|apply IH]. }
  destruct Hp as [o E]. exists (omap answer_of o). unfold answers. by rewrite E, omap_app.
Qed.

(** Delivering moves a message from the way to the server. *)
Lemma deliver_drained s :
  drained (move Deliver s) = drained s /\ client (move Deliver s) = client s /\ taken (move Deliver s) = taken s.
Proof.
  cbn [move]. destruct (sent_out (client s) !! delivered s) as [m|] eqn:E; [|done].
  split_and!; [|done|done]. unfold drained, on_way. cbn. by rewrite (drop_S _ _ _ E).
Qed.

Lemma deliver_way s m l : on_way s = m :: l -> on_way (move Deliver s) = l /\ server (move Deliver s) = serve (server s) m.
Proof.
  unfold on_way. intros E. assert (Hm : sent_out (client s) !! delivered s = Some m).
  { rewrite <- (Nat.add_0_r (delivered s)), <- lookup_drop, E. done. }
  cbn [move]. rewrite Hm. cbn. split; [|done]. rewrite (drop_S _ _ _ Hm) in E. congruence.
Qed.

Lemma deliver_none s : on_way s = [] -> move Deliver s = s.
Proof.
  unfold on_way. intros E. cbn [move]. rewrite lookup_ge_None_2; [done|].
  apply (f_equal length) in E. rewrite length_drop in E. cbn in E. lia.
Qed.

Lemma deliver_all n s :
  (length (on_way s) <= n)%nat ->
  let s' := moves (replicate n Deliver) s in
  client s' = client s /\ taken s' = taken s /\ on_way s' = [] /\ drained s' = drained s.
Proof.
  revert s. induction n as [|n IH]; intros s Hn; cbn [replicate moves fold_left].
  - split_and!; [done..| |done]. destruct (on_way s); [done|cbn in Hn; lia].
  - destruct (deliver_drained s) as (E1 & E2 & E3).
    destruct (IH (move Deliver s)) as (F1 & F2 & F3 & F4).
    { destruct (on_way s) as [|m l] eqn:E; [rewrite deliver_none, E by done; cbn; lia|].
      destruct (deliver_way s m l E) as [-> _]. cbn in Hn. lia. }
    unfold moves in *. split_and!; [congruence..|done|congruence].
Qed.

(** ** What one turn of the client does *)

(** Nothing was asked or reported yet but the progress. *)
Definition quiet (us : list Ui) : Prop :=
  Forall (fun u => match u with UiError _ _ _ | UiDone _ _ | UiOverride _ _ _ _ _ | UiClosed _ => False | _ => True end) us.

(** The client has sent [ms], its jobs that read are [jobs]. *)
Record after_turn (ms : list FileTransfer.Message) (jobs : list TransferJob) (c c' : Remote) : Prop := {
  at_reads : read_jobs c' = jobs;
  at_writes : write_jobs c' = write_jobs c;
  at_removes : remove_jobs c' = remove_jobs c;
  at_fs : remote_fs c' = remote_fs c;
  at_sent : sent_out c' = sent_out c ++ (Transfer <$> ms);
  at_ui : exists us, ui c' = ui c ++ us /\ quiet us }.

Lemma status_turn t c : after_turn [] (read_jobs c) c (update_jobs_status (env t) c).
Proof.
  assert (Hone : forall el c0 c1 j, after_turn [] (read_jobs c) c0 c1 -> after_turn [] (read_jobs c) c0 (update_job_status el c1 j)).
  { intros el c0 c1 j A. unfold update_job_status. destruct (el <=? 0); [exact A|].
    destruct A as [A1 A2 A3 A4 A5 (us & A6 & A7)], (last_update_jobs_status c1). split; try done.
    cbn. rewrite A6, <- app_assoc. eexists. split; [done|]. apply Forall_app. split; [done|]. by repeat constructor. }
  assert (Hall : forall el l c0 c1, after_turn [] (read_jobs c) c0 c1 ->
    after_turn [] (read_jobs c) c0 (fold_left (update_job_status el) l c1)).
  { intros el l. induction l as [|j l IH]; intros c0 c1 A; [done|]. by apply IH, Hone. }
  assert (Hrefl : after_turn [] (read_jobs c) c c).
  { split; try done; [by rewrite app_nil_r|]. exists []. rewrite app_nil_r. by split; [|constructor]. }
  unfold update_jobs_status. destruct (1000 <=? _); [|done].
  match goal with |- after_turn _ _ _ (with_status _ ?x) => assert (A : after_turn [] (read_jobs c) c x) by by apply Hall, Hall end.
  by destruct A.
Qed.

Lemma tick_turn t c j ms jobs log :
  read_jobs c = [j] ->
  handle_read_jobs short [j] (here (remote_fs c) []) = (Ok log, (jobs, here (remote_fs c) ms)) ->
  after_turn ms jobs c (client_step Timer t c).
Proof.
  intros Hj Hr. unfold client_step. cbn [ClientJobs.step]. unfold on_timer. rewrite Hj. cbn [ClientJobs.broken env].
  unfold here in Hr. rewrite Hr. cbn [snd net FileTransfer.sent fs].
  set (c1 := send_msgs _ _). destruct (status_turn t c1) as [A1 A2 A3 A4 A5 (us & A6 & A7)].
  split; [by rewrite A1|by rewrite A2|by rewrite A3|by rewrite A4| |exists us; by rewrite A6].
  rewrite A5, app_nil_r. done.
Qed.

(** What a turn sends comes last on the way. *)
Lemma turn_way t s c' ms jobs :
  client_step Timer t (client s) = c' -> after_turn ms jobs (client s) c' ->
  (delivered s <= length (sent_out (client s)))%nat ->
  on_way (move (Tick t) s) = on_way s ++ (Transfer <$> ms)
  /\ drained (move (Tick t) s) = fold_left serve (Transfer <$> ms) (drained s)
  /\ (delivered s <= length (sent_out c'))%nat.
Proof.
  intros E A Hd. assert (Hw : on_way (move (Tick t) s) = on_way s ++ (Transfer <$> ms)).
  { unfold on_way. cbn [move client delivered]. rewrite E, (at_sent _ _ _ _ A). by apply drop_app_le. }
  split; [done|]. split.
  - unfold drained. rewrite Hw. by rewrite fold_left_app.
  - rewrite (at_sent _ _ _ _ A), length_app. lia.
Qed.

(** ** What the server makes of the messages of the job *)

Context `{!ZstdLaws, !ZstdTotal}.
Variables src dst : string.
Variable list_ : list FileEntry.            (* the files of the job, as the client lists them *)
Variable cs : list (list byte).             (* their contents *)
Variable id_ : Z.
Variable f : Fs.                            (* the file system of the client *)

(** The entry as the connection manager makes it of the list. *)
Definition at_server (x : FileEntry) : FileEntry := mkFileEntry Dir (name x) false 0 (modified_time x).
Definition files_ : list FileEntry := at_server <$> list_.

Variable hidden : bool.
Hypothesis Hwell : well_named f.
Hypothesis Hfolder : entry_at f (key src) = Some EDir.
Hypothesis Hlisted : get_recursive_files other_mtime f src hidden = Some (Ok list_).
Hypothesis Hlen : len list_ < 2 ^ 31.
Hypothesis Hdst : key dst <> [].
Hypothesis Hapart : apart dst files_.

Lemma plain_names : Forall (fun x => exists segs, plain_path (name x) segs) files_.
Proof. apply Forall_fmap. by apply (listed_names other_mtime f src hidden). Qed.

Lemma Hproper : Forall (proper dst) files_.
Proof. eapply Forall_impl; [apply plain_names|]. intros x [segs Hx]. by apply (plain_proper dst x segs). Qed.

Abbreviation rdy := (ready dst files_ cs id_).
Abbreviation hld := (holds dst files_ cs id_).

Lemma Hlen' : len files_ < 2 ^ 31.
Proof. unfold files_, len. by rewrite length_fmap. Qed.

Lemma files_lookup k x : list_ !! k = Some x -> files_ !! k = Some (at_server x).
Proof. intros Hx. unfold files_. by rewrite list_lookup_fmap, Hx. Qed.

Lemma find_one j : id j = id_ -> find_job id_ [j] = Some j.
Proof. intros E. unfold find_job. cbn. by rewrite E, Z.eqb_refl. Qed.

Lemma put_one j j' : id j = id_ -> put_back id_ j' [j] = [j'].
Proof. intros E. cbn. by rewrite E, Z.eqb_refl. Qed.

Lemma remove_one j : id j = id_ -> FileTransfer.remove_job id_ [j] = (Some j, []).
Proof. intros E. cbn. by rewrite E, Z.eqb_refl. Qed.

(** The job as it is announced. *)
Lemma serve_receive c n total :
  CmFiles.write_jobs c = [] -> settled dst files_ cs 0 (cm_fs c) ->
  n = 0 ->
  let c' := serve c (Transfer (new_receive id_ dst n list_ total)) in
  (exists w, CmFiles.write_jobs c' = [w] /\ rdy 0 w (cm_fs c')) /\ out c' = out c.
Proof.
  intros Hw Hs -> c'. unfold c', serve, new_receive. cbn [requests_of fold_left handle_fs]. unfold new_write_job.
  rewrite map_map. fold at_server. change (map _ list_) with files_.
  assert (Hn : validate_all_no_symlink (cm_fs c) dst files_ = Ok tt).
  { apply proper_no_links; [apply Hproper|apply Hs]. }
  unfold set_files. rewrite (plain_names_accepted _ plain_names). cbn [data_source new_write]. rewrite Hn. cbn.
  rewrite Hw. split; [|done]. eexists. split; [done|]. split; [by split|]. by split_and!.
Qed.

(** The digest of the next file finds nothing there. *)
Lemma serve_digest c w k x modified size resume :
  CmFiles.write_jobs c = [w] -> rdy k w (cm_fs c) -> list_ !! k = Some x ->
  let c' := serve c (Transfer (MsgDigest (mkDigest id_ (Z.of_nat k) modified size false 0 resume))) in
  (exists w', CmFiles.write_jobs c' = [w'] /\ rdy k w' (cm_fs c'))
  /\ answers c' = answers c ++ [RConfirm (mkConfirm id_ (Z.of_nat k) (Some (OffsetBlk 0)))].
Proof.
  intros Hw Hr Hx c'. pose proof (ready_receiving _ _ _ _ _ _ _ Hr) as [Hty Hd Hf Hid].
  pose proof (files_lookup k x Hx) as Hx'.
  unfold c', serve. cbn [requests_of fold_left handle_fs]. cbn [dg_id dg_file_num dg_file_size dg_last_modified dg_is_resume].
  unfold check_digest. rewrite Hw, find_one by done.
  assert (Hspace : open_fs (cm_fs c) /\ space dst (cm_fs c) (at_server x)).
  { destruct k as [|k].
    - destruct Hr as (_ & _ & _ & Hs). split; [apply Hs|]. by eapply se_later.
    - destruct Hr as (? & _ & _ & ? & ? & _ & _ & _ & _ & Ho & _ & Hl & _). split; [done|]. eapply Hl; [done|lia]. }
  destruct Hspace as [Ho [Hs _]].
  rewrite (entry_of_spec w k (at_server x)) by (rewrite Hf; first [done|apply Hlen']). rewrite Hd.
  assert (is_write_need_confirmation digest_from_json (cm_fs c) resume (join dst (name (at_server x)))
            (mkDigest id_ (Z.of_nat k) modified size false 0 false) = Ok NoSuchFile) as ->.
  { unfold is_write_need_confirmation, path_exists. rewrite !open_entry_at by done.
    change (join dst (name (at_server x))) with (place dst (at_server x)).
    change (key (place dst (at_server x))) with (target dst (at_server x)).
    change (key (digest_path (place dst (at_server x)))) with (dg dst (at_server x)).
    rewrite (Hs (target dst (at_server x))), (Hs (dg dst (at_server x))); [|right; right; by left|by left].
    cbn [andb]. by rewrite andb_false_r. }
  unfold send_raw, tell, CmFiles.with_writes, answers. cbn [CmFiles.write_jobs cm_fs out].
  rewrite put_one by done. rewrite omap_app. split; [|done].
  eexists. split; [done|]. by apply ready_digest.
Qed.

(** A block is appended. *)
Lemma serve_block c w k b c0 x :
  CmFiles.write_jobs c = [w] -> list_ !! k = Some x -> blk_id b = id_ -> blk_file_num b = Z.of_nat k ->
  (c0 = [] /\ rdy k w (cm_fs c)) \/ hld k c0 w (cm_fs c) ->
  let c' := serve c (Transfer (MsgBlock b)) in
  (exists w', CmFiles.write_jobs c' = [w'] /\ hld k (c0 ++ decoded b) w' (cm_fs c')) /\ out c' = out c.
Proof.
  intros Hw Hx Hbi Hbn Hr c'. pose proof (files_lookup k x Hx) as Hx'.
  assert (Hid : id w = id_).
  { destruct Hr as [[_ Hr]|[Hr _]]; [apply (ready_receiving _ _ _ _ _ _ _ Hr)|apply Hr]. }
  assert (Hb : exists j' e', write digest_to_json b (w, FileTransfer.mkEnv (cm_fs c) (mkNet [] false)) = (Ok tt, (j', e'))
    /\ hld k (c0 ++ decoded b) j' (fs e')).
  { destruct Hr as [[-> Hr]|Hr].
    - by apply (first_block digest_to_json dst files_ cs id_ Hlen' Hproper Hapart k w _ (at_server x)).
    - by apply (next_block digest_to_json dst files_ cs id_ Hlen' Hapart). }
  destruct Hb as (j' & e' & E & Hh).
  unfold c', serve. cbn [requests_of fold_left handle_fs]. unfold CmFiles.write_block.
  rewrite Hbi, Hw, find_one by done. unfold run_job. destruct b as [bi bn bd bc].
  cbn [blk_id blk_file_num blk_data blk_compressed] in *. subst bi. rewrite E. cbn.
  rewrite Hid, Z.eqb_refl. split; [|done]. by eexists.
Qed.

(** The end of the job brings the last file into place. *)
Lemma serve_done c w k :
  CmFiles.write_jobs c = [w] -> rdy k w (cm_fs c) ->
  let c' := serve c (Transfer (MsgDone id_ (Z.of_nat k))) in
  CmFiles.write_jobs c' = [] /\ settled dst files_ cs k (cm_fs c')
  /\ answers c' = answers c ++ [RDone id_ (Z.of_nat k)].
Proof.
  intros Hw Hr c'. pose proof (ready_receiving _ _ _ _ _ _ _ Hr) as [_ _ _ Hid].
  unfold c', serve. cbn [requests_of fold_left handle_fs]. unfold write_done. rewrite Hw, remove_one by done.
  cbn. split; [done|]. split; [by apply (ready_settles dst files_ cs id_ Hlen' Hproper Hapart)|].
  unfold answers. cbn. by rewrite omap_app.
Qed.

(** ** The states of an upload *)

(** Every file of the list can be read, and holds [c]. *)
Hypothesis Hsource : Forall2 (source_ok f src) list_ cs.

(** What is left to do from file [k] on: three turns and one for each byte, at most. *)
Definition work (k : nat) : nat := sum_list ((fun c => length c + 3)%nat <$> drop k cs).

Record steady (s : System) (jobs : list TransferJob) : Prop := {
  sy_reads : read_jobs (client s) = jobs;
  sy_writes : ClientJobs.write_jobs (client s) = [];
  sy_removes : remove_jobs (client s) !! id_ = None;
  sy_fs : remote_fs (client s) = f;
  sy_delivered : (delivered s <= length (sent_out (client s)))%nat;
  sy_taken : (taken s <= length (answers (server s)))%nat }.

(** The jobs of the server, once everything on the way is there. *)
Definition receives (s : System) (P : TransferJob -> Fs -> Prop) : Prop :=
  exists w, CmFiles.write_jobs (drained s) = [w] /\ P w (cm_fs (drained s)).

Definition n_files : Z := Z.of_nat (length list_).

Inductive state (s : System) : nat -> Prop :=
| in_start k j :
    steady s [j] -> quiet (ui (client s)) -> pending s = [] -> (k <= length list_)%nat ->
    starting src list_ id_ k j -> receives s (rdy k) -> state s (work k + 2)
| in_wait k i j x c nd :
    steady s [j] -> quiet (ui (client s)) ->
    pending s = [RConfirm (mkConfirm id_ (Z.of_nat k) (Some (OffsetBlk 0)))] ->
    list_ !! k = Some x -> cs !! k = Some c -> inodes f !! i = Some nd -> content nd = c ->
    waiting src list_ id_ k i j -> receives s (rdy k) -> state s (work k + 1)
| in_send k i p j x c nd :
    steady s [j] -> quiet (ui (client s)) -> pending s = [] ->
    list_ !! k = Some x -> cs !! k = Some c -> inodes f !! i = Some nd -> content nd = c ->
    (p <= length c)%nat -> sending src list_ id_ k i (Z.of_nat p) j ->
    (p = 0%nat /\ receives s (rdy k)) \/ receives s (hld k (take p c)) ->
    state s (work (S k) + 3 + (length c - p))
| in_last :
    steady s [] -> quiet (ui (client s)) -> pending s = [RDone id_ n_files] ->
    CmFiles.write_jobs (drained s) = [] -> settled dst files_ cs (length list_) (cm_fs (drained s)) ->
    on_way s = [] \/ (exists ms m, on_way s = ms ++ [m] /\ (length (answers (fold_left serve ms (server s))) <= taken s)%nat) ->
    state s 1
| in_finished us :
    steady s [] -> pending s = [] -> on_way s = [] -> settled dst files_ cs (length list_) (cm_fs (server s)) ->
    quiet us -> ui (client s) = us ++ [UiDone id_ n_files] -> state s 0.

Lemma work_cons k c : cs !! k = Some c -> work k = (length c + 3 + work (S k))%nat.
Proof. intros Hc. unfold work. rewrite (drop_S _ _ _ Hc). done. Qed.

Lemma source_at k x : list_ !! k = Some x ->
  exists c i nd, cs !! k = Some c /\ entry_at f (key (join src (name x))) = Some (EFile i)
    /\ inodes f !! i = Some nd /\ content nd = c.
Proof.
  intros Hx. destruct (Forall2_lookup_l _ _ _ _ _ Hsource Hx) as (c & Hc & i & nd & E1 & E2 & E3). eauto 7.
Qed.

(** *** A message arrives *)

Lemma deliver_state s n : state s n -> state (move Deliver s) n.
Proof.
  destruct (deliver_drained s) as (E1 & E2 & E3).
  assert (Hst : forall l, steady s l -> steady (move Deliver s) l).
  { intros l [A1 A2 A3 A4 A5 A6]. split; rewrite ?E2, ?E3; try done; cbn [move];
      destruct (sent_out (client s) !! delivered s) as [m|] eqn:E; try done; [by apply lookup_lt_Some in E|].
    cbn [server]. pose proof (prefix_length _ _ (all_served_grow [m] (server s))) as Hle. cbn in Hle. lia. }
  assert (Hp : pending (move Deliver s) = pending s) by (unfold pending; by rewrite E1, E3).
  assert (Hr : forall P, receives s P -> receives (move Deliver s) P) by (intros P; unfold receives; by rewrite E1).
  intros Hs. destruct Hs as [k j S Q P K J R|k i j x c nd S Q P X C I N J R|k i p j x c nd S Q P X C I N L J R
    |S Q P W F O|us S P O F Q U].
  - eapply in_start; rewrite ?E2, ?Hp; eauto.
  - eapply in_wait; rewrite ?E2, ?Hp; eauto.
  - eapply in_send; rewrite ?E2, ?Hp; eauto. destruct R as [[-> R]|R]; eauto.
  - apply in_last; rewrite ?E1, ?E2, ?Hp; eauto. destruct O as [O|(ms & m & O & La)].
    { left. by rewrite deliver_none. }
    destruct ms as [|m0 ms].
    + left. by destruct (deliver_way s m [] O).
    + right. destruct (deliver_way s m0 (ms ++ [m]) O) as [W1 W2]. exists ms, m. by rewrite W1, W2, E3.
  - rewrite deliver_none by done. by eapply in_finished.
Qed.

(** *** The client takes an answer *)

(** What there is to take is what is pending first. *)
Lemma answer_pending s r : answers (server s) !! taken s = Some r -> exists l, pending s = r :: l.
Proof.
  intros E. unfold pending, drained. destruct (all_served_grow (on_way s) (server s)) as [o ->].
  rewrite (drop_S _ r (taken s)); [by eexists|]. by apply lookup_app_l_Some.
Qed.

Lemma answer_other t s r :
  answers (server s) !! taken s = Some r ->
  move (Answer t) s = mkSystem (client_step (FromPeer r) t (client s)) (server s) (delivered s) (S (taken s)).
Proof. intros E. cbn [move]. fold (answers (server s)). by rewrite E. Qed.

Lemma answer_none t s : answers (server s) !! taken s = None -> move (Answer t) s = s.
Proof. intros E. cbn [move]. fold (answers (server s)). by rewrite E. Qed.

(** The confirmation starts the file. *)
Lemma confirm_step t s k i j x c nd :
  steady s [j] -> quiet (ui (client s)) -> list_ !! k = Some x -> cs !! k = Some c ->
  inodes f !! i = Some nd -> content nd = c -> waiting src list_ id_ k i j -> receives s (rdy k) ->
  answers (server s) !! taken s = Some (RConfirm (mkConfirm id_ (Z.of_nat k) (Some (OffsetBlk 0)))) ->
  pending s = [RConfirm (mkConfirm id_ (Z.of_nat k) (Some (OffsetBlk 0)))] ->
  state (move (Answer t) s) (work k).
Proof.
  intros [A1 A2 A3 A4 A5 A6] Q X C I N J R E P. rewrite (answer_other t s _ E).
  assert (Hid : id j = id_) by apply J.
  destruct (confirmed_sends _ _ _ _ _ _ (FileTransfer.mkEnv f (mkNet [] false)) J) as (j' & Ec & Hj').
  assert (Hid' : id j' = id_) by apply Hj'.
  set (c' := client_step _ t (client s)).
  assert (Hc : c' = ClientJobs.with_reads [j'] (ClientJobs.with_fs f (client s))).
  { unfold c', client_step. cbn [ClientJobs.step handle_file_response]. unfold on_confirm. cbn [cf_id].
    rewrite A1, find_one by done. unfold confirm_read, on_job, run_job. rewrite A4, Ec. cbn -[put_back].
    by rewrite A1, Hid', put_one. }
  rewrite Hc. rewrite (work_cons k c C). replace (length c + 3 + work (S k))%nat with (work (S k) + 3 + (length c - 0))%nat by lia.
  pose proof (lookup_lt_Some _ _ _ E) as Hlt.
  eapply in_send with (k := k) (p := 0%nat) (j := j'); try done; [|cbn; lia|].
  - unfold pending in *. unfold drained, on_way in *. cbn [client server delivered taken ClientJobs.with_reads ClientJobs.with_fs sent_out].
    rewrite <- (Nat.add_1_r (taken s)), <- drop_drop. by rewrite P.
  - by left.
Qed.

(** The end of the job is shown. *)
Lemma done_step t s :
  steady s [] -> quiet (ui (client s)) -> settled dst files_ cs (length list_) (cm_fs (drained s)) -> on_way s = [] ->
  answers (server s) !! taken s = Some (RDone id_ n_files) -> pending s = [RDone id_ n_files] ->
  state (move (Answer t) s) 0.
Proof.
  intros [A1 A2 A3 A4 A5 A6] Q F O E P. rewrite (answer_other t s _ E).
  set (c' := client_step _ t (client s)).
  assert (Hc : c' = show (UiDone id_ n_files) (client s)).
  { unfold c', client_step. cbn [ClientJobs.step handle_file_response]. unfold on_done. rewrite A2. cbn.
    unfold handle_job_status. rewrite A3. done. }
  pose proof (lookup_lt_Some _ _ _ E) as Hlt. rewrite Hc. apply in_finished with (us := ui (client s)); try done.
  - unfold pending in *. unfold drained, on_way in *. cbn [client server delivered taken show sent_out].
    rewrite <- (Nat.add_1_r (taken s)), <- drop_drop. by rewrite P.
  - unfold drained in F. by rewrite O in F.
Qed.

Lemma answer_taken t s n r :
  state s n -> answers (server s) !! taken s = Some r -> exists m, state (move (Answer t) s) m /\ (m < n)%nat.
Proof.
  intros Hs E. destruct (answer_pending s r E) as [l Hl].
  destruct Hs as [k j S Q P K J R|k i j x c nd S Q P X C I N J R|k i p j x c nd S Q P X C I N L J R
    |S Q P W F O|us S P O F Q U]; try congruence; rewrite P in Hl; injection Hl as <- <-.
  - exists (work k). split; [by eapply confirm_step|lia].
  - exists 0%nat. split; [|lia]. apply done_step; try done. destruct O as [O|(ms & m & O & La)]; [done|].
    exfalso. apply lookup_lt_Some in E. pose proof (prefix_length _ _ (all_served_grow ms (server s))). lia.
Qed.

Lemma answer_state t s n : state s n -> exists m, state (move (Answer t) s) m /\ (m <= n)%nat.
Proof.
  intros Hs. destruct (answers (server s) !! taken s) as [r|] eqn:E; [|rewrite answer_none by done; by eauto].
  destruct (answer_taken t s n r Hs E) as (m & M & Lt). exists m. split; [done|lia].
Qed.

(** *** The timer of the client *)

Lemma taken_le s jobs : steady s jobs -> (taken s <= length (answers (drained s)))%nat.
Proof.
  intros S. pose proof (prefix_length _ _ (all_served_grow (on_way s) (server s))).
  pose proof (sy_taken _ _ S). unfold drained. lia.
Qed.

Lemma pending_grows s s' jobs l :
  steady s jobs -> taken s' = taken s -> answers (drained s') = answers (drained s) ++ l -> pending s' = pending s ++ l.
Proof.
  intros S E1 E2. unfold pending. rewrite E1, E2. apply drop_app_le. by eapply taken_le.
Qed.

Lemma turn_state t s j ms jobs log :
  steady s [j] -> quiet (ui (client s)) ->
  handle_read_jobs short [j] (here f []) = (Ok log, (jobs, here f ms)) ->
  let s' := move (Tick t) s in
  steady s' jobs /\ quiet (ui (client s')) /\ on_way s' = on_way s ++ (Transfer <$> ms)
  /\ drained s' = fold_left serve (Transfer <$> ms) (drained s) /\ server s' = server s /\ taken s' = taken s.
Proof.
  intros [A1 A2 A3 A4 A5 A6] Q E s'. rewrite <- A4 in E.
  pose proof (tick_turn t (client s) j ms jobs log A1 E) as T.
  destruct (turn_way t s _ ms jobs eq_refl T A5) as (W1 & W2 & W3).
  destruct T as [T1 T2 T3 T4 T5 (us & T6 & T7)]. split; [|split; [|by split_and!]].
  - split; unfold s'; cbn [move client server delivered taken]; [done|congruence|congruence|congruence|done|done].
  - unfold s'. cbn [move client]. rewrite T6. by apply Forall_app.
Qed.

Lemma tick_idle t s : steady s [] ->
  move (Tick t) s = mkSystem (with_timer false (client s)) (server s) (delivered s) (taken s).
Proof.
  intros [A1 _ _ _ _ _]. cbn [move]. unfold client_step. cbn [ClientJobs.step]. unfold on_timer. by rewrite A1.
Qed.

(** The next file is announced; or there is none. *)
Lemma tick_start t s k j :
  steady s [j] -> quiet (ui (client s)) -> pending s = [] -> (k <= length list_)%nat ->
  starting src list_ id_ k j -> receives s (rdy k) ->
  exists m, state (move (Tick t) s) m /\ (m < work k + 2)%nat.
Proof.
  intros S Q P K J (w & W & R). destruct (list_ !! k) as [x|] eqn:X.
  - destruct (source_at k x X) as (c & i & nd & C & E1 & E2 & E3).
    destruct (turn_starting short src list_ id_ f Hlen k j x i nd J X E1 E2) as (j' & T & J').
    destruct (turn_state t s j _ _ _ S Q T) as (S' & Q' & _ & D & _ & Tk). cbn [fmap list_fmap fold_left] in D.
    destruct (serve_digest (drained s) w k x (mtime nd) (len (content nd)) (is_resume j) W R X) as [R' A'].
    rewrite <- D in R', A'. exists (work k + 1)%nat. split; [|lia].
    eapply in_wait; [exact S'|exact Q'| |exact X|exact C|exact E2|done|exact J'|exact R'].
    by rewrite (pending_grows _ _ _ _ S Tk A'), P.
  - apply lookup_ge_None in X. replace k with (length list_) in * by lia.
    destruct (turn_state t s j _ _ _ S Q (turn_done short src list_ id_ f Hlen j J)) as (S' & Q' & O & D & Sv & Tk).
    cbn [fmap list_fmap fold_left] in D, O. destruct (serve_done (drained s) w _ W R) as (W' & F' & A'). rewrite <- D in W', F', A'.
    exists 1%nat. split; [|lia]. apply in_last; [done|done| |done|done|].
    + by rewrite (pending_grows _ _ _ _ S Tk A'), P.
    + right. eexists (on_way s), _. split; [exact O|]. rewrite Sv, Tk. fold (drained s).
      apply (f_equal length) in P. unfold pending in P. rewrite length_drop in P. cbn in P. lia.
Qed.

Lemma next_chunk {A} n p (l : list A) : take p l ++ take n (drop p l) = take (p + length (take n (drop p l))) l.
Proof.
  rewrite take_take_drop, length_take, length_drop. destruct (decide (n <= length l - p)%nat).
  - by rewrite Nat.min_l by lia.
  - rewrite Nat.min_r, !(take_ge l) by lia. done.
Qed.

(** The next block of the file. *)
Lemma tick_send t s k i p j x c nd :
  steady s [j] -> quiet (ui (client s)) -> pending s = [] ->
  list_ !! k = Some x -> cs !! k = Some c -> inodes f !! i = Some nd -> content nd = c ->
  (p <= length c)%nat -> sending src list_ id_ k i (Z.of_nat p) j ->
  (p = 0%nat /\ receives s (rdy k)) \/ receives s (hld k (take p c)) ->
  exists m, state (move (Tick t) s) m /\ (m < work (S k) + 3 + (length c - p))%nat.
Proof.
  intros S Q P X C I N L J R. subst c.
  destruct (turn_sending short src list_ id_ f Hlen k i (Z.of_nat p) j x nd J X I) as (b & j' & T & Bi & Bn & Bd & J');
    [lia|]. rewrite Nat2Z.id in Bd, J'. pose proof BUF_SIZE_pos as HB. revert HB Bd J'. generalize BUF_SIZE as B.
  intros B HB Bd J'. set (chunk := take B (drop p (content nd))) in *.
  destruct (turn_state t s j _ _ _ S Q T) as (S' & Q' & _ & D & _ & Tk). cbn [fmap list_fmap fold_left] in D.
  assert (Hw : exists w, CmFiles.write_jobs (drained s) = [w] /\
    ((take p (content nd) = [] /\ rdy k w (cm_fs (drained s))) \/ hld k (take p (content nd)) w (cm_fs (drained s)))).
  { destruct R as [(-> & w & W & R)|(w & W & R)]; exists w; split; try done; [left|right]; done. }
  destruct Hw as (w & W & Hw).
  destruct (serve_block (drained s) w k b _ x W X Bi Bn Hw) as [R' A']. rewrite <- D in R', A'.
  assert (P' : pending (move (Tick t) s) = []).
  { rewrite (pending_grows _ _ _ [] S Tk), P; [done|]. unfold answers. by rewrite A', app_nil_r. }
  rewrite Bd in R'. case_decide as Hc.
  - exists (work (Datatypes.S k) + 2)%nat. split; [|lia]. pose proof (lookup_lt_Some _ _ _ X).
    eapply in_start; [exact S'|exact Q'|done|lia|exact J'|].
    destruct R' as (w' & W' & R'). exists w'. split; [done|]. rewrite Hc, app_nil_r in R'. exists (content nd). split; [done|].
    rewrite take_ge in R'; [done|]. unfold chunk in Hc. apply (f_equal length) in Hc.
    rewrite length_take, length_drop in Hc. cbn in Hc. lia.
  - assert (Hl : (0 < length chunk)%nat) by (destruct chunk; [done|cbn; lia]).
    assert (Hl2 : (length chunk <= length (content nd) - p)%nat).
    { unfold chunk. rewrite length_take, length_drop. lia. }
    exists (work (Datatypes.S k) + 3 + (length (content nd) - (p + length chunk)))%nat. split; [|lia].
    eapply in_send with (p := (p + length chunk)%nat); [exact S'|exact Q'|done|exact X|exact C|exact I|done|lia| |].
    + clearbody chunk. rewrite Nat2Z.inj_add. exact J'.
    + right. unfold chunk in R' |- *. rewrite <- next_chunk. exact R'.
Qed.

(** A turn goes on, unless an answer is waited for. *)
Lemma tick_state t s n :
  state s n -> exists m, state (move (Tick t) s) m /\ (m <= n)%nat
    /\ (pending s = [] -> (0 < n)%nat -> (m < n)%nat) /\ (pending s <> [] -> pending (move (Tick t) s) <> []).
Proof.
  intros Hs. destruct Hs as [k j S Q P K J R|k i j x c nd S Q P X C I N J R|k i p j x c nd S Q P X C I N L J R
    |S Q P W F O|us S P O F Q U].
  - destruct (tick_start t s k j) as (m & M & Lt); [done..|]. exists m. split_and!; [done|lia|lia|congruence].
  - pose proof (turn_waiting short src list_ id_ f Hlen k i j x J X) as T.
    destruct (turn_state t s j _ _ _ S Q T) as (S' & Q' & _ & D & _ & Tk). cbn [fmap list_fmap fold_left] in D.
    assert (P' : pending (move (Tick t) s) = pending s) by (unfold pending; by rewrite D, Tk).
    exists (work k + 1)%nat. split_and!; [|lia|congruence|congruence].
    eapply in_wait; rewrite ?P'; try done. unfold receives. by rewrite D.
  - destruct (tick_send t s k i p j x c nd) as (m & M & Lt); [done..|]. exists m. split_and!; [done|lia|lia|congruence].
  - rewrite tick_idle by done. exists 1%nat. split_and!; [|done|congruence|].
    2: { intros _. change (pending s <> []). congruence. }
    destruct S as [A1 A2 A3 A4 A5 A6]. by apply in_last.
  - rewrite tick_idle by done. exists 0%nat. split_and!; [|done|lia|congruence].
    destruct S as [A1 A2 A3 A4 A5 A6]. by eapply in_finished.
Qed.

(** ** The whole upload *)

Lemma moves_state xs s n : state s n -> exists m, state (moves xs s) m /\ (m <= n)%nat.
Proof.
  revert s n. induction xs as [|x xs IH]; intros s n Hs; [by exists n|].
  assert (exists m, state (move x s) m /\ (m <= n)%nat) as (m & M & Le).
  { destruct x as [t| |t]; [|exists n; split; [by apply deliver_state|done]|by apply answer_state].
    destruct (tick_state t s n Hs) as (m & M & Le & _). by exists m. }
  destruct (IH _ _ M) as (m' & M' & Le'). exists m'. split; [done|lia].
Qed.

(** The user asks for the upload; nothing of an earlier one is on the way. *)
Definition asked (t : Z) (c : Remote) (m : Cm) : System :=
  mkSystem (client_step (FromUi (SendFiles id_ Generic src dst 0 hidden false)) t c) m
    (length (sent_out c)) (length (answers m)).

Record idle (c : Remote) : Prop := {
  id_reads : read_jobs c = [];
  id_writes : ClientJobs.write_jobs c = [];
  id_removes : remove_jobs c !! id_ = None;
  id_fs : remote_fs c = f;
  id_ui : quiet (ui c) }.

(** A place where the files can go. *)
Record free (m : Cm) : Prop := {
  fr_jobs : CmFiles.write_jobs m = [];
  fr_open : open_fs (cm_fs m);
  fr_alloc : allocated (cm_fs m);
  fr_space : Forall (space dst (cm_fs m)) files_ }.

Hypothesis Hversion : get_version_number "1.1.10" <= version.

Lemma asked_state t c m : idle c -> free m -> state (asked t c m) (work 0 + 2).
Proof.
  intros [I1 I2 I3 I4 I5] [F1 F2 F3 F4].
  set (job := with_files_field list_ (with_total_size (sum_sizes list_)
                (new_write id_ Generic dst (FilePath src) 0 hidden false true))).
  set (msg := Transfer (new_receive id_ dst 0 list_ (sum_sizes list_))).
  set (c' := send_msgs [msg] (with_timer true (ClientJobs.with_reads [job]
               (show (UiFolderFiles id_ list_ src true true) c)))).
  assert (Hc : client_step (FromUi (SendFiles id_ Generic src dst 0 hidden false)) t c = c').
  { unfold client_step. cbn [ClientJobs.step handle_msg_from_ui]. unfold send_files, new_read.
    unfold ClientJobs.can_enable_overwrite_detection. cbn [ClientJobs.version env].
    destruct (Z.leb_spec (get_version_number "1.1.10") version); [|lia].
    rewrite I4, Hlisted. cbn [mbind option_bind]. unfold ClientJobs.send. cbn [ClientJobs.broken env].
    cbn [show read_jobs]. by rewrite I1. }
  unfold asked. rewrite Hc.
  assert (Hs0 : settled dst files_ cs 0 (cm_fs m)).
  { split; [done|done| |lia]. intros l x Hl _. rewrite Forall_lookup in F4. by eapply F4. }
  destruct (serve_receive m 0 (sum_sizes list_) F1 Hs0 eq_refl) as [Hr Ho].
  assert (Hd : drained (mkSystem c' m (length (sent_out c)) (length (answers m))) = serve m msg).
  { unfold drained, on_way. cbn [client server delivered c' send_msgs sent_out]. by rewrite drop_app_length. }
  eapply in_start with (k := 0%nat) (j := job).
  - split; cbn [client server delivered taken c' send_msgs]; [done..| |done]. cbn. rewrite length_app. lia.
  - cbn. apply Forall_app. split; [done|]. by repeat constructor.
  - unfold pending. rewrite Hd. unfold answers. fold msg in Ho. rewrite Ho. cbn [taken]. by rewrite drop_all.
  - lia.
  - by repeat split.
  - unfold receives. rewrite Hd. exact Hr.
Qed.

Definition shows_done (s : System) : Prop := exists n, UiDone id_ n ∈ ui (client s).

Lemma settled_all g : settled dst files_ cs (length list_) g -> Forall2 (arrived dst g) files_ cs.
Proof.
  intros S. apply Forall2_same_length_lookup_2.
  - unfold files_. rewrite length_fmap. by eapply Forall2_length.
  - intros l x c Hx Hc. eapply se_earlier; [done..|]. apply lookup_lt_Some in Hx. unfold files_ in Hx. by rewrite length_fmap in Hx.
Qed.

Lemma quiet_no_done us n : quiet us -> UiDone id_ n ∈ us -> False.
Proof. intros Q Hn. unfold quiet in Q. rewrite Forall_forall in Q. by apply Q in Hn. Qed.

(** Once the timer has fired, all that is on the way arrives, and the client takes an answer. *)
Definition arrive (s : System) : System := moves (replicate (length (on_way s)) Deliver) s.
Definition beat (s : System) (t : Z) : System := move (Answer t) (arrive (move (Tick t) s)).
Definition beats (ts : list Z) (s : System) : System := fold_left beat ts s.

Lemma arrive_state s n : state s n -> state (arrive s) n.
Proof.
  unfold arrive. generalize (length (on_way s)) as l. intros l. revert s.
  induction l as [|l IH]; intros s Hs; [done|]. by apply IH, deliver_state.
Qed.

Lemma beat_less s t n : state s n -> exists m, state (beat s t) m /\ (m <= pred n)%nat.
Proof.
  intros Hs. destruct (tick_state t s n Hs) as (m & M & Le & Lt & Pd).
  pose proof (arrive_state _ _ M) as M'. unfold beat. set (s1 := move (Tick t) s) in *.
  destruct (deliver_all (length (on_way s1)) s1) as (D1 & D2 & D3 & D4); [done|]. fold (arrive s1) in *.
  destruct (pending s) as [|r l] eqn:P.
  - destruct (answer_state t _ _ M') as (m' & A & Le'). exists m'. split; [done|].
    destruct (decide (n = 0%nat)) as [->|]; [lia|]. specialize (Lt eq_refl). lia.
  - destruct (pending s1) as [|r1 l1] eqn:P1; [by destruct Pd|].
    assert (E : answers (server (arrive s1)) !! taken (arrive s1) = Some r1).
    { assert (Hd : drained (arrive s1) = server (arrive s1)) by (unfold drained; by rewrite D3).
      rewrite D2, <- Hd, D4, <- (Nat.add_0_r (taken s1)), <- lookup_drop. fold (pending s1). by rewrite P1. }
    destruct (answer_taken t _ _ _ M' E) as (m' & A & Le'). exists m'. split; [done|]. lia.
Qed.

Lemma beats_less ts s n : state s n -> exists m, state (beats ts s) m /\ (m <= n - length ts)%nat.
Proof.
  revert s n. induction ts as [|t ts IH]; intros s n Hs; [exists n; split; [done|cbn; lia]|].
  destruct (beat_less s t n Hs) as (m & M & Le). destruct (IH _ _ M) as (m' & M' & Le').
  exists m'. split; [done|]. cbn. lia.
Qed.

(** Nothing but progress and the end is shown. *)
Definition undisturbed (us : list Ui) : Prop :=
  Forall (fun u => match u with UiError _ _ _ | UiOverride _ _ _ _ _ | UiClosed _ => False | _ => True end) us.

Lemma quiet_undisturbed us : quiet us -> undisturbed us.
Proof. intros Q. eapply Forall_impl; [exact Q|]. by intros []. Qed.

(** C5: When an upload is shown as done, the folder is there.  The user sends the files of a
    folder to a server where their places are free.  Whenever the timer of the client fires,
    and whenever the messages arrive, in either direction: the client shows neither an error
    nor a question about a file, does not touch its own files, and once it shows the end of
    the job, every file is at its place on the server, with the content and the time it has
    at the client. *)
Theorem upload_is_there t c m xs : idle c -> free m ->
  let s := moves xs (asked t c m) in
  (shows_done s -> Forall2 (arrived dst (cm_fs (server s))) files_ cs)
  /\ undisturbed (ui (client s)) /\ remote_fs (client s) = f.
Proof.
  intros Hc Hm. cbv zeta.
  destruct (moves_state xs _ _ (asked_state t c m Hc Hm)) as (n & Hs & _).
  set (s := moves xs (asked t c m)) in *.
  assert (Hq : quiet (ui (client s)) -> (shows_done s -> Forall2 (arrived dst (cm_fs (server s))) files_ cs)
    /\ undisturbed (ui (client s))).
  { intros Q. split; [|by apply quiet_undisturbed]. intros [v Hv]. by destruct (quiet_no_done _ _ Q Hv). }
  destruct Hs as [k j S Q P K J R|k i j x c0 nd S Q P X C I N J R|k i p j x c0 nd S Q P X C I N L J R
    |S Q P W F O|us S P O F Q U].
  1-4: destruct (Hq Q) as [Q1 Q2]; split_and!; [done|done|apply S].
  split_and!; [intros _; by apply settled_all| |apply S]. rewrite U. apply Forall_app.
  split; [by apply quiet_undisturbed|by repeat constructor].
Qed.

(** C6: An upload comes to its end.  However the messages and the timer were scheduled so
    far: after as many further turns as the files have bytes, three more for each file and
    two, if in each turn the timer fires, what is on the way arrives and an answer is taken,
    the end of the job is shown. *)
Theorem upload_ends t c m xs ts :
  idle c -> free m ->
  (sum_list ((fun d => length d + 3) <$> cs) + 2 <= length ts)%nat ->
  shows_done (beats ts (moves xs (asked t c m))).
Proof.
  intros Hc Hm Hts.
  destruct (moves_state xs _ _ (asked_state t c m Hc Hm)) as (n & Hs & Hn).
  destruct (beats_less ts _ _ Hs) as (z & Hz & Hle). unfold work in Hn. rewrite drop_0 in Hn.
  assert (z = 0%nat) as -> by lia. inversion Hz as [| | | |us S P O F Q U]; try lia.
  exists n_files. rewrite U. apply elem_of_app. right. by left.
Qed.
End Upload.

(** ** A folder with an empty file below and a file of one byte *)

Definition ex_list : list FileEntry := [mkFileEntry FileT "e/b" false 0 6; mkFileEntry FileT "a" false 1 5].
Definition ex_contents : list (list byte) := [[]; [x61]].

Definition ex_target : Fs := mkFs {[ ["/"] := EDir; ["/"; "b"] := EFile 0 ]} {[ 0%nat := mkInode [x62] 3 ]} 1 ∅ 9.

Lemma ex_target_keys q e : entries ex_target !! q = Some e -> (q = ["/"] /\ e = EDir) \/ (q = ["/"; "b"] /\ e = EFile 0).
Proof.
  unfold ex_target. cbn [entries]. intros [[<- <-]|[_ Hq]]%lookup_insert_Some; [by left|].
  apply lookup_singleton_Some in Hq as [<- <-]. by right.
Qed.

Lemma ex_listed : get_recursive_files no_mtime ex_fs "/d" false = Some (Ok ex_list).
Proof. vm_compute. reflexivity. Qed.

Lemma ex_source : Forall2 (source_ok ex_fs "/d") ex_list ex_contents.
Proof.
  repeat constructor; eexists _, _; (split; [vm_compute; reflexivity|split; [vm_compute; reflexivity|reflexivity]]).
Qed.

(** The keys are decided on. *)
Lemma ex_apart : apart "/r" (files_ ex_list).
Proof.
  assert (Hb : forall x y, x ∈ files_ ex_list -> y ∈ files_ ex_list -> x <> y ->
    Forall (fun q => q ∉ places "/r" y /\ q ∉ prefixes (parent "/r" y)) (places "/r" x)).
  { assert (Ha : Forall (fun x => Forall (fun y => x = y \/
        bool_decide (Forall (fun q => q ∉ places "/r" y /\ q ∉ prefixes (parent "/r" y)) (places "/r" x)) = true)
      (files_ ex_list)) (files_ ex_list)).
    { repeat constructor; first [by left|right; vm_compute; reflexivity]. }
    intros x y Hx Hy Hne. rewrite Forall_forall in Ha. specialize (Ha x Hx). rewrite Forall_forall in Ha.
    destruct (Ha y Hy) as [|Hd]; [done|]. by apply bool_decide_eq_true in Hd. }
  intros l m x y Hl Hm Hne q Hq. assert (Hxy : x <> y).
  { intros ->. apply Hne. destruct l as [|[|l]], m as [|[|m]]; try done; vm_compute in Hl, Hm; congruence. }
  specialize (Hb x y). rewrite Forall_forall in Hb. apply Hb; [|by eapply list_elem_of_lookup_2|done|done].
  by eapply list_elem_of_lookup_2.
Qed.

Definition ex_server : Cm := mkCm [] [] ex_target [] [].

Lemma ex_free : free "/r" ex_list ex_server.
Proof.
  split; [done| | |].
  - split; [done|]. intros q t Hq. by destruct (ex_target_keys q _ Hq) as [[_ ?]|[_ ?]].
  - intros q i Hq. destruct (ex_target_keys q _ Hq) as [[_ ?]|[_ [= ->]]]; [done|cbn; lia].
  - apply Forall_forall. intros x Hx.
    assert (Ha : Forall (fun x => Forall (fun q => entries ex_target !! q = None) (places "/r" x)
                  /\ Forall (fun q => entries ex_target !! q = None \/ entries ex_target !! q = Some EDir)
                       (prefixes (parent "/r" x))) (files_ ex_list)).
    { apply (bool_decide_unpack _). vm_compute. exact I. }
    rewrite Forall_forall in Ha. destruct (Ha x Hx) as [H1 H2]. split; [by apply Forall_forall|done].
Qed.

Lemma ex_idle : idle 5 ex_fs (fresh ex_fs 0).
Proof. split; try done. by constructor. Qed.

(** Turns of both sides, with answers that come late. *)
Definition ex_schedule : list Move :=
  concat (replicate 8 [Tick 1; Tick 2; Deliver; Deliver; Answer 3]).

Abbreviation ex_asked := (asked (H := toy_zstd) demo_json (fun _ => None) (fun _ => 9%nat) no_mtime 1004002 false "/d" "/r" 5 false 0
                 (fresh ex_fs 0) ex_server).
Abbreviation ex_moves := (moves (H := toy_zstd) demo_json (fun _ => None) (fun _ => 9%nat) no_mtime "/h" None 1004002 false true 7).
Abbreviation ex_beats := (beats (H := toy_zstd) demo_json (fun _ => None) (fun _ => 9%nat) no_mtime "/h" None 1004002 false true 7).

Lemma upload_is_there_witness :
  let s := ex_moves ex_schedule ex_asked in
  shows_done 5 s /\ Forall2 (arrived "/r" (cm_fs (server s))) (files_ ex_list) ex_contents.
Proof.
  cbv zeta. assert (Hd : shows_done 5 (ex_moves ex_schedule ex_asked)).
  { exists 2. apply list_elem_of_In. vm_compute. tauto. }
  split; [exact Hd|].
  apply (upload_is_there (H := toy_zstd) demo_json (fun _ => None) (fun _ => 9%nat) no_mtime "/h" None 1004002 false true 7
    "/d" "/r" ex_list ex_contents 5 ex_fs false ex_well_named eq_refl ex_listed); try exact Hd;
    [done|done|exact ex_apart|exact ex_source|vm_compute; congruence|exact ex_idle|exact ex_free].
Defined.

Lemma upload_ends_witness :
  shows_done 5 (ex_beats (replicate 9 4) (ex_moves [Tick 1; Deliver] ex_asked)).
Proof.
  apply (upload_ends (H := toy_zstd) demo_json (fun _ => None) (fun _ => 9%nat) no_mtime "/h" None 1004002 false true 7
    "/d" "/r" ex_list ex_contents 5 ex_fs false ex_well_named eq_refl ex_listed);
    [done|done|exact ex_apart|exact ex_source|vm_compute; congruence|exact ex_idle|exact ex_free|vm_compute; lia].
Defined.
