(* ===== verification/PeerConfig.v ===== *)
(** * What is kept of a peer (libs/hbb_common/src/config.rs, [PeerConfig])

    The controlling side keeps one file per peer: the hash of its password, how its desktop
    is shown, and options.  The secrets among them are encrypted in the file ([Passwords]).
    A file is the value that was written; the TOML text in between is not modelled. *)

From Stdlib Require Import Ascii.
From stdpp Require Import gmap pretty.
From S2P Require Import Prelude TermBuffer Nacl Options Passwords.

(** ** The data *)

(** The fields that are a boolean; a configuration holds the set of those that are true. *)
Inductive Toggle : Type :=
| ShowRemoteCursor | LockAfterSessionEnd | TerminalPersistent | PrivacyMode | AllowSwapKey
| DisableAudio | DisableClipboard | EnableFileCopyPaste | ShowQualityMonitor
| FollowRemoteCursor | FollowRemoteWindow | ViewOnly | ShowMyCursor | SyncInitClipboard.

#[export] Instance Toggle_eq_dec : EqDecision Toggle.
Proof. solve_decision. Defined.

(** In the order of the source, with the name of the field in the file, which is also the
    name of the setting that gives its default. *)
Definition all_toggles : list (Toggle * string) :=
  [(ShowRemoteCursor, "show_remote_cursor"); (LockAfterSessionEnd, "lock_after_session_end");
   (TerminalPersistent, "terminal-persistent"); (PrivacyMode, "privacy_mode");
   (AllowSwapKey, "allow_swap_key"); (DisableAudio, "disable_audio");
   (DisableClipboard, "disable_clipboard"); (EnableFileCopyPaste, "enable-file-copy-paste");
   (ShowQualityMonitor, "show_quality_monitor"); (FollowRemoteCursor, "follow_remote_cursor");
   (FollowRemoteWindow, "follow_remote_window"); (ViewOnly, "view_only");
   (ShowMyCursor, "show_my_cursor"); (SyncInitClipboard, "sync-init-clipboard")].

Definition toggle_index (t : Toggle) : nat :=
  match t with
  | ShowRemoteCursor => 0 | LockAfterSessionEnd => 1 | TerminalPersistent => 2 | PrivacyMode => 3
  | AllowSwapKey => 4 | DisableAudio => 5 | DisableClipboard => 6 | EnableFileCopyPaste => 7
  | ShowQualityMonitor => 8 | FollowRemoteCursor => 9 | FollowRemoteWindow => 10 | ViewOnly => 11
  | ShowMyCursor => 12 | SyncInitClipboard => 13
  end.

#[export] Program Instance Toggle_countable : Countable Toggle :=
  inj_countable toggle_index (fun n => fst <$> all_toggles !! n) _.
Next Obligation. by intros []. Qed.

Record PeerInfoSerde : Type := mkInfo {
  info_username : string;
  info_hostname : string;
  info_platform : string }.

(** How the desktop is shown: nothing else reads these fields. *)
Record View : Type := mkView {
  size : Z * Z * Z * Z;
  size_ft : Z * Z * Z * Z;
  size_pf : Z * Z * Z * Z;
  view_style : string;
  scroll_style : string;
  edge_scroll_edge_thickness : Z;
  reverse_mouse_wheel : string;
  displays_as_individual_windows : string;
  use_all_my_displays_for_the_remote_session : string;
  trackpad_speed : Z;
  custom_resolutions : gmap string (Z * Z);
  ui_flutter : gmap string string }.

Record PeerConfig : Type := mkPeer {
  password : list byte;
  image_quality : string;
  custom_image_quality : list Z;
  toggles : gset Toggle;
  port_forwards : list (Z * string * Z);
  direct_failures : Z;
  keyboard_mode : string;
  options : Settings;
  info : PeerInfoSerde;
  transfer : list string * list string;
  view : View }.

Definition flag (t : Toggle) (c : PeerConfig) : bool := bool_decide (t ∈ toggles c).

(** *** Assignments to a field *)

Definition with_password (p : list byte) (c : PeerConfig) : PeerConfig :=
  mkPeer p (image_quality c) (custom_image_quality c) (toggles c) (port_forwards c) (direct_failures c)
    (keyboard_mode c) (options c) (info c) (transfer c) (view c).
Definition with_image_quality (q : string) (custom : list Z) (c : PeerConfig) : PeerConfig :=
  mkPeer (password c) q custom (toggles c) (port_forwards c) (direct_failures c)
    (keyboard_mode c) (options c) (info c) (transfer c) (view c).
Definition with_flag (t : Toggle) (b : bool) (c : PeerConfig) : PeerConfig :=
  mkPeer (password c) (image_quality c) (custom_image_quality c)
    (if b then toggles c ∪ {[t]} else toggles c ∖ {[t]}) (port_forwards c) (direct_failures c)
    (keyboard_mode c) (options c) (info c) (transfer c) (view c).
Definition with_direct_failures (n : Z) (c : PeerConfig) : PeerConfig :=
  mkPeer (password c) (image_quality c) (custom_image_quality c) (toggles c) (port_forwards c) n
    (keyboard_mode c) (options c) (info c) (transfer c) (view c).
Definition with_keyboard_mode (m : string) (c : PeerConfig) : PeerConfig :=
  mkPeer (password c) (image_quality c) (custom_image_quality c) (toggles c) (port_forwards c)
    (direct_failures c) m (options c) (info c) (transfer c) (view c).
Definition with_options (o : Settings) (c : PeerConfig) : PeerConfig :=
  mkPeer (password c) (image_quality c) (custom_image_quality c) (toggles c) (port_forwards c)
    (direct_failures c) (keyboard_mode c) o (info c) (transfer c) (view c).
Definition with_info (i : PeerInfoSerde) (c : PeerConfig) : PeerConfig :=
  mkPeer (password c) (image_quality c) (custom_image_quality c) (toggles c) (port_forwards c)
    (direct_failures c) (keyboard_mode c) (options c) i (transfer c) (view c).
Definition with_transfer (t : list string * list string) (c : PeerConfig) : PeerConfig :=
  mkPeer (password c) (image_quality c) (custom_image_quality c) (toggles c) (port_forwards c)
    (direct_failures c) (keyboard_mode c) (options c) (info c) t (view c).
Definition with_view (v : View) (c : PeerConfig) : PeerConfig :=
  mkPeer (password c) (image_quality c) (custom_image_quality c) (toggles c) (port_forwards c)
    (direct_failures c) (keyboard_mode c) (options c) (info c) (transfer c) v.

(** The files, by their names. *)
Abbreviation Files := (gmap string PeerConfig).

(** ** Defaults *)

Section Stored.
Context `{Crypto}.
Variable (user_default : string -> string).            (* UserDefaultConfig::read *)
Variable (default_quality : Z).                        (* its "custom_image_quality", a float, as i32 *)
Variable (m : Machine).

Definition default_toggles : gset Toggle :=
  list_to_set (fst <$> filter (fun t => user_default t.2 = "Y") all_toggles).

Definition default_number (k : string) : Z := default 100 (parse_int 32 (user_default k)).

Definition default_options : Settings :=
  list_to_map ((fun k => (k, user_default k)) <$>
    ["codec-preference"; "custom-fps"; "zoom-cursor"; "i444"; "swap-left-right-mouse"; "collapse_toolbar"]).

Definition default_view : View :=
  mkView (0, 0, 0, 0) (0, 0, 0, 0) (0, 0, 0, 0) (user_default "view_style") (user_default "scroll_style")
    (default_number "edge-scroll-edge-thickness") (user_default "reverse_mouse_wheel")
    (user_default "displays_as_individual_windows")
    (user_default "use_all_my_displays_for_the_remote_session")
    (default_number "trackpad-speed") ∅ ∅.

Definition default_config : PeerConfig :=
  mkPeer [] (user_default "image_quality") [default_quality] default_toggles [] 0 "" default_options
    (mkInfo "" "" "") ([], []) default_view.

(** ** Reading a field of the file *)

(** [serde_field_string]: an empty text is not written, and read as the default. *)
Definition read_text (s dflt : string) : string := if bool_decide (s = "") then dflt else s.
Definition read_number (lo hi z dflt : Z) : Z := if (lo <=? z) && (z <=? hi) then z else dflt.

Definition deserialize_custom_image_quality (v : list Z) : list Z :=
  match v with
  | [q] => if (10 <=? q) && (q <=? 0xFFF) then v else [default_quality]
  | _ => [default_quality]
  end.

Definition read_view (v : View) : View :=
  mkView (size v) (size_ft v) (size_pf v)
    (read_text (view_style v) (user_default "view_style"))
    (read_text (scroll_style v) (user_default "scroll_style"))
    (read_number 20 150 (edge_scroll_edge_thickness v) (default_number "edge-scroll-edge-thickness"))
    (read_text (reverse_mouse_wheel v) (user_default "reverse_mouse_wheel"))
    (read_text (displays_as_individual_windows v) (user_default "displays_as_individual_windows"))
    (read_text (use_all_my_displays_for_the_remote_session v)
       (user_default "use_all_my_displays_for_the_remote_session"))
    (read_number 10 1000 (trackpad_speed v) (default_number "trackpad-speed"))
    (custom_resolutions v) (ui_flutter v).

Definition read_fields (c : PeerConfig) : PeerConfig :=
  with_view (read_view (view c))
    (with_image_quality (read_text (image_quality c) (user_default "image_quality"))
       (deserialize_custom_image_quality (custom_image_quality c)) c).

(** ** The file of a peer *)

Definition forbidden (a : Ascii.ascii) : bool :=
  bool_decide (a ∈ ["<"; ">"; ":"; "/"; "\"; "|"; "?"; "*"]%char).

Definition path (id : string) : string :=
  if existsb forbidden (String.list_ascii_of_string id)
  then "base64_" +:+ String.string_of_list_byte (b64_encode (String.list_byte_of_string id))
  else id.

(** The options that are secret, with the place of their nonce among the random values. *)
Definition secret_options : list (string * nat) :=
  [("rdp_password", 1%nat); ("os-username", 2%nat); ("os-password", 3%nat)].

Definition encrypt_option (nonce : nat -> list byte) (o : Settings) (opt : string * nat) : Settings :=
  match o !! opt.1 with
  | Some v =>
      <[opt.1 := String.string_of_list_byte
                   (encrypt_str_or_original m (nonce opt.2) (String.list_byte_of_string v)
                      PASSWORD_ENC_VERSION ENCRYPT_MAX_LEN)]> o
  | None => o
  end.

(** What [store_] writes; [nonce] are the random values of this call. *)
Definition stored (nonce : nat -> list byte) (c : PeerConfig) : PeerConfig :=
  with_options (fold_left (encrypt_option nonce) secret_options (options c))
    (with_password
       (encrypt_vec_or_original m (nonce 0%nat) (password c) PASSWORD_ENC_VERSION ENCRYPT_MAX_LEN) c).

Definition store (nonce : nat -> list byte) (id : string) (c : PeerConfig) (f : Files) : Files :=
  <[path id := stored nonce c]> f.

Definition decrypt_option (o : Settings * bool) (opt : string * nat) : Settings * bool :=
  match o.1 !! opt.1 with
  | Some v =>
      let '(d, _, again) := decrypt_str_or_original m (String.list_byte_of_string v) PASSWORD_ENC_VERSION in
      (<[opt.1 := String.string_of_list_byte d]> o.1, o.2 || again)
  | None => o
  end.

Definition decrypt_config (c : PeerConfig) : PeerConfig * bool :=
  let '(p, _, again) := decrypt_vec_or_original m (password c) PASSWORD_ENC_VERSION in
  let '(o, again) := fold_left decrypt_option secret_options (options c, again) in
  (with_options o (with_password p c), again).

(** The configuration, and the files: a file that is not encrypted as it is today is
    written again. *)
Definition load (nonce : nat -> list byte) (id : string) (f : Files) : PeerConfig * Files :=
  match f !! path id with
  | None => (default_config, f)
  | Some c =>
      let '(c, again) := decrypt_config (read_fields c) in
      (c, if again then store nonce id c f else f)
  end.

Definition remove (id : string) (f : Files) : Files := base.delete (path id) f.
Definition exists_ (id : string) (f : Files) : bool := bool_decide (is_Some (f !! path id)).
End Stored.

(** ** What is stored is read back *)

Section Survives.
Context `{CryptoLaws}.
Variable (user_default : string -> string) (default_quality : Z) (m : Machine).

(** A secret text that the file can hold: a text that is not too long and is not taken for
    one that is encrypted already. *)
Definition good_secret (s : string) : Prop :=
  let t := String.list_byte_of_string s in
  utf8_valid t = true /\ char_count t <= ENCRYPT_MAX_LEN /\ is_encrypted t = false.

(** A configuration as the program makes it: the fields that are checked on reading are in
    their ranges, and the secrets can be held. *)
Record good_config (c : PeerConfig) : Prop := {
  good_fields : read_fields user_default default_quality c = c;
  good_hash : len (password c) <= ENCRYPT_MAX_LEN /\ is_encrypted (password c) = false;
  good_secrets : forall k n, (k, n) ∈ secret_options -> forall v, options c !! k = Some v -> good_secret v }.

Lemma bytes_of_bytes t : String.list_byte_of_string (String.string_of_list_byte t) = t.
Proof. apply String.list_byte_of_string_of_list_byte. Qed.
Lemma string_of_bytes s : String.string_of_list_byte (String.list_byte_of_string s) = s.
Proof. apply String.string_of_list_byte_of_string. Qed.

(** The three ways of a secret through a file. *)
Lemma str_survives nonce t :
  len nonce = NONCEBYTES -> utf8_valid t = true -> char_count t <= ENCRYPT_MAX_LEN -> is_encrypted t = false ->
  exists b, decrypt_str_or_original m (encrypt_str_or_original m nonce t PASSWORD_ENC_VERSION ENCRYPT_MAX_LEN)
              PASSWORD_ENC_VERSION = (t, b, false).
Proof.
  intros Hn Hv Hl He. unfold encrypt_str_or_original. rewrite He.
  replace (ENCRYPT_MAX_LEN <? char_count t) with false by lia. cbn [bool_decide].
  rewrite bool_decide_eq_true_2 by done. unfold encrypt. destruct t as [|x t].
  - by exists false.
  - cbn [is_empty]. eexists. by apply decrypt_encrypted.
Qed.

Lemma vec_survives nonce v :
  len nonce = NONCEBYTES -> len v <= ENCRYPT_MAX_LEN -> is_encrypted v = false ->
  exists b, decrypt_vec_or_original m (encrypt_vec_or_original m nonce v PASSWORD_ENC_VERSION ENCRYPT_MAX_LEN)
              PASSWORD_ENC_VERSION = (v, b, false).
Proof.
  intros Hn Hl He. unfold encrypt_vec_or_original. rewrite He.
  replace (ENCRYPT_MAX_LEN <? len v) with false by lia.
  rewrite bool_decide_eq_true_2 by done. unfold encrypt. destruct v as [|x v].
  - by exists false.
  - cbn [is_empty]. exists true. unfold decrypt_vec_or_original.
    rewrite encoded_long by done. cbv zeta.
    change (take 2 (PASSWORD_ENC_VERSION ++ ?x)) with v00.
    change (from_utf8_lossy v00) with v00. rewrite bool_decide_eq_true_2 by done.
    change (drop 2 (PASSWORD_ENC_VERSION ++ ?x)) with x. unfold decrypt.
    rewrite encoded_nonempty, b64_decode_encode, symmetric_roundtrip by done.
    done.
Qed.

(** *** The secret options *)

Definition written_secret (nonce : nat -> list byte) (n : nat) (v : string) : string :=
  String.string_of_list_byte
    (encrypt_str_or_original m (nonce n) (String.list_byte_of_string v) PASSWORD_ENC_VERSION ENCRYPT_MAX_LEN).

Lemma encrypt_option_alter nonce o k n : encrypt_option m nonce o (k, n) = alter (written_secret nonce n) k o.
Proof.
  unfold encrypt_option; cbn [fst snd]. destruct (o !! k) as [v|] eqn:E.
  - apply map_eq. intros j. destruct (decide (j = k)) as [->|].
    + by rewrite lookup_insert_eq, lookup_alter_eq, E.
    + by rewrite lookup_insert_ne, lookup_alter_ne.
  - by rewrite alter_id by (intros ? E'; congruence).
Qed.

Lemma encrypt_options_lookup nonce l o k :
  k ∉ l.*1 -> fold_left (encrypt_option m nonce) l o !! k = o !! k.
Proof.
  revert o. induction l as [|[k' n] l IH]; intros o Hk; [done|].
  cbn [fold_left fmap list_fmap] in *. rewrite IH, encrypt_option_alter by set_solver.
  apply lookup_alter_ne. set_solver.
Qed.

Lemma encrypt_options_alter nonce l f k o :
  k ∉ l.*1 ->
  alter f k (fold_left (encrypt_option m nonce) l o) = fold_left (encrypt_option m nonce) l (alter f k o).
Proof.
  revert o. induction l as [|[k' n] l IH]; intros o Hk; [done|].
  cbn [fold_left fmap list_fmap] in *. rewrite IH by set_solver. f_equal.
  rewrite !encrypt_option_alter. apply alter_alter_ne. set_solver.
Qed.

Lemma secrets_survive nonce l o b :
  (forall n, len (nonce n) = NONCEBYTES) -> NoDup l.*1 ->
  (forall k n, (k, n) ∈ l -> forall v, o !! k = Some v -> good_secret v) ->
  fold_left (decrypt_option m) l (fold_left (encrypt_option m nonce) l o, b) = (o, b).
Proof.
  intros Hn. revert o. induction l as [|[k n] l IH]; intros o Hd Hg; [done|].
  cbn [fold_left fmap list_fmap] in *. apply NoDup_cons in Hd as [Hk Hd].
  assert (Hstep : decrypt_option m (fold_left (encrypt_option m nonce) l (encrypt_option m nonce o (k, n)), b) (k, n)
                  = (fold_left (encrypt_option m nonce) l o, b)).
  { unfold decrypt_option; cbn [fst snd].
    rewrite encrypt_options_lookup, encrypt_option_alter, lookup_alter_eq by done.
    destruct (o !! k) as [v|] eqn:E; cbn.
    - destruct (Hg k n ltac:(set_solver) v E) as (Hv & Hl & He). unfold written_secret at 1.
      rewrite bytes_of_bytes. destruct (str_survives (nonce n) _ (Hn n) Hv Hl He) as [b' ->].
      rewrite string_of_bytes, orb_false_r. f_equal.
      apply map_eq. intros j. destruct (decide (j = k)) as [->|].
      + by rewrite lookup_insert_eq, encrypt_options_lookup, E.
      + by rewrite lookup_insert_ne, <- encrypt_options_alter, lookup_alter_ne by done.
    - by rewrite alter_id by (intros ? E'; congruence). }
  rewrite Hstep. apply IH; [done|]. intros k' n' Hin. apply (Hg k' n'). set_solver.
Qed.

Lemma options_of_with o c : options (with_options o c) = o.
Proof. done. Qed.

(** The file of [id] holds [c], or there is none and [c] is the default. *)
Definition settled (id : string) (c : PeerConfig) (f : Files) : Prop :=
  forall nonce, load user_default default_quality m nonce id f = (c, f).

Lemma settled_default id f :
  f !! path id = None -> settled id (default_config user_default default_quality) f.
Proof. intros E nonce. unfold load. by rewrite E. Qed.

Lemma settled_store nonce id c f :
  (forall n, len (nonce n) = NONCEBYTES) -> good_config c -> settled id c (store m nonce id c f).
Proof.
  intros Hn [Hf [Hl He] Hs] nonce'. unfold load. unfold store at 1. rewrite lookup_insert_eq.
  assert (Hr : read_fields user_default default_quality (stored m nonce c) = stored m nonce c).
  { destruct c. cbn in Hf. unfold read_fields, stored in *. cbn in *. by injection Hf as -> -> ->. }
  rewrite Hr. unfold decrypt_config. cbn [password stored with_options with_password options].
  destruct (vec_survives (nonce 0%nat) (password c) (Hn _) Hl He) as [b ->].
  rewrite secrets_survive; [by destruct c|done|by vm_compute; repeat constructor; set_solver|exact Hs].
Qed.

(** What is kept of a peer survives its file: reading gives the configuration that was
    written, the password and the secret options decrypted, and leaves the file as it is; the
    files of other peers are as they were.  The fields have to be in their ranges, and a
    secret must not look as if it were encrypted already. *)
Theorem peer_config_survives nonce id c f :
  (forall n, len (nonce n) = NONCEBYTES) -> good_config c ->
  settled id c (store m nonce id c f) /\
  forall id' nonce', path id' <> path id ->
    (load user_default default_quality m nonce' id' (store m nonce id c f)).1
    = (load user_default default_quality m nonce' id' f).1.
Proof.
  intros Hn Hc. split; [by apply settled_store|]. intros id' nonce' Hne.
  unfold load. unfold store at 1. rewrite lookup_insert_ne by done.
  by destruct (f !! path id'); [destruct (decrypt_config m _)|].
Qed.
End Survives.

(** ** Example *)

Definition ex_peer : PeerConfig :=
  with_options (<["rdp_password" := "secret"]> (<["codec-preference" := "vp9"]> ∅))
    (with_flag ViewOnly true (with_password [x61; x62] (default_config (fun _ => "") 50))).

Lemma peer_config_survives_witness :
  settled (H := toy_crypto) (fun _ => "") 50 ex_machine "a/b" ex_peer
    (store (H := toy_crypto) ex_machine (fun _ => ex_nonce) "a/b" ex_peer ∅) /\
  forall id' (nonce' : nat -> list byte), path (H := toy_crypto) id' <> path (H := toy_crypto) "a/b" ->
    (load (H := toy_crypto) (fun _ => "") 50 ex_machine nonce' id'
       (store (H := toy_crypto) ex_machine (fun _ => ex_nonce) "a/b" ex_peer ∅)).1
    = (load (H := toy_crypto) (fun _ => "") 50 ex_machine nonce' id' ∅).1.
Proof.
  apply (peer_config_survives (H := toy_crypto) (H0 := toy_laws)).
  - intros n. reflexivity.
  - split; [vm_compute; reflexivity|split; [vm_compute; discriminate|vm_compute; reflexivity]|].
    intros k n Hk v. unfold secret_options in Hk.
    apply elem_of_cons in Hk as [[= -> _]|Hk]; [|].
    + vm_compute. intros [= <-]. repeat split; vm_compute; congruence.
    + repeat (apply elem_of_cons in Hk as [[= -> _]|Hk]; [vm_compute; discriminate|]). by apply elem_of_nil in Hk.
Defined.
