(* ===== verification/LoginConfig.v ===== *)
(** * The session of the controlling side and its options (src/client.rs)

    [LoginConfigHandler] keeps what one session knows of its peer: how it logs in, and the
    peer's configuration ([PeerConfig]), of which every change is written to the peer's
    file.  Options of the session are told to the peer by an [OptionMessage]. *)

From Stdlib Require Import Ascii.
From stdpp Require Import gmap pretty.
From S2P Require Import Prelude Options Passwords Messages PeerConfig.

(** ** State *)

Inductive ConnType : Type := DEFAULT_CONN | FILE_TRANSFER | PORT_FORWARD | RDP | VIEW_CAMERA | TERMINAL.
#[export] Instance ConnType_eq_dec : EqDecision ConnType.
Proof. solve_decision. Defined.

(** Where the password that was sent comes from. *)
Inductive PasswordSource : Type :=
| PersonalAb (hash : list byte)
| SharedAb (password : text)
| Undefined.

Record ConnToken : Type := mkToken {
  token_password : list byte;
  token_source : PasswordSource;
  token_session_id : Z }.

(** What [initialize] fixes for the session. *)
Record Session : Type := mkSession {
  id : string;
  conn_type : ConnType;
  is_terminal_admin : bool;
  session_id : Z;
  force_relay : bool;
  other_server : option (string * string * string) }.

Record Lc : Type := mkLc {
  session : Session;
  hash : HashMsg;
  last_password : list byte;             (* [password]: remembered for a reconnection *)
  remember : bool;
  config : PeerConfig;
  port_forward : string * Z;
  peer_version : Z;                      (* [version] *)
  features : option bool;                (* of the features, whether privacy modes are *)
  switch_uuid : option string;
  switch_back_allowed : bool;
  direct : option bool;
  custom_fps : option Z;
  password_source : PasswordSource;
  shared_password : option text;
  restarting : bool * option Z;          (* [restarting_remote_device] and since when *)
  mark_unsupported : list string }.

(** Outside of the session: its files, and what has been sent and shown. *)
Inductive Output : Type :=
| Peer (m : Message)                     (* to the peer *)
| MsgBox (msgtype title text link : string)
| SyncToPersonalAb (id : string) (hash : list byte).

Record W : Type := mkW { lc : Lc; files : Files; outs : list Output }.

(** What the rest of the program and the system answer during one operation. *)
Record Env : Type := mkEnv {
  now : Z;
  user_default : string -> string;
  default_quality : Z;
  machine : Machine;
  nonces : nat -> nat -> list byte;          (* random, for every writing of a file *)
  random_session_id : Z;
  conn_options : string -> string;           (* [Config::get_option] *)
  by_proxy : bool;                           (* [use_ws() || Config::is_proxy()] *)
  using_public_server : bool;
  get_builtin_option : string -> string;
  get_my_id : string;
  rendezvous_server : string;
  my_name : string;                          (* the display name, as it is shown *)
  my_platform : string;
  my_version : string;
  get_hwid : raw;
  terminal_admin : bool;                     (* IS_TERMINAL_ADMIN *)
  supported_decodings : string -> list string -> raw;
  remote_dirs : string -> gmap string string; (* a JSON object of texts *)
  personal_ab : option (string -> option (list byte)); (* the address book, for the user logged in *)
  consume_switch_uuid : string -> string -> bool }.

(** ** Assignments *)

Section Lc.
Abbreviation M := (ST Empty_set W).

Definition get_lc : M Lc := w ← st_get; mret (lc w).
Definition modify_lc (f : Lc -> Lc) : M unit := st_modify (fun w => mkW (f (lc w)) (files w) (outs w)).
Definition emit (o : Output) : M unit := st_modify (fun w => mkW (lc w) (files w) (outs w ++ [o])).
Definition when (b : bool) (m : M unit) : M unit := if b then m else mret tt.
End Lc.

(** Run a computation of elementary steps. *)
Ltac run_in :=
  unfold get_lc, modify_lc, emit, when, mbind, st_mbind, st_bind, mret, st_mret, st_ret, st_get, st_modify in *;
  cbn beta iota zeta delta [lc files outs] in *.

Definition set_session (s : Session) (l : Lc) : Lc :=
  mkLc s (hash l) (last_password l) (remember l) (config l) (port_forward l) (peer_version l) (features l)
    (switch_uuid l) (switch_back_allowed l) (direct l) (custom_fps l) (password_source l) (shared_password l)
    (restarting l) (mark_unsupported l).
Definition set_hash (h : HashMsg) (l : Lc) : Lc :=
  mkLc (session l) h (last_password l) (remember l) (config l) (port_forward l) (peer_version l) (features l)
    (switch_uuid l) (switch_back_allowed l) (direct l) (custom_fps l) (password_source l) (shared_password l)
    (restarting l) (mark_unsupported l).
Definition set_password (p : list byte) (l : Lc) : Lc :=
  mkLc (session l) (hash l) p (remember l) (config l) (port_forward l) (peer_version l) (features l)
    (switch_uuid l) (switch_back_allowed l) (direct l) (custom_fps l) (password_source l) (shared_password l)
    (restarting l) (mark_unsupported l).
Definition set_remember (b : bool) (l : Lc) : Lc :=
  mkLc (session l) (hash l) (last_password l) b (config l) (port_forward l) (peer_version l) (features l)
    (switch_uuid l) (switch_back_allowed l) (direct l) (custom_fps l) (password_source l) (shared_password l)
    (restarting l) (mark_unsupported l).
Definition set_config (c : PeerConfig) (l : Lc) : Lc :=
  mkLc (session l) (hash l) (last_password l) (remember l) c (port_forward l) (peer_version l) (features l)
    (switch_uuid l) (switch_back_allowed l) (direct l) (custom_fps l) (password_source l) (shared_password l)
    (restarting l) (mark_unsupported l).
Definition set_peer (version : Z) (f : option bool) (l : Lc) : Lc :=
  mkLc (session l) (hash l) (last_password l) (remember l) (config l) (port_forward l) version f
    (switch_uuid l) (switch_back_allowed l) (direct l) (custom_fps l) (password_source l) (shared_password l)
    (restarting l) (mark_unsupported l).
Definition set_switch (u : option string) (allowed : bool) (l : Lc) : Lc :=
  mkLc (session l) (hash l) (last_password l) (remember l) (config l) (port_forward l) (peer_version l)
    (features l) u allowed (direct l) (custom_fps l) (password_source l) (shared_password l)
    (restarting l) (mark_unsupported l).
Definition set_direct (d : option bool) (l : Lc) : Lc :=
  mkLc (session l) (hash l) (last_password l) (remember l) (config l) (port_forward l) (peer_version l)
    (features l) (switch_uuid l) (switch_back_allowed l) d (custom_fps l) (password_source l)
    (shared_password l) (restarting l) (mark_unsupported l).
Definition set_fps (f : option Z) (l : Lc) : Lc :=
  mkLc (session l) (hash l) (last_password l) (remember l) (config l) (port_forward l) (peer_version l)
    (features l) (switch_uuid l) (switch_back_allowed l) (direct l) f (password_source l)
    (shared_password l) (restarting l) (mark_unsupported l).
Definition set_source (s : PasswordSource) (l : Lc) : Lc :=
  mkLc (session l) (hash l) (last_password l) (remember l) (config l) (port_forward l) (peer_version l)
    (features l) (switch_uuid l) (switch_back_allowed l) (direct l) (custom_fps l) s (shared_password l)
    (restarting l) (mark_unsupported l).
Definition set_shared (s : option text) (l : Lc) : Lc :=
  mkLc (session l) (hash l) (last_password l) (remember l) (config l) (port_forward l) (peer_version l)
    (features l) (switch_uuid l) (switch_back_allowed l) (direct l) (custom_fps l) (password_source l) s
    (restarting l) (mark_unsupported l).
Definition set_restarting (r : bool * option Z) (l : Lc) : Lc :=
  mkLc (session l) (hash l) (last_password l) (remember l) (config l) (port_forward l) (peer_version l)
    (features l) (switch_uuid l) (switch_back_allowed l) (direct l) (custom_fps l) (password_source l)
    (shared_password l) r (mark_unsupported l).

(** ** The configuration of the peer *)

Section Handler.
Context `{Crypto} (env : Env).
Abbreviation M := (ST Empty_set W).

Definition load_config : M PeerConfig :=
  w ← st_get;
  let '(c, f) := load (user_default env) (default_quality env) (machine env) (nonces env 0%nat)
                   (id (session (lc w))) (files w) in
  st_modify (fun w => mkW (lc w) f (outs w)) ;; mret c.

(** [config.store(&self.id)]. *)
Definition store_config (c : PeerConfig) : M unit :=
  st_modify (fun w =>
    mkW (lc w) (store (machine env) (nonces env 1%nat) (id (session (lc w))) c (files w)) (outs w)).

Definition save_config (c : PeerConfig) : M unit :=
  store_config c ;; modify_lc (set_config c).

Definition get_option (k : string) (l : Lc) : string := default "" (options (config l) !! k).

Definition set_option (k v : string) : M unit :=
  c ← load_config;
  l ← get_lc;
  if bool_decide (v = get_option k l) then mret tt
  else save_config (with_options (<[k := v]> (options c)) c).

(** The setters of one field load, assign and save. *)
Definition edit (f : PeerConfig -> PeerConfig) : M unit := c ← load_config; save_config (f c).
Definition edit_view (f : View -> View) : M unit := edit (fun c => with_view (f (view c)) c).

Definition save_view_style (value : string) : M unit :=
  edit_view (fun v => mkView (size v) (size_ft v) (size_pf v) value (scroll_style v)
    (edge_scroll_edge_thickness v) (reverse_mouse_wheel v) (displays_as_individual_windows v)
    (use_all_my_displays_for_the_remote_session v) (trackpad_speed v) (custom_resolutions v) (ui_flutter v)).
Definition save_keyboard_mode (value : string) : M unit := edit (with_keyboard_mode value).
Definition save_reverse_mouse_wheel (value : string) : M unit :=
  edit_view (fun v => mkView (size v) (size_ft v) (size_pf v) (view_style v) (scroll_style v)
    (edge_scroll_edge_thickness v) value (displays_as_individual_windows v)
    (use_all_my_displays_for_the_remote_session v) (trackpad_speed v) (custom_resolutions v) (ui_flutter v)).
Definition save_displays_as_individual_windows (value : string) : M unit :=
  edit_view (fun v => mkView (size v) (size_ft v) (size_pf v) (view_style v) (scroll_style v)
    (edge_scroll_edge_thickness v) (reverse_mouse_wheel v) value
    (use_all_my_displays_for_the_remote_session v) (trackpad_speed v) (custom_resolutions v) (ui_flutter v)).
Definition save_use_all_my_displays_for_the_remote_session (value : string) : M unit :=
  edit_view (fun v => mkView (size v) (size_ft v) (size_pf v) (view_style v) (scroll_style v)
    (edge_scroll_edge_thickness v) (reverse_mouse_wheel v) (displays_as_individual_windows v)
    value (trackpad_speed v) (custom_resolutions v) (ui_flutter v)).
Definition save_scroll_style (value : string) : M unit :=
  edit_view (fun v => mkView (size v) (size_ft v) (size_pf v) (view_style v) value
    (edge_scroll_edge_thickness v) (reverse_mouse_wheel v) (displays_as_individual_windows v)
    (use_all_my_displays_for_the_remote_session v) (trackpad_speed v) (custom_resolutions v) (ui_flutter v)).
Definition save_edge_scroll_edge_thickness (value : Z) : M unit :=
  edit_view (fun v => mkView (size v) (size_ft v) (size_pf v) (view_style v) (scroll_style v)
    value (reverse_mouse_wheel v) (displays_as_individual_windows v)
    (use_all_my_displays_for_the_remote_session v) (trackpad_speed v) (custom_resolutions v) (ui_flutter v)).
Definition save_trackpad_speed (speed : Z) : M unit :=
  edit_view (fun v => mkView (size v) (size_ft v) (size_pf v) (view_style v) (scroll_style v)
    (edge_scroll_edge_thickness v) (reverse_mouse_wheel v) (displays_as_individual_windows v)
    (use_all_my_displays_for_the_remote_session v) speed (custom_resolutions v) (ui_flutter v)).
Definition save_ui_flutter (k value : string) : M unit :=
  edit_view (fun v => mkView (size v) (size_ft v) (size_pf v) (view_style v) (scroll_style v)
    (edge_scroll_edge_thickness v) (reverse_mouse_wheel v) (displays_as_individual_windows v)
    (use_all_my_displays_for_the_remote_session v) (trackpad_speed v) (custom_resolutions v)
    (if bool_decide (value = "") then base.delete k (ui_flutter v) else <[k := value]> (ui_flutter v))).
Definition set_custom_resolution (display : Z) (wh : option (Z * Z)) : M unit :=
  edit_view (fun v => mkView (size v) (size_ft v) (size_pf v) (view_style v) (scroll_style v)
    (edge_scroll_edge_thickness v) (reverse_mouse_wheel v) (displays_as_individual_windows v)
    (use_all_my_displays_for_the_remote_session v) (trackpad_speed v)
    (match wh with
     | Some wh => <[pretty display := wh]> (custom_resolutions v)
     | None => base.delete (pretty display) (custom_resolutions v)
     end) (ui_flutter v)).
Definition set_direct_failure (value : Z) : M unit := edit (with_direct_failures value).

Definition get_ui_flutter (k : string) (l : Lc) : string := default "" (ui_flutter (view (config l)) !! k).
Definition get_custom_resolution (display : Z) (l : Lc) : option (Z * Z) :=
  custom_resolutions (view (config l)) !! pretty display.

(** ** Options that are told to the peer *)

Definition yes_no (b : bool) : Z := value (if b then Yes else No).

Definition flag_of (name : string) : option Toggle :=
  if bool_decide (name = "show-remote-cursor") then Some ShowRemoteCursor
  else if bool_decide (name = "lock-after-session-end") then Some LockAfterSessionEnd
  else if bool_decide (name = "terminal-persistent") then Some TerminalPersistent
  else if bool_decide (name = "privacy-mode") then Some PrivacyMode
  else if bool_decide (name = "enable-file-copy-paste") then Some EnableFileCopyPaste
  else if bool_decide (name = "disable-audio") then Some DisableAudio
  else if bool_decide (name = "disable-clipboard") then Some DisableClipboard
  else if bool_decide (name = "show-quality-monitor") then Some ShowQualityMonitor
  else if bool_decide (name = "allow_swap_key") then Some AllowSwapKey
  else if bool_decide (name = "view-only") then Some ViewOnly
  else if bool_decide (name = "show-my-cursor") then Some ShowMyCursor
  else if bool_decide (name = "follow-remote-cursor") then Some FollowRemoteCursor
  else if bool_decide (name = "follow-remote-window") then Some FollowRemoteWindow
  else None.

Definition get_toggle_option (name : string) (l : Lc) : bool :=
  match flag_of name with
  | Some t => flag t (config l)
  | None => negb (bool_decide (get_option name l = ""))
  end.

(** A message that sets one boolean option. *)
Definition bool_message (t : Toggle) (b : bool) : OptionMessage :=
  let v := yes_no b in
  match t with
  | ShowRemoteCursor => mkOption 0 0 v 0 0 0 0 0 0 None 0 0 0 0 0 0 0
  | FollowRemoteCursor => mkOption 0 0 0 0 0 0 0 0 0 None 0 0 v 0 0 0 0
  | FollowRemoteWindow => mkOption 0 0 0 0 0 0 0 0 0 None 0 0 0 v 0 0 0
  | DisableAudio => mkOption 0 0 0 0 0 0 v 0 0 None 0 0 0 0 0 0 0
  | DisableClipboard => mkOption 0 0 0 0 0 0 0 v 0 None 0 0 0 0 0 0 0
  | LockAfterSessionEnd => mkOption 0 v 0 0 0 0 0 0 0 None 0 0 0 0 0 0 0
  | TerminalPersistent => mkOption 0 0 0 0 0 0 0 0 0 None 0 0 0 0 0 v 0
  | EnableFileCopyPaste => mkOption 0 0 0 0 0 0 0 0 v None 0 0 0 0 0 0 0
  | ShowMyCursor => mkOption 0 0 0 0 0 0 0 0 0 None 0 0 0 0 0 0 v
  | PrivacyMode => mkOption 0 0 0 v 0 0 0 0 0 None 0 0 0 0 0 0 0
  | ShowQualityMonitor | AllowSwapKey | ViewOnly | SyncInitClipboard => option_default
  end.
Definition block_input_message (b : bool) : OptionMessage :=
  mkOption 0 0 0 0 (yes_no b) 0 0 0 0 None 0 0 0 0 0 0 0.

(** Entering and leaving the view-only mode; [c] is the configuration as it will be. *)
Definition view_only_message (l : Lc) (c : PeerConfig) : OptionMessage :=
  if flag ViewOnly c then
    mkOption 0 (yes_no false) (yes_no true) 0 0 0 0 (yes_no true) (yes_no false) None 0 (yes_no true) 0 0 0 0 0
  else
    mkOption 0 (yes_no (flag LockAfterSessionEnd (config l)))
      (yes_no (get_toggle_option "show-remote-cursor" l)) 0 0 0 0
      (yes_no (get_toggle_option "disable-clipboard" l))
      (yes_no (flag EnableFileCopyPaste (config l))) None 0 (yes_no false) 0 0 0 0
      (if flag ShowMyCursor c then yes_no false else 0).

Definition flip (t : Toggle) (c : PeerConfig) : PeerConfig := with_flag t (negb (flag t c)) c.

(** The configuration to save, when it is, and the message; [None] for the options that
    are texts. *)
Definition toggled (name : string) (l : Lc) (c : PeerConfig) : option (PeerConfig * OptionMessage) :=
  let simple t := let c := flip t c in Some (c, bool_message t (flag t c)) in
  if bool_decide (name = "show-remote-cursor") then simple ShowRemoteCursor
  else if bool_decide (name = "follow-remote-cursor") then simple FollowRemoteCursor
  else if bool_decide (name = "follow-remote-window") then simple FollowRemoteWindow
  else if bool_decide (name = "disable-audio") then simple DisableAudio
  else if bool_decide (name = "disable-clipboard") then simple DisableClipboard
  else if bool_decide (name = "lock-after-session-end") then simple LockAfterSessionEnd
  else if bool_decide (name = "terminal-persistent") then simple TerminalPersistent
  else if bool_decide (name = "privacy-mode") then
    Some (c, bool_message PrivacyMode (negb (flag PrivacyMode c)))
  else if bool_decide (name = "enable-file-copy-paste") then simple EnableFileCopyPaste
  else if bool_decide (name = "block-input") then Some (c, block_input_message true)
  else if bool_decide (name = "unblock-input") then Some (c, block_input_message false)
  else if bool_decide (name = "show-quality-monitor") then simple ShowQualityMonitor
  else if bool_decide (name = "allow_swap_key") then simple AllowSwapKey
  else if bool_decide (name = "view-only") then
    let c := flip ViewOnly c in
    Some (if negb (flag ViewOnly c) && flag ShowMyCursor c then with_flag ShowMyCursor false c else c,
          view_only_message l c)
  else if bool_decide (name = "show-my-cursor") then simple ShowMyCursor
  else None.

Definition toggle_option (name : string) : M (option Message) :=
  c ← load_config;
  l ← get_lc;
  match toggled name l c with
  | Some (c, o) =>
      when (negb (str_contains "block-input" name)) (save_config c) ;;
      mret (Some (MMisc (Some (MOption o))))
  | None =>
      let is_set := negb (bool_decide (get_option name l = "")) in
      let c := config l in
      let c := with_options (if is_set then base.delete name (options c)
                             else <[name := "Y"]> (options c)) c in
      modify_lc (set_config c) ;; store_config c ;; mret None
  end.

(** *** Image quality *)

Definition get_image_quality_enum (q : string) (ignore_default : bool) : option ImageQuality :=
  if bool_decide (q = "low") then Some Low
  else if bool_decide (q = "best") then Some Best
  else if bool_decide (q = "balanced") then if ignore_default then None else Some Balanced
  else None.

Definition shl8 (q : Z) : Z := swrap 32 (Z.shiftl q 8).

Definition option_message (o : OptionMessage) : Message := MMisc (Some (MOption o)).
Definition quality_message (q : ImageQuality) : OptionMessage :=
  mkOption (value q) 0 0 0 0 0 0 0 0 None 0 0 0 0 0 0 0.
Definition custom_quality_message (q : Z) : OptionMessage :=
  mkOption 0 0 0 0 0 (shl8 q) 0 0 0 None 0 0 0 0 0 0 0.
Definition fps_message (fps : Z) : OptionMessage :=
  mkOption 0 0 0 0 0 0 0 0 0 None fps 0 0 0 0 0 0.

Definition save_custom_image_quality (q : Z) : M Message :=
  c ← load_config;
  save_config (with_image_quality "custom" [q] c) ;;
  mret (option_message (custom_quality_message q)).

Definition save_image_quality (v : string) : M (option Message) :=
  let res := (fun q => option_message (quality_message q)) <$> get_image_quality_enum v false in
  c ← load_config;
  save_config (with_image_quality v (custom_image_quality c) c) ;;
  mret res.

Definition set_custom_fps (fps : Z) (save : bool) : M Message :=
  when save (c ← load_config; save_config (with_options (<["custom-fps" := pretty fps]> (options c)) c)) ;;
  modify_lc (set_fps (Some (wrap 64 fps))) ;;
  mret (option_message (fps_message fps)).

(** *** The options of a login *)

Definition get_supported_decoding (l : Lc) : raw :=
  supported_decodings env (id (session l)) (mark_unsupported l).

Definition quality_of_login (ignore_default : bool) : M (Z * Z * Z) :=
  l ← get_lc;
  let q := image_quality (config l) in
  match get_image_quality_enum q ignore_default with
  | Some e => mret (value e, 0, 0)
  | None =>
      if bool_decide (q = "custom") then
        c ← load_config;
        let allow_more := negb (using_public_server env) || bool_decide (direct l = Some true) in
        let quality :=
          match custom_image_quality c with
          | [] => 50
          | q :: _ => if negb allow_more && (100 <? q) then 50 else q
          end in
        match options (config l) !! "custom-fps" with
        | Some f =>
            let f := default 30 (parse_int 32 f) in
            let f := if negb allow_more && (30 <? f) then 30 else f in
            modify_lc (set_fps (Some (wrap 64 f))) ;;
            mret (0, shl8 quality, f)
        | None => mret (0, shl8 quality, 0)
        end
      else mret (0, 0, 0)
  end.

Definition get_option_message (ignore_default : bool) : M (option OptionMessage) :=
  l ← get_lc;
  let tog name := get_toggle_option name l in
  let yes_if (b : bool) := if b then yes_no true else 0 in
  match conn_type (session l) with
  | PORT_FORWARD | RDP | FILE_TRANSFER => mret None
  | TERMINAL =>
      mret (if tog "terminal-persistent" then Some (bool_message TerminalPersistent true) else None)
  | DEFAULT_CONN | VIEW_CAMERA =>
      '(q, custom, fps) ← quality_of_login ignore_default;
      let view_only := tog "view-only" in
      mret (Some (mkOption q
        (yes_if (negb view_only && tog "lock-after-session-end"))
        (yes_if (view_only || tog "show-remote-cursor")) 0 0 custom
        (yes_if (tog "disable-audio"))
        (yes_if (view_only || tog "disable-clipboard"))
        (yes_if (negb view_only && tog "enable-file-copy-paste"))
        (Some (get_supported_decoding l)) fps
        (yes_if view_only)
        (yes_if (tog "follow-remote-cursor")) (yes_if (tog "follow-remote-window")) 0 0
        (yes_if (view_only && tog "show-my-cursor"))))
  end.

Definition update_supported_decodings (l : Lc) : Message :=
  option_message (mkOption 0 0 0 0 0 0 0 0 0 (Some (get_supported_decoding l)) 0 0 0 0 0 0 0).
End Handler.
