(* ===== verification/ClientLogin.v ===== *)
(** * Logging in, on the controlling side (src/client.rs)

    The controlled side opens with the salt of its password and a challenge ([handle_hash]);
    the client answers with a password it knows or asks its user ([handle_login_from_ui]).
    When the peer has let it in ([handle_peer_info]) the password is remembered, or not.

    A password is kept as its hash with the salt of the peer, and sent as the hash of that
    with the challenge. *)

From Stdlib Require Import Ascii.
From stdpp Require Import gmap pretty.
From S2P Require Import Prelude TermBuffer Nacl Options Passwords Messages PeerConfig LoginConfig.

Definition PUBLIC_SERVER : string := "public".
Definition RS_PUB_KEY : string := "OeVuKk5nlHiXp+APNn0Y3pC1Iwpwn44JGqrQCsWqmBw=".

(** [crate::ui_interface::handle_relay_id]. *)
Definition drop_end (n : nat) (s : string) : string := String.substring 0 (String.length s - n) s.
Definition ends_with (suffix s : string) : bool :=
  (String.length suffix <=? String.length s)%nat
  && bool_decide (String.substring (String.length s - String.length suffix) (String.length suffix) s = suffix).
Definition handle_relay_id (id : string) : string :=
  if ends_with "\r" id || ends_with "/r" id then drop_end 2 id else id.

Definition to_lower (a : ascii) : ascii :=
  let n := N_of_ascii a in if (65 <=? n)%N && (n <=? 90)%N then ascii_of_N (n + 32) else a.
(** [to_lowercase], of a text in ASCII. *)
Definition lowercase (s : string) : string :=
  String.string_of_list_ascii (to_lower <$> String.list_ascii_of_string s).

(** The text before the first [c], and after it. *)
Fixpoint find_char (c : ascii) (s : string) : option (string * string) :=
  match s with
  | EmptyString => None
  | String a s => if Ascii.eqb a c then Some ("", s)
                  else match find_char c s with Some (x, y) => Some (String a x, y) | None => None end
  end.

Definition args_map (args : string) : gmap string string :=
  fold_left (fun m arg =>
      match find_char "="%char arg with Some (k, v) => <[lowercase k := v]> m | None => m end)
    (split_on "&"%char args) ∅.

Definition nth_or_empty (n : nat) (l : list string) : string := default "" (l !! n).

(** The part of an id that names a server: the peer's own id, the server and its key. *)
Definition parse_other_server (id : string) : string * string * string :=
  let v := split_on "@"%char id in
  let server_key := split_on "?"%char (nth_or_empty 1 v) in
  let server := nth_or_empty 0 server_key in
  let args := nth_or_empty 1 server_key in
  let key := if bool_decide (server = PUBLIC_SERVER) then RS_PUB_KEY
             else default "" (args_map args !! "key") in
  (nth_or_empty 0 v, server, key).

Section Login.
Context `{Crypto} (env : Env).
Abbreviation M := (ST Empty_set W).

(** ** A session begins *)

(** The id that is connected to, the relay flag and the other server. *)
Definition parse_id (id : string) (force_relay : bool)
  : string * bool * option (string * string * string) :=
  if str_contains "@" id then
    let '(raw_id, server, key) := parse_other_server id in
    let real_id := handle_relay_id raw_id in
    (real_id +:+ "@" +:+ server, force_relay || negb (bool_decide (real_id = raw_id)),
     Some (real_id, server, key))
  else
    let real_id := handle_relay_id id in
    (real_id, force_relay || negb (bool_decide (real_id = id)), None).

Definition initialize (id : string) (t : ConnType) (uuid : option string) (force_relay : bool)
    (shared : option text) (token : option ConnToken) : M unit :=
  let '(id, force_relay, other) := parse_id id force_relay in
  l ← get_lc;
  let other := match other with Some o => Some o | None => other_server (session l) end in
  modify_lc (set_session (mkSession id t (is_terminal_admin (session l)) (session_id (session l))
                            (LoginConfig.force_relay (session l)) other)) ;;
  c ← load_config env;
  modify_lc (set_remember (negb (bool_decide (password c = [])))) ;;
  modify_lc (set_config c) ;;
  match token with
  | Some k => modify_lc (set_password (token_password k)) ;; modify_lc (set_source (token_source k))
  | None => mret tt
  end ;;
  let sid := match token with Some k => token_session_id k | None => 0 end in
  let sid := if sid =? 0 then random_session_id env else sid in
  let sid := if sid =? 0 then 1 else sid in
  modify_lc (set_restarting (false, None)) ;;
  l ← get_lc;
  let relay := option2bool "force-always-relay" (get_option "force-always-relay" l)
               || force_relay || by_proxy env in
  let other :=
    match other with
    | Some (real_id, server, key) =>
        let k := get_option "other-server-key" l in
        if negb (bool_decide (k = "")) && bool_decide (key = "") then Some (real_id, server, k)
        else Some (real_id, server, key)
    | None => None
    end in
  modify_lc (fun l => set_direct None (set_switch uuid false (set_shared shared l))) ;;
  modify_lc (set_session (mkSession id t (bool_decide (t = TERMINAL) && terminal_admin env) sid relay other)).

(** [is_force_relay] is read when the connection is made. *)
Definition get_conn_token (l : Lc) : option ConnToken :=
  if is_empty (last_password l) then None
  else Some (mkToken (last_password l) (password_source l) (session_id (session l))).

Definition consume_switch_back_permission : M bool :=
  l ← get_lc;
  if switch_back_allowed l then modify_lc (set_switch (switch_uuid l) false) ;; mret true
  else mret false.

Definition should_auto_login (l : Lc) : string :=
  let a := negb (bool_decide (get_option "auto-login" l = "")) in
  let p := get_option "os-password" l in
  if negb (bool_decide (p = "")) && flag LockAfterSessionEnd (config l) && a then p else "".

(** *** A restart of the peer *)

Definition RESTART_REMOTE_DEVICE_GRACE : Z := 5 * 60 * 1000000.

Definition mark_restarting_remote_device : M unit := modify_lc (set_restarting (true, Some (now env))).
Definition is_restarting_remote_device (l : Lc) : bool :=
  if negb (fst (restarting l)) then false
  else match snd (restarting l) with
       | Some t => Z.max 0 (now env - t) <? RESTART_REMOTE_DEVICE_GRACE
       | None => false
       end.

(** ** The request *)

Definition get_remote_dir (l : Lc) : string :=
  default "" (remote_dirs env (get_option "remote_dir" l) !! info_username (info (config l))).

Definition get_key_terminal_service_id (l : Lc) : string :=
  if is_terminal_admin (session l) then "terminal-admin-service-id" else "terminal-service-id".

Definition login_union_of (l : Lc) : option LoginUnion :=
  match conn_type (session l) with
  | FILE_TRANSFER =>
      Some (LFileTransfer (get_remote_dir l) (negb (bool_decide (get_option "remote_show_hidden" l = ""))))
  | VIEW_CAMERA => Some LViewCamera
  | PORT_FORWARD | RDP => Some (LPortForward (port_forward l).1 (port_forward l).2)
  | TERMINAL => Some (LTerminal (get_option (get_key_terminal_service_id l) l))
  | DEFAULT_CONN => None
  end.

Definition create_login_msg (os_username os_password : string) (password : list byte) : M LoginRequest :=
  l ← get_lc;
  let '(my_id, pure_id) :=
    match other_server (session l) with
    | Some (id, _, _) => (get_my_id env +:+ "@" +:+ rendezvous_server env, id)
    | None => (get_my_id env, id (session l))
    end in
  let hwid := if bool_decide (get_option "trust-this-device" l = "Y") then get_hwid env else [] in
  option ← get_option_message env true;
  mret (mkLogin pure_id password my_id (my_name env) option (login_union_of l) false
          (session_id (session l)) (my_version env) os_username os_password (my_platform env) hwid).

Definition send_login (os_username os_password : string) (password : list byte) : M unit :=
  lr ← create_login_msg os_username os_password password;
  emit (Peer (MLoginRequest lr)).

(** ** The challenge *)

(** The hash of a password, as it is kept. *)
Definition hash_of (password : text) (h : HashMsg) : list byte := sha256 (password ++ hash_salt h).

Definition is_personal_ab (s : PasswordSource) (p : list byte) : bool :=
  if is_empty p then false
  else match s with PersonalAb q => bool_decide (q = p) | _ => false end.
Definition is_shared_ab (s : PasswordSource) (p : list byte) (h : HashMsg) : bool :=
  if is_empty p then false
  else match s with SharedAb q => bool_decide (p = hash_of q h) | _ => false end.

(** A valid [switch_uuid] that this program itself has issued. *)
Definition try_switch (parse_uuid : string -> option raw) : M bool :=
  l ← get_lc;
  modify_lc (set_switch None (switch_back_allowed l)) ;;
  match switch_uuid l with
  | None => mret false
  | Some text =>
      match parse_uuid text with
      | None => mret false
      | Some uuid =>
          if consume_switch_uuid env (id (session l)) text then
            l ← get_lc;
            modify_lc (set_switch (switch_uuid l) true) ;;
            lr ← create_login_msg "" "" [];
            emit (Peer (SwitchSidesResponse uuid (Some lr))) ;;
            modify_lc (set_source Undefined) ;;
            mret true
          else mret false
      end
  end.

(** The password to try, in the order of the code. *)
Definition preset_password (preset : text) (h : HashMsg) (p : list byte) : M (list byte) :=
  if is_empty p && negb (is_empty preset) then
    modify_lc (set_source Undefined) ;; mret (hash_of preset h)
  else mret p.

Definition shared_password_of_card (h : HashMsg) (p : list byte) : M (list byte) :=
  l ← get_lc;
  modify_lc (set_shared None) ;;
  match shared_password l with
  | Some s =>
      if negb (is_empty s) then modify_lc (set_source (SharedAb s)) ;; mret (hash_of s h) else mret p
  | None => mret p
  end.

Definition remembered_password (p : list byte) : M (list byte) :=
  if is_empty p then
    l ← get_lc;
    let p := password (config l) in
    when (negb (is_empty p)) (modify_lc (set_source Undefined)) ;;
    mret p
  else mret p.

Definition personal_ab_password (p : list byte) : M (list byte) :=
  if is_empty p then
    l ← get_lc;
    match personal_ab env with
    | Some ab =>
        match ab (id (session l)) with
        | Some q => if negb (is_empty q) then modify_lc (set_source (PersonalAb q)) ;; mret q else mret p
        | None => mret p
        end
    | None => mret p
    end
  else mret p.

Definition default_password (h : HashMsg) (p : list byte) : M (list byte) :=
  if is_empty p then
    let d := String.list_byte_of_string (get_builtin_option env "default-connect-password") in
    if negb (is_empty d) then modify_lc (set_source (SharedAb d)) ;; mret (hash_of d h) else mret p
  else mret p.

Definition password_to_try (preset : text) (h : HashMsg) : M (list byte) :=
  l ← get_lc;
  p ← preset_password preset h (last_password l);
  p ← shared_password_of_card h p;
  p ← remembered_password p;
  p ← personal_ab_password p;
  default_password h p.

Definition handle_hash (parse_uuid : string -> option raw) (preset : text) (h : HashMsg) : M unit :=
  modify_lc (set_hash h) ;;
  switched ← try_switch parse_uuid;
  if (switched : bool) then mret tt
  else
    p ← password_to_try preset h;
    modify_lc (set_password p) ;;
    l ← get_lc;
    if bool_decide (conn_type (session l) = TERMINAL) && is_terminal_admin (session l) then
      (if is_empty p then emit (MsgBox "terminal-admin-login-password" "" "" "")
       else emit (MsgBox "terminal-admin-login" "" "" "")) ;;
      modify_lc (set_hash h)
    else
      answer ← (if is_empty p then
                  emit (MsgBox "input-password" "Password Required" "" "") ;; mret []
                else mret (sha256 (p ++ hash_challenge h)));
      l ← get_lc;
      (if bool_decide (conn_type (session l) = TERMINAL) then send_login "" "" answer
       else send_login (get_option "os-username" l) (get_option "os-password" l) answer) ;;
      modify_lc (set_hash h).

(** What the user typed. *)
Definition handle_login_from_ui (os_username os_password : string) (typed : text) (rem : bool) : M unit :=
  p ← (if is_empty typed then
         l ← get_lc;
         if is_empty (last_password l) then
           let p := password (config l) in
           when (negb (is_empty p)) (modify_lc (set_source Undefined)) ;; mret p
         else mret (last_password l)
       else
         modify_lc (set_source Undefined) ;;
         l ← get_lc;
         modify_lc (set_remember rem) ;;
         mret (hash_of typed (hash l)));
  modify_lc (set_password p) ;;
  l ← get_lc;
  send_login os_username os_password (sha256 (p ++ hash_challenge (hash l))).

(** ** Refused *)

Definition LOGIN_ERROR_MAP : list (string * (string * string * string * string * bool)) :=
  [("Wayland login screen is not supported",
    ("error", "Login Error", "Login screen using Wayland is not supported",
     "https://rustdesk.com/docs/en/manual/linux/#login-screen", true));
   ("Desktop session not ready", ("session-login", "", "", "", true));
   ("Desktop xsession failed", ("session-re-login", "", "", "", true));
   ("Desktop session another user login",
    ("info-nocancel", "another_user_login_title_tip", "another_user_login_text_tip", "", false));
   ("Desktop xorg not found",
    ("info-nocancel", "xorg_not_found_title_tip", "xorg_not_found_text_tip",
     "https://github.com/rustdesk/rustdesk/wiki/Headless-Linux-Support", true));
   ("Desktop none",
    ("info-nocancel", "no_desktop_title_tip", "no_desktop_text_tip",
     "https://github.com/rustdesk/rustdesk/wiki/Headless-Linux-Support", true));
   ("Desktop session not ready, password empty", ("session-login-password", "", "", "", true));
   ("Desktop session not ready, password wrong", ("session-login-re-password", "", "", "", true));
   ("No Password Access",
    ("wait-remote-accept-nook", "Prompt",
     "Please wait for the remote side to accept your session request...", "", true))].

Definition handle_login_error (err : string) : M bool :=
  if bool_decide (err = "Empty Password") then
    modify_lc (set_password []) ;; emit (MsgBox "input-password" "Password Required" "" "") ;; mret true
  else if bool_decide (err = "Wrong Password") then
    modify_lc (set_password []) ;;
    emit (MsgBox "re-input-password" err "Do you want to enter again?" "") ;; mret true
  else if bool_decide (err = "Wrong 2FA Code") || bool_decide (err = "2FA Required") then
    l ← get_lc;
    when (bool_decide (get_option "trust-this-device" l = "Y")) (set_option env "trust-this-device" "") ;;
    emit (MsgBox "input-2fa" err "" "") ;; mret true
  else match List.find (fun e => bool_decide (e.1 = err)) LOGIN_ERROR_MAP with
  | Some (_, (msgtype, title, text, link, try_again)) => emit (MsgBox msgtype title text link) ;; mret try_again
  | None =>
      emit (MsgBox "error" "Login Error" err
              (if str_contains "x11 expected" err
               then "https://rustdesk.com/docs/en/manual/linux/#x11-required" else "")) ;;
      mret false
  end.

(** ** Let in *)

(** The peer's answer, as far as it is kept. *)
Record PeerInfo : Type := mkPeerInfo {
  pi_version : string;
  pi_features : option bool;
  pi_info : PeerInfoSerde }.

Inductive KeyboardMode : Type := Legacy | Map | Translate | Auto.
#[local] Instance KeyboardMode_eq_dec : EqDecision KeyboardMode.
Proof. solve_decision. Defined.
Definition mode_name (k : KeyboardMode) : string :=
  match k with Legacy => "legacy" | Map => "map" | Translate => "translate" | Auto => "auto" end.
Definition mode_of (s : string) : option KeyboardMode :=
  List.find (fun k => bool_decide (mode_name k = s)) [Legacy; Map; Translate; Auto].

Definition is_keyboard_mode_supported (k : KeyboardMode) (version : Z) (platform : string) : bool :=
  match k with
  | Legacy => true
  | Map => if bool_decide (lowercase platform = "android") then false
           else get_version_number "1.2.0" <=? version
  | Translate | Auto => get_version_number "1.2.0" <=? version
  end.
Definition get_supported_keyboard_modes (version : Z) (platform : string) : list KeyboardMode :=
  filter (fun k => Is_true (is_keyboard_mode_supported k version platform)) [Legacy; Map; Translate; Auto].

Definition keyboard_mode_for (pi : PeerInfo) (current : string) : string :=
  let v := get_version_number (pi_version pi) in
  let platform := info_platform (pi_info pi) in
  if bool_decide (current = "") then
    mode_name (if is_keyboard_mode_supported Map v platform then Map else Legacy)
  else if bool_decide (default Legacy (mode_of current) ∈ get_supported_keyboard_modes v platform)
  then current else mode_name Legacy.

(** The password that the file of the peer is given. *)
Definition password_to_keep (l : Lc) (old : list byte) : list byte :=
  let p := last_password l in
  if remember l then
    if negb (is_empty p) && negb (bool_decide (p = old))
       && negb (is_shared_ab (password_source l) p (hash l)) then p else old
  else if is_personal_ab (password_source l) p then p
  else if negb (is_empty old) then [] else old.

Definition handle_peer_info (pi : PeerInfo) : M unit :=
  l ← get_lc;
  modify_lc (set_peer (if bool_decide (pi_version pi = "") then peer_version l
                       else get_version_number (pi_version pi)) (pi_features pi)) ;;
  c ← load_config env;
  l ← get_lc;
  let c := with_info (pi_info pi) c in
  let c := with_password (password_to_keep l (password c)) c in
  let c := match other_server (session l) with
           | Some (_, server, key) =>
               if bool_decide (server = PUBLIC_SERVER) then c
               else with_options (<["other-server-key" := key]> (options c)) c
           | None => c
           end in
  let c := if force_relay (session l)
           then with_options (<["force-always-relay" := "Y"]> (options c)) c else c in
  when (negb (is_empty (password c))
        && negb (is_shared_ab (password_source l) (last_password l) (hash l))
        && negb (is_personal_ab (password_source l) (last_password l)))
    (emit (SyncToPersonalAb (id (session l)) (password c))) ;;
  save_config env (with_keyboard_mode (keyboard_mode_for pi (keyboard_mode c)) c).
End Login.

(** ** What the handlers keep *)

Section Facts.
Context `{CryptoLaws}.

(** The peer's configuration, in memory and in its file. *)
Definition holds (env : Env) (c : PeerConfig) (w : W) : Prop :=
  config (lc w) = c /\ settled (user_default env) (default_quality env) (machine env) (id (session (lc w))) c (files w).

Lemma load_config_run env c w :
  settled (user_default env) (default_quality env) (machine env) (id (session (lc w))) c (files w) ->
  load_config env w = (Ok c, w).
Proof. intros Hs. unfold load_config. rewrite st_bind_run. cbn [st_get]. rewrite Hs. by destruct w. Qed.

(** Making the options of a login may set the frame rate that the user asks for. *)
Lemma quality_of_login_run env ig w :
  settled (user_default env) (default_quality env) (machine env) (id (session (lc w))) (config (lc w)) (files w) ->
  exists q fps, quality_of_login env ig w = (Ok q, mkW (set_fps fps (lc w)) (files w) (outs w)).
Proof.
  intros Hs. unfold quality_of_login. rewrite st_bind_run. cbn [get_lc].
  assert (Hid : w = mkW (set_fps (custom_fps (lc w)) (lc w)) (files w) (outs w)) by by destruct w as [[]].
  change (get_lc w) with (Ok (E := Empty_set) (lc w), w). cbv beta iota.
  destruct (get_image_quality_enum _ _); [eexists _, _; by rewrite <- Hid|].
  destruct (bool_decide _); [|eexists _, _; by rewrite <- Hid].
  rewrite st_bind_run, (load_config_run _ _ _ Hs).
  destruct (options (config (lc w)) !! "custom-fps"); [by eexists _, _|].
  eexists _, _. by rewrite <- Hid.
Qed.

Lemma get_option_message_run env ig w :
  settled (user_default env) (default_quality env) (machine env) (id (session (lc w))) (config (lc w)) (files w) ->
  exists o fps, get_option_message env ig w = (Ok o, mkW (set_fps fps (lc w)) (files w) (outs w)).
Proof.
  intros Hs. assert (Hid : w = mkW (set_fps (custom_fps (lc w)) (lc w)) (files w) (outs w)) by by destruct w as [[]].
  unfold get_option_message. rewrite st_bind_run.
  change (get_lc w) with (Ok (E := Empty_set) (lc w), w). cbv beta iota zeta.
  destruct (conn_type (session (lc w))); try (eexists _, _; by rewrite <- Hid);
    destruct (quality_of_login_run env ig w Hs) as ([[q cu] f] & fps & E);
    rewrite st_bind_run, E; by eexists _, _.
Qed.

(** What a login is sent with. *)
Lemma create_login_msg_run env u o p w :
  settled (user_default env) (default_quality env) (machine env) (id (session (lc w))) (config (lc w)) (files w) ->
  exists lr fps, create_login_msg env u o p w = (Ok lr, mkW (set_fps fps (lc w)) (files w) (outs w)) /\
    Messages.password lr = p /\ login_union lr = login_union_of env (lc w).
Proof.
  intros Hs. unfold create_login_msg. rewrite st_bind_run.
  change (get_lc w) with (Ok (E := Empty_set) (lc w), w). cbv beta iota.
  destruct (match other_server _ with Some (i, _, _) => _ | None => _ end) as [my_id pure_id].
  destruct (get_option_message_run env true w Hs) as (om & fps & E).
  rewrite st_bind_run, E. by eexists _, _.
Qed.

Lemma send_login_run env u o p w :
  settled (user_default env) (default_quality env) (machine env) (id (session (lc w))) (config (lc w)) (files w) ->
  exists lr fps, send_login env u o p w
    = (Ok tt, mkW (set_fps fps (lc w)) (files w) (outs w ++ [Peer (MLoginRequest lr)])) /\
    Messages.password lr = p /\ login_union lr = login_union_of env (lc w).
Proof.
  intros Hs. destruct (create_login_msg_run env u o p w Hs) as (lr & fps & E & Hp).
  exists lr, fps. split; [|done]. unfold send_login. by rewrite st_bind_run, E.
Qed.

Definition ready (env : Env) (w : W) : Prop := holds env (config (lc w)) w.

Lemma hash_of_nonempty p h : is_empty (hash_of p h) = false.
Proof. apply is_empty_false. intros E. pose proof (sha256_len (p ++ hash_salt h)) as Hl. unfold hash_of in E. by rewrite E in Hl. Qed.

(** A typed password is kept, hashed, and sent as the answer to the challenge. *)
Lemma typed_run env u o typed rem w :
  ready env w -> typed <> [] ->
  exists lr fps, handle_login_from_ui env u o typed rem w
    = (Ok tt, mkW (set_fps fps (set_password (hash_of typed (hash (lc w)))
                                  (set_remember rem (set_source Undefined (lc w))))) (files w)
                  (outs w ++ [Peer (MLoginRequest lr)])) /\
    Messages.password lr = client_reply (hash (lc w)) typed.
Proof.
  intros [_ Hs] Ht. unfold handle_login_from_ui. apply is_empty_false in Ht. rewrite Ht.
  destruct (send_login_run env u o (sha256 (hash_of typed (hash (lc w)) ++ hash_challenge (hash (lc w))))
      (mkW (set_password (hash_of typed (hash (lc w))) (set_remember rem (set_source Undefined (lc w)))) (files w) (outs w)) Hs)
    as (lr & fps & E & Hp & _).
  exists lr, fps. split; [exact E|exact Hp].
Qed.

(** The configuration that a peer leaves behind. *)
Definition kept_config (l : Lc) (pi : PeerInfo) (c : PeerConfig) : PeerConfig :=
  let c := with_info (pi_info pi) c in
  let c := with_password (password_to_keep l (password c)) c in
  let c := match other_server (session l) with
           | Some (_, server, key) =>
               if bool_decide (server = PUBLIC_SERVER) then c
               else with_options (<["other-server-key" := key]> (options c)) c
           | None => c
           end in
  let c := if force_relay (session l)
           then with_options (<["force-always-relay" := "Y"]> (options c)) c else c in
  with_keyboard_mode (keyboard_mode_for pi (keyboard_mode c)) c.

Lemma kept_password l pi c : password (kept_config l pi c) = password_to_keep l (password c).
Proof.
  unfold kept_config. destruct (other_server (session l)) as [[[? ?] ?]|], (force_relay (session l));
    try case_bool_decide; done.
Qed.

Lemma good_kept ud dq l pi c :
  good_config ud dq c ->
  len (password_to_keep l (password c)) <= ENCRYPT_MAX_LEN ->
  is_encrypted (password_to_keep l (password c)) = false ->
  good_config ud dq (kept_config l pi c).
Proof.
  intros [Hf _ Hs] Hl He. split.
  - destruct c. unfold read_fields in *. cbn in Hf. injection Hf as H1 H2 H3.
    unfold kept_config. destruct (other_server (session l)) as [[[? ?] ?]|], (force_relay (session l));
      try case_bool_decide; cbn; by rewrite ?H1, ?H2, ?H3.
  - by rewrite kept_password.
  - intros k n Hk v Hv. apply (Hs k n Hk v). revert Hv. unfold kept_config.
    assert (k <> "other-server-key" /\ k <> "force-always-relay") as [Hk1 Hk2].
    { unfold secret_options in Hk. repeat (apply elem_of_cons in Hk as [[= -> _]|Hk]; [by split|]).
      by apply elem_of_nil in Hk. }
    destruct (other_server (session l)) as [[[? ?] ?]|], (force_relay (session l));
      try case_bool_decide; cbn; rewrite ?lookup_insert_ne by done; done.
Qed.

Lemma peer_info_run env pi w :
  ready env w ->
  exists w' v f, handle_peer_info env pi w = (Ok tt, w') /\
    lc w' = set_config (kept_config (lc w) pi (config (lc w))) (set_peer v f (lc w)) /\
    files w' = store (machine env) (nonces env 1%nat) (id (session (lc w)))
                 (kept_config (lc w) pi (config (lc w))) (files w).
Proof.
  intros [_ Hs]. unfold handle_peer_info. rewrite st_bind_run. change (get_lc w) with (Ok (E := Empty_set) (lc w), w).
  cbv beta iota. rewrite st_bind_run. cbn [modify_lc st_modify]. cbv beta iota.
  rewrite st_bind_run.
  set (w1 := mkW (set_peer _ _ (lc w)) (files w) (outs w)).
  rewrite (load_config_run env (config (lc w)) w1) by exact Hs.
  rewrite st_bind_run. change (get_lc w1) with (Ok (E := Empty_set) (lc w1), w1). cbv beta iota.
  rewrite st_bind_run. unfold when.
  destruct (_ && negb (is_personal_ab _ _)); (eexists _, _, _; split; [reflexivity|]; split; reflexivity).
Qed.
End Facts.
