(* ===== verification/ClientPasswords.v ===== *)
(** * Which passwords are tried, and which are kept (src/client.rs)

    Theorems about [ClientLogin]: which password answers a challenge, that a remembered
    password opens the next session, and that a shared one is not kept. *)

From stdpp Require Import gmap.
From S2P Require Import Prelude TermBuffer Nacl Options Passwords Messages PeerConfig LoginConfig ClientLogin.

Section Facts.
Context `{CryptoLaws}.

(** The passwords that a client may try, the preferred first, with where they come from. *)
Definition if_any (p : list byte) (x : PasswordSource) : list (list byte * PasswordSource) :=
  if is_empty p then [] else [(p, x)].
Definition candidates (env : Env) (l : Lc) (preset : text) (h : HashMsg) : list (list byte * PasswordSource) :=
  match shared_password l with
  | Some s => if is_empty s then [] else [(hash_of s h, SharedAb s)]
  | None => []
  end
  ++ if_any (last_password l) (password_source l)
  ++ (if is_empty preset then [] else [(hash_of preset h, Undefined)])
  ++ if_any (password (config l)) Undefined
  ++ match personal_ab env with
     | Some ab => match ab (id (session l)) with Some q => if_any q (PersonalAb q) | None => [] end
     | None => []
     end
  ++ (let d := String.list_byte_of_string (get_builtin_option env "default-connect-password") in
      if is_empty d then [] else [(hash_of d h, SharedAb d)]).

Definition chosen (env : Env) (l : Lc) (preset : text) (h : HashMsg) : list byte * PasswordSource :=
  default ([], password_source l) (head (candidates env l preset h)).

Lemma password_to_try_run env preset h w :
  password_to_try env preset h w
  = (Ok (chosen env (lc w) preset h).1,
     mkW (set_shared None (set_source (chosen env (lc w) preset h).2 (lc w))) (files w) (outs w)).
Proof.
  unfold chosen, candidates, if_any, password_to_try, preset_password, shared_password_of_card,
    remembered_password, personal_ab_password, default_password, when.
  destruct w as [[? ? lp ? cf ? ? ? ? ? ? ? src sh ? ?] f o]. destruct cf as [cp ? ? ? ? ? ? ? ? ? ?].
  destruct lp as [|x lp], preset as [|y preset], sh as [[|z sh]|], cp as [|v cp]; run_in;
    cbn -[String.list_byte_of_string hash_of]; rewrite ?hash_of_nonempty; try reflexivity.
  all: destruct (personal_ab env) as [ab|];
    [lazymatch goal with |- context [ab ?i] => destruct (ab i) as [[|q ab']|] end|];
    cbn -[String.list_byte_of_string hash_of]; try reflexivity;
    destruct (is_empty (String.list_byte_of_string _)); reflexivity.
Qed.

Lemma initialize_run env i t uuid fr shared token c w :
  settled (user_default env) (default_quality env) (machine env) (parse_id i fr).1.1 c (files w) ->
  exists l, initialize env i t uuid fr shared token w = (Ok tt, mkW l (files w) (outs w)) /\
    config l = c /\ LoginConfig.id (LoginConfig.session l) = (parse_id i fr).1.1 /\
    conn_type (LoginConfig.session l) = t /\
    is_terminal_admin (LoginConfig.session l) = bool_decide (t = TERMINAL) && terminal_admin env /\
    remember l = negb (bool_decide (password c = [])) /\
    last_password l = match token with Some k => token_password k | None => last_password (lc w) end /\
    password_source l = match token with Some k => token_source k | None => password_source (lc w) end /\
    shared_password l = shared /\ switch_uuid l = uuid.
Proof.
  intros Hs. unfold initialize. destruct (parse_id i fr) as [[j relay] other]. cbn [fst snd] in *.
  rewrite st_bind_run. change (get_lc w) with (Ok (E := Empty_set) (lc w), w). cbv beta iota zeta.
  rewrite st_bind_run. cbn [modify_lc st_modify]. cbv beta iota. rewrite st_bind_run.
  match goal with |- context [load_config env ?w1] => rewrite (load_config_run env c w1 Hs) end.
  destruct token as [[tp ts ti]|]; run_in; eexists; (split; [reflexivity|]); by cbn.
Qed.

(** The answer to the challenge, when no other program is switching sides and the user has
    not to be asked for the credentials of a terminal. *)
Lemma handle_hash_run env parse preset h w :
  ready env w -> switch_uuid (lc w) = None ->
  is_terminal_admin (LoginConfig.session (lc w)) = false ->
  let p := (chosen env (lc w) preset h).1 in
  exists lr w', handle_hash env parse preset h w = (Ok tt, w') /\
    outs w' = outs w ++ (if is_empty p then [MsgBox "input-password" "Password Required" "" ""] else [])
                     ++ [Peer (MLoginRequest lr)] /\
    Messages.password lr = (if is_empty p then [] else sha256 (p ++ hash_challenge h)) /\
    last_password (lc w') = p /\ password_source (lc w') = (chosen env (lc w) preset h).2 /\
    hash (lc w') = h /\ config (lc w') = config (lc w) /\ files w' = files w /\
    LoginConfig.session (lc w') = LoginConfig.session (lc w) /\ remember (lc w') = remember (lc w) /\
    switch_uuid (lc w') = None /\ shared_password (lc w') = None.
Proof.
  intros [_ Hs] Hu Ha p. unfold handle_hash, try_switch. run_in.
  cbn [switch_uuid set_hash]. rewrite Hu, password_to_try_run.
  change (chosen env (lc _) preset h) with (chosen env (lc w) preset h). fold p.
  cbn [lc files outs LoginConfig.session set_password set_shared set_source set_switch set_hash].
  rewrite Ha, andb_false_r.
  destruct (is_empty p); cbn [lc files outs];
    (case_bool_decide;
     lazymatch goal with |- context [send_login env ?u ?o ?q ?v] =>
       destruct (send_login_run env u o q v Hs) as (lr & fps & E & Hp & _); rewrite E end;
     eexists lr, _; (split; [reflexivity|]); cbn; rewrite <- ?app_assoc; by split_and!).
Qed.

(** One session in which the user types the password, and the next one, of a new handler. *)
Definition first_session (env : Env) (typed : text) (rem : bool) (pi : PeerInfo) (w : W) : W :=
  (handle_peer_info env pi (handle_login_from_ui env "" "" typed rem w).2).2.
Definition next_session (env : Env) (parse : string -> option raw) (i : string) (t : ConnType) (fr : bool)
    (h : HashMsg) (l : Lc) (f : Files) : W :=
  (handle_hash env parse [] h (initialize env i t None fr None None (mkW l f [])).2).2.

Lemma first_session_keeps env typed rem pi w :
  (forall k n, len (nonces env k n) = NONCEBYTES) ->
  ready env w -> good_config (user_default env) (default_quality env) (config (lc w)) ->
  typed <> [] -> is_encrypted (hash_of typed (hash (lc w))) = false ->
  exists c, settled (user_default env) (default_quality env) (machine env) (id (LoginConfig.session (lc w))) c
              (files (first_session env typed rem pi w)) /\
    password c = (if rem then hash_of typed (hash (lc w)) else []).
Proof.
  intros Hn Hr Hg Ht He. unfold first_session.
  destruct (typed_run env "" "" typed rem w Hr Ht) as (lr & fps & E & _). rewrite E. cbn [snd].
  match goal with |- context [handle_peer_info env pi ?w1] => set (w1' := w1) end.
  destruct (peer_info_run env pi w1') as (w2 & v & f & E2 & _ & Hf); [split; [done|]; apply Hr|].
  rewrite E2. cbn [snd]. rewrite Hf.
  set (c := kept_config (lc w1') pi (config (lc w1'))).
  assert (Hp : password c = if rem then hash_of typed (hash (lc w)) else []).
  { unfold c. rewrite kept_password. unfold password_to_keep, is_shared_ab, is_personal_ab.
    subst w1'. cbn. rewrite hash_of_nonempty. cbn. destruct rem; cbn.
    - case_bool_decide as Hb; cbn; congruence.
    - by destruct (password (config (lc w))). }
  exists c. split; [|done]. apply settled_store; [intros; apply Hn|].
  apply good_kept; [done|..]; rewrite <- (kept_password _ pi); fold c; rewrite Hp.
  - destruct rem; [|done]. unfold hash_of. by rewrite sha256_len.
  - by destruct rem.
Qed.

(** C23: A remembered password opens the next session by itself.  The user types the permanent
    password of the peer and has it remembered, and the peer lets the client in; then a new
    session, with whatever challenge, sends one message and shows no dialog: a login that the
    peer accepts.  When the password is not to be remembered, the next session asks for it. *)
Theorem remembered_password_logs_in env env' m nonce fresh fresh' pw challenge challenge' c c' allow
    rem pi w parse i t fr l0 :
  (* the peer's permanent password is [pw], and permanent passwords are allowed *)
  len nonce = NONCEBYTES -> fresh <> [] -> pw <> [] ->
  set_permanent_password m nonce fresh pw c = (true, c') -> permanent_enabled c || allow = true ->
  let salt := fst (get_effective_permanent_password_salt m fresh' c') in
  (* the client, with its files in order, has received the first challenge *)
  (forall k n, len (nonces env k n) = NONCEBYTES) ->
  ready env w -> good_config (user_default env) (default_quality env) (config (lc w)) ->
  hash (lc w) = mkHash salt challenge -> is_encrypted (hash_of pw (hash (lc w))) = false ->
  (* a new session with the same peer, on the same machine, without other passwords *)
  user_default env' = user_default env -> default_quality env' = default_quality env ->
  machine env' = machine env -> personal_ab env' = None ->
  get_builtin_option env' "default-connect-password" = "" ->
  (parse_id i fr).1.1 = id (LoginConfig.session (lc w)) -> last_password l0 = [] ->
  bool_decide (t = TERMINAL) && terminal_admin env' = false ->
  exists lr,
    outs (next_session env' parse i t fr (mkHash salt challenge') l0 (files (first_session env pw rem pi w)))
    = (if rem then [] else [MsgBox "input-password" "Password Required" "" ""]) ++ [Peer (MLoginRequest lr)] /\
    Messages.password lr = (if rem then client_reply (mkHash salt challenge') pw else []) /\
    (rem = true -> is_Some (validate_password m c' (mkHash salt challenge') (Messages.password lr) allow)).
Proof.
  intros Hn Hf Hp Hset Ha salt Hn1 Hr Hg Hh He Hu Hq Hm Hab Hd Hid Hl0 Hta.
  destruct (first_session_keeps env pw rem pi w Hn1 Hr Hg Hp He) as (k & Hk & Hkp).
  unfold next_session. set (f := files (first_session env pw rem pi w)) in *.
  destruct (initialize_run env' i t None fr None None k (mkW l0 f [])) as
    (l & E & Hc & Hi & Ht & Hadm & _ & Hlp & _ & Hsh & Hsw); [by rewrite Hu, Hq, Hm, Hid|].
  rewrite E. cbn [snd files outs] in *.
  destruct (handle_hash_run env' parse [] (mkHash salt challenge') (mkW l f [])) as
    (lr & w' & E' & Ho & Hpw & _); [split; cbn; [done|]; by rewrite Hu, Hq, Hm, Hc, Hi, Hid|done|cbn; by rewrite Hadm|].
  rewrite E'. cbn [snd lc outs] in *. exists lr. rewrite Ho, Hpw.
  assert ((chosen env' l [] (mkHash salt challenge')).1 = if rem then hash_of pw (hash (lc w)) else []) as ->.
  { unfold chosen, candidates. rewrite Hsh, Hlp, Hl0, Hc, Hab, Hd, Hkp. destruct rem; cbn; [|done].
    unfold if_any. by rewrite hash_of_nonempty. }
  destruct rem; cbn.
  - rewrite hash_of_nonempty. cbn. rewrite Hh. split_and!; [done|done|]. intros _.
    apply (set_password_accepted m nonce fresh fresh' pw challenge' c c' allow); done.
  - by split_and!.
Qed.

(** *** Shared passwords *)

(** Logging in again without typing: the last password, or the remembered one. *)
Lemma untyped_run env u o rem w :
  ready env w ->
  exists w', handle_login_from_ui env u o [] rem w = (Ok tt, w') /\
    files w' = files w /\ config (lc w') = config (lc w) /\
    LoginConfig.session (lc w') = LoginConfig.session (lc w) /\
    remember (lc w') = remember (lc w) /\ hash (lc w') = hash (lc w) /\
    switch_uuid (lc w') = switch_uuid (lc w) /\ shared_password (lc w') = shared_password (lc w) /\
    (last_password (lc w') = last_password (lc w) /\ password_source (lc w') = password_source (lc w)
     \/ last_password (lc w') = password (config (lc w)) /\
        (password_source (lc w') = Undefined \/ password_source (lc w') = password_source (lc w))).
Proof.
  intros [_ Hs]. unfold handle_login_from_ui. run_in. cbn [is_empty].
  destruct (is_empty (last_password (lc w))) eqn:El; [destruct (is_empty (password (config (lc w)))) eqn:Ec|];
    cbn [negb lc files outs];
    lazymatch goal with |- context [send_login env ?u ?o ?q ?v] =>
      destruct (send_login_run env u o q v Hs) as (lr & fps & E & _ & _); rewrite E end;
    eexists; (split; [reflexivity|]); cbn; split_and!; auto.
Qed.

(** What may happen in a session in which nobody types a password. *)
Inductive Event : Type :=
| Challenge (h : HashMsg)
| LoginAgain (os_username os_password : string) (rem : bool)
| Refused (err : string)
| LetIn (pi : PeerInfo).

Definition step (env : Env) (parse : string -> option raw) (e : Event) (w : W) : W :=
  match e with
  | Challenge h => (handle_hash env parse [] h w).2
  | LoginAgain u o rem => (handle_login_from_ui env u o [] rem w).2
  | Refused err => (handle_login_error env err w).2
  | LetIn pi => (handle_peer_info env pi w).2
  end.
Definition run (env : Env) (parse : string -> option raw) (es : list Event) (w : W) : W :=
  fold_left (fun w e => step env parse e w) es w.

(** The last password is the one that was remembered before the session, or one of those
    that are shared, with the salt of the peer. *)
Definition known (p0 salt : text) (l : Lc) : Prop :=
  last_password l = [] \/ last_password l = p0 \/
  exists p, password_source l = SharedAb p /\ last_password l = sha256 (p ++ salt) /\ hash_salt (hash l) = salt.

Record unshared (env : Env) (i : string) (p0 salt : text) (w : W) : Prop := {
  un_id : LoginConfig.id (LoginConfig.session (lc w)) = i;
  un_ready : ready env w;
  un_good : good_config (user_default env) (default_quality env) (config (lc w));
  un_kept : password (config (lc w)) = p0 \/ password (config (lc w)) = [];
  un_last : known p0 salt (lc w);
  un_source : forall q, password_source (lc w) <> PersonalAb q;
  un_switch : switch_uuid (lc w) = None;
  un_admin : is_terminal_admin (LoginConfig.session (lc w)) = false }.

Lemma good_with_option ud dq c k v :
  k ∉ secret_options.*1 -> good_config ud dq c -> good_config ud dq (with_options (<[k := v]> (options c)) c).
Proof.
  intros Hk [Hf Hp Hs]. split.
  - destruct c. unfold read_fields in *. cbn in Hf. injection Hf as H1 H2 H3. cbn. by rewrite H1, H2, H3.
  - exact Hp.
  - intros k' n Hin v'. cbn. rewrite lookup_insert_ne; [by apply (Hs k' n)|].
    intros ->. apply Hk. apply (list_elem_of_fmap_2 fst _ _ Hin).
Qed.

Section Unshared.
Variables (env : Env) (parse : string -> option raw) (i : string) (p0 salt : text).
Hypothesis nonce_lengths : forall k n, len (nonces env k n) = NONCEBYTES.
Hypothesis no_personal_ab : personal_ab env = None.
Hypothesis good_p0 : len p0 <= ENCRYPT_MAX_LEN /\ is_encrypted p0 = false.

Lemma chosen_known h w :
  unshared env i p0 salt w -> hash_salt h = salt ->
  let '(p, src) := chosen env (lc w) [] h in
  (p = [] \/ p = p0 \/ exists q, src = SharedAb q /\ p = sha256 (q ++ salt)) /\ forall q, src <> PersonalAb q.
Proof.
  intros [_ _ _ Hk Hl Hs _ _] Hh. unfold chosen, candidates, if_any. rewrite no_personal_ab. cbn [is_empty app].
  assert (Hof : forall q, hash_of q h = sha256 (q ++ salt)) by (intros; unfold hash_of; by rewrite Hh).
  destruct (shared_password (lc w)) as [[|x sh]|]; cbn [is_empty app head default];
    try (split; [right; right; by eexists|done]).
  all: destruct (is_empty (last_password (lc w))) eqn:El; cbn [app head default];
    [|split; [|exact Hs]; destruct Hl as [->|[->|(p & ? & ? & ?)]]; [by left|by right; left|eauto 6]].
  all: destruct (is_empty (password (config (lc w)))) eqn:Ec; cbn [app head default];
    [|split; [|done]; destruct Hk as [->| ->]; auto].
  all: destruct (is_empty (String.list_byte_of_string _)); cbn [app head default];
    [split; auto|split; [right; right; by eexists|done]].
Qed.

Lemma set_option_unshared k v w :
  k ∉ secret_options.*1 -> unshared env i p0 salt w ->
  exists w', set_option env k v w = (Ok tt, w') /\ unshared env i p0 salt w'.
Proof.
  intros Hk I. destruct I as [Hid Hr Hg Hkp Hl Hs Hu Ha]. unfold set_option.
  rewrite st_bind_run, (load_config_run env (config (lc w))) by apply Hr. run_in.
  case_bool_decide; [by exists w|]. unfold save_config, store_config. run_in.
  eexists. split; [reflexivity|]. split; try done; [|by apply good_with_option].
  split; [done|]. cbn. apply settled_store; [done|by apply good_with_option].
Qed.

Lemma refused_unshared err w :
  unshared env i p0 salt w -> unshared env i p0 salt (handle_login_error env err w).2.
Proof.
  intros [Hid Hr Hg Hk Hl Hs Hu Ha]. unfold handle_login_error.
  assert (Hforget : unshared env i p0 salt (mkW (set_password [] (lc w)) (files w) (outs w)))
    by (split; try done; by left).
  assert (Hemit : forall w' o, unshared env i p0 salt w' ->
            unshared env i p0 salt (mkW (lc w') (files w') (outs w' ++ [o]))) by (intros ? ? [? ? ? ? ? ? ? ?]; by split).
  case_bool_decide; [by apply (Hemit (mkW _ _ _))|].
  case_bool_decide; [by apply (Hemit (mkW _ _ _))|].
  destruct (bool_decide _ || bool_decide _).
  - run_in. unfold when. case_bool_decide.
    + destruct (set_option_unshared "trust-this-device" "" w) as (w' & E & I); [vm_compute; set_solver|by split|].
      rewrite E. by apply (Hemit w').
    + by apply (Hemit w).
  - destruct (List.find _ _) as [[? [[[[? ?] ?] ?] ?]]|]; run_in; by apply (Hemit w).
Qed.

Lemma step_unshared e w :
  unshared env i p0 salt w -> match e with Challenge h => hash_salt h = salt | _ => True end ->
  unshared env i p0 salt (step env parse e w).
Proof.
  intros I He. destruct e as [h|u o rem|err|pi]; cbn [step].
  - pose proof (chosen_known h w I He) as Hc. destruct I as [Hid Hr Hg Hk Hl Hs Hu Ha].
    destruct (handle_hash_run env parse [] h w Hr Hu Ha)
      as (lr & w' & E & _ & _ & Hlp & Hsrc & Hhash & Hcfg & Hf & Hses & _ & Hsw & _).
    rewrite E. cbn [snd]. destruct (chosen env (lc w) [] h) as [p src]. destruct Hc as [Hc Hns]. cbn in *.
    split; rewrite ?Hcfg, ?Hses, ?Hsrc; try done.
    + split; [done|]. rewrite Hcfg, Hses, Hf. apply Hr.
    + unfold known. rewrite Hlp, Hsrc, Hhash. destruct Hc as [->|[->|(q & -> & ->)]]; eauto 6.
  - destruct I as [Hid Hr Hg Hk Hl Hs Hu Ha].
    destruct (untyped_run env u o rem w Hr) as (w' & E & Hf & Hcfg & Hses & _ & Hhash & Hsw & _ & Hlast).
    rewrite E. cbn [snd]. split; rewrite ?Hcfg, ?Hses, ?Hsw; try done.
    + split; [done|]. rewrite Hcfg, Hses, Hf. apply Hr.
    + unfold known in *. rewrite Hhash. destruct Hlast as [[-> ->]|[-> _]]; [done|].
      destruct Hk as [->| ->]; auto.
    + intros q. destruct Hlast as [[_ ->]|[_ [->| ->]]]; done.
  - by apply refused_unshared.
  - destruct I as [Hid Hr Hg Hk Hl Hs Hu Ha].
    destruct (peer_info_run env pi w Hr) as (w' & v & f & E & Hlc & Hf). rewrite E. cbn [snd].
    assert (Hkeep : let p := password_to_keep (lc w) (password (config (lc w))) in p = p0 \/ p = []).
    { unfold password_to_keep, is_shared_ab, is_personal_ab. cbv zeta.
      destruct (remember (lc w)).
      - destruct (negb (is_empty (last_password (lc w)))) eqn:Ee; cbn [andb]; [|done].
        destruct (negb (bool_decide _)); cbn [andb]; [|done].
        destruct Hl as [E0|[E0|(q & E1 & E2 & E3)]].
        + by rewrite E0 in Ee.
        + case_match; [by left|done].
        + apply negb_true_iff in Ee. rewrite Ee, E1. unfold hash_of.
          rewrite E3, bool_decide_eq_true_2 by done. done.
      - replace (if is_empty (last_password (lc w)) then false else _) with false;
          [by destruct (password (config (lc w))); right|].
        destruct (password_source (lc w)) as [q| |] eqn:Es; [by destruct (Hs q)|by case_match..]. }
    assert (Hgk : good_config (user_default env) (default_quality env)
                    (kept_config (lc w) pi (config (lc w)))).
    { apply good_kept; [done|..]; destruct Hkeep as [->| ->]; done || apply good_p0. }
    rewrite <- (kept_password (lc w) pi) in Hkeep.
    split; rewrite ?Hlc; try done.
    split; [by rewrite Hlc|]. rewrite Hlc, Hf. cbn. by apply settled_store.
Qed.

Lemma run_unshared es w :
  unshared env i p0 salt w -> Forall (fun e => match e with Challenge h => hash_salt h = salt | _ => True end) es ->
  unshared env i p0 salt (run env parse es w).
Proof.
  revert w. induction es as [|e es IH]; intros w I He; [done|]. apply Forall_cons in He as [He Hes].
  apply (IH (step env parse e w)); [|done]. by apply step_unshared.
Qed.
End Unshared.

End Facts.

(** ** Examples *)

Definition ex_cfg : PeerConfig := default_config (fun _ => "") 50.
Definition ex_env : Env :=
  mkEnv 0 (fun _ => "") 50 ex_machine (fun _ _ => ex_nonce) 7 (fun _ => "") false true (fun _ => "") "111"
    "rs" "me" "Linux" "1.4" [] false (fun _ _ => []) (fun _ => ∅) None (fun _ _ => false).
Definition ex_lc : Lc :=
  mkLc (mkSession "222" DEFAULT_CONN false 7 false None) ex_hash [] false ex_cfg ("", 0) 0 None None false None
    None Undefined None (false, None) [].
Definition ex_pi : PeerInfo := mkPeerInfo "1.4.0" (Some false) (mkInfo "user" "host" "Linux").

Lemma ex_good : good_config (H := toy_crypto) (fun _ => "") 50 ex_cfg.
Proof.
  split; [vm_compute; reflexivity|split; [vm_compute; discriminate|vm_compute; reflexivity]|].
  intros k n Hk v. unfold secret_options in Hk.
  repeat (apply elem_of_cons in Hk as [[= -> _]|Hk]; [vm_compute; discriminate|]). by apply elem_of_nil in Hk.
Qed.

Lemma remembered_password_logs_in_witness :
  let w := mkW ex_lc ∅ [] in
  let f := files (first_session (H := toy_crypto) ex_env ex_pw true ex_pi w) in
  exists lr,
    outs (next_session (H := toy_crypto) ex_env (fun _ => None) "222" DEFAULT_CONN false
            (mkHash ex_salt [x6e]) ex_lc f) = [Peer (MLoginRequest lr)] /\
    Messages.password lr = client_reply (H := toy_crypto) (mkHash ex_salt [x6e]) ex_pw /\
    (true = true -> is_Some (validate_password (H := toy_crypto) ex_machine (snd ex_set) (mkHash ex_salt [x6e])
                               (Messages.password lr) false)).
Proof.
  apply (remembered_password_logs_in (H := toy_crypto) (H0 := toy_laws) ex_env ex_env ex_machine ex_nonce
           ex_salt ex_salt ex_pw [x63; x68] [x6e] ex_config (snd ex_set) false true ex_pi (mkW ex_lc ∅ [])
           (fun _ => None) "222" DEFAULT_CONN false ex_lc); try reflexivity; try done.
  exact ex_good.
Defined.


(** ** Where the code does something else *)

(** When the peer has a new salt, the hash of a shared password with the former one is not
    taken for a shared password: a user who is let in by a click keeps it in the peer's file. *)
Example shared_password_outlives_its_salt :
  let open l := (initialize (H := toy_crypto) ex_env "222" DEFAULT_CONN None false (Some ex_pw) None
                   (mkW l ∅ [])).2 in
  let old := mkHash ex_salt [x6e] in
  let new := mkHash [x73; x32] [x6f] in
  let w := run (H := toy_crypto) ex_env (fun _ => None) [Challenge old; Challenge new] (open ex_lc) in
  let w := mkW (set_remember true (lc w)) (files w) (outs w) in
  password (config (lc (step (H := toy_crypto) ex_env (fun _ => None) (LetIn ex_pi) w)))
  = hash_of (H := toy_crypto) ex_pw old.
Proof. vm_compute. reflexivity. Qed.
