(* ===== verification/Connection.v ===== *)
(** * A connection of the controlled side (src/server/connection.rs)

    The state of a connection, its login, and what an authorized peer's messages do.
    The Linux desktop build with the Flutter interface.

    A handler is a computation that reads and writes the connection and emits effects
    ([M]): every call that leaves the connection (input for the desktop, requests to
    the connection manager, subscriptions, replies) is an [Effect], recorded with the
    state of the connection in which it was made.  What the rest of the system
    answers while one message is handled is an [Env]. *)

From Stdlib Require Import Ascii.
From stdpp Require Import pretty.
From S2P Require Import Options.
From S2P Require Import Prelude TermBuffer TermService Messages SessionScope Passwords.

(** ** State *)

(** The boolean fields of a connection. *)
Inductive Field : Type :=
| authorized | require_2fa | view_camera | terminal | terminal_persistent
| port_forward_socket | terminal_user_token
| keyboard | clipboard | audio | file | restart | recording | block_input | privacy_mode
| disable_keyboard | disable_clipboard | disable_audio | show_my_cursor
| lock_after_session_end | show_remote_cursor | follow_remote_cursor | follow_remote_window
| from_switch | chat_unanswered | file_transferred | voice_calling | audio_sender
| services_subed | closed | last_test_delay.

Definition field_id (f : Field) : Z :=
  match f with
  | authorized => 0 | require_2fa => 1 | view_camera => 2 | terminal => 3
  | terminal_persistent => 4 | port_forward_socket => 5 | terminal_user_token => 6
  | keyboard => 7 | clipboard => 8 | audio => 9 | file => 10 | restart => 11
  | recording => 12 | block_input => 13 | privacy_mode => 14
  | disable_keyboard => 15 | disable_clipboard => 16 | disable_audio => 17
  | show_my_cursor => 18 | lock_after_session_end => 19 | show_remote_cursor => 20
  | follow_remote_cursor => 21 | follow_remote_window => 22 | from_switch => 23
  | chat_unanswered => 24 | file_transferred => 25 | voice_calling => 26
  | audio_sender => 27 | services_subed => 28 | closed => 29
  | last_test_delay => 30
  end.

Inductive TwoFactor : Type := NoTwoFactor | Totp | TrustedDeviceAuth.

Record Conn : Type := mkConn {
  bools : Field -> bool;
  authed_conn_type : option AuthConnType;
  file_transfer : option (string * bool);
  port_forward_address : string;
  terminal_service_id : string;
  lr : LoginRequest;
  options_in_login : option OptionMessage;
  voice_call_request_timestamp : option Z;
  conn_audit_primary_auth : PrimaryAuth;
  conn_audit_two_factor : TwoFactor;
  scope_violation_messages : list string;
  delayed_read_dir : option (string * bool);
  printer_data : list (string * raw);
  display_idx : Z;
  pressed_modifiers : list Z;
  hash : HashMsg;
  control_permissions : option Z }.

Definition on (c : Conn) (f : Field) : bool := bools c f.

Definition set_bool (f : Field) (b : bool) (c : Conn) : Conn :=
  mkConn (fun g => if field_id f =? field_id g then b else bools c g) (authed_conn_type c)
    (file_transfer c) (port_forward_address c) (terminal_service_id c) (lr c)
    (options_in_login c) (voice_call_request_timestamp c) (conn_audit_primary_auth c)
    (conn_audit_two_factor c) (scope_violation_messages c) (delayed_read_dir c) (printer_data c)
    (display_idx c) (pressed_modifiers c)
    (hash c) (control_permissions c).
Definition set_type (t : option AuthConnType) (c : Conn) : Conn :=
  mkConn (bools c) t (file_transfer c) (port_forward_address c) (terminal_service_id c) (lr c)
    (options_in_login c) (voice_call_request_timestamp c) (conn_audit_primary_auth c)
    (conn_audit_two_factor c) (scope_violation_messages c) (delayed_read_dir c) (printer_data c)
    (display_idx c) (pressed_modifiers c)
    (hash c) (control_permissions c).
Definition set_file_transfer (ft : option (string * bool)) (c : Conn) : Conn :=
  mkConn (bools c) (authed_conn_type c) ft (port_forward_address c) (terminal_service_id c)
    (lr c) (options_in_login c) (voice_call_request_timestamp c) (conn_audit_primary_auth c)
    (conn_audit_two_factor c) (scope_violation_messages c) (delayed_read_dir c) (printer_data c)
    (display_idx c) (pressed_modifiers c)
    (hash c) (control_permissions c).
Definition set_address (a : string) (c : Conn) : Conn :=
  mkConn (bools c) (authed_conn_type c) (file_transfer c) a (terminal_service_id c) (lr c)
    (options_in_login c) (voice_call_request_timestamp c) (conn_audit_primary_auth c)
    (conn_audit_two_factor c) (scope_violation_messages c) (delayed_read_dir c) (printer_data c)
    (display_idx c) (pressed_modifiers c)
    (hash c) (control_permissions c).
Definition set_service_id (i : string) (c : Conn) : Conn :=
  mkConn (bools c) (authed_conn_type c) (file_transfer c) (port_forward_address c) i (lr c)
    (options_in_login c) (voice_call_request_timestamp c) (conn_audit_primary_auth c)
    (conn_audit_two_factor c) (scope_violation_messages c) (delayed_read_dir c) (printer_data c)
    (display_idx c) (pressed_modifiers c)
    (hash c) (control_permissions c).
Definition set_lr (l : LoginRequest) (c : Conn) : Conn :=
  mkConn (bools c) (authed_conn_type c) (file_transfer c) (port_forward_address c)
    (terminal_service_id c) l (options_in_login c) (voice_call_request_timestamp c)
    (conn_audit_primary_auth c) (conn_audit_two_factor c) (scope_violation_messages c)
    (delayed_read_dir c) (printer_data c) (display_idx c) (pressed_modifiers c)
    (hash c) (control_permissions c).
Definition set_options_in_login (o : option OptionMessage) (c : Conn) : Conn :=
  mkConn (bools c) (authed_conn_type c) (file_transfer c) (port_forward_address c)
    (terminal_service_id c) (lr c) o (voice_call_request_timestamp c)
    (conn_audit_primary_auth c) (conn_audit_two_factor c) (scope_violation_messages c)
    (delayed_read_dir c) (printer_data c) (display_idx c) (pressed_modifiers c)
    (hash c) (control_permissions c).
Definition set_voice_timestamp (v : option Z) (c : Conn) : Conn :=
  mkConn (bools c) (authed_conn_type c) (file_transfer c) (port_forward_address c)
    (terminal_service_id c) (lr c) (options_in_login c) v (conn_audit_primary_auth c)
    (conn_audit_two_factor c) (scope_violation_messages c) (delayed_read_dir c) (printer_data c)
    (display_idx c) (pressed_modifiers c)
    (hash c) (control_permissions c).
Definition set_primary_auth (a : PrimaryAuth) (c : Conn) : Conn :=
  mkConn (bools c) (authed_conn_type c) (file_transfer c) (port_forward_address c)
    (terminal_service_id c) (lr c) (options_in_login c) (voice_call_request_timestamp c) a
    (conn_audit_two_factor c) (scope_violation_messages c) (delayed_read_dir c) (printer_data c)
    (display_idx c) (pressed_modifiers c)
    (hash c) (control_permissions c).
Definition set_two_factor (tf : TwoFactor) (c : Conn) : Conn :=
  mkConn (bools c) (authed_conn_type c) (file_transfer c) (port_forward_address c)
    (terminal_service_id c) (lr c) (options_in_login c) (voice_call_request_timestamp c)
    (conn_audit_primary_auth c) tf (scope_violation_messages c) (delayed_read_dir c)
    (printer_data c) (display_idx c) (pressed_modifiers c)
    (hash c) (control_permissions c).
Definition set_violations (sv : list string) (c : Conn) : Conn :=
  mkConn (bools c) (authed_conn_type c) (file_transfer c) (port_forward_address c)
    (terminal_service_id c) (lr c) (options_in_login c) (voice_call_request_timestamp c)
    (conn_audit_primary_auth c) (conn_audit_two_factor c) sv (delayed_read_dir c)
    (printer_data c) (display_idx c) (pressed_modifiers c)
    (hash c) (control_permissions c).
Definition set_delayed (d : option (string * bool)) (c : Conn) : Conn :=
  mkConn (bools c) (authed_conn_type c) (file_transfer c) (port_forward_address c)
    (terminal_service_id c) (lr c) (options_in_login c) (voice_call_request_timestamp c)
    (conn_audit_primary_auth c) (conn_audit_two_factor c) (scope_violation_messages c) d
    (printer_data c) (display_idx c) (pressed_modifiers c)
    (hash c) (control_permissions c).
Definition set_printer (pd : list (string * raw)) (c : Conn) : Conn :=
  mkConn (bools c) (authed_conn_type c) (file_transfer c) (port_forward_address c)
    (terminal_service_id c) (lr c) (options_in_login c) (voice_call_request_timestamp c)
    (conn_audit_primary_auth c) (conn_audit_two_factor c) (scope_violation_messages c)
    (delayed_read_dir c) pd (display_idx c) (pressed_modifiers c)
    (hash c) (control_permissions c).
Definition set_modifiers (m : list Z) (c : Conn) : Conn :=
  mkConn (bools c) (authed_conn_type c) (file_transfer c) (port_forward_address c)
    (terminal_service_id c) (lr c) (options_in_login c) (voice_call_request_timestamp c)
    (conn_audit_primary_auth c) (conn_audit_two_factor c) (scope_violation_messages c)
    (delayed_read_dir c) (printer_data c) (display_idx c) m (hash c) (control_permissions c).
Definition set_display_idx (d : Z) (c : Conn) : Conn :=
  mkConn (bools c) (authed_conn_type c) (file_transfer c) (port_forward_address c)
    (terminal_service_id c) (lr c) (options_in_login c) (voice_call_request_timestamp c)
    (conn_audit_primary_auth c) (conn_audit_two_factor c) (scope_violation_messages c)
    (delayed_read_dir c) (printer_data c) d (pressed_modifiers c) (hash c) (control_permissions c).

(** ** Effects *)

(** Requests to the process that works on files ([ipc::FS]). *)
Inductive FsCall : Type :=
| FsReadDir (dir : string) (include_hidden : bool)
| FsReadEmptyDirs (dir : string) (include_hidden : bool)
| FsNewWrite (path : string) (id file_num : Z) (files : list (string * Z))
    (overwrite_detection : bool) (total_size : Z)
| FsRemoveDir (path : string) (id : Z) (recursive : bool)
| FsRemoveFile (path : string) (id file_num : Z)
| FsCreateDir (path : string) (id : Z)
| FsRename (id : Z) (path new_name : string)
| FsCancelWrite (id : Z)
| FsCancelRead (id : Z)
| FsSendConfirm (id file_num : Z)
| FsWriteBlock (id file_num : Z) (data : raw) (compressed : bool)
| FsWriteDone (id file_num : Z)
| FsWriteError (id file_num : Z) (err : string)
| FsCheckDigest (id file_num file_size last_modified : Z) (is_resume : bool).

Inductive Effect : Type :=
(* the login *)
| LoginError (err : string)
| LoginOk (t : AuthConnType)
| CmLogin (authorized : bool)
| StartCm
| TooManyFailures (i : Z)
| UpdateFailure (remove : bool) (i : Z)
| UpdateTemporaryPassword (success : bool)
| SessionPassword (password : text)
| SessionTwoFactor
| AddTrustedDevice (id : raw)
| ConsumeSwitchUuid (peer : string)
| StartDesktop
| TelegramCode
| PortForwardConnect (addr : string)
| CheckRemoveSession
| ForwardBytes (addr : string)
| NewTemporaryPassword
| PrivacyEnded
| ConnAuditClose
| RemoveConnection
| ConnAudit (t : AuthConnType) (a : PrimaryAuth) (tf : TwoFactor)
(* messages *)
| Echo (time : Z)
| Send (m : string)
| SendClose (reason : string)
| SendPermission (f : Field) (enabled : bool)
| Alarm (message : string)
| ToCm (m : string)
| CmClosed (disconnected : bool)
| LockScreen
(* the desktop *)
| InputMouse (me : MouseEvent) (simulate show_cursor : bool)
| InputPointer (m : raw)
| InputKey (ke : KeyEvent) (press : bool)
| BlockInput (b : bool)
| UpdateClipboard (cbs : list raw)
| PrivacyOn (impl_key : string)
| PrivacyOff (impl_key : string)
| PrivacyRevoked
| SetResolution (display width height : Z)
| Reboot (force : bool)
| Activity (click : bool)
| TouchTimer
| Whiteboard (b : bool)
| SwitchSides (uuid : raw)
(* audio and video *)
| StartAudio (format : raw)
| PlayAudio (frame : raw)
| ResetVoiceDevice
| Subscribe (service : string) (b : bool)
| MonitorServices (noperms : list string)
| CameraServices
| SwitchDisplayTo (camera : bool) (display : Z)
| DoCaptureDisplays (camera : bool) (add sub set : list Z)
| RefreshVideoOf (camera : bool) (display : option Z)
| VideoFetched
| TakeScreenshot (camera : bool) (display : Z) (sid : string)
| DisplayChanged (camera : bool) (display : Z)
| QosImageQuality (q : Z)
| QosCustomFps (fps : Z)
| QosAutoAdjustFps (fps : Z)
| QosRecord (b : bool)
| QosDelay
| QosDelayElapsed
| EncoderUpdate (decoding : option raw)
(* files *)
| Fs (f : FsCall)
| ReadRecursive (id : Z) (path : string) (include_hidden : bool)
| StartReadJob (id : Z) (path : string) (printer : bool) (file_num : Z) (include_hidden : bool)
    (overwrite_detection : bool)
| ConfirmJob (id : Z)
| RemoveJob (id : Z)
| FileError (id : Z) (err : string)
| FileAudit (path : string)
| LogRemoveDir (id : Z) (path : string) (recursive : bool)
| LogRemoveFile (id : Z) (path : string) (file_num : Z)
(* terminals *)
| TerminalInit (service_id : string) (persistent : bool)
| TerminalDo (service_id : string) (persistent : bool) (a : Action)
| TerminalPersistence (service_id : string) (persistent : bool).

(** ** Handlers *)

Definition M (A : Type) : Type := Conn -> A * Conn * list (Conn * Effect).

Definition ret {A} (a : A) : M A := fun c => (a, c, []).
Definition bind {A B} (m : M A) (k : A -> M B) : M B := fun c =>
  let '(a, c, es) := m c in
  let '(b, c, es') := k a c in
  (b, c, es ++ es').
Definition get : M Conn := fun c => (c, c, []).
Definition modify (f : Conn -> Conn) : M unit := fun c => (tt, f c, []).
Definition emit (e : Effect) : M unit := fun c => (tt, c, [(c, e)]).
Definition skip : M unit := ret tt.

Notation "'do!' x := m 'in' k" := (bind m (fun x => k))
  (at level 10, x pattern, m at level 200, k at level 200,
   format "'[v' 'do!'  x  :=  m  'in' '/' k ']'").
Notation "m ;; k" := (bind m (fun _ => k)) (at level 100, k at level 200, right associativity).
Definition when (b : bool) (m : M unit) : M unit := if b then m else skip.
Definition put (f : Field) (b : bool) : M unit := modify (set_bool f b).

(** ** The rest of the system *)

Record TrustedDevice : Type := mkDevice {
  td_hwid : raw; td_time : Z; td_id : string; td_name : string; td_platform : string }.

Record Env : Type := mkEnv {
  now : Z;
  machine : Machine;
  config : Config;                        (* passwords *)
  get_option : string -> string;          (* Config::get_option *)
  get_builtin_option : string -> string;
  my_device_id : string;                  (* Config::get_id *)
  is_direct_ip_access : string -> bool;
  check_failure : Z -> bool;              (* may this peer try again? *)
  trusted_devices : list TrustedDevice;
  recent_session : LoginRequest -> option (text * bool); (* SESSIONS, not expired: password, 2FA *)
  totp_check : string -> option bool;     (* check_current, None for an error *)
  switch_uuid : string -> option raw;     (* SWITCH_SIDES_UUID, not expired *)
  in_privacy_mode : bool;
  privacy_mode_supported : bool;
  headless_allowed : bool;
  headless_user : string;                 (* the user of the virtual desktop *)
  start_desktop : string;                 (* try_start_desktop's message *)
  is_logon : bool;
  connects : string -> bool;              (* TcpStream::connect within the timeout *)
  service_specified_user : string -> option bool;
  display_server_error : string;          (* no X11 or Wayland session *)
  displays_available : bool;
  is_dir : string -> bool;
  whiteboard_supported : bool;
  new_service_id : string;
  primary_display : Z;
  multi_ui_session : bool;                (* more than one display is captured *)
  has_read_job : Z -> bool;
  silent : bool;                          (* nothing was received for 30 seconds *)
  idle : bool;                            (* the automatic disconnection is due *)
  privacy_mode_is_mine : bool;            (* this connection turned it on *)
  privacy_off_succeeds : bool;
  rdev_key : Z -> Z;                      (* keyboard::keycode_to_rdev_key *)
  is_modifier_key : Z -> bool }.

Section Handlers.
Context `{Crypto}.
Variable env : Env.

(** *** Permissions *)

Definition DAYS_90 : Z := 90 * 24 * 60 * 60 * 1000.
Definition outdate (d : TrustedDevice) : bool := td_time d + DAYS_90 <? now env.

Definition get_bool_option (key : string) : bool := option2bool key (get_option env key).

Definition is_permission_enabled_locally (key : string) : bool :=
  let access_mode := get_option env "access-mode" in
  if bool_decide (access_mode = "full"%string) then true
  else if bool_decide (access_mode = "view"%string) then false
  else option2bool key (get_option env key).

(** [Permission::value] of the permission behind an option. *)
Definition permission_index (key : string) : option Z :=
  if bool_decide (key = "enable-keyboard"%string) then Some 0
  else if bool_decide (key = "enable-remote-printer"%string) then Some 1
  else if bool_decide (key = "enable-clipboard"%string) then Some 2
  else if bool_decide (key = "enable-file-transfer"%string) then Some 3
  else if bool_decide (key = "enable-audio"%string) then Some 4
  else if bool_decide (key = "enable-camera"%string) then Some 5
  else if bool_decide (key = "enable-terminal"%string) then Some 6
  else if bool_decide (key = "enable-tunnel"%string) then Some 7
  else if bool_decide (key = "enable-remote-restart"%string) then Some 8
  else if bool_decide (key = "enable-record-session"%string) then Some 9
  else if bool_decide (key = "enable-block-input"%string) then Some 10
  else if bool_decide (key = "enable-privacy-mode"%string) then Some 12
  else None.

(** Two bits for each permission: 1 is no, 2 is yes. *)
Definition get_control_permission (permissions index : Z) : option bool :=
  if (0 <=? index) && (index <? 32) then
    let value := Z.land (Z.shiftr permissions (index * 2)) 3 in
    if value =? 1 then Some false else if value =? 2 then Some true else None
  else None.

Definition permission (key : string) (control : option Z) : bool :=
  match control with
  | None => is_permission_enabled_locally key
  | Some p =>
      match permission_index key with
      | None => is_permission_enabled_locally key
      | Some i =>
          match get_control_permission p i with
          | Some enabled => enabled
          | None => is_permission_enabled_locally key
          end
      end
  end.

(** A new connection, before the first message ([Connection::start]). *)
Definition conn_start (twofa : bool) (h : HashMsg) (control : option Z) : Conn :=
  mkConn
    (fun f => match f with
              | require_2fa => twofa
              | keyboard => permission "enable-keyboard" control
              | clipboard => permission "enable-clipboard" control
              | audio => permission "enable-audio" control
              | file => permission "enable-file-transfer" control
              | restart => permission "enable-remote-restart" control
              | recording => permission "enable-record-session" control
              | block_input => permission "enable-block-input" control
              | privacy_mode => permission "enable-privacy-mode" control
              | _ => false
              end)
    None None "" "" login_default None None NoAuth NoTwoFactor [] None []
    (primary_display env) [] h control.

Definition peer_keyboard_enabled (c : Conn) : bool := on c keyboard && negb (on c disable_keyboard).
Definition clipboard_enabled (c : Conn) : bool := on c clipboard && negb (on c disable_clipboard).
Definition can_sub_clipboard_service (c : Conn) : bool :=
  clipboard_enabled c && peer_keyboard_enabled c
  && negb (bool_decide (get_builtin_option env "one-way-clipboard-redirection" = "Y"%string)).
Definition audio_enabled (c : Conn) : bool := on c audio && negb (on c disable_audio).

Definition is_authed_remote_conn (c : Conn) : bool :=
  bool_decide (authed_conn_type c = Some Remote).
Definition is_authed_view_camera_conn (c : Conn) : bool :=
  bool_decide (authed_conn_type c = Some ViewCamera).
Definition should_handle_render_broadcast_message (c : Conn) : bool :=
  is_authed_remote_conn c || is_authed_view_camera_conn c.
Definition should_handle_text_clipboard_message (c : Conn) : bool := is_authed_remote_conn c.

Definition is_remote (c : Conn) : bool :=
  bool_decide (file_transfer c = None) && negb (on c port_forward_socket)
  && negb (on c view_camera) && negb (on c terminal).

(** *** Options *)

Definition NAME_CURSOR : string := "mouse_cursor".
Definition NAME_POS : string := "mouse_pos".
Definition NAME_WINDOW_FOCUS : string := "window_focus".
Definition NAME_CLIPBOARD : string := "clipboard".
Definition NAME_AUDIO : string := "audio".

(** A [BoolOption] field that was set: what it asks for. *)
Definition asked (z : Z) : option bool :=
  match enum_value z with
  | Some Yes => Some true
  | Some No => Some false
  | Some NotSet | None => None
  end.

Definition update_image_quality (o : OptionMessage) : M unit :=
  match enum_value (o_image_quality o) with
  | None => skip
  | Some q =>
      let image_quality :=
        if bool_decide (q = QNotSet) then
          if 0 <? o_custom_image_quality o then o_custom_image_quality o else -1
        else value q in
      when (0 <? image_quality) (emit (QosImageQuality image_quality))
  end.

Definition turn_on_privacy (impl_key : string) : M unit :=
  do! c := get in
  if negb (is_authed_remote_conn c) || negb (on c privacy_mode)
  then emit (Send "PrvOnFailedDenied")
  else if negb (privacy_mode_supported env) then emit (Send "PrvNotSupported")
  else emit (PrivacyOn impl_key) ;; emit (Send "privacy mode").

Definition turn_off_privacy (impl_key : string) : M unit :=
  if negb (privacy_mode_supported env) then emit (Send "PrvNotSupported")
  else emit (PrivacyOff impl_key) ;; emit (Send "privacy mode").

Definition toggle_privacy_mode (impl_key : string) (b : bool) : M unit :=
  if b then turn_on_privacy impl_key else turn_off_privacy impl_key.

Definition subscribe_audio : M unit :=
  do! c := get in
  if is_authed_view_camera_conn c then
    when (on c voice_calling || negb (audio_enabled c))
      (emit (Subscribe NAME_AUDIO (audio_enabled c)))
  else emit (Subscribe NAME_AUDIO (audio_enabled c)).

Definition subscribe_clipboard : M unit :=
  do! c := get in emit (Subscribe NAME_CLIPBOARD (can_sub_clipboard_service c)).

Definition update_terminal_persistence (persistent : bool) : M unit :=
  put terminal_persistent persistent ;;
  do! c := get in emit (TerminalPersistence (terminal_service_id c) persistent).

Definition update_cursor_options (o : OptionMessage) : M unit :=
  match asked (o_show_remote_cursor o) with
  | None => skip
  | Some q =>
      put show_remote_cursor q ;;
      do! c := get in
      emit (Subscribe NAME_CURSOR (peer_keyboard_enabled c || on c show_remote_cursor)) ;;
      emit (Subscribe NAME_POS (on c show_remote_cursor))
  end ;;
  match asked (o_follow_remote_cursor o) with
  | None => skip
  | Some q => put follow_remote_cursor q
  end ;;
  match asked (o_follow_remote_window o) with
  | None => skip
  | Some q =>
      put follow_remote_window q ;; emit (Subscribe NAME_WINDOW_FOCUS q)
  end.

Definition update_disable_options (o : OptionMessage) : M unit :=
  match asked (o_disable_audio o) with
  | None => skip
  | Some q => put disable_audio q ;; subscribe_audio
  end ;;
  match asked (o_disable_clipboard o) with
  | None => skip
  | Some q => put disable_clipboard q ;; subscribe_clipboard
  end ;;
  match asked (o_disable_keyboard o) with
  | None => skip
  | Some q =>
      put disable_keyboard q ;; subscribe_clipboard ;;
      do! c := get in
      emit (Subscribe NAME_CURSOR (peer_keyboard_enabled c || on c show_remote_cursor))
  end.

(** Peers before 1.2.4 ask for the privacy mode by an option. *)
Definition update_privacy_option (o : OptionMessage) : M unit :=
  do! c := get in
  when (get_version_number (version (lr c)) <? get_version_number "1.2.4")
    (match enum_value (o_privacy_mode o) with
     | None => skip
     | Some q =>
         when (on c keyboard)
           (match q with
            | Yes => turn_on_privacy ""
            | No => turn_off_privacy ""
            | NotSet => skip
            end)
     end).

Definition update_block_input_option (o : OptionMessage) : M unit :=
  match enum_value (o_block_input o) with
  | None => skip
  | Some q =>
      do! c := get in
      if on c keyboard && on c block_input then
        match q with
        | Yes => emit (BlockInput true)
        | No => emit (BlockInput false)
        | NotSet => skip
        end
      else
        match q with
        | NotSet => skip
        | Yes => emit (Send "BlkOnFailed")
        | No => emit (Send "BlkOffFailed")
        end
  end.

Definition update_show_my_cursor (o : OptionMessage) : M unit :=
  match asked (o_show_my_cursor o) with
  | None => skip
  | Some q =>
      put show_my_cursor q ;;
      if whiteboard_supported env then emit (Whiteboard q)
      else when q (emit (Send "Show my cursor"))
  end.

Definition update_options (o : OptionMessage) : M unit :=
  update_image_quality o ;;
  when (0 <? o_custom_fps o) (emit (QosCustomFps (o_custom_fps o))) ;;
  match o_supported_decoding o with
  | Some q => emit (EncoderUpdate (Some q))
  | None => skip
  end ;;
  match asked (o_lock_after_session_end o) with
  | None => skip
  | Some q => put lock_after_session_end q
  end ;;
  update_cursor_options o ;;
  update_disable_options o ;;
  update_privacy_option o ;;
  update_block_input_option o ;;
  match asked (o_terminal_persistent o) with
  | None => skip
  | Some q => update_terminal_persistence q
  end ;;
  update_show_my_cursor o.

(** *** Authorization *)

Definition enable_trusted_devices : bool := get_bool_option "enable-trusted-devices".

Definition reset_session_scope_for_login : M unit :=
  modify (set_file_transfer None) ;; put view_camera false ;; put terminal false ;;
  modify (set_address "") ;; put terminal_persistent false.

Definition handle_login_request_without_validation (l : LoginRequest) : M unit :=
  modify (set_lr l) ;;
  match login_option l with
  | Some o => modify (set_options_in_login (Some o))
  | None => skip
  end ;;
  do! c := get in
  when (on c require_2fa && negb (is_empty (hwid l)) && enable_trusted_devices)
    (match List.find (fun d => bool_decide (td_hwid d = hwid l)) (trusted_devices env) with
     | Some d =>
         when (negb (outdate d) && bool_decide (td_id d = my_id l)
               && bool_decide (td_name d = my_name l) && bool_decide (td_platform d = my_platform l))
           (modify (set_two_factor TrustedDeviceAuth) ;; put require_2fa false)
     | None => skip
     end).

Definition normalize_port_forward_target (host : string) (port : Z) : string * bool :=
  let '(host, port, is_rdp) :=
    if bool_decide (host = "RDP"%string) && (port =? 0)
    then ("localhost"%string, 3389, true) else (host, port, false) in
  let host := if bool_decide (host = ""%string) then "localhost"%string else host in
  ((host ++ ":" ++ pretty port)%string, is_rdp).

Definition send_login_error (err : string) : M unit := emit (LoginError err).

Definition connect_port_forward_if_needed : M bool :=
  do! c := get in
  if on c port_forward_socket then ret true
  else match login_union (lr c) with
  | Some (LPortForward host port) =>
      let '(addr, is_rdp) := normalize_port_forward_target host port in
      modify (set_address addr) ;;
      emit (PortForwardConnect addr) ;;
      if connects env addr then put port_forward_socket true ;; ret true
      else
        let addr := if is_rdp then "RDP"%string else addr in
        send_login_error
          ("Failed to access remote " ++ addr ++ ". Please make sure it is reachable/open.")%string ;;
        ret false
  | _ => ret true
  end.

Definition is_recent_session (tfa : bool) : M bool :=
  do! c := get in
  match recent_session env (lr c) with
  | Some (random_password, session_tfa) =>
      if negb (is_empty (password (lr c)))
         && ((tfa && session_tfa)
             || (negb tfa && validate_password_plain (hash c) (password (lr c)) random_password))
      then
        (if tfa then modify (set_two_factor Totp) else modify (set_primary_auth ByTemporary)) ;;
        ret true
      else ret false
  | None => ret false
  end.

(** On Linux a terminal runs as the user of the service, so there are no credentials
    to check. *)
Definition prepare_terminal_login_for_authorization : M (option bool) :=
  do! c := get in
  if negb (on c terminal) || on c terminal_user_token then ret None
  else
    put terminal_user_token true ;;
    match service_specified_user env (terminal_service_id c) with
    | Some true =>
        send_login_error "Terminal service user mismatch detected." ;; ret (Some false)
    | _ => ret None
    end.

Definition update_codec_on_login : M unit :=
  do! c := get in
  match login_option (lr c) with
  | Some o => emit (EncoderUpdate (o_supported_decoding o))
  | None => emit (EncoderUpdate None)
  end.

Definition update_scoped_login_options : M unit :=
  do! c := get in
  match options_in_login c with
  | None => skip
  | Some option =>
      modify (set_options_in_login None) ;;
      match authed_conn_type c with
      | None => skip
      | Some t =>
          match fst (scoped_login_option t option) with
          | Some option => update_options option
          | None => skip
          end
      end
  end.

Definition init_terminal_service : M unit :=
  do! c := get in
  if negb (on c terminal_user_token) then skip
  else
    when (bool_decide (terminal_service_id c = ""%string))
      (modify (set_service_id (new_service_id env))) ;;
    do! c := get in
    emit (TerminalInit (terminal_service_id c) (on c terminal_persistent)).

Definition try_sub_monitor_services : M unit :=
  do! c := get in
  when (is_remote c && negb (on c services_subed))
    (put services_subed true ;;
     let noperms :=
       (if negb (peer_keyboard_enabled c) && negb (on c show_remote_cursor)
        then [NAME_CURSOR] else [])
       ++ (if negb (on c show_remote_cursor) then [NAME_POS] else [])
       ++ (if negb (on c follow_remote_window) then [NAME_WINDOW_FOCUS] else [])
       ++ (if negb (can_sub_clipboard_service c) then [NAME_CLIPBOARD] else [])
       ++ (if negb (audio_enabled c) then [NAME_AUDIO] else []) in
     emit (MonitorServices noperms)).

(** The kind of the session that is being authorized. *)
Definition conn_type_of (c : Conn) : AuthConnType :=
  if bool_decide (is_Some (file_transfer c)) then FileTransfer
  else if on c port_forward_socket then PortForward
  else if on c view_camera then ViewCamera
  else if on c terminal then Terminal
  else Remote.

Definition normalize_conn_audit_auth_fields : M unit :=
  do! c := get in
  match conn_audit_primary_auth c with
  | ByClick | BySwitchSides => modify (set_two_factor NoTwoFactor)
  | _ => skip
  end.

(** The session's services, after the login response. *)
Definition start_session (sub_service : bool) : M unit :=
  do! c := get in
  match file_transfer c with
  | Some (dir, show_hidden) =>
      put keyboard false ;;
      let dir := if negb (bool_decide (dir = ""%string)) && is_dir env dir then dir else ""%string in
      emit (Fs (FsReadDir dir show_hidden))
  | None =>
      if on c terminal then put keyboard false ;; init_terminal_service
      else if on c view_camera then
        emit CameraServices ;; put keyboard false ;; emit (SendPermission keyboard false)
      else when sub_service try_sub_monitor_services
  end.

(** From the answer to the peer on; [t] is the kind of the session. *)
Definition open_session (t : AuthConnType) : M bool :=
  normalize_conn_audit_auth_fields ;;
  do! c := get in
  emit (ConnAudit t (conn_audit_primary_auth c) (conn_audit_two_factor c)) ;;
  if on c port_forward_socket then emit (LoginOk t) ;; ret true
  else if is_remote c && negb (bool_decide (display_server_error env = ""%string)) then
    send_login_error (display_server_error env) ;; ret true
  else
    do! sub_service :=
      (if bool_decide (is_Some (file_transfer c)) || on c terminal then
         emit (LoginOk t) ;; ret false
       else if on c view_camera then
         update_codec_on_login ;; emit (LoginOk t) ;; ret false
       else
         update_codec_on_login ;;
         (if displays_available env then emit (LoginOk t) else send_login_error "displays") ;;
         ret (displays_available env)) in
    update_scoped_login_options ;;
    start_session sub_service ;;
    ret true.

Definition send_logon_response_and_keep_alive : M bool :=
  do! c := get in
  if on c authorized then ret true
  else
    do! code_needed :=
      (if on c require_2fa then
         do! recent := is_recent_session true in ret (negb recent && negb (on c from_switch))
       else ret false) in
    if code_needed : bool then
      emit TelegramCode ;; send_login_error "2FA Required" ;; ret true
    else
      do! prepared := prepare_terminal_login_for_authorization in
      match prepared with
      | Some keep_alive => ret keep_alive
      | None =>
          do! connected := connect_port_forward_if_needed in
          if negb connected then ret false
          else
            put authorized true ;;
            do! c := get in
            let t := conn_type_of c in
            modify (set_type (Some t)) ;;
            open_session t
      end.

(** *** Closing, and messages out of scope *)

Definition on_close (lock : bool) : M unit :=
  do! c := get in
  if on c closed then skip
  else
    put closed true ;;
    emit ResetVoiceDevice ;;
    when (lock && on c lock_after_session_end && on c keyboard) (emit LockScreen) ;;
    emit (CmClosed (on c chat_unanswered || on c file_transferred)) ;;
    put port_forward_socket false.

Definition send_close_reason_no_retry (reason : string) : M unit :=
  emit (SendClose (if bool_decide (reason = ""%string) then "Closed manually by the peer" else reason)) ;;
  emit CheckRemoveSession.

Definition handle_authorized_scope_violation (message : string) : M bool :=
  do! c := get in
  let is_first := negb (bool_decide (message ∈ scope_violation_messages c)) in
  when is_first (modify (set_violations (message :: scope_violation_messages c))) ;;
  when (is_first && get_bool_option "allow-scope-violation-alarm") (emit (Alarm message)) ;;
  if get_bool_option "allow-scope-violation-close" then
    send_close_reason_no_retry "Connection not allowed" ;; on_close true ;; ret false
  else ret true.

(** *** A login request *)

Definition is_space (a : ascii) : bool :=
  let n := Z.of_N (N_of_ascii a) in ((9 <=? n) && (n <=? 13)) || (n =? 32).
(** [s.trim().is_empty()]. *)
Fixpoint blank (s : string) : bool :=
  match s with EmptyString => true | String a s => is_space a && blank s end.

Definition LOGIN_MSG_DESKTOP_SESSION_NOT_READY : string := "Desktop session not ready".
Definition LOGIN_MSG_PASSWORD_WRONG : string := "Wrong Password".

Definition should_check_linux_headless_os_auth_before_desktop_start (username : string) : bool :=
  headless_allowed env && negb (blank username) && bool_decide (headless_user env = ""%string).
Definition should_record_linux_headless_os_auth_failure (username err_msg : string) : bool :=
  headless_allowed env && negb (blank username)
  && bool_decide (err_msg = LOGIN_MSG_PASSWORD_WRONG).

(** [check_failure]: whether to go on; a refusal has been reported. *)
Definition do_check_failure (i : Z) : M bool :=
  if check_failure env i then ret true else emit (TooManyFailures i) ;; ret false.

(** The kind of session asked for: its permission, and the fields that record it. *)
Definition login_scope (l : LoginRequest) : M bool :=
  do! c := get in
  let perm key := permission key (control_permissions c) in
  match login_union l with
  | Some (LFileTransfer dir show_hidden) =>
      if negb (perm "enable-file-transfer") then
        send_login_error "No permission of file transfer" ;; ret false
      else modify (set_file_transfer (Some (dir, show_hidden))) ;; ret true
  | Some LViewCamera =>
      if negb (perm "enable-camera") then
        send_login_error "No permission of viewing camera" ;; ret false
      else put view_camera true ;; ret true
  | Some (LTerminal service_id) =>
      if negb (perm "enable-terminal") then
        send_login_error "No permission of terminal" ;; ret false
      else
        put terminal true ;;
        match options_in_login c with
        | Some o =>
            put terminal_persistent
              (bool_decide (enum_value (o_terminal_persistent o) = Some Yes))
        | None => skip
        end ;;
        modify (set_service_id service_id) ;; ret true
  | Some (LPortForward host port) =>
      if negb (perm "enable-tunnel") then
        send_login_error "No permission of IP tunneling" ;; ret false
      else modify (set_address (fst (normalize_port_forward_target host port))) ;; ret true
  | None =>
      if in_privacy_mode env then
        send_login_error "Someone turns on privacy mode, exit" ;; ret false
      else ret true
  end.

Definition do_validate_password (allow : bool) : M bool :=
  do! c := get in
  match validate_password (machine env) (config env) (hash c) (password (lr c)) allow with
  | None => ret false
  | Some a =>
      modify (set_primary_auth a) ;;
      when (bool_decide (a = ByTemporary))
        (emit (SessionPassword (temporary_password (config env))) ;;
         emit (UpdateTemporaryPassword true)) ;;
      ret true
  end.

(** Authorize, and tell the connection manager. *)
Definition log_on : M bool :=
  do! keep := send_logon_response_and_keep_alive in
  if negb keep then ret false
  else do! c := get in emit (CmLogin (on c authorized)) ;; ret true.

Definition check_credentials (l : LoginRequest) (err_msg : string) : M bool :=
  let no_err := bool_decide (err_msg = ""%string) in
  let allow_logon_screen_password :=
    bool_decide (get_builtin_option env "allow-logon-screen-password" = "Y"%string) && is_logon env in
  let click_only :=
    match approve_mode (config env) with
    | Click => negb allow_logon_screen_password
    | Both => negb (has_valid_password (machine env) (config env))
    | Password => false
    end in
  if click_only then
    emit (CmLogin false) ;;
    when (get_version_number "1.2.0" <=? get_version_number (version l))
      (send_login_error "No Password Access") ;;
    ret true
  else
    do! recent := is_recent_session false in
    if recent : bool then
      if no_err then log_on else send_login_error err_msg ;; ret true
    else if is_empty (password l) then
      (if no_err then emit (CmLogin false)
       else send_login_error "Desktop session not ready, password empty") ;;
      ret true
    else
      do! may_try := do_check_failure 0 in
      if negb may_try then ret true
      else
        do! valid := do_validate_password allow_logon_screen_password in
        if negb valid then
          emit (UpdateFailure false 0) ;; emit (UpdateTemporaryPassword false) ;;
          (if no_err then send_login_error LOGIN_MSG_PASSWORD_WRONG ;; emit (CmLogin false)
           else send_login_error "Desktop session not ready, password wrong") ;;
          ret true
        else
          emit (UpdateFailure true 0) ;;
          if no_err then log_on else send_login_error err_msg ;; ret true.

Definition on_login_request (l : LoginRequest) : M bool :=
  handle_login_request_without_validation l ;;
  do! c := get in
  if on c authorized then ret true
  else
    reset_session_scope_for_login ;;
    do! scope_ok := login_scope l in
    if negb scope_ok then ret false
    else if negb (is_direct_ip_access env (username l))
            && negb (bool_decide (username l = my_device_id env))
    then send_login_error "Offline" ;; ret false
    else
      emit StartCm ;;
      do! may_start :=
        (if should_check_linux_headless_os_auth_before_desktop_start (os_username l)
         then do_check_failure 0 else ret true) in
      if negb may_start then ret true
      else
        emit StartDesktop ;;
        let err_msg := start_desktop env in
        if negb (bool_decide (err_msg = ""%string))
           && negb (bool_decide (err_msg = LOGIN_MSG_DESKTOP_SESSION_NOT_READY))
        then
          do! may_report :=
            (if should_record_linux_headless_os_auth_failure (os_username l) err_msg then
               do! res := do_check_failure 0 in
               when res (emit (UpdateFailure false 0)) ;; ret res
             else ret true) in
          when may_report (send_login_error err_msg) ;; ret true
        else check_credentials l err_msg.

Definition on_auth_2fa (code : string) (device : raw) : M bool :=
  do! may_try := do_check_failure 1 in
  if negb may_try then ret true
  else
    do! c := get in
    if negb (on c require_2fa) then ret true
    else match totp_check env code with
    | None => ret true
    | Some false =>
        emit (UpdateFailure false 1) ;; send_login_error "Wrong 2FA Code" ;; ret true
    | Some true =>
        emit (UpdateFailure true 1) ;;
        put require_2fa false ;;
        modify (set_two_factor Totp) ;;
        emit SessionTwoFactor ;;
        do! keep := log_on in
        if negb keep then ret false
        else
          when (negb (is_empty device) && enable_trusted_devices) (emit (AddTrustedDevice device)) ;;
          ret true
    end.

Definition on_switch_sides_response (uuid : raw) (l : option LoginRequest) : M bool :=
  match l with
  | None => ret true
  | Some l =>
      handle_login_request_without_validation l ;;
      emit (ConsumeSwitchUuid (my_id l)) ;;
      if (length uuid =? 16)%nat && bool_decide (switch_uuid env (my_id l) = Some uuid) then
        put from_switch true ;;
        modify (set_primary_auth BySwitchSides) ;;
        do! keep := log_on in
        if negb keep then ret false else emit StartCm ;; ret true
      else ret true
  end.

(** *** Input *)

Definition MOUSE_TYPE_UP : Z := 2.
Definition MOUSE_TYPE_MASK : Z := 7.
Definition MOUSE_BUTTON_LEFT : Z := 1.

Definition is_left_up (me : MouseEvent) : bool :=
  (Z.shiftr (mask me) 3 =? MOUSE_BUTTON_LEFT) && (Z.land (mask me) MOUSE_TYPE_MASK =? MOUSE_TYPE_UP).

Definition on_mouse_event (me : MouseEvent) : M bool :=
  do! c := get in
  if is_authed_view_camera_conn c then ret true
  else
    (if peer_keyboard_enabled c then
       emit (Activity (is_left_up me)) ;; emit (InputMouse me true (on c show_my_cursor))
     else when (on c show_my_cursor) (emit (InputMouse me false true))) ;;
    emit TouchTimer ;; ret true.

Definition on_pointer_device_event (m : raw) : M bool :=
  do! c := get in
  if is_authed_view_camera_conn c then ret true
  else
    when (peer_keyboard_enabled c) (emit (Activity false) ;; emit (InputPointer m)) ;;
    emit TouchTimer ;; ret true.

Definition is_modifier (ke : KeyEvent) : bool :=
  match key_union ke with
  | Some (ControlKey v) => bool_decide (v ∈ [1; 29; 4; 23; 75; 73; 74; 64])
  | _ => false
  end.

(** [ControlKey::Return] and [ControlKey::NumpadEnter]. *)
Definition is_enter (ke : KeyEvent) : bool :=
  match key_union ke with Some (ControlKey v) => (v =? 27) || (v =? 72) | _ => false end.

Definition KeyboardMode_Map : Z := 1.
Definition KeyboardMode_Translate : Z := 2.

(** The modifier key an event is about, from its position code. *)
Definition modifier_of (ke : KeyEvent) : option Z :=
  let key :=
    if key_mode ke =? KeyboardMode_Map then
      Some (rdev_key env (match key_union ke with Some (Chr code) => code | _ => 0 end))
    else if key_mode ke =? KeyboardMode_Translate then
      match key_union ke with
      | Some (Chr code) => Some (rdev_key env (Z.land code 0xFFFF))
      | _ => None
      end
    else None in
  match key with
  | Some k => if is_modifier_key env k then Some k else None
  | None => None
  end.

Definition on_key_event (ke : KeyEvent) : M bool :=
  do! c := get in
  if is_authed_view_camera_conn c then ret true
  else
    when (peer_keyboard_enabled c)
      (when (is_enter ke) (emit (Activity true)) ;;
       emit (Activity false) ;;
       let key := modifier_of ke in
       let is_press :=
         (key_press ke || key_down ke) && negb (is_modifier ke || bool_decide (is_Some key)) in
       match key with
       | Some k =>
           let others := List.filter (fun x => negb (x =? k)) (pressed_modifiers c) in
           modify (set_modifiers (if is_press then k :: others else others))
       | None => skip
       end ;;
       if is_press then
         match key_union ke with
         | Some (Unicode _) | Some (Seq _) => emit (InputKey ke false)
         | _ => emit (InputKey ke true)
         end
       else emit (InputKey ke false)) ;;
    emit TouchTimer ;; ret true.

Definition on_clipboard (cbs : list raw) : M bool :=
  do! c := get in
  when (should_handle_text_clipboard_message c && clipboard_enabled c) (emit (UpdateClipboard cbs)) ;;
  ret true.

(** *** Files *)

Definition can_enable_overwrite_detection (c : Conn) : bool :=
  get_version_number "1.1.10" <=? get_version_number (version (lr c)).

(** [JobType::from_proto] gives [Printer]. *)
Definition is_printer (file_type : Z) : bool := file_type =? 1.

Definition one_way_job (fa : FileAction) : option Z :=
  match fa with
  | FaSend id _ _ _ _ => Some id
  | RemoveFile id _ _ => Some id
  | Rename id _ _ => Some id
  | Create id _ => Some id
  | RemoveDir id _ _ => Some id
  | _ => None
  end.

Definition on_send (id : Z) (path : string) (include_hidden : bool) (file_num file_type : Z)
  : M bool :=
  do! c := get in
  if is_printer file_type then
    match list_find (fun p => fst p = path) (printer_data c) with
    | Some (i, _) =>
        modify (set_printer (delete i (printer_data c))) ;;
        emit (StartReadJob id path true file_num include_hidden true) ;;
        put file_transferred true ;; ret true
    | None => ret true
    end
  else
    emit (StartReadJob id path false file_num include_hidden (can_enable_overwrite_detection c)) ;;
    put file_transferred true ;; ret true.

Definition do_file_action (fa : option FileAction) : M bool :=
  match fa with
  | Some (ReadEmptyDirs path include_hidden) =>
      emit (Fs (FsReadEmptyDirs path include_hidden)) ;; ret true
  | Some (ReadDir path include_hidden) => emit (Fs (FsReadDir path include_hidden)) ;; ret true
  | Some (AllFiles id path include_hidden) =>
      emit (ReadRecursive id path include_hidden) ;; ret true
  | Some (FaSend id path include_hidden file_num file_type) =>
      on_send id path include_hidden file_num file_type
  | Some (Receive id path files file_num total_size) =>
      do! c := get in
      emit (Fs (FsNewWrite path id file_num files (can_enable_overwrite_detection c) total_size)) ;;
      emit (FileAudit path) ;;
      put file_transferred true ;; ret true
  | Some (RemoveDir id path recursive) =>
      emit (Fs (FsRemoveDir path id recursive)) ;; emit (LogRemoveDir id path recursive) ;; ret true
  | Some (RemoveFile id path file_num) =>
      emit (Fs (FsRemoveFile path id file_num)) ;; emit (LogRemoveFile id path file_num) ;; ret true
  | Some (Create id path) => emit (Fs (FsCreateDir path id)) ;; emit (ToCm "create_dir") ;; ret true
  | Some (Cancel id) =>
      emit (Fs (FsCancelWrite id)) ;; emit (Fs (FsCancelRead id)) ;;
      when (has_read_job env id) (emit (RemoveJob id) ;; emit (ToCm "transfer")) ;; ret true
  | Some (SendConfirm id file_num skip offset_blk) =>
      (if has_read_job env id then emit (ConfirmJob id) else emit (Fs (FsSendConfirm id file_num))) ;;
      ret true
  | Some (Rename id path new_name) =>
      emit (Fs (FsRename id path new_name)) ;; emit (ToCm "rename") ;; ret true
  | None => ret true
  end.

Definition on_file_action (fa : option FileAction) : M bool :=
  do! c := get in
  let handle_fa :=
    bool_decide (is_Some (file_transfer c))
    || match fa with Some (FaSend _ _ _ _ ft) => is_printer ft | _ => false end in
  if negb handle_fa then ret true
  else match delayed_read_dir c with
  | Some _ =>
      match fa with
      | Some (ReadDir path include_hidden) => modify (set_delayed (Some (path, include_hidden)))
      | _ => skip
      end ;; ret true
  | None =>
      let job_id :=
        if bool_decide (get_builtin_option env "one-way-file-transfer" = "Y"%string)
        then match fa with Some fa => one_way_job fa | None => None end else None in
      match job_id with
      | Some id => emit (FileError id "one-way-file-transfer-tip") ;; ret true
      | None => do_file_action fa
      end
  end.

Definition on_file_response (fr : option FileResponse) : M bool :=
  match fr with
  | Some (FrBlock id file_num data compressed) =>
      emit (Fs (FsWriteBlock id file_num data compressed))
  | Some (FrDone id file_num) => emit (Fs (FsWriteDone id file_num))
  | Some (FrDigest id file_num last_modified file_size is_resume) =>
      emit (Fs (FsCheckDigest id file_num file_size last_modified is_resume))
  | Some (FrError id err file_num) => emit (Fs (FsWriteError id file_num err))
  | _ => skip
  end ;; ret true.

(** *** Displays, audio, terminals *)

Definition change_resolution (d : option Z) (width height : Z) : M unit :=
  do! c := get in
  when (on c keyboard) (emit (SetResolution (default (display_idx c) d) width height)).

Definition handle_switch_display (s : SwitchDisplay) : M unit :=
  do! c := get in
  let display := wrap 64 (sd_display s) in
  when (negb (display_idx c =? display))
    (emit (SwitchDisplayTo (on c view_camera) display) ;;
     modify (set_display_idx display) ;;
     when (negb (on c view_camera) && negb (sd_width s =? 0) && negb (sd_height s =? 0))
       (change_resolution None (sd_width s) (sd_height s)) ;;
     emit (DisplayChanged (on c view_camera) display)).

Definition capture_displays (add sub set : list Z) : M unit :=
  do! c := get in
  emit (DoCaptureDisplays (on c view_camera) (wrap 64 <$> add) (wrap 64 <$> sub) (wrap 64 <$> set)) ;;
  when (on c follow_remote_window)
    (emit (Subscribe NAME_WINDOW_FOCUS (negb (multi_ui_session env)))).

Definition close_voice_call : M unit :=
  emit ResetVoiceDevice ;;
  emit (ToCm "CloseVoiceCall") ;;
  put voice_calling false ;;
  do! c := get in
  when (is_authed_view_camera_conn c) (emit (Subscribe NAME_AUDIO false)).

Definition handle_voice_call (accepted : bool) : M unit :=
  do! c := get in
  match voice_call_request_timestamp c with
  | None => skip
  | Some _ =>
      modify (set_voice_timestamp None) ;;
      (if accepted then emit ResetVoiceDevice ;; emit (ToCm "StartVoiceCall")
       else emit (ToCm "CloseVoiceCall")) ;;
      emit (Send "voice_call_response") ;;
      put voice_calling accepted ;;
      do! c := get in
      when (is_authed_view_camera_conn c)
        (emit (Subscribe NAME_AUDIO (audio_enabled c && accepted)))
  end.

Definition handle_terminal_action (a : Action) : M unit :=
  do! c := get in
  if negb (on c terminal_user_token) then skip
  else
    emit (TerminalDo (terminal_service_id c) (on c terminal_persistent) a) ;;
    emit (Send "terminal_response").

Definition on_misc (m : option Misc) : M bool :=
  do! c := get in
  match m with
  | Some (MSwitchDisplay s) => handle_switch_display s ;; ret true
  | Some (CaptureDisplays add sub set) => capture_displays add sub set ;; ret true
  | Some (TogglePrivacyMode impl_key b) =>
      when (negb (on c view_camera)) (toggle_privacy_mode impl_key b) ;; ret true
  | Some (ChatMessage _) =>
      emit (ToCm "chat") ;; put chat_unanswered true ;; emit TouchTimer ;; ret true
  | Some (MOption o) =>
      (if bool_decide (authed_conn_type c = Some Remote) then update_options o
       else match scoped_update_option_message (authed_conn_type c) o with
            | Some option => update_options option
            | None => skip
            end) ;; ret true
  | Some (RefreshVideo r) =>
      when (should_handle_render_broadcast_message c)
        (when r (emit (RefreshVideoOf (on c view_camera) None)) ;; emit TouchTimer) ;; ret true
  | Some (RefreshVideoDisplay display) =>
      when (should_handle_render_broadcast_message c)
        (emit (RefreshVideoOf (on c view_camera) (Some (wrap 64 display))) ;; emit TouchTimer) ;;
      ret true
  | Some (VideoReceived _) => emit VideoFetched ;; ret true
  | Some (RestartRemoteDevice _) =>
      when (on c restart) (emit (Reboot true) ;; emit (Reboot false)) ;; ret true
  | Some (AudioFormat format) =>
      when (negb (on c disable_audio)) (put audio_sender true ;; emit (StartAudio format)) ;; ret true
  | Some (SwitchSidesRequest uuid) =>
      if (length uuid =? 16)%nat then
        emit (SwitchSides uuid) ;; on_close false ;; ret false
      else ret true
  | Some (ChangeResolution width height) =>
      when (negb (on c view_camera)) (change_resolution None width height) ;; ret true
  | Some (ChangeDisplayResolution display width height) =>
      when (negb (on c view_camera)) (change_resolution (Some (wrap 64 display)) width height) ;;
      ret true
  | Some (AutoAdjustFps fps) => emit (QosAutoAdjustFps fps) ;; ret true
  | Some (ClientRecordStatus status) => emit (QosRecord status) ;; ret true
  | Some (MessageQuery display) =>
      emit (DisplayChanged (on c view_camera) (wrap 64 display)) ;; ret true
  | _ => ret true
  end.

Definition on_authorized_message (m : option Message) : M bool :=
  do! c := get in
  match m with
  | Some (MMouseEvent me) => on_mouse_event me
  | Some (PointerDeviceEvent pde) => on_pointer_device_event pde
  | Some (MKeyEvent ke) => on_key_event ke
  | Some (Clipboard cb) => on_clipboard [cb]
  | Some (MultiClipboards cbs) => on_clipboard cbs
  | Some (MFileAction fa) => on_file_action fa
  | Some (MFileResponse fr) => on_file_response fr
  | Some (MMisc misc) => on_misc misc
  | Some (AudioFrame frame) =>
      when (negb (on c disable_audio) && on c audio_sender) (emit (PlayAudio frame)) ;; ret true
  | Some (VoiceCallRequest ts is_connect) =>
      (if is_connect then
         modify (set_voice_timestamp (Some (if ts =? 0 then now env else ts))) ;;
         emit (ToCm "VoiceCallIncoming")
       else close_voice_call) ;; ret true
  | Some (ScreenshotRequest display sid) =>
      emit (TakeScreenshot (on c view_camera) (wrap 64 display) sid) ;;
      emit (RefreshVideoOf (on c view_camera) (Some (wrap 64 display))) ;; ret true
  | Some (TerminalAction a) => handle_terminal_action a ;; ret true
  | _ => ret true
  end.

Definition on_message (m : option Message) : M bool :=
  do! c := get in
  match m with
  | Some (MMisc (Some (CloseReason _))) =>
      on_close true ;; emit CheckRemoveSession ;; ret false
  | _ =>
      if on c authorized && match m with Some (MLoginRequest _) => true | _ => false end
      then ret true
      else
      match (if on c authorized then authorized_scope_violation (authed_conn_type c) m else None) with
      | Some message => handle_authorized_scope_violation message
      | None =>
          match m with
          | Some (MLoginRequest l) => on_login_request l
          | Some (Auth2FA code device) => on_auth_2fa code device
          | Some (TestDelay time from_client _ _) =>
              (if from_client then emit (Echo time)
               else when (on c last_test_delay) (put last_test_delay false ;; emit QosDelay)) ;;
              ret true
          | Some (SwitchSidesResponse uuid l) => on_switch_sides_response uuid l
          | _ =>
              if on c authorized then
                if on c port_forward_socket then ret true else on_authorized_message m
              else ret true
          end
      end
  end.

(** *** The connection manager *)

Inductive CmData : Type :=
| CmAuthorize
| CmClose
| CmErr (e : string)
| CmChat (message : string)
| CmSwitchPermission (name : string) (enabled : bool)
| CmVoiceCallResponse (accepted : bool)
| CmCloseVoiceCall.

Definition set_permission (f : Field) (enabled : bool) : M unit :=
  put f enabled ;; emit (SendPermission f enabled).

Definition switch_privacy_mode (enabled : bool) : M unit :=
  if negb enabled && in_privacy_mode env && privacy_mode_is_mine env then
    emit PrivacyRevoked ;;
    if privacy_off_succeeds env then
      emit (Send "PrvOffByPeer") ;; set_permission privacy_mode enabled
    else emit (Send "PrvOffFailed") ;; emit (ToCm "SwitchPermission")
  else set_permission privacy_mode enabled.

Definition switch_permission (name : string) (enabled : bool) : M unit :=
  if bool_decide (name = "keyboard"%string) then
    set_permission keyboard enabled ;; subscribe_clipboard ;;
    do! c := get in emit (Subscribe NAME_CURSOR (enabled || on c show_remote_cursor))
  else if bool_decide (name = "clipboard"%string) then
    set_permission clipboard enabled ;; subscribe_clipboard
  else if bool_decide (name = "audio"%string) then
    set_permission audio enabled ;;
    do! c := get in when (on c authorized) subscribe_audio
  else if bool_decide (name = "file"%string) then set_permission file enabled
  else if bool_decide (name = "restart"%string) then set_permission restart enabled
  else if bool_decide (name = "recording"%string) then set_permission recording enabled
  else if bool_decide (name = "block_input"%string) then set_permission block_input enabled
  else if bool_decide (name = "privacy_mode"%string) then switch_privacy_mode enabled
  else skip.

Definition on_cm (d : CmData) : M bool :=
  match d with
  | CmAuthorize =>
      modify (set_primary_auth ByClick) ;; put require_2fa false ;;
      do! keep := send_logon_response_and_keep_alive in
      if negb keep then ret false
      else do! c := get in ret (negb (on c port_forward_socket))
  | CmClose =>
      put chat_unanswered false ;; put file_transferred false ;;
      send_close_reason_no_retry "" ;; on_close true ;; ret false
  | CmErr e =>
      if bool_decide (e = "expected"%string) then ret true else on_close false ;; ret false
  | CmChat _ => emit (Send "chat") ;; put chat_unanswered false ;; ret true
  | CmSwitchPermission name enabled => switch_permission name enabled ;; ret true
  | CmVoiceCallResponse accepted => handle_voice_call accepted ;; ret true
  | CmCloseVoiceCall => close_voice_call ;; emit (Send "voice_call_request") ;; ret true
  end.

Inductive Event : Type :=
| Peer (m : option Message)
| Manager (d : CmData)
| StreamClosed                            (* an error or the end of the peer's stream *)
| SendFailed
| WebConsole
| StopService
| SecondTimer
| TestDelayTimer.

(** The peer is asked to answer once a second; its silence ends the connection. *)
Definition on_test_delay_timer : M bool :=
  if silent env then on_close true ;; ret false
  else
    do! c := get in
    when (negb (on c last_test_delay) && negb (on c port_forward_socket && on c authorized))
      (put last_test_delay true ;; emit (Send "test_delay")) ;;
    do! c := get in
    when ((is_authed_remote_conn c || on c view_camera) && on c last_test_delay)
      (emit QosDelayElapsed) ;;
    ret true.

(** The connection goes on; a port-forwarding one leaves the loop to copy bytes. *)
Definition step (e : Event) : M bool :=
  match e with
  | Peer m =>
      do! keep := on_message m in
      if negb keep then ret false
      else
        do! c := get in
        ret (negb (on c port_forward_socket && on c authorized && negb (on c last_test_delay)))
  | Manager d => on_cm d
  | StreamClosed => on_close true ;; ret false
  | SendFailed => on_close false ;; ret false
  | WebConsole =>
      send_close_reason_no_retry "Closed manually by web console" ;; on_close true ;; ret false
  | StopService => send_close_reason_no_retry "" ;; on_close false ;; ret false
  | SecondTimer =>
      if idle env then
        send_close_reason_no_retry "Connection failed due to inactivity" ;; on_close true ;; ret false
      else ret true
  | TestDelayTimer => on_test_delay_timer
  end.

(** Bytes are copied until one side ends; the result says whether there was no error. *)
Definition try_port_forward_loop : M bool :=
  do! c := get in
  if on c port_forward_socket then
    put port_forward_socket false ;; emit (ForwardBytes (port_forward_address c)) ;; ret false
  else ret true.

(** After the loop. *)
Definition finish : M unit :=
  when (privacy_mode_is_mine env) (emit PrivacyEnded) ;;
  do! c := get in
  when (on c authorized) (emit NewTemporaryPassword) ;;
  do! ok := try_port_forward_loop in
  when (negb ok) (on_close false ;; emit CheckRemoveSession) ;;
  emit ConnAuditClose ;;
  emit RemoveConnection ;;
  on_close true.
End Handlers.

(** The peer is told which permissions it lacks. *)
Fixpoint announce (fs : list Field) : M unit :=
  match fs with
  | [] => skip
  | f :: fs =>
      do! c := get in
      when (negb (on c f)) (emit (SendPermission f false)) ;; announce fs
  end.

Definition announced : list Field :=
  [keyboard; clipboard; audio; file; restart; recording; block_input; privacy_mode].

(** The loop of [Connection::start]: events are handled until one ends the
    connection.  The result is whether it goes on, its state, and what it did. *)
Fixpoint run `{Crypto} (evs : list (Env * Event)) : M bool :=
  match evs with
  | [] => ret true
  | (env, e) :: evs =>
      do! keep := step env e in
      if keep : bool then run evs else ret false
  end.

(** A connection from its first message on; [last] is the environment after the loop. *)
Definition serve `{Crypto} (evs : list (Env * Event)) (last : Env) : M bool :=
  announce announced ;;
  do! goes_on := run evs in
  when (negb goes_on) (finish last) ;;
  ret goes_on.
