(* ===== verification/ConnectionTrace.v ===== *)
(** * What a connection keeps, step by step

    Relations between the state before a handler, the effects it emits and the state
    after it, that hold of the handlers of [Connection] because they hold of their
    elementary operations: the permissions the peer has been told, the notice that
    ends a connection, the socket of a port-forwarding session. *)

From S2P Require Import Prelude TermBuffer TermService Messages SessionScope Passwords Connection.

#[local] Opaque get_version_number.

(** ** Relations on traces *)

Class TraceRel (R : Conn -> list (Conn * Effect) -> Conn -> Prop) : Prop := {
  trace_nil c : R c [] c;
  trace_app c1 es1 c2 es2 c3 : R c1 es1 c2 -> R c2 es2 c3 -> R c1 (es1 ++ es2) c3 }.

Definition moves {A} (R : Conn -> list (Conn * Effect) -> Conn -> Prop) (m : M A) : Prop :=
  forall c, R c (snd (m c)) (snd (fst (m c))).

Section Moves.
Context R `{!TraceRel R}.

Lemma moves_ret {A} (a : A) : moves R (ret a).
Proof. intros c. apply trace_nil. Qed.

Lemma moves_get : moves R get.
Proof. intros c. apply trace_nil. Qed.

Lemma moves_emit e : (forall c, R c [(c, e)] c) -> moves R (emit e).
Proof. intros He c. apply He. Qed.

Lemma moves_modify g : (forall c, R c [] (g c)) -> moves R (modify g).
Proof. intros Hg c. apply Hg. Qed.

Lemma moves_bind {A B} (m : M A) (k : A -> M B) :
  moves R m -> (forall a, moves R (k a)) -> moves R (bind m k).
Proof.
  intros Hm Hk c. unfold bind. specialize (Hm c). destruct (m c) as [[a c1] es].
  specialize (Hk a c1). destruct (k a c1) as [[b c2] es2]. by eapply trace_app.
Qed.

Lemma moves_when b m : moves R m -> moves R (when b m).
Proof. intros Hm. destruct b; [done|apply moves_ret]. Qed.

Lemma moves_result {A} (m : M A) c a c' es : moves R m -> m c = (a, c', es) -> R c es c'.
Proof. intros Hm E. specialize (Hm c). by rewrite E in Hm. Qed.
End Moves.

(** Walk through a handler; the leaves are left. *)
Ltac through :=
  repeat lazymatch goal with
  | |- moves _ (ret _) => apply moves_ret; apply _
  | |- moves _ skip => apply moves_ret; apply _
  | |- moves _ get => apply moves_get; apply _
  | |- moves _ (when _ _) => apply moves_when; [apply _|]
  | |- moves _ (bind _ _) => apply moves_bind; [apply _| |intros ?]
  | |- moves _ (if ?b then _ else _) => destruct b
  | |- moves _ (match ?x with _ => _ end) => destruct x
  end.

(** [m] does not change what [f] sees of the connection. *)
Definition unchanged {X} (f : Conn -> X) : Conn -> list (Conn * Effect) -> Conn -> Prop :=
  fun c _ c' => f c' = f c.

#[export] Instance unchanged_trace {X} (f : Conn -> X) : TraceRel (unchanged f).
Proof. split; unfold unchanged; [done|]. intros ????? -> ->. done. Qed.

Notation leaves f m := (moves (unchanged f) m).

Ltac leave :=
  through;
  lazymatch goal with
  | |- moves _ (emit _) => by apply moves_emit
  | |- moves _ (send_login_error _) => by apply moves_emit
  | |- moves _ (modify _) => apply moves_modify; intros ?; reflexivity
  | |- moves _ (put _ _) => apply moves_modify; intros ?; reflexivity
  | |- _ => idtac
  end.

(** ** Every handler, from its elementary operations *)

(** The effects and fields that need care. *)
Definition loud (e : Effect) : bool :=
  match e with
  | SendPermission f _ => negb (field_id f =? field_id keyboard)
  | CmClosed _ => true
  | _ => false
  end.

Definition guarded (f : Field) : bool :=
  match f with
  | authorized | port_forward_socket | closed
  | clipboard | audio | file | restart | recording | block_input | privacy_mode => true
  | _ => false
  end.

Section Handlers.
Context R `{!TraceRel R} `{Crypto}.
Variable env : Env.
Hypothesis quiet_emit : forall e c, loud e = false -> R c [(c, e)] c.
Hypothesis other_fields : forall g c, bools (g c) = bools c -> R c [] (g c).
Hypothesis plain_put : forall f b c, guarded f = false -> R c [] (set_bool f b c).
Hypothesis close_moves : forall lock, moves R (on_close lock).
Hypothesis permission_moves : forall f b, f ∈ announced -> moves R (set_permission f b).

Ltac leaf :=
  lazymatch goal with
  | |- moves _ (emit _) => apply moves_emit; intros ?; by apply quiet_emit
  | |- moves _ (send_login_error _) => apply moves_emit; intros ?; by apply quiet_emit
  | |- moves _ (modify _) => apply moves_modify; intros ?; by apply other_fields
  | |- moves _ (put _ _) => apply moves_modify; intros ?; by apply plain_put
  | |- moves _ (on_close _) => apply close_moves
  | |- _ => idtac
  end.

Lemma subscribe_audio_moves : moves R subscribe_audio.
Proof. unfold subscribe_audio. through; leaf. Qed.

Lemma subscribe_clipboard_moves : moves R (subscribe_clipboard env).
Proof. unfold subscribe_clipboard. through; leaf. Qed.

Lemma turn_privacy_moves k b : moves R (toggle_privacy_mode env k b).
Proof. unfold toggle_privacy_mode, turn_on_privacy, turn_off_privacy. through; leaf. Qed.

Lemma update_options_moves o : moves R (update_options env o).
Proof.
  unfold update_options, update_image_quality, update_cursor_options, update_disable_options,
    update_privacy_option, update_block_input_option, update_show_my_cursor,
    update_terminal_persistence.
  through; leaf;
    first [ apply subscribe_audio_moves | apply subscribe_clipboard_moves
          | apply (turn_privacy_moves _ true) | apply (turn_privacy_moves _ false) ].
Qed.

Lemma open_session_moves t : moves R (open_session env t).
Proof.
  unfold open_session, normalize_conn_audit_auth_fields, update_codec_on_login,
    update_scoped_login_options, start_session, init_terminal_service, try_sub_monitor_services.
  through; leaf; apply update_options_moves.
Qed.

Lemma recent_session_moves tfa : moves R (is_recent_session env tfa).
Proof. unfold is_recent_session. through; leaf. Qed.

Lemma prepare_terminal_moves : moves R (prepare_terminal_login_for_authorization env).
Proof. unfold prepare_terminal_login_for_authorization. through; leaf. Qed.

Lemma handle_voice_call_moves b : moves R (handle_voice_call b).
Proof. unfold handle_voice_call. through; leaf. Qed.

Lemma close_voice_call_moves : moves R close_voice_call.
Proof. unfold close_voice_call. through; leaf. Qed.

Lemma on_misc_moves m : moves R (on_misc env m).
Proof.
  unfold on_misc, handle_switch_display, capture_displays, change_resolution.
  through; leaf; first [ apply update_options_moves | apply turn_privacy_moves ].
Qed.

Lemma on_file_action_moves fa : moves R (on_file_action env fa).
Proof. unfold on_file_action, do_file_action, on_send. through; leaf. Qed.

Lemma on_authorized_message_moves m : moves R (on_authorized_message env m).
Proof.
  unfold on_authorized_message, on_mouse_event, on_pointer_device_event, on_key_event, on_clipboard,
    on_file_response, handle_terminal_action.
  through; leaf;
    first [ apply on_misc_moves | apply on_file_action_moves | apply close_voice_call_moves ].
Qed.

Lemma without_validation_moves l : moves R (handle_login_request_without_validation env l).
Proof. unfold handle_login_request_without_validation. through; leaf. Qed.

Lemma violation_moves msg : moves R (handle_authorized_scope_violation env msg).
Proof. unfold handle_authorized_scope_violation, send_close_reason_no_retry. through; leaf. Qed.

Lemma switch_permission_moves name b : moves R (switch_permission env name b).
Proof.
  unfold switch_permission, switch_privacy_mode.
  through; leaf; first [ apply permission_moves; set_solver | apply subscribe_clipboard_moves
                    | apply subscribe_audio_moves ].
Qed.

(** The end of a login, from the connection to a forwarded port on. *)
Definition enter : M bool :=
  do! connected := connect_port_forward_if_needed env in
  if negb connected then ret false
  else
    put authorized true ;;
    do! c := get in
    let t := conn_type_of c in
    modify (set_type (Some t)) ;;
    open_session env t.

Lemma logon_enters : moves R enter -> moves R (send_logon_response_and_keep_alive env).
Proof.
  intros He. unfold send_logon_response_and_keep_alive.
  fold enter. set (e := enter) in *. clearbody e.
  through; leaf; first [ exact He | apply recent_session_moves | apply prepare_terminal_moves ].
Qed.

(** The one handler that sets what [guarded] sets apart. *)
Hypothesis logon_moves : moves R (send_logon_response_and_keep_alive env).

Lemma log_on_moves : moves R (log_on env).
Proof. unfold log_on. through; leaf. apply logon_moves. Qed.

Lemma credentials_moves l err : moves R (check_credentials env l err).
Proof.
  unfold check_credentials, do_check_failure, do_validate_password.
  generalize (get_version_number "1.2.0" <=? get_version_number (version l)). intros new.
  through; leaf; first [ apply log_on_moves | apply recent_session_moves ].
Qed.

Lemma login_request_moves l : moves R (on_login_request env l).
Proof.
  unfold on_login_request, reset_session_scope_for_login, login_scope, do_check_failure.
  through; leaf; first [ apply without_validation_moves | apply credentials_moves ].
Qed.

Lemma on_message_moves m : moves R (on_message env m).
Proof.
  unfold on_message, on_auth_2fa, on_switch_sides_response, do_check_failure.
  apply moves_bind; [apply _|apply moves_get; apply _|]. intros c.
  destruct m as [[]|]; through; leaf;
    first [ apply login_request_moves | apply violation_moves | apply on_authorized_message_moves
          | apply log_on_moves | apply without_validation_moves ].
Qed.

Lemma on_cm_moves d : moves R (on_cm env d).
Proof.
  unfold on_cm, send_close_reason_no_retry.
  through; leaf; first [ apply logon_moves | apply switch_permission_moves
                    | apply handle_voice_call_moves | apply close_voice_call_moves ].
Qed.

Lemma step_moves e : moves R (step env e).
Proof.
  unfold step, on_test_delay_timer, send_close_reason_no_retry.
  through; leaf; first [ apply on_message_moves | apply on_cm_moves ].
Qed.

Hypothesis socket_taken : forall c, R c [] (set_bool port_forward_socket false c).

Lemma finish_moves : moves R (finish env).
Proof.
  unfold finish, try_port_forward_loop.
  through; first [ by leaf | apply moves_modify; intros ?; apply socket_taken ].
Qed.
End Handlers.

Lemma run_moves `{Crypto} R `{!TraceRel R} evs :
  (forall env e, moves R (step env e)) -> moves R (run evs).
Proof.
  intros Hs. induction evs as [|[env e] evs IH]; [by apply moves_ret|]. cbn.
  apply moves_bind; [done|apply Hs|]. intros []; [done|by apply moves_ret].
Qed.

(** *** The socket of a port-forwarding session *)

(** A connection to a forwarded port is kept by authorized peers only. *)
Definition owned (c : Conn) : Prop := on c port_forward_socket = true -> on c authorized = true.
Definition keeps_owned (c : Conn) (es : list (Conn * Effect)) (c' : Conn) : Prop := owned c -> owned c'.

#[export] Instance owned_trace : TraceRel keeps_owned.
Proof. split; unfold keeps_owned; auto. Qed.

(** *** What the peer is told of its permissions *)

(** What the last notice about [f] said; [b] before any. *)
Fixpoint told (f : Field) (b : bool) (es : list (Conn * Effect)) : bool :=
  match es with
  | [] => b
  | (_, SendPermission g v) :: es => told f (if field_id g =? field_id f then v else b) es
  | _ :: es => told f b es
  end.

Definition tells (f : Field) (c : Conn) (es : list (Conn * Effect)) (c' : Conn) : Prop :=
  told f (on c f) es = on c' f.

Lemma told_app f b es1 es2 : told f b (es1 ++ es2) = told f (told f b es1) es2.
Proof. revert b. induction es1 as [|[s e] es1 IH]; intros b; [done|]. destruct e; cbn; apply IH. Qed.

#[export] Instance tells_trace f : TraceRel (tells f).
Proof. split; unfold tells; [done|]. intros * H1 H2. by rewrite told_app, H1. Qed.

(** *** The notice that ends a connection *)

Fixpoint closings (es : list (Conn * Effect)) : nat :=
  match es with
  | [] => 0
  | (_, CmClosed _) :: es => S (closings es)
  | _ :: es => closings es
  end.

Definition closes (c : Conn) (es : list (Conn * Effect)) (c' : Conn) : Prop :=
  (closings es + Nat.b2n (on c closed))%nat = Nat.b2n (on c' closed).

Lemma closings_app es1 es2 : closings (es1 ++ es2) = (closings es1 + closings es2)%nat.
Proof. induction es1 as [|[s []] es1 IH]; cbn; rewrite ?IH; done. Qed.

#[export] Instance closes_trace : TraceRel closes.
Proof. split; unfold closes; [done|]. intros *. rewrite closings_app. lia. Qed.

(** ** The relations hold of every step *)

Section Instances.
Context `{Crypto}.
Variable env : Env.

(** A relation holds of a sequence when it holds of what the first part leads to. *)
Lemma moves_after {A B} R `{!TraceRel R} (m : M A) (k : A -> M B) :
  (forall c a c1 es1, m c = (a, c1, es1) ->
     R c (es1 ++ snd (k a c1)) (snd (fst (k a c1)))) ->
  moves R (bind m k).
Proof.
  intros Hk c. unfold bind. destruct (m c) as [[a c1] es1] eqn:E. specialize (Hk c a c1 es1 E).
  by destruct (k a c1) as [[b c2] es2].
Qed.

(** A connection to the forwarded port that fails leaves no socket. *)
Lemma connect_result c c1 es1 :
  connect_port_forward_if_needed env c = (false, c1, es1) -> on c1 port_forward_socket = false.
Proof.
  unfold connect_port_forward_if_needed, bind, get, ret, modify, emit, put, send_login_error.
  intros E. destruct (on c port_forward_socket) eqn:Es; [by simplify_eq|].
  destruct (login_union (lr c)) as [[]|]; simplify_eq/=.
  destruct (normalize_port_forward_target _ _) as [addr rdp].
  destruct (connects env addr); simplify_eq/=. exact Es.
Qed.

Lemma quiet_owned e c : loud e = false -> keeps_owned c [(c, e)] c.
Proof. by intros _ ?. Qed.

Lemma fields_owned g c : bools (g c) = bools c -> keeps_owned c [] (g c).
Proof. unfold keeps_owned, owned, on. by intros ->. Qed.

Lemma put_owned f b c : guarded f = false -> keeps_owned c [] (set_bool f b c).
Proof. unfold keeps_owned, owned, on. by destruct f. Qed.

Lemma close_owned lock : moves keeps_owned (on_close lock).
Proof.
  unfold on_close. through; lazymatch goal with
  | |- moves _ (emit _) => apply moves_emit; by intros ? ?
  | |- moves _ (put _ _) => apply moves_modify; intros ?; unfold keeps_owned, owned, on; by cbn
  end.
Qed.

Lemma permission_owned f b : f ∈ announced -> moves keeps_owned (set_permission f b).
Proof.
  intros Hf. unfold set_permission. through; [|apply moves_emit; by intros ? ?].
  apply moves_modify. intros c. unfold keeps_owned, owned, on. destruct f; cbn; try done; set_solver.
Qed.

Lemma authorized_owned {A} (k : M A) c :
  moves keeps_owned k -> owned (snd (fst ((put authorized true ;; k) c))).
Proof.
  intros Hk. specialize (Hk (set_bool authorized true c)). unfold bind, put, modify.
  destruct (k _) as [[b c2] es]. apply Hk. by intros _.
Qed.

Lemma logon_owned : moves keeps_owned (send_logon_response_and_keep_alive env).
Proof.
  apply (logon_enters keeps_owned env quiet_owned fields_owned put_owned).
  apply moves_after; [apply _|]. intros c a c1 es1 E _. destruct a; cbn [negb].
  - apply authorized_owned. through; [by apply moves_modify; intros ? ?|].
    apply (open_session_moves keeps_owned env quiet_owned fields_owned put_owned).
  - unfold owned. cbn. by rewrite (connect_result _ _ _ E).
Qed.

Lemma step_owned e : moves keeps_owned (step env e).
Proof.
  apply (step_moves keeps_owned env quiet_owned fields_owned put_owned close_owned
           permission_owned logon_owned).
Qed.
End Instances.

(** The peer is told of each of these permissions. *)
Definition told_of : list Field :=
  [clipboard; audio; file; restart; recording; block_input; privacy_mode].

Section Tells.
Context `{Crypto}.
Variables (env : Env) (f : Field).
Hypothesis Hf : f ∈ told_of.

Lemma quiet_tells e c : loud e = false -> tells f c [(c, e)] c.
Proof.
  unfold tells. destruct e; try done. cbn. intros Hq%negb_false_iff%Z.eqb_eq.
  case_match eqn:E; [|done]. apply Z.eqb_eq in E. rewrite Hq in E.
  destruct f; cbn in E; try done; exfalso; clear -Hf; set_solver.
Qed.

Lemma fields_tells g c : bools (g c) = bools c -> tells f c [] (g c).
Proof. unfold tells, on. by intros ->. Qed.

Lemma put_tells g b c : guarded g = false -> tells f c [] (set_bool g b c).
Proof.
  unfold tells, on. cbn. intros Hg. case_match eqn:E; [|done]. exfalso. apply Z.eqb_eq in E.
  destruct f, g; cbn in *; try done; clear -Hf; set_solver.
Qed.

(** Fields of which nothing is told. *)
Lemma silent_put_tells g b : g ∉ told_of -> moves (tells f) (put g b).
Proof.
  intros Hg. apply moves_modify. intros c. unfold tells, on. cbn. case_match eqn:E; [|done].
  exfalso. apply Z.eqb_eq in E. apply Hg. by destruct f, g.
Qed.

Lemma silent_emit_tells e : (forall g b, e <> SendPermission g b) -> moves (tells f) (emit e).
Proof. intros He. apply moves_emit. intros c. unfold tells. destruct e; try done. by edestruct He. Qed.

Lemma close_tells lock : moves (tells f) (on_close lock).
Proof.
  unfold on_close. through;
    first [ by apply silent_emit_tells | apply silent_put_tells; set_solver ].
Qed.

Lemma permission_tells g b : g ∈ announced -> moves (tells f) (set_permission g b).
Proof.
  intros _ c. unfold tells, set_permission, bind, put, modify, emit, on. cbn.
  rewrite Z.eqb_sym. by destruct (field_id f =? field_id g).
Qed.

Lemma logon_tells : moves (tells f) (send_logon_response_and_keep_alive env).
Proof.
  apply (logon_enters (tells f) env quiet_tells fields_tells put_tells).
  unfold enter, connect_port_forward_if_needed, send_login_error.
  through; first [ apply silent_put_tells; set_solver | by apply silent_emit_tells
                 | apply moves_modify; intros ?; by apply fields_tells
                 | apply (open_session_moves (tells f) env quiet_tells fields_tells put_tells) ].
Qed.

Lemma step_tells e : moves (tells f) (step env e).
Proof.
  apply (step_moves (tells f) env quiet_tells fields_tells put_tells close_tells permission_tells
           logon_tells).
Qed.

Lemma finish_tells : moves (tells f) (finish env).
Proof.
  apply (finish_moves (tells f) env quiet_tells close_tells).
  intros c. apply (silent_put_tells port_forward_socket false ltac:(set_solver) c).
Qed.
End Tells.

Section Closes.
Context `{Crypto}.
Variable env : Env.

Lemma quiet_closes e c : loud e = false -> closes c [(c, e)] c.
Proof. unfold closes. by destruct e. Qed.

Lemma fields_closes g c : bools (g c) = bools c -> closes c [] (g c).
Proof. unfold closes, on. by intros ->. Qed.

Lemma put_other_closes g b : g <> closed -> moves closes (put g b).
Proof. intros Hg. apply moves_modify. intros c. unfold closes, on. cbn. by destruct g. Qed.

Lemma put_closes g b c : guarded g = false -> closes c [] (set_bool g b c).
Proof. intros Hg. apply (put_other_closes g b); by intros ->. Qed.

Lemma emit_closes e : (forall b, e <> CmClosed b) -> moves closes (emit e).
Proof. intros He. apply moves_emit. intros c. unfold closes. destruct e; try done. by edestruct He. Qed.

(** The connection manager is told exactly when the connection turns to closed. *)
Lemma close_closes lock : moves closes (on_close lock).
Proof.
  intros c. unfold closes, on_close, bind, get, put, modify, emit, when, skip, ret.
  destruct (on c closed) eqn:E; cbn; rewrite ?E; [done|].
  by destruct (lock && _ && _).
Qed.

Lemma permission_closes g b : g ∈ announced -> moves closes (set_permission g b).
Proof.
  intros Hg. unfold set_permission. through; [|by apply emit_closes].
  apply put_other_closes. intros ->. set_solver.
Qed.

Lemma logon_closes : moves closes (send_logon_response_and_keep_alive env).
Proof.
  apply (logon_enters closes env quiet_closes fields_closes put_closes).
  unfold enter, connect_port_forward_if_needed, send_login_error.
  through; first [ by apply put_other_closes | by apply emit_closes
                 | apply moves_modify; intros ?; by apply fields_closes
                 | apply (open_session_moves closes env quiet_closes fields_closes put_closes) ].
Qed.

Lemma step_closes e : moves closes (step env e).
Proof.
  apply (step_moves closes env quiet_closes fields_closes put_closes close_closes
           permission_closes logon_closes).
Qed.

Lemma finish_closes : moves closes (finish env).
Proof.
  apply (finish_moves closes env quiet_closes close_closes).
  intros c. by apply (put_other_closes port_forward_socket false).
Qed.

Lemma announce_closes fs : moves closes (announce fs).
Proof. induction fs as [|f fs IH]; cbn; through; first [ by apply emit_closes | exact IH ]. Qed.
End Closes.

(** ** Theorems *)

(** The notices for the permissions a connection lacks. *)
Definition lacking (fs : list Field) (c : Conn) : list (Conn * Effect) :=
  flat_map (fun f => if on c f then [] else [(c, SendPermission f false)]) fs.

Lemma announce_lacking fs c : announce fs c = (tt, c, lacking fs c).
Proof.
  induction fs as [|f fs IH]; [done|]. cbn. unfold bind, get, when, emit, skip, ret.
  destruct (on c f); cbn; by rewrite IH.
Qed.

Lemma field_id_inj f g : field_id f = field_id g -> f = g.
Proof. by destruct f, g. Qed.

Lemma told_lacking f b fs c :
  told f b (lacking fs c) = b && (on c f || negb (existsb (fun g => field_id g =? field_id f) fs)).
Proof.
  revert b. induction fs as [|g fs IH]; intros b; cbn; [by rewrite orb_true_r, andb_true_r|].
  destruct (field_id g =? field_id f) eqn:E.
  - apply Z.eqb_eq, field_id_inj in E as ->.
    destruct (on c f) eqn:Ef; cbn; rewrite IH; [done|]. by rewrite Z.eqb_refl, !andb_false_r.
  - destruct (on c g); cbn; rewrite ?E; apply IH.
Qed.

Definition emits {A} (e : Effect) (m : M A) (c : Conn) : Prop := In e (map snd (snd (m c))).

Lemma emits_first {A B} e (m : M A) (k : A -> M B) c : emits e m c -> emits e (bind m k) c.
Proof.
  unfold emits, bind. destruct (m c) as [[a c1] es]. destruct (k a c1) as [[b c2] es2]. cbn.
  rewrite map_app. intros Hi. apply in_or_app. by left.
Qed.

Lemma emits_then {A B} e (m : M A) (k : A -> M B) c :
  emits e (k (fst (fst (m c)))) (snd (fst (m c))) -> emits e (bind m k) c.
Proof.
  unfold emits, bind. destruct (m c) as [[a c1] es]. cbn. destruct (k a c1) as [[b c2] es2]. cbn.
  rewrite map_app. intros Hi. apply in_or_app. by right.
Qed.

Lemma emits_emit e c : emits e (emit e) c.
Proof. by left. Qed.

(** The last of a sequence decides what holds in the end. *)
Lemma last_bind {A B} (Q : Conn -> Prop) (m : M A) (k : A -> M B) c :
  (forall a c1, Q (snd (fst (k a c1)))) -> Q (snd (fst (bind m k c))).
Proof.
  intros Hk. unfold bind. destruct (m c) as [[a c1] es]. specialize (Hk a c1).
  by destruct (k a c1) as [[b c2] es2].
Qed.

Lemma on_close_closed lock c : on (snd (fst (on_close lock c))) closed = true.
Proof.
  unfold on_close, bind at 1, get. destruct (on c closed) eqn:E; [exact E|].
  unfold bind, put, modify, emit, when, skip, ret.
  by destruct (lock && _ && _).
Qed.

Section Finish.
Context `{Crypto}.
Variable env : Env.

Lemma finish_closed c : on (snd (fst (finish env c))) closed = true.
Proof.
  unfold finish.
  do 7 (apply (last_bind (fun c => on c closed = true)); intros ??). apply on_close_closed.
Qed.

Lemma finish_removes c : emits RemoveConnection (finish env) c.
Proof. unfold finish. do 6 apply emits_then. apply emits_first, emits_emit. Qed.

Lemma finish_ends_privacy c : privacy_mode_is_mine env = true -> emits PrivacyEnded (finish env) c.
Proof. intros E. unfold finish. rewrite E. apply emits_first, emits_emit. Qed.

Lemma finish_renews c : on c authorized = true -> emits NewTemporaryPassword (finish env) c.
Proof.
  intros E. unfold finish. do 2 apply emits_then. apply emits_first.
  destruct (privacy_mode_is_mine env); cbn; rewrite E; apply emits_emit.
Qed.

Lemma finish_authorized : leaves (fun c => on c authorized) (finish env).
Proof. unfold finish, try_port_forward_loop, on_close. leave. Qed.
End Finish.

(** A peer knows its permissions.  At every moment, the last notice that a peer has
    got about a permission -- clipboard, audio, files, restart, recording, input
    blocking, privacy mode -- is the permission it has; without a notice it has it. *)
Theorem permissions_are_announced `{Crypto} f evs last env0 twofa h control keep c es :
  f ∈ told_of ->
  serve evs last (conn_start env0 twofa h control) = (keep, c, es) ->
  told f true es = on c f.
Proof.
  intros Hf. unfold serve. set (c0 := conn_start env0 twofa h control).
  unfold bind at 1. rewrite announce_lacking.
  assert (Hl : told f true (lacking announced c0) = on c0 f).
  { rewrite told_lacking. replace (existsb _ announced) with true; [by rewrite orb_false_r|].
    destruct f; try reflexivity; exfalso; clear -Hf; set_solver. }
  revert Hl. generalize (lacking announced c0) as pre. intros pre Hl.
  assert (Hm : moves (tells f) (do! goes_on := run evs in when (negb goes_on) (finish last) ;; ret goes_on)).
  { pose proof (fun env e => step_tells env f Hf e) as Hs. pose proof (finish_tells last f Hf) as He.
    through; [apply run_moves; [apply _|exact Hs]|exact He]. }
  specialize (Hm c0). destruct (bind _ _ c0) as [[k c1] es1]. intros [= <- <- <-].
  by rewrite told_app, Hl.
Qed.

(** C4: The end of a connection is told once.  When a connection ends, for whatever
    reason, it is closed, the connection manager has been told so exactly once, its
    subscriptions are dropped, the privacy mode it turned on is left, and if its peer
    was authorized the temporary password is replaced. *)
Theorem connection_ends `{Crypto} evs last env0 twofa h control c es :
  serve evs last (conn_start env0 twofa h control) = (false, c, es) ->
  on c closed = true /\ closings es = 1%nat
  /\ In RemoveConnection (map snd es)
  /\ (privacy_mode_is_mine last = true -> In PrivacyEnded (map snd es))
  /\ (on c authorized = true -> In NewTemporaryPassword (map snd es)).
Proof.
  set (c0 := conn_start env0 twofa h control). intros E.
  assert (Hm : moves closes (serve evs last)).
  { unfold serve. through; first [ apply announce_closes | apply (finish_closes last) |
      apply run_moves; [apply _|]; intros; apply step_closes ]. }
  specialize (Hm c0). rewrite E in Hm. unfold closes in Hm. cbn in Hm.
  revert E. unfold serve, bind. rewrite announce_lacking.
  destruct (run evs c0) as [[[] c1] es1]; cbn; [done|].
  pose proof (finish_closed last c1) as Hc. pose proof (finish_removes last c1) as Hr.
  pose proof (finish_ends_privacy last c1) as Hp. pose proof (finish_renews last c1) as Hn.
  pose proof (finish_authorized last c1) as Ha. unfold unchanged, emits in *.
  destruct (finish last c1) as [[u c2] es2]. cbn in *. intros [= <- <-].
  rewrite Hc in *. rewrite <- Ha in Hn. rewrite !map_app, !in_app_iff.
  split_and!; [done|cbn in Hm; lia|by auto..].
Qed.
