(* ===== verification/ConnectionSafety.v ===== *)
(** * What a peer can make a connection do

    Theorems about [Connection]: every effect of a connection is one that the kind
    of its session and the permissions of that moment allow; a connection becomes
    authorized only by a proof of identity; a kind of session that is not permitted
    is not reached. *)

From S2P Require Import Prelude TermBuffer TermService Messages SessionScope Passwords Connection.
From S2P Require Import ConnectionTrace.

#[local] Opaque get_version_number.

(** ** Reasoning about handlers

    [wp P m K c]: run in [c], every effect of [m] satisfies [P] in the state it was
    made in, and the result and the final state satisfy [K]. *)

Definition wp {A} (P : Conn -> Effect -> Prop) (m : M A) (K : A -> Conn -> Prop) (c : Conn) : Prop :=
  let '(a, c', es) := m c in Forall (fun '(s, e) => P s e) es /\ K a c'.

Section Wp.
Context (P : Conn -> Effect -> Prop).

Lemma wp_ret {A} (a : A) (K : A -> Conn -> Prop) c : K a c -> wp P (ret a) K c.
Proof. by split. Qed.

Lemma wp_bind {A B} (m : M A) (k : A -> M B) K c :
  wp P m (fun a => wp P (k a) K) c -> wp P (bind m k) K c.
Proof.
  unfold wp, bind. destruct (m c) as [[a c1] es]. destruct (k a c1) as [[b c2] es'].
  intros (He & He' & HK). split; [|done]. by apply Forall_app.
Qed.

Lemma wp_get (K : Conn -> Conn -> Prop) c : K c c -> wp P get K c.
Proof. by split. Qed.

Lemma wp_modify f (K : unit -> Conn -> Prop) c : K tt (f c) -> wp P (modify f) K c.
Proof. by split. Qed.

Lemma wp_emit e (K : unit -> Conn -> Prop) c : P c e -> K tt c -> wp P (emit e) K c.
Proof. split; [|done]. by repeat constructor. Qed.

Lemma wp_when b m (K : unit -> Conn -> Prop) c :
  (b = true -> wp P m K c) -> (b = false -> K tt c) -> wp P (when b m) K c.
Proof. destruct b; cbn; intros Ht Hf; [by apply Ht|]. by apply wp_ret, Hf. Qed.

Lemma wp_mono {A} (m : M A) (K K' : A -> Conn -> Prop) c :
  wp P m K c -> (forall a c', K a c' -> K' a c') -> wp P m K' c.
Proof. unfold wp. destruct (m c) as [[a c1] es]. intros [He HK] Hi. split; [done|by apply Hi]. Qed.
End Wp.

(** Walk through a handler. *)
Ltac wp_step :=
  lazymatch goal with
  | |- wp _ (bind _ _) _ _ => apply wp_bind
  | |- wp _ (ret _) _ _ => apply wp_ret
  | |- wp _ skip _ _ => apply wp_ret
  | |- wp _ get _ _ => apply wp_get
  | |- wp _ (modify _) _ _ => apply wp_modify
  | |- wp _ (put _ _) _ _ => apply wp_modify
  | |- wp _ (emit _) _ _ => apply wp_emit
  | |- wp _ (send_login_error _) _ _ => apply wp_emit
  | |- wp _ (when _ _) _ _ => apply wp_when; intros ?
  | |- wp _ (if ?b then _ else _) _ _ => let E := fresh "E" in destruct b eqn:E
  | |- wp _ (match ?x with _ => _ end) _ _ => let E := fresh "E" in destruct x eqn:E
  end; cbv beta.

(** Walk on, solving what is not about a handler. *)
Ltac wgo :=
  repeat (wp_step; try lazymatch goal with |- wp _ _ _ _ => fail | |- _ => done end).

(** ** Capabilities *)

Definition is_kind (c : Conn) (t : AuthConnType) : bool :=
  on c authorized && bool_decide (authed_conn_type c = Some t).

(** A camera session sees the camera, a remote-control session the desktop. *)
Definition may_see (c : Conn) (camera : bool) : bool :=
  if camera then is_kind c ViewCamera else is_kind c Remote.

(** What an effect requires of the connection: the kind of its session, and the
    permission of the controlled side.  Answers, notices and the steps of a login
    require nothing. *)
Definition permitted (c : Conn) (e : Effect) : bool :=
  match e with
  | InputMouse _ simulate _ =>
      is_kind c Remote && (if simulate then peer_keyboard_enabled c else on c show_my_cursor)
  | InputPointer _ | InputKey _ _ => is_kind c Remote && peer_keyboard_enabled c
  | BlockInput _ => is_kind c Remote && on c keyboard && on c block_input
  | UpdateClipboard _ => is_kind c Remote && clipboard_enabled c
  | PrivacyOn _ => is_kind c Remote && on c privacy_mode
  | PrivacyOff _ => is_kind c Remote
  | SetResolution _ _ _ => is_kind c Remote && on c keyboard
  | Reboot _ => is_kind c Remote && on c restart
  | Whiteboard _ | SwitchSides _ => is_kind c Remote
  | StartAudio _ | PlayAudio _ =>
      (is_kind c Remote || is_kind c ViewCamera) && negb (on c disable_audio)
  | SwitchDisplayTo camera _ | DoCaptureDisplays camera _ _ _ | RefreshVideoOf camera _
  | TakeScreenshot camera _ _ | DisplayChanged camera _ => may_see c camera
  | MonitorServices _ => is_kind c Remote
  | CameraServices => is_kind c ViewCamera
  | VideoFetched | QosImageQuality _ | QosCustomFps _ | QosAutoAdjustFps _ | QosRecord _
  | EncoderUpdate _ => is_kind c Remote || is_kind c ViewCamera
  | Subscribe service true =>
      if bool_decide (service = NAME_CLIPBOARD) then clipboard_enabled c && peer_keyboard_enabled c
      else if bool_decide (service = NAME_AUDIO) then audio_enabled c
      else if bool_decide (service = NAME_CURSOR) then on c keyboard || on c show_remote_cursor
      else is_kind c Remote || is_kind c ViewCamera
  | Fs (FsWriteBlock _ _ _ _) | Fs (FsWriteDone _ _) | Fs (FsWriteError _ _ _)
  | Fs (FsCheckDigest _ _ _ _ _) => is_kind c FileTransfer || is_kind c Remote
  | Fs _ | ReadRecursive _ _ _ | ConfirmJob _ | RemoveJob _ => is_kind c FileTransfer
  | StartReadJob _ _ printer _ _ _ => is_kind c FileTransfer || (is_kind c Remote && printer)
  | TerminalInit _ _ => is_kind c Terminal
  | TerminalDo _ _ _ => on c terminal_user_token && (is_kind c Terminal || is_kind c Remote)
  | TerminalPersistence _ _ => is_kind c Terminal || is_kind c Remote
  | PortForwardConnect _ => negb (on c authorized)
  | ForwardBytes _ => on c authorized
  | LockScreen => on c lock_after_session_end && on c keyboard
  | _ => true
  end.

Notation P := (fun c e => permitted c e = true).

(** The fields that make the kind of a session. *)
Definition scope_of (c : Conn) :=
  (on c authorized, authed_conn_type c, file_transfer c, on c view_camera, on c terminal,
   on c port_forward_socket).

(** A connection that goes on is authorized as what its fields say, or not at all. *)
Definition coherent (c : Conn) : Prop :=
  on c view_camera && on c terminal = false
  /\ if on c authorized then authed_conn_type c = Some (conn_type_of c)
     else authed_conn_type c = None /\ on c port_forward_socket = false.

Lemma coherent_scope c c' : scope_of c' = scope_of c -> coherent c -> coherent c'.
Proof.
  unfold scope_of, coherent, conn_type_of. intros [= -> -> -> -> -> ->]. done.
Qed.

Lemma is_kind_scope c c' t : scope_of c' = scope_of c -> is_kind c' t = is_kind c t.
Proof. unfold scope_of, is_kind. by intros [= -> -> _ _ _ _]. Qed.

(** A handler that is fine in a session of the kinds [R], and does not change it. *)
Definition keeps (R : Conn -> bool) (m : M unit) : Prop :=
  forall c, R c = true -> wp P m (fun _ c' => scope_of c' = scope_of c) c.

Definition by_scope (R : Conn -> bool) : Prop :=
  forall c c', scope_of c' = scope_of c -> R c' = R c.

Lemma keeps_seq R m1 m2 : by_scope R -> keeps R m1 -> keeps R m2 -> keeps R (bind m1 (fun _ => m2)).
Proof.
  intros Hs H1 H2 c Hc. apply wp_bind. eapply wp_mono; [by apply H1|]. intros ? c1 E1; cbn in E1.
  eapply wp_mono; [apply H2; by rewrite (Hs c c1 E1)|]. intros ? c2 E2; cbn in E2. congruence.
Qed.

Lemma keeps_skip R : keeps R skip.
Proof. intros c _. by apply wp_ret. Qed.

Lemma keeps_wp R m K c :
  keeps R m -> R c = true -> (forall c', scope_of c' = scope_of c -> K tt c') -> wp P m K c.
Proof. intros Hm Hc HK. eapply wp_mono; [by apply Hm|]. intros [] c' E. by apply HK. Qed.

Lemma is_kind_by_scope t : by_scope (fun c => is_kind c t).
Proof. intros c c' E. by apply is_kind_scope. Qed.

(** Decide what the guards on the way have established. *)
Ltac bools :=
  repeat match goal with
  | H : _ && _ = true |- _ => apply andb_true_iff in H as [? ?]
  | H : _ || _ = false |- _ => apply orb_false_iff in H as [? ?]
  | H : negb _ = true |- _ => apply negb_true_iff in H
  | H : negb _ = false |- _ => apply negb_false_iff in H
  end; simplify_eq/=.

(** Names of services are compared by computation. *)
Ltac names :=
  repeat match goal with
  | |- context [bool_decide (?a = ?b)] =>
      let v := eval vm_compute in (bool_decide (a = b)) in
      lazymatch v with true => idtac | false => idtac end;
      change (bool_decide (a = b)) with v
  end; cbn.

Ltac cases :=
  repeat (match goal with
          | |- context [bools ?c ?f] => destruct (bools c f) eqn:?
          | b : bool |- _ => destruct b
          end; cbn; try done).

Ltac perm :=
  cbn [permitted]; unfold may_see, is_kind, peer_keyboard_enabled, clipboard_enabled,
    audio_enabled, on in *; cbn in *; bools; subst;
  repeat match goal with H : ?x = true |- context [?x] => rewrite H end;
  repeat match goal with H : ?x = false |- context [?x] => rewrite H end; cbn; auto.

Ltac walk := repeat (wp_step; try reflexivity); try perm; names; cases.

(** Split a sequence of handlers. *)
Ltac seq := repeat lazymatch goal with |- keeps _ (bind _ (fun _ => _)) => apply keeps_seq; [done| |] end.

Section Options.
Context `{Crypto}.
Variable env : Env.

Definition remote (c : Conn) : bool := is_kind c Remote.
Lemma remote_by_scope : by_scope remote.
Proof. apply is_kind_by_scope. Qed.

Lemma quality_keeps o : keeps (fun c => is_kind c Remote || is_kind c ViewCamera) (update_image_quality o).
Proof. intros c Hc. unfold update_image_quality. walk. Qed.

Lemma cursor_keeps o : keeps remote (update_cursor_options o).
Proof. intros c Hc. unfold update_cursor_options, remote in *. walk. Qed.

Lemma subscribe_clipboard_keeps R : keeps R (subscribe_clipboard env).
Proof.
  intros c Hc. unfold subscribe_clipboard, can_sub_clipboard_service.
  repeat (wp_step; try reflexivity). cbn [permitted]. names.
  destruct (clipboard_enabled c), (peer_keyboard_enabled c); cbn; try done. by case_match.
Qed.

Lemma subscribe_audio_keeps R : keeps R subscribe_audio.
Proof. intros c Hc. unfold subscribe_audio. walk. Qed.

Lemma put_keeps R f b :
  f ∉ [authorized; view_camera; terminal; port_forward_socket] -> keeps R (put f b).
Proof. intros Hf c Hc. apply wp_modify. destruct f; try reflexivity; set_solver. Qed.

Lemma asked_keeps R x (k : bool -> M unit) :
  (forall q, keeps R (k q)) -> keeps R (match x with None => skip | Some q => k q end).
Proof. intros Hk. destruct x; [apply Hk|apply keeps_skip]. Qed.

Lemma disable_audio_keeps R o : by_scope R ->
  keeps R (match asked (o_disable_audio o) with
           | None => skip
           | Some q => put disable_audio q ;; subscribe_audio
           end).
Proof.
  intros Hs. apply asked_keeps. intros q. apply keeps_seq; [done| |apply subscribe_audio_keeps].
  apply put_keeps. set_solver.
Qed.

Lemma disable_keeps o : keeps remote (update_disable_options env o).
Proof.
  pose proof remote_by_scope.
  apply keeps_seq; [done|by apply disable_audio_keeps|].
  apply keeps_seq; [done| |].
  - apply asked_keeps. intros q. apply keeps_seq; [done| |apply subscribe_clipboard_keeps].
    apply put_keeps. set_solver.
  - apply asked_keeps. intros q. apply keeps_seq; [done|apply put_keeps; set_solver|].
    apply keeps_seq; [done|apply subscribe_clipboard_keeps|].
    intros c Hc. walk.
Qed.

Lemma turn_on_privacy_keeps k : keeps remote (turn_on_privacy env k).
Proof. intros c Hc. unfold turn_on_privacy, is_authed_remote_conn, remote in *. walk. Qed.

Lemma turn_off_privacy_keeps k : keeps remote (turn_off_privacy env k).
Proof. intros c Hc. unfold turn_off_privacy, remote in *. walk. Qed.

Lemma privacy_option_keeps o : keeps remote (update_privacy_option env o).
Proof.
  intros c Hc. unfold update_privacy_option. repeat (wp_step; try reflexivity).
  - apply (keeps_wp remote); [apply turn_off_privacy_keeps|done..].
  - apply (keeps_wp remote); [apply turn_on_privacy_keeps|done..].
Qed.

Lemma block_input_keeps o : keeps remote (update_block_input_option o).
Proof. intros c Hc. unfold update_block_input_option, remote in *. walk. Qed.

Lemma my_cursor_keeps o : keeps remote (update_show_my_cursor env o).
Proof. intros c Hc. unfold update_show_my_cursor, remote in *. walk. Qed.

Lemma persistence_keeps R q :
  by_scope R -> (forall c, R c = true -> is_kind c Terminal || is_kind c Remote = true) ->
  keeps R (update_terminal_persistence q).
Proof.
  intros Hs HR. apply keeps_seq; [done|apply put_keeps; set_solver|]. intros c Hc%HR.
  repeat (wp_step; try reflexivity). exact Hc.
Qed.

Lemma video_option_keeps R (e : Effect) b :
  (forall c, R c = true -> permitted c e = true) -> keeps R (when b (emit e)).
Proof. intros HR c Hc%HR. repeat (wp_step; try reflexivity). done. Qed.

Lemma update_options_remote o : keeps remote (update_options env o).
Proof.
  pose proof remote_by_scope. assert (Hv : forall c, remote c = true ->
    is_kind c Remote || is_kind c ViewCamera = true) by (unfold remote; by intros c ->).
  unfold update_options. seq.
  - intros c Hc. by apply quality_keeps, Hv.
  - apply video_option_keeps. intros c Hc. by apply Hv.
  - destruct (o_supported_decoding o); [|apply keeps_skip].
    intros c Hc. wp_step; [by apply Hv|done].
  - apply asked_keeps. intros q. apply put_keeps. set_solver.
  - apply cursor_keeps.
  - apply disable_keeps.
  - apply privacy_option_keeps.
  - apply block_input_keeps.
  - apply asked_keeps. intros q. apply persistence_keeps; [done|]. unfold remote.
    intros c ->. by rewrite orb_true_r.
  - apply my_cursor_keeps.
Qed.

(** The fields a camera session may set reach the video, the encoder and the audio. *)
Lemma update_options_camera iq ciq da sd fps :
  keeps (fun c => is_kind c ViewCamera)
    (update_options env (mkOption iq 0 0 0 0 ciq da 0 0 sd fps 0 0 0 0 0 0)).
Proof.
  pose proof (is_kind_by_scope ViewCamera) as Hs.
  unfold update_options. seq; try apply keeps_skip.
  - intros c Hc. apply quality_keeps. by rewrite Hc, orb_true_r.
  - apply video_option_keeps. intros c Hc. cbn. by rewrite Hc, orb_true_r.
  - cbn. destruct sd; [|apply keeps_skip]. intros c Hc. wp_step; [|done].
    cbn. by rewrite Hc, orb_true_r.
  - apply keeps_seq; [done|by apply disable_audio_keeps|].
    apply keeps_seq; [done| |]; apply keeps_skip.
  - intros c Hc. unfold update_privacy_option. repeat (wp_step; try reflexivity); done.
  - intros c Hc. unfold update_block_input_option. cbn. repeat (wp_step; try reflexivity).
Qed.

Lemma update_options_terminal p :
  keeps (fun c => is_kind c Terminal)
    (update_options env (mkOption 0 0 0 0 0 0 0 0 0 None 0 0 0 0 0 p 0)).
Proof.
  pose proof (is_kind_by_scope Terminal) as Hs.
  unfold update_options. seq; try apply keeps_skip.
  - intros c Hc. unfold update_privacy_option. repeat (wp_step; try reflexivity); done.
  - intros c Hc. unfold update_block_input_option. cbn. repeat (wp_step; try reflexivity).
  - apply asked_keeps. intros q. apply persistence_keeps; [done|]. by intros c ->.
Qed.

(** The options of a login, and those of a later message, in the session's scope. *)
Lemma scoped_login_option_keeps t o o' :
  fst (scoped_login_option t o) = Some o' -> keeps (fun c => is_kind c t) (update_options env o').
Proof.
  destruct t; cbn; intros E; try done.
  - injection E as <-. apply update_options_remote.
  - unfold scoped_view_camera_option in E. cbn in E. destruct (option_has_any_field _); [|done].
    injection E as <-. apply update_options_camera.
  - unfold scoped_terminal_login_option in E.
    destruct (enum_value (o_terminal_persistent o)) as [v|]; cbn in E;
      destruct (option_has_any_field _); try done; injection E as <-; apply update_options_terminal.
Qed.

Lemma scoped_update_option_keeps t o o' :
  scoped_update_option_message (Some t) o = Some o' ->
  keeps (fun c => is_kind c t) (update_options env o').
Proof.
  intros E. apply (scoped_login_option_keeps t o). destruct t; cbn in *; done.
Qed.
End Options.

(** ** Messages of an authorized peer *)

(** If the connection goes on, the session is what it was. *)
Definition same (c : Conn) : bool -> Conn -> Prop :=
  fun keep c' => keep = true -> scope_of c' = scope_of c.

Lemma coherent_remote c :
  coherent c -> is_kind c Remote = true ->
  file_transfer c = None /\ on c view_camera = false /\ on c terminal = false.
Proof.
  unfold coherent, is_kind, conn_type_of. intros [_ Hc] [Ha Hk%bool_decide_eq_true_1]%andb_true_iff.
  rewrite Ha, Hk in Hc. injection Hc as Hc.
  case_bool_decide as Hf; [done|]. repeat case_match; try done.
  split_and!; [|done..]. destruct (file_transfer c); [|done]. destruct Hf; eauto.
Qed.

Lemma coherent_camera c :
  coherent c -> is_kind c ViewCamera = true -> on c view_camera = true.
Proof.
  unfold coherent, is_kind, conn_type_of. intros [_ Hc] [Ha Hk%bool_decide_eq_true_1]%andb_true_iff.
  rewrite Ha, Hk in Hc. injection Hc as Hc. repeat case_match; done.
Qed.

(** A camera session has the camera, a remote-control session the desktop. *)
Lemma coherent_may_see c :
  coherent c -> is_kind c Remote || is_kind c ViewCamera = true ->
  may_see c (on c view_camera) = true.
Proof.
  intros Hc [Hk|Hk]%orb_true_iff; unfold may_see.
  - by destruct (coherent_remote c Hc Hk) as (_ & -> & _).
  - by rewrite (coherent_camera c Hc Hk).
Qed.

Lemma not_remote_camera c :
  is_kind c Remote || is_kind c ViewCamera = true -> is_authed_view_camera_conn c = false ->
  is_kind c Remote = true.
Proof.
  unfold is_kind, is_authed_view_camera_conn. intros Hk Hn. rewrite Hn in Hk.
  by rewrite andb_false_r, orb_false_r in Hk.
Qed.

Section Messages.
Context `{Crypto}.
Variable env : Env.

Ltac go := repeat (wp_step; try (intros _; reflexivity)).

Lemma input_safe c m :
  is_kind c Remote || is_kind c ViewCamera = true ->
  match m with
  | Some (MMouseEvent _) | Some (PointerDeviceEvent _) | Some (MKeyEvent _) => True
  | _ => False
  end ->
  wp P (on_authorized_message env m) (same c) c.
Proof.
  intros Hk Hm. destruct m as [m|]; [|done]. unfold on_authorized_message. wp_step. wp_step.
  destruct m; try done; clear Hm;
    unfold on_mouse_event, on_pointer_device_event, on_key_event; wp_step; wp_step;
    destruct (is_authed_view_camera_conn c) eqn:Ec; try (go; done);
    pose proof (not_remote_camera c Hk Ec) as Hr; go; perm.
Qed.

Lemma clipboard_safe c cbs : on c authorized = true -> wp P (on_clipboard cbs) (same c) c.
Proof.
  intros Ha. unfold on_clipboard, should_handle_text_clipboard_message, is_authed_remote_conn.
  go. perm.
Qed.

Lemma file_response_safe c fr :
  is_kind c FileTransfer || is_kind c Remote = true -> wp P (on_file_response fr) (same c) c.
Proof. intros Hk. unfold on_file_response. go; exact Hk. Qed.

Lemma on_send_safe c id path h n ft :
  is_kind c FileTransfer = true \/ (is_kind c Remote = true /\ is_printer ft = true) ->
  wp P (on_send id path h n ft) (same c) c.
Proof.
  intros Hk. unfold on_send. go; cbn [permitted];
    change (is_kind (set_printer _ c)) with (is_kind c);
    destruct Hk as [->|[-> Hp]]; try done; by rewrite ?orb_true_r.
Qed.

Lemma file_action_safe c fa :
  coherent c -> is_kind c FileTransfer || is_kind c Remote = true ->
  wp P (on_file_action env fa) (same c) c.
Proof.
  intros Hc Hk. unfold on_file_action. wp_step. wp_step.
  set (h := bool_decide _ || _). destruct h eqn:Eh; cbn; [|by go].
  assert (Hp : is_kind c FileTransfer = true \/ (is_kind c Remote = true
     /\ exists id p hd n ft, fa = Some (FaSend id p hd n ft) /\ is_printer ft = true)).
  { destruct (is_kind c FileTransfer) eqn:Ef; [by left|]. right. split; [done|].
    destruct (coherent_remote c Hc Hk) as (Hf & _). subst h. rewrite Hf in Eh. cbn in Eh.
    destruct fa as [[]|]; try done. naive_solver. }
  clear Eh h. wp_step; [by go|]. wp_step; [by go|].
  destruct Hp as [Hf|(Hr & id & p & hd & n & ft & -> & Hp)].
  - unfold do_file_action. destruct fa as [[]|]; try (apply on_send_safe; by left); by go.
  - apply on_send_safe. by right.
Qed.

Lemma option_safe c t o :
  on c authorized = true -> authed_conn_type c = Some t ->
  wp P (on_misc env (Some (MOption o))) (same c) c.
Proof.
  intros Ha Ht. assert (Hk : is_kind c t = true)
    by (unfold is_kind; rewrite Ha, Ht; by apply bool_decide_eq_true_2).
  unfold on_misc. wp_step. wp_step. wp_step. rewrite Ht.
  case_bool_decide as Er.
  - injection Er as ->. eapply (keeps_wp remote); [apply update_options_remote|done|].
    intros c' E. by apply wp_ret; intros _.
  - destruct (scoped_update_option_message (Some t) o) as [o'|] eqn:Eo; [|by go].
    eapply keeps_wp; [by eapply scoped_update_option_keeps|done|]. intros c' E. by apply wp_ret; intros _.
Qed.

Lemma change_resolution_keeps d w h : keeps remote (change_resolution d w h).
Proof. intros c Hc. unfold change_resolution, remote in *. walk. Qed.

Lemma switch_display_safe c s :
  coherent c -> is_kind c Remote || is_kind c ViewCamera = true ->
  wp P (handle_switch_display s) (fun _ c' => scope_of c' = scope_of c) c.
Proof.
  intros Hc Hk. pose proof (coherent_may_see c Hc Hk) as Hm. unfold handle_switch_display.
  repeat (wp_step; try reflexivity); try exact Hm. bools.
  assert (Hr : is_kind c Remote = true).
  { destruct (is_kind c Remote) eqn:E; [done|]. rewrite (coherent_camera c Hc Hk) in *. done. }
  apply (keeps_wp remote); [apply change_resolution_keeps|done|]. intros c' E.
  apply wp_emit; [|done]. cbn. unfold may_see in *.
  replace (is_kind c' ViewCamera) with (is_kind c ViewCamera) by (symmetry; by apply is_kind_scope).
  replace (is_kind c' Remote) with (is_kind c Remote) by (symmetry; by apply is_kind_scope). done.
Qed.

Lemma on_close_safe lock K c :
  (forall c', K tt c') -> wp P (on_close lock) K c.
Proof. intros HK. unfold on_close. repeat wp_step; try apply HK; perm. Qed.

Lemma capture_safe c add sub set :
  coherent c -> is_kind c Remote || is_kind c ViewCamera = true ->
  wp P (capture_displays env add sub set) (fun _ c' => scope_of c' = scope_of c) c.
Proof.
  intros Hc Hk. pose proof (coherent_may_see c Hc Hk) as Hm. unfold capture_displays.
  repeat (wp_step; try reflexivity); [exact Hm|]. cbn [permitted]. names. by case_match.
Qed.

(** The messages about the display, in a session that has one. *)
Lemma display_misc_safe c m :
  coherent c -> is_kind c Remote || is_kind c ViewCamera = true ->
  is_kind c Remote = true \/ is_view_camera_scoped_misc m = true ->
  wp P (on_misc env m) (same c) c.
Proof.
  intros Hc Hk Hs. pose proof (coherent_may_see c Hc Hk) as Hm.
  assert (Ha : on c authorized = true /\ exists t, authed_conn_type c = Some t).
  { apply orb_true_iff in Hk as [[? ?%bool_decide_eq_true_1]%andb_true_iff
                                |[? ?%bool_decide_eq_true_1]%andb_true_iff]; eauto. }
  destruct Ha as [Ha [t Ht]].
  assert (Hr : on c view_camera = false -> is_kind c Remote = true).
  { intros E. destruct (is_kind c Remote) eqn:Er; [done|].
    by rewrite (coherent_camera c Hc Hk) in E. }
  destruct m as [m|]; [|unfold on_misc; by go]. destruct m; unfold on_misc;
    try (by eapply option_safe);
    try (go; first [exact Hm | exact Hk | by destruct Hs | idtac]).
  - eapply wp_mono; [by apply switch_display_safe|]. intros ? c' E. by apply wp_ret; intros _.
  - cbn [permitted]. change (on (set_bool _ _ c) disable_audio) with (on c disable_audio).
    change (is_kind (set_bool _ _ c)) with (is_kind c). by rewrite Hk.
  - destruct Hs as [Hs|]; [|done]. cbn. rewrite Hs. done.
  - destruct Hs as [Hs|]; [|done]. cbn. rewrite Hs. done.
  - by apply on_close_safe; intros; apply wp_ret.
  - bools. eapply (keeps_wp remote); [apply change_resolution_keeps|by apply Hr|].
    intros c' E'. by apply wp_ret; intros _.
  - eapply wp_mono; [by apply capture_safe|]. intros ? c' E. by apply wp_ret; intros _.
  - bools. eapply (keeps_wp remote); [|by apply Hr|intros c' E'; by apply wp_ret; intros _].
    unfold toggle_privacy_mode. destruct on; [apply turn_on_privacy_keeps|apply turn_off_privacy_keeps].
  - bools. eapply (keeps_wp remote); [apply change_resolution_keeps|by apply Hr|].
    intros c' E'. by apply wp_ret; intros _.
Qed.

(** Messages outside of the session's kind that are let through are ignored. *)
Lemma broadcast_safe c t m :
  on c authorized = true -> authed_conn_type c = Some t -> t = FileTransfer \/ t = Terminal ->
  is_render_broadcast_noop_compat_message (Some (MMisc m)) = true ->
  wp P (on_misc env m) (same c) c.
Proof.
  intros Ha Ht Hd Hm. destruct m as [m|]; [|done]. destruct m; try done.
  - by eapply option_safe.
  - unfold on_misc, should_handle_render_broadcast_message, is_authed_remote_conn,
      is_authed_view_camera_conn. wp_step. wp_step. rewrite Ht. destruct Hd as [-> | ->]; by go.
  - unfold on_misc, should_handle_render_broadcast_message, is_authed_remote_conn,
      is_authed_view_camera_conn. wp_step. wp_step. rewrite Ht. destruct Hd as [-> | ->]; by go.
Qed.

Lemma close_voice_call_safe c : wp P close_voice_call (fun _ c' => scope_of c' = scope_of c) c.
Proof. unfold close_voice_call. by repeat (wp_step; try reflexivity). Qed.

Lemma voice_safe c ts b : wp P (on_authorized_message env (Some (VoiceCallRequest ts b))) (same c) c.
Proof.
  unfold on_authorized_message. go; try done.
  eapply wp_mono; [apply close_voice_call_safe|]. intros ? c' E'. by apply wp_ret; intros _.
Qed.

Lemma terminal_safe c a :
  is_kind c Terminal || is_kind c Remote = true ->
  wp P (on_authorized_message env (Some (TerminalAction a))) (same c) c.
Proof.
  intros Hk. unfold on_authorized_message, handle_terminal_action. go; try done.
  cbn [permitted]. bools. by rewrite Hk, andb_true_r.
Qed.

Lemma av_safe c m :
  coherent c -> is_kind c Remote || is_kind c ViewCamera = true ->
  match m with
  | Some (AudioFrame _) | Some (ScreenshotRequest _ _) => True
  | _ => False
  end ->
  wp P (on_authorized_message env m) (same c) c.
Proof.
  intros Hc Hk Hm. pose proof (coherent_may_see c Hc Hk) as Hs. destruct m as [[]|]; try done;
    unfold on_authorized_message; go; try exact Hs. bools. cbn [permitted]. rewrite Hk.
    by apply negb_true_iff.
Qed.

Lemma authorized_message_safe c t m :
  on c authorized = true -> authed_conn_type c = Some t -> coherent c -> t <> PortForward ->
  authorized_message_scope_violation t m = None ->
  wp P (on_authorized_message env m) (same c) c.
Proof.
  intros Ha Ht Hc Hp Hv. assert (Hk : is_kind c t = true)
    by (unfold is_kind; rewrite Ha, Ht; by apply bool_decide_eq_true_2).
  destruct m as [m|]; [|unfold on_authorized_message; by go].
  destruct t; [| |done| |].
  - (* Remote *)
    assert (Hr : is_kind c Remote || is_kind c ViewCamera = true) by by rewrite Hk.
    destruct m; try (by apply input_safe); try apply voice_safe; try (by apply av_safe);
      try (apply terminal_safe; by rewrite Hk, orb_true_r);
      unfold on_authorized_message; wp_step; wp_step; try (by go);
      first [ by apply clipboard_safe | apply file_action_safe; [done|by rewrite Hk, orb_true_r]
            | apply file_response_safe; by rewrite Hk, orb_true_r | apply display_misc_safe; auto ].
  - (* FileTransfer *)
    destruct m; try done; unfold on_authorized_message; wp_step; wp_step; try (by go);
      first [ by apply clipboard_safe | apply file_action_safe; [done|by rewrite Hk]
            | apply file_response_safe; by rewrite Hk | idtac ].
    destruct m as [[]|]; try done; try (unfold on_misc; by go);
      (eapply broadcast_safe; [done..|by left|]); try done.
    unfold authorized_message_scope_violation in Hv. cbn in *.
    by destruct (is_supported_decoding_only_option o).
  - (* ViewCamera *)
    assert (Hr : is_kind c Remote || is_kind c ViewCamera = true) by by rewrite Hk, orb_true_r.
    destruct m; try done; try (by apply input_safe); try apply voice_safe; try (by apply av_safe);
      unfold on_authorized_message; wp_step; wp_step; try (by go);
      first [ by apply clipboard_safe | idtac ].
    destruct m as [[]|]; try done; try (unfold on_misc; by go); apply display_misc_safe; auto.
    right. unfold authorized_message_scope_violation in Hv. cbn in *.
    by destruct (is_view_camera_scoped_option o).
  - (* Terminal *)
    destruct m; try done; try (apply terminal_safe; by rewrite Hk);
      unfold on_authorized_message; wp_step; wp_step; try (by go);
      first [ by apply clipboard_safe | idtac ].
    destruct m as [[]|]; try done; try (by eapply option_safe);
      try (eapply broadcast_safe; [done..|by right|done]); unfold on_misc; by go.
Qed.
End Messages.

(** ** The login *)

Section Login.
Context `{Crypto}.
Variable env : Env.

Definition unauthorized (c : Conn) : Prop :=
  on c authorized = false /\ authed_conn_type c = None.

(** A login leaves the connection coherent, if it goes on. *)
Definition logged (keep : bool) (c : Conn) : Prop := keep = true -> coherent c.

Lemma coherent_kind c :
  on c authorized = true -> coherent c -> is_kind c (conn_type_of c) = true.
Proof.
  unfold coherent, is_kind. intros Ha [_ Hc]. rewrite Ha in *. rewrite Hc. by apply bool_decide_eq_true_2.
Qed.

Lemma scoped_login_options_safe c :
  on c authorized = true ->
  wp P (update_scoped_login_options env) (fun _ c' => scope_of c' = scope_of c) c.
Proof.
  intros Ha. unfold update_scoped_login_options.
  repeat (wp_step; try reflexivity).
  eapply keeps_wp; [by eapply scoped_login_option_keeps| |intros c' E'; exact E'].
  unfold is_kind. cbn. unfold on in *. cbn. rewrite Ha. by apply bool_decide_eq_true_2.
Qed.

Lemma start_session_safe c sub :
  on c authorized = true -> coherent c -> on c port_forward_socket = false ->
  wp P (start_session env sub) (fun _ c' => scope_of c' = scope_of c) c.
Proof.
  intros Ha Hc Hs. pose proof (coherent_kind c Ha Hc) as Hk. destruct Hc as [Hx _].
  unfold conn_type_of in Hk. rewrite Hs in Hk.
  unfold start_session, init_terminal_service, try_sub_monitor_services.
  repeat (wp_step; try reflexivity); cbn [permitted];
    repeat change (is_kind (set_bool _ _ ?x)) with (is_kind x);
    repeat change (is_kind (set_service_id _ ?x)) with (is_kind x);
    cbn in *; rewrite ?andb_true_r in *; try done;
    rewrite Hx in Hk; exact Hk.
Qed.

Lemma codec_safe c :
  is_kind c Remote || is_kind c ViewCamera = true ->
  wp P update_codec_on_login (fun _ c' => c' = c) c.
Proof. intros Hk. unfold update_codec_on_login. by repeat (wp_step; try reflexivity). Qed.

Lemma open_session_safe c t :
  on c authorized = true -> coherent c -> wp P (open_session env t) logged c.
Proof.
  intros Ha Hc. unfold open_session. apply wp_bind.
  apply (wp_mono _ _ (fun _ c' => scope_of c' = scope_of c)).
  { unfold normalize_conn_audit_auth_fields. by repeat (wp_step; try reflexivity). }
  intros ? c1 E1; cbn in E1. pose proof (coherent_scope _ _ E1 Hc) as Hc1.
  assert (Ha1 : on c1 authorized = true) by (unfold scope_of in E1; congruence).
  pose proof (coherent_kind c1 Ha1 Hc1) as Hk. clear c Ha Hc E1.
  wp_step; wp_step; wp_step; wp_step; [done|]. wp_step; [by repeat (wp_step; try (intros _; exact Hc1))|].
  wp_step; [by repeat (wp_step; try (intros _; exact Hc1))|]. wp_step.
  apply (wp_mono _ _ (fun _ c' => c' = c1)).
  { unfold conn_type_of in Hk. rewrite E in Hk.
    wp_step; [by repeat wp_step|]. apply orb_false_iff in E1 as [Ef Et]. rewrite Ef, Et in Hk.
    wp_step; rewrite ?E1 in Hk; apply wp_bind;
      (eapply wp_mono; [apply codec_safe; by rewrite Hk, ?orb_true_r|]); intros ? ? ->;
      by repeat (wp_step; try reflexivity). }
  intros sub ? ->. apply wp_bind. eapply wp_mono; [by apply scoped_login_options_safe|].
  intros ? c2 E2; cbn in E2. apply wp_bind.
  assert (Ha2 : on c2 authorized = true) by (unfold scope_of in E2; congruence).
  assert (Hs2 : on c2 port_forward_socket = false) by (unfold scope_of in E2; congruence).
  eapply wp_mono; [apply start_session_safe; [done|by eapply coherent_scope|done]|].
  intros ? c3 E3; cbn in E3. apply wp_ret. intros _.
  eapply coherent_scope; [|exact Hc1]. congruence.
Qed.

Lemma recent_safe tfa c :
  wp P (is_recent_session env tfa) (fun _ c' => scope_of c' = scope_of c) c.
Proof. unfold is_recent_session. by repeat (wp_step; try reflexivity). Qed.

Lemma prepare_safe c :
  wp P (prepare_terminal_login_for_authorization env) (fun _ c' => scope_of c' = scope_of c) c.
Proof. unfold prepare_terminal_login_for_authorization. by repeat (wp_step; try reflexivity). Qed.

(** Not authorized; a connection to the forwarded port may be open. *)
Definition pending (c : Conn) : Prop :=
  on c authorized = false /\ authed_conn_type c = None /\ on c view_camera && on c terminal = false.

Lemma connect_safe c :
  coherent c -> on c authorized = false ->
  wp P (connect_port_forward_if_needed env)
    (fun ok c' => pending c' /\ (ok = false -> on c' port_forward_socket = false)) c.
Proof.
  intros [Hx Hc] Ha. rewrite Ha in Hc. destruct Hc as [Ht Hs].
  unfold connect_port_forward_if_needed. rewrite <- Ha in Hs.
  repeat wp_step; try done; cbn [permitted]; unfold on in *; cbn; rewrite ?Ha; try done;
    unfold pending, on; cbn; repeat split; congruence.
Qed.

Lemma log_on_response_safe c :
  coherent c -> wp P (send_logon_response_and_keep_alive env) logged c.
Proof.
  intros Hc. unfold send_logon_response_and_keep_alive. wp_step. wp_step.
  destruct (on c authorized) eqn:Ha; [wp_step; by intros _|]. wp_step.
  apply (wp_mono _ _ (fun _ c' => scope_of c' = scope_of c)).
  { destruct (on c require_2fa); [|by wp_step]. wp_step. eapply wp_mono; [apply recent_safe|].
    intros ? c' E. by wp_step. }
  intros code c1 E1; cbn in E1. pose proof (coherent_scope _ _ E1 Hc) as Hc1.
  assert (Ha1 : on c1 authorized = false) by (unfold scope_of in E1; congruence).
  destruct code; [wgo|]; [by intros _|].
  wp_step. eapply wp_mono; [apply prepare_safe|]. intros r c2 E2; cbn in E2.
  pose proof (coherent_scope _ _ E2 Hc1) as Hc2.
  assert (Ha2 : on c2 authorized = false) by (unfold scope_of in E2; congruence).
  destruct r; [wp_step; by intros _|]. wp_step. eapply wp_mono; [by apply connect_safe|].
  intros ok c3 [(Ha3 & Ht3 & Hx3) _]. destruct ok; cbn [negb]; [|by wp_step].
  do 6 wp_step. apply open_session_safe; [done|].
  split; [exact Hx3|done].
Qed.

Lemma log_on_safe c : coherent c -> wp P (log_on env) logged c.
Proof.
  intros Hc. unfold log_on. wp_step. eapply wp_mono; [by apply log_on_response_safe|].
  intros keep c1 Hk. destruct keep; cbn [negb]; [|by wp_step]. specialize (Hk eq_refl).
  wgo. by intros _.
Qed.

Lemma without_validation_safe l c :
  wp P (handle_login_request_without_validation env l) (fun _ c' => scope_of c' = scope_of c) c.
Proof. unfold handle_login_request_without_validation. repeat (wp_step; try reflexivity). Qed.

Lemma check_failure_safe i c : wp P (do_check_failure env i) (fun _ c' => c' = c) c.
Proof. unfold do_check_failure. by repeat (wp_step; try reflexivity). Qed.

Lemma validate_safe b c :
  wp P (do_validate_password env b) (fun _ c' => scope_of c' = scope_of c) c.
Proof. unfold do_validate_password. by repeat (wp_step; try reflexivity). Qed.

Lemma credentials_safe l err c : coherent c -> wp P (check_credentials env l err) logged c.
Proof.
  intros Hc. unfold check_credentials. wp_step.
  { clear E. wp_step. wp_step; [reflexivity|]. wp_step.
    generalize (get_version_number "1.2.0" <=? get_version_number (version l)). intros old.
    wgo; by intros _. }
  wp_step. eapply wp_mono; [apply recent_safe|]. intros recent c1 E1; cbn in E1.
  pose proof (coherent_scope _ _ E1 Hc) as Hc1. clear E1 Hc.
  destruct recent.
  { wp_step; [by apply log_on_safe|]. wgo. by intros _. }
  wp_step; [wgo; by intros _|].
  wp_step. eapply wp_mono; [apply check_failure_safe|]. intros b ? ->.
  wp_step; [wp_step; by intros _|]. wp_step. eapply wp_mono; [apply validate_safe|].
  intros v c2 E2; cbn in E2. pose proof (coherent_scope _ _ E2 Hc1) as Hc2.
  destruct v; cbn [negb].
  - wp_step. wp_step; [done|]. wp_step; [by apply log_on_safe|]. wgo. by intros _.
  - wgo; by intros _.
Qed.

Lemma reset_safe c :
  coherent c -> on c authorized = false ->
  wp P reset_session_scope_for_login
    (fun _ c' => coherent c' /\ on c' authorized = false
                 /\ on c' view_camera = false /\ on c' terminal = false) c.
Proof.
  intros [_ Hc] Ha. rewrite Ha in Hc. unfold reset_session_scope_for_login.
  repeat wp_step. unfold coherent, on in *. cbn. by rewrite Ha.
Qed.

Lemma login_scope_safe l c :
  coherent c -> on c authorized = false -> on c view_camera = false -> on c terminal = false ->
  wp P (login_scope env l) (fun ok c' => ok = true -> coherent c') c.
Proof.
  intros [_ Hc] Ha Hv Ht. rewrite Ha in Hc. unfold login_scope.
  wgo; intros _; unfold coherent, on in *; cbn; by rewrite Ha, ?Hv, ?Ht.
Qed.

Lemma login_request_safe l c :
  coherent c -> on c authorized = false -> wp P (on_login_request env l) logged c.
Proof.
  intros Hc Ha. unfold on_login_request. wp_step. eapply wp_mono; [apply without_validation_safe|].
  intros ? c1 E1; cbn in E1. pose proof (coherent_scope _ _ E1 Hc) as Hc1.
  assert (Ha1 : on c1 authorized = false) by (unfold scope_of in E1; congruence).
  wp_step; wp_step. rewrite Ha1. wp_step. eapply wp_mono; [by apply reset_safe|].
  intros ? c2 (Hc2 & Ha2 & Hv2 & Ht2). wp_step. eapply wp_mono; [by apply login_scope_safe|].
  intros ok c3 Hok. destruct ok; cbn [negb]; [|by wp_step]. specialize (Hok eq_refl).
  wp_step; [wgo|]. wp_step; wp_step; [done|]. wp_step.
  apply (wp_mono _ _ (fun _ c' => c' = c3)).
  { wp_step; [apply check_failure_safe|by wp_step]. }
  intros b ? ->. wp_step; [wp_step; by intros _|]. wp_step; wp_step; [done|].
  wp_step; [|by apply credentials_safe]. wp_step.
  apply (wp_mono _ _ (fun _ c' => c' = c3)).
  { wp_step; [|by wp_step]. wp_step. eapply wp_mono; [apply check_failure_safe|]. intros r ? ->.
    by wgo. }
  intros r ? ->. wgo; by intros _.
Qed.

Lemma auth_2fa_safe code d c : coherent c -> wp P (on_auth_2fa env code d) logged c.
Proof.
  intros Hc. unfold on_auth_2fa. wp_step. eapply wp_mono; [apply check_failure_safe|].
  intros b ? ->. wp_step; [wp_step; by intros _|]. wp_step; wp_step.
  wp_step; [wp_step; by intros _|]. wp_step; [|wp_step; by intros _].
  wp_step; [|wgo; by intros _].
  do 8 (wp_step; try done). wp_step. eapply wp_mono; [by apply log_on_safe|].
  intros keep c1 Hk. destruct keep; cbn [negb]; [|by wp_step]. specialize (Hk eq_refl).
  wgo; by intros _.
Qed.

Lemma switch_sides_safe u l c : coherent c -> wp P (on_switch_sides_response env u l) logged c.
Proof.
  intros Hc. unfold on_switch_sides_response. wp_step; [|wp_step; by intros _].
  wp_step. eapply wp_mono; [apply without_validation_safe|]. intros ? c1 E1; cbn in E1.
  pose proof (coherent_scope _ _ E1 Hc) as Hc1. wp_step; wp_step; [done|].
  wp_step; [|wp_step; by intros _]. do 4 (wp_step; try done). wp_step.
  eapply wp_mono; [by apply log_on_safe|].
  intros keep c2 Hk. destruct keep; cbn [negb]; [|by wp_step]. specialize (Hk eq_refl).
  wgo; by intros _.
Qed.
End Login.

(** ** Every step of a connection *)

Section Steps.
Context `{Crypto}.
Variable env : Env.

Lemma violation_safe msg c : coherent c ->
  wp P (handle_authorized_scope_violation env msg) logged c.
Proof.
  intros Hc. unfold handle_authorized_scope_violation, send_close_reason_no_retry.
  assert (Hs : forall f, scope_of (set_violations f c) = scope_of c) by done.
  wgo; try (intros _; first [exact Hc | eapply coherent_scope; [apply Hs|exact Hc]]);
    apply on_close_safe; intros; by wp_step.
Qed.

Lemma logged_same c : coherent c -> forall keep c', same c keep c' -> logged keep c'.
Proof. intros Hc keep c' Hs Hk. eapply coherent_scope; [by apply Hs|done]. Qed.

Lemma coherent_authorized c :
  coherent c -> on c authorized = true -> authed_conn_type c = Some (conn_type_of c).
Proof. intros [_ Hc] Ha. by rewrite Ha in Hc. Qed.

Lemma dispatch_safe m c :
  coherent c -> on c authorized = true ->
  authorized_scope_violation (authed_conn_type c) m = None ->
  on c port_forward_socket = false ->
  wp P (on_authorized_message env m) logged c.
Proof.
  intros Hc Ha Hv Hs. pose proof (coherent_authorized c Hc Ha) as Ht. rewrite Ht in Hv.
  eapply wp_mono; [eapply authorized_message_safe; [done..| |done]|by apply logged_same].
  unfold conn_type_of. rewrite Hs. by repeat case_match.
Qed.

Lemma on_message_safe m c : coherent c -> wp P (on_message env m) logged c.
Proof.
  intros Hc. unfold on_message. wp_step. wp_step.
  assert (Hdef : forall m, match (if on c authorized then authorized_scope_violation
                                     (authed_conn_type c) m else None) with
                 | Some _ => True
                 | None => wp P (if on c authorized then
                      if on c port_forward_socket then ret true else on_authorized_message env m
                    else ret true) logged c end).
  { intros m'. destruct (on c authorized) eqn:Ha; [|wp_step; by intros _].
    destruct (authorized_scope_violation _ _) eqn:Hv; [done|].
    destruct (on c port_forward_socket) eqn:Hs; [wp_step; by intros _|by apply dispatch_safe]. }
  destruct m as [m|]; [|specialize (Hdef None); cbn [andb];
    rewrite andb_false_r; case_match; [by apply violation_safe|done]].
  specialize (Hdef (Some m)).
  destruct m; cbn [andb]; rewrite ?andb_false_r, ?andb_true_r.
  all: try (case_match; [by apply violation_safe|]; first [exact Hdef | idtac]).
  - wgo; by intros _.
  - destruct (on c authorized) eqn:Ha; [wp_step; by intros _|by apply login_request_safe].
  - destruct m as [[]|]; try (case_match; [by apply violation_safe|exact Hdef]).
    wp_step. apply on_close_safe. intros c'. by wgo.
  - by apply switch_sides_safe.
  - by apply auth_2fa_safe.
Qed.

Lemma set_permission_safe f b c :
  f ∈ [keyboard; clipboard; audio; file; restart; recording; block_input; privacy_mode] ->
  wp P (set_permission f b) (fun _ c' => scope_of c' = scope_of c) c.
Proof. intros Hf. unfold set_permission. wgo. destruct f; try reflexivity; set_solver. Qed.

Lemma after_permission f b m c :
  f ∈ [keyboard; clipboard; audio; file; restart; recording; block_input; privacy_mode] ->
  keeps (fun _ => true) m ->
  wp P (bind (set_permission f b) (fun _ => m)) (fun _ c' => scope_of c' = scope_of c) c.
Proof.
  intros Hf Hm. wp_step. eapply wp_mono; [by apply set_permission_safe|].
  intros ? c1 E1; cbn in E1. eapply wp_mono; [by apply Hm|]. intros ? c2 E2; cbn in E2. congruence.
Qed.

Lemma switch_permission_safe name b c :
  wp P (switch_permission env name b) (fun _ c' => scope_of c' = scope_of c) c.
Proof.
  unfold switch_permission.
  repeat lazymatch goal with |- wp _ (if bool_decide _ then _ else _) _ _ => wp_step end;
    try (apply set_permission_safe; set_solver).
  - wp_step. unfold set_permission. do 3 wp_step; [done|]. wp_step.
    unfold subscribe_clipboard, can_sub_clipboard_service. do 2 wp_step.
    + wp_step; [|repeat (wp_step; try reflexivity)].
      * cbn [permitted]. names.
        destruct (clipboard_enabled _), (peer_keyboard_enabled _); cbn; try done. by case_match.
      * cbn [permitted]. names. unfold on. cbn. destruct b; cbn; [done|]. by case_match.
  - apply after_permission; [set_solver|apply subscribe_clipboard_keeps].
  - apply after_permission; [set_solver|]. intros c' _. wp_step. wp_step. wp_step; [|done].
    by apply (subscribe_audio_keeps (fun _ => true)).
  - unfold switch_privacy_mode. wgo; try (apply set_permission_safe; set_solver).
  - by wp_step.
Qed.

Lemma handle_voice_call_safe b c :
  wp P (handle_voice_call b) (fun _ c' => scope_of c' = scope_of c) c.
Proof.
  unfold handle_voice_call. repeat (wp_step; try reflexivity).
  - cbn [permitted]. names. unfold audio_enabled, on. cbn. by destruct (_ && negb _).
  - cbn [permitted]. by rewrite andb_false_r.
Qed.

Lemma on_cm_safe d c : coherent c -> wp P (on_cm env d) logged c.
Proof.
  intros Hc. destruct d; unfold on_cm, send_close_reason_no_retry.
  - do 4 wp_step. wp_step. eapply wp_mono; [by apply log_on_response_safe|].
    intros keep c1 Hk. destruct keep; cbn [negb]; [|by wp_step]. specialize (Hk eq_refl).
    wgo. by intros _.
  - wgo. apply on_close_safe. intros c'. by wp_step.
  - wp_step; [wp_step; by intros _|]. wp_step. apply on_close_safe. intros c'. by wp_step.
  - wgo. by intros _.
  - wp_step. eapply wp_mono; [apply switch_permission_safe|]. intros ? c' E; cbn in E.
    wp_step. intros _. by eapply coherent_scope.
  - wp_step. eapply wp_mono; [apply handle_voice_call_safe|]. intros ? c' E; cbn in E.
    wp_step. intros _. by eapply coherent_scope.
  - wp_step. eapply wp_mono; [apply close_voice_call_safe|]. intros ? c' E; cbn in E.
    wgo. intros _. by eapply coherent_scope.
Qed.

Lemma test_delay_safe c : coherent c -> wp P (on_test_delay_timer env) logged c.
Proof.
  intros Hc. unfold on_test_delay_timer. wp_step.
  - wp_step. apply on_close_safe. intros c'. by wp_step.
  - wgo; by intros _.
Qed.

Lemma step_safe e c : coherent c -> wp P (step env e) logged c.
Proof.
  intros Hc. unfold step, send_close_reason_no_retry. destruct e as [m|d| | | | | |].
  - wp_step. eapply wp_mono; [by apply on_message_safe|]. intros keep c1 Hk.
    destruct keep; cbn [negb]; [|by wp_step]. specialize (Hk eq_refl). wgo. by intros _.
  - by apply on_cm_safe.
  - wp_step. apply on_close_safe. intros c'. by wp_step.
  - wp_step. apply on_close_safe. intros c'. by wp_step.
  - wgo. apply on_close_safe. intros c'. by wp_step.
  - wgo. apply on_close_safe. intros c'. by wp_step.
  - wp_step; [|wp_step; by intros _]. wgo. apply on_close_safe. intros c'. by wp_step.
  - by apply test_delay_safe.
Qed.

Lemma finish_safe c : owned c -> wp P (finish env) (fun _ _ => True) c.
Proof.
  intros Ho. unfold finish, try_port_forward_loop.
  repeat (wp_step; try lazymatch goal with
    | |- wp _ (on_close _) _ _ => apply on_close_safe; intros ?
    | |- wp _ _ _ _ => fail
    | |- _ => done
    end).
  all: first [ exact I | by apply Ho ].
Qed.
End Steps.

Lemma conn_start_coherent env twofa h control : coherent (conn_start env twofa h control).
Proof. done. Qed.

Lemma run_safe `{Crypto} evs c :
  coherent c -> wp P (run evs) (fun _ _ => True) c.
Proof.
  revert c. induction evs as [|[env e] evs IH]; intros c Hc; cbn [run]; [by wp_step|].
  wp_step. eapply wp_mono; [by apply step_safe|]. intros keep c1 Hk.
  destruct keep; [by apply IH, Hk|by wp_step].
Qed.

Lemma wp_and {A} Q (m : M A) (K K' : A -> Conn -> Prop) c :
  wp Q m K c -> (let '(a, c', _) := m c in K' a c') -> wp Q m (fun a c' => K a c' /\ K' a c') c.
Proof. unfold wp. destruct (m c) as [[a c1] es]. naive_solver. Qed.

(** A connection served to its end. *)
Lemma serve_safe `{Crypto} evs last c :
  coherent c -> owned c -> wp P (serve evs last) (fun _ _ => True) c.
Proof.
  intros Hc Ho. unfold serve. wp_step. unfold wp at 1. rewrite announce_lacking. split.
  { unfold lacking. apply Forall_forall. intros [s e] Hin.
    apply list_elem_of_In, in_flat_map in Hin as (f & _ & Hin). destruct (on c f); [done|].
    destruct Hin as [[= <- <-]|[]]. done. }
  wp_step. pose proof (run_safe evs c Hc) as Hr.
  pose proof (run_moves keeps_owned evs (fun env e => step_owned env e) c Ho) as Ho'.
  unfold wp in *. destruct (run evs c) as [[keep c1] es1]. destruct Hr as [He _]. split; [done|].
  cbn in Ho'. destruct keep; cbn; [done|].
  pose proof (finish_safe last c1 Ho') as Hf. unfold wp, bind in *.
  destruct (finish last c1) as [[u c2] es2]. cbn. by rewrite app_nil_r.
Qed.

