(* ===== verification/ConnectionAuth.v ===== *)
(** * How a connection becomes authorized

    Theorems about the login of [Connection]: what proves the identity of a peer,
    which kinds of session the permissions allow, and where the code lets more
    through than it says. *)

From S2P Require Import Prelude TermBuffer TermService Messages SessionScope Passwords Connection.
From S2P Require Import ConnectionTrace ConnectionSafety.

#[local] Opaque get_version_number.

(** Nothing is asked of the effects here. *)
Notation T := (fun (_ : Conn) (_ : Effect) => True).

(** ** What a login is decided on *)

(** The fields that the decision reads. *)
Definition login_of (c : Conn) :=
  (on c authorized, lr c, hash c, on c require_2fa, on c from_switch).

Section Auth.
Context `{Crypto}.
Variable env : Env.

(** A device the user has trusted, unchanged and not too long ago. *)
Definition trusted (l : LoginRequest) : Prop :=
  hwid l <> [] /\ enable_trusted_devices env = true
  /\ exists d, d ∈ trusted_devices env /\ td_hwid d = hwid l /\ outdate env d = false
     /\ td_id d = my_id l /\ td_name d = my_name l /\ td_platform d = my_platform l.

(** The peer had a session a moment ago that passed the second factor. *)
Definition recent_2fa (l : LoginRequest) : Prop :=
  password l <> [] /\ exists pw, recent_session env l = Some (pw, true).

(** The second factor, when the connection asks for it. *)
Definition second_factor (c : Conn) (l : LoginRequest) : Prop :=
  on c require_2fa = false \/ on c from_switch = true \/ trusted l \/ recent_2fa l.

Definition allow_logon : bool :=
  bool_decide (get_builtin_option env "allow-logon-screen-password" = "Y"%string) && is_logon env.

(** The first factor: the password of a session a moment ago, or a password of the
    configuration, if the peer may still try and the user need not click. *)
Definition first_factor (c : Conn) (l : LoginRequest) : Prop :=
  (approve_mode (config env) = Click -> allow_logon = true)
  /\ password l <> []
  /\ ((exists pw tfa, recent_session env l = Some (pw, tfa)
                      /\ validate_password_plain (hash c) (password l) pw = true)
      \/ (check_failure env 0 = true
          /\ is_Some (validate_password (machine env) (config env) (hash c) (password l) allow_logon))).

Lemma recent_session_proof tfa c :
  wp T (is_recent_session env tfa)
    (fun b c' => login_of c' = login_of c
       /\ (b = true -> password (lr c) <> [] /\ exists pw t, recent_session env (lr c) = Some (pw, t)
           /\ if tfa then t = true else validate_password_plain (hash c) (password (lr c)) pw = true)) c.
Proof.
  unfold is_recent_session. wp_step. wp_step. destruct (recent_session env (lr c)) as [[pw t]|];
    [|by wp_step].
  wp_step; [|by wp_step]. apply andb_true_iff in E as [Hp%negb_true_iff%is_empty_false E].
  destruct tfa; do 3 wp_step; split; [done| |done|]; intros _; split; [done| |done|];
    exists pw, t; split; [done| |done|].
  - by rewrite andb_true_l, andb_false_l, orb_false_r in E.
  - by rewrite andb_false_l, orb_false_l in E.
Qed.

Lemma prepare_proof c :
  wp T (prepare_terminal_login_for_authorization env) (fun _ c' => login_of c' = login_of c) c.
Proof. unfold prepare_terminal_login_for_authorization. by repeat (wp_step; try reflexivity). Qed.

Lemma connect_proof c :
  wp T (connect_port_forward_if_needed env) (fun _ c' => login_of c' = login_of c) c.
Proof. unfold connect_port_forward_if_needed. by repeat (wp_step; try reflexivity). Qed.

Lemma wp_any {A} (m : M A) (K : A -> Conn -> Prop) c : (forall a c', K a c') -> wp T m K c.
Proof.
  intros HK. unfold wp. destruct (m c) as [[a c1] es]. split; [|apply HK].
  apply Forall_forall. by intros [] _.
Qed.

(** Authorization needs the second factor. *)
Lemma log_on_response_proof c :
  on c authorized = false ->
  wp T (send_logon_response_and_keep_alive env)
    (fun _ c' => on c' authorized = true ->
       on c require_2fa = false \/ on c from_switch = true \/ recent_2fa (lr c)) c.
Proof.
  intros Ha. unfold send_logon_response_and_keep_alive. wp_step. wp_step. rewrite Ha. wp_step.
  apply (wp_mono _ _ (fun code c' => login_of c' = login_of c /\ (code = false ->
     on c require_2fa = false \/ on c from_switch = true \/ recent_2fa (lr c)))).
  { destruct (on c require_2fa) eqn:E2; [|wp_step; auto]. wp_step.
    eapply wp_mono; [apply recent_session_proof|]. intros b c1 [E1 Hb]. wp_step. split; [done|].
    intros [Hn|Hn]%andb_false_iff; apply negb_false_iff in Hn; [|auto].
    destruct (Hb Hn) as (Hp & pw & t & Hr & ->). right; right. split; eauto. }
  intros code c1 [E1 Hcode]. assert (Ha1 : on c1 authorized = false) by (unfold login_of in E1; congruence).
  destruct code.
  { repeat (wp_step; try done). by rewrite Ha1. }
  specialize (Hcode eq_refl). apply wp_any. by intros.
Qed.

Lemma log_on_proof c :
  on c authorized = false ->
  wp T (log_on env)
    (fun _ c' => on c' authorized = true ->
       on c require_2fa = false \/ on c from_switch = true \/ recent_2fa (lr c)) c.
Proof.
  intros Ha. unfold log_on. wp_step. eapply wp_mono; [by apply log_on_response_proof|].
  intros keep c1 Hc. destruct keep; cbn [negb]; by repeat (wp_step; try done).
Qed.

Lemma find_trusted (l : LoginRequest) d :
  List.find (fun d => bool_decide (td_hwid d = hwid l)) (trusted_devices env) = Some d ->
  d ∈ trusted_devices env /\ td_hwid d = hwid l.
Proof.
  intros [Hin Hd%bool_decide_eq_true_1]%find_some. split; [by apply list_elem_of_In|done].
Qed.

Lemma without_validation_proof l c :
  wp T (handle_login_request_without_validation env l)
    (fun _ c' => on c' authorized = on c authorized /\ lr c' = l /\ hash c' = hash c
       /\ on c' from_switch = on c from_switch
       /\ (on c' require_2fa = false -> on c require_2fa = false \/ trusted l)) c.
Proof.
  unfold handle_login_request_without_validation. wp_step. wp_step.
  apply wp_bind, (wp_mono _ _ (fun _ c' => login_of c' = login_of (set_lr l c))).
  { by repeat (wp_step; try reflexivity). }
  intros ? c1 E1; cbn in E1. unfold login_of in E1.
  assert (lr c1 = l /\ on c1 authorized = on c authorized /\ hash c1 = hash c
     /\ on c1 from_switch = on c from_switch /\ on c1 require_2fa = on c require_2fa)
    as (El & Ea & Eh & Ef & E2).
  { change (lr (set_lr l c)) with l in E1. change (on (set_lr l c)) with (on c) in E1.
    change (hash (set_lr l c)) with (hash c) in E1. by simplify_eq. }
  clear E1. wp_step. wp_step. wp_step.
  - apply andb_true_iff in H0 as [[H2 Hw%negb_true_iff%is_empty_false]%andb_true_iff Hd].
    wp_step; [|wp_step; rewrite <- E2; by split_and!; auto].
    apply find_trusted in E as [Hin Hh]. wp_step; [|rewrite <- E2; by split_and!; auto].
    do 3 wp_step. split_and!; [done..|]. intros _. right. split_and!; [done..|]. exists t.
    bools. rewrite !bool_decide_eq_true in *. done.
  - rewrite <- E2. by split_and!; auto.
Qed.

Lemma reset_proof c :
  wp T reset_session_scope_for_login (fun _ c' => login_of c' = login_of c) c.
Proof. unfold reset_session_scope_for_login. by repeat wp_step. Qed.

Lemma login_scope_proof l c : wp T (login_scope env l) (fun _ c' => login_of c' = login_of c) c.
Proof. unfold login_scope. by repeat (wp_step; try reflexivity). Qed.

Lemma check_failure_proof i c :
  wp T (do_check_failure env i) (fun b c' => c' = c /\ (b = true -> check_failure env i = true)) c.
Proof. unfold do_check_failure. by repeat (wp_step; try done). Qed.

Lemma validate_proof c :
  wp T (do_validate_password env (allow_logon))
    (fun b c' => login_of c' = login_of c /\ (b = true ->
       is_Some (validate_password (machine env) (config env) (hash c) (password (lr c)) allow_logon))) c.
Proof.
  unfold do_validate_password. wp_step. wp_step.
  wp_step; [|by wp_step]. repeat (wp_step; try done); split; try done; eauto.
Qed.

(** After the credentials: authorized only with both factors. *)
Lemma credentials_proof l err c :
  on c authorized = false -> lr c = l ->
  wp T (check_credentials env l err)
    (fun _ c' => on c' authorized = true ->
       first_factor c l /\ (on c require_2fa = false \/ on c from_switch = true \/ recent_2fa l)) c.
Proof.
  intros Ha Hl. unfold check_credentials. fold allow_logon.
  generalize (get_version_number "1.2.0" <=? get_version_number (version l)). intros new.
  match goal with |- wp _ (if ?b then _ else _) _ _ => destruct b eqn:Ec end.
  { repeat (wp_step; try done); cbn; by rewrite ?Ha. }
  assert (Hclick : approve_mode (config env) = Click -> allow_logon = true).
  { intros Em. rewrite Em in Ec. by apply negb_false_iff in Ec. }
  clear Ec. wp_step. eapply wp_mono; [apply recent_session_proof|].
  intros recent c1 [E1 Hr]. rewrite Hl in Hr.
  assert (on c1 authorized = false /\ lr c1 = l /\ hash c1 = hash c
          /\ on c1 require_2fa = on c require_2fa /\ on c1 from_switch = on c from_switch)
    as (Ha1 & Hl1 & Hh1 & H21 & Hf1) by (unfold login_of in E1; injection E1; intros; split_and!; congruence).
  clear E1. destruct recent.
  { destruct (Hr eq_refl) as (Hp & pw & t & Hs & Hv). wp_step.
    - eapply wp_mono; [by apply log_on_proof|]. intros keep c2 Hc Ht.
      rewrite Hl1, H21, Hf1 in Hc. split; [|by apply Hc]. split; [done|]. split; [done|]. left. eauto.
    - repeat (wp_step; try done). by rewrite Ha1. }
  clear Hr. wp_step. { repeat (wp_step; try done); by rewrite Ha1. }
  apply is_empty_false in E. wp_step. eapply wp_mono; [apply check_failure_proof|].
  intros ok ? [-> Hok]. destruct ok; cbn [negb]; [|wp_step; by rewrite Ha1]. specialize (Hok eq_refl).
  wp_step. eapply wp_mono; [apply validate_proof|]. intros v c2 [E2 Hv]. rewrite Hl1, Hh1 in Hv.
  assert (on c2 authorized = false /\ lr c2 = l /\ on c2 require_2fa = on c require_2fa
          /\ on c2 from_switch = on c from_switch)
    as (Ha2 & Hl2 & H22 & Hf2) by (unfold login_of in E2; injection E2; intros; split_and!; congruence).
  destruct v; cbn [negb]; [|repeat (wp_step; try done); by rewrite Ha2].
  wp_step. wp_step; [done|]. wp_step.
  - eapply wp_mono; [by apply log_on_proof|]. intros keep c3 Hc Ht.
    rewrite Hl2, H22, Hf2 in Hc. split; [|by apply Hc]. split; [done|]. split; [done|]. right. auto.
  - repeat (wp_step; try done). by rewrite Ha2.
Qed.

Lemma login_request_proof l c :
  on c authorized = false ->
  wp T (on_login_request env l)
    (fun _ c' => on c' authorized = true -> first_factor c l /\ second_factor c l) c.
Proof.
  intros Ha. unfold on_login_request. wp_step. eapply wp_mono; [apply without_validation_proof|].
  intros ? c1 (Ha1 & Hl1 & Hh1 & Hf1 & H21). rewrite Ha in Ha1. wp_step. wp_step. rewrite Ha1.
  wp_step. eapply wp_mono; [apply reset_proof|]. intros ? c2 E2; cbn in E2. wp_step.
  eapply wp_mono; [apply login_scope_proof|]. intros ok c3 E3; cbn in E3.
  assert (on c3 authorized = false /\ lr c3 = l /\ hash c3 = hash c
          /\ on c3 require_2fa = on c1 require_2fa /\ on c3 from_switch = on c from_switch)
    as (Ha3 & Hl3 & Hh3 & H23 & Hf3) by (rewrite E2 in E3; unfold login_of in E3; injection E3; intros; split_and!; congruence).
  clear E2 E3. wp_step; [wp_step; by rewrite Ha3|].
  wp_step; [repeat (wp_step; try done); by rewrite Ha3|]. wp_step; wp_step; [done|]. wp_step.
  apply (wp_mono _ _ (fun _ c' => c' = c3)).
  { wp_step; [|by wp_step]. eapply wp_mono; [apply check_failure_proof|]. by intros ? ? [-> _]. }
  intros b ? ->. wp_step; [wp_step; by rewrite Ha3|]. wp_step; wp_step; [done|].
  wp_step.
  - wp_step. apply (wp_mono _ _ (fun _ c' => c' = c3)).
    { wp_step; [|by wp_step]. wp_step. eapply wp_mono; [apply check_failure_proof|].
      intros ? ? [-> _]. by repeat (wp_step; try done). }
    intros r ? ->. repeat (wp_step; try done); by rewrite Ha3.
  - eapply wp_mono; [by apply credentials_proof|]. intros keep c4 Hc Ht.
    destruct (Hc Ht) as [H1 H2]. split.
    + unfold first_factor in *. by rewrite Hh3 in H1.
    + unfold second_factor. rewrite H23, Hf3 in H2. destruct H2 as [H2|[H2|H2]]; auto.
      destruct (H21 H2); auto.
Qed.
End Auth.

(** ** What handlers leave alone *)

Lemma leaves_wp {X A} (f : Conn -> X) (m : M A) c :
  leaves f m -> wp T m (fun _ c' => f c' = f c) c.
Proof.
  intros Hm. specialize (Hm c). unfold wp. destruct (m c) as [[a c1] es]. split; [|done].
  apply Forall_forall. by intros [] _.
Qed.

(** The fields of the session's kind, and what it was asked with. *)
Definition kinds_of (c : Conn) :=
  (file_transfer c, on c view_camera, on c terminal, control_permissions c).
Definition session_of (c : Conn) :=
  (kinds_of c, on c port_forward_socket, lr c, on c authorized, authed_conn_type c).

Lemma session_kinds {A} (m : M A) : leaves session_of m -> leaves kinds_of m.
Proof. intros Hm c. specialize (Hm c). unfold unchanged, session_of in *. congruence. Qed.

Section LeavesHandlers.
Context `{Crypto}.
Variable env : Env.

Lemma update_options_leaves o : leaves session_of (update_options env o).
Proof.
  unfold update_options, update_image_quality, update_cursor_options, update_disable_options,
    update_privacy_option, update_block_input_option, update_show_my_cursor, subscribe_audio,
    subscribe_clipboard, turn_on_privacy, turn_off_privacy, update_terminal_persistence.
  leave.
Qed.

Lemma open_session_leaves t : leaves session_of (open_session env t).
Proof.
  unfold open_session, normalize_conn_audit_auth_fields, update_codec_on_login,
    update_scoped_login_options, start_session, init_terminal_service, try_sub_monitor_services.
  leave; apply update_options_leaves.
Qed.

Lemma log_on_response_leaves : leaves kinds_of (send_logon_response_and_keep_alive env).
Proof.
  unfold send_logon_response_and_keep_alive, is_recent_session,
    prepare_terminal_login_for_authorization, connect_port_forward_if_needed.
  leave. apply session_kinds, open_session_leaves.
Qed.

Lemma log_on_leaves : leaves kinds_of (log_on env).
Proof. unfold log_on. apply moves_bind; [apply _|apply log_on_response_leaves|]. intros. leave. Qed.

Lemma without_validation_leaves l :
  leaves kinds_of (handle_login_request_without_validation env l).
Proof. unfold handle_login_request_without_validation. leave. Qed.

Lemma credentials_leaves l err : leaves kinds_of (check_credentials env l err).
Proof.
  unfold check_credentials, is_recent_session, do_check_failure, do_validate_password.
  leave; apply log_on_leaves.
Qed.

Lemma on_close_leaves lock : leaves kinds_of (on_close lock).
Proof. unfold on_close. leave. Qed.

Lemma subscribe_audio_leaves : leaves kinds_of subscribe_audio.
Proof. unfold subscribe_audio. leave. Qed.

Lemma on_misc_leaves m : leaves kinds_of (on_misc env m).
Proof.
  unfold on_misc, handle_switch_display, capture_displays, toggle_privacy_mode, turn_on_privacy,
    turn_off_privacy, change_resolution.
  leave; first [apply session_kinds, update_options_leaves | apply on_close_leaves].
Qed.

Lemma on_file_action_leaves fa : leaves kinds_of (on_file_action env fa).
Proof. unfold on_file_action, do_file_action, on_send. leave. Qed.

Lemma authorized_message_leaves m : leaves kinds_of (on_authorized_message env m).
Proof.
  unfold on_authorized_message, on_mouse_event, on_pointer_device_event, on_key_event, on_clipboard,
    on_file_response, handle_terminal_action, close_voice_call.
  leave; first [apply on_misc_leaves | apply on_file_action_leaves].
Qed.

Lemma on_cm_leaves d : leaves kinds_of (on_cm env d).
Proof.
  unfold on_cm, switch_permission, switch_privacy_mode, set_permission, subscribe_clipboard,
    handle_voice_call, close_voice_call, send_close_reason_no_retry.
  leave; first [apply log_on_response_leaves | apply on_close_leaves | apply subscribe_audio_leaves].
Qed.

Lemma auth_2fa_leaves code d : leaves kinds_of (on_auth_2fa env code d).
Proof. unfold on_auth_2fa, do_check_failure. leave; apply log_on_leaves. Qed.

Lemma switch_sides_leaves u l : leaves kinds_of (on_switch_sides_response env u l).
Proof.
  unfold on_switch_sides_response. leave; [apply without_validation_leaves|apply log_on_leaves].
Qed.

Lemma violation_leaves msg : leaves kinds_of (handle_authorized_scope_violation env msg).
Proof.
  unfold handle_authorized_scope_violation, send_close_reason_no_retry. leave; apply on_close_leaves.
Qed.

(** Only a login request changes the kind of session that is asked for. *)
Lemma on_message_leaves m :
  match m with Some (MLoginRequest _) => False | _ => True end -> leaves kinds_of (on_message env m).
Proof.
  intros Hm. unfold on_message. apply moves_bind; [apply _|apply moves_get; apply _|]. intros c.
  destruct m as [[]|]; try done; leave;
    first [apply violation_leaves | apply auth_2fa_leaves | apply switch_sides_leaves
          | apply authorized_message_leaves | apply on_close_leaves].
Qed.
End LeavesHandlers.

(** ** The theorems *)

Lemma wp_result {A} Q (m : M A) K c a c' es : wp Q m K c -> m c = (a, c', es) -> K a c'.
Proof. unfold wp. intros Hw E. rewrite E in Hw. by destruct Hw. Qed.

Section Theorems.
Context `{Crypto}.

Lemma on_message_unauthorized env m c :
  on c authorized = false ->
  on_message env m c
  = match m with
    | Some (MMisc (Some (CloseReason _))) =>
        (on_close true ;; emit CheckRemoveSession ;; ret false) c
    | Some (MLoginRequest l) => on_login_request env l c
    | Some (Auth2FA code device) => on_auth_2fa env code device c
    | Some (TestDelay time b _ _) =>
        ((if b then emit (Echo time)
          else when (on c last_test_delay) (put last_test_delay false ;; emit QosDelay)) ;; ret true) c
    | Some (SwitchSidesResponse u l) => on_switch_sides_response env u l c
    | _ => ret true c
    end.
Proof.
  intros Ha. unfold on_message, bind at 1, get. rewrite Ha. cbn [andb].
  assert (Hb : forall {A} (m : M A), (let '(b, c0, es') := m c in (b, c0, [] ++ es')) = m c).
  { intros A m'. cbn. by destruct (m' c) as [[? ?] ?]. }
  destruct m as [[]|]; try apply Hb; try reflexivity.
  destruct m as [[]|]; try apply Hb; reflexivity.
Qed.

Lemma on_close_authorized lock c : on (snd (fst (on_close lock c))) authorized = on c authorized.
Proof.
  assert (Hl : leaves (fun c => on c authorized) (on_close lock)) by (unfold on_close; leave).
  apply Hl.
Qed.

Lemma auth_2fa_proof env code d c :
  on c authorized = false ->
  wp T (on_auth_2fa env code d)
    (fun _ c' => on c' authorized = true ->
       on c require_2fa = true /\ check_failure env 1 = true /\ totp_check env code = Some true) c.
Proof.
  intros Ha. unfold on_auth_2fa. wp_step. eapply wp_mono; [apply check_failure_proof|].
  intros ok ? [-> Hok]. destruct ok; cbn [negb]; [|wp_step; by rewrite Ha]. specialize (Hok eq_refl).
  wp_step. wp_step. destruct (on c require_2fa); cbn [negb]; [|wp_step; by rewrite Ha].
  destruct (totp_check env code) as [[]|]; [by apply wp_any| |wp_step; by rewrite Ha].
  repeat (wp_step; try done). by rewrite Ha.
Qed.

Lemma switch_sides_proof env u l c :
  on c authorized = false ->
  wp T (on_switch_sides_response env u l)
    (fun _ c' => on c' authorized = true ->
       match l with Some l => switch_uuid env (my_id l) = Some u | None => False end) c.
Proof.
  intros Ha. unfold on_switch_sides_response. destruct l as [l|]; [|wp_step; by rewrite Ha].
  wp_step. eapply wp_mono; [apply without_validation_proof|]. intros ? c1 (Ha1 & _).
  wp_step; wp_step; [done|]. wp_step; [|wp_step; congruence].
  apply wp_any. intros _ c2 _. apply andb_true_iff in E as [_ E]. by apply bool_decide_eq_true_1 in E.
Qed.

Lemma cm_proof env d c :
  on c authorized = false ->
  wp T (on_cm env d) (fun _ c' => on c' authorized = true -> d = CmAuthorize) c.
Proof.
  intros Ha. destruct d; [by apply wp_any|..];
    (eapply wp_mono;
     [apply (leaves_wp (fun c => on c authorized));
      unfold on_cm, switch_permission, switch_privacy_mode, set_permission, subscribe_clipboard,
        subscribe_audio, handle_voice_call, close_voice_call, send_close_reason_no_retry, on_close;
      leave
     |intros ? c' E; cbn in E; congruence]).
Qed.

(** What comes neither from the peer nor from the connection manager. *)
Definition internal (e : Event) : bool :=
  match e with Peer _ | Manager _ => false | _ => true end.

Lemma internal_leaves env e :
  internal e = true -> leaves (fun c => (kinds_of c, on c authorized)) (step env e).
Proof.
  destruct e; try done; intros _;
    unfold step, on_test_delay_timer, send_close_reason_no_retry, on_close; leave.
Qed.

(** C2: Nobody gets in without a proof.  When a step turns a connection into an
    authorized one, the step was the local user's click; or a login request with a
    password (or the memory of one a moment ago) that the approval mode lets decide,
    and the second factor if there is one; or the right code of the second factor,
    within the number of attempts; or the answer to a request of this device to
    switch sides. *)
Theorem authorization_needs_proof env e c keep c' es :
  step env e c = (keep, c', es) -> on c authorized = false -> on c' authorized = true ->
  match e with
  | Manager CmAuthorize => True
  | Peer (Some (MLoginRequest l)) => first_factor env c l /\ second_factor env c l
  | Peer (Some (Auth2FA code _)) =>
      on c require_2fa = true /\ check_failure env 1 = true /\ totp_check env code = Some true
  | Peer (Some (SwitchSidesResponse u (Some l))) => switch_uuid env (my_id l) = Some u
  | _ => False
  end.
Proof.
  intros E Ha Ha'. destruct (internal e) eqn:Ei.
  { pose proof (moves_result _ _ _ _ _ _ (internal_leaves env e Ei) E) as Hl.
    apply (f_equal snd) in Hl. cbn [snd] in Hl. congruence. }
  destruct e as [m|d| | | | | |]; try done.
  - assert (Em : exists k es', on_message env m c = (k, c', es')).
    { unfold step, bind in E. destruct (on_message env m c) as [[k c1] es1] eqn:E1.
      exists k, es1. destruct k; cbn in E; by simplify_eq. }
    clear E. destruct Em as (k & es' & E). rewrite on_message_unauthorized in E by done.
    destruct m as [m|]; [|unfold ret in E; simplify_eq; congruence].
    destruct m; try (unfold ret in E; simplify_eq; congruence).
    + exfalso. destruct from_client; [|destruct (on c last_test_delay)]; cbn in E;
        simplify_eq; unfold on in *; cbn in *; congruence.
    + exact (wp_result _ _ _ _ _ _ _ (login_request_proof env lr c Ha) E Ha').
    + exfalso. destruct m as [[]|]; try (unfold ret in E; simplify_eq; congruence).
      pose proof (on_close_authorized true c) as Hc. unfold bind in E.
      destruct (on_close true c) as [[u c1] es1]. cbn in *. simplify_eq. congruence.
    + pose proof (wp_result _ _ _ _ _ _ _ (switch_sides_proof env uuid lr c Ha) E Ha') as Hp.
      by destruct lr.
    + exact (wp_result _ _ _ _ _ _ _ (auth_2fa_proof env code hwid c Ha) E Ha').
  - pose proof (wp_result _ _ _ _ _ _ _ (cm_proof env d c Ha) E Ha') as ->. done.
Qed.

(** *** The kinds of session and their permissions *)

(** The states of a connection that goes on, when every step finds the system in a
    state of [ok]. *)
Inductive reaches (ok : Env -> Prop) (c0 : Conn) : Conn -> Prop :=
| reaches_start : reaches ok c0 c0
| reaches_step env e c c' es :
    reaches ok c0 c -> ok env -> step env e c = (true, c', es) -> reaches ok c0 c'.

(** The permission that a login request of a kind needs. *)
Definition kind_key (t : AuthConnType) : option string :=
  match t with
  | FileTransfer => Some "enable-file-transfer"%string
  | ViewCamera => Some "enable-camera"%string
  | Terminal => Some "enable-terminal"%string
  | Remote | PortForward => None
  end.

(** The connection has recorded that this kind was asked for. *)
Definition asked_for (t : AuthConnType) (c : Conn) : bool :=
  match t with
  | FileTransfer => bool_decide (is_Some (file_transfer c))
  | ViewCamera => on c view_camera
  | Terminal => on c terminal
  | Remote | PortForward => false
  end.

Definition not_asked (t : AuthConnType) (control : option Z) (c : Conn) : Prop :=
  control_permissions c = control /\ asked_for t c = false.

Lemma not_asked_kinds t control c c' :
  kinds_of c' = kinds_of c -> not_asked t control c -> not_asked t control c'.
Proof.
  unfold kinds_of, not_asked, asked_for. intros [= -> -> -> ->]. done.
Qed.

Lemma leaves_not_asked {A} t control (m : M A) c :
  leaves kinds_of m -> not_asked t control c -> wp T m (fun _ => not_asked t control) c.
Proof.
  intros Hm Hn. eapply wp_mono; [by apply (leaves_wp kinds_of)|]. intros ? c' E; cbn in E.
  by eapply not_asked_kinds.
Qed.

Lemma login_scope_not_asked env t key control l c :
  kind_key t = Some key -> permission env key control = false -> not_asked t control c ->
  wp T (login_scope env l) (fun _ => not_asked t control) c.
Proof.
  intros Hk Hp [Hc Hn]. unfold login_scope. wp_step; wp_step.
  assert (Hd : forall k, kind_key t = Some k -> permission env k (control_permissions c) = false)
    by (intros k Ek; rewrite Hk in Ek; injection Ek as <-; by rewrite Hc).
  destruct t; cbn in Hk; try done;
    repeat (wp_step; try done); try (split; [exact Hc|exact Hn]);
    exfalso; rewrite (Hd _ eq_refl) in *; done.
Qed.

Lemma login_request_not_asked env t key control l c :
  kind_key t = Some key -> permission env key control = false -> not_asked t control c ->
  wp T (on_login_request env l) (fun _ => not_asked t control) c.
Proof.
  intros Hk Hp Hn. unfold on_login_request. wp_step.
  eapply wp_mono; [eapply leaves_not_asked; [apply without_validation_leaves|done]|].
  intros ? c1 Hn1. wp_step; wp_step. wp_step; [by wp_step|]. wp_step.
  apply (wp_mono _ _ (fun _ => not_asked t control)).
  { unfold reset_session_scope_for_login. repeat wp_step. destruct Hn1 as [Hc _].
    split; [exact Hc|]. by destruct t. }
  intros ? c2 Hn2. wp_step. eapply wp_mono; [by eapply login_scope_not_asked|].
  intros ok c3 Hn3. eapply leaves_not_asked; [|done]. unfold do_check_failure.
  leave. apply credentials_leaves.
Qed.

Lemma step_not_asked env e t key control c :
  kind_key t = Some key -> permission env key control = false -> not_asked t control c ->
  wp T (step env e) (fun _ => not_asked t control) c.
Proof.
  intros Hk Hp Hn. destruct (internal e) eqn:Ei.
  { apply leaves_not_asked; [|done]. intros c'. pose proof (internal_leaves env e Ei c') as Hl.
    by apply (f_equal fst) in Hl. }
  destruct e as [m|d| | | | | |]; try done; [|apply leaves_not_asked; [apply on_cm_leaves|done]].
  unfold step. wp_step.
  apply (wp_mono _ _ (fun _ => not_asked t control));
    [|intros keep c1 Hn1; by repeat (wp_step; try done)].
  destruct m as [[]|]; try (apply leaves_not_asked; [by apply on_message_leaves|done]).
  unfold on_message. wp_step; wp_step. wp_step; [by wp_step|].
  wp_step; [apply leaves_not_asked; [apply violation_leaves|done]|].
  by eapply login_request_not_asked.
Qed.


(** *** The kind of the session a login opens *)

(** The kind a login request asks for. *)
Definition type_of_union (u : option LoginUnion) : AuthConnType :=
  match u with
  | Some (LFileTransfer _ _) => FileTransfer
  | Some (LPortForward _ _) => PortForward
  | Some LViewCamera => ViewCamera
  | Some (LTerminal _) => Terminal
  | None => Remote
  end.

Definition forwards (u : option LoginUnion) : bool :=
  match u with Some (LPortForward _ _) => true | _ => false end.

(** The kind that the fields of an unauthorized connection lead to. *)
Definition kind_ahead (c : Conn) : AuthConnType :=
  if bool_decide (is_Some (file_transfer c)) then FileTransfer
  else if forwards (login_union (lr c)) then PortForward
  else if on c view_camera then ViewCamera
  else if on c terminal then Terminal
  else Remote.

Definition becomes (t : AuthConnType) (c : Conn) : Prop :=
  on c authorized = true -> authed_conn_type c = Some t.

Lemma session_kind_ahead c c' : session_of c' = session_of c -> kind_ahead c' = kind_ahead c.
Proof.
  unfold session_of, kinds_of, kind_ahead. intros [= Hf Hv Ht _ _ Hl _ _].
  by rewrite Hf, Hv, Ht, Hl.
Qed.

Lemma connect_kind env c :
  on c port_forward_socket = false ->
  wp T (connect_port_forward_if_needed env)
    (fun ok c' => on c' authorized = on c authorized
                  /\ (ok = true -> conn_type_of c' = kind_ahead c)) c.
Proof.
  intros Hs. unfold connect_port_forward_if_needed. wp_step; wp_step. rewrite Hs.
  unfold kind_ahead, conn_type_of.
  repeat wp_step; try done; split; try done; intros _; rewrite ?Hs, ?E; cbn; try done.
Qed.

Lemma log_on_response_kind env c :
  on c authorized = false -> on c port_forward_socket = false ->
  wp T (send_logon_response_and_keep_alive env) (fun _ => becomes (kind_ahead c)) c.
Proof.
  intros Ha Hs. unfold send_logon_response_and_keep_alive. wp_step; wp_step. rewrite Ha. wp_step.
  eapply wp_mono; [apply (leaves_wp session_of); unfold is_recent_session; leave|].
  intros code c1 E1; cbn in E1.
  assert (Ha1 : on c1 authorized = false) by (unfold session_of in E1; congruence).
  assert (Hs1 : on c1 port_forward_socket = false) by (unfold session_of in E1; congruence).
  assert (Hk1 : kind_ahead c1 = kind_ahead c) by by apply session_kind_ahead.
  destruct code; [repeat (wp_step; try done); intros ?; congruence|]. wp_step.
  eapply wp_mono; [apply (leaves_wp session_of);
                   unfold prepare_terminal_login_for_authorization; leave|].
  intros r c2 E2; cbn in E2.
  assert (Ha2 : on c2 authorized = false) by (unfold session_of in E2; congruence).
  assert (Hs2 : on c2 port_forward_socket = false) by (unfold session_of in E2; congruence).
  assert (Hk2 : kind_ahead c2 = kind_ahead c) by (rewrite <- Hk1; by apply session_kind_ahead).
  destruct r; [wp_step; intros ?; congruence|]. wp_step.
  eapply wp_mono; [by apply connect_kind|]. intros ok c3 [Ha3 Hk3].
  destruct ok; cbn [negb]; [|wp_step; intros ?; congruence]. do 6 wp_step.
  eapply wp_mono; [apply (leaves_wp session_of), open_session_leaves|].
  intros ? c4 E4 _; cbn beta in E4. rewrite <- Hk2, <- Hk3 by done.
  unfold session_of in E4. by injection E4 as _ _ _ _ _ _ _ ->.
Qed.

Lemma log_on_kind env c :
  on c authorized = false -> on c port_forward_socket = false ->
  wp T (log_on env) (fun _ => becomes (kind_ahead c)) c.
Proof.
  intros Ha Hs. unfold log_on. wp_step. eapply wp_mono; [by apply log_on_response_kind|].
  intros keep c1 Hc. destruct keep; cbn [negb]; by repeat (wp_step; try done).
Qed.

(** The credentials decide whether to log on, and change nothing of the session. *)
Lemma credentials_kind env l err c :
  on c authorized = false -> on c port_forward_socket = false ->
  wp T (check_credentials env l err) (fun _ => becomes (kind_ahead c)) c.
Proof.
  intros Ha Hs. unfold check_credentials.
  generalize (get_version_number "1.2.0" <=? get_version_number (version l)). intros new.
  assert (Hun : forall c1, session_of c1 = session_of c -> becomes (kind_ahead c) c1)
    by (unfold becomes, session_of; intros; congruence).
  assert (Hon : forall c1, session_of c1 = session_of c ->
            wp T (log_on env) (fun _ => becomes (kind_ahead c)) c1).
  { intros c1 E1. assert (kind_ahead c1 = kind_ahead c) as <- by by apply session_kind_ahead.
    apply log_on_kind; unfold session_of in E1; congruence. }
  match goal with |- wp _ (if ?b then _ else _) _ _ => destruct b end.
  { repeat (wp_step; try done); by apply Hun. }
  wp_step. eapply wp_mono; [apply (leaves_wp session_of); unfold is_recent_session; leave|].
  intros recent c1 E1; cbn in E1. destruct recent.
  { wp_step; [by apply Hon|]. repeat (wp_step; try done); by apply Hun. }
  wp_step; [repeat (wp_step; try done); by apply Hun|].
  wp_step. eapply wp_mono; [apply check_failure_proof|]. intros ok ? [-> _].
  destruct ok; cbn [negb]; [|wp_step; by apply Hun].
  wp_step. eapply wp_mono; [apply (leaves_wp session_of); unfold do_validate_password; leave|].
  intros v c2 E2; cbn in E2. rewrite E1 in E2.
  destruct v; cbn [negb]; [|repeat (wp_step; try done); by apply Hun].
  wp_step. wp_step; [done|]. wp_step; [by apply Hon|].
  repeat (wp_step; try done); by apply Hun.
Qed.

Lemma login_request_kind env l c :
  on c authorized = false -> on c port_forward_socket = false ->
  wp T (on_login_request env l) (fun _ => becomes (type_of_union (login_union l))) c.
Proof.
  intros Ha Hs. unfold on_login_request. wp_step.
  apply (wp_mono _ _ (fun _ c' => on c' authorized = false /\ on c' port_forward_socket = false
                                  /\ lr c' = l)).
  { unfold handle_login_request_without_validation.
    repeat (wp_step; try done); unfold on in *; cbn; by rewrite ?Ha, ?Hs. }
  intros ? c1 (Ha1 & Hs1 & Hl1). wp_step; wp_step. rewrite Ha1. wp_step.
  unfold reset_session_scope_for_login. repeat wp_step. set (c2 := set_bool _ _ _).
  assert (H2 : on c2 authorized = false /\ on c2 port_forward_socket = false /\ lr c2 = l
    /\ file_transfer c2 = None /\ on c2 view_camera = false /\ on c2 terminal = false) by done.
  clearbody c2. clear c1 Ha1 Hs1 Hl1 c Ha Hs. destruct H2 as (Ha & Hs & Hl & Hf & Hv & Ht).
  apply (wp_mono _ _ (fun ok c' => on c' authorized = false /\ on c' port_forward_socket = false
     /\ (ok = true -> kind_ahead c' = type_of_union (login_union l)))).
  { unfold login_scope, kind_ahead.
    repeat (wp_step; try done); unfold on in *; cbn in *; rewrite ?Hl, ?E, ?Hf, ?Hv, ?Ht; done. }
  intros ok c3 (Ha3 & Hs3 & Hk3).
  assert (Hno : becomes (type_of_union (login_union l)) c3) by (intros ?; congruence).
  destruct ok; cbn [negb]; [|by wp_step]. rewrite <- (Hk3 eq_refl) in *.
  wp_step; [by repeat (wp_step; try done)|]. wp_step; wp_step; [done|]. wp_step.
  apply (wp_mono _ _ (fun _ c' => c' = c3)).
  { wp_step; [|by wp_step]. eapply wp_mono; [apply check_failure_proof|]. by intros ? ? [-> _]. }
  intros b ? ->. wp_step; [by wp_step|]. wp_step; wp_step; [done|].
  wp_step; [|by apply credentials_kind]. wp_step. apply (wp_mono _ _ (fun _ c' => c' = c3)).
  { wp_step; [|by wp_step]. wp_step. eapply wp_mono; [apply check_failure_proof|].
    intros ? ? [-> _]. by repeat (wp_step; try done). }
  intros r ? ->. by repeat (wp_step; try done).
Qed.

(** The session is the one that was asked for.  A login request that authorizes a
    connection opens a session of the kind it names, whatever requests came before it
    on the connection. *)
Theorem session_is_what_was_asked env l c keep c' es :
  coherent c -> on c authorized = false ->
  step env (Peer (Some (MLoginRequest l))) c = (keep, c', es) ->
  on c' authorized = true ->
  authed_conn_type c' = Some (type_of_union (login_union l)).
Proof.
  intros [_ Hc] Ha E Ha'. rewrite Ha in Hc. destruct Hc as [_ Hs].
  assert (Em : exists k es', on_login_request env l c = (k, c', es')).
  { unfold step, bind in E. rewrite on_message_unauthorized in E by done.
    destruct (on_login_request env l c) as [[k c1] es1] eqn:E1.
    exists k, es1. destruct k; cbn in E; by simplify_eq. }
  destruct Em as (k & es' & Em).
  exact (wp_result _ _ _ _ _ _ _ (login_request_kind env l c Ha Hs) Em Ha').
Qed.
End Theorems.

(** ** Concrete connections *)

Definition ex_env : Env := {|
  now := 0; machine := ex_machine; config := snd ex_set;
  get_option := fun k => if bool_decide (k = "enable-tunnel"%string) then "N"%string else ""%string;
  get_builtin_option := fun _ => ""%string; my_device_id := "100"; is_direct_ip_access := fun _ => false;
  check_failure := fun _ => true; trusted_devices := []; recent_session := fun _ => None;
  totp_check := fun code => Some (bool_decide (code = "123456"%string));
  switch_uuid := fun _ => Some (replicate 16 x00);
  in_privacy_mode := false; privacy_mode_supported := false; headless_allowed := false;
  headless_user := ""; start_desktop := ""; is_logon := false; connects := fun _ => true;
  service_specified_user := fun _ => None; display_server_error := "";
  displays_available := true; is_dir := fun _ => true; whiteboard_supported := false;
  new_service_id := "tmp"; primary_display := 0; multi_ui_session := false;
  has_read_job := fun _ => false; silent := false; idle := false; privacy_mode_is_mine := false;
  privacy_off_succeeds := true; rdev_key := fun z => z; is_modifier_key := fun _ => false |}.

Definition ex_login (u : option LoginUnion) : LoginRequest :=
  mkLogin "100" (client_reply (H := toy_crypto) ex_hash ex_pw) "7" "peer" None u false 1 "1.4.0"
    "" "" "Linux" [].

Notation ex_start twofa control := (conn_start ex_env twofa ex_hash control).
Notation ex_step e c := (step (H := toy_crypto) ex_env e c).

Definition ex_done (e : Event) (c : Conn) : Conn := snd (fst (ex_step e c)).

Lemma ex_step_done e c k c' es : ex_step e c = (k, c', es) -> c' = ex_done e c.
Proof. unfold ex_done. by intros ->. Defined.

Lemma authorization_needs_proof_witness :
  let e := Peer (Some (MLoginRequest (ex_login None))) in
  on (ex_done e (ex_start false None)) authorized = true
  /\ first_factor (H := toy_crypto) ex_env (ex_start false None) (ex_login None)
  /\ second_factor ex_env (ex_start false None) (ex_login None).
Proof.
  intros e. destruct (ex_step e (ex_start false None)) as [[k c'] es] eqn:E.
  assert (Ha : on c' authorized = true)
    by (rewrite (ex_step_done _ _ _ _ _ E); vm_compute; reflexivity).
  rewrite <- (ex_step_done _ _ _ _ _ E). split; [exact Ha|].
  exact (authorization_needs_proof (H := toy_crypto) ex_env e (ex_start false None) k c' es
           E eq_refl Ha).
Defined.


Lemma session_is_what_was_asked_witness :
  let e := Peer (Some (MLoginRequest (ex_login (Some LViewCamera)))) in
  authed_conn_type (ex_done e (ex_start false None)) = Some ViewCamera.
Proof.
  intros e. destruct (ex_step e (ex_start false None)) as [[k c'] es] eqn:E.
  assert (Ha : on c' authorized = true)
    by (rewrite (ex_step_done _ _ _ _ _ E); vm_compute; reflexivity).
  rewrite <- (ex_step_done _ _ _ _ _ E).
  exact (session_is_what_was_asked (H := toy_crypto) ex_env (ex_login (Some LViewCamera))
           (ex_start false None) k c' es (conn_start_coherent _ _ _ _) eq_refl E Ha).
Defined.

Notation ex_serve evs := (serve (H := toy_crypto) (map (pair ex_env) evs) ex_env (ex_start false None)).

Lemma permissions_are_announced_witness :
  let '(_, c, es) := ex_serve [Manager (CmSwitchPermission "audio" false)] in
  told audio true es = on c audio /\ on c audio = false.
Proof.
  destruct (ex_serve [Manager (CmSwitchPermission "audio" false)]) as [[keep c] es] eqn:E.
  split.
  - apply (permissions_are_announced (H := toy_crypto) audio
             (map (pair ex_env) [Manager (CmSwitchPermission "audio" false)]) ex_env ex_env
             false ex_hash None keep c es); [by vm_compute; do 2 constructor|exact E].
  - change c with (snd (fst (keep, c, es))). rewrite <- E. vm_compute. reflexivity.
Defined.

Lemma connection_ends_witness :
  let evs := [Peer (Some (MLoginRequest (ex_login None))); Manager CmClose] in
  let '(keep, c, es) := ex_serve evs in
  on c authorized = true /\ closings es = 1%nat /\ In NewTemporaryPassword (map snd es).
Proof.
  cbv zeta. set (evs := [_; _]).
  destruct (ex_serve evs) as [[keep c] es] eqn:E.
  assert (Hk : keep = false).
  { change keep with (fst (fst (keep, c, es))). rewrite <- E. vm_compute. reflexivity. }
  assert (Ha : on c authorized = true).
  { change c with (snd (fst (keep, c, es))). rewrite <- E. vm_compute. reflexivity. }
  subst keep.
  destruct (connection_ends (H := toy_crypto) (map (pair ex_env) evs) ex_env ex_env
              false ex_hash None c es E) as (_ & Hn & _ & _ & Hp).
  split; [exact Ha|]. split; [exact Hn|exact (Hp Ha)].
Defined.

(** ** What the code lets through *)

(** The code of the second factor is enough: no password, and not even a login
    request, has to come before it. *)
Lemma code_alone_authorizes :
  let c := ex_done (Peer (Some (Auth2FA "123456" []))) (ex_start true None) in
  on c authorized = true /\ authed_conn_type c = Some Remote /\ lr c = login_default.
Proof. vm_compute. done. Qed.

(** The answer to a request to switch sides opens a port-forwarding session although
    tunnels are not permitted, which a login request would have been refused. *)
Lemma switch_sides_skips_permission :
  let l := ex_login (Some (LPortForward "db" 5432)) in
  let c := snd (fst (ex_step (Peer (Some (SwitchSidesResponse (replicate 16 x00) (Some l))))
                       (ex_start false None))) in
  permission ex_env "enable-tunnel" None = false
  /\ authed_conn_type c = Some PortForward
  /\ authed_conn_type (snd (fst (ex_step (Peer (Some (MLoginRequest l))) (ex_start false None)))) = None.
Proof. vm_compute. done. Qed.

(** An answer with a wrong token changes who the authorized peer says it is. *)
Lemma peer_replaces_its_identity :
  let c := snd (fst (ex_step (Peer (Some (MLoginRequest (ex_login None)))) (ex_start false None))) in
  let l := login_default in
  let c' := snd (fst (ex_step (Peer (Some (SwitchSidesResponse [] (Some l)))) c)) in
  on c' authorized = true /\ my_id (lr c) = "7"%string /\ my_id (lr c') = ""%string.
Proof. vm_compute. done. Qed.

(** A permission switched before the authorization subscribes the peer to the
    clipboard. *)
Lemma unauthorized_clipboard :
  exists c, In (c, Subscribe NAME_CLIPBOARD true)
    (snd (ex_step (Manager (CmSwitchPermission "keyboard" true)) (ex_start false None)))
  /\ on c authorized = false.
Proof. eexists. split; [vm_compute; right; left; reflexivity|reflexivity]. Qed.
