(* ===== verification/FileRelay.v ===== *)
(** * The connection passes file messages on

    {!Upload} describes the way from the controlling side to the connection manager by
    [requests_of]; here the handlers of {!Connection} are shown to take just this way. *)

From S2P Require Import Prelude OsFs FileTransfer FsDirs CmFiles Messages ClientJobs Upload Connection ConnectionAuth.

(** The message as it is sent; the client lists no folder for the peer. *)
Definition wire_of (m : ToPeer) : option Messages.Message :=
  match m with
  | Transfer (MsgReceive id path n files total) =>
      Some (MFileAction (Some (Messages.Receive id path (map (fun f => (name f, modified_time f)) files) n total)))
  | Transfer (MsgSend id path n h t) => Some (MFileAction (Some (FaSend id path h n (job_type_to_i32 t))))
  | Transfer (MsgSendConfirm r) =>
      let '(skip, offset) := match cf_union r with
                             | Some (Skip b) => (b, 0)
                             | Some (OffsetBlk n) => (false, n)
                             | None => (false, 0)
                             end in
      Some (MFileAction (Some (Messages.SendConfirm (cf_id r) (cf_file_num r) skip offset)))
  | Transfer (MsgBlock b) =>
      Some (MFileResponse (Some (FrBlock (blk_id b) (blk_file_num b) (blk_data b) (blk_compressed b))))
  | Transfer (MsgDone id n) => Some (MFileResponse (Some (FrDone id n)))
  | Transfer (MsgDigest d) =>
      Some (MFileResponse (Some (FrDigest (dg_id d) (dg_file_num d) (dg_last_modified d) (dg_file_size d) (dg_is_resume d))))
  | Transfer (MsgError id err n) => Some (MFileResponse (Some (FrError id err n)))
  | Transfer (MsgDir _ _ _) => None
  | Asked a => Some (MFileAction (Some a))
  end.

(** The request as the connection records it. *)
Definition call_of (r : FsRequest) : option FsCall :=
  match r with
  | CmFiles.ReadDir dir h => Some (FsReadDir dir h)
  | CmFiles.ReadEmptyDirs dir h => Some (FsReadEmptyDirs dir h)
  | NewWrite path id n files od total _ => Some (FsNewWrite path id n files od total)
  | CmFiles.RemoveDir path id r => Some (FsRemoveDir path id r)
  | CmFiles.RemoveFile path id n => Some (FsRemoveFile path id n)
  | CmFiles.CreateDir path id => Some (FsCreateDir path id)
  | CmFiles.Rename id path new_name => Some (FsRename id path new_name)
  | CancelWrite id => Some (FsCancelWrite id)
  | CancelRead id => Some (FsCancelRead id)
  | CmFiles.SendConfirm (Some r) => Some (FsSendConfirm (cf_id r) (cf_file_num r))
  | WriteBlock id n data c => Some (FsWriteBlock id n data c)
  | WriteDone id n => Some (FsWriteDone id n)
  | WriteError id n err => Some (FsWriteError id n err)
  | CheckDigest id n size modified _ resume => Some (FsCheckDigest id n size modified resume)
  | _ => None
  end.

Definition fs_calls (es : list (Conn * Effect)) : list FsCall :=
  omap (fun x => match x.2 with Fs c => Some c | _ => None end) es.

(** The jobs whose confirmations and cancellations concern the connection itself. *)
Definition job_of (m : ToPeer) : option Z :=
  match m with
  | Transfer (MsgSendConfirm r) => Some (cf_id r)
  | Asked (Messages.SendConfirm id _ _ _) => Some id
  | _ => None
  end.

Section Relay.
Variable env : Connection.Env.

(** A job that the connection sends itself asks for nothing. *)
Lemma on_send_starts id path h n t c :
  let '(r, c', es) := on_send id path h n t c in
  r = true /\ fs_calls es = [] /\ file_transfer c' = file_transfer c /\ delayed_read_dir c' = delayed_read_dir c.
Proof.
  unfold on_send, bind, get. destruct (is_printer t); [|by cbn].
  destruct (list_find _ _) as [[]|]; by cbn.
Qed.

(** The connection is a relay of files.  In a session of files that is not limited to one
    direction, once the desktop's user is known, what an authorized connection asks the
    connection manager for a message of the client about files is exactly what [Upload]
    takes it to be, in the same order, the session goes on, and nothing else about files
    is asked; a confirmation counts when the connection does not send that job itself. *)
Theorem connection_passes_on (m : ToPeer) w conn_id c :
  wire_of m = Some w -> is_Some (file_transfer c) -> delayed_read_dir c = None ->
  get_builtin_option env "one-way-file-transfer" <> "Y"%string ->
  (forall id, job_of m = Some id -> has_read_job env id = false) ->
  let '(r, c', es) := on_authorized_message env (Some w) c in
  r = true /\ fs_calls es = omap call_of (requests_of (can_enable_overwrite_detection c) conn_id m)
  /\ file_transfer c' = file_transfer c /\ delayed_read_dir c' = None.
Proof.
  intros Hw [ft Hft] Hd Ho Hj.
  assert (Ha : forall fa, on_file_action env (Some fa) c = do_file_action env (Some fa) c).
  { intros fa. unfold on_file_action, bind, get. rewrite Hft, Hd.
    rewrite (bool_decide_eq_true_2 (is_Some _)), (bool_decide_eq_false_2 (get_builtin_option env _ = _)) by done.
    cbn [orb negb]. by destruct (do_file_action env (Some fa) c) as [[? ?] ?]. }
  assert (Hd' : forall fa, w = MFileAction (Some fa) -> on_authorized_message env (Some w) c = do_file_action env (Some fa) c).
  { intros fa ->. unfold on_authorized_message, bind, get. rewrite Ha.
    by destruct (do_file_action env (Some fa) c) as [[? ?] ?]. }
  destruct m as [[| | | | |[i n u]| |]|a]; cbn in Hw; simplify_eq; try solve [cbn; by split_and!].
  all: try (rewrite (Hd' _ eq_refl)).
  - destruct u as [[b|off]|]; simplify_eq; rewrite (Hd' _ eq_refl); cbn; rewrite (Hj i eq_refl); cbn; by split_and!.
  - cbn. by split_and!.
  - pose proof (on_send_starts id path include_hidden file_num (job_type_to_i32 t) c) as Hs.
    cbn [do_file_action]. destruct (on_send _ _ _ _ _ c) as [[? ?] ?]. by rewrite <- Hd.
  - destruct a; try (cbn; by split_and!).
    + pose proof (on_send_starts id path include_hidden file_num file_type c) as Hs.
      cbn [do_file_action]. destruct (on_send _ _ _ _ _ c) as [[? ?] ?]. by rewrite <- Hd.
    + cbn. unfold bind, when. destruct (has_read_job env id); cbn; by split_and!.
    + cbn. rewrite (Hj _ eq_refl). destruct skip; cbn; by split_and!.
Qed.
End Relay.

Definition ex_session : Conn :=
  ex_done (Peer (Some (MLoginRequest (ex_login (Some (LFileTransfer "/" true)))))) (ex_start false None).

(** The announcement of an upload reaches the connection manager. *)
Lemma connection_passes_on_witness :
  let m := Transfer (new_receive 5 "/r" 0 [mkFileEntry FileT "a" false 1 5] 1) in
  exists w, wire_of m = Some w /\
    let '(r, c', es) := on_authorized_message ex_env (Some w) ex_session in
    r = true /\ fs_calls es = [FsNewWrite "/r" 5 0 [("a"%string, 5)] true 1]
    /\ file_transfer c' = file_transfer ex_session /\ delayed_read_dir c' = None.
Proof.
  intros m. eexists. split; [reflexivity|].
  assert (Hf : is_Some (file_transfer ex_session)) by (vm_compute; by eexists).
  assert (Hd : delayed_read_dir ex_session = None) by (vm_compute; reflexivity).
  assert (Ho : get_builtin_option ex_env "one-way-file-transfer" <> "Y"%string) by (vm_compute; congruence).
  assert (Hj : forall id, job_of m = Some id -> has_read_job ex_env id = false) by done.
  pose proof (connection_passes_on ex_env m _ 7 ex_session eq_refl Hf Hd Ho Hj) as Hp.
  destruct (on_authorized_message _ _ _) as [[r c'] es]. destruct Hp as (H1 & H2 & H3).
  split; [exact H1|]. split; [|exact H3]. rewrite H2. vm_compute. reflexivity.
Defined.
