(* ===== verification/OptionSync.v ===== *)
(** * The options of a session on both sides

    The controlling side ([LoginConfig]) changes an option in its configuration and tells the
    controlled side ([Connection]), which keeps its own flags.  The theorems compare these
    flags with what a fresh login with the changed configuration would give: the two never
    differ, as long as the options that the view-only mode decides are left alone in it. *)

From stdpp Require Import gmap.
From S2P Require Import Options.
From S2P Require Import Prelude TermBuffer Nacl Messages SessionScope Passwords PeerConfig LoginConfig ClientLogin.
From S2P Require Connection ConnectionAuth ClientPasswords.
Import ClientPasswords.

Import Connection (Conn, Field, on, asked, update_options).

(** ** The controlled side: an option message assigns flags *)

Section Controlled.
Variable (senv : Connection.Env).

(** The state after a handler. *)
Definition after {A} (m : Connection.M A) (c : Conn) : Conn := (m c).1.2.

Definition assign (f : Field) (q : option bool) (c : Conn) : Conn :=
  match q with Some b => Connection.set_bool f b c | None => c end.

Lemma after_bind {A B} (m : Connection.M A) (k : A -> Connection.M B) c :
  after (Connection.bind m k) c = after (k (m c).1.1) (after m c).
Proof. unfold after, Connection.bind. by destruct (m c) as [[a c'] es]; cbn; destruct (k a c') as [[b c''] es']. Qed.

Lemma after_put f b c : after (Connection.put f b) c = Connection.set_bool f b c.
Proof. done. Qed.

(** Handlers that keep the state. *)
Definition stays {A} (m : Connection.M A) : Prop := forall c, after m c = c.

Lemma stays_emit e : stays (Connection.emit e).
Proof. done. Qed.
Lemma stays_ret {A} (a : A) : stays (Connection.ret a).
Proof. done. Qed.
Lemma stays_get : stays Connection.get.
Proof. done. Qed.
Lemma stays_bind {A B} (m : Connection.M A) (k : A -> Connection.M B) :
  stays m -> (forall a, stays (k a)) -> stays (Connection.bind m k).
Proof. intros Hm Hk c. by rewrite after_bind, Hk, Hm. Qed.
Lemma stays_when b m : stays m -> stays (Connection.when b m).
Proof. by destruct b. Qed.
Lemma after_then {A} (m : Connection.M A) (k : A -> Connection.M unit) c :
  (forall a, stays (k a)) -> after (Connection.bind m k) c = after m c.
Proof. intros H. by rewrite after_bind, H. Qed.

#[local] Hint Resolve stays_emit stays_ret stays_get stays_when : stays.
#[local] Hint Extern 2 (stays (Connection.bind _ _)) => apply stays_bind; [|intros] : stays.
#[local] Hint Extern 3 (stays (if _ then _ else _)) => case_match : stays.
#[local] Hint Extern 3 (stays (match _ with _ => _ end)) => case_match : stays.
#[local] Hint Extern 1 (stays Connection.skip) => apply stays_ret : stays.
Ltac keeps_state := solve [auto 20 with stays].

Lemma image_quality_stays o : stays (Connection.update_image_quality o).
Proof. unfold Connection.update_image_quality. keeps_state. Qed.
Lemma privacy_stays o : stays (Connection.update_privacy_option senv o).
Proof.
  unfold Connection.update_privacy_option, Connection.turn_on_privacy, Connection.turn_off_privacy. keeps_state.
Qed.
Lemma block_input_stays o : stays (Connection.update_block_input_option o).
Proof. unfold Connection.update_block_input_option. keeps_state. Qed.
Lemma subscribe_audio_stays : stays Connection.subscribe_audio.
Proof. unfold Connection.subscribe_audio. keeps_state. Qed.
Lemma subscribe_clipboard_stays : stays (Connection.subscribe_clipboard senv).
Proof. unfold Connection.subscribe_clipboard. keeps_state. Qed.

Lemma cursor_options_after o c :
  after (Connection.update_cursor_options o) c
  = assign Connection.follow_remote_window (asked (o_follow_remote_window o))
      (assign Connection.follow_remote_cursor (asked (o_follow_remote_cursor o))
         (assign Connection.show_remote_cursor (asked (o_show_remote_cursor o)) c)).
Proof.
  unfold Connection.update_cursor_options. rewrite !after_bind.
  by destruct (asked (o_show_remote_cursor o)), (asked (o_follow_remote_cursor o)), (asked (o_follow_remote_window o)).
Qed.

Lemma disable_options_after o c :
  after (Connection.update_disable_options senv o) c
  = assign Connection.disable_keyboard (asked (o_disable_keyboard o))
      (assign Connection.disable_clipboard (asked (o_disable_clipboard o))
         (assign Connection.disable_audio (asked (o_disable_audio o)) c)).
Proof.
  unfold Connection.update_disable_options. rewrite !after_bind.
  destruct (asked (o_disable_audio o)), (asked (o_disable_clipboard o)), (asked (o_disable_keyboard o)); cbn [assign];
    rewrite ?after_bind, ?after_put, ?subscribe_audio_stays, ?subscribe_clipboard_stays; reflexivity.
Qed.

(** What an option message asks of a flag. *)
Definition wanted (o : OptionMessage) (f : Field) : option bool :=
  match f with
  | Connection.lock_after_session_end => asked (o_lock_after_session_end o)
  | Connection.show_remote_cursor => asked (o_show_remote_cursor o)
  | Connection.follow_remote_cursor => asked (o_follow_remote_cursor o)
  | Connection.follow_remote_window => asked (o_follow_remote_window o)
  | Connection.disable_audio => asked (o_disable_audio o)
  | Connection.disable_clipboard => asked (o_disable_clipboard o)
  | Connection.disable_keyboard => asked (o_disable_keyboard o)
  | Connection.terminal_persistent => asked (o_terminal_persistent o)
  | Connection.show_my_cursor => asked (o_show_my_cursor o)
  | _ => None
  end.

Lemma on_assign f q c g :
  on (assign f q c) g
  = if Connection.field_id f =? Connection.field_id g then default (on c g) q else on c g.
Proof. destruct q; cbn; by destruct (_ =? _). Qed.

Lemma update_options_after o c g :
  on (after (update_options senv o) c) g = default (on c g) (wanted o g).
Proof.
  assert (E : after (update_options senv o) c
    = assign Connection.show_my_cursor (asked (o_show_my_cursor o))
        (assign Connection.terminal_persistent (asked (o_terminal_persistent o))
          (after (Connection.update_disable_options senv o)
            (after (Connection.update_cursor_options o)
              (assign Connection.lock_after_session_end (asked (o_lock_after_session_end o)) c))))).
  { unfold update_options.
    rewrite !after_bind, image_quality_stays, privacy_stays, block_input_stays.
    replace (after (Connection.when _ _) c) with c by by destruct (0 <? o_custom_fps o).
    replace (after (match o_supported_decoding o with Some _ => _ | None => _ end) c) with c
      by by destruct (o_supported_decoding o).
    set (c1 := assign Connection.lock_after_session_end _ c).
    replace (after _ c) with c1 by (subst c1; by destruct (asked (o_lock_after_session_end o))).
    set (c2 := after (Connection.update_disable_options senv o) _).
    set (c3 := assign Connection.terminal_persistent _ c2).
    replace (after _ c2) with c3 by (subst c3; by destruct (asked (o_terminal_persistent o))).
    unfold Connection.update_show_my_cursor. destruct (asked (o_show_my_cursor o)) as [b|]; [|done].
    rewrite after_bind, after_put. case_match; [done|]. by destruct b. }
  rewrite E, disable_options_after, cursor_options_after, !on_assign.
  by destruct g.
Qed.
End Controlled.

(** ** The controlling side: what a login asks for *)

(** The flags of the controlled side that options decide. *)
Definition synced : list Field :=
  [Connection.lock_after_session_end; Connection.show_remote_cursor; Connection.follow_remote_cursor;
   Connection.follow_remote_window; Connection.disable_audio; Connection.disable_clipboard;
   Connection.disable_keyboard; Connection.show_my_cursor].

(** What they should be, by the configuration of the controlling side. *)
Definition expected (c : PeerConfig) (f : Field) : bool :=
  match f with
  | Connection.lock_after_session_end => negb (flag ViewOnly c) && flag LockAfterSessionEnd c
  | Connection.show_remote_cursor => flag ViewOnly c || flag ShowRemoteCursor c
  | Connection.follow_remote_cursor => flag FollowRemoteCursor c
  | Connection.follow_remote_window => flag FollowRemoteWindow c
  | Connection.disable_audio => flag DisableAudio c
  | Connection.disable_clipboard => flag ViewOnly c || flag DisableClipboard c
  | Connection.disable_keyboard => flag ViewOnly c
  | Connection.show_my_cursor => flag ViewOnly c && flag ShowMyCursor c
  | _ => false
  end.

Lemma flag_with t b t' c : flag t' (with_flag t b c) = if bool_decide (t = t') then b else flag t' c.
Proof.
  unfold flag, with_flag. cbn [toggles]. destruct (decide (t = t')) as [<-|E];
    [rewrite (bool_decide_eq_true_2 (t = t)) by done|rewrite (bool_decide_eq_false_2 (t = t')) by done].
  - destruct b; [apply bool_decide_eq_true|apply bool_decide_eq_false]; set_solver.
  - apply bool_decide_ext. destruct b; set_solver.
Qed.

Lemma flag_flip t t' c : flag t' (flip t c) = if bool_decide (t = t') then negb (flag t c) else flag t' c.
Proof. unfold flip. by rewrite flag_with. Qed.

Lemma asked_yes_no (b : bool) : asked (yes_no b) = Some b.
Proof. by destruct b. Qed.
Lemma asked_yes_if (b : bool) : default false (asked (if b then yes_no true else 0)) = b.
Proof. by destruct b. Qed.

(** The view-only mode decides some options, and they are left alone in it; the own cursor
    has an action of its own, below. *)
Definition permitted (c : PeerConfig) (name : string) : bool :=
  if flag ViewOnly c then
    negb (bool_decide (name ∈ ["show-remote-cursor"; "disable-clipboard"; "lock-after-session-end"]))
  else negb (bool_decide (name = "show-my-cursor")).

Definition cursor_is_for_viewers (c : PeerConfig) : bool := implb (flag ShowMyCursor c) (flag ViewOnly c).

Lemma wanted_bool_message t b f :
  wanted (bool_message t b) f
  = match t, f with
    | ShowRemoteCursor, Connection.show_remote_cursor
    | FollowRemoteCursor, Connection.follow_remote_cursor
    | FollowRemoteWindow, Connection.follow_remote_window
    | DisableAudio, Connection.disable_audio
    | DisableClipboard, Connection.disable_clipboard
    | LockAfterSessionEnd, Connection.lock_after_session_end
    | TerminalPersistent, Connection.terminal_persistent
    | ShowMyCursor, Connection.show_my_cursor => Some b
    | _, _ => None
    end.
Proof. destruct t, f, b; reflexivity. Qed.

(** Toggling one option: the message makes of the old flags the new ones. *)
Lemma toggled_syncs name l c c' o f :
  config l = c -> toggled name l c = Some (c', o) -> permitted c name = true ->
  cursor_is_for_viewers c = true -> f ∈ synced ->
  default (expected c f) (wanted o f) = expected c' f.
Proof.
  intros <- Ht Hp Hc Hf. unfold toggled in Ht. unfold permitted in Hp. unfold cursor_is_for_viewers in Hc.
  set (c := config l) in *.
  repeat match type of Ht with
  | (if bool_decide ?p then _ else _) = _ => destruct (bool_decide_reflect p) as [->|_]; [injection Ht as <- <-|]
  end; [..|discriminate Ht].
  all: repeat (apply elem_of_cons in Hf as [->|Hf]); try by apply elem_of_nil in Hf.
  all: unfold view_only_message; cbn [wanted expected bool_message block_input_message option_default
         o_image_quality o_lock_after_session_end o_show_remote_cursor o_privacy_mode o_block_input
         o_custom_image_quality o_disable_audio o_disable_clipboard o_enable_file_transfer
         o_supported_decoding o_custom_fps o_disable_keyboard o_follow_remote_cursor o_follow_remote_window
         o_disable_camera o_terminal_persistent o_show_my_cursor].
  all: try change (asked 0) with (@None bool); rewrite ?asked_yes_no; cbn [default].
  all: try (rewrite ?flag_flip; vm_compute (bool_decide (_ = _)); reflexivity).
  all: change (config l) with c; change (get_toggle_option "show-remote-cursor" l) with (flag ShowRemoteCursor c);
    change (get_toggle_option "disable-clipboard" l) with (flag DisableClipboard c).
  all: rewrite ?flag_flip; vm_compute (bool_decide (_ = _)); cbn [negb andb].
  all: destruct (flag ViewOnly c) eqn:Ev; [try (vm_compute in Hp; discriminate Hp)|];
    destruct (flag ShowMyCursor c) eqn:Em; try discriminate Hc; cbn [negb andb];
    rewrite ?flag_with, ?flag_flip; vm_compute (bool_decide (_ = _)); cbn; rewrite ?Ev, ?Em, ?asked_yes_no;
    try done; by destruct (flag LockAfterSessionEnd c), (flag ShowRemoteCursor c), (flag DisableClipboard c).
Qed.

(** The message of a login. *)
Lemma login_message_expected `{CryptoLaws} (env : Env) w :
  ready env w -> conn_type (LoginConfig.session (lc w)) = DEFAULT_CONN ->
  exists o w', get_option_message env true w = (Ok (Some o), w') /\
    forall f, f ∈ synced -> default false (wanted o f) = expected (config (lc w)) f.
Proof.
  intros [_ Hs] Ht. unfold get_option_message. rewrite st_bind_run.
  change (get_lc w) with (Ok (E := Empty_set) (lc w), w). cbv beta iota zeta. rewrite Ht.
  destruct (quality_of_login_run env true w Hs) as ([[q cu] fp] & fps & E). rewrite st_bind_run, E.
  eexists _, _. split; [reflexivity|]. intros f Hf.
  repeat (apply elem_of_cons in Hf as [->|Hf]); try (by apply elem_of_nil in Hf);
    cbn [wanted]; (etrans; [apply asked_yes_if|reflexivity]).
Qed.

(** ** Both sides together *)

Section Sync.
Context `{CryptoLaws} (env : Env) (senv : Connection.Env).
Hypothesis nonce_lengths : forall k n, len (nonces env k n) = NONCEBYTES.

(** The user toggles an option; a message that this gives is handled by the peer. *)
Definition toggle (name : string) (s : W * Conn) : W * Conn :=
  let '(r, w) := toggle_option env name s.1 in
  match r with
  | Ok (Some (MMisc (Some (MOption o)))) => (w, after (update_options senv o) s.2)
  | _ => (w, s.2)
  end.

(** The flags of the peer are those that a login with the configuration of now would give
    a connection that has just begun. *)
Definition in_sync (s : W * Conn) : Prop :=
  forall c0 o w', (forall f, f ∈ synced -> on c0 f = false) ->
    get_option_message env true s.1 = (Ok (Some o), w') ->
    forall f, f ∈ synced -> on s.2 f = on (after (update_options senv o) c0) f.

Record session_ok (s : W * Conn) : Prop := {
  so_ready : ready env s.1;
  so_good : good_config (user_default env) (default_quality env) (config (lc s.1));
  so_type : conn_type (LoginConfig.session (lc s.1)) = DEFAULT_CONN;
  so_cursor : cursor_is_for_viewers (config (lc s.1)) = true;
  so_flags : forall f, f ∈ synced -> on s.2 f = expected (config (lc s.1)) f }.

Lemma session_in_sync s : session_ok s -> in_sync s.
Proof.
  intros [Hr _ Ht _ Hf] c0 o w' Hfresh E f Hin.
  destruct (login_message_expected env s.1 Hr Ht) as (o' & w2 & E2 & Ho). rewrite E2 in E. injection E as -> ->.
  by rewrite (Hf f Hin), update_options_after, (Hfresh f Hin), Ho.
Qed.

Lemma good_flag t b c :
  good_config (user_default env) (default_quality env) c ->
  good_config (user_default env) (default_quality env) (with_flag t b c).
Proof.
  intros [Hf Hp Hs]. split; [|exact Hp|exact Hs].
  destruct c. unfold read_fields in *. cbn in Hf. injection Hf as H1 H2 H3. cbn. by rewrite H1, H2, H3.
Qed.

Lemma good_options o c :
  good_config (user_default env) (default_quality env) c ->
  (forall k n, (k, n) ∈ secret_options -> forall v, o !! k = Some v -> good_secret v) ->
  good_config (user_default env) (default_quality env) (with_options o c).
Proof.
  intros [Hf Hp Hs] Ho. split; [|exact Hp|exact Ho].
  destruct c. unfold read_fields in *. cbn in Hf. injection Hf as H1 H2 H3. cbn. by rewrite H1, H2, H3.
Qed.

Lemma toggled_good name l c c' o :
  toggled name l c = Some (c', o) -> good_config (user_default env) (default_quality env) c ->
  good_config (user_default env) (default_quality env) c'.
Proof.
  unfold toggled. intros E Hc.
  repeat match type of E with
  | (if bool_decide ?p then _ else _) = _ => destruct (bool_decide p); [injection E as <- <-|]
  end; try discriminate E; try exact Hc; try (by apply good_flag).
  case_match; repeat apply good_flag; exact Hc.
Qed.

Lemma toggled_cursor name l c c' o :
  toggled name l c = Some (c', o) -> permitted c name = true -> cursor_is_for_viewers c = true ->
  cursor_is_for_viewers c' = true.
Proof.
  unfold toggled, permitted, cursor_is_for_viewers. intros Ht Hp Hc.
  repeat match type of Ht with
  | (if bool_decide ?p then _ else _) = _ => destruct (bool_decide_reflect p) as [->|_]; [injection Ht as <- _|]
  end; [..|discriminate Ht].
  all: destruct (flag ViewOnly c) eqn:Ev, (flag ShowMyCursor c) eqn:Em; try discriminate Hc;
    try (vm_compute in Hp; discriminate Hp).
  all: try (rewrite !flag_flip; vm_compute (bool_decide (_ = _)); cbn; by rewrite ?Ev, ?Em).
  all: try done.
  all: rewrite !flag_flip; vm_compute (bool_decide (_ = _)); rewrite ?Ev, ?Em; cbn;
    rewrite ?flag_with, ?flag_flip; vm_compute (bool_decide (_ = _)); cbn; by rewrite ?Ev, ?Em.
Qed.

(** A text option. *)
Lemma good_text_toggle name c :
  good_config (user_default env) (default_quality env) c ->
  good_config (user_default env) (default_quality env)
    (with_options (if negb (bool_decide (default "" (options c !! name) = ""))
                   then base.delete name (options c) else <[name := "Y"]> (options c)) c).
Proof.
  intros Hc. apply good_options; [done|]. intros k n Hk v Hv.
  destruct (negb _).
  - apply lookup_delete_Some in Hv as [_ Hv]. by apply (good_secrets _ _ _ Hc k n).
  - apply lookup_insert_Some in Hv as [[-> <-]|[_ Hv]]; [|by apply (good_secrets _ _ _ Hc k n)].
    split_and!; vm_compute; done.
Qed.

Lemma save_config_ready c w :
  good_config (user_default env) (default_quality env) c ->
  ready env (save_config env c w).2 /\ config (lc (save_config env c w).2) = c /\
  LoginConfig.session (lc (save_config env c w).2) = LoginConfig.session (lc w).
Proof. intros Hc. split_and!; [|done..]. split; [done|]. cbn. by apply settled_store. Qed.

(** A toggle that is saved. *)
Lemma toggle_saved name s c' o :
  ready env s.1 -> toggled name (lc s.1) (config (lc s.1)) = Some (c', o) ->
  good_config (user_default env) (default_quality env) c' -> str_contains "block-input" name = false ->
  ready env (toggle name s).1 /\ config (lc (toggle name s).1) = c' /\
  LoginConfig.session (lc (toggle name s).1) = LoginConfig.session (lc s.1) /\
  (toggle name s).2 = after (update_options senv o) s.2.
Proof.
  intros Hr E Hg Hb. unfold toggle, toggle_option.
  rewrite st_bind_run, (load_config_run env (config (lc s.1))) by apply Hr. rewrite st_bind_run.
  change (get_lc s.1) with (Ok (E := Empty_set) (lc s.1), s.1). cbv beta iota. rewrite E, Hb.
  destruct (save_config_ready c' s.1 Hg) as (Hr' & Hcf & Hse). by split_and!.
Qed.

Lemma toggle_ok name s : session_ok s -> permitted (config (lc s.1)) name = true -> session_ok (toggle name s).
Proof.
  intros [Hr Hg Ht Hc Hf] Hp.
  destruct (toggled name (lc s.1) (config (lc s.1))) as [[c' o]|] eqn:E.
  - pose proof (toggled_good _ _ _ _ _ E Hg) as Hg'. pose proof (toggled_cursor _ _ _ _ _ E Hp Hc) as Hc'.
    assert (Hs : forall f, f ∈ synced -> on (after (update_options senv o) s.2) f = expected c' f).
    { intros f Hin. rewrite update_options_after, (Hf f Hin). by apply (toggled_syncs name (lc s.1) _ _ _ _ eq_refl E). }
    destruct (str_contains "block-input" name) eqn:Eb.
    + assert (Hcc : c' = config (lc s.1)).
      { unfold toggled in E.
        repeat match type of E with
        | (if bool_decide ?p then _ else _) = _ => destruct (bool_decide_reflect p) as [->|_]; [by injection E|]
        end. discriminate E. }
      unfold toggle, toggle_option.
      rewrite st_bind_run, (load_config_run env (config (lc s.1))) by apply Hr. rewrite st_bind_run.
      change (get_lc s.1) with (Ok (E := Empty_set) (lc s.1), s.1). cbv beta iota. rewrite E, Eb.
      split; cbn; rewrite <- ?Hcc; try done. by rewrite Hcc in Hs.
    + destruct (toggle_saved name s c' o Hr E Hg' Eb) as (Hr' & Hcf & Hse & H2).
      split; rewrite ?Hcf, ?Hse, ?H2; done.
  - unfold toggle, toggle_option.
    rewrite st_bind_run, (load_config_run env (config (lc s.1))) by apply Hr. rewrite st_bind_run.
    change (get_lc s.1) with (Ok (E := Empty_set) (lc s.1), s.1). cbv beta iota. rewrite E.
    split; cbn; try done.
    + split; [done|]. cbn. apply settled_store; [done|]. by apply good_text_toggle.
    + by apply good_text_toggle.
Qed.

(** The own cursor is shown in the view-only mode: the menu enters it when it is chosen. *)
Definition own_cursor (s : W * Conn) : W * Conn :=
  let s := toggle "show-my-cursor" s in
  if flag ShowMyCursor (config (lc s.1)) && negb (flag ViewOnly (config (lc s.1)))
  then toggle "view-only" s else s.

Lemma toggled_show_my_cursor l c :
  toggled "show-my-cursor" l c
  = Some (flip ShowMyCursor c, bool_message ShowMyCursor (flag ShowMyCursor (flip ShowMyCursor c))).
Proof. reflexivity. Qed.

Lemma toggled_view_only l c :
  flag ViewOnly c = false ->
  toggled "view-only" l c = Some (with_flag ViewOnly true c, view_only_message l (with_flag ViewOnly true c)).
Proof.
  intros Ev. change (toggled "view-only" l c)
    with (let c := flip ViewOnly c in
          Some (if negb (flag ViewOnly c) && flag ShowMyCursor c then with_flag ShowMyCursor false c else c,
                view_only_message l c)).
  unfold flip. rewrite Ev. cbv zeta. cbn [negb].
  by rewrite (flag_with ViewOnly true ViewOnly), bool_decide_eq_true_2.
Qed.

Lemma flag_with_eq t b c : flag t (with_flag t b c) = b.
Proof. by rewrite flag_with, bool_decide_eq_true_2. Qed.
Lemma flag_with_ne t t' b c : t <> t' -> flag t' (with_flag t b c) = flag t' c.
Proof. intros ?. by rewrite flag_with, bool_decide_eq_false_2. Qed.

(** The messages of entering the view-only mode with the own cursor. *)
Lemma own_cursor_syncs l c f :
  let c1 := with_flag ShowMyCursor true c in
  let c2 := with_flag ViewOnly true c1 in
  flag ViewOnly c = false -> flag ShowMyCursor c = false -> f ∈ synced ->
  default (default (expected c f) (wanted (bool_message ShowMyCursor true) f)) (wanted (view_only_message l c2) f)
  = expected c2 f.
Proof.
  intros c1 c2 Ev Em Hin. unfold view_only_message.
  assert (flag ViewOnly c2 = true) as -> by apply flag_with_eq.
  repeat (apply elem_of_cons in Hin as [->|Hin]); try (by apply elem_of_nil in Hin);
    cbn [wanted expected bool_message o_lock_after_session_end o_show_remote_cursor o_disable_clipboard
      o_disable_keyboard o_follow_remote_cursor o_follow_remote_window o_disable_audio o_show_my_cursor];
    rewrite ?asked_yes_no; try change (asked 0) with (@None bool); cbn [default];
    subst c2 c1; rewrite ?flag_with_eq, ?flag_with_ne by done; rewrite ?flag_with_eq, ?Ev; done.
Qed.

Lemma own_cursor_ok s : session_ok s -> session_ok (own_cursor s).
Proof.
  intros I. destruct (flag ViewOnly (config (lc s.1))) eqn:Ev.
  - assert (Hp : permitted (config (lc s.1)) "show-my-cursor" = true) by (unfold permitted; by rewrite Ev).
    pose proof (toggle_ok _ _ I Hp) as I'. unfold own_cursor. pose proof (so_cursor _ I') as Hc.
    unfold cursor_is_for_viewers in Hc. revert Hc. cbv zeta.
    by destruct (flag ShowMyCursor _), (flag ViewOnly (config (lc (toggle _ _).1))).
  - destruct I as [Hr Hg Ht Hc Hf].
    assert (Em : flag ShowMyCursor (config (lc s.1)) = false).
    { unfold cursor_is_for_viewers in Hc. rewrite Ev in Hc. by destruct (flag ShowMyCursor _). }
    pose proof (toggled_show_my_cursor (lc s.1) (config (lc s.1))) as E1. unfold flip in E1.
    rewrite Em, flag_with_eq in E1. cbn [negb] in E1.
    destruct (toggle_saved "show-my-cursor" s _ _ Hr E1 (good_flag _ _ _ Hg) eq_refl) as (Hr1 & Hc1 & Hs1 & H1).
    assert (Hv1 : flag ViewOnly (config (lc (toggle "show-my-cursor" s).1)) = false)
      by (rewrite Hc1, flag_with_ne; done).
    unfold own_cursor. cbv zeta. rewrite Hv1, Hc1, flag_with_eq. cbn [andb negb].
    assert (Hg1 : good_config (user_default env) (default_quality env) (config (lc (toggle "show-my-cursor" s).1)))
      by (rewrite Hc1; by apply good_flag).
    destruct (toggle_saved "view-only" (toggle "show-my-cursor" s) _ _ Hr1 (toggled_view_only _ _ Hv1)
                (good_flag _ _ _ Hg1) eq_refl) as (Hr2 & Hc2 & Hs2 & H2).
    rewrite Hc1 in Hc2. split; rewrite ?Hc2, ?Hs2, ?Hs1; try done.
    + by do 2 apply good_flag.
    + unfold cursor_is_for_viewers. rewrite (flag_with_ne ViewOnly ShowMyCursor), !flag_with_eq by done. done.
    + intros f Hin. rewrite H2, update_options_after, H1, update_options_after, (Hf f Hin), Hc1.
      by apply own_cursor_syncs.
Qed.

(** What the user does in the menus of a session. *)
Inductive Act : Type := Choose (name : string) | OwnCursor.
Definition act (s : W * Conn) (a : Act) : W * Conn :=
  match a with Choose name => toggle name s | OwnCursor => own_cursor s end.

Fixpoint all_permitted (acts : list Act) (s : W * Conn) : Prop :=
  match acts with
  | [] => True
  | a :: acts =>
      match a with Choose name => permitted (config (lc s.1)) name = true | OwnCursor => True end
      /\ all_permitted acts (act s a)
  end.

End Sync.

(** ** Examples *)

Definition ex_conn : Conn := Connection.conn_start ConnectionAuth.ex_env false ex_hash None.

(** The sound off, the view-only mode with the own cursor, and out of it again. *)
Definition ex_acts : list Act :=
  [Choose "disable-audio"; OwnCursor; Choose "block-input"; Choose "view-only"; Choose "show-remote-cursor"].
Definition ex_session : W * Conn := (mkW ex_lc ∅ [], ex_conn).


(** The restriction matters: in the view-only mode, the cursor of the peer that is switched on
    and off again is lost on the controlled side, where a login would show it. *)
Example cursor_is_lost_in_view_only :
  let s := fold_left (fun s n => toggle (H := toy_crypto) ex_env ConnectionAuth.ex_env n s)
             ["view-only"; "show-remote-cursor"; "show-remote-cursor"] ex_session in
  on s.2 Connection.show_remote_cursor = false
  /\ expected (config (lc s.1)) Connection.show_remote_cursor = true.
Proof. vm_compute. split; reflexivity. Qed.
