(* ===== verification/ClipDescr.v ===== *)
(** * The files of a clipboard, as they travel (libs/clipboard/src/platform/unix)

    The side that copied files describes them in one block of bytes
    ([LocalFile::as_bin], local_file.rs; [build_file_list_pdu], serv_files.rs), 592 bytes for
    each; the side that pastes parses it ([parse_file_descriptors], filetype.rs).  Text is
    UTF-16 there, converted by the crate utf16string; what is needed of it are the laws
    [Utf16Laws]. *)

From S2P Require Import Prelude OsFs PathFacts.
From Stdlib Require Import Ascii.

(** ** UTF-16 *)

Class Utf16 : Type := {
  utf16le : string -> list byte;             (* [WString::from], as bytes *)
  from_utf16le : list byte -> option string  (* [WStr::from_utf16le], then [to_utf8] *)
}.

Definition NUL : string := String Ascii.zero "".
Fixpoint nuls (n : nat) : string := match n with O => "" | S n => NUL +:+ nuls n end.

(** A text survives, and padding reads as null characters. *)
Class Utf16Laws `{Utf16} : Prop := {
  utf16le_even s : exists k, length (utf16le s) = (2 * k)%nat;
  from_utf16le_padded s n : from_utf16le (utf16le s ++ replicate (2 * n) x00) = Some (s +:+ nuls n)
}.

(** ** Data *)

Inductive Kind : Type := KFile | KDirectory | KSymlink.

#[export] Instance kind_eq_dec : EqDecision Kind.
Proof. solve_decision. Defined.

(** Times are nanoseconds since 1970. *)
Record FileDescription : Type := mkDescription {
  fd_conn_id : Z;
  fd_name : string;
  fd_kind : Kind;
  atime : Z;
  last_modified : Z;
  last_metadata_changed : Z;
  creation_time : Z;
  fd_size : Z;
  fd_perm : Z }.

Definition FLAGS_FD_ATTRIBUTES : Z := 0x04.
Definition FLAGS_FD_SIZE : Z := 0x40.
Definition FLAGS_FD_LAST_WRITE : Z := 0x20.
Definition FLAGS_FD_PROGRESSUI : Z := 0x4000.
Definition FLAGS_FD_UNIX_MODE : Z := 0x08.
Definition LDAP_EPOCH_DELTA : Z := 116444772610000000.
Definition PERM_READ : Z := 292.      (* 0o444 *)
Definition PERM_RW : Z := 420.        (* 0o644 *)
Definition PERM_SELF_RO : Z := 256.   (* 0o400 *)
Definition PERM_RWX : Z := 493.       (* 0o755 *)

(** What [as_bin] reads of a [LocalFile]; [lf_path] is the path below the root. *)
Record Attributes : Type := mkAttributes {
  lf_rel : string;
  lf_size : Z;
  last_write_time : Z;
  is_dir : bool;
  perm : Z;
  read_only : bool;
  hidden : bool;
  system : bool;
  archive : bool;
  normal : bool }.

(** ** Writing *)

Definition flag (b : bool) (v : Z) : Z := if b then v else 0.

Definition file_attributes (f : Attributes) : Z :=
  Z.lor (Z.lor (Z.lor (Z.lor (Z.lor (flag (read_only f) 0x1) (flag (hidden f) 0x2)) (flag (system f) 0x4))
    (flag (is_dir f) 0x10)) (flag (archive f) 0x20)) (flag (normal f) 0x80).

Definition win32_time (t : Z) : Z := as_u64 (as_u64 (Z.max 0 t) / 100 + LDAP_EPOCH_DELTA).

Definition fd_flags : Z :=
  Z.lor (Z.lor (Z.lor (Z.lor FLAGS_FD_SIZE FLAGS_FD_LAST_WRITE) FLAGS_FD_ATTRIBUTES) FLAGS_FD_PROGRESSUI)
    FLAGS_FD_UNIX_MODE.

Section Wire.
Context `{Utf16}.

(** [None]: the program panics, for a name of more than 520 bytes leaves a negative padding. *)
Definition as_bin (f : Attributes) : option (list byte) :=
  let name := utf16le (lf_rel f) in
  if 520 <? len name then None
  else Some (
    le_bytes 4 fd_flags ++ replicate 32 x00 ++ le_bytes 4 (file_attributes f) ++ replicate 12 x00
    ++ le_bytes 4 (perm f) ++ le_bytes 8 (win32_time (last_write_time f))
    ++ le_bytes 4 (as_u32 (Z.shiftr (lf_size f) 32)) ++ le_bytes 4 (as_u32 (Z.land (lf_size f) 4294967295))
    ++ name ++ replicate (Z.to_nat (520 - len name)) x00).

Fixpoint all_bins (fs : list Attributes) : option (list byte) :=
  match fs with
  | [] => Some []
  | f :: fs => b ← as_bin f; bs ← all_bins fs; Some (b ++ bs)
  end.

Definition build_file_list_pdu (fs : list Attributes) : option (list byte) :=
  bs ← all_bins fs; Some (le_bytes 4 (as_u32 (len fs)) ++ bs).

(** ** Reading *)

Inductive CliprdrError : Type :=
| CliprdrInit
| ConversionFailure
| FileError (path : string)
| InvalidRequest (description : string)
| ClipboardInternalError.

(** [Buf::get_u32_le] and the like; they panic when the bytes are missing. *)
Definition get_le (n : nat) (bytes : list byte) : option (Z * list byte) :=
  if (length bytes <? n)%nat then None else Some (le_Z (take n bytes), drop n bytes).
Definition skip (n : nat) (bytes : list byte) : option (list byte) :=
  if (length bytes <? n)%nat then None else Some (drop n bytes).

(** [String::replace] of a character, [trim_end_matches('\0')]. *)
Fixpoint replace_char (a b : ascii) (s : string) : string :=
  match s with
  | EmptyString => EmptyString
  | String c s => String (if Ascii.eqb c a then b else c) (replace_char a b s)
  end.
Fixpoint trim_end_char (a : ascii) (s : string) : string :=
  match s with
  | EmptyString => EmptyString
  | String c s =>
      match trim_end_char a s with
      | EmptyString => if Ascii.eqb c a then EmptyString else String c EmptyString
      | s => String c s
      end
  end.

Definition has (flags f : Z) : bool := negb (Z.land flags f =? 0).

(** The permissions of an entry. *)
Definition perm_of (from_unix : bool) (attributes perm : Z) : Z :=
  if from_unix then as_u16 perm
  else if attributes =? 0x80 then PERM_RWX
  else if has attributes 0x01 then PERM_READ
  else if has attributes 0x02 then PERM_SELF_RO
  else if has attributes 0x10 then PERM_RWX
  else PERM_RW.

Definition time_of (valid : bool) (last_write_time : Z) : Z :=
  if valid && (LDAP_EPOCH_DELTA <=? last_write_time)
  then as_u64 ((last_write_time - LDAP_EPOCH_DELTA) * 100) else 0.

Definition BACKSLASH : ascii := "\"%char.

(** [None]: a panic. *)
Definition parse_file_descriptor (bytes : list byte) (conn_id : Z)
  : option (result CliprdrError FileDescription * list byte) :=
  '(flags, bytes) ← get_le 4 bytes;
  bytes ← skip 32 bytes;
  '(attributes, bytes) ← get_le 4 bytes;
  bytes ← skip 12 bytes;
  '(perm, bytes) ← get_le 4 bytes;
  '(last_write_time, bytes) ← get_le 8 bytes;
  '(size_high, bytes) ← get_le 4 bytes;
  '(size_low, bytes) ← get_le 4 bytes;
  rest ← skip 520 bytes;
  Some (match from_utf16le (take 520 bytes) with
        | None => Err ConversionFailure
        | Some wstr =>
            if negb (has flags FLAGS_FD_ATTRIBUTES)
            then Err (InvalidRequest "file description must have valid attributes")
            else
              let t := time_of (has flags FLAGS_FD_LAST_WRITE) last_write_time in
              Ok (mkDescription conn_id
                    (trim_end_char Ascii.zero (replace_char BACKSLASH SLASH wstr))
                    (if has attributes 0x10 then KDirectory else KFile) t t t t
                    (Z.shiftl size_high 32 + size_low)
                    (perm_of (has flags FLAGS_FD_UNIX_MODE) attributes perm))
        end, rest).

Fixpoint parse_n (n : nat) (bytes : list byte) (conn_id : Z)
  : option (result CliprdrError (list FileDescription)) :=
  match n with
  | O => Some (Ok [])
  | S n =>
      '(r, bytes) ← parse_file_descriptor bytes conn_id;
      match r with
      | Err e => Some (Err e)
      | Ok d => rs ← parse_n n bytes conn_id; Some (let? rs := rs in Ok (d :: rs))
      end
  end.

Definition parse_file_descriptors (pdu : list byte) (conn_id : Z)
  : option (result CliprdrError (list FileDescription)) :=
  if len pdu <? 4 then Some (Err (InvalidRequest "file descriptor request with infficient length"))
  else
    '(count, data) ← get_le 4 pdu;
    if (len data =? 0) && (count =? 0) then Some (Ok [])
    else if negb (len data =? as_u64 (592 * count))
    then Some (Err (InvalidRequest "file descriptor request with invalid length"))
    else parse_n (Z.to_nat count) data conn_id.
End Wire.

(** ** Nothing that is received makes the parser panic *)

Section Facts.
Context `{Utf16}.

Lemma get_le_some n bytes : (n <= length bytes)%nat -> exists v, get_le n bytes = Some (v, drop n bytes).
Proof. intros Hn. unfold get_le. destruct (Nat.ltb_spec (length bytes) n); [lia|]. by eexists. Qed.

Lemma skip_some n bytes : (n <= length bytes)%nat -> skip n bytes = Some (drop n bytes).
Proof. intros Hn. unfold skip. by destruct (Nat.ltb_spec (length bytes) n); [lia|]. Qed.

Lemma parse_one_total bytes c :
  (592 <= length bytes)%nat -> exists r, parse_file_descriptor bytes c = Some (r, drop 592 bytes).
Proof.
  intros Hn. unfold parse_file_descriptor.
  assert (Hg : forall n k, (n + k <= 592)%nat -> exists v, get_le n (drop k bytes) = Some (v, drop (k + n) bytes)).
  { intros n k Hk. destruct (get_le_some n (drop k bytes)) as [v Hv]; [rewrite length_drop; lia|].
    exists v. by rewrite Hv, drop_drop. }
  assert (Hs : forall n k, (n + k <= 592)%nat -> skip n (drop k bytes) = Some (drop (k + n) bytes)).
  { intros n k Hk. rewrite skip_some by (rewrite length_drop; lia). by rewrite drop_drop. }
  destruct (Hg 4%nat 0%nat) as [v1 E1]; [lia|]. rewrite drop_0 in E1. rewrite E1. cbn [mbind option_bind Nat.add].
  rewrite Hs by lia. cbn [mbind option_bind Nat.add].
  destruct (Hg 4%nat 36%nat) as [v2 E2]; [lia|]. rewrite E2. cbn [mbind option_bind Nat.add]. rewrite Hs by lia.
  cbn [mbind option_bind Nat.add].
  destruct (Hg 4%nat 52%nat) as [v3 E3]; [lia|]. rewrite E3. cbn [mbind option_bind Nat.add].
  destruct (Hg 8%nat 56%nat) as [v4 E4]; [lia|]. rewrite E4. cbn [mbind option_bind Nat.add].
  destruct (Hg 4%nat 64%nat) as [v5 E5]; [lia|]. rewrite E5. cbn [mbind option_bind Nat.add].
  destruct (Hg 4%nat 68%nat) as [v6 E6]; [lia|]. rewrite E6. cbn [mbind option_bind Nat.add].
  rewrite Hs by lia. cbn [mbind option_bind Nat.add]. by eexists.
Qed.

Lemma parse_n_total n bytes c : (592 * n <= length bytes)%nat -> exists r, parse_n n bytes c = Some r.
Proof.
  revert bytes. induction n as [|n IH]; intros bytes Hn; [by eexists|]. cbn [parse_n].
  destruct (parse_one_total bytes c) as [r ->]; [lia|]. cbn [mbind option_bind]. destruct r as [d|]; [|by eexists].
  destruct (IH (drop 592 bytes)) as [rs ->]; [rewrite length_drop; lia|]. by eexists.
Qed.

Lemma parse_n_length n bytes c l : parse_n n bytes c = Some (Ok l) -> length l = n.
Proof.
  revert bytes l. induction n as [|n IH]; intros bytes l; cbn [parse_n]; [by intros [= <-]|].
  destruct (parse_file_descriptor bytes c) as [[[d|e] rest]|]; cbn [mbind option_bind]; [|done|done].
  destruct (parse_n n rest c) as [[rs|]|] eqn:E; cbn [mbind option_bind]; [|done|done].
  intros [= <-]. cbn. f_equal. by eapply IH.
Qed.

Lemma list_parsed pdu c :
  exists r, parse_file_descriptors pdu c = Some r
    /\ match r with Ok l => len l < 2 ^ 32 /\ len pdu = 4 + 592 * len l | Err _ => True end.
Proof.
  unfold parse_file_descriptors. destruct (Z.ltb_spec (len pdu) 4) as [Hl|Hl]; [by eexists|].
  destruct (get_le_some 4 pdu) as [count E]; [unfold len in Hl; lia|]. rewrite E. cbn [mbind option_bind].
  assert (Hc : 0 <= count < 2 ^ 32).
  { unfold get_le in E. destruct (length pdu <? 4)%nat; [done|]. injection E as <-.
    pose proof (le_Z_range (take 4 pdu)) as Hr. rewrite len_take in Hr. unfold len in *.
    rewrite Z.min_l in Hr by lia. done. }
  assert (Hd : len (drop 4 pdu) = len pdu - 4) by (unfold len in *; rewrite length_drop; lia).
  rewrite Hd. destruct (Z.eqb_spec (len pdu - 4) 0), (Z.eqb_spec count 0); cbn [andb].
  { eexists. split; [done|]. unfold len in *. cbn. lia. }
  all: rewrite wrap_small by lia; destruct (Z.eqb_spec (len pdu - 4) (592 * count)) as [Hn|]; cbn [negb];
    [|by eexists].
  all: destruct (parse_n_total (Z.to_nat count) (drop 4 pdu) c) as [r Hr];
    [unfold len in *; rewrite length_drop; lia|]; exists r; (split; [done|]);
    destruct r as [l|]; [|done]; apply parse_n_length in Hr; unfold len in *; lia.
Qed.

(** C11: A list of files from the peer cannot crash the program.  For all bytes that are
    received as the description of copied files there is a result, a list or an error, and a
    list has as many entries as the bytes say and have room for. *)
Theorem any_list_is_parsed pdu c :
  exists r, parse_file_descriptors pdu c = Some r
    /\ match r with Ok l => len pdu = 4 + 592 * len l | Err _ => True end.
Proof. destruct (list_parsed pdu c) as (r & E & Hr). exists r. split; [done|]. destruct r; [|done]. apply Hr. Qed.

(** ** What is described is read back *)

Lemma get_le_bytes n z rest : 0 <= z < 256 ^ Z.of_nat n -> get_le n (le_bytes n z ++ rest) = Some (z, rest).
Proof.
  intros Hz. unfold get_le. rewrite length_app, le_bytes_length.
  destruct (Nat.ltb_spec (n + length rest) n); [lia|].
  rewrite take_app_length', drop_app_length' by by rewrite le_bytes_length. by rewrite le_Z_bytes.
Qed.

Lemma skip_zeros n rest : skip n (replicate n x00 ++ rest) = Some rest.
Proof.
  rewrite skip_some by (rewrite length_app, length_replicate; lia). by rewrite drop_app_length' by by rewrite length_replicate.
Qed.

(** A name as text: a backslash stands for a separator, and no null character ends it. *)
Definition sendable (s : string) : Prop :=
  replace_char BACKSLASH SLASH s = s /\ trim_end_char Ascii.zero s = s.

(** What fits into a description. *)
Record describable (f : Attributes) : Prop := {
  ds_name : len (utf16le (lf_rel f)) <= 520;
  ds_sendable : sendable (lf_rel f);
  ds_size : 0 <= lf_size f < 2 ^ 64;
  ds_perm : 0 <= perm f < 2 ^ 32;
  ds_time : 0 <= last_write_time f < 2 ^ 64 }.

(** What the other side makes of a file: times are cut to 100 ns, permissions to 16 bits. *)
Definition described (c : Z) (f : Attributes) : FileDescription :=
  let t := last_write_time f / 100 * 100 in
  mkDescription c (lf_rel f) (if is_dir f then KDirectory else KFile) t t t t (lf_size f) (as_u16 (perm f)).

Lemma replace_char_app a b s t : replace_char a b (s +:+ t) = replace_char a b s +:+ replace_char a b t.
Proof. induction s as [|c s IH]; [done|]. rewrite app_cons_string. cbn [replace_char]. by rewrite IH, app_cons_string. Qed.

Lemma replace_nuls n : replace_char BACKSLASH SLASH (nuls n) = nuls n.
Proof. induction n as [|n IH]; [done|]. change (nuls (S n)) with (NUL +:+ nuls n). by rewrite replace_char_app, IH. Qed.

Lemma trim_nuls s n : trim_end_char Ascii.zero (s +:+ nuls n) = trim_end_char Ascii.zero s.
Proof.
  induction s as [|c s IH].
  - change ("" +:+ nuls n) with (nuls n). induction n as [|n IH]; [done|].
    change (nuls (S n)) with (String Ascii.zero (nuls n)). cbn [trim_end_char]. by rewrite IH.
  - rewrite app_cons_string. cbn [trim_end_char]. by rewrite IH.
Qed.

Lemma attributes_range f : 0 <= file_attributes f < 256.
Proof.
  unfold file_attributes, flag.
  destruct (read_only f), (hidden f), (system f), (is_dir f), (archive f), (normal f); vm_compute; split; congruence.
Qed.

Lemma attributes_dir f : has (file_attributes f) 0x10 = is_dir f.
Proof.
  unfold file_attributes, flag, has.
  by destruct (read_only f), (hidden f), (system f), (is_dir f), (archive f), (normal f).
Qed.

Lemma win32_time_range t : 0 <= t < 2 ^ 64 -> LDAP_EPOCH_DELTA <= win32_time t < 2 ^ 64.
Proof.
  intros Ht. unfold win32_time, LDAP_EPOCH_DELTA. rewrite Z.max_r, (wrap_small 64 t) by lia.
  pose proof (Z.div_lt_upper_bound t 100 (2 ^ 58)). pose proof (Z.div_pos t 100). rewrite wrap_small by lia. lia.
Qed.

Lemma time_of_win32 t : 0 <= t < 2 ^ 64 -> time_of true (win32_time t) = t / 100 * 100.
Proof.
  intros Ht. pose proof (win32_time_range t Ht) as Hr. unfold time_of. cbn [andb].
  destruct (Z.leb_spec LDAP_EPOCH_DELTA (win32_time t)); [|lia].
  unfold win32_time in *. rewrite Z.max_r, (wrap_small 64 t) in * by lia.
  pose proof (Z.div_lt_upper_bound t 100 (2 ^ 58)). pose proof (Z.div_pos t 100). unfold LDAP_EPOCH_DELTA in *.
  rewrite (wrap_small 64 (t / 100 + _)) by lia. pose proof (Z.mul_div_le t 100). rewrite wrap_small by lia. lia.
Qed.

Lemma size_halves n : 0 <= n < 2 ^ 64 ->
  Z.shiftl (as_u32 (Z.shiftr n 32)) 32 + as_u32 (Z.land n 4294967295) = n.
Proof.
  intros Hn. change 4294967295 with (Z.ones 32). rewrite Z.land_ones, Z.shiftl_mul_pow2, Z.shiftr_div_pow2 by lia.
  rewrite !wrap_small by zlia. zlia.
Qed.

Context `{!Utf16Laws}.

Lemma padded_name s : len (utf16le s) <= 520 ->
  exists n, utf16le s ++ replicate (Z.to_nat (520 - len (utf16le s))) x00 = utf16le s ++ replicate (2 * n) x00
    /\ length (utf16le s ++ replicate (2 * n) x00) = 520%nat.
Proof.
  intros Hl. destruct (utf16le_even s) as [k Hk]. unfold len in *. exists (260 - k)%nat.
  replace (Z.to_nat (520 - Z.of_nat (length (utf16le s)))) with (2 * (260 - k))%nat by lia.
  split; [done|]. rewrite length_app, length_replicate. lia.
Qed.

(** One description. *)
Lemma parse_bin f c rest b :
  describable f -> as_bin f = Some b ->
  length b = 592%nat /\ parse_file_descriptor (b ++ rest) c = Some (Ok (described c f), rest).
Proof.
  intros [Hn [Hs1 Hs2] Hsz Hp Ht]. unfold as_bin.
  destruct (Z.ltb_spec 520 (len (utf16le (lf_rel f)))); [lia|]. intros Hb. apply (inj Some) in Hb as <-.
  destruct (padded_name _ Hn) as (n & Hpad & Hlen). rewrite Hpad.
  split; [rewrite length_app, length_replicate in Hlen; rewrite !length_app, !le_bytes_length, !length_replicate; lia|].
  unfold parse_file_descriptor. rewrite <- !app_assoc.
  rewrite get_le_bytes by (vm_compute; split; congruence). cbn [mbind option_bind]. rewrite skip_zeros. cbn [mbind option_bind].
  rewrite get_le_bytes by (pose proof (attributes_range f); lia). cbn [mbind option_bind].
  rewrite skip_zeros. cbn [mbind option_bind]. rewrite get_le_bytes by done. cbn [mbind option_bind].
  rewrite get_le_bytes by (pose proof (win32_time_range _ Ht); unfold LDAP_EPOCH_DELTA in *; lia). cbn [mbind option_bind].
  rewrite get_le_bytes by (apply wrap_range; lia). cbn [mbind option_bind].
  rewrite get_le_bytes by (apply wrap_range; lia). cbn [mbind option_bind].
  rewrite (app_assoc (utf16le (lf_rel f))). rewrite skip_some by (rewrite length_app; lia).
  cbn [mbind option_bind]. rewrite take_app_length', drop_app_length' by done. rewrite from_utf16le_padded.
  assert (Hf : forall m, has fd_flags m = negb (Z.land fd_flags m =? 0)) by done.
  rewrite !Hf. change (Z.land fd_flags FLAGS_FD_ATTRIBUTES =? 0) with false.
  change (Z.land fd_flags FLAGS_FD_LAST_WRITE =? 0) with false. change (Z.land fd_flags FLAGS_FD_UNIX_MODE =? 0) with false.
  cbn [negb]. rewrite time_of_win32, size_halves, attributes_dir, replace_char_app, replace_nuls, trim_nuls, Hs1, Hs2 by done.
  done.
Qed.

Lemma list_read_back (fs : list Attributes) c :
  Forall describable fs -> len fs < 2 ^ 32 ->
  exists pdu, build_file_list_pdu fs = Some pdu /\ parse_file_descriptors pdu c = Some (Ok (described c <$> fs)).
Proof.
  intros Hfs Hl.
  assert (Hb : exists bs, all_bins fs = Some bs /\ length bs = (592 * length fs)%nat
    /\ forall rest, parse_n (length fs) (bs ++ rest) c = Some (Ok (described c <$> fs))).
  { clear Hl. induction Hfs as [|f fs Hf Hfs (bs & E & El & Ep)]; [by exists []|].
    assert (exists b, as_bin f = Some b) as [b Hb].
    { unfold as_bin. pose proof (ds_name f Hf). destruct (Z.ltb_spec 520 (len (utf16le (lf_rel f)))); [lia|]. by eexists. }
    destruct (parse_bin f c [] b Hf Hb) as [Hlb _].
    exists (b ++ bs). split; [cbn; by rewrite Hb, E|]. split; [rewrite length_app; cbn; lia|].
    intros rest. cbn [length parse_n]. rewrite <- app_assoc. destruct (parse_bin f c (bs ++ rest) b Hf Hb) as [_ ->].
    cbn [mbind option_bind]. by rewrite Ep. }
  destruct Hb as (bs & E & El & Ep). pose proof (len_nonneg fs) as Hpos.
  exists (le_bytes 4 (len fs) ++ bs). split.
  { unfold build_file_list_pdu. rewrite E. cbn [mbind option_bind]. by rewrite wrap_small by lia. }
  unfold parse_file_descriptors.
  assert (Hlen : len (le_bytes 4 (len fs) ++ bs) = 4 + 592 * len fs).
  { unfold len in *. rewrite length_app, le_bytes_length. lia. }
  rewrite Hlen. destruct (Z.ltb_spec (4 + 592 * len fs) 4); [lia|].
  rewrite get_le_bytes by lia. cbn [mbind option_bind]. replace (len bs) with (592 * len fs) by (unfold len in *; lia).
  rewrite wrap_small, Z.eqb_refl by lia. cbn [negb].
  destruct ((592 * len fs =? 0) && (len fs =? 0)) eqn:Ez.
  - apply andb_true_iff in Ez as [_ Ez]. apply Z.eqb_eq in Ez. destruct fs; [done|]. unfold len in Ez. cbn in Ez. lia.
  - specialize (Ep []). rewrite app_nil_r in Ep. unfold len. by rewrite Nat2Z.id.
Qed.

(** The list of copied files arrives.  Of files whose names fit into 260 units of UTF-16
    and hold no backslash, the side that pastes reads the very names, kinds, sizes and
    permission bits, in the same order, and the times up to 100 nanoseconds; and the
    description does exist: writing it does not panic. *)
Theorem list_roundtrip (fs : list Attributes) c :
  Forall describable fs -> len fs < 2 ^ 32 ->
  exists pdu, build_file_list_pdu fs = Some pdu /\ parse_file_descriptors pdu c = Some (Ok (described c <$> fs)).
Proof. apply list_read_back. Qed.
End Facts.

(** ** What the code does not do *)

(** The comment: the date 1601-01-01 plus [LDAP_EPOCH_DELTA] times 100 ns is 1970-01-01.
    Between the two are 134774 days; the constant is 61 minutes and one second too large. *)
Lemma epoch_is_late : LDAP_EPOCH_DELTA - 134774 * 86400 * 10 ^ 7 = (61 * 60 + 1) * 10 ^ 7.
Proof. reflexivity. Qed.

(** A path of more than 260 units below the copied folder stops the program. *)
Lemma long_name_panics `{Utf16} f fs :
  520 < len (utf16le (lf_rel f)) -> build_file_list_pdu (f :: fs) = None.
Proof. intros Hl. unfold build_file_list_pdu. cbn. unfold as_bin. by destruct (Z.ltb_spec 520 (len (utf16le (lf_rel f)))); [|lia]. Qed.

(** ** Two bytes for each byte of a text *)

Fixpoint toy_encode (s : string) : list byte :=
  match s with EmptyString => [] | String c s => byte_of_ascii c :: x00 :: toy_encode s end.
Fixpoint toy_decode (l : list byte) : option string :=
  match l with
  | [] => Some EmptyString
  | b :: x00 :: l => s ← toy_decode l; Some (String (ascii_of_byte b) s)
  | _ => None
  end.

#[local] Instance toy_utf16 : Utf16 := {| utf16le := toy_encode; from_utf16le := toy_decode |}.

#[local] Instance toy_utf16_laws : @Utf16Laws toy_utf16.
Proof.
  split.
  - intros s. cbn. induction s as [|c s [k IH]]; [by exists 0%nat|]. exists (S k). cbn. rewrite IH. lia.
  - intros s n. cbn [utf16le from_utf16le toy_utf16]. induction s as [|c s IH].
    + change ("" +:+ nuls n) with (nuls n). cbn [toy_encode app]. induction n as [|n IH]; [done|].
      replace (2 * S n)%nat with (S (S (2 * n))) by lia. cbn [replicate toy_decode]. by rewrite IH.
    + rewrite app_cons_string. cbn [toy_encode app toy_decode]. rewrite IH. cbn. by rewrite ascii_of_byte_of_ascii.
Qed.

Definition ex_copied : list Attributes :=
  [mkAttributes "d" 4096 1700000000123456789 true 16877 false false false false false;
   mkAttributes "d/f" 4294967301 1700000000000000000 false 33188 false false false false true].

Lemma list_roundtrip_witness :
  exists pdu, build_file_list_pdu ex_copied = Some pdu
    /\ parse_file_descriptors pdu 7 =
       Some (Ok [mkDescription 7 "d" KDirectory 1700000000123456700 1700000000123456700 1700000000123456700 1700000000123456700 4096 16877;
                 mkDescription 7 "d/f" KFile 1700000000000000000 1700000000000000000 1700000000000000000 1700000000000000000 4294967301 33188]).
Proof.
  apply (list_roundtrip ex_copied 7); [|vm_compute; reflexivity].
  repeat constructor; vm_compute; congruence.
Defined.
