(* ===== verification/ClipServe.v ===== *)
(** * Serving copied files (libs/clipboard/src/platform/unix/local_file.rs, serv_files.rs)

    The files of the clipboard are listed once ([sync_files]), and the peer asks for the size
    of a file of the list or for a range of its bytes ([read_file_contents]).  A file is
    opened when it is first read and kept open, behind a buffer, until its end was read. *)

From S2P Require Import Prelude OsFs PathFacts ClipDescr.
From Stdlib Require Import Ascii.

(** ** Data *)

(** [BufReader<File>]: the position of the file is past what is buffered. *)
Record Reader : Type := mkReader { r_ino : nat; r_pos : Z; r_buf : list byte }.

(** [lf_key] is the entry that [lf_path] denotes: directories on the way to it may be links. *)
Record LocalFile : Type := mkLocalFile {
  lf_path : string;
  lf_key : list string;
  attributes : Attributes;
  handle : option Reader;
  offset : Z }.

Inductive FileContentsRequest : Type :=
| Size (stream_id file_idx : Z)
| Range (stream_id file_idx offset length : Z).

Record FileSig : Type := mkSig { sig_size : Z; sig_mtime : option Z; sig_is_dir : bool }.

#[export] Instance sig_eq_dec : EqDecision FileSig.
Proof. solve_decision. Defined.

Definition no_sig : FileSig := mkSig 0 None false.

Record ClipFiles : Type := mkClipFiles {
  clip_files : list string;
  sigs : list FileSig;
  file_list : list LocalFile;
  first_file_index : Z;
  files_pdu : list byte }.

Definition no_files : ClipFiles := mkClipFiles [] [] [] 0 [].

(** [ClipboardFile], the messages about copied files (libs/clipboard/src/lib.rs). *)
Inductive ClipboardFile : Type :=
| NotifyCallback (type_ title text : string)
| MonitorReady
| FormatList (format_list : list (Z * string))
| FormatListResponse (msg_flags : Z)
| FormatDataRequest (requested_format_id : Z)
| FormatDataResponse (msg_flags : Z) (format_data : list byte)
| ContentsRequest (stream_id list_index dw_flags n_position_low n_position_high cb_requested : Z)
    (have_clip_data_id : bool) (clip_data_id : Z)
| ContentsResponse (msg_flags stream_id : Z) (requested_data : list byte)
| TryEmpty
| Files (files : list (string * Z)).

(** ** Paths *)

Definition comp_text (c : Component) : string :=
  match c with RootDir => "/" | CurDir => "." | ParentDir => ".." | Normal s => s end.

Fixpoint join_texts (l : list string) : string :=
  match l with
  | [] => ""
  | [s] => s
  | s :: l => s +:+ "/" +:+ join_texts l
  end.

(** The text of components that were parsed. *)
Definition path_of (cs : list Component) : string :=
  match cs with
  | RootDir :: cs => "/" +:+ join_texts (comp_text <$> cs)
  | cs => join_texts (comp_text <$> cs)
  end.

(** [Path::parent]. *)
Definition parent_path (p : string) : option string :=
  match last (components p) with
  | None | Some RootDir => None
  | Some _ => Some (path_of (removelast (components p)))
  end.

Fixpoint strip_components (root p : list Component) : option (list Component) :=
  match root, p with
  | [], p => Some p
  | c :: root, d :: p => if decide (c = d) then strip_components root p else None
  | _ :: _, [] => None
  end.

(** [Path::strip_prefix], for paths without doubled separators. *)
Definition strip_prefix (root p : string) : option string :=
  path_of <$> strip_components (components root) (components p).

(** ** The file system, as far as the times and modes go *)

Record FileMeta : Type := mkMeta { m_len : Z; m_mtime : Z; m_mode : Z }.

Section Serve.
Context `{Utf16}.
(** Length of a directory, time in nanoseconds and mode of an entry. *)
Variable meta : Fs -> list string -> FileMeta.
(** How many bytes a reader reads ahead at a position. *)
Variable ahead : Z -> nat.
(** The order in which a directory is read is the one of [children]. *)
Variable fs : Fs.

Definition is_file_at (k : list string) : bool := match entry_at fs k with Some (EFile _) => true | _ => false end.
Definition is_dir_at (k : list string) : bool := match entry_at fs k with Some EDir => true | _ => false end.

Definition size_at (k : list string) : option Z :=
  match entry_at fs k with
  | Some (EFile i) => match inodes fs !! i with Some n => Some (len (content n)) | None => None end
  | Some _ => Some (m_len (meta fs k))
  | None => None
  end.

(** [LocalFile::try_open]: the entry [k] under the path [path]. *)
Definition try_open (relative_root : string) (k : list string) (path : string) : result CliprdrError LocalFile :=
  match size_at k with
  | None => Err (FileError path)
  | Some size =>
      let m := meta fs k in
      let dir := is_dir_at k in
      let ro := Z.land (m_mode m) 146 =? 0 in     (* 0o222 *)
      let hid := starts_with_char "."%char path in
      Ok (mkLocalFile path k
            (mkAttributes (default path (strip_prefix relative_root path)) size (m_mtime m) dir (m_mode m)
               ro hid false false (negb (dir || ro || false || hid || false)))
            None 0)
  end.

(** [constr_file_lst]: the entry, then what is in it; [visited] are paths. *)
Fixpoint constr_file_lst (fuel : nat) (relative_root : string) (k : list string) (path : string)
    (st : list LocalFile * list (list Component)) : option (result CliprdrError (list LocalFile * list (list Component))) :=
  match fuel with
  | O => None
  | S fuel =>
      let '(file_list, visited) := st in
      if decide (components path ∈ visited) then Some (Ok st)
      else
        match try_open relative_root k path with
        | Err e => Some (Err e)
        | Ok f =>
            let st := (file_list ++ [f], components path :: visited) in
            match entry_at fs k, resolve fs k with
            | Some EDir, Some k' =>
                (fix each (ns : list string) (st : list LocalFile * list (list Component)) :=
                   match ns with
                   | [] => Some (Ok st)
                   | n :: ns =>
                       match constr_file_lst fuel relative_root (k' ++ [n]) (path_join path n) st with
                       | Some (Ok st) => each ns st
                       | r => r
                       end
                   end) (children fs k') st
            | _, _ => Some (Ok st)
            end
        end
  end.

Fixpoint constr_all (fuel : nat) (relative_root : string) (paths : list string)
    (st : list LocalFile * list (list Component)) : option (result CliprdrError (list LocalFile)) :=
  match paths with
  | [] => Some (Ok (fst st))
  | p :: paths =>
      match constr_file_lst fuel relative_root (key p) p st with
      | Some (Ok st) => constr_all fuel relative_root paths st
      | Some (Err e) => Some (Err e)
      | None => None
      end
  end.

(** [None]: the directories do not end. *)
Definition construct_file_list (fuel : nat) (paths : list string) : option (result CliprdrError (list LocalFile)) :=
  match paths with
  | [] => Some (Err (InvalidRequest "empty file list"))
  | p :: _ =>
      match parent_path p with
      | None => Some (Err (InvalidRequest "empty parent"))
      | Some root => constr_all fuel root paths ([], [])
      end
  end.

(** *** Reading *)

(** The reader reads ahead from where it stands. *)
Definition read_ahead (i : nat) (p : Z) : option Reader :=
  match inodes fs !! i with
  | None => None
  | Some n =>
      let b := take (ahead p) (drop (Z.to_nat p) (content n)) in
      Some (mkReader i (p + len b) b)
  end.

Definition with_handle (h : option Reader) (off : Z) (f : LocalFile) : LocalFile :=
  mkLocalFile (lf_path f) (lf_key f) (attributes f) h off.

Definition load_handle (f : LocalFile) : result CliprdrError unit * LocalFile :=
  if is_dir (attributes f) then (Ok tt, f)
  else match handle f with
  | Some _ => (Ok tt, f)
  | None =>
      match entry_at fs (lf_key f) with
      | Some (EFile i) =>
          match read_ahead i 0 with
          | Some r => (Ok tt, with_handle (Some r) (offset f) f)
          | None => (Err (FileError (lf_path f)), f)
          end
      | _ => (Err (FileError (lf_path f)), f)
      end
  end.

(** [BufReader::seek]. *)
Definition seek (p : Z) (r : Reader) : Reader := mkReader (r_ino r) p [].

(** [read_exact]. *)
Definition read_exact (n : nat) (r : Reader) : option (list byte * Reader) :=
  match inodes fs !! r_ino r with
  | None => None
  | Some nd =>
      let avail := r_buf r ++ drop (Z.to_nat (r_pos r)) (content nd) in
      if (length avail <? n)%nat then None
      else if (n <=? length (r_buf r))%nat
      then Some (take n avail, mkReader (r_ino r) (r_pos r) (drop n (r_buf r)))
      else r' ← read_ahead (r_ino r) (r_pos r + (Z.of_nat n - len (r_buf r)));
           Some (take n avail, r')
  end.

Definition read_exact_at (n : nat) (off : Z) (f : LocalFile) : result CliprdrError (list byte) * LocalFile :=
  match load_handle f with
  | (Err e, f) => (Err e, f)
  | (Ok _, f) =>
      match handle f with
      | None => (Err (FileError (lf_path f)), f)
      | Some r =>
          match read_exact n (if off =? offset f then r else seek off r) with
          | None => (Err (FileError (lf_path f)), with_handle None 0 f)
          | Some (data, r) =>
              let new_offset := as_u64 (off + Z.of_nat n) in
              if lf_size (attributes f) <=? new_offset
              then (Ok data, with_handle None 0 f)
              else (Ok data, with_handle (Some r) new_offset f)
          end
      end
  end.

(** The files after one that was served: the next one that is no directory is opened. *)
Fixpoint hot_reload (l : list LocalFile) : result CliprdrError unit * list LocalFile :=
  match l with
  | [] => (Ok tt, [])
  | f :: l =>
      if is_dir (attributes f) then let '(r, l) := hot_reload l in (r, f :: l)
      else let '(r, f) := load_handle f in (r, f :: l)
  end.

Definition ISIZE_MAX : Z := 2 ^ 63 - 1.

Definition with_list (l : list LocalFile) (s : ClipFiles) : ClipFiles :=
  mkClipFiles (clip_files s) (sigs s) l (first_file_index s) (files_pdu s).

(** [slice::get]. *)
Definition get {A} (i : Z) (l : list A) : option A := if i <? len l then l !! Z.to_nat i else None.

Definition size_of (stream_id i : Z) (f : LocalFile) : ClipboardFile :=
  ContentsResponse 1 stream_id (le_bytes 8 (lf_size (attributes f))).

(** [None]: the program ends, for no memory of that size can be asked for. *)
Definition serve_file_contents (req : FileContentsRequest) (s : ClipFiles)
  : option (result CliprdrError ClipboardFile * ClipFiles) :=
  let finish i resp s :=
    let n := S (Z.to_nat i) in
    let '(r, l) := hot_reload (drop n (file_list s)) in
    Some (let? _ := r in Ok resp, with_list (take n (file_list s) ++ l) s) in
  match req with
  | Size stream_id i =>
      match get i (file_list s) with
      | None => Some (Err (InvalidRequest "invalid file index"), s)
      | Some f => finish i (size_of stream_id i f) s
      end
  | Range stream_id i off length =>
      match get i (file_list s) with
      | None => Some (Err (InvalidRequest "invalid file index"), s)
      | Some f =>
          let size := lf_size (attributes f) in
          if size <? off then Some (Err (InvalidRequest "invalid reading offset"), s)
          else
            let read_size := if size <? as_u64 (off + length) then size - off else length in
            if ISIZE_MAX <? read_size then None
            else
              let '(r, f) := read_exact_at (Z.to_nat read_size) off f in
              let s := with_list (<[Z.to_nat i := f]> (file_list s)) s in
              match r with
              | Err e => Some (Err e, s)
              | Ok data => finish i (ContentsResponse 1 stream_id data) s
              end
      end
  end.

Definition get_files_for_audit (req : FileContentsRequest) (s : ClipFiles) : option ClipboardFile :=
  match req with
  | Range _ i off _ =>
      if (i =? first_file_index s) && (off =? 0) then
        let files := omap (fun f => if is_file_at (lf_key f) then Some (lf_path f, lf_size (attributes f)) else None)
                       (file_list s) in
        match files with [] => None | _ => Some (Files files) end
      else None
  | Size _ _ => None
  end.

(** The request as its numbers are read. *)
Definition request_of (stream_id list_index dw_flags n_position_low n_position_high cb_requested : Z)
  : option FileContentsRequest :=
  if dw_flags =? 1 then Some (Size stream_id (as_u64 list_index))
  else if dw_flags =? 2 then
    let off := Z.lor (as_u64 (Z.shiftl (as_u64 n_position_high) 32)) (as_u64 n_position_low) in
    Some (Range stream_id (as_u64 list_index) off (as_u64 cb_requested))
  else None.

Definition read_file_contents (stream_id list_index dw_flags n_position_low n_position_high cb_requested : Z)
    (s : ClipFiles) : option (list (result CliprdrError ClipboardFile) * ClipFiles) :=
  match request_of stream_id list_index dw_flags n_position_low n_position_high cb_requested with
  | None => Some ([Err (InvalidRequest "got invalid FileContentsRequest")], s)
  | Some fcr =>
      let audit := match get_files_for_audit fcr s with Some a => [Ok a] | None => [] end in
      '(r, s) ← serve_file_contents fcr s;
      Some (audit ++ [r], s)
  end.

(** *** The list of files *)

Definition clear_files : ClipFiles := mkClipFiles [] [] [] USIZE_MAX [].

Definition fingerprint (files : list string) : list FileSig :=
  map (fun p => match size_at (key p) with
                | Some size => mkSig size (Some (m_mtime (meta fs (key p)))) (OsFs.is_dir fs p)
                | None => no_sig
                end) files.

Definition position {A} (p : A -> bool) (l : list A) : option Z :=
  (fun x => Z.of_nat (fst x)) <$> list_find (fun a => p a = true) l.

Inductive Sync : Type :=
| Endless                                  (* the directories do not end *)
| Panicked (s : ClipFiles)                 (* no list can be written *)
| Synced (r : result CliprdrError unit) (s : ClipFiles).

Definition sync_files (fuel : nat) (files : list string) (s : ClipFiles) : Sync :=
  let current := fingerprint files in
  if bool_decide (clip_files s = files) && bool_decide (sigs s = current) && negb (existsb sig_is_dir current)
  then Synced (Ok tt) s
  else
    match construct_file_list fuel files with
    | None => Endless
    | Some (Err e) => Synced (Err e) s
    | Some (Ok l) =>
        let first := default USIZE_MAX (position (fun f => negb (is_dir_at (lf_key f))) l) in
        let s := mkClipFiles files current l first (files_pdu s) in
        match build_file_list_pdu (attributes <$> l) with
        | None => Panicked s
        | Some pdu => Synced (Ok tt) (mkClipFiles files current l first pdu)
        end
    end.
End Serve.
