(* ===== verification/ClipServed.v ===== *)
(** * What is served is the copied files

    As long as the copied files stay as they are, every range that the peer asks for is
    answered with these bytes of this file, however many requests came before, in whatever
    order, and however the readers buffer.  At the end: requests that end the program, files
    that cannot be read to their end. *)

From S2P Require Import Prelude OsFs PathFacts ClipDescr ClipServe.

Section Served.
Context `{Utf16}.
Variable ahead : Z -> nat.
Variable fs : Fs.

(** The file has the content [c]; its reader, if there is one, stands at [offset]. *)
Record sound (c : list byte) (f : LocalFile) : Prop := {
  so_file : is_dir (attributes f) = false;
  so_size : lf_size (attributes f) = len c;
  so_small : len c <= ISIZE_MAX;
  so_content : exists i n, entry_at fs (lf_key f) = Some (EFile i) /\ inodes fs !! i = Some n /\ content n = c
    /\ match handle f with
       | None => offset f = 0
       | Some r => r_ino r = i /\ 0 <= offset f <= len c /\ r_pos r = offset f + len (r_buf r)
           /\ r_buf r = take (length (r_buf r)) (drop (Z.to_nat (offset f)) c)
       end }.

(** An entry of the list: a directory, or a file with its content. *)
Definition listed (c : option (list byte)) (f : LocalFile) : Prop :=
  match c with
  | None => is_dir (attributes f) = true /\ handle f = None /\ offset f = 0
  | Some c => sound c f
  end.

(** Serving changes no more than the readers. *)
Definition same_file (f f' : LocalFile) : Prop := lf_path f' = lf_path f /\ lf_key f' = lf_key f /\ attributes f' = attributes f.

Lemma take_itself {A} n (l : list A) : take n l = take (length (take n l)) l.
Proof. rewrite length_take. destruct (Nat.min_spec n (length l)) as [[? ->]|[? ->]]; [done|]. rewrite !take_ge; done || lia. Qed.

Lemma open_sound c f : sound c f -> handle f = None ->
  exists r, load_handle ahead fs f = (Ok tt, with_handle (Some r) 0 f) /\ sound c (with_handle (Some r) 0 f).
Proof.
  intros [Hf Hs Hm (i & n & E1 & E2 & E3 & E4)] Hh. rewrite Hh in E4. unfold load_handle. rewrite Hf, Hh.
  rewrite E1. unfold read_ahead. rewrite E2, E4. eexists. split; [reflexivity|].
  split; [done..|]. exists i, n. split; [done|]. split; [done|]. split; [done|]. cbn.
  pose proof (len_nonneg c). split_and!; [done|lia|lia|lia|]. rewrite E3. apply take_itself.
Qed.

Lemma load_sound c f : sound c f ->
  exists f', load_handle ahead fs f = (Ok tt, f') /\ sound c f' /\ same_file f f' /\ offset f' = offset f /\ is_Some (handle f').
Proof.
  intros Hf. destruct (handle f) as [r|] eqn:Hh.
  - exists f. unfold load_handle. rewrite (so_file _ _ Hf), Hh. by split_and!.
  - destruct (open_sound c f Hf Hh) as (r & E & Hs). eexists. split; [exact E|]. split; [done|]. split; [done|].
    split; [|by eexists].
    destruct Hf as [_ _ _ (i & n & _ & _ & _ & E4)]. by rewrite Hh in E4.
Qed.

(** What the reader has is the rest of the file. *)
Lemma reader_rest c (b : list byte) (o p : Z) :
  0 <= o -> p = o + len b -> b = take (length b) (drop (Z.to_nat o) c) ->
  b ++ drop (Z.to_nat p) c = drop (Z.to_nat o) c.
Proof.
  intros Ho -> Hb. rewrite Z2Nat.inj_add by (auto with rust). unfold len. rewrite Nat2Z.id, <- drop_drop.
  rewrite Hb at 1. apply take_drop.
Qed.

Lemma read_sound c f n off :
  sound c f -> 0 <= off -> off + Z.of_nat n <= len c ->
  exists f', read_exact_at ahead fs n off f = (Ok (take n (drop (Z.to_nat off) c)), f') /\ sound c f' /\ same_file f f'.
Proof.
  intros Hf Ho Hn. destruct (load_sound c f Hf) as (f1 & E & H1 & Hsame & Eo & [r Hr]).
  unfold read_exact_at. rewrite E, Hr. pose proof H1 as [Hd Hs Hm (i & nd & E1 & E2 & E3 & E4)]. rewrite Hr in E4.
  destruct E4 as (Ei & Hoff & Hp & Hb).
  set (r1 := if off =? offset f1 then r else seek off r).
  assert (H2 : r_ino r1 = i /\ r_pos r1 = off + len (r_buf r1) /\ r_buf r1 = take (length (r_buf r1)) (drop (Z.to_nat off) c)).
  { unfold r1. destruct (Z.eqb_spec off (offset f1)) as [->|]; [done|]. cbn. by split_and!; [|rewrite Z.add_0_r|]. }
  destruct H2 as (Ei1 & Hp1 & Hb1).
  pose proof (reader_rest c (r_buf r1) off (r_pos r1) Ho Hp1 Hb1) as Hrest.
  assert (Hlb : len (r_buf r1) <= len c - off).
  { apply (f_equal length) in Hrest. unfold len in *. rewrite length_app, !length_drop in Hrest. lia. }
  assert (Hav : (n <= length (drop (Z.to_nat off) c))%nat) by (unfold len in *; rewrite length_drop; lia).
  assert (Hread : exists r2, read_exact ahead fs n r1 = Some (take n (drop (Z.to_nat off) c), r2)
    /\ r_ino r2 = i /\ r_pos r2 = off + Z.of_nat n + len (r_buf r2)
    /\ r_buf r2 = take (length (r_buf r2)) (drop (Z.to_nat (off + Z.of_nat n)) c)).
  { unfold read_exact. rewrite Ei1, E2, E3, Hrest. destruct (Nat.ltb_spec (length (drop (Z.to_nat off) c)) n); [lia|].
    destruct (Nat.leb_spec n (length (r_buf r1))) as [Hle|Hgt].
    - eexists. split; [reflexivity|]. cbn. split_and!; [done| |].
      + unfold len in *. rewrite length_drop. lia.
      + rewrite length_drop. rewrite Hb1 at 1. rewrite skipn_firstn_comm, drop_drop. do 2 f_equal. lia.
    - unfold read_ahead. rewrite E2, E3. eexists. split; [reflexivity|]. cbn [r_ino r_pos r_buf].
      replace (r_pos r1 + (Z.of_nat n - len (r_buf r1))) with (off + Z.of_nat n) by lia.
      split_and!; [done|done|]. apply take_itself. }
  destruct Hread as (r2 & -> & R1 & R2 & R3).
  assert (Hw : as_u64 (off + Z.of_nat n) = off + Z.of_nat n) by (apply wrap_small; unfold ISIZE_MAX in *; lia).
  rewrite Hw, Hs. destruct (Z.leb_spec (len c) (off + Z.of_nat n)).
  - eexists. split; [reflexivity|]. split; [|done]. split; [done..|]. exists i, nd. by split_and!.
  - eexists. split; [reflexivity|]. split; [|done]. split; [done..|]. exists i, nd. split_and!; [done..|].
    cbn. split_and!; [done|lia|lia|done|done].
Qed.

Lemma reload_listed cs l : Forall2 listed cs l ->
  exists l', hot_reload ahead fs l = (Ok tt, l') /\ Forall2 listed cs l' /\ Forall2 same_file l l'.
Proof.
  induction 1 as [|c f cs l Hf Hl (l' & E & H1 & H2)]; [by exists []|]. cbn [hot_reload].
  assert (Hsame : Forall2 same_file l l) by (clear; induction l; by constructor).
  destruct c as [c|].
  - rewrite (so_file _ _ Hf). destruct (load_sound c f Hf) as (f' & Ef & Hf' & Hsf & _). rewrite Ef.
    exists (f' :: l). split_and!; [done| |]; by constructor.
  - destruct Hf as (Hd & Hh & Ho). rewrite Hd, E. exists (f :: l'). split_and!; [done| |]; by constructor.
Qed.

(** *** Requests *)

(** What the peer sends: stream, index, flags, the position's low and high half, the length. *)
Record Ask : Type := mkAsk { a_stream : Z; a_index : Z; a_flags : Z; a_low : Z; a_high : Z; a_count : Z }.

Definition position_of (a : Ask) : Z := a_high a * 2 ^ 32 + a_low a.

(** The peer asks for bytes of a file of the list, at a position whose low half has no bit 31. *)
Definition in_range (cs : list (option (list byte))) (a : Ask) : Prop :=
  a_flags a = 2 /\ 0 <= a_index a < 2 ^ 31 /\ 0 <= a_low a < 2 ^ 31 /\ 0 <= a_high a < 2 ^ 31 /\ 0 <= a_count a < 2 ^ 31
  /\ exists c, cs !! Z.to_nat (a_index a) = Some (Some c) /\ position_of a <= len c.

Definition bytes_at (cs : list (option (list byte))) (a : Ask) : list byte :=
  match cs !! Z.to_nat (a_index a) with
  | Some (Some c) => take (Z.to_nat (a_count a)) (drop (Z.to_nat (position_of a)) c)
  | _ => []
  end.

Definition answer_to (cs : list (option (list byte))) (a : Ask) : ClipboardFile :=
  ContentsResponse 1 (a_stream a) (bytes_at cs a).

Definition ask (a : Ask) (s : ClipFiles) : option (list (result CliprdrError ClipboardFile) * ClipFiles) :=
  read_file_contents ahead fs (a_stream a) (a_index a) (a_flags a) (a_low a) (a_high a) (a_count a) s.

(** The last answer to each of the requests, what is sent for the audit left out. *)
Fixpoint ask_all (l : list Ask) (s : ClipFiles) : option (list (option (result CliprdrError ClipboardFile)) * ClipFiles) :=
  match l with
  | [] => Some ([], s)
  | a :: l => '(r, s) ← ask a s; '(rs, s) ← ask_all l s; Some (last r :: rs, s)
  end.

Lemma or_halves h l : 0 <= h < 2 ^ 31 -> 0 <= l < 2 ^ 31 ->
  Z.lor (as_u64 (Z.shiftl (as_u64 h) 32)) (as_u64 l) = h * 2 ^ 32 + l.
Proof.
  intros Hh Hl. rewrite (wrap_small 64 h), (wrap_small 64 l) by lia. rewrite Z.shiftl_mul_pow2 by lia.
  rewrite wrap_small by lia. rewrite <- Z.lxor_lor, Z.add_nocarry_lxor; [done| |];
  apply Z.bits_inj'; intros k Hk; rewrite Z.land_spec, Z.bits_0;
  (destruct (Z.ltb_spec k 32);
   [rewrite Z.mul_pow2_bits_low by lia; done
   |rewrite (Z.bits_above_log2 l); [by rewrite andb_false_r|lia|];
    destruct (Z.eq_dec l 0) as [->|]; [cbn; lia|apply Z.log2_lt_pow2; [lia|]];
    apply Z.lt_le_trans with (2 ^ 31); [lia|apply Z.pow_le_mono_r; lia]]).
Qed.

Lemma listed_insert cs l i c f : Forall2 listed cs l -> cs !! i = Some (Some c) -> sound c f -> Forall2 listed cs (<[i := f]> l).
Proof.
  intros Hl Hc Hf. rewrite <- (list_insert_id cs i (Some c) Hc). by apply Forall2_insert.
Qed.

Lemma one_answer cs a s : Forall2 listed cs (file_list s) -> in_range cs a ->
  exists audit s', ask a s = Some (audit ++ [Ok (answer_to cs a)], s') /\ Forall2 listed cs (file_list s')
    /\ Forall (fun r => exists l, r = Ok (Files l)) audit.
Proof.
  intros Hl (Hfl & Hi & Hlo & Hhi & Hn & c & Hc & Hp). unfold ask, read_file_contents, request_of. rewrite Hfl. cbn [Z.eqb Pos.eqb].
  rewrite or_halves, (wrap_small 64 (a_index a)), (wrap_small 64 (a_count a)) by lia. fold (position_of a).
  destruct (Forall2_lookup_l _ _ _ _ _ Hl Hc) as (f & Ef & Hf). cbn in Hf.
  assert (Hget : get (a_index a) (file_list s) = Some f).
  { unfold get, len. pose proof (lookup_lt_Some _ _ _ Ef). destruct (Z.ltb_spec (a_index a) (Z.of_nat (length (file_list s)))); [done|lia]. }
  unfold serve_file_contents. rewrite Hget. pose proof Hf as [_ Hs Hm _]. rewrite Hs.
  assert (Hpos : 0 <= position_of a) by (unfold position_of; lia).
  destruct (Z.ltb_spec (len c) (position_of a)); [lia|].
  unfold ISIZE_MAX in *. rewrite (wrap_small 64 (position_of a + a_count a)) by lia.
  set (n := if len c <? position_of a + a_count a then len c - position_of a else a_count a).
  assert (Hn' : 0 <= n /\ position_of a + n <= len c /\ take (Z.to_nat n) (drop (Z.to_nat (position_of a)) c) = bytes_at cs a).
  { unfold bytes_at. rewrite Hc. unfold n. destruct (Z.ltb_spec (len c) (position_of a + a_count a)); split_and!; try lia; [|done].
    rewrite !take_ge; [done| |]; rewrite length_drop; unfold len in *; lia. }
  destruct Hn' as (Hn0 & Hn1 & Hbytes). destruct (Z.ltb_spec (2 ^ 63 - 1) n); [lia|].
  destruct (read_sound c f (Z.to_nat n) (position_of a) Hf Hpos ltac:(lia)) as (f' & -> & Hf' & _). rewrite Hbytes.
  set (l1 := <[Z.to_nat (a_index a) := f']> (file_list s)).
  assert (Hl1 : Forall2 listed cs l1) by (by eapply listed_insert).
  set (k := S (Z.to_nat (a_index a))).
  destruct (reload_listed (drop k cs) (drop k l1) (Forall2_drop _ _ _ _ Hl1)) as (l2 & E2 & Hl2 & _).
  cbn [file_list with_list]. rewrite E2. eexists _, _. split; [reflexivity|]. cbn [file_list with_list].
  split; [rewrite <- (take_drop k cs); apply Forall2_app; [by apply Forall2_take|done]|].
  unfold get_files_for_audit. repeat case_match; constructor; try done. naive_solver.
Qed.

Lemma ranges_served cs s (l : list Ask) :
  Forall2 listed cs (file_list s) -> Forall (in_range cs) l ->
  exists s', ask_all l s = Some ((fun a => Some (Ok (answer_to cs a))) <$> l, s') /\ Forall2 listed cs (file_list s').
Proof.
  intros Hs Hl. revert s Hs. induction Hl as [|a l Ha _ IH]; intros s Hs; [by exists s|].
  destruct (one_answer cs a s Hs Ha) as (audit & s1 & E & H1 & _). destruct (IH s1 H1) as (s2 & E2 & H2).
  exists s2. split; [|done]. cbn [ask_all]. rewrite E. cbn. rewrite E2. cbn. by rewrite last_snoc.
Qed.
(** *** What was listed *)

(** The bytes of an entry of the list, [None] for a directory. *)
Definition contents (f : LocalFile) : option (list byte) :=
  match entry_at fs (lf_key f) with
  | Some (EFile i) => match inodes fs !! i with Some n => Some (content n) | None => None end
  | _ => None
  end.

(** No file is larger than a file can be. *)
Definition fits : Prop := forall i n, inodes fs !! i = Some n -> len (content n) <= ISIZE_MAX.

Variable meta : Fs -> list string -> FileMeta.

Lemma follow_no_link fuel k k' t : follow fuel fs k = Some k' -> entries fs !! k' <> Some (ELink t).
Proof.
  revert k. induction fuel as [|fuel IH]; intros k; cbn; destruct (entries fs !! k) as [[]|] eqn:E; try congruence; apply IH.
Qed.

Lemma opened_listed root k p f : fits -> try_open meta fs root k p = Ok f -> listed (contents f) f.
Proof.
  intros Hfit. unfold try_open, size_at, contents. destruct (entry_at fs k) as [e|] eqn:Ek; [|done].
  destruct e as [i| |t].
  - destruct (inodes fs !! i) as [n|] eqn:Ei; [|done]. injection 1 as <-. cbn. rewrite Ek, Ei. cbn. split; cbn.
    + unfold is_dir_at. by rewrite Ek.
    + done.
    + by eapply Hfit.
    + by exists i, n.
  - injection 1 as <-. cbn. rewrite Ek. cbn. unfold is_dir_at. by rewrite Ek.
  - exfalso. unfold entry_at in Ek. destruct (resolve fs k) as [k'|] eqn:Er; [|done].
    case_decide; [done|]. by eapply follow_no_link.
Qed.

Definition all_listed (l : list LocalFile) : Prop := Forall (fun f => listed (contents f) f) l.

Lemma tree_listed fuel root k p st st' : fits -> all_listed (fst st) ->
  constr_file_lst meta fs fuel root k p st = Some (Ok st') -> all_listed (fst st').
Proof.
  intros Hfit. revert k p st st'. induction fuel as [|fuel IH]; intros k p [l v] st' Hl; [done|]. cbn [constr_file_lst].
  case_decide; [by injection 1 as <-|]. destruct (try_open meta fs root k p) as [f|e] eqn:Eo; [|done].
  assert (H1 : all_listed (fst (l ++ [f], components p :: v))).
  { apply Forall_app. split; [done|]. apply Forall_singleton. by eapply opened_listed. }
  destruct (entry_at fs k) as [[]|]; [by injection 1 as <-| |by injection 1 as <-|by injection 1 as <-].
  destruct (resolve fs k) as [k'|]; [|by injection 1 as <-].
  revert H1. generalize (l ++ [f], components p :: v) as st. induction (children fs k') as [|n ns IHn]; intros st H1.
  - by injection 1 as <-.
  - destruct (constr_file_lst meta fs fuel root (k' ++ [n]) (path_join p n) st) as [[st1|]|] eqn:E; [|done|done].
    apply IHn. by eapply IH.
Qed.

Lemma all_are_listed fuel root ps st l : fits -> all_listed (fst st) ->
  constr_all meta fs fuel root ps st = Some (Ok l) -> all_listed l.
Proof.
  intros Hfit. revert st. induction ps as [|p ps IH]; intros st Hst; cbn; [by injection 1 as <-|].
  destruct (constr_file_lst meta fs fuel root (key p) p st) as [[st1|]|] eqn:E; [|done|done].
  apply IH. by eapply tree_listed.
Qed.

Lemma synced_list fuel files s s' : fits -> all_listed (file_list s) ->
  sync_files meta fs fuel files s = Synced (Ok tt) s' -> all_listed (file_list s').
Proof.
  intros Hfit Hs. unfold sync_files. destruct (_ && _ && _); [by injection 1 as <-|].
  destruct (construct_file_list meta fs fuel files) as [[l|]|] eqn:E; [|done|done].
  destruct (build_file_list_pdu _); [|done]. injection 1 as <-. cbn. revert E. unfold construct_file_list.
  destruct files as [|p ps]; [done|]. destruct (parent_path p) as [root|]; [|done].
  apply all_are_listed; [done|constructor].
Qed.

(** The copied files are served: after files were copied, and as long as they stay as they
    are, every request for a range of a listed file, whatever was asked before it, is answered
    with exactly the bytes of the file in this range. *)
Theorem copied_files_are_served fuel files s (l : list Ask) :
  fits -> sync_files meta fs fuel files no_files = Synced (Ok tt) s ->
  Forall (in_range (contents <$> file_list s)) l ->
  exists s', ask_all l s = Some ((fun a => Some (Ok (answer_to (contents <$> file_list s) a))) <$> l, s').
Proof.
  intros Hfit Hsync Hl. apply synced_list in Hsync; [|done|constructor].
  destruct (ranges_served (contents <$> file_list s) s l) as (s' & E & _); [|done|by exists s'].
  apply Forall2_fmap_l, Forall_Forall2_diag, Hsync.
Qed.
End Served.

(** ** Evaluated *)

#[local] Existing Instance toy_utf16.

Definition ex_bytes : list byte := [x01; x02; x03; x04; x05].

Definition ex_copy_fs (with_a : bool) : Fs :=
  let es : gmap (list string) Entry := <[["/"] := EDir]> (<[["/"; "t"] := EDir]> (<[["/"; "t"; "b"] := EFile 0%nat]> ∅)) in
  mkFs (if with_a then <[["/"; "t"; "a"] := EFile 1%nat]> es else es)
    (<[0%nat := mkInode ex_bytes 7]> (<[1%nat := mkInode [x09] 8]> ∅)) 2 ∅ 0.

Definition ex_meta (fs : Fs) (k : list string) : FileMeta := mkMeta 4096 1700000000000000000 33188.
Definition ex_ahead (p : Z) : nat := 2.

Definition ex_synced : ClipFiles :=
  match sync_files ex_meta (ex_copy_fs true) 5 ["/t"] no_files with Synced _ s => s | _ => no_files end.

Lemma copied_files_are_served_witness :
  lf_path <$> file_list ex_synced = ["/t"; "/t/b"; "/t/a"]
  /\ exists s', ask_all ex_ahead (ex_copy_fs true) [mkAsk 1 1 2 0 0 2; mkAsk 2 1 2 3 0 9; mkAsk 3 2 2 0 0 1; mkAsk 4 1 2 1 0 3] ex_synced
    = Some ([Some (Ok (ContentsResponse 1 1 [x01; x02])); Some (Ok (ContentsResponse 1 2 [x04; x05]));
             Some (Ok (ContentsResponse 1 3 [x09])); Some (Ok (ContentsResponse 1 4 [x02; x03; x04]))], s').
Proof.
  split; [vm_compute; reflexivity|].
  apply (copied_files_are_served ex_ahead (ex_copy_fs true) ex_meta 5 ["/t"] ex_synced
    [mkAsk 1 1 2 0 0 2; mkAsk 2 1 2 3 0 9; mkAsk 3 2 2 0 0 1; mkAsk 4 1 2 1 0 3]).
  - intros i n. cbn. rewrite !lookup_insert_Some. intros [[_ <-]|[_ [[_ <-]|[_ [=]]]]]; vm_compute; congruence.
  - vm_compute. reflexivity.
  - assert (E : contents (ex_copy_fs true) <$> file_list ex_synced = [None; Some ex_bytes; Some [x09]]) by (vm_compute; reflexivity).
    rewrite E. repeat constructor; cbn; try lia; eexists; (split; [reflexivity|vm_compute; congruence]).
Defined.

(** *** Findings *)

(** A position whose low half has bit 31 set, for a file of more than 2 GiB, is widened with
    its sign: it is refused, whatever the file. *)
Lemma far_offsets_fail ahead fs sid i low high cb s f :
  - 2 ^ 31 <= low < 0 -> 0 <= high < 2 ^ 31 -> 0 <= i < 2 ^ 31 -> get i (file_list s) = Some f -> lf_size (attributes f) <= ISIZE_MAX ->
  read_file_contents ahead fs sid i 2 low high cb s = Some ([Err (InvalidRequest "invalid reading offset")], s).
Proof.
  intros Hl Hh Hi Hf Hs. unfold read_file_contents, request_of. cbn [Z.eqb Pos.eqb]. rewrite (wrap_small 64 i) by lia.
  set (off := Z.lor _ _).
  assert (Hoff : 2 ^ 63 <= off).
  { unfold off. replace (as_u64 low) with (2 ^ 64 + low) by (unfold wrap; apply Z.mod_unique with (-1); lia).
    assert (Hb : Z.testbit (Z.lor (as_u64 (Z.shiftl (as_u64 high) 32)) (2 ^ 64 + low)) 63 = true).
    { rewrite Z.lor_spec, orb_true_iff. right. apply Z.testbit_true; [lia|].
      replace ((2 ^ 64 + low) / 2 ^ 63) with 1 by (apply Z.div_unique with (2 ^ 63 + low); lia). reflexivity. }
    assert (Hn : 0 <= Z.lor (as_u64 (Z.shiftl (as_u64 high) 32)) (2 ^ 64 + low)).
    { apply Z.lor_nonneg. split; [apply Z.mod_pos_bound; lia|lia]. }
    destruct (Z.le_gt_cases (2 ^ 63) (Z.lor (as_u64 (Z.shiftl (as_u64 high) 32)) (2 ^ 64 + low))) as [|Hlt]; [done|].
    exfalso. rewrite <- (Z.mod_small _ (2 ^ 63) (conj Hn Hlt)) in Hb.
    rewrite Z.mod_pow2_bits_high in Hb by lia. done. }
  assert (E : off =? 0 = false) by lia. unfold get_files_for_audit. rewrite E, andb_false_r.
  unfold serve_file_contents. rewrite Hf. unfold ISIZE_MAX in Hs.
  destruct (Z.ltb_spec (lf_size (attributes f)) off); [done|lia].
Qed.

(** A request for -1 bytes from any position but the start ends the program. *)
Example negative_length_panics :
  read_file_contents ex_ahead (ex_copy_fs true) 1 1 2 1 0 (-1) ex_synced = None.
Proof. vm_compute. reflexivity. Qed.

(** The bytes of one file are not sent when the file after it cannot be opened. *)
Example next_file_spoils_reading :
  fst <$> read_file_contents ex_ahead (ex_copy_fs false) 1 1 2 0 0 5 ex_synced = Some [Ok (Files [("/t/b", 5)]); Err (FileError "/t/a")]
  /\ fst <$> read_file_contents ex_ahead (ex_copy_fs true) 1 1 2 0 0 5 ex_synced
     = Some [Ok (Files [("/t/b", 5); ("/t/a", 1)]); Ok (ContentsResponse 1 1 ex_bytes)].
Proof. split; vm_compute; reflexivity. Qed.
