(* ===== verification/ClipFuse.v ===== *)
(** * Pasted files as a file system (libs/clipboard/src/lib.rs, platform/unix/fuse/cs.rs)

    The side that pastes shows the files that the peer described in a read-only file system
    that it serves itself, through the crate fuser.  A program that reads such a file makes
    the server ask the peer for the bytes and wait for the answer.  The channels over which
    the requests leave are those of libs/clipboard/src/lib.rs.

    What the kernel asks is an [Op]; what it is told is a [Reply].  [None] stands for a panic:
    every access by an index writes it out, and [server_never_panics] shows that there is none. *)

From S2P Require Import Prelude OsFs PathFacts ClipDescr ClipServe.
From Stdlib Require Import Ascii.

(** ** Channels (lib.rs) *)

(** [ch_queue]: what was sent and not yet received. *)
Record MsgChannel : Type := mkChannel { ch_peer : string; ch_conn : Z; ch_queue : list ClipboardFile }.

Record Channels : Type := mkChannels { channels : list MsgChannel; conn_counter : Z }.

Definition get_client_conn_id (peer_id : string) (s : Channels) : option Z :=
  ch_conn ∘ snd <$> list_find (fun c => ch_peer c = peer_id) (channels s).

Definition get_rx_cliprdr_client (peer_id : string) (s : Channels) : Z * Channels :=
  match list_find (fun c => ch_peer c = peer_id) (channels s) with
  | Some (_, c) => (ch_conn c, s)
  | None =>
      let id_ := as_i32 (conn_counter s + 1) in
      (id_, mkChannels (channels s ++ [mkChannel peer_id id_ []]) id_)
  end.

Definition get_rx_cliprdr_server (conn_id : Z) (s : Channels) : Channels :=
  match list_find (fun c => ch_conn c = conn_id) (channels s) with
  | Some _ => s
  | None => mkChannels (channels s ++ [mkChannel "" conn_id []]) (conn_counter s)
  end.

Definition remove_channel_by_conn_id (conn_id : Z) (s : Channels) : Channels :=
  match list_find (fun c => ch_conn c = conn_id) (channels s) with
  | Some (i, _) => mkChannels (delete i (channels s)) (conn_counter s)
  | None => s
  end.

Definition push (m : ClipboardFile) (c : MsgChannel) : MsgChannel :=
  mkChannel (ch_peer c) (ch_conn c) (ch_queue c ++ [m]).

Definition send_data_to_channel (conn_id : Z) (m : ClipboardFile) (s : Channels) : result CliprdrError unit * Channels :=
  match list_find (fun c => ch_conn c = conn_id) (channels s) with
  | Some (i, _) => (Ok tt, mkChannels (alter (push m) i (channels s)) (conn_counter s))
  | None => (Err (InvalidRequest "conn_id not found"), s)
  end.

Definition send_data_to_all (m : ClipboardFile) (s : Channels) : Channels :=
  mkChannels (push m <$> channels s) (conn_counter s).

Definition send_data (conn_id : Z) (m : ClipboardFile) (s : Channels) : result CliprdrError unit * Channels :=
  if conn_id =? 0 then (Ok tt, send_data_to_all m s) else send_data_to_channel conn_id m s.

(** ** File handles *)

Record FileHandles : Type := mkHandles { handlers : list Z; gc : bool }.

Definition new_handles : FileHandles := mkHandles [] false.

(** [slice::binary_search], on numbers. *)
Fixpoint bisect (fuel : nat) (l : list Z) (x : Z) (base size : nat) : nat :=
  match fuel with
  | O => base
  | S fuel =>
      if (size <=? 1)%nat then base
      else
        let half := (size / 2)%nat in
        let mid := (base + half)%nat in
        bisect fuel l x (match l !! mid with Some y => if x <? y then base else mid | None => base end) (size - half)
  end.

Definition binary_search (l : list Z) (x : Z) : option nat :=
  match l with
  | [] => None
  | _ => let i := bisect (length l) l x 0 (length l) in
         match l !! i with Some y => if x =? y then Some i else None | None => None end
  end.

Definition add_handler (fh : Z) (h : FileHandles) : option FileHandles :=
  if gc h then None else Some (mkHandles (handlers h ++ [fh]) (gc h)).

Definition have_handler (fh : Z) (h : FileHandles) : bool :=
  match binary_search (handlers h) fh with Some _ => true | None => false end.

Definition unregister (fh : Z) (h : FileHandles) : option FileHandles :=
  i ← binary_search (handlers h) fh; Some (mkHandles (delete i (handlers h)) (gc h)).

(** ** Nodes *)

Definition FUSE_ROOT_ID : Z := 1.
Definition BLOCK_SIZE : Z := 4 * 1024 * 1024.
Definition MAX_NAME_LEN : Z := 255.
Definition READ_RETRY : Z := 3.

Record InodeAttributes : Type := mkInodeAttributes {
  ia_inode : Z;
  ia_size : Z;
  ia_accessed : Z;
  ia_modified : Z;
  ia_metadata_changed : Z;
  ia_creation : Z;
  ia_kind : Kind;
  ia_perm : Z }.

Definition from_description (now inode : Z) (d : FileDescription) : InodeAttributes :=
  mkInodeAttributes inode (fd_size d) now (last_modified d) (last_metadata_changed d) (creation_time d) (fd_kind d) (fd_perm d).

Record FuseNode : Type := mkNode {
  n_conn_id : Z;
  n_index : Z;
  n_parent : option Z;
  n_name : string;
  n_attributes : InodeAttributes;
  n_children : list Z;
  n_handles : FileHandles }.

Definition new_root (now : Z) : FuseNode :=
  mkNode 0 0 None "/" (mkInodeAttributes FUSE_ROOT_ID 0 now now now now KDirectory PERM_RWX) [] new_handles.

Definition node_of (now inode parent : Z) (name : string) (d : FileDescription) : FuseNode :=
  mkNode (fd_conn_id d) (as_u64 (inode - 2)) (Some parent) name (from_description now inode d) [] new_handles.

Definition add_child (inode : Z) (n : FuseNode) : FuseNode :=
  mkNode (n_conn_id n) (n_index n) (n_parent n) (n_name n) (n_attributes n) (n_children n ++ [inode]) (n_handles n).

Definition with_handles (h : FileHandles) (n : FuseNode) : FuseNode :=
  mkNode (n_conn_id n) (n_index n) (n_parent n) (n_name n) (n_attributes n) (n_children n) h.

(** The node of an inode. *)
Definition node_at (ino : Z) (l : list FuseNode) : option FuseNode := get (as_u64 (ino - 1)) l.

#[export] Instance component_countable : Countable Component.
Proof.
  refine (inj_countable'
    (fun c => match c with RootDir => inl false | CurDir => inl true | ParentDir => inr None | Normal s => inr (Some s) end)
    (fun c => match c with inl false => RootDir | inl true => CurDir | inr None => ParentDir | inr (Some s) => Normal s end) _).
  by intros [].
Defined.

(** [Path::parent], by components. *)
Definition parent_components (p : string) : option (list Component) :=
  match last (components p) with
  | None | Some RootDir => None
  | Some _ => Some (removelast (components p))
  end.

Fixpoint build_nodes (now : Z) (ds : list FileDescription) (tree : list FuseNode) (sub_root_map : gmap (list Component) Z)
  : option (result CliprdrError (list FuseNode)) :=
  match ds with
  | [] => Some (Ok tree)
  | d :: ds =>
      let inode := len tree + FUSE_ROOT_ID in
      let parent_inode := match parent_components (fd_name d) with
                          | Some p => default FUSE_ROOT_ID (sub_root_map !! p)
                          | None => FUSE_ROOT_ID
                          end in
      match node_at parent_inode tree with
      | None => None
      | Some p =>
          let tree := <[Z.to_nat (parent_inode - 1) := add_child inode p]> tree in
          match file_name (fd_name d) with
          | None => Some (Err (FileError (fd_name d)))
          | Some base_name =>
              let sub_root_map := if decide (fd_kind d = KDirectory)
                                  then <[components (fd_name d) := inode]> sub_root_map else sub_root_map in
              build_nodes now ds (tree ++ [node_of now inode parent_inode base_name d]) sub_root_map
          end
      end
  end.

Definition build_tree (now : Z) (ds : list FileDescription) : option (result CliprdrError (list FuseNode)) :=
  build_nodes now ds [new_root now] (<[[] := FUSE_ROOT_ID]> {[ [RootDir] := FUSE_ROOT_ID ]}).

(** ** The server *)

Record FuseServer : Type := mkServer { generation : Z; files : list FuseNode; file_handle_counter : Z }.

Definition new_server : FuseServer := mkServer 0 [] 0.

Inductive Errno : Type := ENAMETOOLONG | ENOENT | ENOTDIR | EBUSY | EBADF | ENFILE | EIO.

(** [fuser::FileAttr]; user and group are those of the process. *)
Record FileAttr : Type := mkFileAttr {
  fa_ino : Z; fa_size : Z; fa_blocks : Z; fa_atime : Z; fa_mtime : Z; fa_ctime : Z; fa_crtime : Z;
  fa_kind : Kind; fa_perm : Z; fa_nlink : Z; fa_rdev : Z; fa_blksize : Z; fa_flags : Z }.

Definition file_attr (a : InodeAttributes) : FileAttr :=
  mkFileAttr (ia_inode a) (ia_size a)
    (if ia_size a mod BLOCK_SIZE =? 0 then ia_size a / BLOCK_SIZE else ia_size a / BLOCK_SIZE + 1)
    (ia_accessed a) (ia_modified a) (ia_metadata_changed a) (ia_creation a) (ia_kind a) (ia_perm a) 1 0 BLOCK_SIZE 0.

(** Inode, offset of the next entry, kind, name. *)
Definition DirEntry : Type := (Z * Z * Kind * string)%type.

Inductive Reply : Type :=
| RError (e : Errno)
| REntry (attr : FileAttr) (gen : Z)
| ROpened (fh : Z)
| RDirectory (entries : list DirEntry)
| ROk
| RData (data : list byte)
| RAttr (attr : FileAttr)
| RStatfs (blocks bsize namelen frsize : Z)
| RLoaded (r : result CliprdrError unit).

Definition load_file_list (now : Z) (ds : list FileDescription) (s : FuseServer) : option (Reply * FuseServer) :=
  match build_tree now ds with
  | None => None
  | Some (Err e) => Some (RLoaded (Err e), s)
  | Some (Ok tree) => Some (RLoaded (Ok tt), mkServer (as_u64 (generation s + 1)) tree (file_handle_counter s))
  end.

Definition init (now : Z) (s : FuseServer) : FuseServer :=
  match files s with [] => mkServer (generation s) [new_root now] (file_handle_counter s) | _ => s end.

(** The first child with the name. *)
Fixpoint find_child (l : list FuseNode) (name : string) (children : list Z) : option (option FuseNode) :=
  match children with
  | [] => Some None
  | c :: cs =>
      match node_at c l with
      | None => None
      | Some n => if String.eqb (n_name n) name then Some (Some n) else find_child l name cs
      end
  end.

Definition lookup (parent : Z) (name : string) (s : FuseServer) : option Reply :=
  if MAX_NAME_LEN <? Z.of_nat (String.length name) then Some (RError ENAMETOOLONG)
  else match node_at parent (files s) with
  | None => Some (RError ENOENT)
  | Some p =>
      if negb (bool_decide (ia_kind (n_attributes p) = KDirectory)) then Some (RError ENOTDIR)
      else match find_child (files s) name (n_children p) with
      | None => None
      | Some None => Some (RError ENOENT)
      | Some (Some n) => Some (REntry (file_attr (n_attributes n)) (generation s))
      end
  end.

(** The node of [ino] with other handles. *)
Definition set_handles (ino : Z) (h : FileHandles) (s : FuseServer) : FuseServer :=
  mkServer (generation s) (alter (with_handles h) (Z.to_nat (as_u64 (ino - 1))) (files s)) (file_handle_counter s).

Definition alloc_fd (s : FuseServer) : Z * FuseServer :=
  (file_handle_counter s, mkServer (generation s) (files s) (as_u64 (file_handle_counter s + 1))).

(** [opendir] and [open], that ask for one kind of node. *)
Definition open_node (kind : Kind) (wrong : Errno) (ino : Z) (s : FuseServer) : option (Reply * FuseServer) :=
  match node_at ino (files s) with
  | None => Some (RError ENOENT, s)
  | Some n =>
      if negb (bool_decide (ia_kind (n_attributes n) = kind)) then Some (RError wrong, s)
      else if gc (n_handles n) then Some (RError EBUSY, s)
      else
        let '(fh, s) := alloc_fd s in
        h ← add_handler fh (n_handles n);
        Some (ROpened fh, set_handles ino h s)
  end.

Definition opendir : Z -> FuseServer -> option (Reply * FuseServer) := open_node KDirectory ENOTDIR.
Definition open : Z -> FuseServer -> option (Reply * FuseServer) := open_node KFile ENFILE.

Fixpoint child_entries (l : list FuseNode) (children : list Z) : option (list (Z * Kind * string)) :=
  match children with
  | [] => Some []
  | c :: cs => n ← node_at c l; es ← child_entries l cs; Some ((c, ia_kind (n_attributes n), n_name n) :: es)
  end.

Definition dir_entries (l : list FuseNode) (ino : Z) (n : FuseNode) : option (list (Z * Kind * string)) :=
  es ← child_entries l (n_children n);
  Some ((ino, KDirectory, ".") :: match n_parent n with Some p => [(p, KDirectory, "..")] | None => [] end ++ es).

(** [ReplyDirectory::add] until the buffer is full: [fits] tells whether an entry fits behind others. *)
Fixpoint add_entries (fits : list DirEntry -> DirEntry -> bool) (i : Z) (es : list (Z * Kind * string)) (done : list DirEntry)
  : list DirEntry :=
  match es with
  | [] => done
  | (ino, k, name) :: es =>
      let e := (ino, i + 1, k, name) in
      if fits done e then add_entries fits (i + 1) es (done ++ [e]) else done
  end.

Definition readdir (fits : list DirEntry -> DirEntry -> bool) (ino fh offset : Z) (s : FuseServer) : option Reply :=
  match node_at ino (files s) with
  | None => Some (RError ENOENT)
  | Some n =>
      if negb (have_handler fh (n_handles n)) then Some (RError EBADF)
      else if negb (bool_decide (ia_kind (n_attributes n) = KDirectory)) then Some (RError ENOTDIR)
      else
        es ← dir_entries (files s) ino n;
        let offset := as_u64 offset in
        Some (RDirectory (if len es <=? offset then []
                          else add_entries fits offset (drop (Z.to_nat offset) es) []))
  end.

Definition releasedir (ino fh : Z) (s : FuseServer) : Reply * FuseServer :=
  match node_at ino (files s) with
  | None => (RError ENOENT, s)
  | Some n =>
      if negb (bool_decide (ia_kind (n_attributes n) = KDirectory)) then (RError ENOTDIR, s)
      else match unregister fh (n_handles n) with
      | None => (RError EBADF, s)
      | Some h => (ROk, set_handles ino h s)
      end
  end.

Definition release (ino fh : Z) (s : FuseServer) : Reply * FuseServer :=
  match node_at ino (files s) with
  | None => (RError ENOENT, s)
  | Some n =>
      match unregister fh (n_handles n) with
      | None => (RError EBADF, s)
      | Some h => (ROk, set_handles ino h s)
      end
  end.

(** *** Reading *)

Inductive ReadError : Type := NotSent (e : CliprdrError) | TimedOut | FailureRequest | InvalidReply.

(** [rx]: what the channel delivers, each before the wait for it ends. *)
Fixpoint await (conn_id rid : Z) (request : ClipboardFile) (retry_times : Z) (rx : list ClipboardFile) (ch : Channels)
  : result ReadError (list byte) * list ClipboardFile * Channels :=
  match rx with
  | [] => (Err TimedOut, [], ch)
  | ContentsResponse msg_flags stream_id requested_data :: rx =>
      if negb (stream_id =? rid) then await conn_id rid request retry_times rx ch
      else if Z.land msg_flags 1 =? 0 then
        let retry_times := retry_times + 1 in
        if READ_RETRY <? retry_times then (Err FailureRequest, rx, ch)
        else match send_data conn_id request ch with
        | (Err e, ch) => (Err (NotSent e), rx, ch)
        | (Ok _, ch) => await conn_id rid request retry_times rx ch
        end
      else (Ok requested_data, rx, ch)
  | _ :: rx => (Err InvalidReply, rx, ch)
  end.

Definition U32_MAX : Z := 4294967295.

(** The request for a range; [rid] is a random number. *)
Definition request_for (n : FuseNode) (rid offset size : Z) : ClipboardFile :=
  ContentsRequest rid (as_i32 (n_index n)) 2 (as_i32 (Z.land offset U32_MAX)) (as_i32 (Z.shiftr offset 32)) (as_i32 size) false 0.

Definition read_node (n : FuseNode) (rid offset size : Z) (rx : list ClipboardFile) (ch : Channels)
  : result ReadError (list byte) * list ClipboardFile * Channels :=
  let request := request_for n rid offset size in
  match send_data (n_conn_id n) request ch with
  | (Err e, ch) => (Err (NotSent e), rx, ch)
  | (Ok _, ch) => await (n_conn_id n) rid request 0 rx ch
  end.

Definition read (ino fh offset size rid : Z) (rx : list ClipboardFile) (ch : Channels) (s : FuseServer)
  : Reply * list ClipboardFile * Channels :=
  match node_at ino (files s) with
  | None => (RError ENOENT, rx, ch)
  | Some n =>
      if negb (have_handler fh (n_handles n)) then (RError EBADF, rx, ch)
      else if negb (bool_decide (ia_kind (n_attributes n) = KFile)) then (RError ENFILE, rx, ch)
      else if gc (n_handles n) then (RError EBUSY, rx, ch)
      else match read_node n rid offset size rx ch with
      | (Ok data, rx, ch) => (RData data, rx, ch)
      | (Err _, rx, ch) => (RError EIO, rx, ch)
      end
  end.

Definition getattr (ino : Z) (s : FuseServer) : Reply :=
  match node_at ino (files s) with
  | None => RError ENOENT
  | Some n => RAttr (file_attr (n_attributes n))
  end.

Definition statfs (s : FuseServer) : Reply :=
  RStatfs (foldl (fun b n => as_u64 (b + (ia_size (n_attributes n) / BLOCK_SIZE
                     + (if ia_size (n_attributes n) mod BLOCK_SIZE =? 0 then 0 else 1)))) 0 (files s))
    BLOCK_SIZE 512 BLOCK_SIZE.

(** The names at the root, [None] when there is no root. *)
Definition list_root (s : FuseServer) : option (list string) :=
  match files s with
  | [] => None
  | root :: _ => es ← child_entries (files s) (n_children root); Some (map snd es)
  end.

(** *** All operations *)

Inductive Op : Type :=
| Init (now : Z)
| Load (now : Z) (ds : list FileDescription)
| Lookup (parent : Z) (name : string)
| Opendir (ino : Z)
| Readdir (ino fh offset : Z)
| Releasedir (ino fh : Z)
| Open (ino : Z)
| Read (ino fh offset size rid : Z) (rx : list ClipboardFile) (ch : Channels)
| Release (ino fh : Z)
| Getattr (ino : Z)
| Statfs.

Definition fuse_step (fits : list DirEntry -> DirEntry -> bool) (o : Op) (s : FuseServer) : option (Reply * FuseServer) :=
  match o with
  | Init now => Some (ROk, init now s)
  | Load now ds => load_file_list now ds s
  | Lookup parent name => r ← lookup parent name s; Some (r, s)
  | Opendir ino => opendir ino s
  | Readdir ino fh offset => r ← readdir fits ino fh offset s; Some (r, s)
  | Releasedir ino fh => Some (releasedir ino fh s)
  | Open ino => open ino s
  | Read ino fh offset size rid rx ch => Some (fst (fst (read ino fh offset size rid rx ch s)), s)
  | Release ino fh => Some (release ino fh s)
  | Getattr ino => Some (getattr ino s, s)
  | Statfs => Some (statfs s, s)
  end.

Fixpoint fuse_run (fits : list DirEntry -> DirEntry -> bool) (os : list Op) (s : FuseServer) : option (list Reply * FuseServer) :=
  match os with
  | [] => Some ([], s)
  | o :: os => '(r, s) ← fuse_step fits o s; '(rs, s) ← fuse_run fits os s; Some (r :: rs, s)
  end.
