(* ===== verification/ClipTree.v ===== *)
(** * The tree of pasted files

    Whatever the peer describes, the server of the pasted files keeps a tree: the node of
    inode [j + 1] is the [j]-th of the list, a child names its parent and the parent its
    child, and parents are directories.  From that follow: no request of the kernel makes the
    server panic; files are where their paths say; names cannot leave the mount point. *)

From S2P Require Import Prelude OsFs PathFacts ClipDescr ClipServe ClipFuse.
From Stdlib Require Import Ascii.

(** ** Trees *)

Definition inode_of (j : nat) : Z := Z.of_nat j + 1.

Definition is_directory (n : FuseNode) : Prop := ia_kind (n_attributes n) = KDirectory.

(** [c] is the inode of a node below the [j]-th. *)
Definition child_of (l : list FuseNode) (j : nat) (c : Z) : Prop :=
  exists k m, c = inode_of k /\ (j < k)%nat /\ l !! k = Some m /\ n_parent m = Some (inode_of j).

Record tree_ok (l : list FuseNode) : Prop := {
  tk_small : len l < 2 ^ 33;
  tk_root : exists r, l !! 0%nat = Some r /\ is_directory r /\ n_parent r = None;
  tk_children j n : l !! j = Some n -> Forall (child_of l j) (n_children n);
  tk_inode j n : l !! j = Some n -> ia_inode (n_attributes n) = inode_of j;
  tk_parent j n : l !! S j = Some n ->
    exists p m, n_parent n = Some (inode_of p) /\ (p <= j)%nat /\ l !! p = Some m /\ is_directory m /\ inode_of (S j) ∈ n_children m }.

Lemma node_at_inode l j n : len l < 2 ^ 33 -> l !! j = Some n -> node_at (inode_of j) l = Some n.
Proof.
  intros Hs Hj. pose proof (lookup_lt_Some _ _ _ Hj). unfold node_at, get, inode_of, len in *.
  rewrite wrap_small by lia. destruct (Z.ltb_spec (Z.of_nat j + 1 - 1) (Z.of_nat (length l))); [|lia].
  by replace (Z.to_nat (Z.of_nat j + 1 - 1)) with j by lia.
Qed.

Lemma node_at_some l ino n : node_at ino l = Some n -> exists j, as_u64 (ino - 1) = Z.of_nat j /\ l !! j = Some n.
Proof.
  unfold node_at, get. destruct (_ <? _); [|done]. intros Hn. exists (Z.to_nat (as_u64 (ino - 1))). split; [|done].
  rewrite Z2Nat.id; [done|]. apply wrap_range. lia.
Qed.

(** Handles do not belong to the tree. *)
Definition same_shape (l l' : list FuseNode) : Prop :=
  forall j, match l !! j, l' !! j with
    | Some n, Some n' => n' = with_handles (n_handles n') n
    | None, None => True
    | _, _ => False
    end.

Lemma shape_left l l' j n : same_shape l l' -> l !! j = Some n -> exists h, l' !! j = Some (with_handles h n).
Proof. intros Hs Hj. specialize (Hs j). rewrite Hj in Hs. destruct (l' !! j) as [n'|]; [|done]. exists (n_handles n'). by rewrite <- Hs. Qed.

Lemma shape_right l l' j n' : same_shape l l' -> l' !! j = Some n' -> exists n, l !! j = Some n /\ n' = with_handles (n_handles n') n.
Proof. intros Hs Hj. specialize (Hs j). rewrite Hj in Hs. destruct (l !! j) as [n|]; [|done]. by exists n. Qed.

Lemma alter_shape l j h : same_shape l (alter (with_handles h) j l).
Proof.
  intros k. destruct (decide (k = j)) as [->|].
  - rewrite list_lookup_alter_eq. by destruct (l !! j).
  - rewrite list_lookup_alter_ne by done. by destruct (l !! k) as [[]|].
Qed.

Lemma shape_length l l' : same_shape l l' -> length l = length l'.
Proof.
  intros Hs. apply Nat.le_antisymm; apply Nat.nlt_ge; intros Hlt.
  - destruct (lookup_lt_is_Some_2 l (length l') Hlt) as [n Hn]. destruct (shape_left _ _ _ _ Hs Hn) as [h Hh].
    apply lookup_lt_Some in Hh. lia.
  - destruct (lookup_lt_is_Some_2 l' (length l) Hlt) as [n Hn]. destruct (shape_right _ _ _ _ Hs Hn) as (m & Hm & _).
    apply lookup_lt_Some in Hm. lia.
Qed.

Lemma shape_child l l' j c : same_shape l l' -> child_of l j c -> child_of l' j c.
Proof.
  intros Hs (k & m & -> & Hk & Hm & Hp). destruct (shape_left _ _ _ _ Hs Hm) as [h Hh]. by exists k, (with_handles h m).
Qed.

Lemma shape_tree l l' : same_shape l l' -> tree_ok l -> tree_ok l'.
Proof.
  intros Hs [H1 (r & Hr & Hd & Hp) H3 H4 H5]. split.
  - unfold len in *. by rewrite <- (shape_length _ _ Hs).
  - destruct (shape_left _ _ _ _ Hs Hr) as [h Hh]. by exists (with_handles h r).
  - intros j n' Hn. destruct (shape_right _ _ _ _ Hs Hn) as (n & E & ->). cbn.
    eapply Forall_impl; [by eapply H3|]. intros c. by apply shape_child.
  - intros j n' Hn. destruct (shape_right _ _ _ _ Hs Hn) as (n & E & ->). exact (H4 _ _ E).
  - intros j n' Hn. destruct (shape_right _ _ _ _ Hs Hn) as (n & E & ->).
    destruct (H5 _ _ E) as (p & m & Hpn & Hle & Hm & Hdm & Hin). destruct (shape_left _ _ _ _ Hs Hm) as [h Hh].
    by exists p, (with_handles h m).
Qed.

(** ** What is built *)

(** The [i]-th description as a node; [v] is the inode of its parent. *)
Definition shows (i : nat) (d : FileDescription) (now v : Z) (n : FuseNode) : Prop :=
  n_conn_id n = fd_conn_id d /\ n_index n = Z.of_nat i /\ n_parent n = Some v /\ file_name (fd_name d) = Some (n_name n)
  /\ n_attributes n = from_description now (inode_of (S i)) d /\ n_handles n = new_handles.

(** The [v]-th inode is of the folder of [d], or of the root when that was not described before. *)
Definition folder (ds : list FileDescription) (d : FileDescription) (v : Z) : Prop :=
  match parent_components (fd_name d) with
  | None => v = FUSE_ROOT_ID
  | Some cs =>
      (v = FUSE_ROOT_ID /\ (cs = [] \/ forall j d', ds !! j = Some d' -> fd_kind d' = KDirectory -> components (fd_name d') <> cs))
      \/ (v = FUSE_ROOT_ID /\ cs = [RootDir])
      \/ exists j d', ds !! j = Some d' /\ fd_kind d' = KDirectory /\ components (fd_name d') = cs /\ v = inode_of (S j)
  end.

Record built (now : Z) (ds : list FileDescription) (l : list FuseNode) : Prop := {
  bt_tree : tree_ok l;
  bt_length : length l = S (length ds);
  bt_root : exists cs, l !! 0%nat = Some (mkNode 0 0 None "/" (n_attributes (new_root now)) cs new_handles);
  bt_nodes i d : ds !! i = Some d -> exists n v, l !! S i = Some n /\ shows i d now v n /\ folder (take i ds) d v }.

(** What is known of the folders. *)
Record mapped (ds : list FileDescription) (m : gmap (list Component) Z) : Prop := {
  mp_root : m !! [] = Some FUSE_ROOT_ID;
  mp_value cs v : m !! cs = Some v -> (v = FUSE_ROOT_ID /\ (cs = [] \/ cs = [RootDir]))
    \/ exists j d, ds !! j = Some d /\ fd_kind d = KDirectory /\ components (fd_name d) = cs /\ v = inode_of (S j);
  mp_all j d : ds !! j = Some d -> fd_kind d = KDirectory -> is_Some (m !! components (fd_name d)) }.

Lemma mapped_folder ds m d : mapped ds m ->
  folder ds d (match parent_components (fd_name d) with Some p => default FUSE_ROOT_ID (m !! p) | None => FUSE_ROOT_ID end).
Proof.
  intros [Hr Hv Ha]. unfold folder. destruct (parent_components (fd_name d)) as [cs|]; [|done].
  destruct (m !! cs) as [v|] eqn:E; cbn.
  - destruct (Hv _ _ E) as [(-> & [->| ->])|(j & d' & Hj & Hk & Hc & ->)]; [left; auto|auto|].
    right. right. by exists j, d'.
  - left. split; [done|]. right. intros j d' Hj Hk <-. destruct (Ha j d' Hj Hk) as [v Hv']. congruence.
Qed.

Lemma file_name_some p s : file_name p = Some s -> exists cs, components p = cs ++ [Normal s].
Proof.
  unfold file_name. destruct (last (components p)) as [[| | |s']|] eqn:E; try done. intros [= ->].
  apply last_Some in E as [cs ->]. by exists cs.
Qed.

Lemma mapped_snoc ds m d s : mapped ds m -> file_name (fd_name d) = Some s ->
  mapped (ds ++ [d]) (if decide (fd_kind d = KDirectory) then <[components (fd_name d) := len ds + 2]> m else m).
Proof.
  intros [Hr Hv Ha] Hn. apply file_name_some in Hn as [cs Hcs]. case_decide as Hk; split.
  - rewrite lookup_insert_ne; [done|]. rewrite Hcs. by destruct cs.
  - intros k v. rewrite lookup_insert_Some. intros [[<- <-]|[_ Hk']].
    + right. exists (length ds), d. rewrite lookup_app_r, Nat.sub_diag by done. unfold inode_of, len. split_and!; [done..|lia].
    + destruct (Hv _ _ Hk') as [?|(j & d' & Hj & ?)]; [by left|]. right. exists j, d'. by rewrite (lookup_app_l_Some _ _ _ _ Hj).
  - intros j d' [Hj|(Hj1 & Hj2)]%lookup_app_Some Hd'.
    + destruct (decide (components (fd_name d) = components (fd_name d'))) as [->|Hne]; [rewrite lookup_insert_eq; by eexists|].
      rewrite lookup_insert_ne by done. by eapply Ha.
    + apply list_lookup_singleton_Some in Hj2 as [_ <-]. rewrite lookup_insert_eq. by eexists.
  - done.
  - intros k v Hk'. destruct (Hv _ _ Hk') as [?|(j & d' & Hj & ?)]; [by left|]. right. exists j, d'. by rewrite (lookup_app_l_Some _ _ _ _ Hj).
  - intros j d' [Hj|(Hj1 & Hj2)]%lookup_app_Some Hd'; [by eapply Ha|]. apply list_lookup_singleton_Some in Hj2 as [_ <-]. done.
Qed.

Lemma folder_node now ds l d v : built now ds l -> folder ds d v ->
  exists p m, v = inode_of p /\ (p <= length ds)%nat /\ l !! p = Some m /\ is_directory m.
Proof.
  intros [Ht Hl _ Hn] Hf. destruct (tk_root _ Ht) as (r & Hr & Hdr & _).
  assert (Hroot : v = FUSE_ROOT_ID -> exists p m, v = inode_of p /\ (p <= length ds)%nat /\ l !! p = Some m /\ is_directory m).
  { intros ->. exists 0%nat, r. split_and!; [done|lia|done|done]. }
  unfold folder in Hf. destruct (parent_components (fd_name d)); [|auto].
  destruct Hf as [[-> _]|[[-> _]|(j & d' & Hj & Hk & _ & ->)]]; [auto|auto|].
  destruct (Hn _ _ Hj) as (n & v & E & (_ & _ & _ & _ & Ha & _) & _). exists (S j), n.
  apply lookup_lt_Some in Hj. split_and!; [done|lia|done|]. unfold is_directory. by rewrite Ha.
Qed.

(** One more node below the [p]-th. *)
Definition grown (p : nat) (m : FuseNode) (new : FuseNode) (l : list FuseNode) : list FuseNode :=
  <[p := add_child (inode_of (length l)) m]> l ++ [new].

Lemma grown_old p m new l j n : l !! p = Some m -> l !! j = Some n ->
  grown p m new l !! j = Some (if decide (j = p) then add_child (inode_of (length l)) m else n).
Proof.
  intros Hp Hj. unfold grown. pose proof (lookup_lt_Some _ _ _ Hj) as Hlt. rewrite lookup_app_l by by rewrite length_insert.
  case_decide as E; [subst; by rewrite list_lookup_insert_eq|by rewrite list_lookup_insert_ne].
Qed.

Lemma grown_new p m new l : grown p m new l !! length l = Some new.
Proof. unfold grown. rewrite lookup_app_r; rewrite length_insert; [|done]. by rewrite Nat.sub_diag. Qed.

Lemma grown_inv p m new l j n' : l !! p = Some m -> grown p m new l !! j = Some n' ->
  (j = length l /\ n' = new) \/ (exists n, l !! j = Some n /\ n' = if decide (j = p) then add_child (inode_of (length l)) m else n).
Proof.
  intros Hp Hj. destruct (decide (j = length l)) as [->|Hne]; [left; rewrite grown_new in Hj; by injection Hj|right].
  destruct (lookup_lt_is_Some_2 l j) as [n Hn].
  { apply lookup_lt_Some in Hj. unfold grown in Hj. rewrite length_app, length_insert in Hj. cbn in Hj. lia. }
  exists n. split; [done|]. rewrite (grown_old p m new l j n Hp Hn) in Hj. by injection Hj.
Qed.

Lemma grown_child l p m new j c : l !! p = Some m -> child_of l j c -> child_of (grown p m new l) j c.
Proof.
  intros Hp (k & n & -> & Hk & Hn & Hpn). exists k. eexists. split_and!; [done|done|by apply grown_old|].
  case_decide; [subst; cbn; congruence|done].
Qed.

Lemma grown_tree l p m new :
  tree_ok l -> len l + 1 < 2 ^ 33 -> l !! p = Some m -> is_directory m -> n_parent new = Some (inode_of p) ->
  n_children new = [] -> ia_inode (n_attributes new) = inode_of (length l) -> tree_ok (grown p m new l).
Proof.
  intros [_ (r & Hr & Hdr & Hpr) H3 H4 H5] Hlen Hp Hd Hpn Hcn Hin.
  pose proof (lookup_lt_Some _ _ _ Hp) as Hlt. pose proof (lookup_lt_Some _ _ _ Hr) as Hlr. split.
  - unfold grown, len in *. rewrite length_app, length_insert. cbn. lia.
  - eexists. split; [by apply grown_old|]. case_decide; [subst p|done]. rewrite Hp in Hr. by injection Hr as ->.
  - intros j n' [[-> ->]|(n & Hn & ->)]%grown_inv; [rewrite Hcn; constructor| |done].
    assert (Hold : Forall (child_of (grown p m new l) j) (n_children n)).
    { eapply Forall_impl; [by apply H3|]. intros c. by apply grown_child. }
    case_decide as E; [|done]. subst j. rewrite Hp in Hn. injection Hn as ->. cbn. apply Forall_app. split; [done|].
    apply Forall_singleton. exists (length l), new. split_and!; [done|done|apply grown_new|done].
  - intros j n' [[-> ->]|(n & Hn & ->)]%grown_inv; [done| |done].
    case_decide as E; [subst j; exact (H4 _ _ Hp)|exact (H4 _ _ Hn)].
  - intros j n' [[Hj ->]|(n & Hn & ->)]%grown_inv; [| |done].
    + exists p. eexists. split_and!; [done|lia|by apply grown_old| |]; rewrite decide_True by done; [done|].
      cbn. rewrite Hj. set_solver.
    + assert (Hpar : exists q k, n_parent (if decide (S j = p) then add_child (inode_of (length l)) m else n) = Some (inode_of q)
        /\ (q <= j)%nat /\ l !! q = Some k /\ is_directory k /\ inode_of (S j) ∈ n_children k).
      { case_decide as E; [|by apply H5]. destruct (H5 j m) as (q & k & ?); [by rewrite E|]. by exists q, k. }
      destruct Hpar as (q & k & E1 & E2 & E3 & E4 & E5). exists q. eexists. split_and!; [done|done|by apply grown_old| |].
      * destruct (decide (q = p)) as [->|]; [exact Hd|done].
      * destruct (decide (q = p)) as [->|]; [|done]. rewrite Hp in E3. injection E3 as ->. cbn. set_solver.
Qed.

Lemma folder_lt now ds l : built now ds l -> len l < 2 ^ 33.
Proof. intros [[] _ _ _]. done. Qed.

Lemma build_step now ds l d s v p m :
  built now ds l -> len ds + 2 < 2 ^ 33 -> file_name (fd_name d) = Some s -> folder ds d v -> v = inode_of p ->
  l !! p = Some m -> is_directory m ->
  built now (ds ++ [d]) (grown p m (node_of now (inode_of (length l)) v s d) l).
Proof.
  intros [Ht Hl [rc Hr] Hn] Hlen Hs Hf -> Hp Hd. assert (Hll : len l = len ds + 1) by (unfold len in *; lia). split.
  - apply grown_tree; [done|lia|done|done|done|done|done].
  - unfold grown. rewrite !length_app, length_insert. cbn. lia.
  - rewrite (grown_old p m _ l 0 _ Hp Hr). destruct (decide (0%nat = p)) as [<-|]; [|by exists rc].
    rewrite Hp in Hr. injection Hr as ->. by eexists.
  - intros i d' [Hi|(Hi & Hi2)]%lookup_app_Some.
    + destruct (Hn _ _ Hi) as (n & v' & E & Hsh & Hf'). pose proof (lookup_lt_Some _ _ _ Hi) as Hlt.
      eexists _, v'. split; [by apply grown_old|]. rewrite take_app_le by lia. split; [|done].
      case_decide as E2; [|done]. subst p. rewrite Hp in E. injection E as ->. done.
    + apply list_lookup_singleton_Some in Hi2 as [Hi2 <-]. assert (i = length ds) as -> by lia.
      eexists _, (inode_of p). rewrite <- Hl, grown_new. split; [done|]. rewrite Hl. cbn [take].
      split; [|by rewrite take_app_length].
      unfold shows, node_of. cbn. split_and!; [done| |done|done|done|done]. unfold inode_of. rewrite wrap_small; unfold len in *; lia.
Qed.

Lemma build_nodes_spec now ds rest l m :
  built now ds l -> mapped ds m -> len ds + len rest + 1 < 2 ^ 33 ->
  exists r, build_nodes now rest l m = Some r
    /\ match r with Ok l' => built now (ds ++ rest) l' | Err _ => True end
    /\ (Forall (fun d => is_Some (file_name (fd_name d))) rest -> exists l', r = Ok l').
Proof.
  revert ds l m. induction rest as [|d rest IH]; intros ds l m Hb Hm Hlen.
  { exists (Ok l). split_and!; [done|by rewrite app_nil_r|by exists l]. }
  cbn [build_nodes]. pose proof (mapped_folder ds m d Hm) as Hf.
  set (v := match parent_components (fd_name d) with Some p => default FUSE_ROOT_ID (m !! p) | None => FUSE_ROOT_ID end) in *.
  destruct (folder_node _ _ _ _ _ Hb Hf) as (p & n & Hv & Hp & Hn & Hdir). rewrite Hv.
  pose proof Hb as [_ Hl _ _]. rewrite (node_at_inode l p n (folder_lt _ _ _ Hb) Hn).
  destruct (file_name (fd_name d)) as [s|] eqn:Hs.
  2: { eexists. split; [reflexivity|]. split; [done|]. intros Hall. inversion Hall as [|? ? [? E]]. congruence. }
  assert (Hlr : len (d :: rest) = len rest + 1) by (unfold len; cbn; lia). pose proof (len_nonneg rest).
  pose proof (build_step now ds l d s v p n Hb ltac:(lia) Hs Hf Hv Hn Hdir) as Hb'.
  pose proof (mapped_snoc ds m d s Hm Hs) as Hm'.
  destruct (IH _ _ _ Hb' Hm') as (r & E & Hr & Hall).
  { unfold len in *. rewrite length_app. cbn. lia. }
  exists r. split; [|split].
  - rewrite <- E. unfold grown. rewrite Hv. unfold inode_of, FUSE_ROOT_ID, len.
    replace (Z.to_nat (Z.of_nat p + 1 - 1)) with p by lia. rewrite Hl.
    replace (Z.of_nat (S (length ds)) + 1) with (Z.of_nat (length ds) + 2) by lia. done.
  - destruct r; [|done]. by rewrite <- app_assoc in Hr.
  - intros Hall'. inversion Hall'. auto.
Qed.

Lemma build_tree_spec now ds : len ds + 1 < 2 ^ 33 ->
  exists r, build_tree now ds = Some r
    /\ match r with Ok l => built now ds l | Err _ => True end
    /\ (Forall (fun d => is_Some (file_name (fd_name d))) ds -> exists l, r = Ok l).
Proof.
  intros Hlen. apply (build_nodes_spec now [] ds).
  - split; [|done|by eexists|done]. split.
    + unfold len. cbn. lia.
    + by eexists.
    + intros [|j] n; [|done]. injection 1 as <-. constructor.
    + intros [|j] n; [|done]. by injection 1 as <-.
    + done.
  - split.
    + by rewrite lookup_insert_eq.
    + intros cs v. rewrite lookup_insert_Some, lookup_singleton_Some. intros [[<- <-]|[_ [<- <-]]]; auto.
    + done.
  - unfold len in *. cbn in *. lia.
Qed.

(** Loading a list. *)
Lemma load_total now ds s : len ds < 2 ^ 32 ->
  exists r s', load_file_list now ds s = Some (RLoaded r, s')
    /\ match r with Ok _ => built now ds (files s') /\ file_handle_counter s' = file_handle_counter s | Err _ => s' = s end
    /\ (Forall (fun d => is_Some (file_name (fd_name d))) ds -> r = Ok tt).
Proof.
  intros Hl. unfold load_file_list. destruct (build_tree_spec now ds) as (r & -> & Hr & Hok); [lia|].
  destruct r as [l|e]; eexists _, _; (split; [reflexivity|]); split; try done. by intros [? [=]]%Hok.
Qed.

(** ** Files are where their paths say *)

(** The [p]-th node's path: none for the root. *)
Definition place (ds : list FileDescription) (p : nat) : option (list Component) :=
  match p with O => Some [] | S j => (fun d => components (fd_name d)) <$> ds !! j end.

Definition name_fits (s : string) : Prop := Z.of_nat (String.length s) <= MAX_NAME_LEN.

(** What a list has that describes copied folders: plain paths, each once, folders first. *)
Record well_listed (ds : list FileDescription) : Prop := {
  wl_names i d : ds !! i = Some d ->
    exists cs x, components (fd_name d) = (Normal <$> cs) ++ [Normal x] /\ name_fits x;
  wl_distinct i j d d' : ds !! i = Some d -> ds !! j = Some d' -> components (fd_name d) = components (fd_name d') -> i = j;
  wl_folders i d cs x : ds !! i = Some d -> components (fd_name d) = cs ++ [x] -> cs <> [] ->
    exists j d', (j < i)%nat /\ ds !! j = Some d' /\ fd_kind d' = KDirectory /\ components (fd_name d') = cs }.

Lemma place_unique ds p q cs : well_listed ds -> place ds p = Some cs -> place ds q = Some cs -> p = q.
Proof.
  intros Hw Hp Hq. destruct p as [|p], q as [|q]; cbn in *; [done| | |].
  - injection Hp as <-. apply fmap_Some in Hq as (d & Hd & E). destruct (wl_names _ Hw _ _ Hd) as (? & ? & Ec & _).
    rewrite Ec in E. by destruct (Normal <$> x).
  - injection Hq as <-. apply fmap_Some in Hp as (d & Hd & E). destruct (wl_names _ Hw _ _ Hd) as (? & ? & Ec & _).
    rewrite Ec in E. by destruct (Normal <$> x).
  - apply fmap_Some in Hp as (d & Hd & ->). apply fmap_Some in Hq as (d' & Hd' & E). f_equal. by eapply (wl_distinct _ Hw).
Qed.

(** A node's parent is the node of the folder of its path. *)
Lemma parent_place ds i d v cs x : well_listed ds -> ds !! i = Some d -> components (fd_name d) = cs ++ [Normal x] ->
  folder (take i ds) d v -> exists p, v = inode_of p /\ place ds p = Some cs.
Proof.
  intros Hw Hi Hc. unfold folder, parent_components. rewrite Hc, last_snoc, removelast_last.
  assert (Hnil : cs = [] -> v = FUSE_ROOT_ID -> exists p, v = inode_of p /\ place ds p = Some cs).
  { intros -> ->. by exists 0%nat. }
  intros [[-> [->|Hno]]|[[-> ->]|(j & d' & Hj & _ & <- & ->)]].
  - by exists 0%nat.
  - destruct (decide (cs = [])) as [->|Hne]; [by exists 0%nat|]. exfalso.
    destruct (wl_folders _ Hw _ _ _ _ Hi Hc Hne) as (j & d' & Hj & Hd & Hk & E). eapply (Hno j d'); [|done|done].
    by rewrite lookup_take_lt.
  - destruct (wl_names _ Hw _ _ Hi) as (cs' & x' & E & _). rewrite Hc in E. apply app_inj_tail in E as [E _].
    by destruct cs' as [|? []].
  - exists (S j). split; [done|]. cbn. apply lookup_take_Some in Hj as [-> _]. done.
Qed.

(** The children of a node, and the search among them. *)
Lemma find_child_some l name cs m : find_child l name cs = Some (Some m) ->
  exists c, c ∈ cs /\ node_at c l = Some m /\ n_name m = name.
Proof.
  induction cs as [|c cs IH]; cbn; [done|]. destruct (node_at c l) as [n|] eqn:E; [|done].
  destruct (String.eqb_spec (n_name n) name).
  - intros [= ->]. exists c. split_and!; [set_solver|done|done].
  - intros (c' & ? & ?)%IH. exists c'. split; [set_solver|done].
Qed.

Lemma find_child_none l name cs c m : find_child l name cs = Some None -> c ∈ cs -> node_at c l = Some m -> n_name m <> name.
Proof.
  induction cs as [|c' cs IH]; cbn; [set_solver|]. destruct (node_at c' l) as [n|] eqn:E; [|done].
  destruct (String.eqb_spec (n_name n) name) as [|Hne]; [done|]. intros Hf [->|Hc]%elem_of_cons Hm; [congruence|by eapply IH].
Qed.

Lemma children_total l name cs : Forall (fun c => is_Some (node_at c l)) cs -> exists r, find_child l name cs = Some r.
Proof. induction 1 as [|c cs [n Hn] _ IH]; cbn; [by eexists|]. rewrite Hn. case_match; [by eexists|done]. Qed.

Lemma file_name_place p cs x : components p = cs ++ [Normal x] -> file_name p = Some x.
Proof. unfold file_name. intros ->. by rewrite last_snoc. Qed.

(** A child's path is its folder's and its name; and each such path is that of a child. *)
Lemma child_place now ds l p cs k n : built now ds l -> well_listed ds -> place ds p = Some cs ->
  l !! k = Some n -> n_parent n = Some (inode_of p) -> place ds k = Some (cs ++ [Normal (n_name n)]).
Proof.
  intros [Ht Hl [rc Hroot] Hnodes] Hw Hp Hk Hpar. destruct k as [|k]; [rewrite Hroot in Hk; by injection Hk as <-|].
  destruct (lookup_lt_is_Some_2 ds k) as [d Hdk]; [apply lookup_lt_Some in Hk; lia|].
  destruct (Hnodes _ _ Hdk) as (n2 & v2 & E2 & (_ & _ & Hpv & Hfn & _) & Hf). rewrite Hk in E2. injection E2 as <-.
  destruct (wl_names _ Hw _ _ Hdk) as (cs' & x & Hcx & _). destruct (parent_place _ _ _ _ _ _ Hw Hdk Hcx Hf) as (q & Hq & Hpq).
  rewrite Hpar in Hpv. injection Hpv as Hpv. assert (q = p) as -> by (unfold inode_of in *; lia).
  rewrite Hpq in Hp. injection Hp as <-. cbn. rewrite Hdk. cbn. rewrite Hcx. rewrite (file_name_place _ _ _ Hcx) in Hfn. congruence.
Qed.

Lemma place_child now ds l p cs k name : built now ds l -> well_listed ds -> place ds p = Some cs ->
  place ds k = Some (cs ++ [Normal name]) -> exists n, l !! k = Some n /\ n_parent n = Some (inode_of p) /\ n_name n = name.
Proof.
  intros [Ht Hl _ Hnodes] Hw Hp Hk. destruct k as [|k]; [cbn in Hk; by destruct cs|].
  cbn in Hk. apply fmap_Some in Hk as (d & Hdk & Hcx).
  destruct (Hnodes _ _ Hdk) as (n & v & E & (_ & _ & Hpv & Hfn & _) & Hf). exists n. split; [done|].
  destruct (parent_place _ _ _ _ _ _ Hw Hdk (eq_sym Hcx) Hf) as (q & -> & Hpq).
  pose proof (place_unique _ _ _ _ Hw Hpq Hp) as ->. rewrite (file_name_place _ _ _ (eq_sym Hcx)) in Hfn. split; congruence.
Qed.

Lemma place_node now ds l p cs : built now ds l -> place ds p = Some cs -> exists m, l !! p = Some m.
Proof.
  intros [Ht Hl _ _] Hp. apply lookup_lt_is_Some_2. destruct p as [|j]; [lia|]. cbn in Hp.
  apply fmap_Some in Hp as (d & Hd & _). apply lookup_lt_Some in Hd. lia.
Qed.

(** One step down the tree. *)
Lemma step_down now ds s p cs name v :
  built now ds (files s) -> well_listed ds -> place ds p = Some cs -> name_fits name ->
  (exists a g, lookup (inode_of p) name s = Some (REntry a g) /\ fa_ino a = v)
  <-> exists k, v = inode_of k /\ place ds k = Some (cs ++ [Normal name]).
Proof.
  intros Hb Hw Hp Hn. pose proof Hb as [Ht _ _ _]. pose proof (tk_small _ Ht) as Hsm.
  unfold lookup. unfold name_fits in Hn. destruct (Z.ltb_spec MAX_NAME_LEN (Z.of_nat (String.length name))); [lia|].
  destruct (place_node _ _ _ _ _ Hb Hp) as [m Hm]. rewrite (node_at_inode _ _ _ Hsm Hm).
  pose proof (tk_children _ Ht _ _ Hm) as Hch.
  destruct (children_total (files s) name (n_children m)) as [r Hr].
  { eapply Forall_impl; [done|]. intros c (k & m' & -> & _ & Hk & _). exists m'. by apply node_at_inode. }
  rewrite Forall_forall in Hch. rewrite Hr. split.
  - destruct (negb _); [by intros (? & ? & [=] & _)|]. destruct r as [n|]; [|by intros (? & ? & [=] & _)].
    intros (a & g & [= <- <-] & <-). apply find_child_some in Hr as (c & Hc & Hcn & <-).
    destruct (Hch _ Hc) as (k & n' & -> & _ & Hk & Hpar). rewrite (node_at_inode _ _ _ Hsm Hk) in Hcn. injection Hcn as ->.
    exists k. split; [by apply (tk_inode _ Ht)|]. by eapply child_place.
  - intros (k & -> & Hk). destruct (place_child _ _ _ _ _ _ _ Hb Hw Hp Hk) as (n & E & Hpar & Hname).
    destruct k as [|k]; [cbn in Hk; by destruct cs|].
    destruct (tk_parent _ Ht _ _ E) as (q & m' & Hq & _ & Hm' & Hdir & Hin). rewrite Hpar in Hq.
    assert (q = p) as -> by (unfold inode_of in *; injection Hq; lia). rewrite Hm in Hm'. injection Hm' as <-.
    unfold is_directory in Hdir. rewrite bool_decide_true by done. cbn [negb]. destruct r as [n2|].
    2: { exfalso. eapply find_child_none; [done|done|by apply node_at_inode|done]. }
    eexists _, _. split; [done|]. apply find_child_some in Hr as (c & Hc & Hcn & Hname2).
    destruct (Hch _ Hc) as (k2 & n3 & -> & _ & Hk2 & Hpar2). rewrite (node_at_inode _ _ _ Hsm Hk2) in Hcn. injection Hcn as ->.
    cbn. rewrite (tk_inode _ Ht _ _ Hk2). f_equal. eapply place_unique; [done| |done].
    rewrite (child_place _ _ _ _ _ _ _ Hb Hw Hp Hk2 Hpar2). by rewrite Hname2.
Qed.

(** The inode at the end of a path, one name after the other, as the kernel asks for it. *)
Fixpoint walk (names : list string) (ino : Z) (s : FuseServer) : option Z :=
  match names with
  | [] => Some ino
  | n :: ns => match lookup ino n s with Some (REntry a _) => walk ns (fa_ino a) s | _ => None end
  end.

Lemma walk_snoc ns n ino s : walk (ns ++ [n]) ino s = i ← walk ns ino s; walk [n] i s.
Proof. revert ino. induction ns as [|m ns IH]; intros ino; [done|]. cbn. destruct (lookup ino m s) as [[]|]; done || apply IH. Qed.

Lemma walk_spec now ds s ns v :
  built now ds (files s) -> well_listed ds -> Forall name_fits ns ->
  walk ns FUSE_ROOT_ID s = Some v <-> exists k, v = inode_of k /\ place ds k = Some (Normal <$> ns).
Proof.
  intros Hb Hw. revert v. induction ns as [|n ns IH] using rev_ind; intros v Hns.
  - cbn. split; [intros [= <-]; by exists 0%nat|]. intros (k & -> & Hk).
    by assert (k = 0%nat) as -> by (by eapply (place_unique ds)).
  - apply Forall_app in Hns as [Hns Hn]. apply (Forall_singleton name_fits) in Hn. rewrite walk_snoc, fmap_app. split.
    + intros (i & Hi & Hv)%bind_Some. apply IH in Hi as (p & -> & Hp); [|done]. cbn [walk] in Hv.
      destruct (lookup (inode_of p) n s) as [[]|] eqn:E; try done. injection Hv as <-.
      apply (step_down now ds s p (Normal <$> ns) n (fa_ino attr) Hb Hw Hp Hn). by eexists _, _.
    + intros (k & -> & Hk). destruct k as [|k]; [cbn in Hk; by destruct (Normal <$> ns)|]. pose proof Hk as Hk'. cbn in Hk'.
      apply fmap_Some in Hk' as (d & Hd & Hc).
      assert (exists p, place ds p = Some (Normal <$> ns)) as [p Hp].
      { destruct (decide (ns = [])) as [->|Hne]; [by exists 0%nat|].
        destruct (wl_folders _ Hw _ _ (Normal <$> ns) (Normal n) Hd) as (j & d' & _ & Hj & _ & <-); [by rewrite <- Hc| |].
        - by intros ?%fmap_nil_inv.
        - exists (S j). cbn. by rewrite Hj. }
      apply bind_Some. exists (inode_of p). split; [apply IH; [done|by exists p]|].
      destruct (proj2 (step_down now ds s p _ n (inode_of (S k)) Hb Hw Hp Hn)) as (a & g & E & Ha); [by exists (S k)|].
      cbn. by rewrite E, Ha.
Qed.

(** C9: Paths.  When the peer's list describes plain paths, each once and folders before what
    is in them, it is accepted, and the mounted files are exactly the described ones: going
    down a path from the mount point, name by name, arrives at the inode of the description
    with this path, when there is one, and nowhere otherwise; and this inode has the kind, the
    size, the time and the permissions of the description. *)
Theorem files_are_where_described now ds s :
  well_listed ds -> len ds < 2 ^ 32 ->
  exists s', load_file_list now ds s = Some (RLoaded (Ok tt), s')
    /\ (forall ns v, Forall name_fits ns -> walk ns FUSE_ROOT_ID s' = Some v <->
          (ns = [] /\ v = FUSE_ROOT_ID) \/ exists i d, ds !! i = Some d /\ components (fd_name d) = Normal <$> ns /\ v = Z.of_nat i + 2)
    /\ forall i d, ds !! i = Some d -> getattr (Z.of_nat i + 2) s' = RAttr (file_attr (from_description now (Z.of_nat i + 2) d)).
Proof.
  intros Hw Hl. destruct (load_total now ds s Hl) as (r & s' & E & Hr & Hok).
  rewrite Hok in *; clear Hok.
  2,3: apply Forall_lookup; intros i d Hd; destruct (wl_names _ Hw _ _ Hd) as (cs & x & Hc & _);
    exists x; by eapply file_name_place.
  destruct Hr as [Hr _]. exists s'. split; [done|].
  assert (Hi2 : forall i, Z.of_nat i + 2 = inode_of (S i)) by (intros; unfold inode_of; lia). split.
  - intros ns v Hns. rewrite (walk_spec now ds) by done. split.
    + intros ([|k] & -> & Hk); cbn in Hk; [left; split; [|done]; by destruct ns|].
      right. apply fmap_Some in Hk as (d & Hd & Hc). exists k, d. by rewrite Hi2.
    + intros [[-> ->]|(i & d & Hd & Hc & ->)]; [by exists 0%nat|]. exists (S i). rewrite Hi2. split; [done|]. cbn. by rewrite Hd, <- Hc.
  - intros i d Hd. destruct (bt_nodes _ _ _ Hr _ _ Hd) as (n & v & En & (_ & _ & _ & _ & Ha & _) & _).
    unfold getattr. rewrite Hi2, (node_at_inode _ _ _ (folder_lt _ _ _ Hr) En). by rewrite Ha.
Qed.

(** *** Names *)

(** A name that denotes an entry directly below a folder. *)
Definition plain_name (s : string) : Prop := s <> "" /\ s <> "." /\ s <> ".." /\ has_slash s = false.

Lemma component_plain p s : Normal s ∈ components p -> plain_name s.
Proof.
  assert (Hseg : forall l, Forall (fun s => has_slash s = false) l -> Normal s ∈ omap seg_component l -> plain_name s).
  { intros l Hl (t & Ht & Hs)%list_elem_of_omap. rewrite Forall_forall in Hl. specialize (Hl _ Ht). unfold seg_component in Hs.
    destruct (String.eqb_spec t ""), (String.eqb_spec t "."), (String.eqb_spec t ".."); try done. by injection Hs as <-. }
  pose proof (split_on_segs p) as Hp. unfold components. destruct (starts_with_char SLASH p).
  - intros [|Hs]%elem_of_cons; [done|by eapply Hseg].
  - destruct (split_on SLASH p) as [|t l] eqn:E; [by intros ?%elem_of_nil|]. inversion Hp; subst.
    intros Hs. assert (Normal s ∈ omap seg_component (t :: l) \/ Normal s ∈ CurDir :: omap seg_component l) as [Hs'|Hs'].
    { revert Hs. repeat case_match; auto. }
    + exact (Hseg _ Hp Hs').
    + apply elem_of_cons in Hs' as [|Hs']; [done|]. by eapply Hseg.
Qed.

Lemma file_name_plain p s : file_name p = Some s -> plain_name s.
Proof. intros (cs & E)%file_name_some. apply (component_plain p). rewrite E. set_solver. Qed.

Lemma no_slash_start s : has_slash s = false -> starts_with_char SLASH s = false.
Proof.
  destruct s as [|a s]; [done|]. change (has_slash (String a s)) with (Ascii.eqb SLASH a || has_slash s).
  intros [Ha _]%orb_false_iff. cbn [starts_with_char]. by rewrite Ascii.eqb_sym.
Qed.

Lemma plain_key p s : plain_name s -> key (path_join p s) = key p ++ [s].
Proof.
  intros (H1 & H2 & H3 & H4). rewrite key_path_join by by apply no_slash_start.
  f_equal. rewrite key_segments, split_on_no_slash by done. unfold root_key. rewrite (no_slash_start s H4).
  cbn [app omap list_omap]. unfold seg_key. by destruct (String.eqb_spec s ""), (String.eqb_spec s ".").
Qed.

(** The names at the root are plain. *)
Lemma root_names now ds s : built now ds (files s) ->
  exists names, list_root s = Some names /\ Forall plain_name names.
Proof.
  intros [Ht Hl _ Hn]. destruct (tk_root _ Ht) as (r & Hr & _). unfold list_root. destruct (files s) as [|r' l] eqn:E; [done|].
  injection Hr as ->. pose proof (tk_children _ Ht 0%nat r eq_refl) as Hch. clear E.
  induction Hch as [|c cs (k & m & -> & Hk & Hm & _) _ (names & Hnames & Hall)]; [by exists []|].
  cbn. rewrite (node_at_inode _ _ _ (tk_small _ Ht) Hm). cbn in *.
  apply bind_Some in Hnames as (es & He & [= <-]). rewrite He. cbn. eexists. split; [reflexivity|]. cbn. constructor; [|done].
  destruct k as [|k]; [exfalso; exact (Nat.lt_irrefl _ Hk)|].
  destruct (lookup_lt_is_Some_2 ds k) as [d Hd].
  { apply lookup_lt_Some in Hm. cbn in *. lia. }
  change (l !! k = Some m) in Hm.
  destruct (Hn _ _ Hd) as (n2 & v2 & E2 & (_ & _ & _ & Hfn & _) & _). pose proof (eq_trans (eq_sym Hm) E2) as Heq.
  injection Heq as <-. by eapply file_name_plain.
Qed.

Lemma files_are_where_described_witness :
  exists s', load_file_list 5 [mkDescription 4 "d" KDirectory 0 0 0 0 0 493; mkDescription 4 "d/f" KFile 7 7 7 7 12 420] new_server = Some (RLoaded (Ok tt), s')
    /\ walk ["d"; "f"] FUSE_ROOT_ID s' = Some 3 /\ walk ["f"] FUSE_ROOT_ID s' = None.
Proof.
  destruct (files_are_where_described 5 [mkDescription 4 "d" KDirectory 0 0 0 0 0 493; mkDescription 4 "d/f" KFile 7 7 7 7 12 420] new_server)
    as (s' & E & Hw & _).
  - split.
    + intros [|[|i]] d; cbn; [injection 1 as <-; by exists [], "d"|injection 1 as <-; by exists ["d"], "f"|done].
    + intros [|[|i]] [|[|j]] d d'; cbn; try done; intros [= <-] [= <-]; vm_compute; congruence.
    + intros [|[|i]] d cs x; cbn; [| |done]; intros [= <-].
      * intros Hc. change ([] ++ [Normal "d"] = cs ++ [x]) in Hc. apply app_inj_tail in Hc as [<- _]. done.
      * intros Hc _. change ([Normal "d"] ++ [Normal "f"] = cs ++ [x]) in Hc. apply app_inj_tail in Hc as [<- _].
        exists 0%nat. eexists. split; [lia|]. split; [reflexivity|]. split; reflexivity.
  - reflexivity.
  - exists s'. split; [exact E|]. split.
    + apply Hw; [repeat constructor; vm_compute; congruence|]. right. exists 1%nat. eexists. split; [reflexivity|]. split; reflexivity.
    + destruct (walk ["f"] FUSE_ROOT_ID s') as [v|] eqn:Ew; [|reflexivity]. apply Hw in Ew; [|repeat constructor; vm_compute; congruence].
      destruct Ew as [[[=] _]|([|[|i]] & d & Hd & Hc & _)]; cbn in Hd; try discriminate; injection Hd as <-; vm_compute in Hc; discriminate.
Defined.
