(* ===== verification/ClipHandles.v ===== *)
(** * Open files of the pasted file system

    Each node keeps the handles it gave out in a vector and looks them up by bisection; the
    numbers come from a counter.  Seen from outside that is one table from handles to inodes:
    [handles_are_a_table].  It also shows that the server never panics. *)

From S2P Require Import Prelude OsFs ClipDescr ClipServe ClipFuse ClipTree.
From Stdlib Require Import Sorted.

(** ** Bisection *)

Definition rising (l : list Z) : Prop := forall i j x y, l !! i = Some x -> l !! j = Some y -> (i < j)%nat -> x < y.

Lemma rising_index l i j x : rising l -> l !! i = Some x -> l !! j = Some x -> i = j.
Proof.
  intros Hl Hi Hj. destruct (Nat.lt_trichotomy i j) as [H|[H|H]]; [|done|].
  - specialize (Hl _ _ _ _ Hi Hj H). lia.
  - specialize (Hl _ _ _ _ Hj Hi H). lia.
Qed.

Lemma bisect_finds l x k fuel base size :
  rising l -> l !! k = Some x -> (base <= k < base + size)%nat -> (size <= S fuel)%nat -> bisect fuel l x base size = k.
Proof.
  intros Hl Hk. revert base size. induction fuel as [|fuel IH]; intros base size Hb Hf; cbn [bisect]; [lia|].
  destruct (Nat.leb_spec size 1); [lia|].
  pose proof (Nat.div_mod_eq size 2) as Hd. pose proof (Nat.mod_upper_bound size 2).
  set (half := (size / 2)%nat) in *. destruct (l !! (base + half)%nat) as [y|] eqn:Ey.
  - destruct (Z.ltb_spec x y) as [Hxy|Hxy]; apply IH; try lia.
    + assert (k < base + half)%nat; [|lia]. apply Nat.nle_gt. intros Hle.
      destruct (decide (k = base + half)%nat) as [->|]; [rewrite Hk in Ey; injection Ey as ->; lia|].
      assert (y < x) by (eapply (Hl (base + half)%nat k); [done|done|lia]). lia.
    + assert (base + half <= k)%nat; [|lia]. apply Nat.nlt_ge. intros Hlt.
      assert (x < y) by (eapply (Hl k (base + half)%nat); done). lia.
  - apply lookup_ge_None in Ey. apply lookup_lt_Some in Hk. apply IH; lia.
Qed.

Lemma binary_search_spec l x i : rising l -> binary_search l x = Some i <-> l !! i = Some x.
Proof.
  intros Hl. unfold binary_search. destruct l as [|z l']; [by split; [done|rewrite lookup_nil]|]. set (l := z :: l') in *. split.
  - destruct (l !! bisect _ _ _ _ _) as [y|] eqn:E; [|done]. destruct (Z.eqb_spec x y) as [->|]; [|done]. by intros [= <-].
  - intros Hi. rewrite (bisect_finds l x i) by (try done; apply lookup_lt_Some in Hi; lia). by rewrite Hi, Z.eqb_refl.
Qed.

Lemma have_handler_spec fh h : rising (handlers h) -> have_handler fh h = true <-> fh ∈ handlers h.
Proof.
  intros Hl. unfold have_handler. destruct (binary_search (handlers h) fh) as [i|] eqn:E.
  - apply binary_search_spec in E; [|done]. split; [|done]. intros _. by eapply list_elem_of_lookup_2.
  - split; [done|]. intros [i Hi]%list_elem_of_lookup_1. apply binary_search_spec in Hi; [|done]. congruence.
Qed.

Lemma rising_snoc l x : rising l -> Forall (fun y => y < x) l -> rising (l ++ [x]).
Proof.
  intros Hl Hx i j y z Hi Hj Hij. apply lookup_app_Some in Hj as [Hj|[Hj1 Hj2]].
  - apply lookup_app_Some in Hi as [Hi|[Hi1 _]]; [by eapply Hl|]. apply lookup_lt_Some in Hj. lia.
  - apply list_lookup_singleton_Some in Hj2 as [Hj2 <-]. rewrite lookup_app_l in Hi by lia.
    rewrite Forall_lookup in Hx. by eapply Hx.
Qed.

Lemma lookup_delete_case {A} (l : list A) i j : delete i l !! j = if (j <? i)%nat then l !! j else l !! S j.
Proof. destruct (Nat.ltb_spec j i); [by apply list_lookup_delete_lt|by apply list_lookup_delete_ge]. Qed.

Lemma rising_delete l i : rising l -> rising (delete i l).
Proof.
  intros Hl j k x y. rewrite !lookup_delete_case. destruct (Nat.ltb_spec j i), (Nat.ltb_spec k i); intros; eapply Hl; try done; lia.
Qed.

Lemma elem_delete l i x y : rising l -> l !! i = Some x -> y ∈ delete i l <-> y ∈ l /\ y <> x.
Proof.
  intros Hl Hi. rewrite !list_elem_of_lookup. split.
  - intros [j Hj]. rewrite lookup_delete_case in Hj. destruct (Nat.ltb_spec j i).
    + split; [by eexists|]. intros ->. pose proof (rising_index _ _ _ _ Hl Hi Hj). lia.
    + split; [by eexists|]. intros ->. pose proof (rising_index _ _ _ _ Hl Hi Hj). lia.
  - intros [[j Hj] Hne]. destruct (Nat.lt_trichotomy j i) as [H|[->|H]].
    + exists j. rewrite lookup_delete_case. by destruct (Nat.ltb_spec j i); [|lia].
    + congruence.
    + exists (pred j). rewrite lookup_delete_case. destruct (Nat.ltb_spec (pred j) i); [lia|]. by rewrite Nat.succ_pred by lia.
Qed.

(** ** The invariant *)

Record handles_ok (counter : Z) (h : FileHandles) : Prop := {
  ho_gc : gc h = false;
  ho_rising : rising (handlers h);
  ho_range : Forall (fun fh => 0 <= fh < counter) (handlers h) }.

Record server_ok (s : FuseServer) : Prop := {
  so_counter : 0 <= file_handle_counter s;
  so_tree : files s = [] \/ tree_ok (files s);
  so_handles : Forall (fun n => handles_ok (file_handle_counter s) (n_handles n)) (files s) }.

(** The table: which inode a handle is for, [None] once it is closed; handles that were
    never given out are not in it. *)
Abbreviation Table := (gmap Z (option Z)).

Definition is_for (T : Table) (fh ino : Z) : Prop := T !! fh = Some (Some ino).

#[export] Instance is_for_dec T fh ino : Decision (is_for T fh ino).
Proof. unfold is_for. apply _. Defined.

Record table_of (T : Table) (s : FuseServer) : Prop := {
  to_node j n fh : files s !! j = Some n -> fh ∈ handlers (n_handles n) <-> is_for T fh (inode_of j);
  to_inode fh ino : is_for T fh ino -> exists j n, ino = inode_of j /\ files s !! j = Some n;
  to_given fh : is_Some (T !! fh) -> fh < file_handle_counter s }.

(** What an operation does to the table, as its reply tells. *)
Definition table_step (o : Op) (r : Reply) (T : Table) : Table :=
  match o, r with
  | Load _ _, RLoaded (Ok _) => (fun _ => None) <$> T
  | Opendir ino, ROpened fh | Open ino, ROpened fh => <[fh := Some ino]> T
  | Releasedir _ fh, ROk | Release _ fh, ROk => <[fh := None]> T
  | _, _ => T
  end.

(** The answers that the table decides. *)
Definition reply_fits (o : Op) (T : Table) (r : Reply) : Prop :=
  match o with
  | Opendir _ | Open _ => match r with ROpened fh => T !! fh = None | _ => True end
  | Readdir ino fh _ => match r with RDirectory _ => is_for T fh ino | RError EBADF => ~ is_for T fh ino | _ => True end
  | Read ino fh _ _ _ _ _ => match r with RData _ => is_for T fh ino | RError EBADF => ~ is_for T fh ino | _ => True end
  | Releasedir ino fh | Release ino fh => match r with ROk => is_for T fh ino | RError EBADF => ~ is_for T fh ino | _ => True end
  | _ => True
  end.

(** What the kernel can ask: inodes are 64 bits wide, and a list came in one message. *)
Definition askable (o : Op) : Prop :=
  match o with
  | Load _ ds => len ds < 2 ^ 32
  | Lookup ino _ | Opendir ino | Readdir ino _ _ | Releasedir ino _ | Open ino | Read ino _ _ _ _ _ _ | Release ino _ | Getattr ino =>
      0 <= ino < 2 ^ 64
  | Init _ | Statfs => True
  end.

(** *** Nodes *)

Lemma find_node s ino n : server_ok s -> 0 <= ino < 2 ^ 64 -> node_at ino (files s) = Some n ->
  exists j, ino = inode_of j /\ Z.to_nat (as_u64 (ino - 1)) = j /\ files s !! j = Some n /\ handles_ok (file_handle_counter s) (n_handles n) /\ tree_ok (files s).
Proof.
  intros [_ [Ht|Ht] Hh] Hi Hn; apply node_at_some in Hn as (j & Hj & Hjn); [by rewrite Ht in Hjn|].
  exists j. rewrite Forall_lookup in Hh. split_and!; [|lia|done|by eapply Hh|done].
  pose proof (lookup_lt_Some _ _ _ Hjn). pose proof (tk_small _ Ht). unfold inode_of, len in *.
  destruct (decide (ino = 0)) as [->|].
  - assert (E : as_u64 (0 - 1) = 2 ^ 64 - 1) by done. lia.
  - rewrite wrap_small in Hj by lia. lia.
Qed.

Lemma counter_grows c c' h : c <= c' -> handles_ok c h -> handles_ok c' h.
Proof. intros Hc [H1 H2 H3]. split; [done..|]. eapply Forall_impl; [done|]. cbn. lia. Qed.

(** One node gets other handles. *)
Lemma set_handles_ok s j n h c :
  server_ok s -> files s !! j = Some n -> tree_ok (files s) -> file_handle_counter s <= c -> handles_ok c h ->
  server_ok (mkServer (generation s) (alter (with_handles h) j (files s)) c).
Proof.
  intros [Hc _ Hh] Hj Ht Hle Ho. split; cbn.
  - lia.
  - right. eapply shape_tree; [apply alter_shape|done].
  - apply Forall_lookup. intros k m Hk. rewrite Forall_lookup in Hh. destruct (decide (k = j)) as [->|Hne].
    + rewrite list_lookup_alter_eq, Hj in Hk. by injection Hk as <-.
    + rewrite list_lookup_alter_ne in Hk by done. eapply counter_grows; [done|by eapply Hh].
Qed.

Lemma alter_table T T' s j n h c :
  table_of T s -> files s !! j = Some n ->
  (forall fh, fh ∈ handlers h <-> is_for T' fh (inode_of j)) ->
  (forall fh ino, ino <> inode_of j -> is_for T' fh ino <-> is_for T fh ino) ->
  (forall fh, is_Some (T' !! fh) -> fh < c) ->
  table_of T' (mkServer (generation s) (alter (with_handles h) j (files s)) c).
Proof.
  intros [H1 H2 _] Hj Hh Hother Hgiven. split; cbn; [| |done].
  - intros k m fh Hk. destruct (decide (k = j)) as [->|Hne].
    + rewrite list_lookup_alter_eq, Hj in Hk. injection Hk as <-. apply Hh.
    + rewrite list_lookup_alter_ne in Hk by done. rewrite Hother by (unfold inode_of; lia). by apply H1.
  - intros fh ino Hf. destruct (decide (ino = inode_of j)) as [->|Hne].
    + exists j, (with_handles h n). by rewrite list_lookup_alter_eq, Hj.
    + apply Hother in Hf; [|done]. destruct (H2 _ _ Hf) as (k & m & -> & Hk). exists k, m.
      rewrite list_lookup_alter_ne by (unfold inode_of in Hne; intros ->; done). done.
Qed.

(** *** Operations *)

(** What a step keeps. *)
Definition kept (s s' : FuseServer) (T' : Table) : Prop :=
  server_ok s' /\ table_of T' s' /\ file_handle_counter s <= file_handle_counter s' <= file_handle_counter s + 1.

Lemma kept_same s T : server_ok s -> table_of T s -> kept s s T.
Proof. intros. split_and!; [done|done|lia|lia]. Qed.

Lemma open_node_kept kind wrong ino s T :
  server_ok s -> table_of T s -> 0 <= ino < 2 ^ 64 -> file_handle_counter s + 1 < 2 ^ 64 ->
  exists r s', open_node kind wrong ino s = Some (r, s')
    /\ match r with
       | ROpened fh => T !! fh = None /\ kept s s' (<[fh := Some ino]> T)
       | _ => kept s s' T
       end.
Proof.
  intros Hs Ht Hi Hc. unfold open_node. destruct (node_at ino (files s)) as [n|] eqn:En; [|eexists _, _; split; [done|by apply kept_same]].
  destruct (find_node _ _ _ Hs Hi En) as (j & -> & Hj & Hjn & [Hg Hr Hra] & Htree).
  destruct (negb _); [eexists _, _; split; [done|by apply kept_same]|]. rewrite Hg. unfold alloc_fd, add_handler. rewrite Hg.
  pose proof (so_counter _ Hs) as Hc0. cbn [mbind option_bind]. eexists _, _. split; [reflexivity|]. cbn.
  assert (Hnone : T !! file_handle_counter s = None).
  { destruct (T !! file_handle_counter s) as [x|] eqn:E; [|done]. pose proof (to_given _ _ Ht _ (mk_is_Some _ _ E)). lia. }
  split; [done|].
  unfold set_handles. cbn. rewrite Hj, wrap_small by lia. split_and!; cbn; [| |lia|lia].
  - eapply set_handles_ok; [done|done|done|lia|]. split; cbn; [done| |].
    + apply rising_snoc; [done|]. eapply Forall_impl; [done|]. cbn. lia.
    + apply Forall_app. split; [eapply Forall_impl; [done|]; cbn; lia|]. apply Forall_singleton. lia.
  - eapply alter_table; [done|done| | |].
    + intros fh. cbn. rewrite elem_of_app, list_elem_of_singleton, (to_node _ _ Ht _ _ _ Hjn). unfold is_for.
      rewrite lookup_insert_Some. naive_solver congruence.
    + intros fh ino Hne. unfold is_for. rewrite lookup_insert_Some. naive_solver congruence.
    + intros fh [x [[<- _]|[_ E]]%lookup_insert_Some]; [lia|]. pose proof (to_given _ _ Ht _ (mk_is_Some _ _ E)). lia.
Qed.

Lemma unregister_kept ino fh s T n :
  server_ok s -> table_of T s -> 0 <= ino < 2 ^ 64 -> node_at ino (files s) = Some n ->
  match unregister fh (n_handles n) with
  | Some h => is_for T fh ino /\ kept s (set_handles ino h s) (<[fh := None]> T)
  | None => ~ is_for T fh ino
  end.
Proof.
  intros Hs Ht Hi Hn. destruct (find_node _ _ _ Hs Hi Hn) as (j & -> & Hj & Hjn & [Hg Hr Hra] & Htree). unfold unregister.
  destruct (binary_search (handlers (n_handles n)) fh) as [i|] eqn:E; cbn [mbind option_bind].
  - apply binary_search_spec in E; [|done]. pose proof (list_elem_of_lookup_2 _ _ _ E) as Hel.
    apply (to_node _ _ Ht _ _ _ Hjn) in Hel as HT. split; [done|]. unfold set_handles. rewrite Hj. split_and!; cbn; [| |lia|lia].
    + eapply set_handles_ok; [done|done|done|lia|]. split; cbn; [done|by apply rising_delete|].
      rewrite Forall_forall in *. intros y [Hy _]%(elem_delete _ _ _ _ Hr E). auto.
    + eapply alter_table; [done|done| | |].
      * intros y. cbn. rewrite (elem_delete _ _ _ _ Hr E), (to_node _ _ Ht _ _ _ Hjn). unfold is_for.
        rewrite lookup_insert_Some. naive_solver.
      * intros y ino Hne. unfold is_for in *. rewrite lookup_insert_Some. naive_solver congruence.
      * intros y [x [[<- _]|[_ Ey]]%lookup_insert_Some]; [|by apply (to_given _ _ Ht); eexists].
        apply (to_given _ _ Ht). by eexists.
  - intros HT. apply (to_node _ _ Ht _ _ _ Hjn) in HT. apply list_elem_of_lookup_1 in HT as [i Hi'].
    apply binary_search_spec in Hi'; [|done]. congruence.
Qed.

Lemma have_table ino fh s T n :
  server_ok s -> table_of T s -> 0 <= ino < 2 ^ 64 -> node_at ino (files s) = Some n ->
  have_handler fh (n_handles n) = bool_decide (is_for T fh ino).
Proof.
  intros Hs Ht Hi Hn. destruct (find_node _ _ _ Hs Hi Hn) as (j & -> & Hj & Hjn & [Hg Hr Hra] & Htree).
  apply eq_true_iff_eq. rewrite have_handler_spec, bool_decide_eq_true by done. exact (to_node _ _ Ht _ _ _ Hjn).
Qed.

(** *** Children *)

Lemma child_found l j n c : tree_ok l -> l !! j = Some n -> c ∈ n_children n -> exists m, node_at c l = Some m.
Proof.
  intros Ht Hj Hc. pose proof (tk_children _ Ht _ _ Hj) as Hch. rewrite Forall_forall in Hch.
  destruct (Hch _ Hc) as (k & m & -> & _ & Hk & _). exists m. apply node_at_inode; [apply Ht|done].
Qed.

Lemma children_found l j n : tree_ok l -> l !! j = Some n ->
  forall cs, (forall c, c ∈ cs -> c ∈ n_children n) ->
  (exists es, child_entries l cs = Some es) /\ forall name, exists r, find_child l name cs = Some r.
Proof.
  intros Ht Hj. induction cs as [|c cs IH]; intros Hcs; [by split; [eexists|intros; eexists]|].
  destruct (child_found _ _ _ c Ht Hj) as [m Hm]; [apply Hcs; set_solver|].
  destruct IH as [[es He] Hf]; [set_solver|]. split.
  - cbn. rewrite Hm. cbn. rewrite He. by eexists.
  - intros name. cbn. rewrite Hm. case_match; [by eexists|]. apply Hf.
Qed.

Lemma lookup_total parent name s : server_ok s -> 0 <= parent < 2 ^ 64 -> exists r, lookup parent name s = Some r.
Proof.
  intros Hs Hp. unfold lookup. case_match; [by eexists|]. destruct (node_at parent (files s)) as [n|] eqn:En; [|by eexists].
  destruct (find_node _ _ _ Hs Hp En) as (j & -> & _ & Hj & _ & Ht). destruct (negb _); [by eexists|].
  destruct (proj2 (children_found _ _ _ Ht Hj (n_children n) ltac:(done)) name) as [[m|] ->]; by eexists.
Qed.

Lemma readdir_table fits ino fh off s T : server_ok s -> table_of T s -> 0 <= ino < 2 ^ 64 ->
  exists r, readdir fits ino fh off s = Some r /\ reply_fits (Readdir ino fh off) T r.
Proof.
  intros Hs Ht Hi. unfold readdir. destruct (node_at ino (files s)) as [n|] eqn:En; [|by eexists].
  rewrite (have_table _ _ _ _ _ Hs Ht Hi En). case_bool_decide as HT; cbn [negb]; [|by eexists].
  destruct (negb _); [by eexists|]. destruct (find_node _ _ _ Hs Hi En) as (j & -> & _ & Hj & _ & Htree).
  destruct (proj1 (children_found _ _ _ Htree Hj (n_children n) ltac:(done))) as [es He]. unfold dir_entries. rewrite He.
  cbn [mbind option_bind]. by eexists.
Qed.

Lemma read_table ino fh off size rid rx ch s T : server_ok s -> table_of T s -> 0 <= ino < 2 ^ 64 ->
  reply_fits (Read ino fh off size rid rx ch) T (fst (fst (read ino fh off size rid rx ch s))).
Proof.
  intros Hs Ht Hi. unfold read. destruct (node_at ino (files s)) as [n|] eqn:En; [|done].
  rewrite (have_table _ _ _ _ _ Hs Ht Hi En). case_bool_decide as HT; cbn [negb]; [|done].
  destruct (negb _); [done|]. destruct (gc _); [done|]. by destruct (read_node n rid off size rx ch) as [[[?|?] ?] ?].
Qed.

(** *** A step, a run *)

Lemma closed_table (T : Table) l c g :
  Forall (fun n => n_handles n = new_handles) l -> (forall fh, is_Some (T !! fh) -> fh < c) -> (forall fh ino, ~ is_for T fh ino) ->
  table_of T (mkServer g l c).
Proof.
  intros Hl Hg Hn. split; cbn; [|by intros fh ino ?%Hn|done]. intros j n fh Hj. rewrite Forall_lookup in Hl. rewrite (Hl _ _ Hj).
  cbn. split; [set_solver|by intros ?%Hn].
Qed.

Lemma load_kept now ds s T : server_ok s -> table_of T s -> len ds < 2 ^ 32 ->
  exists r s', load_file_list now ds s = Some (RLoaded r, s') /\ kept s s' (match r with Ok _ => (fun _ => None) <$> T | Err _ => T end).
Proof.
  intros Hs Ht Hl. destruct (load_total now ds s Hl) as (r & s' & E & Hr & _). exists r, s'. split; [done|].
  destruct r as [[]|e]; [|by subst; apply kept_same]. destruct Hr as [Hr Hcnt].
  destruct s' as [g l c']. cbn in Hcnt, Hr. subst c'. destruct Hr as [Htree Hlen Hroot Hn].
  assert (Hnew : Forall (fun n => n_handles n = new_handles) l).
  { apply Forall_lookup. intros [|i] n Hi.
    - destruct Hroot as [cs Hcs]. rewrite Hcs in Hi. by injection Hi as <-.
    - destruct (lookup_lt_is_Some_2 ds i) as [d Hd]; [apply lookup_lt_Some in Hi; lia|].
      destruct (Hn _ _ Hd) as (n' & v & En & (_ & _ & _ & _ & _ & Hh) & _). congruence. }
  pose proof (so_counter _ Hs). split_and!; cbn; [| |lia|lia].
  2: { apply closed_table; [done| |].
    - intros fh. rewrite lookup_fmap, fmap_is_Some. apply Ht.
    - intros fh ino. unfold is_for. rewrite lookup_fmap. by destruct (T !! fh). }
  split; cbn; [done|by right|].
  eapply Forall_impl; [done|]. cbn. intros n ->. split; cbn; [done| |constructor].
  intros i j x y Hi. by rewrite lookup_nil in Hi.
Qed.

Lemma init_kept now s T : server_ok s -> table_of T s -> kept s (init now s) T.
Proof.
  intros Hs Ht. unfold init. destruct (files s) as [|n l] eqn:E; [|by apply kept_same].
  pose proof (so_counter _ Hs). destruct (build_tree_spec now []) as (r & Hr & Hb & _); [done|].
  injection Hr as <-. split_and!; cbn; [| |lia|lia].
  - split; cbn; [done|right; apply Hb|]. apply Forall_singleton. split; cbn; [done| |constructor].
    intros i j x y Hi. by rewrite lookup_nil in Hi.
  - apply closed_table; [by apply Forall_singleton|apply Ht|]. intros fh ino Hf.
    destruct (to_inode _ _ Ht _ _ Hf) as (j & m & _ & Hj). rewrite E in Hj. by rewrite lookup_nil in Hj.
Qed.

Lemma step_kept fits o s T :
  server_ok s -> table_of T s -> askable o -> file_handle_counter s + 1 < 2 ^ 64 ->
  exists r s', fuse_step fits o s = Some (r, s') /\ kept s s' (table_step o r T) /\ reply_fits o T r.
Proof.
  intros Hs Ht Ha Hc. pose proof (kept_same s T Hs Ht) as Hsame. destruct o; cbn [fuse_step].
  - eexists _, _. split; [done|]. split; [by apply init_kept|done].
  - destruct (load_kept now ds s T Hs Ht Ha) as (r & s' & E & Hk). exists (RLoaded r), s'. split_and!; [done|by destruct r|done].
  - destruct (lookup_total parent name s Hs Ha) as [r ->]. eexists _, _. split; [done|]. split; [|done]. done.
  - destruct (open_node_kept KDirectory ENOTDIR ino s T Hs Ht Ha Hc) as (r & s' & E & Hk). exists r, s'. split; [done|].
    destruct r; cbn in *; [done|done|by destruct Hk|done|done|done|done|done|done].
  - destruct (readdir_table fits ino fh offset s T Hs Ht Ha) as (r & E & Hr). exists r, s. rewrite E. by split_and!.
  - unfold releasedir. destruct (node_at ino (files s)) as [n|] eqn:En; [|by eexists _, _].
    destruct (negb _); [by eexists _, _|]. pose proof (unregister_kept ino fh s T n Hs Ht Ha En) as Hu.
    destruct (unregister fh (n_handles n)); [destruct Hu as [Hu1 Hu2]|]; by eexists _, _.
  - destruct (open_node_kept KFile ENFILE ino s T Hs Ht Ha Hc) as (r & s' & E & Hk). exists r, s'. split; [done|].
    destruct r; cbn in *; [done|done|by destruct Hk|done|done|done|done|done|done].
  - eexists _, _. split; [done|]. split; [done|]. by apply read_table.
  - unfold release. destruct (node_at ino (files s)) as [n|] eqn:En; [|by eexists _, _].
    pose proof (unregister_kept ino fh s T n Hs Ht Ha En) as Hu.
    destruct (unregister fh (n_handles n)); [destruct Hu as [Hu1 Hu2]|]; by eexists _, _.
  - by eexists _, _.
  - by eexists _, _.
Qed.

(** The table, and whether each reply is what the table tells. *)
Fixpoint follows (os : list Op) (rs : list Reply) (T : Table) : Prop :=
  match os, rs with
  | o :: os, r :: rs => reply_fits o T r /\ follows os rs (table_step o r T)
  | _, _ => True
  end.

Definition table_run (os : list Op) (rs : list Reply) (T : Table) : Table :=
  foldl (fun T x => table_step (fst x) (snd x) T) T (zip os rs).

Lemma run_kept fits os s T :
  server_ok s -> table_of T s -> Forall askable os -> file_handle_counter s + len os < 2 ^ 64 ->
  exists rs s', fuse_run fits os s = Some (rs, s') /\ length rs = length os
    /\ server_ok s' /\ table_of (table_run os rs T) s' /\ follows os rs T
    /\ file_handle_counter s' <= file_handle_counter s + len os.
Proof.
  intros Hs Ht Ha. revert s T Hs Ht. induction Ha as [|o os Ho _ IH]; intros s T Hs Ht Hc; [exists [], s; split_and!; [done..|unfold len; cbn; lia]|].
  assert (Hlen : len (o :: os) = len os + 1) by (unfold len; cbn; lia). pose proof (len_nonneg os).
  destruct (step_kept fits o s T Hs Ht Ho) as (r & s1 & E & (H1 & H2 & H3) & Hr); [lia|].
  destruct (IH s1 _ H1 H2) as (rs & s2 & E2 & El & H4 & H5 & H6 & H7); [lia|]. exists (r :: rs), s2. cbn [fuse_run]. rewrite E.
  cbn [mbind option_bind]. rewrite E2. cbn. split_and!; [done|by rewrite El|done|done|done|done|lia].
Qed.

Lemma new_server_ok : server_ok new_server /\ table_of ∅ new_server.
Proof. split; [split; cbn; [done|by left|constructor]|].
  apply closed_table; [constructor| |]; cbn.
  - intros fh [x Hx]. by rewrite lookup_empty in Hx.
  - intros fh ino. unfold is_for. by rewrite lookup_empty.
Qed.

(** C8: Handles.  Whatever the kernel asks, in whatever order, of the server of the pasted
    files, whatever the lists of files it is given: it answers, without a panic, and it
    behaves as one table from handles to inodes would.  A handle that is given out was
    never given out before; files are read and folders listed through the open handles of the
    table, for the inode they were given out for, and through no others; a list of files that
    is replaced closes all handles, so that none of an old file ever reads a new one. *)
Theorem handles_are_a_table fits (os : list Op) :
  Forall askable os -> len os < 2 ^ 64 ->
  exists rs s, fuse_run fits os new_server = Some (rs, s) /\ length rs = length os
    /\ follows os rs ∅ /\ table_of (table_run os rs ∅) s.
Proof.
  intros Ha Hl. destruct new_server_ok as [Hs Ht].
  destruct (run_kept fits os new_server ∅ Hs Ht Ha Hl) as (rs & s & E & El & _ & H1 & H2 & _). exists rs, s. by split_and!.
Qed.

(** ** Evaluated *)

Definition ex_room (es : list DirEntry) (e : DirEntry) : bool := (length es <? 2)%nat.

Definition ex_ops : list Op :=
  [Init 3; Load 5 [mkDescription 4 "d" KDirectory 0 0 0 0 0 493; mkDescription 4 "d/f" KFile 7 7 7 7 12 420];
   Opendir 2; Readdir 2 0 0; Open 3; Read 3 1 0 4 9 [] (mkChannels [] 0); Releasedir 2 0; Readdir 2 0 0; Load 6 []; Read 3 1 0 4 9 [] (mkChannels [] 0)].

Lemma handles_are_a_table_witness :
  exists rs s, fuse_run ex_room ex_ops new_server = Some (rs, s) /\ length rs = length ex_ops
    /\ follows ex_ops rs ∅ /\ table_of (table_run ex_ops rs ∅) s.
Proof. apply (handles_are_a_table ex_room ex_ops); [repeat constructor; vm_compute; congruence|vm_compute; reflexivity]. Defined.
