(* ===== verification/ClipMsg.v ===== *)
(** * Messages about copied files (src/clipboard_file.rs, libs/clipboard/src/platform/unix/fuse/mod.rs)

    Files that were copied on one side are announced to the other side, which asks for their
    descriptions and mounts them; reading them asks for their bytes.  [serve_clip_messages]
    answers both sides; what stands around it are the connection of the controlled side
    (src/server/connection.rs) and the loop of the controlling side (src/client/io_loop.rs). *)

From S2P Require Import Prelude OsFs PathFacts Messages ClipDescr ClipServe ClipFuse.
From Stdlib Require Import Ascii.

(** ** Messages *)

Inductive Cliprdr : Type :=
| UReady
| UFormatList (formats : list (Z * string))
| UFormatListResponse (msg_flags : Z)
| UFormatDataRequest (requested_format_id : Z)
| UFormatDataResponse (msg_flags : Z) (format_data : list byte)
| UContentsRequest (stream_id list_index dw_flags n_position_low n_position_high cb_requested : Z)
    (have_clip_data_id : bool) (clip_data_id : Z)
| UContentsResponse (msg_flags stream_id : Z) (requested_data : list byte)
| UTryEmpty
| UFiles (files : list (string * Z)).

Inductive ClipMessage : Type :=
| MMessageBox (msgtype title text link : string)
| MCliprdr (c : Cliprdr).

(** [fs] tells the sizes that are asked for again, those of empty files. *)
Definition clip_2_msg (fs : Fs) (clip : ClipboardFile) : ClipMessage :=
  match clip with
  | NotifyCallback t title text => MMessageBox t title text ""
  | MonitorReady => MCliprdr UReady
  | FormatList l => MCliprdr (UFormatList (map (fun v => (fst v, snd v)) l))
  | FormatListResponse f => MCliprdr (UFormatListResponse f)
  | FormatDataRequest i => MCliprdr (UFormatDataRequest i)
  | FormatDataResponse f d => MCliprdr (UFormatDataResponse f d)
  | ContentsRequest s i f l h c b d => MCliprdr (UContentsRequest s i f l h c b d)
  | ContentsResponse f s d => MCliprdr (UContentsResponse f s d)
  | TryEmpty => MCliprdr UTryEmpty
  | Files files =>
      MCliprdr (UFiles (omap (fun x => let '(f, s) := x in
                               if s =? 0 then match metadata fs f with Ok (n, _) => Some (f, n) | Err _ => None end
                               else Some (f, s)) files))
  end.

Definition msg_2_clip (c : option Cliprdr) : option ClipboardFile :=
  match c with
  | Some UReady => Some MonitorReady
  | Some (UFormatList l) => Some (FormatList (map (fun v => (fst v, snd v)) l))
  | Some (UFormatListResponse f) => Some (FormatListResponse f)
  | Some (UFormatDataRequest i) => Some (FormatDataRequest i)
  | Some (UFormatDataResponse f d) => Some (FormatDataResponse f d)
  | Some (UContentsRequest s i f l h c b d) => Some (ContentsRequest s i f l h c b d)
  | Some (UContentsResponse f s d) => Some (ContentsResponse f s d)
  | Some UTryEmpty => Some TryEmpty
  | _ => None
  end.

Definition is_stopping_allowed (c : ClipboardFile) : bool :=
  match c with MonitorReady | FormatList _ | FormatDataRequest _ => true | _ => false end.
Definition is_beginning_message (c : ClipboardFile) : bool :=
  match c with MonitorReady | FormatList _ => true | _ => false end.

(** ** The mounted file system (fuse/mod.rs) *)

Inductive MountPointState : Type := HealthyMount | NotMounted | StaleMount | UnknownMount.

Inductive MetadataResult : Type := MetaOk (is_symlink : bool) | MetaNotConnected | MetaNotFound | MetaOther.

Definition is_space (c : ascii) : bool :=
  let n := nat_of_ascii c in ((n =? 32) || ((9 <=? n) && (n <=? 13)))%nat.

(** [str::split_whitespace] and [str::lines], for ASCII. *)
Fixpoint words_of (s : string) : list string * string :=
  match s with
  | EmptyString => ([], "")
  | String c s =>
      let '(ws, w) := words_of s in
      if is_space c then (if String.eqb w "" then ws else w :: ws, "") else (ws, String c w)
  end.
Definition split_whitespace (s : string) : list string :=
  let '(ws, w) := words_of s in if String.eqb w "" then ws else w :: ws.

Definition NEWLINE : ascii := "010"%char.

Definition is_mount_point_listed_in_mountinfo (mount_point mountinfo : string) : bool :=
  existsb (fun line => match split_whitespace line !! 4%nat with Some p => String.eqb p mount_point | None => false end)
    (split_on NEWLINE mountinfo).

Definition inspect_mount_point_state_with (mount_point : string) (m : MetadataResult) (mountinfo : option string)
  : MountPointState :=
  match m with
  | MetaOk _ =>
      match mountinfo with
      | Some info => if is_mount_point_listed_in_mountinfo mount_point info then HealthyMount else NotMounted
      | None => UnknownMount
      end
  | MetaNotConnected => StaleMount
  | MetaNotFound => NotMounted
  | MetaOther => UnknownMount
  end.

Inductive MountError : Type := EInit | EOccupied.

Definition reject_symlink_metadata_result (m : MetadataResult) (allow_disconnected_mount : bool) : result MountError unit :=
  match m with
  | MetaOk true => Err EInit
  | MetaOk false => Ok tt
  | MetaNotConnected => if allow_disconnected_mount then Ok tt else Err EInit
  | MetaNotFound => Ok tt
  | MetaOther => Err EInit
  end.

(** [parent] and [point]: what [symlink_metadata] says of the folder and of the mount point. *)
Definition ensure_mount_point_path_is_safe (parent point : MetadataResult) : result MountError unit :=
  let? _ := reject_symlink_metadata_result parent false in
  reject_symlink_metadata_result point true.

Definition inspect_mount_point_state (mount_point : string) (parent point target : MetadataResult) (mountinfo : option string)
  : MountPointState :=
  match ensure_mount_point_path_is_safe parent point with
  | Err _ => UnknownMount
  | Ok _ => inspect_mount_point_state_with mount_point target mountinfo
  end.

Definition validate_mount_state_after_stale_cleanup (s : MountPointState) : result MountError unit :=
  match s with
  | NotMounted => Ok tt
  | HealthyMount => Err EOccupied
  | StaleMount | UnknownMount => Err EInit
  end.

Record FuseContext : Type := mkContext {
  fc_server : FuseServer;
  fc_queue : list ClipboardFile;     (* sent on [tx], not yet read by the server *)
  fc_mount : string;
  fc_conn : Z }.

(** What the system shows in the course of one call: the [k]-th state of the mount point,
    whether it can be prepared and mounted. *)
Record Mounts : Type := mkMounts {
  observed : nat -> MountPointState;
  prepared : result MountError unit;
  mounted : result MountError unit }.

(** The context, without one that is there. *)
Definition mount_context (os : Mounts) (k : nat) (point : string) : result MountError FuseContext :=
  let? _ := match observed os k with
            | HealthyMount => Err EOccupied
            | StaleMount => validate_mount_state_after_stale_cleanup (observed os (S k))
            | UnknownMount => Err EInit
            | NotMounted => Ok tt
            end in
  let? _ := prepared os in
  let? _ := mounted os in
  Ok (mkContext new_server [] point 0).

Definition init_fuse_context (os : Mounts) (point : string) (c : option FuseContext)
  : result MountError unit * option FuseContext :=
  let create k := match mount_context os k point with Ok c => (Ok tt, Some c) | Err e => (Err e, None) end in
  match c with
  | None => create 0%nat
  | Some ctx =>
      match observed os 0 with
      | HealthyMount => (Ok tt, Some ctx)
      | StaleMount | NotMounted => create 1%nat
      | UnknownMount => (Err EInit, Some ctx)
      end
  end.

Section Contexts.
Context `{Utf16}.

(** Files that were described, as paths below the mount point.  [None]: a panic. *)
Definition context_to_urls (now : Z) (format_data : list byte) (conn_id : Z) (c : FuseContext)
  : option (result CliprdrError (list string) * FuseContext) :=
  match parse_file_descriptors format_data conn_id with
  | None => None
  | Some (Err e) => Some (Err e, c)
  | Some (Ok ds) =>
      match load_file_list now ds (fc_server c) with
      | None => None
      | Some (RLoaded (Err e), _) => Some (Err e, c)
      | Some (_, s) =>
          match list_root s with
          | None => None
          | Some names => Some (Ok (path_join (fc_mount c) <$> names), mkContext s (fc_queue c) (fc_mount c) conn_id)
          end
      end
  end.

Definition format_data_response_to_urls (now : Z) (format_data : list byte) (conn_id : Z) (c : option FuseContext)
  : option (result CliprdrError (list string) * option FuseContext) :=
  match c with
  | None => Some (Err CliprdrInit, None)
  | Some c => match context_to_urls now format_data conn_id c with Some (r, c) => Some (r, Some c) | None => None end
  end.

Definition handle_file_content_response (clip : ClipboardFile) (c : option FuseContext)
  : result CliprdrError unit * option FuseContext :=
  match c with
  | None => (Err CliprdrInit, None)
  | Some c => (Ok tt, Some (mkContext (fc_server c) (fc_queue c ++ [clip]) (fc_mount c) (fc_conn c)))
  end.

(** Whether the files were those of the connection, and are gone. *)
Definition empty_local_files (now conn_id : Z) (c : option FuseContext) : option (bool * option FuseContext) :=
  match c with
  | None => Some (false, None)
  | Some c =>
      if negb (conn_id =? 0) && negb (fc_conn c =? conn_id) then Some (false, Some c)
      else match load_file_list now [] (fc_server c) with
      | Some (_, s) => Some (true, Some (mkContext s (fc_queue c) (fc_mount c) (fc_conn c)))
      | None => None
      end
  end.
End Contexts.

(** ** Answering *)

Inductive ClipboardSide : Type := Host | Client.

#[export] Instance side_eq_dec : EqDecision ClipboardSide.
Proof. solve_decision. Defined.

Definition FILEDESCRIPTOR_FORMAT_ID : Z := 49334.
Definition FILEDESCRIPTORW_FORMAT_NAME : string := "FileGroupDescriptorW".
Definition FILECONTENTS_FORMAT_ID : Z := 49267.
Definition FILECONTENTS_FORMAT_NAME : string := "FileContents".

Definition get_local_format (remote_id : Z) : option string :=
  if remote_id =? FILEDESCRIPTOR_FORMAT_ID then Some FILEDESCRIPTORW_FORMAT_NAME
  else if remote_id =? FILECONTENTS_FORMAT_ID then Some FILECONTENTS_FORMAT_NAME
  else None.

Definition get_format_list : ClipboardFile :=
  FormatList [(FILEDESCRIPTOR_FORMAT_ID, default FILEDESCRIPTORW_FORMAT_NAME (get_local_format FILEDESCRIPTOR_FORMAT_ID));
              (FILECONTENTS_FORMAT_ID, default FILECONTENTS_FORMAT_NAME (get_local_format FILECONTENTS_FORMAT_ID))].

(** What reaches the system's clipboard, on threads of their own. *)
Inductive BoardEffect : Type :=
| UpdateFiles (files : list string) (side : ClipboardSide)
| EmptyFiles (side : ClipboardSide) (conn_id : Z).

(** What one process keeps about copied files. *)
Record ClipState : Type := mkClipState { cs_files : ClipFiles; fuse_client : option FuseContext; fuse_server : option FuseContext }.

Definition context_of (side : ClipboardSide) (s : ClipState) : option FuseContext :=
  match side with Client => fuse_client s | Host => fuse_server s end.
Definition with_context (side : ClipboardSide) (c : option FuseContext) (s : ClipState) : ClipState :=
  match side with
  | Client => mkClipState (cs_files s) c (fuse_server s)
  | Host => mkClipState (cs_files s) (fuse_client s) c
  end.
Definition with_clip_files (f : ClipFiles) (s : ClipState) : ClipState := mkClipState f (fuse_client s) (fuse_server s).

Definition find_format (name : string) (l : list (Z * string)) : option Z :=
  fst ∘ snd <$> list_find (fun x => snd x = name) l.

Definition update_clipboard_files (files : list string) (side : ClipboardSide) : list BoardEffect :=
  match files with [] => [] | _ => [UpdateFiles files side] end.

Section Serve.
Context `{Utf16}.
Variable ahead : Z -> nat.
Variable fs : Fs.
Variable os : Mounts.
Variable mount_point : ClipboardSide -> string.
Variable now : Z.

Definition msg_resp_format_data_failure : ClipMessage := clip_2_msg fs (FormatDataResponse 2 []).
Definition resp_file_contents_fail (stream_id : Z) : ClipMessage := clip_2_msg fs (ContentsResponse 2 stream_id []).

Definition serve_format_data (side : ClipboardSide) (data : list byte) (conn_id : Z) (s : ClipState)
  : option (list BoardEffect * ClipState) :=
  let '(r, c) := init_fuse_context os (mount_point side) (context_of side s) in
  let s := with_context side c s in
  match r with
  | Err _ => Some ([], s)
  | Ok _ =>
      match format_data_response_to_urls now data conn_id c with
      | None => None
      | Some (Ok files, c) => Some (update_clipboard_files files side, with_context side c s)
      | Some (Err _, c) => Some ([], with_context side c s)
      end
  end.

(** [None]: the program ends. *)
Definition serve_clip_messages (side : ClipboardSide) (clip : ClipboardFile) (conn_id : Z) (s : ClipState)
  : option (list ClipMessage * list BoardEffect * ClipState) :=
  match clip with
  | FormatList l =>
      match find_format FILECONTENTS_FORMAT_NAME l, find_format FILEDESCRIPTORW_FORMAT_NAME l with
      | Some _, Some id_ => Some ([clip_2_msg fs (FormatDataRequest id_)], [], s)
      | _, _ => Some ([], [], s)
      end
  | FormatDataRequest _ =>
      match files_pdu (cs_files s) with
      | [] => Some ([msg_resp_format_data_failure], [], s)
      | pdu => Some ([clip_2_msg fs (FormatDataResponse 1 pdu)], [], s)
      end
  | FormatDataResponse flags data =>
      if negb (flags =? 1) then Some ([], [], s)
      else '(e, s) ← serve_format_data side data conn_id s; Some ([], e, s)
  | ContentsRequest stream_id i flags low high n _ _ =>
      '(rs, f) ← read_file_contents ahead fs stream_id i flags low high n (cs_files s);
      Some (map (fun r => match r with Ok d => clip_2_msg fs d | Err _ => resp_file_contents_fail stream_id end) rs,
            [], with_clip_files f s)
  | ContentsResponse flags stream_id data =>
      let '(_, c) := handle_file_content_response (ContentsResponse flags stream_id data) (context_of side s) in
      Some ([], [], with_context side c s)
  | TryEmpty => Some ([], [EmptyFiles side conn_id], s)
  | MonitorReady | FormatListResponse _ | NotifyCallback _ _ _ | Files _ => Some ([], [], s)
  end.

(** *** The controlled side (connection.rs) *)

Definition is_support_file_copy_paste_num (ver : Z) : bool := get_version_number "1.3.8" <=? ver.
Definition is_support_file_copy_paste (ver : string) : bool := is_support_file_copy_paste_num (get_version_number ver).

Inductive HostEffect : Type := Sent (m : ClipMessage) | AuditReceive (files : list (string * Z)) | AuditSend (files : list (string * Z)) | Board (e : BoardEffect).

(** A message of the peer of the connection [conn_id], with the version [peer]. *)
Definition host_on_cliprdr (peer : string) (conn_id : Z) (m : option Cliprdr) (s : ClipState) : option (list HostEffect * ClipState) :=
  match m with
  | Some (UFiles files) => Some ([AuditReceive (map (fun x => (fst x, as_i64 (snd x))) files)], s)
  | _ =>
      match msg_2_clip m with
      | None => Some ([], s)
      | Some clip =>
          if is_support_file_copy_paste peer then
            '(ms, es, s) ← serve_clip_messages Host clip conn_id s;
            Some (map (fun m => match m with
                                | MCliprdr (UFiles files) => AuditSend (map (fun x => (fst x, as_i64 (snd x))) files)
                                | m => Sent m
                                end) ms ++ (Board <$> es), s)
          else Some ([], s)
      end
  end.

(** What was put on the channel of the connection. *)
Definition handle_file_clip (file enable_file_transfer one_way : bool) (clip : ClipboardFile) : list ClipMessage :=
  if is_stopping_allowed clip && negb (file && enable_file_transfer) then []
  else if is_beginning_message clip && one_way then []
  else [clip_2_msg fs clip].

(** *** The controlling side (io_loop.rs) *)

Record ClientFlags : Type := mkFlags {
  server_keyboard_enabled : bool; server_file_transfer_enabled : bool; enable_file_copy_paste : bool;
  cf_view_only : bool; cf_connected : bool; cf_version : Z }.

Definition is_file_clipboard_required (f : ClientFlags) : bool :=
  server_keyboard_enabled f && server_file_transfer_enabled f && enable_file_copy_paste f && negb (cf_view_only f).

(** [current]: the connection number of the peer that is shown. *)
Definition handle_cliprdr_msg (f : ClientFlags) (current : option Z) (conn_id : Z) (m : option Cliprdr) (s : ClipState)
  : option (list ClipMessage * list BoardEffect * ClipState) :=
  let other := match m with Some (UFormatList _) => negb (conn_id =? default 0 current) | _ => false end in
  if other then Some ([], [], s)
  else match msg_2_clip m with
  | None => Some ([], [], s)
  | Some clip =>
      if is_beginning_message clip && negb (is_file_clipboard_required f) then Some ([], [], s)
      else if is_support_file_copy_paste_num (cf_version f) then serve_clip_messages Client clip conn_id s
      else Some ([], [], s)
  end.

Inductive ClientOut : Type := ShowBox (msgtype title text : string) | ToPeer (m : ClipMessage).

Definition handle_local_clipboard_msg (f : ClientFlags) (clip : option ClipboardFile) : list ClientOut :=
  match clip with
  | None => []
  | Some (NotifyCallback t title text) => [ShowBox t title text]
  | Some clip =>
      if is_stopping_allowed clip
         && (cf_view_only f || negb (cf_connected f) || negb (server_file_transfer_enabled f && enable_file_copy_paste f))
      then []
      else [ToPeer (clip_2_msg fs clip)]
  end.
End Serve.
