(* ===== verification/ClipPaste.v ===== *)
(** * Copied here, pasted there

    The parts put together: files that were copied on the controlled side are described to the
    controlling side, mounted there, and read there as they are on the controlled side.  At the
    end: what is served although it was not permitted. *)

From S2P Require Import Prelude OsFs PathFacts Messages ClipDescr ClipServe ClipServed ClipFuse ClipTree ClipHandles ClipMsg.

(** ** Messages *)

(** What a message becomes on the other side. *)
Definition relayed (fs : Fs) (c : ClipboardFile) : option ClipboardFile :=
  match clip_2_msg fs c with MCliprdr u => msg_2_clip (Some u) | MMessageBox _ _ _ _ => None end.

Lemma pairs_id {A B} (l : list (A * B)) : map (fun v => (fst v, snd v)) l = l.
Proof. induction l as [|[a b] l IH]; [done|]. cbn. by rewrite IH. Qed.

(** Messages about copied files arrive as they were sent: all but the two that are not
    for the other side's clipboard, a notification and the list for the audit. *)
Theorem clip_messages_roundtrip fs c :
  relayed fs c = match c with NotifyCallback _ _ _ | Files _ => None | c => Some c end.
Proof. destruct c; cbn; rewrite ?pairs_id; done. Qed.

(** ** Paths on the clipboard *)

Section Paste.
Context `{Utf16}.

(** C10: Whatever bytes the peer sends as the list of its files, mounting them does not
    crash, and the paths that are put on the clipboard are those of entries directly below the
    mount point: no name leads out of it, into a folder of it or to the folder itself. *)
Theorem pasted_paths_stay_below now data conn_id c :
  exists r c', context_to_urls now data conn_id c = Some (r, c')
    /\ fc_mount c' = fc_mount c
    /\ match r with
       | Ok urls => Forall (fun u => exists n, plain_name n /\ u = path_join (fc_mount c) n /\ key u = key (fc_mount c) ++ [n]) urls
       | Err _ => c' = c
       end.
Proof.
  unfold context_to_urls. destruct (list_parsed data conn_id) as ([ds|e] & -> & Hds); [|by eexists _, _].
  destruct (load_total now ds (fc_server c) (proj1 Hds)) as (r & s & -> & Hr & _). destruct r as [[]|e]; [|by eexists _, _].
  destruct (root_names now ds s (proj1 Hr)) as (names & -> & Hn). eexists _, _. split; [done|]. split; [done|].
  apply Forall_fmap. eapply Forall_impl; [done|]. cbn. intros n Hp. exists n. split_and!; [done|done|by apply plain_key].
Qed.

(** ** The mounted files while they are used *)

(** Between two lists the tree stays. *)
Lemma open_shape kind wrong ino s r s' : open_node kind wrong ino s = Some (r, s') -> same_shape (files s) (files s').
Proof.
  assert (Hrefl : forall l, same_shape l l) by (intros l j; by destruct (l !! j) as [[]|]).
  unfold open_node. destruct (node_at ino (files s)) as [n|]; [|by intros [= <- <-]].
  destruct (negb _); [by intros [= <- <-]|]. destruct (gc _); [by intros [= <- <-]|].
  cbn. destruct (add_handler _ _); [|done]. cbn. intros [= <- <-]. apply alter_shape.
Qed.

Definition loads (o : Op) : bool := match o with Load _ _ => true | _ => false end.

Lemma step_shape fits o s r s' : files s <> [] -> loads o = false -> fuse_step fits o s = Some (r, s') -> same_shape (files s) (files s').
Proof.
  assert (Hrefl : forall l, same_shape l l) by (intros l j; by destruct (l !! j) as [[]|]).
  intros Hne Hl. destruct o; cbn in *; try done.
  - intros [= <- <-]. unfold init. destruct (files s) as [|n l] eqn:E; [done|]. rewrite E. apply Hrefl.
  - destruct (lookup _ _ _); [|done]. by intros [= <- <-].
  - apply open_shape.
  - destruct (readdir _ _ _ _ _); [|done]. by intros [= <- <-].
  - unfold releasedir. destruct (node_at ino (files s)); [|by intros [= <- <-]]. destruct (negb _); [by intros [= <- <-]|].
    destruct (unregister _ _); [|by intros [= <- <-]]. intros [= <- <-]. apply alter_shape.
  - apply open_shape.
  - by intros [= <- <-].
  - unfold release. destruct (node_at ino (files s)); [|by intros [= <- <-]].
    destruct (unregister _ _); [|by intros [= <- <-]]. intros [= <- <-]. apply alter_shape.
  - by intros [= <- <-].
  - by intros [= <- <-].
Qed.

Lemma shape_trans l1 l2 l3 : same_shape l1 l2 -> same_shape l2 l3 -> same_shape l1 l3.
Proof.
  intros H12 H23 j. specialize (H12 j). specialize (H23 j). destruct (l1 !! j), (l2 !! j), (l3 !! j); try done.
  destruct f, f0, f1. unfold with_handles in *. cbn in *. congruence.
Qed.

Lemma run_shape fits os s rs s' : files s <> [] -> Forall (fun o => loads o = false) os ->
  fuse_run fits os s = Some (rs, s') -> same_shape (files s) (files s').
Proof.
  intros Hne Hos. revert s rs Hne. induction Hos as [|o os Ho _ IH]; intros s rs Hne; cbn.
  - intros [= <- <-] j. by destruct (files s !! j) as [[]|].
  - destruct (fuse_step fits o s) as [[r s1]|] eqn:E; [|done]. cbn.
    destruct (fuse_run fits os s1) as [[rs1 s2]|] eqn:E2; [|done]. intros [= <- <-].
    pose proof (step_shape _ _ _ _ _ Hne Ho E) as H1. eapply shape_trans; [done|]. eapply IH; [|done].
    intros Hnil. apply shape_length in H1. rewrite Hnil in H1. by destruct (files s).
Qed.

(** A handle that was just given out is one of its node. *)
Lemma opened_has fits ino s fh s' : server_ok s -> (exists T, table_of T s) -> 0 <= ino < 2 ^ 64 -> file_handle_counter s + 1 < 2 ^ 64 ->
  fuse_step fits (Open ino) s = Some (ROpened fh, s') ->
  exists n, node_at ino (files s') = Some n /\ have_handler fh (n_handles n) = true /\ ia_kind (n_attributes n) = KFile /\ gc (n_handles n) = false.
Proof.
  intros Hs [T Ht] Hi Hc E. destruct (step_kept fits (Open ino) s T Hs Ht Hi Hc) as (r & s2 & E2 & (Hs' & Ht' & _) & _).
  rewrite E in E2. injection E2 as <- <-. cbn in Ht'.
  assert (Hfor : is_for (<[fh := Some ino]> T) fh ino) by (unfold is_for; by rewrite lookup_insert_eq).
  destruct (to_inode _ _ Ht' _ _ Hfor) as (j & n & -> & Hj). pose proof (so_tree _ Hs') as [Htr|Htr]; [by rewrite Htr in Hj|].
  pose proof (node_at_inode _ _ _ (tk_small _ Htr) Hj) as Hn. exists n. split; [done|]. split; [|split].
  - rewrite (have_table _ _ _ _ _ Hs' Ht' Hi Hn). by rewrite bool_decide_true.
  - cbn in E. unfold open, open_node in E. destruct (node_at (inode_of j) (files s)) as [n0|] eqn:E0; [|done].
    case_bool_decide as Hk; [|done]. cbn [negb] in E. destruct (gc _); [done|]. cbn in E. destruct (add_handler _ _); [|done]. cbn in E.
    injection E as _ <-. unfold set_handles in Hn. cbn in Hn. apply node_at_some in E0 as (k & Hk1 & Hk2), Hn as (k' & Hk1' & Hk2').
    assert (k' = k) as -> by lia. rewrite Hk1, Nat2Z.id, list_lookup_alter_eq, Hk2 in Hk2'. cbn in Hk2'. injection Hk2' as <-. done.
  - pose proof (so_handles _ Hs') as Hh. rewrite Forall_lookup in Hh. apply (Hh _ _ Hj).
Qed.

(** ** The bytes *)

Context `{!Utf16Laws}.
Variable ahead : Z -> nat.
Variable fs : Fs.
Variable meta : Fs -> list string -> FileMeta.
Variable os : Mounts.
Variable mount_point : ClipboardSide -> string.
Variable now : Z.

(** The description that was sent is of the files that are listed. *)
Lemma synced_pdu fuel paths s : sync_files meta fs fuel paths no_files = Synced (Ok tt) s ->
  (s = no_files /\ paths = []) \/ build_file_list_pdu (attributes <$> file_list s) = Some (files_pdu s).
Proof.
  unfold sync_files. destruct (_ && _ && _) eqn:E.
  - intros [= <-]. left. split; [done|]. apply andb_true_iff in E as [E _]. apply andb_true_iff in E as [E _].
    apply bool_decide_eq_true in E. by cbn in E.
  - destruct (construct_file_list _ _ _ _) as [[l|]|]; [|done|done]. destruct (build_file_list_pdu _) eqn:Ep; [|done].
    intros [= <-]. by right.
Qed.

(** The node of the [i]-th file, once its list was mounted. *)
Lemma mounted_node conn (l : list LocalFile) pdu ctx urls ctx' i f :
  Forall describable (attributes <$> l) -> len l < 2 ^ 31 -> build_file_list_pdu (attributes <$> l) = Some pdu ->
  context_to_urls now pdu conn ctx = Some (Ok urls, ctx') -> l !! i = Some f ->
  exists n, files (fc_server ctx') !! S i = Some n /\ n_index n = Z.of_nat i /\ n_conn_id n = conn
    /\ tree_ok (files (fc_server ctx')).
Proof.
  intros Hd Hl Hb Hc Hi. assert (Hlen : len (attributes <$> l) = len l) by (unfold len; by rewrite length_fmap).
  destruct (list_read_back (attributes <$> l) conn Hd ltac:(lia)) as (pdu' & E & Ep). rewrite Hb in E. injection E as <-.
  unfold context_to_urls in Hc. rewrite Ep in Hc.
  assert (Hds : len (described conn <$> (attributes <$> l)) < 2 ^ 32) by (unfold len in *; rewrite !length_fmap; lia).
  destruct (load_total now _ (fc_server ctx) Hds) as (r & s & E & Hr & _). rewrite E in Hc.
  destruct r as [[]|]; [|done]. destruct (list_root s); [|done]. injection Hc as _ <-. cbn.
  destruct (bt_nodes _ _ _ (proj1 Hr) i (described conn (attributes f))) as (n & v & En & (H1 & H2 & _) & _).
  { by rewrite !list_lookup_fmap, Hi. }
  exists n. split_and!; [done|done|done|]. apply Hr.
Qed.

Lemma swrap_small w z : 0 < w -> 0 <= z < 2 ^ (w - 1) -> swrap w z = z.
Proof.
  intros Hw Hz. assert (E : 2 ^ w = 2 * 2 ^ (w - 1)) by (rewrite <- Z.pow_succ_r by lia; f_equal; lia).
  unfold swrap. rewrite Z.mod_small by lia. destruct (Z.ltb_spec z (2 ^ (w - 1))); [done|lia].
Qed.

(** The numbers of a request are those of the range. *)
Definition plain_offset (off : Z) : Prop := 0 <= off < 2 ^ 63 /\ off mod 2 ^ 32 < 2 ^ 31.

Lemma request_numbers n i rid off size :
  n_index n = Z.of_nat i -> Z.of_nat i < 2 ^ 31 -> plain_offset off -> 0 <= size < 2 ^ 31 ->
  request_for n rid off size = ContentsRequest rid (Z.of_nat i) 2 (off mod 2 ^ 32) (off / 2 ^ 32) size false 0.
Proof.
  intros Hn Hi [Ho Hl] Hs. unfold request_for. rewrite Hn. change U32_MAX with (Z.ones 32).
  rewrite Z.land_ones, Z.shiftr_div_pow2 by lia. pose proof (Z.mod_pos_bound off (2 ^ 32)).
  pose proof (Z.div_lt_upper_bound off (2 ^ 32) (2 ^ 31)). pose proof (Z.div_pos off (2 ^ 32)).
  rewrite !swrap_small by lia. done.
Qed.

(** What the controlled side puts on the wire. *)
Definition on_wire (es : list HostEffect) : list Cliprdr :=
  omap (fun e => match e with Sent (MCliprdr c) => Some c | _ => None end) es.

(** The controlled side answers a request for a range. *)
Lemma host_answers peer conn cs (s : ClipState) rid i off size c :
  is_support_file_copy_paste peer = true -> Forall2 (listed fs) cs (file_list (cs_files s)) ->
  cs !! i = Some (Some c) -> Z.of_nat i < 2 ^ 31 -> plain_offset off -> off <= len c -> 0 <= size < 2 ^ 31 ->
  exists es s', host_on_cliprdr ahead fs os mount_point now peer conn
      (Some (UContentsRequest rid (Z.of_nat i) 2 (off mod 2 ^ 32) (off / 2 ^ 32) size false 0)) s = Some (es, s')
    /\ on_wire es = [UContentsResponse 1 rid (take (Z.to_nat size) (drop (Z.to_nat off) c))]
    /\ Forall2 (listed fs) cs (file_list (cs_files s')).
Proof.
  intros Hp Hs Hc Hi [Ho Hl] Hoc Hsz. pose proof (Z.mod_pos_bound off (2 ^ 32)).
  pose proof (Z.div_lt_upper_bound off (2 ^ 32) (2 ^ 31)). pose proof (Z.div_pos off (2 ^ 32)).
  set (a := mkAsk rid (Z.of_nat i) 2 (off mod 2 ^ 32) (off / 2 ^ 32) size).
  assert (Hpos : position_of a = off) by (unfold position_of; cbn; pose proof (Z.div_mod off (2 ^ 32)); lia).
  assert (Ha : in_range cs a).
  { unfold in_range. cbn. rewrite Nat2Z.id. split_and!; try lia. exists c. split; [done|]. by rewrite Hpos. }
  destruct (one_answer ahead fs cs a (cs_files s) Hs Ha) as (audit & f' & E & Hl' & Haud).
  unfold ask in E. cbn [a_stream a_index a_flags a_low a_high a_count a] in E.
  cbn [host_on_cliprdr msg_2_clip]. rewrite Hp. cbn [serve_clip_messages]. rewrite E.
  cbn [mbind option_bind]. eexists _, _. split; [reflexivity|]. split; [|done].
  unfold on_wire. rewrite app_nil_r, !map_app, omap_app. cbn [map omap list_omap].
  assert (Hnone : omap (fun e => match e with Sent (MCliprdr c) => Some c | _ => None end)
    (map (fun m => match m with MCliprdr (UFiles l) => AuditSend (map (fun x => (fst x, as_i64 (snd x))) l) | m => Sent m end)
      (map (fun r => match r with Ok d => clip_2_msg fs d | Err _ => resp_file_contents_fail fs rid end) audit)) = []).
  { clear E. induction Haud as [|r audit [l ->] _ IH]; [done|]. cbn. exact IH. }
  rewrite Hnone. unfold answer_to, bytes_at. cbn. by rewrite Nat2Z.id, Hc, Hpos.
Qed.

(** *** One read *)

Definition reached (room : list DirEntry -> DirEntry -> bool) (s : FuseServer) : Prop :=
  exists os rs, Forall askable os /\ len os < 2 ^ 62 /\ fuse_run room os new_server = Some (rs, s).

Lemma reached_ok room s : reached room s -> server_ok s /\ (exists T, table_of T s) /\ file_handle_counter s < 2 ^ 62.
Proof.
  intros (l & rs & Ha & Hl & E). destruct new_server_ok as [H1 H2].
  destruct (run_kept room l new_server ∅ H1 H2 Ha) as (rs' & s' & E' & _ & Hs & Ht & _ & Hc); [cbn; lia|].
  rewrite E in E'. injection E' as <- <-. split; [done|]. split; [by eexists|]. cbn in Hc. lia.
Qed.

(** Files were copied and may have been read ([before]); the other side mounted their
    description, and after whatever it was asked ([ops]) a program opens the [i]-th. *)
Record pasting (room : list DirEntry -> DirEntry -> bool) (copied : ClipFiles) (host : ClipState) (conn : Z)
    (i : nat) (c : list byte) (fh : Z) (mounted_ : FuseServer) : Prop := {
  pg_copied : exists fuel paths, fits fs /\ sync_files meta fs fuel paths no_files = Synced (Ok tt) copied;
  pg_describable : Forall describable (attributes <$> file_list copied) /\ len (file_list copied) < 2 ^ 31;
  pg_before : exists l rs, Forall (in_range (contents fs <$> file_list copied)) l
    /\ ask_all ahead fs l copied = Some (rs, cs_files host);
  pg_file : exists f, file_list copied !! i = Some f /\ contents fs f = Some c;
  pg_mounted : exists ctx urls ctx' ops rs s, reached room (fc_server ctx)
    /\ context_to_urls now (files_pdu copied) conn ctx = Some (Ok urls, ctx')
    /\ Forall askable ops /\ Forall (fun o => loads o = false) ops /\ len ops < 2 ^ 62
    /\ fuse_run room ops (fc_server ctx') = Some (rs, s)
    /\ fuse_step room (Open (Z.of_nat i + 2)) s = Some (ROpened fh, mounted_) }.

(** The node that is read, and the list on the other side. *)
Lemma pasting_node room copied host conn i c fh s : pasting room copied host conn i c fh s ->
  exists n, node_at (Z.of_nat i + 2) (files s) = Some n /\ n_index n = Z.of_nat i /\ n_conn_id n = conn
    /\ have_handler fh (n_handles n) = true /\ ia_kind (n_attributes n) = KFile /\ gc (n_handles n) = false.
Proof.
  intros [(fuel & paths & Hfit & Hsync) [Hd Hl] _ (f & Hf & Hfc) (ctx & urls & ctx' & ops & rs & s1 & Hr & Hctx & Ha & Hn & Ho & Hrun & Hopen)].
  destruct (synced_pdu _ _ _ Hsync) as [[-> _]|Hpdu]; [done|].
  destruct (mounted_node conn _ _ _ _ _ _ _ Hd Hl Hpdu Hctx Hf) as (n & Hi & H1 & H2 & Htree).
  destruct (reached_ok _ _ Hr) as (Hs0 & [T0 Ht0] & Hc0).
  assert (Hload : exists ds r, len ds < 2 ^ 32 /\ fuse_step room (Load now ds) (fc_server ctx) = Some (r, fc_server ctx')).
  { unfold context_to_urls in Hctx. destruct (list_parsed (files_pdu copied) conn) as ([ds|] & E & Hds); rewrite E in Hctx; [|done].
    destruct (load_total now ds (fc_server ctx) (proj1 Hds)) as (r & s' & El & _). rewrite El in Hctx.
    destruct r as [[]|]; [|done]. destruct (list_root s'); [|done]. injection Hctx as _ <-. exists ds. eexists. split; [apply Hds|exact El]. }
  destruct Hload as (ds & r0 & Hds & Hload).
  destruct (step_kept room (Load now ds) _ _ Hs0 Ht0 Hds ltac:(lia)) as (r1 & s2 & E1 & (Hs1 & Ht1 & Hc1) & _).
  rewrite Hload in E1. injection E1 as <- <-.
  destruct (run_kept room ops _ _ Hs1 Ht1 Ha) as (rs' & s3 & E3 & _ & Hs3 & Ht3 & _ & Hc3); [lia|].
  rewrite Hrun in E3. injection E3 as <- <-.
  pose proof (len_nonneg ops). assert (Hi31 : Z.of_nat i < 2 ^ 31) by (apply lookup_lt_Some in Hf; unfold len in *; lia).
  destruct (opened_has room (Z.of_nat i + 2) s1 fh s Hs3 (ex_intro _ _ Ht3) ltac:(lia) ltac:(lia) Hopen) as (m & Hm & Hh & Hk & Hg).
  exists m. split; [done|]. assert (Hne : files (fc_server ctx') <> []) by (intros E; by rewrite E in Hi).
  pose proof (run_shape _ _ _ _ _ Hne Hn Hrun) as Hsh1.
  assert (Hne1 : files s1 <> []) by (intros E; apply shape_length in Hsh1; rewrite E in Hsh1; by destruct (files (fc_server ctx'))).
  pose proof (shape_trans _ _ _ Hsh1 (step_shape room (Open _) _ _ _ Hne1 eq_refl Hopen)) as Hsh.
  destruct (shape_left _ _ _ _ Hsh Hi) as [h Hih].
  replace (Z.of_nat i + 2) with (inode_of (S i)) in Hm by (unfold inode_of; lia).
  rewrite (node_at_inode _ _ _ (tk_small _ (shape_tree _ _ Hsh Htree)) Hih) in Hm. injection Hm as <-. done.
Qed.

Lemma await_answer conn rid req k stale data rest ch :
  Forall (fun m => exists f s d, m = ContentsResponse f s d /\ s <> rid) stale ->
  await conn rid req k (stale ++ ContentsResponse 1 rid data :: rest) ch = (Ok data, rest, ch).
Proof.
  induction 1 as [|m stale (f & s & d & -> & Hs) _ IH]; cbn.
  - by rewrite Z.eqb_refl.
  - destruct (Z.eqb_spec s rid); [done|]. exact IH.
Qed.

(** C7: Pasting.  Files were copied on the controlled side and described to the controlling
    side, which mounted them and where a program opened one of them, whatever else was read
    or asked on either side.  Then a read of a range makes the controlling side send one
    request; the controlled side, that got it, sends one answer; and once this has come
    through, behind whatever answers to earlier requests are still queued, the program gets
    the very bytes that the copied file has in the range.  The position may be any whose low
    32 bits are below 2^31. *)
Theorem pasted_files_read_as_copied room copied host conn i c fh s peer conn_a off size rid :
  pasting room copied host conn i c fh s -> is_support_file_copy_paste peer = true ->
  plain_offset off -> off <= len c -> 0 <= size < 2 ^ 31 ->
  exists req wire es host', clip_2_msg fs req = MCliprdr wire
    /\ host_on_cliprdr ahead fs os mount_point now peer conn_a (Some wire) host = Some (es, host')
    /\ exists answer, on_wire es = [answer]
    /\ forall flags current client cb ch ch',
         is_support_file_copy_paste_num (cf_version flags) = true -> fuse_client client = Some cb ->
         Forall (fun m => exists f s d, m = ContentsResponse f s d /\ s <> rid) (fc_queue cb) ->
         send_data conn req ch = (Ok tt, ch') ->
         exists client' cb', handle_cliprdr_msg ahead fs os mount_point now flags current conn (Some answer) client = Some ([], [], client')
           /\ fuse_client client' = Some cb'
           /\ read (Z.of_nat i + 2) fh off size rid (fc_queue cb') ch s
              = (RData (take (Z.to_nat size) (drop (Z.to_nat off) c)), [], ch').
Proof.
  intros Hp Hpeer Ho Hoc Hsz. destruct (pasting_node _ _ _ _ _ _ _ _ Hp) as (n & Hn & Hni & Hnc & Hh & Hk & Hg).
  destruct Hp as [(fuel & paths & Hfit & Hsync) [Hd Hl] (before & rs & Hbefore & Hask) (f & Hf & Hfc) _].
  assert (Hall : Forall2 (listed fs) (contents fs <$> file_list copied) (file_list copied)).
  { apply synced_list in Hsync; [|done|constructor]. by apply Forall2_fmap_l, Forall_Forall2_diag. }
  destruct (ranges_served ahead fs _ _ _ Hall Hbefore) as (f1 & E1 & Hlisted). rewrite E1 in Hask. injection Hask as _ ->.
  assert (Hi31 : Z.of_nat i < 2 ^ 31) by (apply lookup_lt_Some in Hf; unfold len in *; lia).
  assert (Hci : (contents fs <$> file_list copied) !! i = Some (Some c)) by (by rewrite list_lookup_fmap, Hf; cbn; rewrite Hfc).
  destruct (host_answers peer conn_a _ _ rid i off size c Hpeer Hlisted Hci Hi31 Ho Hoc Hsz) as (es & host' & E & Hwire & _).
  pose proof (request_numbers n i rid off size Hni Hi31 Ho Hsz) as Hreq.
  exists (request_for n rid off size). eexists. exists es, host'. rewrite Hreq. split; [reflexivity|]. split; [exact E|].
  eexists. split; [exact Hwire|]. intros flags current client cb ch ch' Hv Hcb Hq Hsend.
  cbn [handle_cliprdr_msg msg_2_clip is_beginning_message andb]. rewrite Hv. cbn [serve_clip_messages context_of].
  rewrite Hcb. cbn. eexists _, _. split; [reflexivity|]. split; [reflexivity|]. cbn.
  unfold read. rewrite Hn, Hh, Hk, Hg. cbn [negb]. rewrite bool_decide_true by done. cbn [negb].
  unfold read_node. rewrite Hnc, Hreq, Hsend, await_answer by done. done.
Qed.
End Paste.

(** ** Evaluated *)

#[local] Existing Instance toy_utf16.
#[local] Existing Instance toy_utf16_laws.

Definition ex_mounts : Mounts := mkMounts (fun _ => HealthyMount) (Ok tt) (Ok tt).
Definition ex_points (s : ClipboardSide) : string := match s with Host => "/mnt/server" | Client => "/mnt/client" end.
Definition ex_context : FuseContext := mkContext new_server [] "/mnt/client" 0.
Definition ex_loaded : FuseContext :=
  match context_to_urls 100 (files_pdu ex_synced) 4 ex_context with Some (_, c) => c | None => ex_context end.
Definition ex_used : FuseServer :=
  match fuse_run ex_room [Lookup 1 "t"; Lookup 2 "b"; Getattr 3] (fc_server ex_loaded) with Some (_, s) => s | None => new_server end.
Definition ex_mounted : FuseServer :=
  match fuse_step ex_room (Open 3) ex_used with Some (_, s) => s | None => new_server end.

Lemma ex_fits : fits (ex_copy_fs true).
Proof. intros i n. cbn. rewrite !lookup_insert_Some. intros [[_ <-]|[_ [[_ <-]|[_ [=]]]]]; vm_compute; congruence. Qed.

Lemma ex_pasting : pasting ex_ahead (ex_copy_fs true) ex_meta 100 ex_room ex_synced
  (mkClipState ex_synced None None) 4 1 ex_bytes 0 ex_mounted.
Proof.
  split.
  - exists 5%nat, ["/t"]. split; [apply ex_fits|vm_compute; reflexivity].
  - split; [|vm_compute; reflexivity].
    assert (E : attributes <$> file_list ex_synced
      = [mkAttributes "t" 4096 1700000000000000000 true 33188 false false false false false;
         mkAttributes "t/b" 5 1700000000000000000 false 33188 false false false false true;
         mkAttributes "t/a" 1 1700000000000000000 false 33188 false false false false true]) by (vm_compute; reflexivity).
    rewrite E. repeat constructor; vm_compute; congruence.
  - exists [], []. split; [constructor|reflexivity].
  - eexists. split; vm_compute; reflexivity.
  - exists ex_context, ["/mnt/client/t"], ex_loaded, [Lookup 1 "t"; Lookup 2 "b"; Getattr 3].
    eexists _, ex_used. split; [exists [], []; split; [constructor|done]|].
    split; [vm_compute; reflexivity|]. split; [repeat constructor; vm_compute; congruence|]. split; [repeat constructor|].
    split; [vm_compute; reflexivity|]. split; vm_compute; reflexivity.
Qed.

Lemma pasted_files_read_as_copied_witness :
  exists req wire es host', clip_2_msg (ex_copy_fs true) req = MCliprdr wire
    /\ host_on_cliprdr ex_ahead (ex_copy_fs true) ex_mounts ex_points 100 "1.4.0" 9 (Some wire) (mkClipState ex_synced None None) = Some (es, host')
    /\ exists answer, on_wire es = [answer]
    /\ forall flags current client cb ch ch',
         is_support_file_copy_paste_num (cf_version flags) = true -> fuse_client client = Some cb ->
         Forall (fun m => exists f s d, m = ContentsResponse f s d /\ s <> 77) (fc_queue cb) ->
         send_data 4 req ch = (Ok tt, ch') ->
         exists client' cb', handle_cliprdr_msg ex_ahead (ex_copy_fs true) ex_mounts ex_points 100 flags current 4 (Some answer) client = Some ([], [], client')
           /\ fuse_client client' = Some cb'
           /\ read 3 0 1 3 77 (fc_queue cb') ch ex_mounted = (RData [x02; x03; x04], [], ch').
Proof.
  apply (pasted_files_read_as_copied ex_ahead (ex_copy_fs true) ex_meta ex_mounts ex_points 100 ex_room ex_synced
    (mkClipState ex_synced None None) 4 1 ex_bytes 0 ex_mounted "1.4.0" 9 1 3 77 ex_pasting); try (vm_compute; congruence); try lia.
  - split; vm_compute; [split|]; congruence.
Defined.

(** *** Findings *)

(** The permission to copy files was withdrawn: the controlled side no longer announces files
    and answers no question about formats that it is asked to pass on; but it still hands out
    the description and the bytes of files that were copied there. *)
Lemma contents_without_permission :
  handle_file_clip (ex_copy_fs true) true false false get_format_list = []
  /\ (exists pdu, fst <$> host_on_cliprdr ex_ahead (ex_copy_fs true) ex_mounts ex_points 100 "1.4.0" 9
        (Some (UFormatDataRequest FILEDESCRIPTOR_FORMAT_ID)) (mkClipState ex_synced None None)
      = Some [Sent (MCliprdr (UFormatDataResponse 1 pdu))])
  /\ fst <$> host_on_cliprdr ex_ahead (ex_copy_fs true) ex_mounts ex_points 100 "1.4.0" 9
        (Some (UContentsRequest 77 1 2 0 0 5 false 0)) (mkClipState ex_synced None None)
      = Some [AuditSend [("/t/b", 5); ("/t/a", 1)]; Sent (MCliprdr (UContentsResponse 1 77 ex_bytes))].
Proof. split; [reflexivity|]. split; [eexists; vm_compute; reflexivity|vm_compute; reflexivity]. Qed.
