(* ===== verification/ClipText.v ===== *)
(** * What is copied, on the wire (src/clipboard.rs)

    Texts, images and other contents of a clipboard, and the messages that carry them
    ([mod proto]): compressed where that is shorter.  A content arrives as it was sent. *)

From S2P Require Import Prelude Compress TermBuffer Messages.

(** ** Data *)

(** Texts are the bytes of valid UTF-8; an image of SVG is a text too. *)
Abbreviation text := (list byte).

(** [arboard::ClipboardData], with the three images of [arboard::ImageData]. *)
Inductive ClipboardData : Type :=
| Text (s : text)
| Html (s : text)
| Rtf (s : text)
| ImageRgba (width height : Z) (bytes : list byte)
| ImagePng (png : list byte)
| ImageSvg (svg : text)
| FileUrl (urls : list string)
| Special (name : string) (data : list byte)
| NoData.

#[export] Instance clipboard_data_eq_dec : EqDecision ClipboardData.
Proof. solve_decision. Defined.

Definition is_file_url (c : ClipboardData) : bool := match c with FileUrl _ => true | _ => false end.

(** [ClipboardFormat] of message.proto, by its number. *)
Definition PText : Z := 0.
Definition PRtf : Z := 1.
Definition PHtml : Z := 2.
Definition PImageRgba : Z := 21.
Definition PImagePng : Z := 22.
Definition PImageSvg : Z := 23.
Definition PSpecial : Z := 31.

Record Clipboard : Type := mkClipboard {
  cb_compress : bool; cb_content : list byte; cb_width : Z; cb_height : Z; cb_format : Z; cb_special_name : string }.

#[export] Instance clipboard_eq_dec : EqDecision Clipboard.
Proof. solve_decision. Defined.

(** The messages that carry clipboards. *)
Inductive ClipboardMsg : Type := MClipboard (c : Clipboard) | MMultiClipboards (l : list Clipboard).

Definition clipboards_of (m : ClipboardMsg) : list Clipboard :=
  match m with MClipboard c => [c] | MMultiClipboards l => l end.

(** ** To and from messages *)

Section Proto.
Context `{Zstd}.

Definition plain_to_proto (s : text) (format : Z) : Clipboard :=
  let compressed := compress s in
  let c := len compressed <? len s in
  mkClipboard c (if c then compressed else s) 0 0 format "".

Definition image_to_proto (a : ClipboardData) : option Clipboard :=
  match a with
  | ImageRgba w h bytes =>
      let compressed := compress bytes in
      let c := len compressed <? len bytes in
      Some (mkClipboard c (if c then compressed else bytes) (as_i32 w) (as_i32 h) PImageRgba "")
  | ImagePng png => Some (mkClipboard false png 0 0 PImagePng "")
  | ImageSvg svg =>
      let compressed := compress svg in
      let c := len compressed <? len svg in
      Some (mkClipboard c (if c then compressed else svg) 0 0 PImageSvg "")
  | _ => None
  end.

Definition special_to_proto (d : list byte) (s : string) : Clipboard :=
  let compressed := compress d in
  let c := len compressed <? len d in
  mkClipboard c (if c then compressed else String.list_byte_of_string s) 0 0 PSpecial s.

Definition clipboard_data_to_proto (d : ClipboardData) : option Clipboard :=
  match d with
  | Text s => Some (plain_to_proto s PText)
  | Rtf s => Some (plain_to_proto s PRtf)
  | Html s => Some (plain_to_proto s PHtml)
  | ImageRgba _ _ _ | ImagePng _ | ImageSvg _ => image_to_proto d
  | Special s d => Some (special_to_proto d s)
  | FileUrl _ | NoData => None
  end.

Definition create_multi_clipboards (l : list ClipboardData) : list Clipboard := omap clipboard_data_to_proto l.

(** [String::from_utf8]. *)
Definition from_utf8 (d : list byte) : option text := if utf8_valid d then Some d else None.

Definition clip_bytes (c : Clipboard) : list byte := if cb_compress c then decompress (cb_content c) else cb_content c.

Definition from_clipboard (c : Clipboard) : option ClipboardData :=
  let data := clip_bytes c in
  if cb_format c =? PText then Text <$> from_utf8 data
  else if cb_format c =? PRtf then Rtf <$> from_utf8 data
  else if cb_format c =? PHtml then Html <$> from_utf8 data
  else if cb_format c =? PImageRgba then Some (ImageRgba (as_u64 (cb_width c)) (as_u64 (cb_height c)) data)
  else if cb_format c =? PImagePng then Some (ImagePng data)
  else if cb_format c =? PImageSvg then Some (ImageSvg (default [] (from_utf8 data)))
  else if cb_format c =? PSpecial then Some (Special (cb_special_name c) data)
  else None.

Definition from_multi_clipboards (l : list Clipboard) : list ClipboardData := omap from_clipboard l.

(** *** Peers that know one text only *)

Definition is_support_multi_clipboard (peer_version peer_platform : string) : bool :=
  if get_version_number peer_version <? get_version_number "1.3.0" then false
  else if String.eqb peer_platform "" || String.eqb peer_platform "iOS" then false
  else if String.eqb "Android" peer_platform && (get_version_number peer_version <? get_version_number "1.3.3") then false
  else true.

(** The first text clipboard. *)
Definition first_text (l : list Clipboard) : option ClipboardMsg :=
  (MClipboard ∘ snd) <$> list_find (fun c => cb_format c = PText) l.

Definition get_msg_if_not_support_multi_clip (version platform : string) (l : list Clipboard) : option ClipboardMsg :=
  if is_support_multi_clipboard version platform then None else first_text l.

(** ** Round trip *)

(** The contents there are: texts are UTF-8, an image's sides fit an [i32], and nothing is
    larger than what is unpacked. *)
Definition well_formed (d : ClipboardData) : Prop :=
  match d with
  | Text s | Html s | Rtf s | ImageSvg s => utf8_valid s = true /\ len s <= MAX_DECOMPRESSED_SIZE
  | ImageRgba w h b => 0 <= w < 2 ^ 31 /\ 0 <= h < 2 ^ 31 /\ len b <= MAX_DECOMPRESSED_SIZE
  | Special _ b => len b <= MAX_DECOMPRESSED_SIZE
  | ImagePng _ | FileUrl _ | NoData => True
  end.

(** What arrives of a content: files go another way, and a special content that does not
    get shorter is replaced by the name of its format. *)
Definition arrived (d : ClipboardData) : option ClipboardData :=
  match d with
  | FileUrl _ | NoData => None
  | Special s b => Some (Special s (if len (compress b) <? len b then b else String.list_byte_of_string s))
  | _ => Some d
  end.

Context `{!ZstdLaws, !ZstdTotal}.

Lemma packed_bytes (b other : list byte) :
  len b <= MAX_DECOMPRESSED_SIZE ->
  (if len (compress b) <? len b
   then decompress (if len (compress b) <? len b then compress b else other)
   else (if len (compress b) <? len b then compress b else other))
  = if len (compress b) <? len b then b else other.
Proof. intros Hb. case_match; [by apply decompress_compress|done]. Qed.

Lemma same_either {A} (c : bool) (x : A) : (if c then x else x) = x.
Proof. by destruct c. Qed.

Lemma side_back w : 0 <= w < 2 ^ 31 -> as_u64 (as_i32 w) = w.
Proof.
  intros Hw. unfold swrap. change (2 ^ (32 - 1)) with (2 ^ 31).
  rewrite (Z.mod_small w) by lia. destruct (Z.ltb_spec w (2 ^ 31)); [|lia]. apply wrap_small. lia.
Qed.

Lemma clipboard_arrives d : well_formed d -> clipboard_data_to_proto d ≫= from_clipboard = arrived d.
Proof.
  destruct d; cbn [well_formed]; intros Hd; try done;
    unfold clipboard_data_to_proto, image_to_proto, plain_to_proto, special_to_proto; cbn [mbind option_bind];
    unfold from_clipboard, clip_bytes; cbn -[compress decompress Z.ltb as_i32 as_u64 String.list_byte_of_string];
    rewrite ?packed_bytes, ?same_either by naive_solver; unfold from_utf8;
    try (destruct Hd as [-> _]); cbn [fmap option_fmap option_map default]; try done.
  destruct Hd as (? & ? & _). by rewrite !side_back.
Qed.

(** What is copied arrives as it was copied.  For every list of contents, with texts in
    UTF-8, images of sides below 2^31 and nothing above 256 MB, what the other side makes of
    the message is that list: without file names, which go another way, and with the name of
    the format in place of a special content that compression does not shorten. *)
Theorem clipboards_arrive (l : list ClipboardData) :
  Forall well_formed l -> from_multi_clipboards (create_multi_clipboards l) = omap arrived l.
Proof.
  unfold from_multi_clipboards, create_multi_clipboards.
  induction 1 as [|d l Hd Hl IH]; [done|]. cbn [omap list_omap].
  rewrite <- (clipboard_arrives d Hd), <- IH.
  destruct (clipboard_data_to_proto d) as [c|]; [|done]. cbn [omap list_omap mbind option_bind].
  done.
Qed.
End Proto.

Lemma clipboards_arrive_witness :
  let l := [Text [x00; x00; x41]; FileUrl ["file:///a"]; ImageRgba 1 1 [x00; x00; x01; x02];
            Special "x" [x00; x00; x05; x06]; Special "y" [x41; x42]] in
  Forall well_formed l /\
  @from_multi_clipboards toy_zstd (@create_multi_clipboards toy_zstd l)
  = [Text [x00; x00; x41]; ImageRgba 1 1 [x00; x00; x01; x02]; Special "x" [x00; x00; x05; x06]; Special "y" [x79]].
Proof.
  assert (H : Forall well_formed [Text [x00; x00; x41]; FileUrl ["file:///a"]; ImageRgba 1 1 [x00; x00; x01; x02];
            Special "x" [x00; x00; x05; x06]; Special "y" [x41; x42]]).
  { repeat apply Forall_cons_2; [..|apply Forall_nil_2];
      vm_compute; repeat split; (done || discriminate). }
  split; [exact H|].
  exact (@clipboards_arrive toy_zstd toy_zstd_laws toy_zstd_total _ H).
Defined.

(** The name is sent in place of the data. *)
Example special_loses_data :
  let d := Special "XML Spreadsheet" [x3c; x61; x2f; x3e] in
  @from_multi_clipboards toy_zstd (@create_multi_clipboards toy_zstd [d])
  = [Special "XML Spreadsheet" (String.list_byte_of_string "XML Spreadsheet")].
Proof. vm_compute. reflexivity. Qed.

(** What is on the wire never makes a list of files. *)
Theorem no_files_from_peer `{Zstd} (l : list Clipboard) :
  Forall (fun d => is_file_url d = false) (from_multi_clipboards l).
Proof.
  apply Forall_forall. intros d. unfold from_multi_clipboards. rewrite list_elem_of_omap.
  intros (c & _ & Hc). unfold from_clipboard in Hc. repeat case_match; simplify_option_eq;
    try (apply fmap_Some in Hc as (? & _ & ->)); done.
Qed.

(** An image whose side does not fit an [i32] arrives with another. *)
Example wide_image_wraps :
  @from_multi_clipboards toy_zstd (@create_multi_clipboards toy_zstd [ImageRgba (2 ^ 31) 0 []])
  = [ImageRgba (2 ^ 64 - 2 ^ 31) 0 []].
Proof. vm_compute. reflexivity. Qed.
