(* ===== verification/ClipBoards.v ===== *)
(** * The system's clipboard (src/clipboard.rs, [ClipboardContext], and the handlers that
    watch it: server/clipboard_service.rs and [ClientClipboardHandler] of client.rs)

    The crate arboard, that reaches the system's clipboard, is a parameter.  What is put
    there for the other side is marked as not the user's own. *)

From S2P Require Import Prelude Compress Messages ClipText ClipMsg.

(** ** Formats and the mark *)

Inductive Format : Type := FText | FHtml | FRtf | FImageRgba | FImagePng | FImageSvg | FFileUrl | FSpecial (name : string).

#[export] Instance format_eq_dec : EqDecision Format.
Proof. solve_decision. Defined.

Definition format_of (d : ClipboardData) : option Format :=
  match d with
  | Text _ => Some FText | Html _ => Some FHtml | Rtf _ => Some FRtf
  | ImageRgba _ _ _ => Some FImageRgba | ImagePng _ => Some FImagePng | ImageSvg _ => Some FImageSvg
  | FileUrl _ => Some FFileUrl | Special n _ => Some (FSpecial n) | NoData => None
  end.

Definition RUSTDESK_CLIPBOARD_OWNER_FORMAT : string := "dyn.com.rustdesk.owner".
Definition CLIPBOARD_FORMAT_EXCEL_XML_SPREADSHEET : string := "XML Spreadsheet".
Definition CLIPBOARD_GET_MAX_RETRY : nat := 3.

Definition SUPPORTED_FORMATS : list Format :=
  [FText; FHtml; FRtf; FImageRgba; FImagePng; FImageSvg; FFileUrl;
   FSpecial CLIPBOARD_FORMAT_EXCEL_XML_SPREADSHEET; FSpecial RUSTDESK_CLIPBOARD_OWNER_FORMAT].

Definition get_owner_data (s : ClipboardSide) : list byte := match s with Host => [x01] | Client => [x02] end.

(** [is_owner]: the side it is asked of does not matter. *)
Definition is_owner (data : list byte) : bool :=
  match data with [] => false | b :: _ => negb (Z.land (u8_to_Z b) 3 =? 0) end.

Definition is_mark (c : ClipboardData) : bool :=
  match c with Special s d => String.eqb s RUSTDESK_CLIPBOARD_OWNER_FORMAT && is_owner d | _ => false end.

Definition append_owner_marker (data : list ClipboardData) (side : ClipboardSide) : list ClipboardData :=
  data ++ [Special RUSTDESK_CLIPBOARD_OWNER_FORMAT (get_owner_data side)].

(** ** The system's clipboard *)

Inductive BoardError : Type := ClipboardOccupied | OtherError.

(** [read_formats n fs b]: [get_formats], the [n]-th time it is called; others may hold the
    clipboard then.  [write_formats]: [set_formats], and whether it succeeded. *)
Class Arboard (Board : Type) : Type := {
  read_formats : nat -> list Format -> Board -> result BoardError (list ClipboardData);
  write_formats : list ClipboardData -> Board -> bool * Board }.

(** [d] stands in [l] and none after it has its format. *)
Definition last_of_format (d : ClipboardData) (l : list ClipboardData) : Prop :=
  exists l1 l2, l = l1 ++ d :: l2 /\ Forall (fun e => format_of e <> format_of d) l2.

(** What the clipboard holds: what was last written, unless the writing failed.  What is read
    is held, and of the formats asked for the last of each is read. *)
Class ArboardLaws {Board} `{Arboard Board} : Type := {
  held : Board -> list ClipboardData;
  held_written d b b' : write_formats d b = (true, b') -> held b' = d;
  held_failed d b b' : write_formats d b = (false, b') -> held b' = held b \/ held b' = [];
  read_held n fs b l d : read_formats n fs b = Ok l -> d ∈ l -> d = NoData \/ d ∈ held b;
  last_read n fs b l d f : read_formats n fs b = Ok l -> format_of d = Some f -> f ∈ fs ->
    last_of_format d (held b) -> d ∈ l }.

Section Board.
Context {Board : Type} `{Arboard Board}.

(** [get_formats], from the [n]-th call on: up to [CLIPBOARD_GET_MAX_RETRY] times while the
    clipboard is held by another. *)
Fixpoint get_formats_from (tries n : nat) (fs : list Format) (b : Board) : result BoardError (list ClipboardData) :=
  match tries with
  | O => Err ClipboardOccupied
  | S tries =>
      match read_formats n fs b with
      | Ok data => Ok (filter (fun d => d <> NoData) data)
      | Err ClipboardOccupied => get_formats_from tries (S n) fs b
      | Err OtherError => Err OtherError
      end
  end.
Definition get_formats (n : nat) : list Format -> Board -> result BoardError (list ClipboardData) :=
  get_formats_from CLIPBOARD_GET_MAX_RETRY n.

Definition kept (c : ClipboardData) : bool :=
  match c with
  | Special s _ => negb (String.eqb s RUSTDESK_CLIPBOARD_OWNER_FORMAT)
  | Text t => negb (len t =? 0)
  | _ => true
  end.

Definition get_formats_filter (n : nat) (fs : list Format) (force : bool) (b : Board) : result BoardError (list ClipboardData) :=
  let? data := get_formats n fs b in
  match data with
  | [] => Ok data
  | _ => if negb force && existsb is_mark data then Ok [] else Ok (filter (fun c => kept c = true) data)
  end.

Definition get (n : nat) (force : bool) (b : Board) : result BoardError (list ClipboardData) :=
  let? data := get_formats_filter n SUPPORTED_FORMATS force b in
  if existsb is_file_url data then Ok [] else Ok data.

Definition get_files (n : nat) (force : bool) (b : Board) : result BoardError (option (list string)) :=
  let? data := get_formats_filter n [FFileUrl; FSpecial RUSTDESK_CLIPBOARD_OWNER_FORMAT] force b in
  Ok (head (omap (fun c => match c with FileUrl urls => Some urls | _ => None end) data)).

(** [do_update_clipboard_] and, for a text that is typed by pasting it,
    [set_text_clipboard_with_owner_sync]. *)
Definition do_update_clipboard_ (data : list ClipboardData) (side : ClipboardSide) (b : Board) : Board :=
  snd (write_formats (append_owner_marker data side) b).
Definition set_text_clipboard_with_owner_sync (t : text) (side : ClipboardSide) (b : Board) : bool * Board :=
  write_formats (append_owner_marker [Text t] side) b.

(** [update_clipboard_files] of clipboard.rs: files of the other side are put there. *)
Definition update_board_files (files : list string) (side : ClipboardSide) (b : Board) : Board :=
  match files with [] => b | _ => do_update_clipboard_ [FileUrl files] side b end.

(** *** Emptying: when the files there are those that were mounted. *)

Definition get_file_urls_set_by_rustdesk (exclude_path : string) (data : list ClipboardData) : list string :=
  concat (omap (fun c => match c with FileUrl urls => Some (filter (fun s => String.prefix exclude_path s = true) urls) | _ => None end) data).

Definition try_empty_clipboard_files (n : nat) (exclude_path : string) (is_kde_x11 : bool) (side : ClipboardSide) (b : Board) : Board :=
  match get_formats n [FFileUrl] b with
  | Err _ => b
  | Ok data =>
      match get_file_urls_set_by_rustdesk exclude_path data with
      | [] => b
      | _ =>
          let clear_holder_text :=
            if is_kde_x11 then String.list_byte_of_string "RustDesk placeholder to clear the file clipboard" else [] in
          snd (write_formats [Text clear_holder_text; Special RUSTDESK_CLIPBOARD_OWNER_FORMAT (get_owner_data side)] b)
      end
  end.

Context `{Zstd}.

Definition update_clipboard_ (l : list Clipboard) (side : ClipboardSide) (b : Board) : Board :=
  match from_multi_clipboards l with [] => b | data => do_update_clipboard_ data side b end.

(** ** Reading what was copied *)

Definition read_clipboard_message (n : nat) (force : bool) (b : Board) : option (ClipboardMsg * list Clipboard) :=
  match get n force b with
  | Ok [] | Err _ => None
  | Ok content => let l := create_multi_clipboards content in Some (MMultiClipboards l, l)
  end.

(** [last_]: LAST_MULTI_CLIPBOARDS. *)
Definition check_clipboard (n : nat) (force : bool) (b : Board) (last_ : list Clipboard) : option ClipboardMsg * list Clipboard :=
  match read_clipboard_message n force b with
  | Some (msg, clipboards) => (Some msg, clipboards)
  | None => (None, last_)
  end.

Definition peek_clipboard (n : nat) (force : bool) (b : Board) : option ClipboardMsg := fst <$> read_clipboard_message n force b.

Definition check_clipboard_files (n : nat) (force : bool) (b : Board) : option (list string) :=
  match get_files n force b with Ok (Some (u :: us)) => Some (u :: us) | _ => None end.

(** What a new session sends first, when the option for it is set. *)
Definition get_current_clipboard_msg (n : nat) (peer_version peer_platform : string) (b : Board) (last_ : list Clipboard)
  : option ClipboardMsg * list Clipboard :=
  match (match last_ with
         | [] => match get n true b with Ok content => Some (create_multi_clipboards content) | Err _ => None end
         | _ => Some last_
         end) with
  | None => (None, last_)
  | Some [] => (None, [])
  | Some l => (if is_support_multi_clipboard peer_version peer_platform then Some (MMultiClipboards l) else first_text l, l)
  end.

(** *** The controlled side *)

(** [Handler::get_clipboard_msg] on Linux; [skip]: [should_skip_wayland_clipboard_sync]. *)
Definition get_clipboard_msg (n : nat) (skip : ClipboardMsg -> bool) (b : Board) : option ClipboardMsg :=
  match peek_clipboard n false b with
  | None => None
  | Some msg => if skip msg then None else Some msg
  end.

(** What a connection makes of a message of the service. *)
Definition for_peer (version platform : string) (m : ClipboardMsg) : ClipboardMsg :=
  match m with
  | MMultiClipboards l => default m (get_msg_if_not_support_multi_clip version platform l)
  | MClipboard _ => m
  end.

(** *** The controlling side *)

Inductive ClientSent : Type := SentFiles (c : ClipMessage) | SentClipboard (m : ClipboardMsg).

(** [send_msg], to a peer of the version and platform; without the former it is not known yet. *)
Definition send_msg (is_file_supported : bool) (pi : option (string * string)) (m : ClientSent) : list ClientSent :=
  match m with
  | SentFiles _ => if is_file_supported then [m] else []
  | SentClipboard msg => [SentClipboard (match pi with Some (v, p) => for_peer v p msg | None => msg end)]
  end.

(** [send_clipboard_msg] of flutter.rs: all windows share one reader of the clipboard, and each
    session gets what it wants in the form its peer knows. *)
Record ClipSession : Type := mkClipSession {
  cs_default : bool; cs_file_supported : bool; cs_file_required : bool; cs_text_required : bool;
  cs_version : string; cs_platform : string }.

Definition session_clipboard_msg (m : ClientSent) (s : ClipSession) : list ClientSent :=
  if negb (cs_default s) then []
  else match m with
  | SentFiles _ => if cs_file_supported s && cs_file_required s then [m] else []
  | SentClipboard msg => if cs_text_required s then [SentClipboard (for_peer (cs_version s) (cs_platform s) msg)] else []
  end.
Definition send_clipboard_msg (m : ClientSent) (sessions : list ClipSession) : list (list ClientSent) :=
  map (session_clipboard_msg m) sessions.

(** [ClientClipboardHandler::check_clipboard].  [sync_files urls]: whether the files can be
    served; [fmts]: the message that offers them. *)
Definition client_check_clipboard (n : nat) (running is_file_required is_text_required : bool)
    (sync_files : list string -> bool) (fmts : ClipMessage) (b : Board) (last_ : list Clipboard)
  : list ClientSent * list Clipboard :=
  if negb running then ([], last_)
  else
    let text :=
      let '(msg, last_) := check_clipboard (n + CLIPBOARD_GET_MAX_RETRY) false b last_ in
      (match msg with Some m => if is_text_required then [SentClipboard m] else [] | None => [] end, last_) in
    match check_clipboard_files n false b with
    | Some urls => if is_file_required then (if sync_files urls then [SentFiles fmts] else [], last_) else text
    | None => text
    end.

(** ** What is read *)

Context `{!ArboardLaws}.

Lemma get_formats_from_held tries : forall n fs b l d,
  get_formats_from tries n fs b = Ok l -> d ∈ l -> d ∈ held b.
Proof.
  induction tries as [|tries IH]; intros n fs b l d Hl Hd; [done|]. cbn [get_formats_from] in Hl.
  destruct (read_formats n fs b) as [data|[|]] eqn:E; [|exact (IH _ _ _ _ _ Hl Hd)|done].
  injection Hl as <-. apply list_elem_of_filter in Hd as [Hn Hd].
  by destruct (read_held _ _ _ _ _ E Hd).
Qed.

Lemma get_formats_from_last tries : forall n fs b l d f,
  get_formats_from tries n fs b = Ok l -> format_of d = Some f -> f ∈ fs -> last_of_format d (held b) -> d ∈ l.
Proof.
  induction tries as [|tries IH]; intros n fs b l d f Hl Hf Hin Hd; [done|]. cbn [get_formats_from] in Hl.
  destruct (read_formats n fs b) as [data|[|]] eqn:E; [|exact (IH _ _ _ _ _ _ Hl Hf Hin Hd)|done].
  injection Hl as <-. apply list_elem_of_filter. split; [by intros ->|]. by eapply last_read.
Qed.

(** The mark stands last. *)
Definition board_marked (b : Board) : Prop := exists data side, held b = append_owner_marker data side.

Lemma is_mark_owner side : is_mark (Special RUSTDESK_CLIPBOARD_OWNER_FORMAT (get_owner_data side)) = true.
Proof. by destruct side. Qed.

(** What is marked is not read as the user's: neither contents nor files. *)
Lemma marked_not_read n fs b l :
  board_marked b -> FSpecial RUSTDESK_CLIPBOARD_OWNER_FORMAT ∈ fs -> get_formats_filter n fs false b = Ok l -> l = [].
Proof.
  intros (data & side & Hm) Hfs. unfold get_formats_filter, get_formats.
  destruct (get_formats_from _ n fs b) as [r|e] eqn:E; [|done]. cbn [rbind].
  assert (Hin : Special RUSTDESK_CLIPBOARD_OWNER_FORMAT (get_owner_data side) ∈ r).
  { eapply get_formats_from_last; [exact E|done|exact Hfs|]. rewrite Hm. by exists data, []. }
  assert (Hx : existsb is_mark r = true).
  { apply existsb_exists. eexists. split; [by apply list_elem_of_In|apply is_mark_owner]. }
  destruct r; [by intros [= <-]|]. rewrite Hx. cbn. by intros [= <-].
Qed.

Lemma filter_read n fs force b l d : get_formats_filter n fs force b = Ok l -> d ∈ l -> d ∈ held b /\ (l <> [] -> kept d = true).
Proof.
  unfold get_formats_filter, get_formats. destruct (get_formats_from _ n fs b) as [r|e] eqn:E; [|done]. cbn [rbind].
  destruct r as [|x r]; [by intros [= <-] Hd; apply not_elem_of_nil in Hd|].
  destruct (negb force && existsb is_mark (x :: r)); [by intros [= <-] Hd; apply not_elem_of_nil in Hd|].
  intros [= <-] Hd. apply list_elem_of_filter in Hd as [Hk Hd]. split; [by eapply get_formats_from_held|done].
Qed.

(** Every clipboard of a message is a content that is held. *)
Definition comes_from (data : list ClipboardData) (l : list Clipboard) : Prop :=
  forall c, c ∈ l -> exists d, d ∈ data /\ kept d = true /\ clipboard_data_to_proto d = Some c.

Lemma message_held n force b m l :
  read_clipboard_message n force b = Some (m, l) -> m = MMultiClipboards l /\ comes_from (held b) l.
Proof.
  unfold read_clipboard_message, get.
  destruct (get_formats_filter n SUPPORTED_FORMATS force b) as [r|e] eqn:E; [|done]. cbn [rbind].
  destruct (existsb is_file_url r); [done|]. destruct r as [|x r]; [done|]. intros [= <- <-].
  split; [done|]. intros c Hc. unfold create_multi_clipboards in Hc.
  change (c ∈ omap clipboard_data_to_proto (x :: r)) in Hc.
  apply list_elem_of_omap in Hc as (d & Hd & Hp). exists d.
  destruct (filter_read _ _ _ _ _ _ E Hd) as [Hh Hk]. split_and!; [done|by apply Hk|done].
Qed.

(** What is held and kept is in the message, unless files are held. *)
Lemma message_has n force b m l d f c :
  read_clipboard_message n force b = Some (m, l) -> last_of_format d (held b) -> f ∈ SUPPORTED_FORMATS ->
  format_of d = Some f -> kept d = true -> clipboard_data_to_proto d = Some c -> c ∈ l.
Proof.
  unfold read_clipboard_message, get, get_formats_filter, get_formats. intros Hr Hd Hin Hf Hk Hp.
  destruct (get_formats_from CLIPBOARD_GET_MAX_RETRY n SUPPORTED_FORMATS b) as [r|e] eqn:E; [|done]. cbn [rbind] in Hr.
  assert (Hdr : d ∈ r) by exact (get_formats_from_last _ _ _ _ _ _ _ E Hf Hin Hd).
  destruct r as [|x r]; [done|]. destruct (negb force && existsb is_mark (x :: r)); [done|]. cbn [rbind] in Hr.
  destruct (existsb is_file_url _); [done|].
  destruct (filter (fun c => kept c = true) (x :: r)) as [|y q] eqn:Eq; [done|]. assert (Hl : l = create_multi_clipboards (y :: q)) by congruence.
  rewrite Hl, <- Eq.
  apply list_elem_of_omap. exists d. split; [by apply list_elem_of_filter|done].
Qed.

Lemma message_unmarked n b m l : read_clipboard_message n false b = Some (m, l) -> ~ board_marked b.
Proof.
  intros Hr Hm. unfold read_clipboard_message, get in Hr.
  destruct (get_formats_filter n SUPPORTED_FORMATS false b) as [r|e] eqn:E; [|done].
  apply marked_not_read in E; [by subst r|done|]. by repeat (constructor; try done).
Qed.

(** The board after it was set for the other side. *)
Lemma set_board_marked data side b :
  board_marked (do_update_clipboard_ data side b) \/ held (do_update_clipboard_ data side b) = held b \/
  held (do_update_clipboard_ data side b) = [].
Proof.
  unfold do_update_clipboard_. destruct (write_formats (append_owner_marker data side) b) as [[|] b'] eqn:E; cbn.
  - left. exists data, side. by eapply held_written.
  - right. by eapply held_failed.
Qed.
End Board.

(** A window gets what the older interface would send for its session. *)
Lemma session_sends_like_client m s :
  cs_default s = true -> cs_text_required s = true ->
  session_clipboard_msg m s = send_msg (cs_file_supported s && cs_file_required s) (Some (cs_version s, cs_platform s)) m.
Proof. intros Hd Ht. unfold session_clipboard_msg. rewrite Hd, Ht. by destruct m. Qed.
