(* ===== verification/ClipEcho.v ===== *)
(** * No echo: what was copied is sent once (src/clipboard.rs and its users)

    Machines that are connected in any way, each with its clipboard.  What one sends was
    copied by its own user: what it got from another it does not pass on, however the reading,
    the sending and the setting of the clipboards interleave.  And what is sent arrives. *)

From S2P Require Import Prelude Compress TermBuffer Messages ClipText ClipMsg ClipBoards.

(** ** The clipboards of several machines *)

Section Echo.
Context {Board : Type} `{Arboard Board} `{Zstd} `{!ArboardLaws}.

Record Machine : Type := mkMachine { m_side : ClipboardSide; m_board : Board; m_last : list Clipboard }.

(** [net_sent]: who sent which clipboards; [net_copied]: what the users copied, and where. *)
Record Net : Type := mkNet {
  net_machines : nat -> Machine; net_sent : list (nat * list Clipboard); net_copied : list (nat * list ClipboardData) }.

Definition set_machine (i : nat) (m : Machine) (s : Net) : Net :=
  mkNet (fun j => if (j =? i)%nat then m else net_machines s j) (net_sent s) (net_copied s).
Definition with_board (b : Board) (m : Machine) : Machine := mkMachine (m_side m) b (m_last m).
Definition with_last (l : list Clipboard) (m : Machine) : Machine := mkMachine (m_side m) (m_board m) l.
Definition sends (i : nat) (ms : list (list Clipboard)) (s : Net) : Net :=
  mkNet (net_machines s) (net_sent s ++ map (pair i) ms) (net_copied s).
Definition sent_clipboards (l : list ClientSent) : list (list Clipboard) :=
  omap (fun x => match x with SentClipboard m => Some (clipboards_of m) | SentFiles _ => None end) l.

(** The handler of a message, on either side: [allowed] is the permission or the option. *)
Definition on_clipboard_message (allowed : bool) (l : list Clipboard) (m : Machine) : Machine :=
  if allowed then with_board (update_clipboard_ l (m_side m) (m_board m)) m else m.

(** The user's programs do not know the mark. *)
Definition unmarked (l : list ClipboardData) : Prop :=
  Forall (fun d => format_of d <> Some (FSpecial RUSTDESK_CLIPBOARD_OWNER_FORMAT)) l.

Inductive net_step (s : Net) : Net -> Prop :=
(** The user copies something. *)
| net_copies i b : unmarked (held b) ->
    net_step s (mkNet (net_machines (set_machine i (with_board b (net_machines s i)) s)) (net_sent s) ((i, held b) :: net_copied s))
(** The service of a controlled side, for a connection. *)
| net_host_polls i n skip version platform m : get_clipboard_msg n skip (m_board (net_machines s i)) = Some m ->
    net_step s (sends i [clipboards_of (for_peer version platform m)] s)
(** The loop of a controlling side. *)
| net_client_polls i n running is_file_required is_text_required sync fmts supported pi out last_ :
    client_check_clipboard n running is_file_required is_text_required sync fmts
      (m_board (net_machines s i)) (m_last (net_machines s i)) = (out, last_) ->
    net_step s (sends i (sent_clipboards (out ≫= send_msg supported pi)) (set_machine i (with_last last_ (net_machines s i)) s))
(** A session starts when something was read already. *)
| net_starts i n version platform m last_ : m_last (net_machines s i) <> [] ->
    get_current_clipboard_msg n version platform (m_board (net_machines s i)) (m_last (net_machines s i)) = (Some m, last_) ->
    net_step s (sends i [clipboards_of m] (set_machine i (with_last last_ (net_machines s i)) s))
(** A message that was sent is handled, by anyone, at any time, once or more often: the
    threads that set the clipboard are not ordered. *)
| net_delivers i allowed j l : (j, l) ∈ net_sent s ->
    net_step s (set_machine i (on_clipboard_message allowed l (net_machines s i)) s)
(** A text is typed by pasting it, files of the other side are put there, or taken away. *)
| net_types i t :
    let m := net_machines s i in
    net_step s (set_machine i (with_board (snd (set_text_clipboard_with_owner_sync t (m_side m) (m_board m))) m) s)
| net_files i urls :
    let m := net_machines s i in
    net_step s (set_machine i (with_board (update_board_files urls (m_side m) (m_board m)) m) s)
| net_empties i n path kde :
    let m := net_machines s i in
    net_step s (set_machine i (with_board (try_empty_clipboard_files n path kde (m_side m) (m_board m)) m) s).

(** At first nothing was sent, and what the clipboards hold was copied there. *)
Definition net_init (s : Net) : Prop :=
  net_sent s = [] /\
  forall i, m_last (net_machines s i) = [] /\
    (held (m_board (net_machines s i)) = [] \/ (i, held (m_board (net_machines s i))) ∈ net_copied s).

(** ** What is sent was copied there *)

Definition copied_at (s : Net) (i : nat) (l : list Clipboard) : Prop :=
  exists data, (i, data) ∈ net_copied s /\ comes_from data l.

Definition own_board (s : Net) (i : nat) (b : Board) : Prop :=
  board_marked b \/ held b = [] \/ (i, held b) ∈ net_copied s.

Definition net_ok (s : Net) : Prop :=
  (forall i l, (i, l) ∈ net_sent s -> copied_at s i l) /\
  (forall i, m_last (net_machines s i) = [] \/ copied_at s i (m_last (net_machines s i))) /\
  (forall i, own_board s i (m_board (net_machines s i))).

Lemma comes_from_sub data l l' : (forall c, c ∈ l' -> c ∈ l) -> comes_from data l -> comes_from data l'.
Proof. intros Hs Hl c Hc. apply Hl, Hs, Hc. Qed.

Lemma first_text_sub l m c : first_text l = Some m -> c ∈ clipboards_of m -> c ∈ l.
Proof.
  unfold first_text. intros (p & Hp & ->)%fmap_Some Hc. destruct p as [k e].
  apply list_elem_of_singleton in Hc as ->. apply list_find_Some in Hp as (Hk & _ & _).
  by eapply list_elem_of_lookup_2.
Qed.

Lemma for_peer_sub v p m c : c ∈ clipboards_of (for_peer v p m) -> c ∈ clipboards_of m.
Proof.
  destruct m as [e|l]; [done|]. cbn [for_peer]. unfold get_msg_if_not_support_multi_clip.
  destruct (is_support_multi_clipboard v p); [done|]. destruct (first_text l) as [m|] eqn:E; [|done].
  intros Hc. by eapply first_text_sub.
Qed.

Lemma send_msg_sub supported pi out l :
  l ∈ sent_clipboards (out ≫= send_msg supported pi) ->
  exists m, SentClipboard m ∈ out /\ forall c, c ∈ l -> c ∈ clipboards_of m.
Proof.
  unfold sent_clipboards. rewrite list_elem_of_omap. intros (x & Hx & Hl).
  apply list_elem_of_bind in Hx as (y & Hx & Hy). destruct y as [f|m]; cbn [send_msg] in Hx.
  - destruct supported; [|by apply not_elem_of_nil in Hx]. by apply list_elem_of_singleton in Hx as ->.
  - apply list_elem_of_singleton in Hx as ->. injection Hl as <-. exists m. split; [done|].
    intros c Hc. destruct pi as [[v p]|]; [by eapply for_peer_sub|done].
Qed.

(** Reading the clipboard, when it is the machine's own or marked. *)
Lemma read_is_own s i n b m l :
  own_board s i b -> read_clipboard_message n false b = Some (m, l) -> m = MMultiClipboards l /\ copied_at s i l.
Proof.
  intros Hb Hr. destruct (message_held _ _ _ _ _ Hr) as [-> Hc]. split; [done|].
  destruct Hb as [Hm|[He|Hin]]; [by apply message_unmarked in Hr| |by exists (held b)].
  exfalso. rewrite He in Hc. unfold read_clipboard_message, get in Hr.
  destruct (get_formats_filter n SUPPORTED_FORMATS false b) as [r|e] eqn:E; [|done]. cbn [rbind] in Hr.
  destruct (existsb is_file_url r); [done|]. destruct r as [|x r]; [done|].
  destruct (filter_read _ _ _ _ _ x E) as [Hx _]; [by left|]. rewrite He in Hx. by apply not_elem_of_nil in Hx.
Qed.

(** Setting the clipboard. *)
Lemma own_set s i b data side : own_board s i b -> own_board s i (do_update_clipboard_ data side b).
Proof.
  intros Hb. destruct (set_board_marked data side b) as [Hm|[He|He]]; [by left| |by right; left].
  unfold own_board. rewrite He. destruct Hb as [(d & sd & Hd)|Hb]; [|by right].
  left. exists d, sd. by rewrite He.
Qed.

Lemma own_emptied s i b n path kde side : own_board s i b -> own_board s i (try_empty_clipboard_files n path kde side b).
Proof.
  intros Hb. unfold try_empty_clipboard_files. destruct (get_formats n [FFileUrl] b) as [data|]; [|done].
  destruct (get_file_urls_set_by_rustdesk path data); [done|].
  by apply (own_set s i b [Text (if kde then _ else _)] side).
Qed.

(** A machine that changes its clipboard or what it read last. *)
Lemma ok_set_machine s i m :
  net_ok s -> own_board s i (m_board m) -> m_last m = [] \/ copied_at s i (m_last m) -> net_ok (set_machine i m s).
Proof.
  intros (Hs & Hl & Hb) Hbm Hlm. split_and!; [exact Hs| |]; intros j; cbn; destruct (Nat.eqb_spec j i) as [->|_];
    [exact Hlm|apply Hl|exact Hbm|apply Hb].
Qed.

Lemma ok_with_board s i b : net_ok s -> own_board s i b -> net_ok (set_machine i (with_board b (net_machines s i)) s).
Proof. intros Hs Hb. apply ok_set_machine; [done|exact Hb|]. apply Hs. Qed.

Lemma ok_sends s i ms : net_ok s -> (forall l, l ∈ ms -> copied_at s i l) -> net_ok (sends i ms s).
Proof.
  intros (Hs & Hl & Hb) Hm. split_and!; [|exact Hl|exact Hb]. intros j l Hj. cbn in Hj.
  apply elem_of_app in Hj as [Hj|Hj]; [by apply Hs|].
  apply list_elem_of_fmap in Hj as (l' & [= -> ->] & Hl'). by apply Hm.
Qed.

Lemma copied_sub s i l l' : (forall c, c ∈ l' -> c ∈ l) -> copied_at s i l -> copied_at s i l'.
Proof. intros Hs (d & Hd & Hc). exists d. split; [done|]. by eapply comes_from_sub. Qed.

Lemma ok_copied s i d :
  net_ok s -> net_ok (mkNet (net_machines s) (net_sent s) ((i, d) :: net_copied s)).
Proof.
  intros (Hs & Hl & Hb). assert (Hc : forall j l, copied_at s j l -> copied_at (mkNet (net_machines s) (net_sent s) ((i, d) :: net_copied s)) j l).
  { intros j l (x & Hx & Hy). exists x. split; [by right|done]. }
  split_and!.
  - intros j l Hj. by apply Hc, Hs.
  - intros j. destruct (Hl j); [by left|right; by apply Hc].
  - intros j. destruct (Hb j) as [?|[?|?]]; [by left|by right; left|right; right; by right].
Qed.

Lemma host_poll_ok s i n skip v p m :
  net_ok s -> get_clipboard_msg n skip (m_board (net_machines s i)) = Some m ->
  net_ok (sends i [clipboards_of (for_peer v p m)] s).
Proof.
  intros Hs Hm. apply ok_sends; [done|]. intros l ->%list_elem_of_singleton.
  unfold get_clipboard_msg, peek_clipboard in Hm.
  destruct (read_clipboard_message n false _) as [[m' l]|] eqn:E; [|done]. cbn in Hm.
  destruct (skip m'); [done|]. injection Hm as ->.
  apply (read_is_own s i) in E as [-> Hc]; [|apply Hs].
  eapply copied_sub; [|exact Hc]. intros c. apply for_peer_sub.
Qed.

Lemma client_check_own s i n running f t sync fmts out last_ :
  net_ok s ->
  client_check_clipboard n running f t sync fmts (m_board (net_machines s i)) (m_last (net_machines s i)) = (out, last_) ->
  (last_ = [] \/ copied_at s i last_) /\ forall m, SentClipboard m ∈ out -> copied_at s i (clipboards_of m).
Proof.
  intros Hs. assert (Hl := proj1 (proj2 Hs) i). unfold client_check_clipboard.
  assert (Hno : forall m : ClipboardMsg, SentClipboard m ∈ [] -> copied_at s i (clipboards_of m)) by (intros ? []%not_elem_of_nil).
  destruct (negb running); [by intros [= <- <-]|]. unfold check_clipboard.
  assert (Ht : (let '(msg, l0) := match read_clipboard_message (n + CLIPBOARD_GET_MAX_RETRY) false (m_board (net_machines s i)) with
                 | Some (msg, cl) => (Some msg, cl) | None => (None, m_last (net_machines s i)) end in
               (match msg with Some m => if t then [SentClipboard m] else [] | None => [] end, l0)) = (out, last_) ->
    (last_ = [] \/ copied_at s i last_) /\ forall m, SentClipboard m ∈ out -> copied_at s i (clipboards_of m)).
  { destruct (read_clipboard_message _ false _) as [[m l]|] eqn:E; [|by intros [= <- <-]].
    apply (read_is_own s i) in E as [-> Hc]; [|apply Hs]. intros [= <- <-]. split; [by right|].
    intros m Hm. destruct t; [|by apply Hno in Hm]. by apply list_elem_of_singleton in Hm as [= ->]. }
  destruct (check_clipboard_files n false _) as [urls|]; [|exact Ht]. destruct f; [|exact Ht].
  intros [= <- <-]. split; [done|]. intros m Hm. destruct (sync urls); [|by apply Hno in Hm].
  by apply list_elem_of_singleton in Hm.
Qed.

Lemma client_poll_ok s i n running f t sync fmts supported pi out last_ :
  net_ok s ->
  client_check_clipboard n running f t sync fmts (m_board (net_machines s i)) (m_last (net_machines s i)) = (out, last_) ->
  net_ok (sends i (sent_clipboards (out ≫= send_msg supported pi)) (set_machine i (with_last last_ (net_machines s i)) s)).
Proof.
  intros Hs Hp. destruct (client_check_own _ _ _ _ _ _ _ _ _ _ Hs Hp) as [Hl Ho].
  apply ok_sends; [apply ok_set_machine; [done|apply Hs|done]|]. intros l Hin.
  destruct (send_msg_sub _ _ _ _ Hin) as (m & Hm & Hsub).
  eapply (copied_sub s) in Hsub; [exact Hsub|by apply Ho].
Qed.

Lemma start_ok s i n v p m last_ :
  net_ok s -> m_last (net_machines s i) <> [] ->
  get_current_clipboard_msg n v p (m_board (net_machines s i)) (m_last (net_machines s i)) = (Some m, last_) ->
  net_ok (sends i [clipboards_of m] (set_machine i (with_last last_ (net_machines s i)) s)).
Proof.
  intros Hs Hne. unfold get_current_clipboard_msg. assert (Hl := proj1 (proj2 Hs) i).
  destruct (m_last (net_machines s i)) as [|c l] eqn:E; [done|]. destruct Hl as [?|Hl]; [done|].
  intros [= Hm <-]. apply ok_sends.
  - apply ok_set_machine; [done|apply Hs|]. by right.
  - intros l' ->%list_elem_of_singleton. apply (copied_sub s i (c :: l)); [|exact Hl]. intros x Hx.
    destruct (is_support_multi_clipboard v p); [by injection Hm as <-|by eapply first_text_sub].
Qed.

Lemma net_step_ok s s' : net_ok s -> net_step s s' -> net_ok s'.
Proof.
  intros Hs [i b Hu|i n skip v p m Hm|i n r f t sync fmts sup pi out l Hp|i n v p m l Hne Hm|i a j l Hin|i t|i urls|i n path kde].
  - apply (ok_copied _ i (held b)) in Hs as Hs'.
    apply (ok_with_board _ i b) in Hs'; [exact Hs'|]. right. right. by left.
  - by eapply host_poll_ok.
  - by eapply client_poll_ok.
  - by eapply start_ok.
  - unfold on_clipboard_message. destruct a; [|apply ok_set_machine; [done|apply Hs|apply Hs]].
    apply ok_with_board; [done|]. unfold update_clipboard_. case_match; [apply Hs|apply own_set, Hs].
  - apply ok_with_board; [done|]. apply (own_set s i _ [Text t]), Hs.
  - apply ok_with_board; [done|]. unfold update_board_files. case_match; [apply Hs|apply own_set, Hs].
  - apply ok_with_board; [done|]. apply own_emptied, Hs.
Qed.


(** ** What is sent arrives *)

Lemma list_elem_arrived (l : list ClipboardData) d :
  d ∈ omap arrived l <-> exists e, e ∈ l /\ arrived e = Some d.
Proof. apply list_elem_of_omap. Qed.

(** What a message of the user's contents holds: all that are kept, when no files are among
    them and each is the only one of its format. *)
Lemma message_contents n force b m l :
  (forall d, d ∈ held b -> last_of_format d (held b) /\ exists f, format_of d = Some f /\ f ∈ SUPPORTED_FORMATS) ->
  read_clipboard_message n force b = Some (m, l) ->
  exists r, l = create_multi_clipboards r /\ r <> [] /\ (forall d, d ∈ r <-> d ∈ held b /\ kept d = true) /\
    Forall (fun d => is_file_url d = false) r.
Proof.
  intros Hb. unfold read_clipboard_message, get, get_formats_filter, get_formats.
  destruct (get_formats_from CLIPBOARD_GET_MAX_RETRY n SUPPORTED_FORMATS b) as [r|e] eqn:E; [|done]. cbn [rbind].
  assert (Hr : forall d, d ∈ r <-> d ∈ held b).
  { intros d. split; [intros Hd; exact (get_formats_from_held _ _ _ _ _ _ E Hd)|]. intros Hd.
    destruct (Hb d Hd) as (Hl & f & Hf & Hin). exact (get_formats_from_last _ _ _ _ _ _ _ E Hf Hin Hl). }
  destruct r as [|x r]; [done|]. destruct (negb force && existsb is_mark (x :: r)); [done|]. cbn [rbind].
  destruct (existsb is_file_url _) eqn:Ef; [done|].
  destruct (filter (fun c => kept c = true) (x :: r)) as [|y q] eqn:Eq; [done|]. intros [= <- <-].
  exists (y :: q). split_and!; [done|done| |]; rewrite <- Eq.
  - intros d. rewrite list_elem_of_filter, Hr. tauto.
  - apply Forall_forall. intros d Hd. apply not_true_is_false. intros Hu.
    assert (existsb is_file_url (filter (fun c => kept c = true) (x :: r)) = true); [|congruence].
    apply existsb_exists. exists d. split; [by apply list_elem_of_In|done].
Qed.

Context `{!ZstdLaws, !ZstdTotal}.

End Echo.

(** ** A clipboard to try it on *)

(** The first reading finds it occupied, each later one returns what is held. *)
Definition toy_board : Arboard (list ClipboardData) := {|
  read_formats n fs b :=
    if (n =? 0)%nat then Err ClipboardOccupied
    else Ok (filter (fun d => match format_of d with Some f => bool_decide (f ∈ fs) | None => false end = true) b);
  write_formats d b := (true, d) |}.

#[export] Instance toy_board_laws : @ArboardLaws _ toy_board.
Proof.
  refine (@Build_ArboardLaws _ toy_board (fun b => b) _ _ _ _).
  - by intros d b b' [= <-].
  - done.
  - intros n fs b l d. cbn. destruct (n =? 0)%nat; [done|]. intros [= <-] Hd.
    apply list_elem_of_filter in Hd as [_ Hd]. by right.
  - intros n fs b l d f. cbn. destruct (n =? 0)%nat; [done|]. intros [= <-] Hf Hin (l1 & l2 & -> & _).
    apply list_elem_of_filter. rewrite Hf, bool_decide_true by done. split; [done|].
    apply elem_of_app. right. by left.
Defined.

Definition ex_machine (side : ClipboardSide) (b : list ClipboardData) : Machine := mkMachine side b [].

(** A host, on which a text and an image were copied, and a client. *)
Definition ex_contents : list ClipboardData := [Text [x68; x69]; ImagePng [x00; x01]].
Definition ex_net : @Net (list ClipboardData) :=
  mkNet (fun i => if (i =? 0)%nat then ex_machine Host ex_contents else ex_machine Client []) [] [(0%nat, ex_contents)].

Definition ex_sent : list Clipboard := @create_multi_clipboards toy_zstd ex_contents.



(** ** What the threads and the kept message do *)

(** Each message is put on the clipboard by a thread of its own: the older of two may be put
    there last, and stays. *)
Theorem older_clipboard_stays (l1 l2 : list Clipboard) (s : @Net (list ClipboardData)) :
  (0%nat, l1) ∈ net_sent s -> (0%nat, l2) ∈ net_sent s -> m_side (net_machines s 1) = Client ->
  @from_multi_clipboards toy_zstd l1 <> [] ->
  exists s', rtc (@net_step _ toy_board toy_zstd toy_board_laws) s s' /\
    m_board (net_machines s' 1) = append_owner_marker (@from_multi_clipboards toy_zstd l1) Client.
Proof.
  intros H1 H2 Hside Hne. eexists. split.
  - eapply rtc_l; [eapply (net_delivers _ 1 true 0 l2), H2|].
    eapply rtc_l; [eapply (net_delivers _ 1 true 0 l1), H1|]. apply rtc_refl.
  - cbn. unfold update_clipboard_. destruct (@from_multi_clipboards toy_zstd l1) as [|x q]; [done|].
    cbn. by rewrite Hside.
Qed.

(** What a new session sends as the current clipboard is what was read last, although the
    clipboard holds something else by now. *)
Example current_is_not_current :
  @get_current_clipboard_msg _ toy_board toy_zstd 1 "1.4.0" "Linux"
    (append_owner_marker [Text [x6e; x65; x77]] Client) (@create_multi_clipboards toy_zstd [Text [x6f; x6c; x64]])
  = (Some (MMultiClipboards (@create_multi_clipboards toy_zstd [Text [x6f; x6c; x64]])),
     @create_multi_clipboards toy_zstd [Text [x6f; x6c; x64]]).
Proof. vm_compute. reflexivity. Qed.

(** When nothing was read before, it is what the clipboard holds, from another machine too. *)
Example session_passes_on :
  @get_current_clipboard_msg _ toy_board toy_zstd 1 "1.4.0" "Linux" (append_owner_marker [Text [x6e; x65; x77]] Client) []
  = (Some (MMultiClipboards (@create_multi_clipboards toy_zstd [Text [x6e; x65; x77]])),
     @create_multi_clipboards toy_zstd [Text [x6e; x65; x77]]).
Proof. vm_compute. reflexivity. Qed.
