(* ===== verification/TypedText.v ===== *)
(** * Text that is typed by pasting it (src/server/input_service.rs, clipboard_service.rs)

    On Wayland a text that the other side types is put on the clipboard and pasted.  The
    clipboard's service must not send it back: the texts typed within the last second are
    remembered, and a clipboard that holds one of them is skipped. *)

From S2P Require Import Prelude Compress TermBuffer ClipText ClipMsg ClipBoards ClipEcho.

(** ** Characters *)

(** [text.chars().take(n)], for valid UTF-8. *)
Fixpoint first_chars (n : nat) (l : text) : text :=
  match n, l with
  | S n, a :: _ => take (byte_class a) l ++ first_chars n (drop (byte_class a) l)
  | _, _ => []
  end.

(** The error of [from_utf8]: where it is, and whether the text just ends within a
    character ([error_len] is [None]). *)
Fixpoint utf8_error (l : list byte) (valid_up_to : nat) : option (nat * bool) :=
  match l with
  | [] => None
  | a :: t =>
      if in_range a 0 0x7F then utf8_error t (valid_up_to + 1)
      else if in_range a 0xC2 0xDF then
        match t with
        | [] => Some (valid_up_to, true)
        | b :: t1 => if seq2 a b then utf8_error t1 (valid_up_to + 2) else Some (valid_up_to, false)
        end
      else if in_range a 0xE0 0xEF then
        match t with
        | [] => Some (valid_up_to, true)
        | b :: t1 =>
            if negb (seq3 a b x80) then Some (valid_up_to, false)
            else match t1 with
            | [] => Some (valid_up_to, true)
            | c :: t2 => if seq3 a b c then utf8_error t2 (valid_up_to + 3) else Some (valid_up_to, false)
            end
        end
      else if in_range a 0xF0 0xF4 then
        match t with
        | [] => Some (valid_up_to, true)
        | b :: t1 =>
            if negb (seq4 a b x80 x80) then Some (valid_up_to, false)
            else match t1 with
            | [] => Some (valid_up_to, true)
            | c :: t2 =>
                if negb (seq4 a b c x80) then Some (valid_up_to, false)
                else match t2 with
                | [] => Some (valid_up_to, true)
                | d :: t3 => if seq4 a b c d then utf8_error t3 (valid_up_to + 4) else Some (valid_up_to, false)
                end
            end
        end
      else Some (valid_up_to, false)
  end.

Definition WAYLAND_CLIPBOARD_INPUT_MAX_TEXT_CHARS : nat := 1024.
Definition WAYLAND_CLIPBOARD_SKIP_CHECK_MAX_UTF8_BYTES : nat := WAYLAND_CLIPBOARD_INPUT_MAX_TEXT_CHARS * 4.

Definition decode_utf8_prefix (bytes : list byte) : option text :=
  let slice := take WAYLAND_CLIPBOARD_SKIP_CHECK_MAX_UTF8_BYTES bytes in
  match utf8_error slice 0 with
  | None => Some slice
  | Some (_, false) => None
  | Some (valid_up_to, true) => Some (take valid_up_to slice)
  end.

Definition normalize_wayland_clipboard_input_text (t : text) : text :=
  first_chars WAYLAND_CLIPBOARD_INPUT_MAX_TEXT_CHARS t.

(** ** Texts that were typed *)

(** Times are nanoseconds of a clock that does not go back; the records stand in the order
    in which they were made. *)
Definition WAYLAND_CLIPBOARD_INPUT_FILTER_WINDOW : Z := 10 ^ 9.
Definition WAYLAND_CLIPBOARD_INPUT_MAX_RECORDS : nat := 256.

Abbreviation record := (Z * text)%type.
Abbreviation records := (list (Z * text)).

Definition recent (now : Z) (r : record) : Prop := Z.max 0 (now - fst r) <= WAYLAND_CLIPBOARD_INPUT_FILTER_WINDOW.

#[export] Instance recent_dec now r : Decision (recent now r).
Proof. unfold recent. apply _. Defined.

Definition cleanup_wayland_clipboard_input_records (now : Z) (rs : records) : records :=
  let rs := filter (recent now) rs in
  drop (length rs - WAYLAND_CLIPBOARD_INPUT_MAX_RECORDS) rs.

Definition get_wayland_clipboard_input_normalized_text (t : text) : option text :=
  match normalize_wayland_clipboard_input_text t with [] => None | n => Some n end.

Section Typed.
Variable is_x11 : bool.

Definition record_wayland_clipboard_input_for_sync_filter (now : Z) (t : text) (rs : records) : option record * records :=
  if is_empty t || is_x11 then (None, rs)
  else match get_wayland_clipboard_input_normalized_text t with
  | None => (None, rs)
  | Some n => (Some (now, n), cleanup_wayland_clipboard_input_records now rs ++ [(now, n)])
  end.

(** The last of the records that are equal to it. *)
Fixpoint remove_last_equal (r : record) (rs : records) : option records :=
  match rs with
  | [] => None
  | x :: t =>
      match remove_last_equal r t with
      | Some t' => Some (x :: t')
      | None => if bool_decide (x = r) then Some t else None
      end
  end.
Definition rollback_wayland_clipboard_input_record (now : Z) (r : record) (rs : records) : records :=
  let rs := cleanup_wayland_clipboard_input_records now rs in
  default rs (remove_last_equal r rs).

Definition is_recent_wayland_clipboard_input (now : Z) (t : text) (rs : records) : bool * records :=
  if is_empty t || is_x11 then (false, rs)
  else match get_wayland_clipboard_input_normalized_text t with
  | None => (false, rs)
  | Some n =>
      let rs := cleanup_wayland_clipboard_input_records now rs in
      (existsb (fun r => bool_decide (snd r = n)) rs, rs)
  end.

(** [set_clipboard_for_paste_sync]: at [now], and at [later] when the clipboard could not be
    set ([ok]). *)
Definition set_clipboard_for_paste_sync (now later : Z) (ok : bool) (t : text) (rs : records) : bool * records :=
  let '(r, rs) := record_wayland_clipboard_input_for_sync_filter now t rs in
  if ok then (true, rs)
  else (false, match r with Some r => rollback_wayland_clipboard_input_record later r rs | None => rs end).

(** *** What the service asks *)

Context `{Zstd}.

Definition decode_text_clipboard (c : Clipboard) : option text :=
  if negb (cb_format c =? PText) then None
  else if cb_compress c then decode_utf8_prefix (decompress (cb_content c))
  else decode_utf8_prefix (cb_content c).

Fixpoint any_recent (now : Z) (l : list Clipboard) (rs : records) : bool * records :=
  match l with
  | [] => (false, rs)
  | c :: l =>
      let '(b, rs) := match decode_text_clipboard c with
                      | Some t => is_recent_wayland_clipboard_input now t rs
                      | None => (false, rs)
                      end in
      if b then (true, rs) else any_recent now l rs
  end.

Definition should_skip_wayland_clipboard_sync (now : Z) (m : ClipboardMsg) (rs : records) : bool * records :=
  if is_x11 then (false, rs) else any_recent now (clipboards_of m) rs.

End Typed.

(** ** Characters of a prefix *)

Lemma seq3_range a b c : seq3 a b c = true -> in_range a 0xE0 0xEF = true /\ seq3 a b x80 = true.
Proof.
  unfold seq3. intros E. apply andb_true_iff in E as [E _]. rewrite E. split; [|done].
  repeat (apply orb_true_iff in E as [E|E]); apply andb_true_iff in E as [Ha _]; eapply in_range_sub; eauto; lia.
Qed.

Lemma seq4_range a b c d :
  seq4 a b c d = true -> in_range a 0xF0 0xF4 = true /\ seq4 a b x80 x80 = true /\ seq4 a b c x80 = true.
Proof.
  unfold seq4. intros E. apply andb_true_iff in E as [E _]. apply andb_true_iff in E as [E Ec]. rewrite E, Ec.
  split; [|done].
  repeat (apply orb_true_iff in E as [E|E]); apply andb_true_iff in E as [Ha _]; eapply in_range_sub; eauto; lia.
Qed.


Lemma first_chars_step n s u : char s -> first_chars (S n) (s ++ u) = s ++ first_chars n u.
Proof.
  destruct s as [|a t]; [done|]. intros (Hc & _ & _). cbn [app first_chars]. rewrite Hc.
  change (a :: t ++ u) with ((a :: t) ++ u). by rewrite take_app_length, drop_app_length.
Qed.

(** The first [n] characters are among [4 * n - 3] bytes that are whole characters. *)
Lemma first_chars_prefix n : forall p r,
  utf8_valid p = true -> (4 * n <= length p + 3)%nat -> first_chars n (p ++ r) = first_chars n p.
Proof.
  induction n as [|n IH]; intros p r Hp Hn; [by destruct p, r|].
  destruct p as [|a t]; [cbn in Hn; lia|].
  destruct (utf8_valid_cons a t Hp) as (s & u & Hs & Hc & Hv). rewrite Hs in *.
  rewrite Hv in Hp. rewrite <- app_assoc, !first_chars_step by done. f_equal.
  apply IH; [done|]. rewrite length_app in Hn. destruct s; [done|]. destruct Hc as (_ & Hl & _). lia.
Qed.

Lemma utf8_error_valid s k : utf8_valid s = true -> forall u, utf8_error (s ++ u) k = utf8_error u (k + length s).
Proof.
  remember (length s) as n eqn:Hn. revert s k Hn.
  induction n as [n IH] using lt_wf_ind. intros s k -> Hs u.
  assert (Hstep : forall h v : text, utf8_valid v = true -> (length h + length v = length s)%nat -> h <> [] ->
    utf8_error (v ++ u) (k + length h) = utf8_error u (k + length s)).
  { intros h v Hv Hl Hne. destruct h; [done|]. rewrite (IH (length v)) with (s := v); cbn [length] in *; try (done || lia). f_equal. lia. }
  destruct s as [|a t]; [by cbn; rewrite Nat.add_0_r|]. cbn [utf8_valid] in Hs. cbn [app utf8_error].
  destruct (in_range a 0 0x7F) eqn:E1; [by apply (Hstep [a])|].
  destruct t as [|b t]; [done|]. cbn [app].
  assert (Hc := class_of a). destruct Hc as (_ & _ & Hc2 & Hc3 & Hc4).
  destruct (seq2 a b) eqn:E2.
  { unfold seq2 in E2. apply andb_true_iff in E2 as [-> _]. by apply (Hstep [a; b]). }
  destruct t as [|c t]; [done|]. cbn [app]. destruct (seq3 a b c) eqn:E3.
  { destruct (seq3_class _ _ _ E3) as (Ha & _ & _).
    destruct (in_range a 0xC2 0xDF) eqn:R2; [rewrite (Hc2 eq_refl) in Ha; done|].
    destruct (seq3_range _ _ _ E3) as [-> ->]. cbn [negb]. by apply (Hstep [a; b; c]). }
  destruct t as [|d t]; [done|]. apply andb_true_iff in Hs as [E4 Ht]. cbn [app].
  destruct (seq4_class _ _ _ _ E4) as (Ha & _ & _ & _).
  destruct (in_range a 0xC2 0xDF) eqn:R2; [rewrite (Hc2 eq_refl) in Ha; done|].
  destruct (in_range a 0xE0 0xEF) eqn:R3; [rewrite (Hc3 eq_refl) in Ha; done|].
  destruct (seq4_range _ _ _ _ E4) as (-> & -> & ->). cbn [negb]. rewrite E4. by apply (Hstep [a; b; c; d]).
Qed.

(** A text that ends within a character. *)
Lemma utf8_error_partial p y k : utf8_valid (p ++ y) = true -> partial p -> utf8_error p k = Some (k, true).
Proof.
  destruct p as [|a t]; [done|]. intros Hv ((Hl & _) & _).
  destruct (utf8_valid_cons a (t ++ y) Hv) as (s & u & Hs & _ & Hsv).
  assert (Hc := class_of a). destruct Hc as (Hc1 & _ & Hc2 & Hc3 & Hc4).
  cbn [app utf8_valid] in Hv. cbn [utf8_error].
  destruct (in_range a 0 0x7F) eqn:R1; [rewrite Hc1 in Hl by done; cbn in Hl; lia|].
  destruct (in_range a 0xC2 0xDF) eqn:R2.
  { rewrite Hc2 in Hl by done. destruct t; [done|cbn in Hl; lia]. }
  destruct (t ++ y) as [|b t1] eqn:E1; [done|].
  assert (N2 : seq2 a b = false) by (unfold seq2; by rewrite R2). rewrite N2 in Hv.
  destruct t1 as [|c t2]; [done|].
  destruct (in_range a 0xE0 0xEF) eqn:R3.
  - rewrite Hc3 in Hl by done. destruct t as [|b' t]; [done|]. injection E1 as -> E1.
    destruct (seq3 a b c) eqn:E3.
    + destruct (seq3_range _ _ _ E3) as [_ Hx].
      rewrite Hx. cbn [negb]. destruct t; [done|cbn in Hl; lia].
    + destruct t2 as [|d t3]; [done|]. apply andb_true_iff in Hv as [E4 _].
      destruct (seq4_class _ _ _ _ E4) as (Ha & _). by rewrite Hc3 in Ha.
  - destruct (seq3 a b c) eqn:E3; [destruct (seq3_class _ _ _ E3) as (Ha & _)|].
    { by rewrite (proj1 (seq3_range _ _ _ E3)) in R3. }
    destruct t2 as [|d t3]; [done|]. apply andb_true_iff in Hv as [E4 _].
    destruct (seq4_range _ _ _ _ E4) as (R4 & X1 & X2). rewrite R4, Hc4 in * by done.
    destruct t as [|b' t]; [done|]. injection E1 as -> E1. rewrite X1. cbn [negb].
    destruct t as [|c' t]; [done|]. injection E1 as -> E1. rewrite X2. cbn [negb].
    destruct t; [done|cbn in Hl; lia].
Qed.

(** The part of a text that is looked at tells as much as the whole. *)
Lemma prefix_normalizes t : utf8_valid t = true ->
  exists p, decode_utf8_prefix t = Some p /\
    normalize_wayland_clipboard_input_text p = normalize_wayland_clipboard_input_text t /\
    (t <> [] -> p <> []).
Proof.
  intros Ht. set (n := WAYLAND_CLIPBOARD_SKIP_CHECK_MAX_UTF8_BYTES).
  assert (Hn : n = (4 * WAYLAND_CLIPBOARD_INPUT_MAX_TEXT_CHARS)%nat) by (unfold n, WAYLAND_CLIPBOARD_SKIP_CHECK_MAX_UTF8_BYTES; lia).
  assert (Hm : (1 <= WAYLAND_CLIPBOARD_INPUT_MAX_TEXT_CHARS)%nat) by (unfold WAYLAND_CLIPBOARD_INPUT_MAX_TEXT_CHARS; lia).
  unfold decode_utf8_prefix, normalize_wayland_clipboard_input_text. fold n.
  revert Hn Hm. generalize WAYLAND_CLIPBOARD_INPUT_MAX_TEXT_CHARS as m. generalize n as k. clear n. intros k m -> Hm.
  rewrite <- (take_drop (4 * m) t) in Ht.
  destruct (valid_prefix _ _ Ht) as (a & p & Ha & Hva & _ & Hp & Hpv). rewrite Ha.
  assert (Hlen : length (take (4 * m) t) = Nat.min (4 * m) (length t)) by apply length_take.
  destruct Hp as [->|Hp].
  - assert (Hx := utf8_error_valid a 0 Hva []). rewrite app_nil_r in *. rewrite Hx. cbn [utf8_error].
    exists a. split; [done|]. destruct (decide (length t <= 4 * m)%nat) as [Hl|Hl].
    + rewrite take_ge in Ha by done. by rewrite Ha.
    + rewrite Ha in Hlen. split; [|intros _ ->; cbn in Hlen; lia].
      rewrite <- (take_drop (4 * m) t), Ha. symmetry. apply first_chars_prefix; [done|lia].
  - rewrite utf8_error_valid by done. rewrite (utf8_error_partial p _ _ Hpv Hp).
    cbn [Nat.add]. rewrite take_app_length. exists a. split; [done|].
    assert (Hl3 : (length p <= 3)%nat) by (destruct p; [done|]; destruct Hp as ((Hp & Hq) & _); lia).
    assert (Hlt : (4 * m < length t)%nat).
    { destruct (decide (4 * m < length t)%nat) as [|Hl]; [done|exfalso]. rewrite take_ge in Ha by lia.
      rewrite drop_ge, app_nil_r in Hpv by lia.
      assert (Hx := utf8_error_partial p [] 0). rewrite app_nil_r in Hx. specialize (Hx Hpv Hp).
      assert (Hy := utf8_error_valid p 0 Hpv []). rewrite app_nil_r, Hx in Hy. done. }
    rewrite Ha, length_app in Hlen. split; [|intros _ ->; cbn in Hlen; lia].
    rewrite <- (take_drop (4 * m) t), Ha, <- app_assoc. symmetry. apply first_chars_prefix; [done|lia].
Qed.

(** ** Records that are kept *)

Section Facts.
Context {Board : Type} `{Arboard Board} `{Zstd} `{!ArboardLaws} `{!ZstdLaws} `{!ZstdTotal}.

Inductive typed_event : Type :=
| Types (now later : Z) (ok : bool) (t : text)
| Asks (now : Z) (m : ClipboardMsg).

Definition typed_step (rs : records) (e : typed_event) : records :=
  match e with
  | Types now later ok t => snd (set_clipboard_for_paste_sync false now later ok t rs)
  | Asks now m => snd (should_skip_wayland_clipboard_sync false now m rs)
  end.
Definition typed_run : records -> list typed_event -> records := foldl typed_step.

Definition types (e : typed_event) : bool := match e with Types _ _ _ _ => true | Asks _ _ => false end.

(** The event lies between the two times, and the clock does not go back within it. *)
Definition event_within (from to : Z) (e : typed_event) : Prop :=
  match e with Types now later _ _ => from <= now <= later /\ later <= to | Asks now _ => from <= now <= to end.

(** [r] stands in [rs] with at most [k] records after it. *)
Definition kept_record (k : nat) (r : record) (rs : records) : Prop :=
  exists l1 l2, rs = l1 ++ r :: l2 /\ (length l2 <= k)%nat.

Lemma kept_weaken k k' r rs : (k <= k')%nat -> kept_record k r rs -> kept_record k' r rs.
Proof. intros Hk (l1 & l2 & -> & Hl). exists l1, l2. split; [done|lia]. Qed.

Lemma kept_snoc k r r' rs : kept_record k r rs -> kept_record (S k) r (rs ++ [r']).
Proof. intros (l1 & l2 & -> & Hl). exists l1, (l2 ++ [r']). rewrite <- app_assoc, length_app. cbn. split; [done|lia]. Qed.

Lemma kept_filter k r rs (j : nat) now :
  kept_record k r rs -> recent now r -> (k + j < WAYLAND_CLIPBOARD_INPUT_MAX_RECORDS)%nat ->
  kept_record k r (drop (length (filter (recent now) rs) + j - WAYLAND_CLIPBOARD_INPUT_MAX_RECORDS) (filter (recent now) rs)).
Proof.
  intros (l1 & l2 & -> & Hl) Hr Hk. rewrite filter_app, filter_cons_True by done.
  exists (drop (length (filter (recent now) l1 ++ r :: filter (recent now) l2) + j - WAYLAND_CLIPBOARD_INPUT_MAX_RECORDS) (filter (recent now) l1)), (filter (recent now) l2).
  assert (Hf := length_filter (recent now) l2). split; [|lia].
  rewrite drop_app_le; [done|]. rewrite length_app. cbn. lia.
Qed.

Lemma cleanup_keeps k r rs now :
  kept_record k r rs -> recent now r -> (k < WAYLAND_CLIPBOARD_INPUT_MAX_RECORDS)%nat ->
  kept_record k r (cleanup_wayland_clipboard_input_records now rs).
Proof.
  intros Hr Hn Hk. unfold cleanup_wayland_clipboard_input_records.
  assert (Hx := kept_filter k r rs 0 now Hr Hn). rewrite !Nat.add_0_r in Hx. by apply Hx.
Qed.

Lemma remove_pushed r rs : remove_last_equal r (rs ++ [r]) = Some rs.
Proof. induction rs as [|x rs IH]; cbn; [by rewrite bool_decide_true|by rewrite IH]. Qed.

Lemma rollback_keeps k r r' rs now :
  kept_record k r rs -> recent now r -> recent now r' -> (S k < WAYLAND_CLIPBOARD_INPUT_MAX_RECORDS)%nat ->
  kept_record k r (rollback_wayland_clipboard_input_record now r' (rs ++ [r'])).
Proof.
  intros Hr Hn Hn' Hk. unfold rollback_wayland_clipboard_input_record, cleanup_wayland_clipboard_input_records.
  rewrite filter_app, filter_cons_True, filter_nil by done. rewrite length_app. cbn [length].
  rewrite drop_app_le by (unfold WAYLAND_CLIPBOARD_INPUT_MAX_RECORDS in *; lia). rewrite remove_pushed. cbn [default].
  apply kept_filter; [done|done|lia].
Qed.

Lemma recent_within now from t n : now <= from + WAYLAND_CLIPBOARD_INPUT_FILTER_WINDOW -> from <= t -> recent now (t, n).
Proof. unfold recent, WAYLAND_CLIPBOARD_INPUT_FILTER_WINDOW. cbn. lia. Qed.

(** Whoever asks only tidies up. *)
Lemma asked_keeps_record k r now t rs :
  kept_record k r rs -> recent now r -> (k < WAYLAND_CLIPBOARD_INPUT_MAX_RECORDS)%nat ->
  kept_record k r (snd (is_recent_wayland_clipboard_input false now t rs)).
Proof.
  intros Hr Hn Hk. unfold is_recent_wayland_clipboard_input. destruct (is_empty t || false); [done|].
  destruct (get_wayland_clipboard_input_normalized_text t); [by apply cleanup_keeps|done].
Qed.

Lemma any_keeps k r now l : forall rs,
  kept_record k r rs -> recent now r -> (k < WAYLAND_CLIPBOARD_INPUT_MAX_RECORDS)%nat ->
  kept_record k r (snd (any_recent false now l rs)).
Proof.
  induction l as [|c l IH]; intros rs Hr Hn Hk; [done|]. cbn [any_recent].
  destruct (decode_text_clipboard c) as [t|]; [|by apply IH].
  assert (Hx := asked_keeps_record k r now t rs Hr Hn Hk).
  destruct (is_recent_wayland_clipboard_input false now t rs) as [b rs']. destruct b; [done|by apply IH].
Qed.

Lemma typed_step_keeps k from n rs e :
  kept_record k (from, n) rs -> event_within from (from + WAYLAND_CLIPBOARD_INPUT_FILTER_WINDOW) e ->
  (k + (if types e then 1 else 0) < WAYLAND_CLIPBOARD_INPUT_MAX_RECORDS)%nat ->
  kept_record (k + if types e then 1 else 0) (from, n) (typed_step rs e).
Proof.
  intros Hr He Hk. destruct e as [now later ok t|now m]; cbn [types typed_step event_within] in *.
  - replace (k + 1)%nat with (S k) by lia. unfold set_clipboard_for_paste_sync, record_wayland_clipboard_input_for_sync_filter.
    destruct (is_empty t || false); [destruct ok; by apply (kept_weaken k); [lia|]|].
    destruct (get_wayland_clipboard_input_normalized_text t) as [n'|]; [|destruct ok; by apply (kept_weaken k); [lia|]].
    assert (Hc : kept_record k (from, n) (cleanup_wayland_clipboard_input_records now rs))
      by (apply cleanup_keeps; [done|apply (recent_within _ from); lia|lia]).
    destruct ok; cbn [snd]; [by apply kept_snoc|]. apply (kept_weaken k); [lia|].
    apply rollback_keeps; [done|apply (recent_within _ from); lia|apply (recent_within _ from); lia|lia].
  - rewrite Nat.add_0_r. apply any_keeps; [done|apply (recent_within _ from); lia|lia].
Qed.

Definition typed_count (evs : list typed_event) : nat := length (filter (fun e => types e = true) evs).

Lemma typed_run_keeps evs : forall k from n rs,
  kept_record k (from, n) rs -> Forall (event_within from (from + WAYLAND_CLIPBOARD_INPUT_FILTER_WINDOW)) evs ->
  (k + typed_count evs < WAYLAND_CLIPBOARD_INPUT_MAX_RECORDS)%nat ->
  kept_record (k + typed_count evs) (from, n) (typed_run rs evs).
Proof.
  induction evs as [|e evs IH]; intros k from n rs Hr He Hk.
  { change (kept_record (k + 0) (from, n) rs). by rewrite Nat.add_0_r. }
  apply Forall_cons in He as [He Hevs].
  assert (Hc : typed_count (e :: evs) = ((if types e then 1 else 0) + typed_count evs)%nat).
  { unfold typed_count. rewrite filter_cons. by destruct (types e). }
  rewrite Hc, Nat.add_assoc in *. cbn [typed_run foldl]. apply IH; [|done|done].
  apply typed_step_keeps; [done|done|lia].
Qed.

Lemma normalized_some t : utf8_valid t = true -> t <> [] ->
  get_wayland_clipboard_input_normalized_text t = Some (normalize_wayland_clipboard_input_text t).
Proof.
  intros Hv Hne. unfold get_wayland_clipboard_input_normalized_text, normalize_wayland_clipboard_input_text.
  destruct t as [|a t]; [done|]. destruct (utf8_valid_cons a t Hv) as (s & u & Hs & Hc & _).
  destruct WAYLAND_CLIPBOARD_INPUT_MAX_TEXT_CHARS as [|m] eqn:E; [done|]. rewrite Hs, first_chars_step by done.
  by destruct s.
Qed.

(** A text that is remembered is recognised, in a text clipboard that holds it. *)
Lemma kept_is_recent k from t now rs c :
  kept_record k (from, normalize_wayland_clipboard_input_text t) rs ->
  recent now (from, normalize_wayland_clipboard_input_text t) -> (k < WAYLAND_CLIPBOARD_INPUT_MAX_RECORDS)%nat ->
  utf8_valid t = true -> t <> [] -> cb_format c = PText -> clip_bytes c = t ->
  exists p, decode_text_clipboard c = Some p /\ fst (is_recent_wayland_clipboard_input false now p rs) = true.
Proof.
  intros Hr Hn Hk Hv Hne Hf Hb. destruct (prefix_normalizes t Hv) as (p & Hp & Hnorm & Hpne).
  exists p. split.
  - unfold decode_text_clipboard. rewrite Hf. cbn. unfold clip_bytes in Hb. destruct (cb_compress c); by rewrite Hb.
  - unfold is_recent_wayland_clipboard_input. destruct p as [|a p]; [by specialize (Hpne Hne)|]. cbn [is_empty orb].
    assert (Hg := normalized_some t Hv Hne). unfold get_wayland_clipboard_input_normalized_text in *.
    rewrite Hnorm, Hg. cbn [fst].
    apply existsb_exists. exists (from, normalize_wayland_clipboard_input_text t). split; [|by apply bool_decide_true].
    apply list_elem_of_In. destruct (cleanup_keeps k _ rs now Hr Hn Hk) as (l1 & l2 & -> & _).
    apply elem_of_app. right. by left.
Qed.

Lemma any_recent_found k from t now l : forall rs c,
  kept_record k (from, normalize_wayland_clipboard_input_text t) rs ->
  recent now (from, normalize_wayland_clipboard_input_text t) -> (k < WAYLAND_CLIPBOARD_INPUT_MAX_RECORDS)%nat ->
  utf8_valid t = true -> t <> [] -> c ∈ l -> cb_format c = PText -> clip_bytes c = t ->
  fst (any_recent false now l rs) = true.
Proof.
  induction l as [|x l IH]; intros rs c Hr Hn Hk Hv Hne Hc Hf Hb; [by apply not_elem_of_nil in Hc|].
  cbn [any_recent]. apply elem_of_cons in Hc as [<-|Hc].
  - destruct (kept_is_recent k from t now rs c) as (p & Hp & Hrec); try done. rewrite Hp.
    destruct (is_recent_wayland_clipboard_input false now p rs) as [b rs']. cbn in Hrec. by rewrite Hrec.
  - destruct (decode_text_clipboard x) as [p|]; [|by eapply IH].
    assert (Hx := asked_keeps_record k _ now p rs Hr Hn Hk).
    destruct (is_recent_wayland_clipboard_input false now p rs) as [b rs']. destruct b; [done|by eapply IH].
Qed.

(** C16: What the other side types is not sent back to it.  A text that was put on the
    clipboard to be typed is for a second, unless 256 more are typed meanwhile, not read by the
    service as copied: whatever else was typed or asked since, a clipboard that holds the text,
    even one of more than the 1024 characters that are remembered, gives no message. *)
Theorem typed_text_is_not_sent_back from later t rs evs now n b :
  utf8_valid t = true -> t <> [] -> len t <= MAX_DECOMPRESSED_SIZE ->
  Forall (event_within from (from + WAYLAND_CLIPBOARD_INPUT_FILTER_WINDOW)) evs ->
  (typed_count evs < WAYLAND_CLIPBOARD_INPUT_MAX_RECORDS)%nat -> now <= from + WAYLAND_CLIPBOARD_INPUT_FILTER_WINDOW ->
  last_of_format (Text t) (held b) ->
  let rs' := typed_run (snd (set_clipboard_for_paste_sync false from later true t rs)) evs in
  get_clipboard_msg n (fun m => fst (should_skip_wayland_clipboard_sync false now m rs')) b = None.
Proof.
  intros Hv Hne Hlen Hevs Hcount Hnow Hb rs'. unfold get_clipboard_msg, peek_clipboard.
  destruct (read_clipboard_message n false b) as [[m l]|] eqn:E; [|done]. cbn [fmap option_fmap option_map fst].
  destruct (message_held _ _ _ _ _ E) as [-> _].
  assert (Hin : plain_to_proto t PText ∈ l).
  { apply (message_has n false b _ l (Text t) FText _ E Hb); [by left|done| |done].
    destruct t as [|a t]; [done|]. cbn [kept]. rewrite len_cons. pose proof (len_nonneg t).
    by destruct (Z.eqb_spec (1 + len t) 0); [lia|]. }
  assert (Hk : kept_record (typed_count evs) (from, normalize_wayland_clipboard_input_text t) rs').
  { apply (typed_run_keeps evs 0); [|done|done]. unfold set_clipboard_for_paste_sync, record_wayland_clipboard_input_for_sync_filter.
    rewrite (normalized_some t Hv Hne). destruct t as [|a t]; [done|]. cbn [is_empty orb snd].
    eexists _, []. by split. }
  unfold should_skip_wayland_clipboard_sync. cbn [clipboards_of].
  erewrite any_recent_found; [done|exact Hk| |done|done|done|exact Hin|done|].
  - apply (recent_within _ from); [done|lia].
  - unfold plain_to_proto, clip_bytes. cbn. by rewrite packed_bytes, same_either.
Qed.

(** ** Nothing else is held back *)

Lemma cleanup_sub now rs r : r ∈ cleanup_wayland_clipboard_input_records now rs -> r ∈ rs /\ recent now r.
Proof.
  unfold cleanup_wayland_clipboard_input_records. intros Hr.
  assert (Hf : r ∈ filter (recent now) rs) by (rewrite <- (take_drop (length (filter (recent now) rs) - WAYLAND_CLIPBOARD_INPUT_MAX_RECORDS) (filter (recent now) rs)); apply elem_of_app; by right).
  by apply list_elem_of_filter in Hf as [? ?].
Qed.

Lemma is_recent_sub now t rs r : r ∈ snd (is_recent_wayland_clipboard_input false now t rs) -> r ∈ rs.
Proof.
  unfold is_recent_wayland_clipboard_input. destruct (is_empty t || false); [done|].
  destruct (get_wayland_clipboard_input_normalized_text t); [|done]. cbn. intros Hr. by apply cleanup_sub in Hr as [? _].
Qed.

Lemma any_recent_sub now l : forall rs r, r ∈ snd (any_recent false now l rs) -> r ∈ rs.
Proof.
  induction l as [|c l IH]; intros rs r; [done|]. cbn [any_recent]. destruct (decode_text_clipboard c) as [t|]; [|apply IH].
  assert (Hx := is_recent_sub now t rs r). destruct (is_recent_wayland_clipboard_input false now t rs) as [b rs'].
  destruct b; [done|]. intros Hr. by apply Hx, IH.
Qed.

Lemma removed_sub r rs rs' x : remove_last_equal r rs = Some rs' -> x ∈ rs' -> x ∈ rs.
Proof.
  revert rs'. induction rs as [|y rs IH]; intros rs'; cbn; [done|].
  destruct (remove_last_equal r rs) as [q|].
  - intros [= <-] [->|Hx]%elem_of_cons; [by left|right; by eapply IH].
  - destruct (bool_decide (y = r)); [|done]. intros [= <-]. by right.
Qed.

(** What is remembered was typed. *)
Definition was_typed (evs : list typed_event) (r : record) : Prop :=
  exists later ok t, Types (fst r) later ok t ∈ evs /\ snd r = normalize_wayland_clipboard_input_text t.

Lemma typed_step_sub rs e r : r ∈ typed_step rs e -> r ∈ rs \/ was_typed [e] r.
Proof.
  destruct e as [now later ok t|now m]; cbn [typed_step].
  - unfold set_clipboard_for_paste_sync, record_wayland_clipboard_input_for_sync_filter.
    destruct (is_empty t || false); [destruct ok; by left|].
    destruct (get_wayland_clipboard_input_normalized_text t) as [n|] eqn:En; [|destruct ok; by left].
    assert (Hn : n = normalize_wayland_clipboard_input_text t)
      by (unfold get_wayland_clipboard_input_normalized_text in En; by destruct (normalize_wayland_clipboard_input_text t); [|injection En as <-]).
    assert (Hp : r ∈ cleanup_wayland_clipboard_input_records now rs ++ [(now, n)] -> r ∈ rs \/ was_typed [Types now later ok t] r).
    { intros [Hr|Hr]%elem_of_app; [left; by apply cleanup_sub in Hr as [? _]|].
      apply list_elem_of_singleton in Hr as ->. right. exists later, ok, t. split; [by left|done]. }
    destruct ok; cbn [snd]; [exact Hp|]. intros Hr. apply Hp. unfold rollback_wayland_clipboard_input_record in Hr.
    destruct (remove_last_equal _ _) as [q|] eqn:Eq; cbn [default] in Hr; [apply (removed_sub _ _ _ _ Eq) in Hr|];
      by apply cleanup_sub in Hr as [? _].
  - unfold should_skip_wayland_clipboard_sync. intros Hr. left. by eapply any_recent_sub.
Qed.

Lemma typed_run_sub evs : forall rs r, r ∈ typed_run rs evs -> r ∈ rs \/ was_typed evs r.
Proof.
  induction evs as [|e evs IH]; intros rs r Hr; [by left|]. cbn [typed_run foldl] in Hr.
  destruct (IH _ _ Hr) as [Hs|(la & ok & t & Hin & Hn)]; [|right; exists la, ok, t; split; [by right|done]].
  apply typed_step_sub in Hs as [?|(la & ok & t & Hin & Hn)]; [by left|]. right. exists la, ok, t. split; [|done].
  apply list_elem_of_singleton in Hin as <-. by left.
Qed.

(** A clipboard is held back only when it begins as a text that was typed within the last
    second. *)
Theorem only_typed_text_is_held_back evs now m :
  fst (should_skip_wayland_clipboard_sync false now m (typed_run [] evs)) = true ->
  exists c p at_ later ok t, c ∈ clipboards_of m /\ decode_text_clipboard c = Some p /\ Types at_ later ok t ∈ evs /\
    normalize_wayland_clipboard_input_text t = normalize_wayland_clipboard_input_text p /\
    now - at_ <= WAYLAND_CLIPBOARD_INPUT_FILTER_WINDOW.
Proof.
  unfold should_skip_wayland_clipboard_sync. assert (Hs := typed_run_sub evs []).
  revert Hs. generalize (typed_run [] evs) as rs. induction (clipboards_of m) as [|c l IH]; intros rs Hs Hr; [done|].
  cbn [any_recent] in Hr.
  assert (Hnext : (exists c p at_ later ok t, c ∈ l /\ decode_text_clipboard c = Some p /\ Types at_ later ok t ∈ evs /\
      normalize_wayland_clipboard_input_text t = normalize_wayland_clipboard_input_text p /\ now - at_ <= WAYLAND_CLIPBOARD_INPUT_FILTER_WINDOW) ->
    exists c0 p at_ later ok t, c0 ∈ c :: l /\ decode_text_clipboard c0 = Some p /\ Types at_ later ok t ∈ evs /\
      normalize_wayland_clipboard_input_text t = normalize_wayland_clipboard_input_text p /\ now - at_ <= WAYLAND_CLIPBOARD_INPUT_FILTER_WINDOW).
  { intros (c0 & p & x & la & ok & t & Hc & Hx). exists c0, p, x, la, ok, t. split; [by right|done]. }
  destruct (decode_text_clipboard c) as [p|] eqn:Ed; [|by apply Hnext, (IH rs)].
  assert (Hsub := fun r => is_recent_sub now p rs r).
  destruct (is_recent_wayland_clipboard_input false now p rs) as [b rs'] eqn:E. destruct b.
  - unfold is_recent_wayland_clipboard_input in E. destruct (is_empty p || false); [done|].
    destruct (get_wayland_clipboard_input_normalized_text p) as [n|] eqn:En; [|done].
    assert (Hn : n = normalize_wayland_clipboard_input_text p)
      by (unfold get_wayland_clipboard_input_normalized_text in En; by destruct (normalize_wayland_clipboard_input_text p); [|injection En as <-]).
    injection E as E _. apply existsb_exists in E as ([x q] & Hin & Hq). apply bool_decide_eq_true in Hq. cbn in Hq.
    apply list_elem_of_In, cleanup_sub in Hin as [Hin Hrec].
    destruct (Hs _ Hin) as [Hno|(la & ok & t & Ht & Hx)]; [by apply not_elem_of_nil in Hno|]. cbn [fst snd] in Ht, Hx.
    exists c, p, x, la, ok, t. split_and!; [by left|done|done|by rewrite <- Hx, Hq, Hn|]. unfold recent in Hrec. cbn in Hrec. lia.
  - apply Hnext, (IH rs'); [|done]. intros r Hin. by apply Hs, Hsub.
Qed.
End Facts.

(** ** Examples *)

(** The tests of the source. *)
Example decode_utf8_prefix_trims_incomplete_utf8_suffix : decode_utf8_prefix [x61; xe4; xb8] = Some [x61].
Proof. vm_compute. reflexivity. Qed.
Example decode_utf8_prefix_returns_none_for_invalid_utf8_sequence : decode_utf8_prefix [x61; x62; xff; x63; x64] = None.
Proof. vm_compute. reflexivity. Qed.
Example decode_utf8_prefix_keeps_utf8_boundary_when_limited :
  decode_utf8_prefix (repeat x61 4095 ++ [xd8; xa7]) = Some (repeat x61 4095).
Proof. vm_compute. reflexivity. Qed.

Lemma typed_text_is_not_sent_back_witness :
  let t := [x68; xc3; xa9] in
  let rs' := @typed_run toy_zstd (snd (set_clipboard_for_paste_sync false 0 0 true t [])) [Types 5 6 false [x61]; Types 7 7 true [x62]] in
  @read_clipboard_message _ toy_board toy_zstd 1 false [Text t] <> None /\
  @get_clipboard_msg _ toy_board toy_zstd 1 (fun m => fst (@should_skip_wayland_clipboard_sync false toy_zstd 900000000 m rs')) [Text t] = None.
Proof.
  split; [vm_compute; discriminate|].
  apply (@typed_text_is_not_sent_back _ toy_board toy_zstd toy_board_laws toy_zstd_laws toy_zstd_total 0 0 [x68; xc3; xa9] []
           [Types 5 6 false [x61]; Types 7 7 true [x62]] 900000000 1 [Text [x68; xc3; xa9]]).
  - vm_compute. reflexivity.
  - discriminate.
  - vm_compute. discriminate.
  - unfold WAYLAND_CLIPBOARD_INPUT_FILTER_WINDOW. repeat constructor; lia.
  - vm_compute. lia.
  - unfold WAYLAND_CLIPBOARD_INPUT_FILTER_WINDOW. lia.
  - exists [], []. split; [done|constructor].
Defined.
