(* ===== verification/ClipListener.v ===== *)
(** * Who is told of changes of the clipboard (src/clipboard.rs, [mod clipboard_listener],
    and the loop of server/clipboard_service.rs)

    One thread watches the system's clipboard for all who subscribed.  It is started with the
    first subscription and ended with the last. *)

From stdpp Require Import gmap strings.
From S2P Require Import Prelude.

(** ** The listener *)

Inductive CallbackResult : Type := Next | Stop | StopWithError (err : string).

(** [subscribers]: the channel of each name.  [handle]: the thread, and whether it ended by
    itself. *)
Record ClipboardListener : Type := mkListener { subscribers : gmap string nat; handle : option bool }.

(** What is sent, and to which channel. *)
Abbreviation told := (list (nat * CallbackResult)).

(** [Handler::on_clipboard_change], [on_clipboard_error]. *)
Definition on_clipboard_change (l : ClipboardListener) : told := map (fun p => (snd p, Next)) (map_to_list (subscribers l)).
Definition on_clipboard_error (error : string) (l : ClipboardListener) : told :=
  map (fun p => (snd p, StopWithError ("Clipboard listener error: " ++ error)%string)) (map_to_list (subscribers l)).

Definition cleanup_stale_listener (l : ClipboardListener) : ClipboardListener :=
  if default false (handle l) then mkListener (subscribers l) None else l.

(** [start]: how [start_clipboard_master_thread] went; without a report the thread died
    before it could tell. *)
Definition subscribe (start : option (result string unit)) (name : string) (tx : nat) (l : ClipboardListener)
  : result string unit * ClipboardListener :=
  let l := cleanup_stale_listener (mkListener (<[name := tx]> (subscribers l)) (handle l)) in
  match handle l with
  | Some _ => (Ok tt, l)
  | None =>
      match start with
      | Some (Ok _) => (Ok tt, mkListener (subscribers l) (Some false))
      | Some (Err err) => (Err err, l)
      | None => (Err "Failed to create clipboard listener"%string, l)
      end
  end.

Definition unsubscribe (name : string) (l : ClipboardListener) : told * ClipboardListener :=
  let out := match subscribers l !! name with Some tx => [(tx, Stop)] | None => [] end in
  let subs := delete name (subscribers l) in
  (out, mkListener subs (if decide (subs = ∅) then None else handle l)).

(** ** The loop of the service *)

Inductive Received : Type := Got (r : CallbackResult) | Timeout | Disconnected.

(** [run], from the subscription on: [oks] is what [sp.ok()] says each time around, with what
    is received; how often the clipboard is read, and how it ends. *)
Fixpoint service_loop (rounds : list (bool * Received)) : nat * option (result string unit) :=
  match rounds with
  | [] => (O, None)
  | (false, _) :: _ => (O, Some (Ok tt))
  | (true, r) :: rounds =>
      match r with
      | Got Next => let '(n, e) := service_loop rounds in (S n, e)
      | Got Stop | Disconnected => (O, Some (Ok tt))
      | Got (StopWithError err) => (O, Some (Err ("Clipboard listener stopped with error: " ++ err)%string))
      | Timeout => service_loop rounds
      end
  end.

(** ** The thread lives while someone listens *)

Inductive listener_step (l : ClipboardListener) : told -> ClipboardListener -> Prop :=
| step_subscribe start name tx r l' : subscribe start name tx l = (r, l') -> listener_step l [] l'
| step_unsubscribe name out l' : unsubscribe name l = (out, l') -> listener_step l out l'
| step_change : handle l = Some false -> listener_step l (on_clipboard_change l) l
| step_error error : handle l = Some false -> listener_step l (on_clipboard_error error l) l
| step_dies : handle l = Some false -> listener_step l [] (mkListener (subscribers l) (Some true)).

Inductive listener_run : ClipboardListener -> told -> ClipboardListener -> Prop :=
| listener_done l : listener_run l [] l
| listener_next l out l' outs l'' : listener_step l out l' -> listener_run l' outs l'' -> listener_run l (out ++ outs) l''.

Lemma subscribe_subscribers start name tx l :
  subscribers (snd (subscribe start name tx l)) = <[name := tx]> (subscribers l).
Proof.
  unfold subscribe, cleanup_stale_listener. cbn [handle subscribers].
  destruct (handle l) as [[|]|]; cbn; [|done|]; by destruct start as [[]|].
Qed.

(** A subscription that succeeds has a thread that lives, and is told of what changes. *)
Theorem subscribed_is_told start name tx l l' :
  subscribe start name tx l = (Ok tt, l') ->
  handle l' = Some false /\ (tx, Next) ∈ on_clipboard_change l'.
Proof.
  intros H. assert (Hs := subscribe_subscribers start name tx l). rewrite H in Hs. cbn [snd] in Hs. split.
  - revert H. unfold subscribe, cleanup_stale_listener. cbn [handle subscribers].
    destruct (handle l) as [[|]|]; cbn; [|by intros [= <-]|]; destruct start as [[]|]; by intros [= <-].
  - unfold on_clipboard_change. rewrite Hs. apply list_elem_of_fmap. exists (name, tx). split; [done|].
    apply elem_of_map_to_list, lookup_insert_eq.
Qed.

(** There is no thread when nobody subscribed, whatever happened. *)
Theorem nobody_no_thread l outs l' :
  (subscribers l = ∅ -> handle l = None) -> listener_run l outs l' -> subscribers l' = ∅ -> handle l' = None.
Proof.
  intros H Hr. induction Hr as [l|l out l1 outs l2 Hs Hr IH]; [done|]. apply IH. clear IH Hr.
  destruct Hs as [start name tx r l' E|name out l' E|Hl|error Hl|Hl]; [| |exact H|exact H|].
  - intros He. assert (Hsub := subscribe_subscribers start name tx l). rewrite E in Hsub. cbn in Hsub.
    rewrite Hsub in He. by apply insert_non_empty in He.
  - injection E as <- <-. cbn [subscribers handle]. intros He. by rewrite decide_True.
  - intros He. cbn in He. rewrite (H He) in Hl. done.
Qed.

(** Who has unsubscribed hears nothing more, but that it is to stop. *)
Theorem unsubscribed_is_stopped name l tx :
  subscribers l !! name = Some tx -> fst (unsubscribe name l) = [(tx, Stop)] /\
  subscribers (snd (unsubscribe name l)) !! name = None.
Proof. intros H. unfold unsubscribe. rewrite H. cbn. split; [done|apply lookup_delete_eq]. Qed.

(** A subscription that fails stays, and is served when another succeeds later. *)
Theorem failed_subscription_stays name tx other tx' e :
  name <> other ->
  let l1 := snd (subscribe (Some (Err e)) name tx (mkListener ∅ None)) in
  let l2 := snd (subscribe (Some (Ok tt)) other tx' l1) in
  (tx, Next) ∈ on_clipboard_change l2.
Proof.
  intros Hn l1 l2. unfold on_clipboard_change. apply list_elem_of_fmap. exists (name, tx). split; [done|].
  apply elem_of_map_to_list. unfold l2. rewrite subscribe_subscribers, lookup_insert_ne by done.
  unfold l1. rewrite subscribe_subscribers. apply lookup_insert_eq.
Qed.
