(* ===== verification/IpcFs.v ===== *)
(** * The files of the inter-process channels (src/ipc/fs.rs)

    A channel of the program is a socket in a directory of /tmp, which every user of the
    machine can write.  Here are the calls of the operating system, with what others may do
    between any two of them, and the program's operations made of these calls. *)

From Stdlib Require Import Ascii.
From stdpp Require Import gmap strings pretty.
From S2P Require Import Prelude.

(** ** Files *)

Inductive Kind : Type := KDir | KReg | KSock | KLink (target : option nat).

#[export] Instance kind_eq_dec : EqDecision Kind.
Proof. solve_decision. Defined.

Record Inode : Type := mkInode { i_kind : Kind; i_uid : Z; i_mode : Z; i_content : list byte }.

#[export] Instance inode_eq_dec : EqDecision Inode.
Proof. solve_decision. Defined.

(** [dirs]: the entries of each directory; a link leads to a file, or nowhere. *)
Record Unix : Type := mkUnix { inodes : gmap nat Inode; dirs : gmap nat (gmap string nat) }.

(** The directory /tmp. *)
Definition TMP : nat := 0.

Definition entry (w : Unix) (d : nat) (name : string) : option nat := dirs w !! d ≫= (.!! name).

Definition set_inode (i : nat) (ino : Inode) (w : Unix) : Unix := mkUnix (<[i := ino]> (inodes w)) (dirs w).
Definition add_entry (d : nat) (name : string) (i : nat) (w : Unix) : Unix :=
  mkUnix (inodes w) (alter (fun es => <[name := i]> es) d (dirs w)).
Definition del_entry (d : nat) (name : string) (w : Unix) : Unix :=
  mkUnix (inodes w) (alter (fun es => delete name es) d (dirs w)).
Definition new_inode (i : nat) (ino : Inode) (w : Unix) : Unix :=
  mkUnix (<[i := ino]> (inodes w)) (if decide (i_kind ino = KDir) then <[i := ∅]> (dirs w) else dirs w).

Definition with_mode (m : Z) (i : Inode) : Inode := mkInode (i_kind i) (i_uid i) m (i_content i).
Definition with_uid (u : Z) (i : Inode) : Inode := mkInode (i_kind i) u (i_mode i) (i_content i).
Definition with_content (c : list byte) (i : Inode) : Inode := mkInode (i_kind i) (i_uid i) (i_mode i) c.

(** *** Permissions: of the owner, of anybody else, and of root.  The sticky bit keeps the
    entries of a directory for their owners. *)

Definition S_ISVTX : nat := 9.

Definition may_write (u : Z) (i : Inode) : bool :=
  (u =? 0) || (if u =? i_uid i then Z.testbit (i_mode i) 7 else Z.testbit (i_mode i) 4 || Z.testbit (i_mode i) 1).
Definition may_read (u : Z) (i : Inode) : bool :=
  (u =? 0) || (if u =? i_uid i then Z.testbit (i_mode i) 8 else Z.testbit (i_mode i) 5 || Z.testbit (i_mode i) 2).
Definition may_remove (u : Z) (di i : Inode) : bool :=
  may_write u di && ((u =? 0) || negb (Z.testbit (i_mode di) 9) || (u =? i_uid i) || (u =? i_uid di)).

(** ** What others do

    Users that are neither root nor the one that runs the program ([v]) make files and links
    where they may write, rename and remove what they may, and change what is their own.  A
    directory that they have opened is checked as one that they name. *)

Section Others.
Variable v : Z.

Definition hostile (u : Z) : Prop := u <> 0 /\ u <> v.

Definition writes_dir (w : Unix) (u : Z) (d : nat) (di : Inode) : Prop :=
  inodes w !! d = Some di /\ i_kind di = KDir /\ may_write u di = true.

Inductive attack (w : Unix) : Unix -> Prop :=
| attack_create u d di name i ino : hostile u -> writes_dir w u d di -> entry w d name = None ->
    inodes w !! i = None -> i_uid ino = u -> attack w (add_entry d name i (new_inode i ino w))
| attack_link u d di name i ino : hostile u -> writes_dir w u d di -> entry w d name = None ->
    inodes w !! i = Some ino -> i_kind ino <> KDir -> attack w (add_entry d name i w)
| attack_remove u d di name i ino : hostile u -> writes_dir w u d di -> entry w d name = Some i ->
    inodes w !! i = Some ino -> may_remove u di ino = true -> attack w (del_entry d name w)
| attack_move u d di name d' di' name' i ino : hostile u -> writes_dir w u d di -> entry w d name = Some i ->
    inodes w !! i = Some ino -> may_remove u di ino = true ->
    writes_dir w u d' di' -> entry w d' name' = None -> attack w (add_entry d' name' i (del_entry d name w))
| attack_chmod u i ino mode : hostile u -> inodes w !! i = Some ino -> i_uid ino = u ->
    attack w (set_inode i (with_mode mode ino) w)
| attack_content i ino c : inodes w !! i = Some ino -> i_uid ino <> v -> i_uid ino <> 0 ->
    attack w (set_inode i (with_content c ino) w).

(** The user's own files, and root's, are safe from them: what they are, where they are in a
    directory such as /tmp, and what is in a directory that only its owner may write. *)
Definition trusted (ino : Inode) : Prop := i_uid ino = v \/ i_uid ino = 0.
Definition closed (ino : Inode) : Prop := Z.testbit (i_mode ino) 4 = false /\ Z.testbit (i_mode ino) 1 = false.

Lemma hostile_not_trusted u ino : hostile u -> trusted ino -> u <> i_uid ino.
Proof. intros [? ?] [->| ->]; congruence. Qed.

Lemma hostile_closed u ino : hostile u -> trusted ino -> closed ino -> may_write u ino = false.
Proof.
  intros Hu Ht [H1 H2]. unfold may_write. rewrite H1, H2. destruct Hu as [H0 Hv].
  destruct (Z.eqb_spec u 0); [done|]. destruct (Z.eqb_spec u (i_uid ino)) as [E|_]; [|done].
  exfalso. by apply (hostile_not_trusted u ino).
Qed.

Lemma attack_inode w w' i ino : attack w w' -> inodes w !! i = Some ino -> trusted ino -> inodes w' !! i = Some ino.
Proof.
  intros Ha Hi Ht. destruct Ha as [u d di name j jo Hu Hd Hn Hj Ho|u d di name j jo Hu Hd Hn Hj Ho
    |u d di name j jo Hu Hd Hn Hj Ho|u d di name d' di' name' j jo Hu Hd Hn Hj Ho Hd' Hn'|u j jo mode Hu Hj Ho|j jo c Hj Ho Ho'];
    cbn [inodes add_entry del_entry set_inode new_inode]; try exact Hi.
  - rewrite lookup_insert_ne; [done|]. intros ->. congruence.
  - rewrite lookup_insert_ne; [done|]. intros ->. rewrite Hi in Hj. injection Hj as <-. subst u. by apply (hostile_not_trusted _ _ Hu Ht).
  - rewrite lookup_insert_ne; [done|]. intros ->. rewrite Hi in Hj. injection Hj as <-. by destruct Ht.
Qed.

Lemma entry_add w d name i d' name' :
  entry (add_entry d name i w) d' name' = if decide (d = d' /\ name = name' /\ is_Some (dirs w !! d)) then Some i else entry w d' name'.
Proof.
  unfold entry, add_entry. cbn [dirs]. destruct (decide (d = d')) as [<-|Hd].
  - rewrite lookup_alter_eq. destruct (dirs w !! d) as [es|] eqn:E; cbn.
    + destruct (decide (name = name')) as [<-|Hn].
      * rewrite decide_True by (split_and!; [done|done|by eexists]). by rewrite lookup_insert_eq.
      * rewrite decide_False by (by intros (_ & ? & _)). by rewrite lookup_insert_ne.
    + rewrite decide_False by (by intros (_ & _ & [? ?])). done.
  - rewrite lookup_alter_ne by done. by rewrite decide_False by (by intros (? & _)).
Qed.

Lemma entry_del w d name d' name' :
  entry (del_entry d name w) d' name' = if decide (d = d' /\ name = name') then None else entry w d' name'.
Proof.
  unfold entry, del_entry. cbn [dirs]. destruct (decide (d = d')) as [<-|Hd].
  - rewrite lookup_alter_eq. destruct (dirs w !! d) as [es|]; cbn.
    + destruct (decide (name = name')) as [<-|Hn].
      * rewrite decide_True by done. by rewrite lookup_delete_eq.
      * rewrite decide_False by (by intros [_ ?]). by rewrite lookup_delete_ne.
    + by destruct (decide _).
  - rewrite lookup_alter_ne by done. by rewrite decide_False by (by intros [? _]).
Qed.

Lemma entry_new w i ino d name : d <> i -> entry (new_inode i ino w) d name = entry w d name.
Proof. intros Hd. unfold entry, new_inode. cbn [dirs]. case_decide; [by rewrite lookup_insert_ne|done]. Qed.

(** A name of a trusted file, in a trusted directory that is closed or sticky. *)
Lemma attack_entry w w' d di name i ino :
  attack w w' -> inodes w !! d = Some di -> trusted di -> closed di \/ Z.testbit (i_mode di) 9 = true ->
  entry w d name = Some i -> inodes w !! i = Some ino -> trusted ino -> entry w' d name = Some i.
Proof.
  intros Ha Hd Hdt Hdc He Hi Hit.
  assert (Hrem : forall u dj jo, hostile u -> inodes w !! d = Some dj -> inodes w !! i = Some jo -> may_remove u dj jo = true -> False).
  { intros u dj jo Hu Hdj Hjo Hm. rewrite Hd in Hdj. rewrite Hi in Hjo. injection Hdj as <-. injection Hjo as <-.
    unfold may_remove in Hm. apply andb_true_iff in Hm as [Hw Hm]. destruct Hdc as [Hdc|Hs].
    - rewrite hostile_closed in Hw by done. done.
    - rewrite Hs in Hm. cbn in Hm. assert (H1 := hostile_not_trusted u di Hu Hdt). assert (H2 := hostile_not_trusted u ino Hu Hit).
      destruct Hu as [H0 _]. destruct (Z.eqb_spec u 0), (Z.eqb_spec u (i_uid ino)), (Z.eqb_spec u (i_uid di)); done. }
  destruct Ha as [u d1 d1i n1 j jo Hu Hd1 Hn Hj Ho|u d1 d1i n1 j jo Hu Hd1 Hn Hj Ho
    |u d1 d1i n1 j jo Hu Hd1 Hn Hj Hm|u d1 d1i n1 d2 d2i n2 j jo Hu Hd1 Hn Hj Hm Hd2 Hn2|u j jo mode Hu Hj Ho|j jo c Hj Ho Ho'].
  - rewrite entry_add. case_decide as Hc; [destruct Hc as (-> & -> & _); congruence|].
    rewrite entry_new; [done|]. intros ->. congruence.
  - rewrite entry_add. case_decide as Hc; [destruct Hc as (-> & -> & _); congruence|done].
  - rewrite entry_del. case_decide as Hc; [|done]. destruct Hc as [-> ->]. exfalso. rewrite He in Hn. injection Hn as <-.
    destruct Hd1 as (Hd1 & _). exact (Hrem _ _ _ Hu Hd1 Hj Hm).
  - rewrite entry_add. case_decide as Hc; [destruct Hc as (-> & -> & _); congruence|]. rewrite entry_del.
    case_decide as Hc'; [|done]. destruct Hc' as [-> ->]. exfalso. rewrite He in Hn. injection Hn as <-.
    destruct Hd1 as (Hd1 & _). exact (Hrem _ _ _ Hu Hd1 Hj Hm).
  - done.
  - done.
Qed.

(** A closed directory: nothing comes, either. *)
Lemma attack_closed w w' d di name :
  attack w w' -> inodes w !! d = Some di -> trusted di -> closed di -> entry w' d name = entry w d name.
Proof.
  intros Ha Hd Ht Hc.
  assert (Hno : forall u dj, hostile u -> writes_dir w u d dj -> False).
  { intros u dj Hu (Hdj & _ & Hw). rewrite Hd in Hdj. injection Hdj as <-. by rewrite hostile_closed in Hw. }
  destruct Ha as [u d1 d1i n1 j jo Hu Hd1 Hn Hj Ho|u d1 d1i n1 j jo Hu Hd1 Hn Hj Ho
    |u d1 d1i n1 j jo Hu Hd1 Hn Hj Hm|u d1 d1i n1 d2 d2i n2 j jo Hu Hd1 Hn Hj Hm Hd2 Hn2|u j jo mode Hu Hj Ho|j jo c Hj Ho Ho'];
    try done.
  - rewrite entry_add. case_decide as Hx; [destruct Hx as (-> & _); exfalso; exact (Hno _ _ Hu Hd1)|].
    rewrite entry_new; [done|]. intros ->. congruence.
  - rewrite entry_add. case_decide as Hx; [destruct Hx as (-> & _); exfalso; exact (Hno _ _ Hu Hd1)|done].
  - rewrite entry_del. case_decide as Hx; [destruct Hx as [-> _]; exfalso; exact (Hno _ _ Hu Hd1)|done].
  - rewrite entry_add. case_decide as Hx; [destruct Hx as (-> & _); exfalso; exact (Hno _ _ Hu Hd2)|]. rewrite entry_del.
    case_decide as Hx'; [destruct Hx' as [-> _]; exfalso; exact (Hno _ _ Hu Hd1)|done].
Qed.
End Others.

(** ** Calls of the operating system *)

Inductive Errno : Type := ENOENT | EEXIST | ELOOP | ENOTDIR | EISDIR | EACCES | EPERM | ENOTEMPTY | ENXIO | EOTHER.

#[export] Instance errno_eq_dec : EqDecision Errno.
Proof. solve_decision. Defined.

Section Calls.
Variable v : Z.

Abbreviation call A := (Unix -> result Errno A * Unix).

(** [open] with O_DIRECTORY and O_NOFOLLOW, of a name in /tmp. *)
Definition sys_open_dir (name : string) : call nat := fun w =>
  match entry w TMP name with
  | None => (Err ENOENT, w)
  | Some i =>
      match inodes w !! i with
      | Some ino =>
          match i_kind ino with
          | KDir => (if may_read v ino then Ok i else Err EACCES, w)
          | KLink _ => (Err ELOOP, w)
          | _ => (Err ENOTDIR, w)
          end
      | None => (Err ENOENT, w)
      end
  end.

Definition fresh_inode (w : Unix) : nat := fresh (map_to_list (inodes w)).*1.

(** [umask]: what new files are not given. *)
Definition sys_mkdir (umask : Z) (name : string) (mode : Z) : call unit := fun w =>
  match entry w TMP name with
  | Some _ => (Err EEXIST, w)
  | None =>
      let i := fresh_inode w in
      (Ok tt, add_entry TMP name i (new_inode i (mkInode KDir v (Z.ldiff mode umask) []) w))
  end.

Definition sys_fstat (i : nat) : call Inode := fun w =>
  (match inodes w !! i with Some ino => Ok ino | None => Err EOTHER end, w).

Definition sys_fchown (i : nat) (uid : Z) : call unit := fun w =>
  match inodes w !! i with
  | Some ino => if v =? 0 then (Ok tt, set_inode i (with_uid uid ino) w) else (Err EPERM, w)
  | None => (Err EOTHER, w)
  end.

Definition sys_fchmod (i : nat) (mode : Z) : call unit := fun w =>
  match inodes w !! i with
  | Some ino => if (v =? 0) || (v =? i_uid ino) then (Ok tt, set_inode i (with_mode mode ino) w) else (Err EPERM, w)
  | None => (Err EOTHER, w)
  end.

(** [fstatat] with AT_SYMLINK_NOFOLLOW, [unlinkat]. *)
Definition sys_fstatat (d : nat) (name : string) : call Inode := fun w =>
  match entry w d name with
  | Some i => sys_fstat i w
  | None => (Err ENOENT, w)
  end.

Definition sys_unlinkat (d : nat) (name : string) (rmdir : bool) : call unit := fun w =>
  match entry w d name, inodes w !! d with
  | Some i, Some di =>
      match inodes w !! i with
      | Some ino =>
          if negb (may_remove v di ino) then (Err EACCES, w)
          else if rmdir then
            if negb (bool_decide (i_kind ino = KDir)) then (Err ENOTDIR, w)
            else if bool_decide (dirs w !! i = Some ∅) then (Ok tt, del_entry d name w) else (Err ENOTEMPTY, w)
          else if bool_decide (i_kind ino = KDir) then (Err EISDIR, w)
          else (Ok tt, del_entry d name w)
      | None => (Err EOTHER, w)
      end
  | _, _ => (Err ENOENT, w)
  end.

(** The directory that the first part of a path leads to, through a link too. *)
Definition resolve_dir (w : Unix) (parent : string) : option nat :=
  i ← entry w TMP parent;
  ino ← inodes w !! i;
  match i_kind ino with
  | KDir => Some i
  | KLink (Some j) => match i_kind <$> inodes w !! j with Some KDir => Some j | _ => None end
  | _ => None
  end.

(** [open] with O_WRONLY, O_CREAT and O_NOFOLLOW of a name in a directory of /tmp. *)
Definition sys_open_create (umask : Z) (parent name : string) (mode : Z) : call nat := fun w =>
  match resolve_dir w parent with
  | None => (Err ENOENT, w)
  | Some d =>
      match entry w d name, inodes w !! d with
      | Some i, _ =>
          match inodes w !! i with
          | Some ino =>
              match i_kind ino with
              | KReg => (if may_write v ino then Ok i else Err EACCES, w)
              | KLink _ => (Err ELOOP, w)
              | KDir => (Err EISDIR, w)
              | KSock => (Err ENXIO, w)
              end
          | None => (Err EOTHER, w)
          end
      | None, Some di =>
          if may_write v di
          then let i := fresh_inode w in (Ok i, add_entry d name i (new_inode i (mkInode KReg v (Z.ldiff mode umask) []) w))
          else (Err EACCES, w)
      | None, None => (Err EOTHER, w)
      end
  end.

(** [open] for reading, with O_NOFOLLOW and O_NONBLOCK. *)
Definition sys_open_read (parent name : string) : call nat := fun w =>
  (match resolve_dir w parent ≫= (fun d => entry w d name) with
   | None => Err ENOENT
   | Some i =>
       match inodes w !! i with
       | Some ino => match i_kind ino with
                     | KLink _ => Err ELOOP
                     | KSock => Err ENXIO
                     | _ => if may_read v ino then Ok i else Err EACCES
                     end
       | None => Err EOTHER
       end
   end, w).

Definition sys_ftruncate (i : nat) : call unit := fun w =>
  match inodes w !! i with Some ino => (Ok tt, set_inode i (with_content [] ino) w) | None => (Err EOTHER, w) end.

(** [write] to a file that was just opened or truncated: [n] bytes are taken at the end. *)
Definition sys_write (i : nat) (buf : list byte) (n : nat) : call nat := fun w =>
  match inodes w !! i with
  | Some ino => (Ok (Nat.min n (length buf)), set_inode i (with_content (i_content ino ++ take n buf) ino) w)
  | None => (Err EOTHER, w)
  end.

Definition sys_read (i : nat) (n : nat) : call (list byte) := fun w =>
  (match inodes w !! i with Some ino => Ok (take n (i_content ino)) | None => Err EOTHER end, w).

(** [fs::set_permissions] and [fs::remove_file]: by path. *)
Definition sys_set_permissions (parent name : string) (mode : Z) : call unit := fun w =>
  match resolve_dir w parent ≫= (fun d => entry w d name) with
  | None => (Err ENOENT, w)
  | Some i =>
      match i_kind <$> inodes w !! i with
      | Some (KLink (Some j)) => sys_fchmod j mode w
      | Some (KLink None) | None => (Err ENOENT, w)
      | Some _ => sys_fchmod i mode w
      end
  end.
Definition sys_remove_file (parent name : string) : call unit := fun w =>
  match resolve_dir w parent with
  | None => (Err ENOENT, w)
  | Some d => sys_unlinkat d name false w
  end.
End Calls.

(** ** The program *)

Inductive IpcError : Type := Os (e : Errno) | InvalidInput | NotADirectory | UnsafeOwner | NotRegular | OwnerMismatch | WriteZero.

(** What surrounds a run of the program, by the number of calls made so far: what the others
    do before a call, whether the call fails for another cause, and how much a write
    takes. *)
Record Around : Type := mkAround { others : nat -> Unix -> Unix; failing : nat -> bool; taken : nat -> nat }.

Definition is_service_ipc_postfix (postfix : string) : bool := String.eqb postfix "_service" || String.prefix "_uinput_" postfix.

Definition ipc_parent_dir_for_uid (app_name : string) (uid : Z) (postfix : string) : string :=
  if is_service_ipc_postfix postfix then (app_name ++ "-service")%string else (app_name ++ "-" ++ pretty uid)%string.

(** 0o0711 and 0o0700. *)
Definition expected_ipc_parent_mode (postfix : string) : Z := if is_service_ipc_postfix postfix then 457 else 448.

Definition has_char (c : ascii) (s : string) : bool := existsb (Ascii.eqb c) (String.list_ascii_of_string s).

Section Program.
Variable v : Z.
Variable umask : Z.
Variable around : Around.

Definition prog (A : Type) : Type := ST IpcError (nat * Unix) A.

Definition sys {A} (f : Unix -> result Errno A * Unix) : prog A := fun '(n, w) =>
  let w := others around n w in
  if failing around n then (Err (Os EOTHER), (S n, w))
  else let '(r, w) := f w in (match r with Ok a => Ok a | Err e => Err (Os e) end, (S n, w)).

Definition open_ipc_parent_dir_fd (parent : string) : prog nat := sys (sys_open_dir v parent).

Definition remove_parent_entry_via_fd (fd : nat) (entry_name : string) : prog unit :=
  if has_char "/"%char entry_name || has_char "000"%char entry_name then st_fail InvalidInput
  else
    st ← st_try (sys (sys_fstatat fd entry_name));
    match st with
    | Err (Os ENOENT) => mret tt
    | Err e => st_fail e
    | Ok stat =>
        rc ← st_try (sys (sys_unlinkat v fd entry_name (bool_decide (i_kind stat = KDir))));
        match rc with
        | Ok _ => mret tt
        | Err (Os ENOENT) => mret tt
        | Err e => st_fail e
        end
    end.

Definition scrub_preexisting_ipc_parent_entries (fd : nat) (postfix : string) : prog unit :=
  remove_parent_entry_via_fd fd ("ipc" ++ postfix)%string ;;
  remove_parent_entry_via_fd fd ("ipc" ++ postfix ++ ".pid")%string.

Definition remove_ipc_socket_via_secure_parent_fd (parent postfix : string) : prog unit :=
  r ← st_try (open_ipc_parent_dir_fd parent);
  match r with
  | Ok fd => remove_parent_entry_via_fd fd ("ipc" ++ postfix)%string
  | Err (Os ENOENT) => mret tt
  | Err e => st_fail e
  end.

(** The directory is opened, and made when it is missing. *)
Definition open_or_make (parent postfix : string) : prog nat :=
  r ← st_try (open_ipc_parent_dir_fd parent);
  match r with
  | Ok fd => mret fd
  | Err (Os ENOENT) =>
      rc ← st_try (sys (sys_mkdir v umask parent (expected_ipc_parent_mode postfix)));
      match rc with
      | Ok _ => open_ipc_parent_dir_fd parent
      | Err (Os EEXIST) => open_ipc_parent_dir_fd parent
      | Err e => st_fail e
      end
  | Err e => st_fail e
  end.

(** Root takes a directory of the service that belongs to another. *)
Definition adopt_parent (fd : nat) (postfix : string) (st : Inode) : prog (Inode * bool) :=
  if negb (i_uid st =? v) && (v =? 0) && is_service_ipc_postfix postfix then
    rc ← st_try (sys (sys_fchown v fd v));
    match rc with
    | Ok _ =>
        st2 ← st_try (sys (sys_fstat fd));
        match st2 with
        | Ok st2 => mret (st2, true)
        | Err _ => mret (st, false)
        end
    | Err _ => mret (st, false)
    end
  else mret (st, false).

Definition S_IMODE (m : Z) : Z := Z.land m 4095.
Definition writable_by_others (m : Z) : bool := negb (Z.land m 18 =? 0).

Definition ensure_secure_ipc_parent_dir (parent postfix : string) : prog bool :=
  fd ← open_or_make parent postfix;
  st ← sys (sys_fstat fd);
  if negb (bool_decide (i_kind st = KDir)) then st_fail NotADirectory
  else
    '(st, adopted_foreign_service_parent) ← adopt_parent fd postfix st;
    if negb (i_uid st =? v) then st_fail UnsafeOwner
    else
      let expected_mode := expected_ipc_parent_mode postfix in
      let current_mode := S_IMODE (i_mode st) in
      let repaired_parent_mode := negb (current_mode =? expected_mode) in
      let had_untrusted_parent_mode := writable_by_others current_mode in
      (if repaired_parent_mode then sys (sys_fchmod v fd expected_mode) else mret tt) ;;
      mret (repaired_parent_mode || adopted_foreign_service_parent || had_untrusted_parent_mode).

Definition scrub_secure_ipc_parent_dir (parent postfix : string) : prog unit :=
  fd ← open_ipc_parent_dir_fd parent;
  scrub_preexisting_ipc_parent_entries fd postfix.

(** *** The file with the number of the process *)

(** As many rounds as bytes are enough, as each takes one at least. *)
Fixpoint write_all (rounds : nat) (fd : nat) (buf : list byte) : prog unit :=
  match buf, rounds with
  | [], _ => mret tt
  | _, O => mret tt
  | _, S rounds =>
      '(n, _) ← st_get;
      rc ← sys (sys_write fd buf (taken around n));
      if (rc =? 0)%nat then st_fail WriteZero else write_all rounds fd (drop rc buf)
  end.

Definition write_pid_file (parent name : string) (pid : list byte) : prog unit :=
  fd ← sys (sys_open_create v umask parent name 384);
  stat ← sys (sys_fstat fd);
  if negb (bool_decide (i_kind stat = KReg)) then st_fail NotRegular
  else if negb (i_uid stat =? v) then st_fail OwnerMismatch
  else
    sys (sys_fchmod v fd 384) ;;
    sys (sys_ftruncate fd) ;;
    write_all (length pid) fd pid.

(** What is read of it: at most 64 bytes. *)
Definition read_pid_file_secure (parent name : string) : prog (option (list byte)) :=
  r ← st_try (fd ← sys (sys_open_read v parent name);
              stat ← sys (sys_fstat fd);
              if negb (bool_decide (i_kind stat = KReg)) then st_fail NotRegular
              else
                content ← sys (sys_read fd 64);
                match content with [] => st_fail WriteZero | _ => mret content end);
  mret (ok r).

(** *** The listener *)

(** [pid_alive content]: whether the text is the number of a process of this program, and
    whether a listener answers, asked then and later; the first two arguments of
    [incoming], of the crate that listens on sockets, are the directory and the name. *)
Variable pid_alive : list byte -> bool.
Variable answers : nat -> bool.
Variable incoming : string -> string -> Unix -> result Errno unit * Unix.

Definition check_pid (parent postfix : string) : prog bool :=
  pid ← read_pid_file_secure parent ("ipc" ++ postfix ++ ".pid")%string;
  '(n, _) ← st_get;
  if match pid with Some content => pid_alive content && answers n | None => false end then mret true
  else if answers (S n) then mret true
  else
    st_try (remove_ipc_socket_via_secure_parent_fd parent postfix) ;;
    mret false.

Definition should_scrub_parent_entries_after_check_pid (should_scrub existing_listener_alive : bool) : bool :=
  should_scrub && negb existing_listener_alive.

(** 0o0666 and 0o0600. *)
Definition socket_mode (postfix : string) : Z := if is_service_ipc_postfix postfix then 438 else 384.

Definition new_listener (app_name postfix : string) (pid : list byte) : prog unit :=
  let parent := ipc_parent_dir_for_uid app_name v postfix in
  let name := ("ipc" ++ postfix)%string in
  should_scrub ← ensure_secure_ipc_parent_dir parent postfix;
  existing_listener_alive ← check_pid parent postfix;
  (if should_scrub_parent_entries_after_check_pid should_scrub existing_listener_alive
   then scrub_secure_ipc_parent_dir parent postfix else mret tt) ;;
  sys (incoming parent name) ;;
  rc ← st_try (sys (sys_set_permissions v parent name (socket_mode postfix)));
  match rc with
  | Ok _ => st_try (write_pid_file parent (name ++ ".pid")%string pid) ;; mret tt
  | Err e => st_try (sys (sys_remove_file v parent name)) ;; st_fail e
  end.
End Program.
