(* ===== verification/IpcSafe.v ===== *)
(** * Who can reach a channel (src/ipc/fs.rs, [new_listener] of src/ipc.rs)

    A directory that was made secure stays the one its name leads to, and nobody else changes
    what is in it; the socket of a channel is in such a directory.  At the end: a directory of
    another that root takes over can be exchanged meanwhile. *)

From stdpp Require Import gmap strings pretty.
From S2P Require Import Prelude IpcFs.

(** ** What the others leave as it is *)

Section Stable.
Variable v : Z.

(** /tmp: root's, for all to write, with the sticky bit, and in no directory itself. *)
Definition tmp_inode : Inode := mkInode KDir 0 1023 [].
Definition tmp_ok (w : Unix) : Prop :=
  inodes w !! TMP = Some tmp_inode /\ is_Some (dirs w !! TMP) /\ forall d name, entry w d name <> Some TMP.

Definition own_dir (parent : string) (d : nat) (w : Unix) : Prop :=
  tmp_ok w /\ entry w TMP parent = Some d /\ exists di, inodes w !! d = Some di /\ i_kind di = KDir /\ i_uid di = v.

(** The directory has the mode that is expected, and is where its name leads to. *)
Definition guarded (mode : Z) (parent : string) (d : nat) (w : Unix) : Prop :=
  tmp_ok w /\ entry w TMP parent = Some d /\
  exists di, inodes w !! d = Some di /\ i_kind di = KDir /\ i_uid di = v /\ S_IMODE (i_mode di) = mode /\ closed di.

Lemma dirs_dom w d name i ino d' : is_Some (dirs w !! d') -> is_Some (dirs (add_entry d name i (new_inode i ino w)) !! d').
Proof.
  intros H. cbn. assert (H' : is_Some ((if decide (i_kind ino = KDir) then <[i := ∅]> (dirs w) else dirs w) !! d')).
  { case_decide; [|done]. destruct (decide (i = d')) as [->|]; [rewrite lookup_insert_eq; by eexists|by rewrite lookup_insert_ne]. }
  destruct (decide (d = d')) as [->|]; [|by rewrite lookup_alter_ne]. rewrite lookup_alter_eq. by apply fmap_is_Some.
Qed.

Lemma alter_dom (f : gmap string nat -> gmap string nat) d (m : gmap nat (gmap string nat)) d' :
  is_Some (m !! d') -> is_Some (alter f d m !! d').
Proof. intros H. destruct (decide (d = d')) as [->|]; [rewrite lookup_alter_eq; by apply fmap_is_Some|by rewrite lookup_alter_ne]. Qed.

Lemma tmp_create d name i ino w : inodes w !! i = None -> tmp_ok w -> tmp_ok (add_entry d name i (new_inode i ino w)).
Proof.
  intros Hi (Ht & Hd & Hn). split; [|split; [by apply dirs_dom|]].
  - cbn. rewrite lookup_insert_ne; [done|]. intros ->. congruence.
  - intros d' name'. rewrite entry_add. case_decide; [intros [= ->]; congruence|].
    unfold entry, new_inode. cbn [dirs]. case_decide; [|apply Hn].
    destruct (decide (i = d')) as [->|]; [rewrite lookup_insert_eq; by cbn; rewrite lookup_empty|rewrite lookup_insert_ne by done; apply Hn].
Qed.

Lemma attack_tmp w w' : attack v w w' -> tmp_ok w -> tmp_ok w'.
Proof.
  intros Ha Hw. assert (Hw' := Hw). destruct Hw' as (Hi & Hd & Hn).
  destruct Ha as [u d1 d1i n1 j jo Hu Hd1 Hn1 Hj Ho|u d1 d1i n1 j jo Hu Hd1 Hn1 Hj Ho
    |u d1 d1i n1 j jo Hu Hd1 Hn1 Hj Hm|u d1 d1i n1 d2 d2i n2 j jo Hu Hd1 Hn1 Hj Hm Hd2 Hn2|u j jo mode Hu Hj Ho|j jo c Hj Ho Ho'].
  - by apply tmp_create.
  - split; [done|]. split; [by apply alter_dom|]. intros d name. rewrite entry_add. case_decide; [|apply Hn].
    intros [= ->]. rewrite Hi in Hj. injection Hj as <-. done.
  - split; [done|]. split; [by apply alter_dom|]. intros d name. rewrite entry_del. case_decide; [done|apply Hn].
  - split; [done|]. split; [by do 2 apply alter_dom|]. intros d name. rewrite entry_add, entry_del.
    case_decide; [intros [= ->]; by apply Hn in Hn1|]. case_decide; [done|apply Hn].
  - split; [|done]. eapply attack_inode; [by eapply attack_chmod|exact Hi|by right].
  - split; [|done]. eapply attack_inode; [by eapply attack_content|exact Hi|by right].
Qed.

(** Owners do not change. *)
Lemma attack_uid w w' i ino : attack v w w' -> inodes w !! i = Some ino ->
  exists ino', inodes w' !! i = Some ino' /\ i_uid ino' = i_uid ino /\ i_kind ino' = i_kind ino.
Proof.
  intros Ha Hi. destruct Ha as [u d1 d1i n1 j jo Hu Hd1 Hn1 Hj Ho|u d1 d1i n1 j jo Hu Hd1 Hn1 Hj Ho
    |u d1 d1i n1 j jo Hu Hd1 Hn1 Hj Hm|u d1 d1i n1 d2 d2i n2 j jo Hu Hd1 Hn1 Hj Hm Hd2 Hn2|u j jo mode Hu Hj Ho|j jo c Hj Ho Ho'];
    cbn [inodes add_entry del_entry set_inode new_inode]; try by exists ino.
  - rewrite lookup_insert_ne by (intros ->; congruence). by exists ino.
  - destruct (decide (j = i)) as [->|]; [|rewrite lookup_insert_ne by done; by exists ino].
    rewrite lookup_insert_eq. rewrite Hi in Hj. injection Hj as <-. eexists. split; [done|]. done.
  - destruct (decide (j = i)) as [->|]; [|rewrite lookup_insert_ne by done; by exists ino].
    rewrite lookup_insert_eq. rewrite Hi in Hj. injection Hj as <-. eexists. split; [done|]. done.
Qed.

Lemma attacks_uid w w' i ino : rtc (attack v) w w' -> inodes w !! i = Some ino ->
  exists ino', inodes w' !! i = Some ino' /\ i_uid ino' = i_uid ino /\ i_kind ino' = i_kind ino.
Proof.
  intros Ha. revert ino. induction Ha as [w|w w1 w' Ha _ IH]; intros ino Hi; [by exists ino|].
  destruct (attack_uid _ _ _ _ Ha Hi) as (ino1 & H1 & Hu & Hk). destruct (IH _ H1) as (ino2 & H2 & Hu2 & Hk2).
  exists ino2. split_and!; [done|congruence|congruence].
Qed.

(** A property is stable when the others cannot end it. *)
Definition stable (I : Unix -> Prop) : Prop := forall w w', attack v w w' -> I w -> I w'.

Lemma stable_rtc I w w' : stable I -> rtc (attack v) w w' -> I w -> I w'.
Proof. intros HI Ha. induction Ha as [|w w1 w' Ha _ IH]; [done|]. intros Hw. by apply IH, (HI w). Qed.

Lemma tmp_stable : stable tmp_ok.
Proof. intros w w' Ha. by apply attack_tmp. Qed.

Lemma tmp_entry_kept w w' parent d di : attack v w w' -> tmp_ok w -> entry w TMP parent = Some d ->
  inodes w !! d = Some di -> i_uid di = v -> entry w' TMP parent = Some d.
Proof.
  intros Ha (Hi & _ & _) He Hd Hu. refine (attack_entry v _ _ _ _ _ _ _ Ha Hi _ _ He Hd _); [by right|by right|by left].
Qed.

Lemma own_dir_stable parent d : stable (own_dir parent d).
Proof.
  intros w w' Ha (Ht & He & di & Hd & Hk & Hu). split; [by eapply attack_tmp|]. split; [by eapply tmp_entry_kept|].
  exists di. split; [|done]. eapply attack_inode; [exact Ha|exact Hd|by left].
Qed.

Lemma guarded_stable mode parent d : stable (guarded mode parent d).
Proof.
  intros w w' Ha (Ht & He & di & Hd & Hk & Hu & Hm). split; [by eapply attack_tmp|]. split; [by eapply tmp_entry_kept|].
  exists di. split; [|done]. eapply attack_inode; [exact Ha|exact Hd|by left].
Qed.

(** What is in a guarded directory stays, and nothing is added. *)
Lemma guarded_entry mode parent d w w' name :
  rtc (attack v) w w' -> guarded mode parent d w -> entry w' d name = entry w d name.
Proof.
  intros Ha. induction Ha as [|w w1 w' Ha _ IH]; [done|]. intros Hg. rewrite IH by (by eapply guarded_stable).
  destruct Hg as (_ & _ & di & Hd & _ & Hu & _ & Hc). eapply attack_closed; [exact Ha|exact Hd|by left|done].
Qed.

(** A socket of the user in a guarded directory. *)
Definition listening (mode : Z) (parent : string) (d : nat) (name : string) (smode : Z) (i : nat) (w : Unix) : Prop :=
  guarded mode parent d w /\ entry w d name = Some i /\ exists c, inodes w !! i = Some (mkInode KSock v smode c).

Lemma listening_stable mode parent d name smode i : stable (listening mode parent d name smode i).
Proof.
  intros w w' Ha (Hg & He & c & Hi). split; [by eapply guarded_stable|]. split.
  - rewrite (guarded_entry _ _ _ _ _ _ (rtc_once _ _ Ha) Hg). done.
  - exists c. eapply attack_inode; [exact Ha|exact Hi|by left].
Qed.

(** ** Runs of the program *)

Variable umask : Z.
Variable around : Around.
Hypothesis others_attack : forall n w, rtc (attack v) w (others around n w).

(** [m] keeps [I], and what it returns is [Q]. *)
Definition keeps {A} (I : Unix -> Prop) (m : prog A) (Q : A -> Prop) : Prop :=
  forall s, I s.2 -> I (m s).2.2 /\ match (m s).1 with Ok a => Q a | Err _ => True end.

Lemma prog_keeps_bind {A B} I (m : prog A) (k : A -> prog B) Q Q' :
  keeps I m Q -> (forall a, Q a -> keeps I (k a) Q') -> keeps I (m ≫= k) Q'.
Proof.
  intros Hm Hk s Hs. destruct (Hm s Hs) as [Hs' Hq]. unfold mbind, st_mbind, st_bind.
  destruct (m s) as [[a|e] s']; cbn in *; [by apply Hk|done].
Qed.

Lemma keeps_ret {A} I (a : A) (Q : A -> Prop) : Q a -> keeps I (mret a) Q.
Proof. intros Ha s Hs. by split. Qed.
Lemma keeps_fail {A} I (e : IpcError) (Q : A -> Prop) : keeps I (st_fail e) Q.
Proof. intros s Hs. by split. Qed.
Lemma keeps_get I (Q : nat * Unix -> Prop) : (forall s, Q s) -> keeps I st_get Q.
Proof. intros HQ s Hs. split; [done|apply HQ]. Qed.

Lemma keeps_try {A} I (m : prog A) Q : keeps I m Q -> keeps I (st_try m) (fun r => match r with Ok a => Q a | Err _ => True end).
Proof. intros Hm s Hs. destruct (Hm s Hs) as [Hs' Hq]. unfold st_try. by destruct (m s) as [r s']. Qed.

Lemma keeps_weaken {A} I (m : prog A) (Q Q' : A -> Prop) : (forall a, Q a -> Q' a) -> keeps I m Q -> keeps I m Q'.
Proof. intros HQ Hm s Hs. destruct (Hm s Hs) as [? Hq]. split; [done|]. destruct (m s).1; [by apply HQ|done]. Qed.

Lemma keeps_if {A} I (b : bool) (m m' : prog A) Q : keeps I m Q -> keeps I m' Q -> keeps I (if b then m else m') Q.
Proof. by destruct b. Qed.

Lemma keeps_sys {A} I (f : Unix -> result Errno A * Unix) Q :
  stable I -> (forall w, I w -> I (f w).2 /\ match (f w).1 with Ok a => Q a | Err _ => True end) -> keeps I (sys around f) Q.
Proof.
  intros HI Hf [n w] Hw. cbn in Hw. unfold sys. assert (Hw' := stable_rtc _ _ _ HI (others_attack n w) Hw).
  destruct (failing around n); [done|]. destruct (Hf _ Hw') as [H1 H2].
  destruct (f (others around n w)) as [[a|e] w']; done.
Qed.

(** Calls that only look. *)
Lemma keeps_looks {A} I (f : Unix -> result Errno A * Unix) :
  stable I -> (forall w, (f w).2 = w) -> keeps I (sys around f) (fun _ => True).
Proof. intros HI Hf. apply keeps_sys; [done|]. intros w Hw. rewrite Hf. split; [done|]. by destruct (f w).1. Qed.

(** Run of one call. *)
Lemma sys_ok {A} (f : Unix -> result Errno A * Unix) n w a s' :
  sys around f (n, w) = (Ok a, s') -> exists w1 w2, rtc (attack v) w w1 /\ f w1 = (Ok a, w2) /\ s' = (S n, w2).
Proof.
  unfold sys. destruct (failing around n); [done|]. destruct (f (others around n w)) as [[b|e] w2] eqn:E; [|done].
  intros [= <- <-]. by exists (others around n w), w2.
Qed.

Lemma try_ok {A} (m : prog A) s r s' : st_try m s = (r, s') -> exists q, r = Ok q /\ m s = (q, s').
Proof. unfold st_try. destruct (m s) as [q s'']. intros [= <- <-]. by exists q. Qed.

(** ** Making the directory secure *)

Lemma open_dir_entry name w d w' : sys_open_dir v name w = (Ok d, w') ->
  w' = w /\ entry w TMP name = Some d /\ exists ino, inodes w !! d = Some ino /\ i_kind ino = KDir.
Proof.
  unfold sys_open_dir. destruct (entry w TMP name) as [i|] eqn:He; [|done].
  destruct (inodes w !! i) as [ino|] eqn:Hi; [|done]. destruct (i_kind ino) eqn:Hk; try done.
  destruct (may_read v ino); [|done]. intros [= <- <-]. split_and!; [done|done|by exists ino].
Qed.

Lemma open_ok parent n w d n' w' : open_ipc_parent_dir_fd v around parent (n, w) = (Ok d, (n', w')) ->
  rtc (attack v) w w' /\ entry w' TMP parent = Some d /\ exists ino, inodes w' !! d = Some ino /\ i_kind ino = KDir.
Proof.
  intros H. apply sys_ok in H as (w1 & w2 & Ha & Hf & [= -> ->]). by apply open_dir_entry in Hf as (-> & He & Hi).
Qed.

Lemma fresh_none w : inodes w !! fresh_inode w = None.
Proof.
  unfold fresh_inode. destruct (inodes w !! fresh (map_to_list (inodes w)).*1) as [ino|] eqn:E; [|done].
  exfalso. apply (infinite_is_fresh (map_to_list (inodes w)).*1). apply list_elem_of_fmap.
  eexists (_, ino). split; [|by apply elem_of_map_to_list]. done.
Qed.

(** What holds of /tmp, and of a directory that is the user's already, is kept. *)
Lemma keeps_open I parent : stable I -> keeps I (open_ipc_parent_dir_fd v around parent) (fun _ => True).
Proof. intros HI. apply keeps_looks; [done|]. intros w. unfold sys_open_dir. by repeat case_match. Qed.

Lemma keeps_open_or_make I parent postfix : stable I -> (forall mode w, I w -> I (sys_mkdir v umask parent mode w).2) ->
  keeps I (open_or_make v umask around parent postfix) (fun _ => True).
Proof.
  intros HI Hmk. unfold open_or_make.
  eapply prog_keeps_bind; [by apply keeps_try, keeps_open|]. intros [d|[[]| | | | | |]] _; try apply keeps_fail; [by apply keeps_ret|].
  eapply prog_keeps_bind; [apply keeps_try, (keeps_sys I _ (fun _ => True)); [done|]|].
  - intros w Hw. split; [by apply Hmk|]. by case_match.
  - intros [d|[[]| | | | | |]] _; try apply keeps_fail; by apply keeps_open.
Qed.

Lemma mkdir_tmp parent mode w : tmp_ok w -> tmp_ok (sys_mkdir v umask parent mode w).2.
Proof. intros Hw. unfold sys_mkdir. destruct (entry w TMP parent); [done|]. apply tmp_create; [apply fresh_none|done]. Qed.

Lemma mkdir_own parent d mode w : own_dir parent d w -> own_dir parent d (sys_mkdir v umask parent mode w).2.
Proof. intros Hw. unfold sys_mkdir. destruct Hw as (Ht & He & Hi). by rewrite He. Qed.

(** The directory that is returned stands where its name says. *)
Lemma open_or_make_ok parent postfix n w d n' w' :
  open_or_make v umask around parent postfix (n, w) = (Ok d, (n', w')) ->
  entry w' TMP parent = Some d /\ exists ino, inodes w' !! d = Some ino /\ i_kind ino = KDir.
Proof.
  unfold open_or_make. intros H. apply st_bind_ok in H as (r & [n1 w1] & Hr & H). apply try_ok in Hr as (q & [= <-] & Hq).
  destruct r as [fd|[[]| | | | | |]]; try done.
  - injection H as -> -> ->. by apply open_ok in Hq as (_ & He & Hi).
  - apply st_bind_ok in H as (r & [n2 w2] & _ & H). destruct r as [[]|[[]| | | | | |]]; try done;
      by apply open_ok in H as (_ & He & Hi).
Qed.

Lemma testbit_imode m k : 0 <= k < 12 -> Z.testbit (S_IMODE m) k = Z.testbit m k.
Proof.
  intros Hk. unfold S_IMODE. rewrite Z.land_spec. change 4095 with (Z.ones 12).
  rewrite Z.ones_spec_low by lia. apply andb_true_r.
Qed.

Lemma expected_closed di postfix : S_IMODE (i_mode di) = expected_ipc_parent_mode postfix -> closed di.
Proof.
  intros H. unfold closed. rewrite <- !(testbit_imode (i_mode di)) by lia. rewrite H.
  unfold expected_ipc_parent_mode. by destruct (is_service_ipc_postfix postfix).
Qed.

(** The start is safe when nothing has to be taken over: the user is not root or the channel
    is not the service's, or the directory is the user's already. *)
Definition safe_start (parent postfix : string) (w : Unix) : Prop :=
  v <> 0 \/ is_service_ipc_postfix postfix = false \/ exists d, own_dir parent d w.

(** A directory that is found to be the user's was so when it was opened, and was not moved. *)
Lemma found_own parent d w w' di :
  rtc (attack v) w w' -> tmp_ok w -> entry w TMP parent = Some d ->
  (exists ino, inodes w !! d = Some ino /\ i_kind ino = KDir) -> inodes w' !! d = Some di -> i_uid di = v -> own_dir parent d w'.
Proof.
  intros Ha Ht He (ino & Hi & Hk) Hdi Hu. destruct (attacks_uid _ _ _ _ Ha Hi) as (di' & Hd' & Hu' & _).
  rewrite Hdi in Hd'. injection Hd' as <-.
  eapply stable_rtc; [apply own_dir_stable|exact Ha|]. split_and!; [done|done|]. exists ino. split_and!; [done|done|congruence].
Qed.

Lemma no_adoption fd postfix st s :
  i_uid st = v \/ v <> 0 \/ is_service_ipc_postfix postfix = false -> adopt_parent v around fd postfix st s = (Ok (st, false), s).
Proof.
  intros H. unfold adopt_parent. destruct (Z.eqb_spec (i_uid st) v) as [|Hu]; [done|]. cbn [negb andb].
  destruct (Z.eqb_spec v 0) as [|Hv]; [|done]. cbn [andb]. destruct H as [?|[?| ->]]; done.
Qed.

Lemma ensure_guards parent postfix n w b n' w' :
  tmp_ok w -> safe_start parent postfix w ->
  ensure_secure_ipc_parent_dir v umask around parent postfix (n, w) = (Ok b, (n', w')) ->
  exists d, guarded (expected_ipc_parent_mode postfix) parent d w'.
Proof.
  intros Ht Hsafe H. unfold ensure_secure_ipc_parent_dir in H.
  apply st_bind_ok in H as (d & [n1 w1] & Ho & H).
  assert (Ht1 : tmp_ok w1).
  { destruct (keeps_open_or_make tmp_ok parent postfix tmp_stable (mkdir_tmp parent) (n, w) Ht) as [Hk _]. by rewrite Ho in Hk. }
  assert (Hs1 : safe_start parent postfix w1).
  { destruct Hsafe as [?|[?|[d0 Hd0]]]; [by left|by right; left|right; right; exists d0].
    destruct (keeps_open_or_make (own_dir parent d0) parent postfix (own_dir_stable parent d0) (mkdir_own parent d0) (n, w) Hd0) as [Hk _].
    by rewrite Ho in Hk. }
  apply open_or_make_ok in Ho as [He Hi1].
  apply st_bind_ok in H as (st & [n2 w2] & Hst & H). apply sys_ok in Hst as (w1' & w2' & Ha & Hf & [= -> ->]).
  unfold sys_fstat in Hf. destruct (inodes w1' !! d) as [di|] eqn:Hdi; [|done]. injection Hf as <- <-.
  destruct (bool_decide (i_kind di = KDir)) eqn:Hk; [apply bool_decide_eq_true in Hk|done]. cbn [negb] in H.
  apply st_bind_ok in H as ([st' ad] & [n3 w3] & Had & H).
  assert (Hown : i_uid di = v \/ v <> 0 \/ is_service_ipc_postfix postfix = false).
  { destruct Hs1 as [?|[?|[d0 Hd0]]]; [by right; left|by right; right|left].
    assert (Hd0' := Hd0). destruct Hd0' as (_ & He0 & _). rewrite He in He0. injection He0 as <-.
    eapply stable_rtc in Hd0 as (_ & _ & dj & Hdj & _ & Hu); [|apply own_dir_stable|exact Ha]. rewrite Hdi in Hdj. by injection Hdj as <-. }
  rewrite no_adoption in Had by done. injection Had as <- <- <- <-.
  destruct (Z.eqb_spec (i_uid di) v) as [Hu|]; [|done]. cbn [negb] in H.
  assert (Hod : own_dir parent d w1') by (by eapply found_own).
  apply st_bind_ok in H as ([] & [n4 w4] & Hch & H). injection H as _ _ <-. exists d.
  destruct (Z.eqb_spec (S_IMODE (i_mode di)) (expected_ipc_parent_mode postfix)) as [Hm|Hm]; cbn [negb] in Hch.
  - injection Hch as _ <-. destruct Hod as (Ht' & He' & dj & Hdj & Hrest). split_and!; [done|done|]. exists di.
    split_and!; [done|done|done|done|by eapply expected_closed].
  - apply sys_ok in Hch as (w5 & w6 & Ha5 & Hf5 & [= _ ->]). eapply stable_rtc in Hod as (Ht5 & He5 & dj & Hdj & Hkj & Huj); [|apply own_dir_stable|exact Ha5].
    unfold sys_fchmod in Hf5. rewrite Hdj, Huj, Z.eqb_refl, orb_true_r in Hf5. injection Hf5 as <-.
    assert (HdT : d <> TMP) by (intros ->; destruct Ht5 as (_ & _ & Hn); by apply Hn in He5).
    split_and!.
    + destruct Ht5 as (H1 & H2 & H3). split_and!; [|done|done]. cbn. by rewrite lookup_insert_ne.
    + done.
    + exists (with_mode (expected_ipc_parent_mode postfix) dj). cbn. rewrite lookup_insert_eq.
      assert (Hx : S_IMODE (expected_ipc_parent_mode postfix) = expected_ipc_parent_mode postfix)
        by (unfold expected_ipc_parent_mode; by destruct (is_service_ipc_postfix postfix)).
      split_and!; [done|done|done|exact Hx|]. by apply (expected_closed _ postfix).
Qed.

(** ** In a secure directory *)

Lemma guarded_not_tmp mode parent d w : guarded mode parent d w -> d <> TMP.
Proof. intros ((_ & _ & Hn) & He & _) ->. by apply Hn in He. Qed.

Lemma guarded_resolve mode parent d w : guarded mode parent d w -> resolve_dir w parent = Some d.
Proof. intros (_ & He & di & Hd & Hk & _). unfold resolve_dir. rewrite He. cbn. rewrite Hd. cbn. by rewrite Hk. Qed.

Lemma keeps_open_fd I parent d : stable I -> (forall w, I w -> entry w TMP parent = Some d) ->
  keeps I (open_ipc_parent_dir_fd v around parent) (fun fd => fd = d).
Proof.
  intros HI He. apply keeps_sys; [done|]. intros w Hw. unfold sys_open_dir. rewrite (He w Hw).
  destruct (inodes w !! d) as [ino|]; [|done]. destruct (i_kind ino); try done. by destruct (may_read v ino).
Qed.

Lemma unlinkat_world fd name b w : (sys_unlinkat v fd name b w).2 = w \/ (sys_unlinkat v fd name b w).2 = del_entry fd name w.
Proof. unfold sys_unlinkat. repeat case_match; cbn; auto. Qed.

Lemma fstatat_world fd name w : (sys_fstatat fd name w).2 = w.
Proof. unfold sys_fstatat. by case_match. Qed.

Lemma keeps_remove_entry I fd name : stable I -> (forall w, I w -> I (del_entry fd name w)) ->
  keeps I (remove_parent_entry_via_fd v around fd name) (fun _ => True).
Proof.
  intros HI Hdel. unfold remove_parent_entry_via_fd. apply keeps_if; [apply keeps_fail|].
  eapply prog_keeps_bind; [apply keeps_try, keeps_looks; [done|apply fstatat_world]|].
  intros [st|[[]| | | | | |]] _; try apply keeps_fail; [|by apply keeps_ret].
  eapply prog_keeps_bind; [apply keeps_try, (keeps_sys I _ (fun _ => True)); [done|]|].
  - intros w Hw. split; [|by case_match].
    destruct (unlinkat_world fd name (bool_decide (i_kind st = KDir)) w) as [-> | ->]; [done|by apply Hdel].
  - intros [[]|[[]| | | | | |]] _; try apply keeps_fail; by apply keeps_ret.
Qed.

Lemma guarded_del mode parent d name w : guarded mode parent d w -> guarded mode parent d (del_entry d name w).
Proof.
  intros Hg. assert (Hne := guarded_not_tmp _ _ _ _ Hg). destruct Hg as ((H1 & H2 & H3) & He & Hd).
  split; [split; [exact H1|split]|split; [|exact Hd]].
  - by apply alter_dom.
  - intros d' n'. rewrite entry_del. case_decide; [done|apply H3].
  - rewrite entry_del. by rewrite decide_False by (intros [-> _]; done).
Qed.

Lemma keeps_scrub mode parent d postfix :
  keeps (guarded mode parent d) (scrub_secure_ipc_parent_dir v around parent postfix) (fun _ => True).
Proof.
  assert (HI := guarded_stable mode parent d). unfold scrub_secure_ipc_parent_dir, scrub_preexisting_ipc_parent_entries.
  eapply prog_keeps_bind; [apply keeps_open_fd; [done|by intros w (_ & He & _)]|]. intros fd ->.
  eapply prog_keeps_bind; [|intros _ _]; apply keeps_remove_entry; try done; intros w; apply guarded_del.
Qed.

Lemma keeps_read_pid I parent name : stable I -> keeps I (read_pid_file_secure v around parent name) (fun _ => True).
Proof.
  intros HI. unfold read_pid_file_secure. eapply prog_keeps_bind; [apply keeps_try|intros r _; by apply keeps_ret].
  eapply prog_keeps_bind; [by apply keeps_looks|]. intros fd _.
  eapply prog_keeps_bind; [by apply keeps_looks|]. intros st _. apply keeps_if; [apply keeps_fail|].
  eapply prog_keeps_bind; [by apply keeps_looks|]. intros [|x c] _; [apply keeps_fail|]. by apply (keeps_ret I _ (fun _ => True)).
Qed.

Lemma keeps_check_pid mode parent d postfix pid_alive answers :
  keeps (guarded mode parent d) (check_pid v around pid_alive answers parent postfix) (fun _ => True).
Proof.
  assert (HI := guarded_stable mode parent d). unfold check_pid.
  eapply prog_keeps_bind; [by apply keeps_read_pid|]. intros pid _.
  eapply prog_keeps_bind; [by apply (keeps_get _ (fun _ => True))|]. intros [n w] _.
  apply keeps_if; [by apply keeps_ret|]. apply keeps_if; [by apply keeps_ret|].
  eapply prog_keeps_bind; [|intros _ _; by apply keeps_ret]. eapply keeps_weaken; [|apply (keeps_try _ _ (fun _ => True))]; [done|].
  unfold remove_ipc_socket_via_secure_parent_fd.
  eapply prog_keeps_bind; [apply keeps_try, keeps_open_fd; [done|by intros w' (_ & He & _)]|].
  intros [fd|[[]| | | | | |]] Hfd; try apply keeps_fail; [|by apply keeps_ret]. subst fd.
  apply keeps_remove_entry; [done|]. intros w'. apply guarded_del.
Qed.

(** *** The file with the number of the process does not touch the socket *)

Section PidFile.
Variables (mode smode : Z) (parent name : string) (d i : nat).
Abbreviation I := (listening mode parent d name smode i).

Lemma listening_set_inode j ino w : j <> d -> j <> i -> j <> TMP -> I w -> I (set_inode j ino w).
Proof.
  intros Hd Hi Ht (((H1 & H2 & H3) & He & di & Hdi & Hrest) & Hn & c & Hino).
  split; [split; [split; [|done]|split; [done|]]|split; [done|]].
  - cbn. by rewrite lookup_insert_ne.
  - exists di. cbn. by rewrite lookup_insert_ne.
  - exists c. cbn. by rewrite lookup_insert_ne.
Qed.

Definition other_file (j : nat) : Prop := j <> d /\ j <> i /\ j <> TMP.

Lemma regular_is_other w j jo : I w -> inodes w !! j = Some jo -> i_kind jo = KReg -> other_file j.
Proof.
  intros (((H1 & _) & _ & di & Hdi & Hkd & _) & _ & c & Hino) Hj Hk.
  split_and!; intros ->; [rewrite Hj in Hdi|rewrite Hj in Hino|rewrite Hj in H1]; simplify_eq; by rewrite Hk in *.
Qed.

Lemma new_is_other w j : I w -> inodes w !! j = None -> other_file j.
Proof. intros (((H1 & _) & _ & di & Hdi & _) & _ & c & Hino) Hj. split_and!; intros ->; congruence. Qed.

Lemma keeps_open_create other : other <> name ->
  keeps I (sys around (sys_open_create v umask parent other 384)) other_file.
Proof.
  intros Hne. apply keeps_sys; [apply listening_stable|]. intros w Hw. assert (Hg := proj1 Hw).
  unfold sys_open_create. rewrite (guarded_resolve _ _ _ _ Hg).
  destruct (entry w d other) as [j|] eqn:He.
  - destruct (inodes w !! j) as [jo|] eqn:Hj; [|done]. destruct (i_kind jo) eqn:Hk; try done.
    split; [done|]. destruct (may_write v jo); [|done]. cbn. by eapply regular_is_other.
  - destruct (inodes w !! d) as [di|] eqn:Hd; [|done]. destruct (may_write v di); [|done]. cbn [fst snd].
    assert (Hf := fresh_none w). assert (Ho := new_is_other w _ Hw Hf). split; [|done]. destruct Ho as (Ho1 & Ho2 & Ho3).
    assert (Hnt := guarded_not_tmp _ _ _ _ Hg). destruct Hw as ((Ht & Hp & dj & Hdj & Hrest) & Hn & c & Hino).
    assert (Hent : forall d' n', entry (add_entry d other (fresh_inode w) (new_inode (fresh_inode w) (mkInode KReg v (Z.ldiff 384 umask) []) w)) d' n'
              = if decide (d = d' /\ other = n' /\ is_Some (dirs w !! d)) then Some (fresh_inode w) else entry w d' n').
    { intros d' n'. by rewrite entry_add. }
    split; [split; [|split]|split].
    + by apply tmp_create.
    + rewrite Hent. by rewrite decide_False by (intros (-> & _); done).
    + exists dj. cbn. by rewrite lookup_insert_ne.
    + rewrite Hent. by rewrite decide_False by (intros (_ & -> & _); done).
    + exists c. cbn. by rewrite lookup_insert_ne.
Qed.

Lemma keeps_on_other {A} (f : Unix -> result Errno A * Unix) j : other_file j ->
  (forall w, (f w).2 = w \/ exists jo, (f w).2 = set_inode j jo w) -> keeps I (sys around f) (fun _ => True).
Proof.
  intros (H1 & H2 & H3) Hf. apply keeps_sys; [apply listening_stable|]. intros w Hw. split; [|by case_match].
  destruct (Hf w) as [-> | [jo ->]]; [done|]. by apply listening_set_inode.
Qed.

Lemma keeps_write_all rounds fd : forall buf, other_file fd -> keeps I (write_all around rounds fd buf) (fun _ => True).
Proof.
  induction rounds as [|rounds IH]; intros [|b buf] Hfd; cbn [write_all]; try by apply keeps_ret.
  eapply prog_keeps_bind; [by apply (keeps_get _ (fun _ => True))|]. intros [n w] _.
  eapply prog_keeps_bind.
  - apply (keeps_on_other _ fd Hfd). intros w'. unfold sys_write. destruct (inodes w' !! fd); [right; by eexists|by left].
  - intros rc _. apply keeps_if; [apply keeps_fail|by apply IH].
Qed.

Lemma keeps_pid_file other pid : other <> name -> keeps I (write_pid_file v umask around parent other pid) (fun _ => True).
Proof.
  intros Hne. unfold write_pid_file. eapply prog_keeps_bind; [by apply keeps_open_create|]. intros fd Hfd.
  eapply prog_keeps_bind; [apply keeps_looks; [apply listening_stable|done]|]. intros st _.
  apply keeps_if; [apply keeps_fail|]. apply keeps_if; [apply keeps_fail|].
  eapply prog_keeps_bind.
  { apply (keeps_on_other _ fd Hfd). intros w'. unfold sys_fchmod. destruct (inodes w' !! fd); [|by left].
    destruct (_ || _); [right; by eexists|by left]. }
  intros _ _. eapply prog_keeps_bind.
  { apply (keeps_on_other _ fd Hfd). intros w'. unfold sys_ftruncate. destruct (inodes w' !! fd); [right; by eexists|by left]. }
  intros _ _. by apply keeps_write_all.
Qed.
End PidFile.

(** ** The whole listener *)

(** The crate that listens makes a socket of the name in the directory, which must be free. *)
Definition incoming_binds (incoming : string -> string -> Unix -> result Errno unit * Unix) : Prop :=
  forall parent name w w', incoming parent name w = (Ok tt, w') ->
  exists d i m, resolve_dir w parent = Some d /\ is_Some (dirs w !! d) /\ entry w d name = None /\ inodes w !! i = None /\
    w' = add_entry d name i (new_inode i (mkInode KSock v m []) w).

Lemma keeps_run {A} I (m : prog A) Q n w r n' w' : keeps I m Q -> I w -> m (n, w) = (r, (n', w')) -> I w'.
Proof. intros Hm Hw H. destruct (Hm (n, w) Hw) as [Hi _]. by rewrite H in Hi. Qed.

Lemma bound_listening mode parent d name i m w :
  guarded mode parent d w -> is_Some (dirs w !! d) -> inodes w !! i = None ->
  listening mode parent d name m i (add_entry d name i (new_inode i (mkInode KSock v m []) w)).
Proof.
  intros Hg Hd Hi. assert (Hnt := guarded_not_tmp _ _ _ _ Hg). destruct Hg as (Ht & Hp & dj & Hdj & Hrest).
  split; [split; [by apply tmp_create|split]|split].
  - rewrite entry_add. by rewrite decide_False by (intros (-> & _); done).
  - exists dj. cbn. rewrite lookup_insert_ne; [done|]. intros ->. congruence.
  - rewrite entry_add. by rewrite decide_True by done.
  - exists []. cbn. by rewrite lookup_insert_eq.
Qed.

Lemma permitted_listening mode parent d name m m' i w :
  listening mode parent d name m i w ->
  exists w', sys_set_permissions v parent name m' w = (Ok tt, w') /\ listening mode parent d name m' i w'.
Proof.
  intros (Hg & He & c & Hi). assert (Hnt := guarded_not_tmp _ _ _ _ Hg).
  unfold sys_set_permissions. rewrite (guarded_resolve _ _ _ _ Hg). cbn. rewrite He, Hi. cbn.
  unfold sys_fchmod. rewrite Hi. cbn. rewrite Z.eqb_refl, orb_true_r. eexists. split; [done|].
  destruct Hg as ((H1 & H2 & H3) & Hp & dj & Hdj & Hkd & Hrest).
  assert (i <> d) by (intros ->; rewrite Hi in Hdj; by injection Hdj as <-).
  assert (i <> TMP) by (intros ->; rewrite Hi in H1; done).
  split; [split; [split; [|done]|split; [done|]]|split; [done|]].
  - cbn. by rewrite lookup_insert_ne.
  - exists dj. cbn. by rewrite lookup_insert_ne.
  - exists c. cbn. by rewrite lookup_insert_eq.
Qed.

Lemma longer_string (s : string) : (s ++ ".pid")%string <> s.
Proof. induction s as [|c s IH]; [done|]. cbn. intros [= H]. by apply IH. Qed.

Lemma pid_name_other postfix : ("ipc" ++ postfix ++ ".pid")%string <> ("ipc" ++ postfix)%string.
Proof. cbn. intros [= H]. by apply (longer_string postfix). Qed.


(** *** What scrubbing leaves *)

Lemma removed_is_gone mode parent d name n w n' w' :
  guarded mode parent d w -> remove_parent_entry_via_fd v around d name (n, w) = (Ok tt, (n', w')) ->
  entry w' d name = None /\ forall other, other <> name -> entry w' d other = entry w d other.
Proof.
  intros Hg H. unfold remove_parent_entry_via_fd in H. destruct (_ || _); [done|].
  apply st_bind_ok in H as (r & [n1 w1] & Hr & H). apply try_ok in Hr as (q & [= <-] & Hr).
  assert (Hw1 : w1 = others around n w /\ (r = Err (Os ENOENT) -> entry w1 d name = None)).
  { unfold sys in Hr. destruct (failing around n); [by injection Hr as <- _ <-|].
    assert (Hw := fstatat_world d name (others around n w)). destruct (sys_fstatat d name (others around n w)) as [x y] eqn:E. cbn in Hw. subst y.
    injection Hr as Hx _ <-. split; [done|]. intros ->. destruct x as [|[]]; try done. unfold sys_fstatat in E.
    destruct (entry _ d name); [|done]. unfold sys_fstat in E. by destruct (inodes _ !! _). }
  destruct Hw1 as [-> Hgone]. assert (Hent := fun nm => guarded_entry _ _ _ _ _ nm (others_attack n w) Hg).
  assert (Hg1 := stable_rtc _ _ _ (guarded_stable _ _ _) (others_attack n w) Hg).
  destruct r as [st|[[]| | | | | |]]; try done.
  2: { injection H as _ <-. split; [by apply Hgone|]. intros other _. by rewrite <- Hent. }
  apply st_bind_ok in H as (r & [n2 w2] & Hr2 & H). apply try_ok in Hr2 as (q & [= <-] & Hr2).
  unfold sys in Hr2. set (w3 := others around n1 (others around n w)) in *.
  assert (Ha3 : rtc (attack v) (others around n w) w3) by apply others_attack.
  assert (Hent3 := fun nm => guarded_entry _ _ _ _ _ nm Ha3 Hg1).
  destruct (failing around n1); [by injection Hr2 as <- _ _|].
  destruct (sys_unlinkat v d name (bool_decide (i_kind st = KDir)) w3) as [x y] eqn:E. injection Hr2 as <- _ <-.
  assert (Hy : y = w3 \/ y = del_entry d name w3) by (destruct (unlinkat_world d name (bool_decide (i_kind st = KDir)) w3) as [Hy|Hy]; rewrite E in Hy; auto).
  assert (Hoth : forall other, other <> name -> entry y d other = entry w d other).
  { intros other Ho. rewrite <- Hent, <- Hent3. destruct Hy as [-> | ->]; [done|]. rewrite entry_del. by rewrite decide_False by (intros [_ ?]; done). }
  assert (Hx : (x = Ok tt \/ x = Err ENOENT) /\ y = w').
  { destruct x as [[]|[]]; try done; injection H as _ <-; auto. }
  destruct Hx as [Hx <-]. split; [|exact Hoth].
  unfold sys_unlinkat in E. destruct (entry w3 d name) as [j|] eqn:Ej; [|by injection E as _ <-].
  assert (Hd : is_Some (inodes w3 !! d)) by (eapply (stable_rtc _ _ _ (guarded_stable _ _ _) Ha3) in Hg1 as (_ & _ & di & -> & _); by eexists).
  destruct Hd as [di Hd]. rewrite Hd in E.
  assert (Hdel : y = del_entry d name w3 -> entry y d name = None) by (intros ->; rewrite entry_del; by rewrite decide_True by done).
  clear H Hr. destruct Hx as [-> | ->]; repeat case_match; injection E as Ey; try done; by apply Hdel.
Qed.
End Stable.

(** ** A listener that starts *)

(** The service of root, when its directory is not there yet; another user makes files. *)
Definition ex_tmp : Unix := mkUnix {[ TMP := tmp_inode ]} {[ TMP := ∅ ]}.
Definition ex_user : Z := 1000.
Definition ex_bind (parent name : string) (w : Unix) : result Errno unit * Unix :=
  match resolve_dir w parent with
  | Some d => match dirs w !! d, entry w d name with
              | Some _, None => (Ok tt, add_entry d name (fresh_inode w) (new_inode (fresh_inode w) (mkInode KSock 1000 493 []) w))
              | _, _ => (Err EEXIST, w)
              end
  | None => (Err ENOENT, w)
  end.

(** Before the third call another user makes a file in /tmp. *)
Definition ex_file (w : Unix) : Unix := add_entry TMP "x" 77 (new_inode 77 (mkInode KReg 1001 438 []) w).
Definition ex_around : Around := mkAround (fun n w => match n, inodes w !! 77%nat, entry w TMP "x" with
                                                      | 2%nat, None, None => if bool_decide (inodes w !! TMP = Some tmp_inode) then ex_file w else w
                                                      | _, _, _ => w end) (fun _ => false) (fun _ => 1%nat).

Lemma ex_around_attacks n w : rtc (attack ex_user) w (others ex_around n w).
Proof.
  cbn. destruct n as [|[|[|n]]]; try done. destruct (inodes w !! 77%nat) eqn:Hi; [done|].
  destruct (entry w TMP "x") eqn:He; [done|]. case_bool_decide as Ht; [|done]. apply rtc_once.
  apply (attack_create _ _ 1001 TMP tmp_inode); [done|by split_and!|done|done|done].
Qed.

Lemma ex_binds : incoming_binds ex_user ex_bind.
Proof.
  intros parent name w w'. unfold ex_bind. destruct (resolve_dir w parent) as [d|]; [|done].
  destruct (dirs w !! d) as [es|] eqn:Hd; [|done]. destruct (entry w d name) eqn:He; [done|]. intros [= <-].
  exists d, (fresh_inode w), 493. split_and!; [done|by eexists|done|apply fresh_none|done].
Qed.

Lemma ex_tmp_ok : tmp_ok ex_tmp.
Proof.
  split; [done|]. split; [by eexists|]. intros d name. unfold entry, ex_tmp. cbn [dirs].
  destruct (decide (d = TMP)) as [->|]; [by rewrite lookup_singleton_eq|by rewrite lookup_singleton_ne].
Qed.

Definition ex_listener : result IpcError unit * (nat * Unix) :=
  new_listener ex_user 18 ex_around (fun _ => false) (fun _ => false) ex_bind "RustDesk" "" [x31; x32] (0%nat, ex_tmp).


(** ** A directory that is taken over *)

(** Root starts the service while another user has the directory.  Before root takes it over
    the user renames it and puts another in its place: root makes the renamed one secure, and
    the socket is made in the other, that the user can still change. *)
Definition ex_theirs : Unix :=
  add_entry TMP "RustDesk-service" 5 (new_inode 5 (mkInode KDir 1001 511 []) ex_tmp).
Definition ex_swap (w : Unix) : Unix :=
  add_entry TMP "RustDesk-service" 6 (new_inode 6 (mkInode KDir 1001 511 []) (add_entry TMP "old" 5 (del_entry TMP "RustDesk-service" w))).
Definition ex_swapping : Around := mkAround (fun n w => if (n =? 2)%nat then ex_swap w else w) (fun _ => false) (fun _ => 10%nat).

Definition ex_root_bind (parent name : string) (w : Unix) : result Errno unit * Unix :=
  match resolve_dir w parent with
  | Some d => match dirs w !! d, entry w d name with
              | Some _, None => (Ok tt, add_entry d name (fresh_inode w) (new_inode (fresh_inode w) (mkInode KSock 0 493 []) w))
              | _, _ => (Err EEXIST, w)
              end
  | None => (Err ENOENT, w)
  end.

Definition ex_service : result IpcError unit * (nat * Unix) :=
  new_listener 0 18 ex_swapping (fun _ => false) (fun _ => false) ex_root_bind "RustDesk" "_service" [x31] (0%nat, ex_theirs).

Lemma ex_swap_attacks : rtc (attack 0) ex_theirs (ex_swap ex_theirs).
Proof.
  assert (Hu : hostile 0 1001) by done.
  eapply rtc_l.
  { eapply (attack_move _ _ 1001 TMP tmp_inode "RustDesk-service" TMP tmp_inode "old" 5 (mkInode KDir 1001 511 []));
      [exact Hu|by split_and!|by vm_compute|by vm_compute|by vm_compute|by split_and!|by vm_compute]. }
  eapply rtc_l.
  { eapply (attack_create _ _ 1001 TMP tmp_inode "RustDesk-service" 6 (mkInode KDir 1001 511 []));
      [exact Hu|by split_and!|by vm_compute|by vm_compute|done]. }
  apply rtc_refl.
Qed.

Theorem taken_over_directory_is_exchanged :
  fst ex_service = Ok tt /\
  let w := snd (snd ex_service) in
  entry w TMP "RustDesk-service" = Some 6%nat /\ inodes w !! 6%nat = Some (mkInode KDir 1001 511 []) /\
  is_Some (entry w 6 "ipc_service") /\ i_uid <$> inodes w !! 5%nat = Some 0.
Proof. vm_compute. split_and!; try done. by eexists. Qed.
