(* ===== verification/IpcAuth.v ===== *)
(** * Who may use a channel (src/ipc/auth.rs, and the choice of channels in src/ipc.rs)

    On Linux the channels of the root service are open to every user's socket; who connects
    must be root or the user at the screen, and run the same program.  Here are that check,
    the log of what it refuses, the token of the portable service and the choice of the user
    whose channel root uses. *)

From stdpp Require Import sorting.
From S2P Require Import Prelude IpcFs.

(** ** The check *)

Definition is_allowed_service_peer_uid (peer_uid : Z) (active_uid : option Z) : bool :=
  (peer_uid =? 0) || match active_uid with Some uid => uid =? peer_uid | None => false end.

(** What the system tells of the two ends: the user and the process of the peer ([pid]: only
    when it is positive), the user at the screen, and the programs; a path that cannot be
    resolved is missing. *)
Record Peer : Type := mkPeer {
  peer_uid : option Z; peer_pid : option Z; active_uid : option Z;
  exe_of : Z -> option string; current_exe : option string }.

(** [peer_pid_from_fd]. *)
Definition peer_pid_from_fd (p : Peer) : option Z :=
  match peer_pid p with Some pid => if 0 <? pid then Some pid else None | None => None end.

Definition service_authorization_status (p : Peer) : bool * option Z * option Z :=
  (match peer_uid p with Some uid => is_allowed_service_peer_uid uid (active_uid p) | None => false end, peer_uid p, active_uid p).

Definition executable_paths_match (left right : string) : bool := String.eqb left right.

Inductive AuthError : Type := NoPid | NoPeerExe | NoCurrentExe | Mismatch.

Definition ensure_peer_executable_matches_current_by_pid (p : Peer) (pid : Z) : result AuthError unit :=
  match exe_of p pid with
  | None => Err NoPeerExe
  | Some peer =>
      match current_exe p with
      | None => Err NoCurrentExe
      | Some current => if executable_paths_match peer current then Ok tt else Err Mismatch
      end
  end.

Definition ensure_peer_executable_matches_current_by_pid_opt (p : Peer) (pid : option Z) : result AuthError unit :=
  match pid with Some pid => ensure_peer_executable_matches_current_by_pid p pid | None => Err NoPid end.

Definition authorize_service_scoped_ipc_connection (p : Peer) : bool :=
  let '(authorized, _, _) := service_authorization_status p in
  authorized && is_ok (ensure_peer_executable_matches_current_by_pid_opt p (peer_pid_from_fd p)).

(** Who is let in is root or the user at the screen, with a process of the same program. *)
Theorem authorized_peers p :
  authorize_service_scoped_ipc_connection p = true <->
  (exists uid, peer_uid p = Some uid /\ (uid = 0 \/ active_uid p = Some uid)) /\
  exists pid exe, peer_pid p = Some pid /\ 0 < pid /\ exe_of p pid = Some exe /\ current_exe p = Some exe.
Proof.
  unfold authorize_service_scoped_ipc_connection, service_authorization_status, is_allowed_service_peer_uid, peer_pid_from_fd,
    ensure_peer_executable_matches_current_by_pid_opt, ensure_peer_executable_matches_current_by_pid, executable_paths_match.
  assert (Hand : forall (a b : bool) (P Q : Prop), (a = true <-> P) -> (b = true <-> Q) -> (a && b = true <-> P /\ Q))
    by (intros [] [] P Q; cbn; intuition congruence).
  apply Hand.
  - destruct (peer_uid p) as [uid|]; [|split; [done|by intros (? & ? & _)]]. rewrite orb_true_iff, Z.eqb_eq. split.
    + intros [->|H]; [by exists 0; auto|]. destruct (active_uid p) as [a|]; [|done]. apply Z.eqb_eq in H as ->. exists uid; auto.
    + intros (u & [= <-] & [H|H]); [by left|right]. rewrite H. apply Z.eqb_refl.
  - destruct (peer_pid p) as [pid|]; [|split; [done|by intros (? & ? & ? & _)]].
    destruct (Z.ltb_spec 0 pid) as [Hp|Hp]; [|split; [done|by intros (? & ? & [= <-] & ? & _); lia]].
    split.
    + destruct (exe_of p pid) as [e|] eqn:E; [|done]. destruct (current_exe p) as [c|] eqn:Ec; [|done].
      destruct (String.eqb_spec e c) as [->|]; [|done]. intros _. exists pid, c. by rewrite E.
    + intros (q & e & [= <-] & _ & -> & ->). by rewrite String.eqb_refl.
Qed.

(** ** The log of refused connections: one entry in five seconds *)

Definition UNAUTHORIZED_IPC_LOG_INTERVAL : Z := 5 * 10 ^ 9.

Record UnauthorizedIpcLogThrottle : Type := mkThrottle { last_log_at : option Z; suppressed : Z }.
Definition new_throttle : UnauthorizedIpcLogThrottle := mkThrottle None 0.

(** What is returned is logged: how many were not since the last entry. *)
Definition on_reject (now : Z) (t : UnauthorizedIpcLogThrottle) : option Z * UnauthorizedIpcLogThrottle :=
  match last_log_at t with
  | Some last =>
      if Z.max 0 (now - last) <? UNAUTHORIZED_IPC_LOG_INTERVAL then (None, mkThrottle (last_log_at t) (suppressed t + 1))
      else (Some (suppressed t), mkThrottle (Some now) 0)
  | None => (Some (suppressed t), mkThrottle (Some now) 0)
  end.

(** The entries that a run of refusals leaves, with their times. *)
Fixpoint rejects (times : list Z) (t : UnauthorizedIpcLogThrottle) : list (Z * Z) * UnauthorizedIpcLogThrottle :=
  match times with
  | [] => ([], t)
  | now :: times =>
      let '(o, t) := on_reject now t in
      let '(l, t) := rejects times t in
      (match o with Some n => (now, n) :: l | None => l end, t)
  end.

Fixpoint apart (d : Z) (l : list Z) : Prop :=
  match l with
  | a :: (b :: _) as t => a + d <= b /\ apart d t
  | _ => True
  end.

Lemma rejects_after times : forall t last,
  last_log_at t = Some last -> StronglySorted Z.le (last :: times) ->
  apart UNAUTHORIZED_IPC_LOG_INTERVAL (last :: (rejects times t).1.*1).
Proof.
  induction times as [|now times IH]; intros t last Ht Hs; [done|]. cbn [rejects]. unfold on_reject. rewrite Ht.
  apply StronglySorted_inv in Hs as [Hs Hl]. apply Forall_cons in Hl as [Hl1 Hl2].
  destruct (Z.ltb_spec (Z.max 0 (now - last)) UNAUTHORIZED_IPC_LOG_INTERVAL) as [Hlt|Hge].
  - specialize (IH (mkThrottle (Some last) (suppressed t + 1)) last eq_refl).
    destruct (rejects times _) as [l t']. cbn in *. apply IH. constructor; [|done]. by apply StronglySorted_inv in Hs as [? _].
  - specialize (IH (mkThrottle (Some now) 0) now eq_refl Hs). destruct (rejects times _) as [l t']. cbn in *.
    split; [|exact IH]. unfold UNAUTHORIZED_IPC_LOG_INTERVAL in *. lia.
Qed.

(** Every refusal is counted: entries and what they say was left out, and what the next will. *)
Lemma rejects_count times : forall t,
  let '(l, t') := rejects times t in
  len l + foldr Z.add 0 l.*2 + suppressed t' = len times + suppressed t.
Proof.
  induction times as [|now times IH]; intros t; cbn [rejects]; [unfold len; cbn; lia|].
  destruct (on_reject now t) as [o t1] eqn:E. specialize (IH t1). destruct (rejects times t1) as [l t2].
  rewrite len_cons. unfold on_reject in E. destruct (last_log_at t); [destruct (_ <? _)|]; injection E as <- <-; cbn [suppressed] in IH;
    rewrite ?len_cons; cbn [fmap list_fmap foldr snd]; rewrite ?len_cons; lia.
Qed.

(** The log tells of every refusal and has at most one entry in five seconds. *)
Theorem refusals_are_logged times :
  StronglySorted Z.le times ->
  let '(l, t) := rejects times new_throttle in
  apart UNAUTHORIZED_IPC_LOG_INTERVAL l.*1 /\ len l + foldr Z.add 0 l.*2 + suppressed t = len times.
Proof.
  intros Hs. assert (Hc := rejects_count times new_throttle). assert (Ha : apart UNAUTHORIZED_IPC_LOG_INTERVAL (rejects times new_throttle).1.*1).
  { destruct times as [|now times]; [done|]. cbn [rejects]. unfold on_reject. cbn [last_log_at new_throttle].
    assert (Hr := rejects_after times (mkThrottle (Some now) 0) now eq_refl Hs). by destruct (rejects times _). }
  destruct (rejects times new_throttle) as [l t]. cbn in *. split; [exact Ha|lia].
Qed.

(** ** The token of the portable service *)

Definition IPC_TOKEN_LEN : Z := 64.

Definition token_bytes : string -> list byte := String.list_byte_of_string.

(** [fold] over the pairs of bytes, of the bits in which they differ. *)
Definition constant_time_ipc_token_eq (expected candidate : string) : bool :=
  if negb (len (token_bytes expected) =? IPC_TOKEN_LEN) || negb (len (token_bytes candidate) =? IPC_TOKEN_LEN) then false
  else
    foldl (fun diff '(l, r) => Z.lor diff (Z.lxor (u8_to_Z l) (u8_to_Z r))) 0
      (zip (token_bytes expected) (token_bytes candidate)) =? 0.

(** The handshake of the server: what it answers, and whether it goes on. *)
Definition portable_service_ipc_handshake_as_server (validate : string -> bool) (token : option string) : bool :=
  match token with Some t => validate t | None => false end.

Lemma lor_zero a b : 0 <= a -> 0 <= b -> Z.lor a b = 0 -> a = 0 /\ b = 0.
Proof. intros Ha Hb H. by apply Z.lor_eq_0_iff in H. Qed.

Lemma diff_zero (l : list (byte * byte)) : forall acc,
  foldl (fun diff '(l, r) => Z.lor diff (Z.lxor (u8_to_Z l) (u8_to_Z r))) acc l = 0 <->
  acc = 0 /\ Forall (fun p => fst p = snd p) l.
Proof.
  induction l as [|[a b] l IH]; intros acc; cbn [foldl]; [split; [by intros ->|by intros [-> _]]|].
  rewrite IH, Forall_cons, Z.lor_eq_0_iff, Z.lxor_eq_0_iff. cbn. split.
  - intros [[-> H] Hl]. split_and!; [done|by apply u8_to_Z_inj|done].
  - intros (-> & -> & Hl). done.
Qed.

Lemma zip_equal {A} (l k : list A) : length l = length k -> Forall (fun p => fst p = snd p) (zip l k) <-> l = k.
Proof.
  revert k. induction l as [|x l IH]; intros [|y k] H; try done. cbn. injection H as H.
  change (zip_with pair l k) with (zip l k). rewrite Forall_cons, IH by done. cbn. split; [by intros [-> ->]|by intros [= -> ->]].
Qed.

(** The comparison that takes the same time for all is equality, of tokens of the length. *)
Theorem token_eq_is_equality expected candidate :
  len (token_bytes expected) = IPC_TOKEN_LEN ->
  constant_time_ipc_token_eq expected candidate = true <-> candidate = expected.
Proof.
  intros He. unfold constant_time_ipc_token_eq. rewrite He, Z.eqb_refl. cbn [negb orb].
  destruct (Z.eqb_spec (len (token_bytes candidate)) IPC_TOKEN_LEN) as [Hc|Hc]; cbn [negb].
  - rewrite Z.eqb_eq, diff_zero, zip_equal by (unfold len in *; lia). split; [|by intros ->].
    intros [_ H]. rewrite <- (String.string_of_list_byte_of_string candidate), <- (String.string_of_list_byte_of_string expected).
    unfold token_bytes in H. by rewrite H.
  - split; [done|]. intros ->. congruence.
Qed.

(** ** Whose channel root uses *)

(** [sort_unstable] and [dedup]. *)
Definition sorted_uids (l : list Z) : list Z := remove_dups (merge_sort Z.le l).

Definition select_server_uid_for_user_main_ipc (server_uids : list Z) (active_uid : option Z) (prefer_root : bool) : result string Z :=
  let server_uids := sorted_uids server_uids in
  match server_uids with
  | [] => match active_uid with Some uid => Ok uid | None => Err "No --server process found for user main IPC"%string end
  | [uid] => Ok uid
  | _ =>
      if prefer_root && bool_decide (0 ∈ server_uids) then Ok 0
      else match active_uid with
      | Some a => if bool_decide (a ∈ server_uids) then Ok a else Err "Multiple --server processes found for user main IPC"%string
      | None => Err "Multiple --server processes found for user main IPC"%string
      end
  end.

Lemma sorted_uids_elem l x : x ∈ sorted_uids l <-> x ∈ l.
Proof. unfold sorted_uids. rewrite elem_of_remove_dups. by rewrite merge_sort_Permutation. Qed.

(** The user that is chosen runs a server, when any does; and it does not matter in which order
    the processes were found, or how many each user has. *)
Theorem selected_runs_a_server server_uids active prefer uid :
  select_server_uid_for_user_main_ipc server_uids active prefer = Ok uid -> server_uids <> [] -> uid ∈ server_uids.
Proof.
  unfold select_server_uid_for_user_main_ipc. intros H Hne. rewrite <- sorted_uids_elem. revert H.
  destruct (sorted_uids server_uids) as [|a [|b l]] eqn:E.
  - destruct server_uids as [|x t]; [done|]. assert (Hx : x ∈ sorted_uids (x :: t)) by (apply sorted_uids_elem; by left).
    rewrite E in Hx. by apply not_elem_of_nil in Hx.
  - intros [= <-]. by left.
  - destruct (prefer && _) eqn:Ep; [apply andb_true_iff in Ep as [_ Ep]; intros [= <-]; by apply bool_decide_eq_true in Ep|].
    destruct active as [c|]; [|done]. destruct (bool_decide (c ∈ a :: b :: l)) eqn:Ec; [|done].
    intros [= <-]. by apply bool_decide_eq_true in Ec.
Qed.

(** [terminal_count_candidate_uids]. *)
Definition terminal_count_candidate_uids (effective_uid : Z) (active_uid : option Z) : list Z :=
  if negb (effective_uid =? 0) then [effective_uid]
  else match active_uid with Some uid => if uid =? 0 then [0] else [uid; 0] | None => [0] end.

(** Where [connect] connects to; [use_user_main]: within a [UserMainIpcScope]. *)
Definition connect_path (app : string) (euid : Z) (user_uid : result string Z) (use_user_main : bool) (postfix : string) : result string string :=
  if (euid =? 0) && String.eqb postfix "" && use_user_main then
    let? uid := user_uid in Ok (ipc_parent_dir_for_uid app uid postfix ++ "/ipc" ++ postfix)%string
  else Ok (ipc_parent_dir_for_uid app euid postfix ++ "/ipc" ++ postfix)%string.
