(* ===== verification/IpcHandle.v ===== *)
(** * What a process answers on its channels ([start] and [handle] of src/ipc.rs)

    The processes of the program read and change the settings through the one that keeps
    them.  On the channel of the service only whole configurations are exchanged. *)

From Stdlib Require Import Ascii.
From stdpp Require Import gmap strings pretty.
From S2P Require Import Prelude TermBuffer Passwords Options IpcFs IpcAuth.

(** ** State *)

(** [TrustedDevice]. *)
Record TrustedDevice : Type := mkTrusted { tr_hwid : list byte; tr_time : Z; tr_id : string; tr_name : string; tr_platform : string }.

#[export] Instance trusted_device_eq_dec : EqDecision TrustedDevice.
Proof. solve_decision. Defined.

(** The text that keeps the trusted devices: what it holds, and whether it is to be encrypted
    anew; or it cannot be decrypted. *)
Inductive StoredDevices : Type := Readable (l : list TrustedDevice) (store : bool) | Unreadable.

(** A configuration as it is exchanged: [Config] and [Config2]. *)
Record Whole : Type := mkWhole {
  w_config : Options.Config; w_password : list byte; w_salt : list byte; w_key_pair : list byte * list byte;
  w_config2 : Config2; w_devices : StoredDevices }.

Record Daemon : Type := mkDaemon {
  d_config : Options.Config; d_pw : Passwords.Config; d_key_pair : list byte * list byte;
  d_config2 : Config2; d_local : LocalConfig;
  d_devices : StoredDevices; d_cache : option (list TrustedDevice);
  d_voice : option string; d_needs_deploy : bool;
  d_switch : gmap string (Z * list byte); d_pending : gmap string (Z * list byte); d_controlling : Z }.

Definition set_config (c : Options.Config) (d : Daemon) : Daemon :=
  mkDaemon c (d_pw d) (d_key_pair d) (d_config2 d) (d_local d) (d_devices d) (d_cache d) (d_voice d) (d_needs_deploy d) (d_switch d) (d_pending d) (d_controlling d).
Definition set_pw (p : Passwords.Config) (d : Daemon) : Daemon :=
  mkDaemon (d_config d) p (d_key_pair d) (d_config2 d) (d_local d) (d_devices d) (d_cache d) (d_voice d) (d_needs_deploy d) (d_switch d) (d_pending d) (d_controlling d).
Definition set_config2 (c : Config2) (d : Daemon) : Daemon :=
  mkDaemon (d_config d) (d_pw d) (d_key_pair d) c (d_local d) (d_devices d) (d_cache d) (d_voice d) (d_needs_deploy d) (d_switch d) (d_pending d) (d_controlling d).
Definition set_local (c : LocalConfig) (d : Daemon) : Daemon :=
  mkDaemon (d_config d) (d_pw d) (d_key_pair d) (d_config2 d) c (d_devices d) (d_cache d) (d_voice d) (d_needs_deploy d) (d_switch d) (d_pending d) (d_controlling d).
Definition set_devices (s : StoredDevices) (c : option (list TrustedDevice)) (d : Daemon) : Daemon :=
  mkDaemon (d_config d) (d_pw d) (d_key_pair d) (d_config2 d) (d_local d) s c (d_voice d) (d_needs_deploy d) (d_switch d) (d_pending d) (d_controlling d).
Definition set_voice (v : option string) (d : Daemon) : Daemon :=
  mkDaemon (d_config d) (d_pw d) (d_key_pair d) (d_config2 d) (d_local d) (d_devices d) (d_cache d) v (d_needs_deploy d) (d_switch d) (d_pending d) (d_controlling d).
Definition set_needs_deploy (b : bool) (d : Daemon) : Daemon :=
  mkDaemon (d_config d) (d_pw d) (d_key_pair d) (d_config2 d) (d_local d) (d_devices d) (d_cache d) (d_voice d) b (d_switch d) (d_pending d) (d_controlling d).
Definition set_switch (s p : gmap string (Z * list byte)) (d : Daemon) : Daemon :=
  mkDaemon (d_config d) (d_pw d) (d_key_pair d) (d_config2 d) (d_local d) (d_devices d) (d_cache d) (d_voice d) (d_needs_deploy d) s p (d_controlling d).
Definition set_controlling (n : Z) (d : Daemon) : Daemon :=
  mkDaemon (d_config d) (d_pw d) (d_key_pair d) (d_config2 d) (d_local d) (d_devices d) (d_cache d) (d_voice d) (d_needs_deploy d) (d_switch d) (d_pending d) n.

(** ** Messages *)

(** [Data], as far as this loop answers it; [DOther]: all others. *)
Inductive Data : Type :=
| DSystemInfo (info : option string)
| DClickTime (t : Z)
| DMouseMoveTime (t : Z)
| DClose
| DOnlineStatus (s : option (Z * bool))
| DConfirmedKey (k : option (list byte * list byte))
| DSocks (s : option Socks5Server)
| DSocksWs (s : option (option Socks5Server * string))
| DVideoConnCount (n : option Z)
| DConfig (name : string) (value : option string)
| DOptions (o : option Settings)
| DNatType (n : option Z)
| DSyncConfig (c : option Whole)
| DTestRendezvousServer
| DDeployed
| DSwitchSidesRequest (id : string)
| DSwitchSidesUuid (uuid id : string) (allowed : option bool)
| DControllingSessionCount (n : Z)
| DTerminalSessionCount (n : Z)
| DWaylandScreencastRestoreToken (key value : string)
| DRemoveTrustedDevices (hwids : list (list byte))
| DClearTrustedDevices
| DInstallOption (o : option (string * string))
| DControlPermissionsRemoteModify (s : option bool)
| DOther.

(** What else a message does. *)
Inductive Effect : Type :=
| Reply (d : Data)
| RestartMediator | ResetTlsCache | RestartAudio | TestNatType | TestRendezvous
| SwitchPrivacyMode (key : string) | CloseWaylandSession | FixKeysAndExit.

(** What a message is handled with: the machine, the time, what is random, and what other
    parts of the process tell. *)
Record Env : Type := mkEnv {
  e_fixed : Fixed; e_host : Host; e_machine : Machine; e_nonce : list byte; e_fresh_salt : list byte; e_auto_password : list byte;
  e_now : Z; e_uuid : list byte; e_uuid_text : list byte -> string; e_parse_uuid : string -> option (list byte);
  e_system_info : string; e_click_time : Z; e_mouse_move_time : Z; e_exit_recv_close : bool;
  e_online_state : Z; e_remote_conns : Z; e_pro_or_custom : bool;
  e_terminal_count : Z; e_rdp_hold : bool; e_permissions : list (option bool);
  e_devices_text_len : list TrustedDevice -> Z; e_devices_json : list TrustedDevice -> string }.

Definition SWITCH_SIDES_VALID_MS : Z := 10000.
Definition DAYS_90 : Z := 90 * 24 * 60 * 60 * 1000.

Definition string_of (t : list byte) : string := String.string_of_list_byte t.
Definition text_of (s : string) : list byte := String.list_byte_of_string s.

(** [pk_to_fingerprint]: hexadecimal digits, in groups of four. *)
Definition hex_digit (n : Z) : ascii := ascii_of_N (Z.to_N (if n <? 10 then 48 + n else 87 + n)).
Definition hex_bytes (pk : list byte) : list ascii := pk ≫= (fun b => [hex_digit (u8_to_Z b / 16); hex_digit (u8_to_Z b mod 16)]).
Definition pk_to_fingerprint (pk : list byte) : string :=
  String.string_of_list_ascii (concat (imap (fun i c => if (0 <? i)%nat && (i mod 4 =? 0)%nat then [" "%char; c] else [c]) (hex_bytes pk))).

(** [get_control_permission_state], for one permission of every connection. *)
Definition get_control_permission_state (disable_if_has_disabled : bool) (l : list (option bool)) : option bool :=
  let has_enable := existsb (fun x => bool_decide (x = Some true)) l in
  let has_disable := existsb (fun x => bool_decide (x = Some false)) l in
  if disable_if_has_disabled then
    if has_disable then Some false else if has_enable then Some true else None
  else
    if has_enable then Some true else if has_disable then Some false else None.

(** ** Switching sides: an answer is good once, for ten seconds

    [PENDING_SWITCH_SIDES_UUID] maps a peer to the time and the number it was asked with. *)

Definition Pending : Type := gmap string (Z * list byte).
Definition still_valid (now : Z) (kv : string * (Z * list byte)) : Prop := now - fst (snd kv) < SWITCH_SIDES_VALID_MS.

#[export] Instance still_valid_dec now kv : Decision (still_valid now kv).
Proof. unfold still_valid. apply _. Defined.

Definition insert_pending_switch_sides_uuid (now : Z) (id : string) (uuid : list byte) (uuids : Pending) : Pending :=
  <[id := (now, uuid)]> (filter (still_valid now) uuids).
Definition remove_pending_switch_sides_uuid (now : Z) (id : string) (uuid : list byte) (uuids : Pending) : bool * Pending :=
  let uuids := filter (still_valid now) uuids in
  if bool_decide (snd <$> uuids !! id = Some uuid) then (true, delete id uuids) else (false, uuids).

Section Handle.
Context `{Crypto}.
Variable env : Env.

Abbreviation opt k d := (get_option (e_fixed env) k (d_config2 d)).

(** The passwords as they are checked, with the options they depend on. *)
Definition pw_now (d : Daemon) : Passwords.Config :=
  let p := d_pw d in
  Passwords.mkConfig (cfg_password p) (cfg_salt p) (preset_storage p) (preset_salt p) (disable_change p)
    (opt "verification-method" d) (opt "approve-mode" d) (temporary_password p).

(** *** Trusted devices (config.rs) *)

Definition outdate (d : TrustedDevice) : bool := tr_time d + DAYS_90 <? e_now env.

Definition set_trusted_devices (l : list TrustedDevice) (d : Daemon) : Daemon :=
  let l := filter (fun x => outdate x = false) l in
  if 1024 * 1024 <? e_devices_text_len env l then d
  else set_devices (Readable l false) (Some l) d.

Definition get_trusted_devices (d : Daemon) : list TrustedDevice * Daemon :=
  match d_cache d with
  | Some l => (l, d)
  | None =>
      match d_devices d with
      | Readable l store =>
          let kept := filter (fun x => outdate x = false) l in
          let d := if store || negb (length kept =? length l)%nat then set_trusted_devices kept d else d in
          (kept, set_devices (d_devices d) (Some kept) d)
      | Unreadable => ([], d)
      end
  end.

Definition add_trusted_device (x : TrustedDevice) (d : Daemon) : Daemon :=
  let '(l, d) := get_trusted_devices d in
  set_trusted_devices (filter (fun y => tr_hwid y <> tr_hwid x) l ++ [x]) d.
Definition remove_trusted_devices (hwids : list (list byte)) (d : Daemon) : Daemon :=
  let '(l, d) := get_trusted_devices d in
  set_trusted_devices (filter (fun y => tr_hwid y ∉ hwids) l) d.
Definition clear_trusted_devices (d : Daemon) : Daemon := set_trusted_devices [] d.

(** *** What a change of settings restarts *)

Record CheckIfRestart : Type := mkCheck {
  k_stop_service : string; k_rendezvous_servers : list string; k_audio_input : string; k_voice_call_input : string;
  k_ws : string; k_disable_udp : string; k_tls_fallback : string; k_api_server : string }.

Definition check_if_restart (d : Daemon) : CheckIfRestart :=
  mkCheck (opt "stop-service" d) (get_rendezvous_servers (e_fixed env) (d_config2 d)) (opt "audio-input" d) (opt "voice-call-input" d)
    (opt "allow-websocket" d) (opt "disable-udp" d) (opt "allow-insecure-tls-fallback" d) (opt "api-server" d).

Definition set_voice_call_input_device (device : option string) (set_if_present : bool) (d : Daemon) : Daemon * list Effect :=
  if negb set_if_present && bool_decide (is_Some (d_voice d)) then (d, [])
  else if bool_decide (d_voice d = device) then (d, [])
  else (set_voice device d, [RestartAudio]).

(** When the check goes out of scope. *)
Definition drop_check (k : CheckIfRestart) (d : Daemon) : Daemon * list Effect :=
  let tls_changed := negb (String.eqb (k_tls_fallback k) (opt "allow-insecure-tls-fallback" d)) in
  let mediator :=
    if tls_changed || negb (String.eqb (k_stop_service k) (opt "stop-service" d))
       || negb (bool_decide (k_rendezvous_servers k = get_rendezvous_servers (e_fixed env) (d_config2 d)))
       || negb (String.eqb (k_ws k) (opt "allow-websocket" d)) || negb (String.eqb (k_disable_udp k) (opt "disable-udp" d))
       || negb (String.eqb (k_api_server k) (opt "api-server" d))
    then (if tls_changed then [ResetTlsCache] else []) ++ [RestartMediator] else [] in
  let audio := if negb (String.eqb (k_audio_input k) (opt "audio-input" d)) then [RestartAudio] else [] in
  let '(d, voice) :=
    if negb (String.eqb (k_voice_call_input k) (opt "voice-call-input" d))
    then set_voice_call_input_device (Some (opt "voice-call-input" d)) true d else (d, []) in
  (d, mediator ++ audio ++ voice).

(** [CheckTestNatType]. *)
Definition is_direct (d : Daemon) : bool :=
  bool_decide (get_socks (e_fixed env) (d_config2 d) = None) && negb (use_ws (e_fixed env) (d_config2 d)).
Definition drop_nat (was : bool) (d : Daemon) : list Effect := if Bool.eqb was (is_direct d) then [] else [TestNatType].

(** *** Reading and writing one setting *)

Definition hide_cm (d : Daemon) : bool :=
  match approve_mode (pw_now d), verification_method (pw_now d) with
  | Password, OnlyUsePermanentPassword => option2bool "allow-hide-cm" (opt "allow-hide-cm" d)
  | _, _ => false
  end.

Definition bool_text (b : bool) : string := if b then "true" else "false".
Definition yes_no (b : bool) : string := if b then "Y" else "N".

Definition read_config (name : string) (d : Daemon) : option string * Daemon :=
  if String.eqb name "id" then let '(i, c) := get_id (e_fixed env) (e_host env) (d_config d) in (Some i, set_config c d)
  else if String.eqb name "temporary-password" then (Some (string_of (temporary_password (d_pw d))), d)
  else if String.eqb name "permanent-password-storage-and-salt" then
    (Some (string_of (cfg_password (d_pw d)) ++ String "010" (string_of (cfg_salt (d_pw d))))%string, d)
  else if String.eqb name "permanent-password-set" then (Some (yes_no (has_permanent_password (e_machine env) (pw_now d))), d)
  else if String.eqb name "permanent-password-is-preset" then
    (Some (yes_no (is_empty (cfg_password (d_pw d)) && has_permanent_password (e_machine env) (pw_now d))), d)
  else if String.eqb name "salt" then
    let '(s, p) := get_salt (e_machine env) (e_fresh_salt env) (d_pw d) in (Some (string_of s), set_pw p d)
  else if String.eqb name "rendezvous_server" then
    (Some (get_rendezvous_server (e_fixed env) (d_config2 d) ++ "," ++ String.concat "," (get_rendezvous_servers (e_fixed env) (d_config2 d)))%string, d)
  else if String.eqb name "rendezvous_servers" then (Some (String.concat "," (get_rendezvous_servers (e_fixed env) (d_config2 d))), d)
  else if String.eqb name "fingerprint" then
    (if key_confirmed (d_config d) then Some (pk_to_fingerprint (snd (d_key_pair d))) else None, d)
  else if String.eqb name "hide_cm" then (if e_pro_or_custom env then Some (bool_text (hide_cm d)) else None, d)
  else if String.eqb name "voice-call-input" then (d_voice d, d)
  else if String.eqb name "unlock-pin" then (Some (get_unlock_pin (e_fixed env) (d_config2 d)), d)
  else if String.eqb name "trusted-devices" then
    let '(l, d) := get_trusted_devices d in (Some (e_devices_json env l), d)
  else (None, d).

Definition set_permanent_password (password : list byte) (d : Daemon) : bool * Daemon :=
  let '(ok, p) := Passwords.set_permanent_password (e_machine env) (e_nonce env) (e_fresh_salt env) password (d_pw d) in
  let changed := negb (bool_decide (cfg_password p = cfg_password (d_pw d))) in
  let d := set_pw p d in
  (ok, if changed then clear_trusted_devices d else d).

Definition write_config (name value : string) (d : Daemon) : Daemon * list Effect :=
  if String.eqb name "id" then (set_config (set_id value (set_key_confirmed false (d_config d))) d, [])
  else if String.eqb name "temporary-password" then (set_pw (with_temporary (e_auto_password env) (d_pw d)) d, [])
  else if String.eqb name "permanent-password" then
    let '(updated, d) := if disable_change (d_pw d) then (false, d) else set_permanent_password (text_of value) d in
    (d, [Reply (DConfig name (Some (yes_no updated)))])
  else if String.eqb name "salt" then (set_pw (set_salt (e_machine env) (text_of value) (d_pw d)) d, [])
  else if String.eqb name "voice-call-input" then set_voice_call_input_device (Some value) true d
  else if String.eqb name "unlock-pin" then (set_config2 (set_unlock_pin (e_fixed env) value (d_config2 d)) d, [])
  else (d, []).

(** *** Whole configurations *)

Definition whole (d : Daemon) : Whole :=
  mkWhole (d_config d) (cfg_password (d_pw d)) (cfg_salt (d_pw d)) (d_key_pair d) (d_config2 d) (d_devices d).
Definition set_whole (w : Whole) (d : Daemon) : Daemon :=
  let d := set_config (w_config w) (set_pw (with_password (w_password w) (w_salt w) (d_pw d)) d) in
  mkDaemon (d_config d) (d_pw d) (w_key_pair w) (w_config2 w) (d_local d) (w_devices w) (d_cache d) (d_voice d) (d_needs_deploy d) (d_switch d) (d_pending d) (d_controlling d).

(** ** The handler *)

Definition handle (data : Data) (d : Daemon) : Daemon * list Effect :=
  let e := env in
  match data with
  | DSystemInfo _ => (d, [Reply (DSystemInfo (Some (e_system_info e)))])
  | DClickTime _ => (d, [Reply (DClickTime (e_click_time e))])
  | DMouseMoveTime _ => (d, [Reply (DMouseMoveTime (e_mouse_move_time e))])
  | DClose => (d, if e_exit_recv_close e then [FixKeysAndExit] else [])
  | DOnlineStatus _ => (d, [Reply (DOnlineStatus (Some (e_online_state e, key_confirmed (d_config d))))])
  | DConfirmedKey None => (d, [Reply (DConfirmedKey (if key_confirmed (d_config d) then Some (d_key_pair d) else None))])
  | DSocks None => (d, [Reply (DSocks (get_socks (e_fixed e) (d_config2 d)))])
  | DSocks (Some data) =>
      let nat := is_direct d in
      let d := set_config2 (set_socks (e_fixed e) (if String.eqb (proxy data) "" then None else Some data) (d_config2 d)) d in
      (d, RestartMediator :: drop_nat nat d)
  | DSocksWs None => (d, [Reply (DSocksWs (Some (get_socks (e_fixed e) (d_config2 d), opt "allow-websocket" d)))])
  | DVideoConnCount None => (d, [Reply (DVideoConnCount (Some (e_remote_conns e)))])
  | DConfig name None => let '(v, d) := read_config name d in (d, [Reply (DConfig name v)])
  | DConfig name (Some value) => write_config name value d
  | DOptions None => (d, [Reply (DOptions (Some (get_options (e_fixed e) (d_config2 d))))])
  | DOptions (Some value) =>
      let chk := check_if_restart d in
      let nat := is_direct d in
      let privacy := match value !! "privacy-mode-impl-key" with Some v => [SwitchPrivacyMode v] | None => [] end in
      let d := set_config2 (set_options (e_fixed e) value (d_config2 d)) d in
      let nats := drop_nat nat d in
      let '(d, restarts) := drop_check chk d in
      (d, privacy ++ [Reply (DOptions None)] ++ nats ++ restarts)
  | DNatType _ => (d, [Reply (DNatType (Some (nat_type (d_config2 d))))])
  | DSyncConfig (Some w) =>
      let chk := check_if_restart d in
      let d := set_whole w d in
      let '(d, restarts) := drop_check chk d in
      (d, Reply (DSyncConfig None) :: restarts)
  | DSyncConfig None => (d, [Reply (DSyncConfig (Some (whole d)))])
  | DTestRendezvousServer => (d, [TestRendezvous])
  | DDeployed => (set_needs_deploy false d, [RestartMediator])
  | DSwitchSidesRequest id =>
      (set_switch (<[id := (e_now e, e_uuid e)]> (d_switch d)) (d_pending d) d, [Reply (DSwitchSidesRequest (e_uuid_text e (e_uuid e)))])
  | DSwitchSidesUuid uuid id None =>
      let '(allowed, d) := match e_parse_uuid e uuid with
                           | Some u => let '(ok, uuids) := remove_pending_switch_sides_uuid (e_now e) id u (d_pending d) in (ok, set_switch (d_switch d) uuids d)
                           | None => (false, d)
                           end in
      (d, [Reply (DSwitchSidesUuid uuid id (Some allowed))])
  | DControllingSessionCount n => (set_controlling n d, [])
  | DTerminalSessionCount _ => (d, [Reply (DTerminalSessionCount (e_terminal_count e))])
  | DWaylandScreencastRestoreToken key value =>
      if String.eqb value "get" then
        let o := local_get_option (e_fixed e) key (d_local d) in
        let v := if String.eqb o "" then (if e_rdp_hold e then "fake token"%string else ""%string) else o in
        (d, [Reply (DWaylandScreencastRestoreToken key v)])
      else if String.eqb value "clear" then
        (set_local (local_set_option (e_fixed e) key "" (d_local d)) d, [CloseWaylandSession; Reply (DWaylandScreencastRestoreToken key "")])
      else (d, [])
  | DRemoveTrustedDevices hwids => (remove_trusted_devices hwids d, [])
  | DClearTrustedDevices => (clear_trusted_devices d, [])
  | DControlPermissionsRemoteModify _ =>
      (d, [Reply (DControlPermissionsRemoteModify (get_control_permission_state true (e_permissions e)))])
  | DConfirmedKey (Some _) | DSocksWs (Some _) | DVideoConnCount (Some _) | DSwitchSidesUuid _ _ (Some _)
  | DInstallOption _ | DOther => (d, [])
  end.
End Handle.

(** ** What the messages do *)

Section HandleLemmas.
Context `{Crypto}.
Variable env : Env.

Lemma set_devices_get l d :
  e_devices_text_len env (filter (fun x => outdate env x = false) l) <= 1024 * 1024 ->
  fst (get_trusted_devices env (set_trusted_devices env l d)) = filter (fun x => outdate env x = false) l.
Proof.
  intros Hl. unfold set_trusted_devices.
  destruct (Z.ltb_spec (1024 * 1024) (e_devices_text_len env (filter (fun x => outdate env x = false) l))); [lia|done].
Qed.

(** A new permanent password is answered for, and takes the trust from every device. *)
Theorem password_change_forgets_devices v d :
  e_devices_text_len env [] <= 1024 * 1024 -> disable_change (d_pw d) = false ->
  let '(d', out) := handle env (DConfig "permanent-password" (Some v)) d in
  out = [Reply (DConfig "permanent-password" (Some (yes_no (fst (set_permanent_password env (text_of v) d)))))] /\
  (cfg_password (d_pw d') <> cfg_password (d_pw d) -> fst (get_trusted_devices env d') = []).
Proof.
  intros Hl Hd. cbn [handle]. unfold write_config. cbn [String.eqb Ascii.eqb Bool.eqb]. rewrite Hd.
  unfold set_permanent_password. destruct (Passwords.set_permanent_password _ _ _ _ _) as [ok p]. cbn [fst].
  split; [done|]. destruct (bool_decide (cfg_password p = cfg_password (d_pw d))) eqn:E; cbn [negb].
  - apply bool_decide_eq_true in E. by rewrite <- E.
  - intros _. unfold clear_trusted_devices. by rewrite set_devices_get.
Qed.

(** A locked password is not changed, and that is told. *)
Theorem locked_password_is_refused v d :
  disable_change (d_pw d) = true ->
  handle env (DConfig "permanent-password" (Some v)) d = (d, [Reply (DConfig "permanent-password" (Some "N"%string))]).
Proof. intros Hd. cbn [handle]. unfold write_config. cbn [String.eqb Ascii.eqb Bool.eqb]. by rewrite Hd. Qed.

(** A device that is trusted from now on is among the trusted ones, once, with those that were
    and are not outdated. *)
Theorem added_device_is_trusted x y d :
  (forall l, e_devices_text_len env l <= 1024 * 1024) -> outdate env x = false ->
  (forall l, d_cache d = Some l -> Forall (fun z => outdate env z = false) l) ->
  y ∈ fst (get_trusted_devices env (add_trusted_device env x d)) <->
  y = x \/ (tr_hwid y <> tr_hwid x /\ y ∈ fst (get_trusted_devices env d)).
Proof.
  intros Hl Hx Hc. unfold add_trusted_device. destruct (get_trusted_devices env d) as [l d1] eqn:E. cbn [fst].
  assert (Hv : Forall (fun z => outdate env z = false) l).
  { unfold get_trusted_devices in E. destruct (d_cache d) as [k|]; [injection E as <- _; by apply Hc|].
    destruct (d_devices d) as [k st|]; injection E as <- _; [|constructor].
    apply Forall_forall. intros z [Hz _]%list_elem_of_filter. exact Hz. }
  rewrite set_devices_get by apply Hl. rewrite list_elem_of_filter, elem_of_app, list_elem_of_filter, list_elem_of_singleton.
  rewrite Forall_forall in Hv. split; [intros [? [?|?]]; auto|]. intros [->|[? ?]]; auto.
Qed.

(** The mediator is started again exactly when a setting it was started with has another
    value (and the cache of certificates dropped when that setting is the fallback's). *)
Theorem mediator_is_restarted k d :
  RestartMediator ∈ snd (drop_check env k d) <->
  let k' := check_if_restart env d in
  k_stop_service k <> k_stop_service k' \/ k_rendezvous_servers k <> k_rendezvous_servers k' \/ k_ws k <> k_ws k' \/
  k_disable_udp k <> k_disable_udp k' \/ k_tls_fallback k <> k_tls_fallback k' \/ k_api_server k <> k_api_server k'.
Proof.
  assert (Hne : forall a b, negb (String.eqb a b) = true <-> a <> b) by (intros a b; destruct (String.eqb_spec a b); cbn; intuition congruence).
  assert (Hl : forall a b : list string, negb (bool_decide (a = b)) = true <-> a <> b) by (intros a b; rewrite negb_true_iff; apply bool_decide_eq_false).
  assert (Hra : RestartMediator ∉ [RestartAudio]) by (by rewrite list_elem_of_singleton).
  assert (Ha : RestartMediator ∉ (if negb (String.eqb (k_audio_input k) (get_option (e_fixed env) "audio-input" (d_config2 d))) then [RestartAudio] else []))
    by (case_match; [exact Hra|apply not_elem_of_nil]).
  assert (Hvc : forall v, RestartMediator ∉ snd (set_voice_call_input_device v true d))
    by (intros v; unfold set_voice_call_input_device; cbn [negb andb]; destruct (bool_decide (d_voice d = v)); [apply not_elem_of_nil|exact Hra]).
  cbn [k_stop_service k_rendezvous_servers k_ws k_disable_udp k_tls_fallback k_api_server check_if_restart].
  unfold drop_check. specialize (Hvc (Some (get_option (e_fixed env) "voice-call-input" (d_config2 d)))).
  destruct (if negb (String.eqb (k_voice_call_input k) _) then _ else _) as [d' voice] eqn:Ev.
  assert (Hv : RestartMediator ∉ voice).
  { destruct (negb (String.eqb (k_voice_call_input k) _)); [|injection Ev as _ <-; apply not_elem_of_nil]. by rewrite Ev in Hvc. }
  assert (Hm : forall a t : bool, RestartMediator ∈ (if a then (if t then [ResetTlsCache] else []) ++ [RestartMediator] else []) <-> a = true)
    by (intros [] []; cbn; rewrite ?elem_of_cons, ?elem_of_nil; intuition congruence).
  cbn [snd]. rewrite !elem_of_app, Hm, !orb_true_iff, Hl, !Hne. tauto.
Qed.
End HandleLemmas.
