(* ===== verification/IpcServe.v ===== *)
(** * Serving the channels ([start] of src/ipc.rs), and what is kept between messages

    Connections are served side by side by one process; what they send is handled in the
    order in which it arrives.  [on_event] is one turn of [start] or of the task of one
    connection. *)

From stdpp Require Import gmap strings.
From S2P Require Import Prelude TermBuffer Passwords Options IpcFs IpcAuth IpcHandle.

(** ** Serving *)

(** What [next] of a connection returns: a message, a frame that is not one, or the end. *)
Inductive Frame : Type := Message (d : Data) | Undecodable | Closed.

Inductive Event : Type :=
| Accept (conn : nat) (p : Peer)
| Next (conn : nat) (env : Env) (f : Frame).

Record Serving : Type := mkServing { daemon : Daemon; served : gset nat }.

Definition POSTFIX_SERVICE : string := "_service".

Definition is_sync (d : Data) : bool := match d with DSyncConfig _ => true | _ => false end.

Section Serve.
Context `{Crypto}.
Variable postfix : string.

(** One frame of a connection: what is handled, and whether the connection is served on. *)
Definition on_frame (env : Env) (f : Frame) (d : Daemon) : Daemon * list Effect * bool :=
  match f with
  | Closed => (d, [], false)
  | Message m =>
      if String.eqb postfix POSTFIX_SERVICE then
        if is_sync m then (handle env m d, true) else (d, [], false)
      else (handle env m d, true)
  | Undecodable => (d, [], negb (String.eqb postfix POSTFIX_SERVICE))
  end.

Definition on_event (ev : Event) (s : Serving) : Serving * list (nat * Effect) :=
  match ev with
  | Accept c p =>
      if is_service_ipc_postfix postfix && negb (authorize_service_scoped_ipc_connection p) then (s, [])
      else (mkServing (daemon s) ({[c]} ∪ served s), [])
  | Next c env f =>
      if decide (c ∈ served s) then
        let '(d, effects, on) := on_frame env f (daemon s) in
        (mkServing d (if on then served s else served s ∖ {[c]}), pair c <$> effects)
      else (s, [])
  end.

Fixpoint serve (events : list Event) (s : Serving) : Serving * list (nat * Effect) :=
  match events with
  | [] => (s, [])
  | ev :: events =>
      let '(s, out) := on_event ev s in
      let '(s, out') := serve events s in
      (s, out ++ out')
  end.
End Serve.

(** ** Lemmas *)

(** What one message of the service's channel may do. *)
Definition sync_effect (e : Effect) : Prop :=
  match e with Reply (DSyncConfig _) | RestartMediator | ResetTlsCache | RestartAudio => True | _ => False end.

(** What a configuration that is taken over leaves alone. *)
Definition untouched (d : Daemon) :=
  (d_local d, d_cache d, d_needs_deploy d, (d_switch d, d_pending d, d_controlling d), temporary_password (d_pw d)).

Section ServeLemmas.
Context `{Crypto}.

Lemma drop_check_spec env k d :
  let '(d', out) := drop_check env k d in
  whole d' = whole d /\ untouched d' = untouched d /\ Forall sync_effect out.
Proof.
  unfold drop_check, set_voice_call_input_device.
  destruct (negb (String.eqb (k_voice_call_input k) _)); [|]; cbn [negb andb]; [destruct (bool_decide (d_voice d = _))|];
    (split_and!; [done|done|]); repeat (apply Forall_app; split); repeat case_match; repeat constructor.
Qed.

Lemma sync_spec env w d :
  let '(d', out) := handle env (DSyncConfig w) d in
  whole d' = default (whole d) w /\ untouched d' = untouched d /\ Forall sync_effect out.
Proof.
  destruct w as [w|]; cbn [handle]; [|by repeat constructor].
  assert (Hd := drop_check_spec env (check_if_restart env d) (set_whole w d)).
  destruct (drop_check _ _ _) as [d' out]. destruct Hd as (Hw & Hu & Hf). rewrite Hw, Hu.
  split_and!; [by destruct w|done|by constructor].
Qed.

(** One turn of the service: who is served was authorized, and only configurations change. *)
Definition peers (events : list Event) : gset nat :=
  list_to_set (omap (fun ev => match ev with
    | Accept c p => if authorize_service_scoped_ipc_connection p then Some c else None | _ => None end) events).

Definition sent_by (c : nat) (w : Whole) (events : list Event) : Prop :=
  exists env, Next c env (Message (DSyncConfig (Some w))) ∈ events.

Lemma peers_cons ev events : peers (ev :: events) = peers [ev] ∪ peers events.
Proof. unfold peers. cbn [omap list_omap]. destruct ev as [c p|]; [destruct (authorize_service_scoped_ipc_connection p)|]; set_solver. Qed.

Lemma event_spec ev s :
  let '(s', out) := on_event POSTFIX_SERVICE ev s in
  served s' ⊆ served s ∪ peers [ev] /\
  Forall (fun e => sync_effect (snd e) /\ fst e ∈ served s) out /\
  untouched (daemon s') = untouched (daemon s) /\
  (whole (daemon s') = whole (daemon s) \/ exists c, c ∈ served s /\ sent_by c (whole (daemon s')) [ev]).
Proof.
  destruct ev as [c p|c env f]; cbn [on_event].
  - unfold peers. cbn [omap list_omap]. change (is_service_ipc_postfix POSTFIX_SERVICE) with true. cbn [andb].
    destruct (authorize_service_scoped_ipc_connection p); cbn; (split_and!; [set_solver|constructor|done|by left]).
  - destruct (decide (c ∈ served s)) as [Hc|]; [|split_and!; [set_solver|constructor|done|by left]].
    destruct f as [m| |]; unfold on_frame; cbn [String.eqb Ascii.eqb Bool.eqb POSTFIX_SERVICE negb].
    + destruct (is_sync m) eqn:Em; [|split_and!; [set_solver|constructor|done|by left]].
      assert (exists w, m = DSyncConfig w) as [w ->] by (destruct m; try discriminate Em; by eexists).
      assert (Hs := sync_spec env w (daemon s)). destruct (handle _ _ _) as [d' out]. destruct Hs as (Hw & Hu & Hf). cbn [daemon served].
      split_and!; [set_solver| |done|].
      * apply Forall_fmap. apply (Forall_impl sync_effect); [done|]. intros e He. split; [exact He|exact Hc].
      * destruct w as [w|]; [|by left]. right. exists c. split; [done|]. exists env. rewrite Hw. by left.
    + split_and!; [set_solver|constructor|done|by left].
    + split_and!; [set_solver|constructor|done|by left].
Qed.

Lemma serve_spec events : forall s,
  let '(s', out) := serve POSTFIX_SERVICE events s in
  Forall (fun e => sync_effect (snd e) /\ fst e ∈ served s ∪ peers events) out /\
  untouched (daemon s') = untouched (daemon s) /\
  (whole (daemon s') = whole (daemon s) \/ exists c, c ∈ served s ∪ peers events /\ sent_by c (whole (daemon s')) events).
Proof.
  induction events as [|ev events IH]; intros s; cbn [serve]; [split_and!; [constructor|done|by left]|].
  assert (He := event_spec ev s). destruct (on_event _ ev s) as [s1 out]. specialize (IH s1).
  destruct (serve _ events s1) as [s2 out2]. destruct He as (Hs & Ho & Hu & Hw), IH as (Ho2 & Hu2 & Hw2).
  rewrite peers_cons. split_and!; [|congruence|].
  - apply Forall_app. split; (eapply Forall_impl; [eassumption|]); intros [c e]; cbn; set_solver.
  - destruct Hw2 as [->|(c & Hc & env & Hin)]; [|right; exists c; split; [set_solver|exists env; by right]].
    destruct Hw as [->|(c & Hc & env & Hin)]; [by left|right]. exists c. split; [set_solver|].
    exists env. apply list_elem_of_singleton in Hin. rewrite Hin. by left.
Qed.

Lemma peers_elem c events : c ∈ peers events <-> exists p, Accept c p ∈ events /\ authorize_service_scoped_ipc_connection p = true.
Proof.
  unfold peers. rewrite elem_of_list_to_set, list_elem_of_omap. split.
  - intros ([c' p|] & Hin & He); [|done]. destruct (authorize_service_scoped_ipc_connection p) eqn:E; [|done]. injection He as ->. by exists p.
  - intros (p & Hin & Hp). exists (Accept c p). split; [done|]. by rewrite Hp.
Qed.

(** C15: The channel of the root service, whatever any process sends to it and in whatever
    order, answers and obeys only processes that were let in (root or the user at the screen,
    with the same program); it only hands out and takes over whole configurations, restarting
    what depends on them; the configuration it has in the end is the one it had or one that
    such a process sent, and nothing else it keeps has changed. *)
Theorem service_channel_only_syncs events d :
  let '(s, out) := serve POSTFIX_SERVICE events (mkServing d ∅) in
  (forall c e, (c, e) ∈ out -> sync_effect e /\ c ∈ peers events) /\
  (whole (daemon s) = whole d \/ exists c, c ∈ peers events /\ sent_by c (whole (daemon s)) events) /\
  untouched (daemon s) = untouched d.
Proof.
  assert (Hs := serve_spec events (mkServing d ∅)). destruct (serve _ events _) as [s out]. destruct Hs as (Ho & Hu & Hw).
  cbn [served daemon] in *. assert (E : ∅ ∪ peers events = peers events) by set_solver. rewrite E in Ho, Hw.
  split_and!; [|exact Hw|exact Hu].
  intros c e Hin. rewrite Forall_forall in Ho. exact (Ho _ Hin).
Qed.

(** Anything else closes the connection. *)
Theorem junk_closes c env f s :
  match f with Message m => is_sync m = false | _ => True end ->
  on_event POSTFIX_SERVICE (Next c env f) s = (mkServing (daemon s) (served s ∖ {[c]}), []).
Proof.
  intros Hf. cbn [on_event]. destruct (decide (c ∈ served s)) as [Hc|Hc].
  - destruct f as [m| |]; unfold on_frame; cbn [String.eqb Ascii.eqb Bool.eqb POSTFIX_SERVICE negb]; [by rewrite Hf|done|done].
  - destruct s as [d l]. cbn in *. f_equal. f_equal. set_solver.
Qed.

(** What a process asks for and hands to another is what the other then has. *)
Theorem configuration_is_handed_over env env' d d' :
  exists w, handle env (DSyncConfig None) d = (d, [Reply (DSyncConfig (Some w))]) /\
    whole (fst (handle env' (DSyncConfig (Some w)) d')) = whole d.
Proof.
  exists (whole d). split; [done|]. assert (Hs := sync_spec env' (Some (whole d)) d'). destruct (handle env' _ d') as [d2 out]. by destruct Hs.
Qed.
End ServeLemmas.

(** ** Switching sides *)

(** What is done with the numbers that are waited for, and what it tells. *)
Inductive PendingOp : Type := Asked (now : Z) (id : string) (uuid : list byte) | Claimed (now : Z) (id : string) (uuid : list byte).

Definition pending_op (op : PendingOp) (p : Pending) : bool * Pending :=
  match op with
  | Asked now id uuid => (true, insert_pending_switch_sides_uuid now id uuid p)
  | Claimed now id uuid => remove_pending_switch_sides_uuid now id uuid p
  end.

(** The operations that were done so far, with their results, and what is waited for now. *)
Inductive switching : list (PendingOp * bool) -> Pending -> Prop :=
| switching_start : switching [] ∅
| switching_op log p op ok p' : switching log p -> pending_op op p = (ok, p') -> switching (log ++ [(op, ok)]) p'.

(** The last thing that happened with a peer's number. *)
Definition waits_for (log : list (PendingOp * bool)) (id : string) (t : Z) (uuid : list byte) : Prop :=
  exists l1 l2, log = l1 ++ (Asked t id uuid, true) :: l2 /\ forall now u ok, (Asked now id u, ok) ∉ l2 /\ (Claimed now id u, true) ∉ l2.

Lemma waits_for_snoc log id t uuid op ok :
  waits_for log id t uuid -> (forall now u, op <> Asked now id u) -> (ok = true -> forall now u, op <> Claimed now id u) ->
  waits_for (log ++ [(op, ok)]) id t uuid.
Proof.
  intros (l1 & l2 & -> & Hl) Ha Hc. exists l1, (l2 ++ [(op, ok)]). split; [by rewrite <- app_assoc|].
  intros now u b. rewrite !elem_of_app, !list_elem_of_singleton. destruct (Hl now u b) as [H1 H2].
  split; intros [?|[= <- <-]]; try done; [by eapply Ha|by eapply Hc].
Qed.

Lemma switching_waits log p : switching log p -> forall id t uuid, p !! id = Some (t, uuid) -> waits_for log id t uuid.
Proof.
  induction 1 as [|log p op ok p' _ IH E]; intros id t uuid Hp; [done|].
  destruct op as [now i u|now i u]; cbn in E.
  - injection E as <- <-. unfold insert_pending_switch_sides_uuid in Hp. apply lookup_insert_Some in Hp as [[-> [= -> ->]]|[Hne Hp]].
    + exists log, []. split; [done|]. intros. split; apply not_elem_of_nil.
    + apply map_lookup_filter_Some in Hp as [Hp _]. apply waits_for_snoc; [by apply IH|congruence|congruence].
  - unfold remove_pending_switch_sides_uuid in E. destruct (bool_decide _); injection E as <- <-.
    + apply lookup_delete_Some in Hp as [Hne Hp]. apply map_lookup_filter_Some in Hp as [Hp _].
      apply waits_for_snoc; [by apply IH|congruence|congruence].
    + apply map_lookup_filter_Some in Hp as [Hp _]. apply waits_for_snoc; [by apply IH|congruence|done].
Qed.

(** The other side may be taken over without a password only by who presents the number that
    the peer itself was last asked with, less than ten seconds ago, and only once: no earlier
    claim of that number was granted since. *)
Theorem switch_is_granted_once log p now id uuid p' :
  switching log p -> pending_op (Claimed now id uuid) p = (true, p') ->
  exists t, waits_for log id t uuid /\ now - t < SWITCH_SIDES_VALID_MS.
Proof.
  intros Hs E. cbn in E. unfold remove_pending_switch_sides_uuid in E. destruct (bool_decide _) eqn:Eb; [|done].
  apply bool_decide_eq_true in Eb. destruct (filter _ p !! id) as [[t u]|] eqn:Ef; [|done]. cbn in Eb. injection Eb as ->.
  apply map_lookup_filter_Some in Ef as [Hp Hv]. exists t. split; [by apply (switching_waits _ _ Hs)|exact Hv].
Qed.

Lemma switch_is_granted_once_witness :
  exists log p p', switching log p /\ pending_op (Claimed 9999 "a" [Byte.x01]) p = (true, p') /\
  exists t, waits_for log "a" t [Byte.x01] /\ 9999 - t < SWITCH_SIDES_VALID_MS.
Proof.
  eexists ([] ++ [(Asked 0 "a" [Byte.x01], true)]), _, _.
  assert (Hs : switching ([] ++ [(Asked 0 "a" [Byte.x01], true)]) (insert_pending_switch_sides_uuid 0 "a" [Byte.x01] ∅))
    by (apply (switching_op _ ∅); [constructor|reflexivity]).
  assert (E : pending_op (Claimed 9999 "a" [Byte.x01]) (insert_pending_switch_sides_uuid 0 "a" [Byte.x01] ∅) = (true, ∅)) by (vm_compute; reflexivity).
  split; [exact Hs|]. split; [exact E|]. exact (switch_is_granted_once _ _ _ _ _ _ Hs E).
Defined.
