(* ===== verification/InputKeys.v ===== *)
(** * Keys that are pressed for a peer (src/server/input_service.rs)

    How a key event of a session is carried out on the controlled side: which modifiers are
    put down and released around it, how the locks are brought to the peer's state and back,
    which text is typed and which is pasted, and the record of the keys that are down.

    The keyboard is that of enigo, behind its trait [KeyboardControllable], with the calls to
    rdev ([rdev_press], [rdev_release], by key code) on the same display. *)

From Stdlib Require Import Ascii.
From stdpp Require Import gmap strings.
From S2P Require Import Prelude TermBuffer Messages TypedText.

(** ** Keys *)

(** [enigo::Key], as far as [KEY_MAP] and this file name them. *)
Inductive Key : Type :=
| KAlt | KBackspace | KCapsLock | KControl | KDelete | KDownArrow | KEnd | KEscape
| KF1 | KF10 | KF11 | KF12 | KF2 | KF3 | KF4 | KF5 | KF6 | KF7 | KF8 | KF9
| KHome | KLeftArrow | KMeta | KOption | KPageDown | KPageUp | KReturn | KRightArrow | KShift | KSpace | KTab | KUpArrow
| KNumpad0 | KNumpad1 | KNumpad2 | KNumpad3 | KNumpad4 | KNumpad5 | KNumpad6 | KNumpad7 | KNumpad8 | KNumpad9
| KCancel | KClear | KPause | KKana | KHangul | KJunja | KFinal | KHanja | KKanji | KConvert | KSelect | KPrint | KExecute
| KSnapshot | KInsert | KHelp | KSleep | KSeparator | KScroll | KNumLock | KRWin | KApps | KMultiply | KAdd | KSubtract
| KDecimal | KDivide | KEquals | KNumpadEnter | KRightShift | KRightControl | KRightAlt
| KLayout (c : Z) | KRaw (code : Z).

#[export] Instance key_eq_dec : EqDecision Key.
Proof. solve_decision. Defined.

(** The values of [ControlKey] that this file names. *)
Definition CK_Alt : Z := 1.
Definition CK_CapsLock : Z := 3.
Definition CK_Control : Z := 4.
Definition CK_Meta : Z := 23.
Definition CK_Shift : Z := 29.
Definition CK_NumLock : Z := 63.
Definition CK_RWin : Z := 64.
Definition CK_RShift : Z := 73.
Definition CK_RControl : Z := 74.
Definition CK_RAlt : Z := 75.
Definition CK_CtrlAltDel : Z := 100.
Definition CK_LockScreen : Z := 101.

Definition KEY_MAP : gmap Z Key := list_to_map [
  (1, KAlt); (2, KBackspace); (3, KCapsLock); (4, KControl); (5, KDelete); (6, KDownArrow); (7, KEnd); (8, KEscape);
  (9, KF1); (10, KF10); (11, KF11); (12, KF12); (13, KF2); (14, KF3); (15, KF4); (16, KF5); (17, KF6); (18, KF7);
  (19, KF8); (20, KF9); (21, KHome); (22, KLeftArrow); (23, KMeta); (24, KOption); (25, KPageDown); (26, KPageUp);
  (27, KReturn); (28, KRightArrow); (29, KShift); (30, KSpace); (31, KTab); (32, KUpArrow);
  (33, KNumpad0); (34, KNumpad1); (35, KNumpad2); (36, KNumpad3); (37, KNumpad4); (38, KNumpad5); (39, KNumpad6);
  (40, KNumpad7); (41, KNumpad8); (42, KNumpad9); (43, KCancel); (44, KClear); (45, KAlt); (46, KPause); (47, KKana);
  (48, KHangul); (49, KJunja); (50, KFinal); (51, KHanja); (52, KKanji); (53, KConvert); (54, KSelect); (55, KPrint);
  (56, KExecute); (57, KSnapshot); (58, KInsert); (59, KHelp); (60, KSleep); (61, KSeparator); (62, KScroll);
  (63, KNumLock); (64, KRWin); (65, KApps); (66, KMultiply); (67, KAdd); (68, KSubtract); (69, KDecimal); (70, KDivide);
  (71, KEquals); (72, KNumpadEnter); (75, KRightAlt); (74, KRightControl); (73, KRightShift) ].

Definition control_key_value_to_key (value : Z) : option Key := KEY_MAP !! value.

(** [char::from_u32]. *)
Definition char_from_u32 (c : Z) : option Z :=
  if (0 <=? c) && (c <? 0x110000) && negb ((0xD800 <=? c) && (c <? 0xE000)) then Some c else None.
Definition char_value_to_key (value : Z) : Key := KLayout (default 0 (char_from_u32 value)).

(** A scalar in UTF-8, and the scalars of a text. *)
Definition encode_utf8 (c : Z) : list byte :=
  map u8_of_Z
    (if c <? 0x80 then [c]
     else if c <? 0x800 then [0xC0 + c / 64; 0x80 + c mod 64]
     else if c <? 0x10000 then [0xE0 + c / 4096; 0x80 + c / 64 mod 64; 0x80 + c mod 64]
     else [0xF0 + c / 262144; 0x80 + c / 4096 mod 64; 0x80 + c / 64 mod 64; 0x80 + c mod 64]).

Fixpoint chars (l : list byte) : list Z :=
  match l with
  | [] => []
  | a :: t =>
      let a := u8_to_Z a in
      if a <? 0x80 then a :: chars t
      else match t with
      | [] => []
      | b :: t =>
          let b := u8_to_Z b mod 64 in
          if a <? 0xE0 then (a mod 32) * 64 + b :: chars t
          else match t with
          | [] => []
          | c :: t =>
              let c := u8_to_Z c mod 64 in
              if a <? 0xF0 then ((a mod 16) * 64 + b) * 64 + c :: chars t
              else match t with
              | [] => []
              | d :: t => (((a mod 8) * 64 + b) * 64 + c) * 64 + u8_to_Z d mod 64 :: chars t
              end
          end
      end
  end.

(** Keys of rdev, as far as they are told apart. *)
Inductive RKey : Type :=
| ControlLeft | ControlRight | MetaLeft | MetaRight | ShiftLeft | ShiftRight | RdevAlt | AltGr | RdevTab | RdevReturn
| RdevKeypad | OtherKey.

Definition skip_led_sync_rdev_key (k : RKey) : bool := match k with RdevKeypad | OtherKey => false | _ => true end.
Definition is_numpad_rdev_key (k : RKey) : bool := match k with RdevKeypad => true | _ => false end.

(** Shift, Tab, Return, and left and right of Control, Alt and Shift, and the left Meta. *)
Definition skip_led_sync_control_key (v : Z) : bool := bool_decide (v ∈ [4; 74; 23; 29; 73; 1; 75; 31; 27]).
Definition is_numpad_control_key (v : Z) : bool := (33 <=? v) && (v <=? 42) || (v =? 72).

(** What [KEYS_DOWN] records: a key code of the display, or a control key or character. *)
Inductive KeysDown : Type := RdevKey (code : Z) | EnigoKey (n : Z).

#[export] Instance keys_down_eq_dec : EqDecision KeysDown.
Proof. solve_decision. Defined.
#[export] Instance keys_down_countable : Countable KeysDown.
Proof.
  apply (inj_countable' (fun k => match k with RdevKey c => inl c | EnigoKey n => inr n end)
    (fun x => match x with inl c => RdevKey c | inr n => EnigoKey n end)). by intros [].
Defined.

Definition KEY_CHAR_START : Z := 9999.

Definition record_key_is_control_key (n : Z) : bool := n <? KEY_CHAR_START.
Definition record_key_is_chr (n : Z) : bool := KEY_CHAR_START <=? n.
(** A record is an [u64]: the value of a control key is taken as [i32] again, a character as [u32]. *)
Definition record_key_to_key (n : Z) : option Key :=
  if record_key_is_control_key n then control_key_value_to_key (swrap 32 n)
  else if record_key_is_chr n then Some (char_value_to_key (wrap 32 (n - KEY_CHAR_START))) else None.

(** ** The keyboard *)

Class KeyboardControllable (En : Type) : Type := {
  get_key_state : Key -> En -> bool;
  en_key_sequence : list Z -> En -> En;
  en_key_down : Key -> En -> bool * En;
  en_key_up : Key -> En -> En;
  en_key_click : Key -> En -> En;
  rdev_press : Z -> En -> En;
  rdev_release : Z -> En -> En;
  linux_key_from_code : Z -> RKey;
  linux_code_of : RKey -> Z
}.

(** The machine: whether its display is X11; whether this is the process with the devices of
    its own ([is_server]); the time, also a moment later; whether a text could be put on the
    clipboard; and the capital letters of a text. *)
Record InputEnv : Type := mkInputEnv {
  is_x11 : bool; is_server : bool; now_ms : Z; later_ms : Z; clipboard_ok : bool; to_uppercase : list Z -> list Z }.

Section Keys.
Context {En : Type} `{!KeyboardControllable En}.
Variable e : InputEnv.

Record Input : Type := mkInput { en : En; keys_down : gmap KeysDown Z; exiting : bool; typed : records }.

Definition with_en (n : En) (s : Input) : Input := mkInput n (keys_down s) (exiting s) (typed s).
Definition on_en (f : En -> En) (s : Input) : Input := with_en (f (en s)) s.

Definition wayland_use_uinput : bool := negb (is_x11 e) && is_server e.
Definition wayland_use_rdp_input : bool := negb (is_x11 e) && negb (is_server e).

(** *** The record of keys that are down *)

Definition record_pressed_key (k : KeysDown) (down : bool) (s : Input) : Input :=
  mkInput (en s) (if down then <[k := now_ms e]> (keys_down s) else delete k (keys_down s)) (exiting s) (typed s).

Definition simulate_ (code : Z) (down : bool) : Input -> Input := on_en (if down then rdev_press code else rdev_release code).

Definition release_record_key (k : KeysDown) (s : Input) : Input :=
  match k with
  | RdevKey code => simulate_ code false s
  | EnigoKey n => match record_key_to_key n with Some key => on_en (en_key_up key) s | None => s end
  end.

(** The records in the order [l] in which the map is walked. *)
Definition fix_key_down_timeout_in (l : list (KeysDown * Z)) (force : bool) (s : Input) : Input :=
  foldl (fun s '(k, time) =>
    if force || (360000 <=? now_ms e - time) then release_record_key k (record_pressed_key k false s) else s) s l.
Definition fix_key_down_timeout (force : bool) (s : Input) : Input :=
  fix_key_down_timeout_in (map_to_list (keys_down s)) force s.

Definition fix_key_down_timeout_at_exit (s : Input) : Input :=
  if exiting s then s else fix_key_down_timeout true (mkInput (en s) (keys_down s) true (typed s)).

(** *** Modifiers *)

Definition get_modifier_state (key : Key) (n : En) : bool :=
  let x := get_key_state key n in
  match key with
  | KShift => x || get_key_state KRightShift n
  | KControl => x || get_key_state KRightControl n
  | KAlt => x || get_key_state KRightAlt n
  | KMeta => x || get_key_state KRWin n
  | KRightShift => x || get_key_state KShift n
  | KRightControl => x || get_key_state KControl n
  | KRightAlt => x || get_key_state KAlt n
  | KRWin => x || get_key_state KMeta n
  | _ => x
  end.

Definition release_device_modifiers (n : En) : En :=
  foldl (fun n m => if get_modifier_state m n then en_key_up m n else n) n
    [KShift; KControl; KAlt; KMeta; KRightShift; KRightControl; KRightAlt; KRWin].

Definition fix_modifier (modifiers : list Z) (key0 : Z) (key1 : Key) (n : En) : En :=
  if get_modifier_state key1 n && negb (bool_decide (key0 ∈ modifiers)) then en_key_up key1 n else n.

(** What [fix_modifiers] goes through: the control key, what has to be among the modifiers for
    it, and the key. *)
Definition FIXED : list (Z * Z * Key) :=
  [(CK_Shift, CK_Shift, KShift); (CK_RShift, CK_Shift, KRightShift); (CK_Alt, CK_Alt, KAlt); (CK_RAlt, CK_Alt, KRightAlt);
   (CK_Control, CK_Control, KControl); (CK_RControl, CK_Control, KRightControl); (CK_Meta, CK_Meta, KMeta); (CK_RWin, CK_Meta, KRWin)].

Definition fix_modifiers (modifiers : list Z) (ck : Z) (n : En) : En :=
  foldl (fun n '(own, key0, key1) => if negb (ck =? own) then fix_modifier modifiers key0 key1 n else n) n FIXED.

Definition get_control_key_value (evt : KeyEvent) : Z :=
  match key_union evt with Some (ControlKey v) => v | _ => -1 end.

Definition is_altgr_pressed (s : Input) : bool := bool_decide (is_Some (keys_down s !! RdevKey CK_RAlt)).

(** A modifier is put down unless it is down or left out; with the keyboard go the keys to
    release in the end. *)
Definition press_modifier (left_out : Key -> bool) (acc : En * list Key) (v : Z) : En * list Key :=
  let '(n, to_release) := acc in
  match control_key_value_to_key v with
  | None => (n, to_release)
  | Some key => if left_out key || get_modifier_state key n then (n, to_release) else (snd (en_key_down key n), to_release ++ [key])
  end.
Definition altgr_for_alt (s : Input) (key : Key) : bool := bool_decide (key = KAlt) && is_altgr_pressed s.
Definition press_modifiers (evt : KeyEvent) (s : Input) : Input * list Key :=
  let '(n, to_release) := foldl (press_modifier (altgr_for_alt s)) (en s, []) (key_modifiers evt) in (with_en n s, to_release).

Definition release_unpressed_modifiers (evt : KeyEvent) : Input -> Input :=
  on_en (fix_modifiers (key_modifiers evt) (get_control_key_value evt)).

Definition sync_modifiers (evt : KeyEvent) (s : Input) : Input * list Key :=
  if key_down evt then press_modifiers evt (release_unpressed_modifiers evt s) else (s, []).

Definition release_keys (keys : list Key) : Input -> Input := on_en (fun n => foldl (fun n k => en_key_up k n) n keys).

Definition is_hotkey_modifier_pressed (n : En) : bool :=
  get_modifier_state KControl n || get_modifier_state KRightControl n || get_modifier_state KAlt n
  || get_modifier_state KRightAlt n || get_modifier_state KMeta n || get_modifier_state KRWin n.

Definition release_shift_for_char_input (n : En) : En :=
  if is_hotkey_modifier_pressed n then n
  else
    let n := if get_modifier_state KShift n then (if negb (is_x11 e) then en_key_up KShift n else rdev_release (linux_code_of ShiftLeft) n) else n in
    if get_modifier_state KRightShift n then (if negb (is_x11 e) then en_key_up KRightShift n else rdev_release (linux_code_of ShiftRight) n) else n.

(** *** Text *)

Definition is_ascii_printable (c : Z) : bool := (0x20 <=? c) && (c <=? 0x7E).

(** [XKB_KEY_INSERT]. *)
Definition XKB_KEY_INSERT : Z := 118.

Definition input_text_via_clipboard_server (t : list byte) (s : Input) : Input :=
  if is_empty t then s
  else
    let '(ok, rs) := set_clipboard_for_paste_sync (is_x11 e) (now_ms e) (later_ms e) (clipboard_ok e) t (typed s) in
    let s := mkInput (en s) (keys_down s) (exiting s) rs in
    if negb ok then s
    else
      let '(shift, n) := en_key_down KShift (en s) in
      if negb shift then with_en n s
      else
        let '(insert, n) := en_key_down (KRaw XKB_KEY_INSERT) n in
        if negb insert then with_en (en_key_up KShift n) s
        else with_en (en_key_up KShift (en_key_up (KRaw XKB_KEY_INSERT) n)) s.
Definition input_char_via_clipboard_server (c : Z) : Input -> Input := input_text_via_clipboard_server (encode_utf8 c).

Definition process_control_key (v : Z) (down : bool) : Input -> Input :=
  match control_key_value_to_key v with
  | Some key => on_en (if down then fun n => snd (en_key_down key n) else en_key_up key)
  | None => fun s => s
  end.

Definition need_to_uppercase (n : En) : bool := get_modifier_state KShift n || get_modifier_state KCapsLock n.

(** A key of a character, down; a keyboard without it types the character. *)
Definition press_char (chr : Z) (n : En) : En :=
  let '(ok, n) := en_key_down (char_value_to_key chr) n in
  if ok then n
  else match char_from_u32 chr with
  | Some c => en_key_sequence (if need_to_uppercase n then to_uppercase e [c] else [c]) n
  | None => n
  end.

Definition process_chr (chr : Z) (down : bool) (s : Input) : Input :=
  if negb (is_x11 e) && wayland_use_uinput && negb (is_hotkey_modifier_pressed (en s)) then
    match char_from_u32 chr with
    | Some c =>
        if is_ascii_printable c then on_en (if down then fun n => snd (en_key_down (KLayout c) n) else en_key_up (KLayout c)) s
        else if down then input_char_via_clipboard_server c s else s
    | None => s
    end
  else on_en (if down then press_char chr else en_key_up (char_value_to_key chr)) s.

Definition process_unicode (chr : Z) (s : Input) : Input :=
  match char_from_u32 chr with
  | None => s
  | Some c =>
      if negb (is_x11 e) && wayland_use_uinput && negb (is_ascii_printable c) then input_char_via_clipboard_server c s
      else on_en (en_key_sequence [c]) s
  end.

Definition process_seq (t : list byte) (s : Input) : Input :=
  if negb (is_x11 e) && wayland_use_uinput && negb (forallb is_ascii_printable (chars t)) then input_text_via_clipboard_server t s
  else on_en (en_key_sequence (chars t)) s.

(** *** The modes *)

Definition is_function_key (v : Z) : bool := (v =? CK_CtrlAltDel) || (v =? CK_LockScreen).

Definition legacy_keyboard_mode (evt : KeyEvent) (s : Input) : Input :=
  let '(s, to_release) := sync_modifiers evt s in
  let down := key_down evt in
  match key_union evt with
  | Some (ControlKey v) =>
      if is_function_key v then s
      else release_keys to_release (process_control_key v down (record_pressed_key (EnigoKey (wrap 64 v)) down s))
  | Some (Chr chr) =>
      let s := on_en release_shift_for_char_input s in
      release_keys to_release (process_chr chr down (record_pressed_key (EnigoKey (chr + KEY_CHAR_START)) down s))
  | Some (Unicode chr) => release_keys to_release (process_unicode chr (on_en release_shift_for_char_input s))
  | Some (Seq t) => release_keys to_release (process_seq (String.list_byte_of_string t) s)
  | _ => release_keys to_release s
  end.

Definition sim_rdev_rawkey_position (code : Z) (down : bool) (s : Input) : Input :=
  simulate_ code down (record_pressed_key (RdevKey code) down s).

Definition wayland_send_raw_key (code : Z) (down : bool) : Input -> Input :=
  on_en (if down then fun n => snd (en_key_down (KRaw code) n) else en_key_up (KRaw code)).

Definition evt_chr (evt : KeyEvent) : Z := match key_union evt with Some (Chr c) => c | _ => 0 end.

Definition map_keyboard_mode (evt : KeyEvent) (s : Input) : Input :=
  if negb (is_x11 e) then wayland_send_raw_key (wrap 16 (evt_chr evt)) (key_down evt) s
  else sim_rdev_rawkey_position (evt_chr evt) (key_down evt) s.

Definition translate_seq (t : list byte) (s : Input) : Input :=
  if wayland_use_rdp_input then on_en (fun n => en_key_sequence (chars t) (release_shift_for_char_input n)) s
  else if wayland_use_uinput then
    if is_hotkey_modifier_pressed (en s) then on_en (fun n => foldl (fun n c => en_key_click (KLayout c) n) n (chars t)) s
    else
      let s := on_en release_shift_for_char_input s in
      if forallb is_ascii_printable (chars t) then on_en (en_key_sequence (chars t)) s
      else input_text_via_clipboard_server t s
  else on_en (fun n => foldl (fun n c => en_key_click (KLayout c) n) (release_shift_for_char_input n) (chars t)) s.

Definition translate_keyboard_mode (evt : KeyEvent) (s : Input) : Input :=
  match key_union evt with
  | Some (Seq t) => translate_seq (String.list_byte_of_string t) s
  | Some (Chr _) => map_keyboard_mode evt s
  | _ => s
  end.

(** *** The locks *)

Definition is_legacy_mode (evt : KeyEvent) : bool := negb ((1 <=? key_mode evt) && (key_mode evt <=? 3)).

Definition is_modifier_enabled (evt : KeyEvent) (v : Z) : bool := bool_decide (v ∈ key_modifiers evt).

Definition lock_to (wanted : bool) (lock : Key) (n : En) : bool * En :=
  if Bool.eqb wanted (get_key_state lock n) then (false, n) else (true, en_key_click lock n).

(** [LockModesHandler::new]: which locks were changed. *)
Definition new_handler (evt : KeyEvent) (is_numpad_key : bool) (s : Input) : bool * bool * Input :=
  let '(caps, n) := lock_to (is_modifier_enabled evt CK_CapsLock) KCapsLock (en s) in
  let '(num, n) := if is_numpad_key then lock_to (is_modifier_enabled evt CK_NumLock) KNumLock n else (false, n) in
  (caps, num, with_en n s).

Definition drop_handler (changed : bool * bool) : Input -> Input := on_en (fun n =>
  if wayland_use_uinput then n
  else
    let n := if fst changed then en_key_click KCapsLock n else n in
    if snd changed then en_key_click KNumLock n else n).

(** Whether the locks are set for the event, and whether also that of the numbers. *)
Definition led_sync (evt : KeyEvent) : option bool :=
  match key_union evt with
  | Some (Unicode _) | Some (Seq _) => Some false
  | Some (ControlKey v) =>
      if skip_led_sync_control_key v then None else Some (is_numpad_control_key v)
  | Some (Chr code) =>
      if is_legacy_mode evt then Some false
      else
        let key := linux_key_from_code code in
        if skip_led_sync_rdev_key key then None else Some (is_numpad_rdev_key key)
  | _ => None
  end.

Definition keyboard_mode (evt : KeyEvent) (s : Input) : Input :=
  if key_mode evt =? 1 then map_keyboard_mode evt s
  else if key_mode evt =? 2 then translate_keyboard_mode evt s
  else legacy_keyboard_mode evt s.

Definition handle_key_ (evt : KeyEvent) (s : Input) : Input :=
  if exiting s then s
  else match led_sync evt with
  | Some numpad =>
      let '(caps, num, s) := new_handler evt numpad s in drop_handler (caps, num) (keyboard_mode evt s)
  | None => keyboard_mode evt s
  end.

(** The screen is locked by a thread of its own, with the keys of the desktop. *)
Definition lock_screen (s : Input) : Input :=
  let evt := fun down => mkKey down false (Some (Chr 108)) 0 [CK_Meta] in
  handle_key_ (evt false) (handle_key_ (evt true) s).

(** [MessageInput::Key] of the input thread of a connection (connection.rs [handle_input]): a
    key that is pressed goes down and up. *)
Definition input_key (evt : KeyEvent) (press : bool) (s : Input) : Input :=
  let with_down := fun d => mkKey d false (key_union evt) (key_mode evt) (key_modifiers evt) in
  let s := handle_key_ (with_down (press || key_down evt)) s in
  if press then handle_key_ (with_down false) s else s.
End Keys.
Arguments Input En : clear implicits.
