(* ===== verification/InputSafe.v ===== *)
(** * Keys are released, and modifiers are those of the event

    Theorems about [InputKeys] on X11: what is down is recorded, so that it is released in the
    end; and a key is typed with the modifiers of its event, which do not outlast it. *)

From stdpp Require Import gmap strings.
From S2P Require Import Prelude TermBuffer Messages TypedText InputKeys.

(** ** What the keyboard does

    [held]: the keys of the display that are down, by code, when nobody else types.  A keyboard
    tells whether one of the two keys of a modifier is down; a click puts a key down and up;
    text is typed without leaving a key down.  [lock] stands for the locks. *)

Definition MODIFIERS : list Key := [KShift; KRightShift; KAlt; KRightAlt; KControl; KRightControl; KMeta; KRWin].

(** The modifiers: what an event calls them, and their keys. *)
Definition GROUPS : list (Z * Key * Key) :=
  [(CK_Shift, KShift, KRightShift); (CK_Alt, KAlt, KRightAlt); (CK_Control, KControl, KRightControl); (CK_Meta, KMeta, KRWin)].

Class KeyboardLaws (En : Type) `{!KeyboardControllable En} : Type := {
  keycode : Key -> Z;
  held : En -> gset Z;
  held_down k n : held (snd (en_key_down k n)) = if fst (en_key_down k n) then {[keycode k]} ∪ held n else held n;
  held_up k n : held (en_key_up k n) = held n ∖ {[keycode k]};
  held_click k n : held (en_key_click k n) = held n ∖ {[keycode k]};
  held_sequence t n : held (en_key_sequence t n) ⊆ held n;
  held_press c n : held (rdev_press c n) = {[c]} ∪ held n;
  held_release c n : held (rdev_release c n) = held n ∖ {[c]};
  modifier_state k0 l r n : (k0, l, r) ∈ GROUPS ->
    get_key_state l n || get_key_state r n = bool_decide (keycode l ∈ held n \/ keycode r ∈ held n);
  keycode_modifier k k' : k ∈ MODIFIERS -> keycode k' = keycode k -> k' = k \/ exists c, k' = KRaw c;
  modifier_goes_down k n : k ∈ MODIFIERS -> fst (en_key_down k n) = true;
  lock_click lock k n : lock ∈ [KCapsLock; KNumLock] ->
    get_key_state lock (en_key_click k n) = xorb (bool_decide (k = lock)) (get_key_state lock n);
  lock_down lock k n : lock ∈ [KCapsLock; KNumLock] -> k <> lock -> get_key_state lock (snd (en_key_down k n)) = get_key_state lock n;
  lock_up lock k n : lock ∈ [KCapsLock; KNumLock] -> get_key_state lock (en_key_up k n) = get_key_state lock n;
  lock_sequence lock t n : lock ∈ [KCapsLock; KNumLock] -> get_key_state lock (en_key_sequence t n) = get_key_state lock n;
  lock_press lock c n : lock ∈ [KCapsLock; KNumLock] -> c <> keycode lock -> get_key_state lock (rdev_press c n) = get_key_state lock n;
  lock_release lock c n : lock ∈ [KCapsLock; KNumLock] -> get_key_state lock (rdev_release c n) = get_key_state lock n
}.

Lemma key_map_key v k : KEY_MAP !! v = Some k -> 0 < v < 76 /\ (forall c, k <> KRaw c) /\ (forall c, k <> KLayout c).
Proof.
  intros H. unfold KEY_MAP in H. apply elem_of_list_to_map_2 in H. revert H.
  rewrite !elem_of_cons. intros H.
  repeat match type of H with _ \/ _ => destruct H as [H|H] end; try (injection H as -> ->; split; [lia|split; discriminate]).
  by apply not_elem_of_nil in H.
Qed.

Section Held.
Context {En : Type} `{!KeyboardControllable En} `{!KeyboardLaws En}.
(** ** Quiet operations put no key down and record none *)

Definition quiet (f : En -> En) : Prop := forall n, held (f n) ⊆ held n.

Lemma quiet_fold {A} (f : En -> A -> En) l : (forall a, quiet (fun n => f n a)) -> quiet (fun n => foldl f n l).
Proof. intros Hf. induction l as [|a l IH]; intros n; cbn; [done|]. etrans; [apply IH|apply (Hf a)]. Qed.

Lemma quiet_up k : quiet (en_key_up k).
Proof. intros n. rewrite held_up. set_solver. Qed.
Lemma quiet_click k : quiet (en_key_click k).
Proof. intros n. rewrite held_click. set_solver. Qed.
Lemma quiet_release c : quiet (rdev_release c).
Proof. intros n. rewrite held_release. set_solver. Qed.

Lemma quiet_fix ms ck : quiet (fix_modifiers ms ck).
Proof.
  apply quiet_fold. intros [[own k0] k1] n. destruct (negb _); [|done]. unfold fix_modifier. destruct (_ && _); [apply quiet_up|done].
Qed.

Lemma quiet_lock w lock n : held (snd (lock_to w lock n)) ⊆ held n.
Proof. unfold lock_to. destruct (Bool.eqb _ _); [done|apply quiet_click]. Qed.

Lemma press_modifiers_held skip ms : forall n rel,
  let '(n', rel') := foldl (press_modifier skip) (n, rel) ms in
  (forall k, k ∈ rel -> k ∈ rel') /\
  forall c, c ∈ held n' -> c ∈ held n \/ exists k, k ∈ rel' /\ keycode k = c.
Proof.
  induction ms as [|v ms IH]; intros n rel; cbn [foldl]; [auto|].
  destruct (press_modifier skip (n, rel) v) as [n1 rel1] eqn:E. specialize (IH n1 rel1). destruct (foldl _ _ _) as [n2 rel2].
  destruct IH as [Hr Hh]. unfold press_modifier in E. destruct (control_key_value_to_key v) as [k|]; [|by injection E as <- <-].
  destruct (skip k || get_modifier_state k n); [by injection E as <- <-|]. injection E as <- <-.
  split; [intros; apply Hr, elem_of_app; auto|]. intros c Hc. destruct (Hh c Hc) as [H|H]; [|by right]. rewrite held_down in H.
  destruct (fst _); [|by left]. apply elem_of_union in H as [H|H]; [|by left]. apply elem_of_singleton in H as ->.
  right. exists k. split; [apply Hr, elem_of_app; right; apply list_elem_of_singleton|]; done.
Qed.

Lemma release_keys_held keys : forall n c,
  c ∈ held (foldl (fun n k => en_key_up k n) n keys) -> c ∈ held n /\ forall k, k ∈ keys -> keycode k <> c.
Proof.
  induction keys as [|k keys IH]; intros n c Hc; cbn in Hc; [split; [done|by intros ? ?%not_elem_of_nil]|].
  apply IH in Hc as [Hc Hk]. rewrite held_up in Hc. split; [set_solver|]. intros k' [->|Hin]%elem_of_cons; [set_solver|by apply Hk].
Qed.

Variable e : InputEnv.
Hypothesis x11 : is_x11 e = true.

Lemma quiet_shift : quiet (release_shift_for_char_input e).
Proof.
  intros n. unfold release_shift_for_char_input. destruct (is_hotkey_modifier_pressed n); [done|]. rewrite x11. cbn [negb].
  repeat case_match; rewrite ?held_release; set_solver.
Qed.

(** ** What an event leaves down *)

(** Its own key, by code. *)
Definition own_code (evt : KeyEvent) : option Z :=
  if key_mode evt =? 1 then Some (evt_chr evt)
  else if key_mode evt =? 2 then match key_union evt with Some (Chr c) => Some c | _ => None end
  else match key_union evt with
  | Some (ControlKey v) => if is_function_key v then None else keycode <$> control_key_value_to_key v
  | Some (Chr c) => Some (keycode (char_value_to_key c))
  | _ => None
  end.

(** The keys of the modifiers are released again; [mid] is what is done with the key itself. *)
Lemma sync_then_release evt s (mid : Input En -> Input En) (own : option Z) :
  (forall s1 c, c ∈ held (en (mid s1)) -> (c ∈ held (en s1) /\ (key_down evt = false -> own <> Some c)) \/ (key_down evt = true /\ own = Some c)) ->
  forall c, c ∈ held (en (let '(s1, rel) := sync_modifiers evt s in release_keys rel (mid s1))) ->
  (c ∈ held (en s) /\ (key_down evt = false -> own <> Some c)) \/ (key_down evt = true /\ own = Some c).
Proof.
  intros Hmid c. unfold sync_modifiers. destruct (key_down evt) eqn:Ed; [|apply Hmid].
  unfold press_modifiers, release_unpressed_modifiers, on_en. cbn [en with_en].
  pose proof (press_modifiers_held (altgr_for_alt (with_en (fix_modifiers (key_modifiers evt) (get_control_key_value evt) (en s)) s)) (key_modifiers evt)
    (fix_modifiers (key_modifiers evt) (get_control_key_value evt) (en s)) []) as Hp.
  destruct (foldl _ _ _) as [n rel]. destruct Hp as [_ Hp]. unfold release_keys, on_en. cbn [en with_en].
  intros [Hc Hk]%release_keys_held. apply Hmid in Hc as [[Hc _]|Hc]; [|by right]. cbn [en with_en] in Hc.
  left. split; [|done]. destruct (Hp c Hc) as [H|(k & Hin & Hk')]; [by apply quiet_fix in H|]. by destruct (Hk k Hin).
Qed.

Lemma press_char_held chr n : held (press_char e chr n) ⊆ {[keycode (char_value_to_key chr)]} ∪ held n.
Proof.
  unfold press_char. destruct (en_key_down (char_value_to_key chr) n) as [ok n1] eqn:E.
  pose proof (held_down (char_value_to_key chr) n) as Hd. rewrite E in Hd. cbn in Hd.
  destruct ok; [by rewrite Hd|]. destruct (char_from_u32 chr); [|rewrite Hd; set_solver].
  etrans; [apply held_sequence|]. rewrite Hd. set_solver.
Qed.

Lemma no_uinput : wayland_use_uinput e = false.
Proof. unfold wayland_use_uinput. by rewrite x11. Qed.

Lemma legacy_held evt s c :
  key_mode evt <> 1 -> key_mode evt <> 2 ->
  (forall v, key_union evt = Some (ControlKey v) -> is_function_key v = true -> key_down evt = true -> key_modifiers evt = []) ->
  c ∈ held (en (legacy_keyboard_mode e evt s)) ->
  (c ∈ held (en s) /\ (key_down evt = false -> own_code evt <> Some c)) \/ (key_down evt = true /\ own_code evt = Some c).
Proof.
  intros Hm1 Hm2 Hf Hc. unfold legacy_keyboard_mode in Hc. apply Z.eqb_neq in Hm1, Hm2.
  assert (Hq : forall (mid : Input En -> Input En), own_code evt = None -> (forall s1, held (en (mid s1)) ⊆ held (en s1)) ->
     c ∈ held (en (let '(s1, rel) := sync_modifiers evt s in release_keys rel (mid s1))) ->
     (c ∈ held (en s) /\ (key_down evt = false -> own_code evt <> Some c)) \/ (key_down evt = true /\ own_code evt = Some c)).
  { intros mid Hn Hmid. apply sync_then_release. intros s1 c' H. left. split; [by apply Hmid|]. by rewrite Hn. }
  unfold own_code in *. rewrite Hm1, Hm2 in *. destruct (key_union evt) as [[v|chr|chr|t|w]|] eqn:Eu.
  - destruct (is_function_key v) eqn:Ef.
    + left. split; [|done]. specialize (Hf v eq_refl Ef). revert Hc. unfold sync_modifiers. destruct (key_down evt); [|done].
      unfold press_modifiers. rewrite Hf by done. cbn. apply quiet_fix.
    + revert Hc. apply (sync_then_release evt s (fun s => process_control_key v (key_down evt) (record_pressed_key e (EnigoKey (wrap 64 v)) (key_down evt) s))).
      intros s1 c'. unfold process_control_key. destruct (control_key_value_to_key v) as [k|]; [|cbn; auto]. cbn.
      destruct (key_down evt); cbn; [rewrite held_down; destruct (fst _); set_solver|rewrite held_up]. intros [? ?]%elem_of_difference. left. set_solver.
  - revert Hc. apply (sync_then_release evt s (fun s => process_chr e chr (key_down evt) (record_pressed_key e (EnigoKey (chr + KEY_CHAR_START)) (key_down evt) (on_en (release_shift_for_char_input e) s)))).
    intros s1 c'. unfold process_chr. rewrite no_uinput, andb_false_r. cbn [andb]. unfold on_en. cbn [en with_en record_pressed_key].
    destruct (key_down evt).
    + intros H%press_char_held. apply elem_of_union in H as [H|H%quiet_shift]; [right; set_solver|left; auto].
    + rewrite held_up. intros [H%quiet_shift Hn]%elem_of_difference. left. split; [done|]. set_solver.
  - revert Hc. apply (Hq (fun s => process_unicode e chr (on_en (release_shift_for_char_input e) s))); [done|]. intros s1. unfold process_unicode.
    destruct (char_from_u32 chr); [|apply quiet_shift]. rewrite no_uinput, andb_false_r. cbn. etrans; [apply held_sequence|apply quiet_shift].
  - revert Hc. apply (Hq (fun s => process_seq e (String.list_byte_of_string t) s)); [done|]. intros s1. unfold process_seq.
    rewrite no_uinput, andb_false_r. cbn. apply held_sequence.
  - revert Hc. by apply (Hq (fun s => s)).
  - revert Hc. by apply (Hq (fun s => s)).
Qed.

(** What may come to be down through an event: only its own key, by its going down; and an
    event of its going up leaves it up. *)
Definition leaves (evt : KeyEvent) (f : Input En -> Input En) : Prop :=
  forall s c, c ∈ held (en (f s)) ->
  (c ∈ held (en s) /\ (key_down evt = false -> own_code evt <> Some c)) \/ (key_down evt = true /\ own_code evt = Some c).

(** The keys of modifiers go along with locking the screen and the like. *)
Definition plain (evt : KeyEvent) : Prop :=
  forall v, key_union evt = Some (ControlKey v) -> is_function_key v = true -> key_down evt = true -> key_modifiers evt = [].

Lemma raw_leaves evt c : own_code evt = Some c -> leaves evt (sim_rdev_rawkey_position e c (key_down evt)).
Proof.
  intros Ho s c'. unfold sim_rdev_rawkey_position, simulate_, on_en. cbn [en with_en record_pressed_key]. rewrite Ho.
  destruct (key_down evt); [rewrite held_press|rewrite held_release]; set_solver.
Qed.

Lemma mode_leaves evt : plain evt -> leaves evt (keyboard_mode e evt).
Proof.
  intros Hp. unfold keyboard_mode. destruct (key_mode evt =? 1) eqn:E1.
  - assert (Ho : own_code evt = Some (evt_chr evt)) by (unfold own_code; by rewrite E1).
    unfold map_keyboard_mode. rewrite x11. cbn [negb]. by apply raw_leaves.
  - destruct (key_mode evt =? 2) eqn:E2.
    + intros s c. unfold translate_keyboard_mode.
      assert (Hq : forall s', own_code evt = None -> held (en s') ⊆ held (en s) -> c ∈ held (en s') ->
         (c ∈ held (en s) /\ (key_down evt = false -> own_code evt <> Some c)) \/ (key_down evt = true /\ own_code evt = Some c)).
      { intros s' Hn Hs Hc. left. split; [by apply Hs|by rewrite Hn]. }
      assert (Ho : own_code evt = match key_union evt with Some (Chr c) => Some c | _ => None end) by (unfold own_code; by rewrite E1, E2).
      destruct (key_union evt) as [[v|chr|chr|t|w]|] eqn:Eu; try (by apply Hq).
      * unfold map_keyboard_mode. rewrite x11. cbn [negb]. apply raw_leaves. unfold evt_chr. by rewrite Eu.
      * apply Hq; [done|]. unfold translate_seq, wayland_use_rdp_input. rewrite no_uinput, x11. cbn.
        etrans; [|apply quiet_shift]. apply (quiet_fold (fun n c => en_key_click (KLayout c) n)). intros a n. apply quiet_click.
    + intros s c. apply legacy_held; [by apply Z.eqb_neq|by apply Z.eqb_neq|exact Hp].
Qed.

Lemma handler_quiet evt numpad s :
  let '(caps, num, s') := new_handler evt numpad s in held (en s') ⊆ held (en s) /\ keys_down s' = keys_down s /\ exiting s' = exiting s.
Proof.
  unfold new_handler. pose proof (quiet_lock (is_modifier_enabled evt CK_CapsLock) KCapsLock (en s)) as H1.
  destruct (lock_to _ KCapsLock _) as [caps n]. cbn in H1. destruct numpad; [|done].
  pose proof (quiet_lock (is_modifier_enabled evt CK_NumLock) KNumLock n) as H2. destruct (lock_to _ KNumLock _) as [num n']. cbn in *.
  split_and!; [by etrans|done|done].
Qed.

Lemma drop_quiet changed s : held (en (drop_handler e changed s)) ⊆ held (en s).
Proof. unfold drop_handler, on_en. cbn. rewrite no_uinput. repeat case_match; rewrite ?held_click; set_solver. Qed.

Lemma handle_leaves evt s c : plain evt -> exiting s = false -> c ∈ held (en (handle_key_ e evt s)) ->
  (c ∈ held (en s) /\ (key_down evt = false -> own_code evt <> Some c)) \/ (key_down evt = true /\ own_code evt = Some c).
Proof.
  intros Hp Ee. unfold handle_key_. rewrite Ee. destruct (led_sync evt) as [numpad|]; [|by apply mode_leaves].
  pose proof (handler_quiet evt numpad s) as Hh. destruct (new_handler evt numpad s) as [[caps num] s1]. destruct Hh as (Hh & _ & _).
  intros Hc%drop_quiet. apply mode_leaves in Hc as [[Hc Hu]|Hc]; [left|by right|done]. split; [by apply Hh|done].
Qed.

(** ** What an event records *)

Definition own_record (evt : KeyEvent) : option KeysDown :=
  if key_mode evt =? 1 then Some (RdevKey (evt_chr evt))
  else if key_mode evt =? 2 then match key_union evt with Some (Chr c) => Some (RdevKey c) | _ => None end
  else match key_union evt with
  | Some (ControlKey v) => if is_function_key v then None else Some (EnigoKey (wrap 64 v))
  | Some (Chr c) => Some (EnigoKey (c + KEY_CHAR_START))
  | _ => None
  end.

Definition recorded (evt : KeyEvent) (kd : gmap KeysDown Z) : gmap KeysDown Z :=
  match own_record evt with
  | Some k => if key_down evt then <[k := now_ms e]> kd else delete k kd
  | None => kd
  end.

Definition frame (s : Input En) : gmap KeysDown Z * bool := (keys_down s, exiting s).

Lemma sync_frame evt s : frame (fst (sync_modifiers evt s)) = frame s.
Proof. unfold sync_modifiers. destruct (key_down evt); [|done]. unfold press_modifiers. by destruct (foldl _ _ _). Qed.

Lemma mode_frame evt s : frame (keyboard_mode e evt s) = (recorded evt (keys_down s), exiting s).
Proof.
  unfold keyboard_mode, recorded, own_record. destruct (key_mode evt =? 1).
  { unfold map_keyboard_mode. by rewrite x11. }
  destruct (key_mode evt =? 2).
  { unfold translate_keyboard_mode, translate_seq, map_keyboard_mode, wayland_use_rdp_input. rewrite no_uinput, x11. cbn [negb andb].
    destruct (key_union evt) as [[v|chr|chr|t|w]|] eqn:Eu; try done. unfold evt_chr. by rewrite Eu. }
  unfold legacy_keyboard_mode. pose proof (sync_frame evt s) as Hs. destruct (sync_modifiers evt s) as [s1 rel].
  unfold frame in *. cbn in Hs. injection Hs as Hk Hx.
  unfold process_chr, process_unicode, process_seq, process_control_key. rewrite no_uinput, !andb_false_r. cbn [andb].
  destruct (key_union evt) as [[v|chr|chr|t|w]|]; cbn; rewrite ?Hk, ?Hx; try done.
  - destruct (is_function_key v); [by rewrite Hk, Hx|]. destruct (control_key_value_to_key v); cbn; by rewrite Hk, Hx.
  - destruct (char_from_u32 chr); cbn; by rewrite Hk, Hx.
Qed.

Lemma handle_frame evt s : exiting s = false -> frame (handle_key_ e evt s) = (recorded evt (keys_down s), false).
Proof.
  intros Ee. unfold handle_key_. rewrite Ee. destruct (led_sync evt) as [numpad|]; [|by rewrite mode_frame, Ee].
  pose proof (handler_quiet evt numpad s) as Hh. destruct (new_handler evt numpad s) as [[caps num] s1]. destruct Hh as (_ & Hk & Hx).
  change (frame (drop_handler e (caps, num) (keyboard_mode e evt s1))) with (frame (keyboard_mode e evt s1)). by rewrite mode_frame, Hk, Hx, Ee.
Qed.

(** ** All that is down is recorded *)

Definition code_of (k : KeysDown) : option Z :=
  match k with RdevKey c => Some c | EnigoKey n => keycode <$> record_key_to_key n end.

Definition accounted (s : Input En) : Prop :=
  forall c, c ∈ held (en s) -> exists k t, keys_down s !! k = Some t /\ code_of k = Some c.

(** Codes of characters are [u32]; of control keys the protocol names those up to 101. *)
Definition event_ok (evt : KeyEvent) : Prop :=
  plain evt /\ match key_union evt with Some (Chr c) => 0 <= c < 2 ^ 32 | Some (ControlKey v) => 0 <= v < KEY_CHAR_START | _ => True end.

Lemma record_of_control v : 0 <= v < KEY_CHAR_START -> record_key_to_key (wrap 64 v) = control_key_value_to_key v.
Proof.
  unfold KEY_CHAR_START. intros Hr.
  unfold record_key_to_key, record_key_is_control_key, control_key_value_to_key, KEY_CHAR_START, wrap, swrap.
  rewrite (Z.mod_small v (2 ^ 64)) by lia. destruct (Z.ltb_spec v 9999); [|lia]. rewrite (Z.mod_small v (2 ^ 32)) by lia.
  by destruct (Z.ltb_spec v (2 ^ (32 - 1))); [|lia].
Qed.

Lemma record_of_chr c : 0 <= c < 2 ^ 32 -> record_key_to_key (c + KEY_CHAR_START) = Some (char_value_to_key c).
Proof.
  intros Hc. unfold record_key_to_key, record_key_is_control_key, record_key_is_chr, KEY_CHAR_START, wrap.
  destruct (Z.ltb_spec (c + 9999) 9999); [lia|]. destruct (Z.leb_spec 9999 (c + 9999)); [|lia].
  replace (c + 9999 - 9999) with c by lia. by rewrite Z.mod_small by lia.
Qed.

(** The record of an event stands for its own key. *)
Lemma own_code_record evt c : event_ok evt -> own_code evt = Some c -> exists k, own_record evt = Some k /\ code_of k = Some c.
Proof.
  intros [_ Hok] Hc. unfold own_code, own_record in *. destruct (key_mode evt =? 1); [injection Hc as <-; by eexists|].
  destruct (key_mode evt =? 2).
  - destruct (key_union evt) as [[]|]; try done. injection Hc as <-. by eexists.
  - destruct (key_union evt) as [[v|chr|chr|t|w]|]; try done.
    + destruct (is_function_key v); [done|]. eexists. split; [done|]. cbn. by rewrite record_of_control.
    + injection Hc as <-. eexists. split; [done|]. cbn. by rewrite record_of_chr.
Qed.

Lemma record_own_code evt k c : event_ok evt -> own_record evt = Some k -> code_of k = Some c -> own_code evt = Some c.
Proof.
  intros [_ Hok] Hk Hc. unfold own_code, own_record in *. destruct (key_mode evt =? 1); [injection Hk as <-; exact Hc|].
  destruct (key_mode evt =? 2).
  - destruct (key_union evt) as [[]|]; try done. injection Hk as <-. exact Hc.
  - destruct (key_union evt) as [[v|chr|chr|t|w]|]; try done.
    + destruct (is_function_key v); [done|]. injection Hk as <-. cbn in Hc. by rewrite record_of_control in Hc.
    + injection Hk as <-. cbn in Hc. by rewrite record_of_chr in Hc.
Qed.

Lemma handle_accounted evt s : event_ok evt -> accounted s -> accounted (handle_key_ e evt s).
Proof.
  intros Hok Ha. destruct (exiting s) eqn:Ee; [unfold handle_key_; by rewrite Ee|]. intros c Hc.
  pose proof (handle_frame evt s Ee) as Hf. injection Hf as Hk _. rewrite Hk. unfold recorded.
  apply handle_leaves in Hc as [[Hc Hu]|[Hd Ho]]; [| |by destruct Hok|done].
  - destruct (Ha c Hc) as (k & t & Hl & Hcode). destruct (own_record evt) as [k'|] eqn:Er; [|eauto].
    destruct (key_down evt) eqn:Ed.
    + destruct (decide (k' = k)) as [->|Hne]; [exists k, (now_ms e); by rewrite lookup_insert_eq|].
      exists k, t. by rewrite lookup_insert_ne.
    + exists k, t. rewrite lookup_delete_ne; [done|]. intros ->. apply (Hu eq_refl). by eapply record_own_code.
  - destruct (own_code_record evt c Hok Ho) as (k & -> & Hcode). rewrite Hd. exists k, (now_ms e). by rewrite lookup_insert_eq.
Qed.

(** ** What is too long down is released *)

Lemma fix_in_held l force : forall s c, c ∈ held (en (fix_key_down_timeout_in e l force s)) ->
  c ∈ held (en s) /\ forall k t, (k, t) ∈ l -> code_of k = Some c -> force = false /\ now_ms e - t < 360000.
Proof.
  induction l as [|[k t] l IH]; intros s c Hc; [split; [done|by intros ? ? ?%not_elem_of_nil]|].
  cbn [fix_key_down_timeout_in foldl] in Hc. apply IH in Hc as [Hc Hl].
  destruct (force || (360000 <=? now_ms e - t)) eqn:Ex.
  - assert (Hr : c ∈ held (en s) /\ code_of k <> Some c).
    { destruct k as [code|n]; unfold release_record_key, simulate_, on_en in Hc; cbn in Hc |- *; [rewrite held_release in Hc; set_solver|].
      destruct (record_key_to_key n) as [key|]; cbn in Hc |- *; [rewrite held_up in Hc; set_solver|done]. }
    split; [apply Hr|]. intros k' t' [[= -> ->]|Hin]%elem_of_cons Hcode; [by destruct Hr|by eapply Hl].
  - apply orb_false_iff in Ex as [-> Ex]. apply Z.leb_gt in Ex. split; [done|].
    intros k' t' [[= -> ->]|Hin]%elem_of_cons Hcode; [done|by eapply Hl].
Qed.

Lemma fix_in_keys l force : forall s, keys_down (fix_key_down_timeout_in e l force s) ⊆ keys_down s.
Proof.
  induction l as [|[k t] l IH]; intros s; cbn; [done|]. etrans; [apply IH|]. destruct (_ || _); [|done].
  destruct k as [code|n]; cbn; [apply delete_subseteq|]. destruct (record_key_to_key n); apply delete_subseteq.
Qed.

Lemma fix_in_keeps l force k : forall s : Input En,
  (forall t, (k, t) ∈ l -> force = false /\ now_ms e - t < 360000) -> keys_down (fix_key_down_timeout_in e l force s) !! k = keys_down s !! k.
Proof.
  induction l as [|[k' t] l IH]; intros s Hl; [done|]. cbn [fix_key_down_timeout_in foldl]. 
  unfold fix_key_down_timeout_in in IH. rewrite IH by (intros t' Hin; apply Hl; by right).
  destruct (force || (360000 <=? now_ms e - t)) eqn:Ex; [|done].
  assert (Hne : k' <> k).
  { intros ->. destruct (Hl t) as [-> Ht]; [by left|]. cbn in Ex. apply Z.leb_le in Ex. lia. }
  destruct k' as [code|n]; cbn; [|destruct (record_key_to_key n); cbn]; by rewrite lookup_delete_ne.
Qed.

Lemma fix_held force s c : c ∈ held (en (fix_key_down_timeout e force s)) ->
  c ∈ held (en s) /\ forall k t, keys_down s !! k = Some t -> code_of k = Some c -> force = false /\ now_ms e - t < 360000.
Proof. intros [Hc Hl]%fix_in_held. split; [done|]. intros k t Hk. apply Hl. by apply elem_of_map_to_list. Qed.

Lemma fix_accounted force s : accounted s -> accounted (fix_key_down_timeout e force s).
Proof.
  intros Ha c [Hc Hl]%fix_held. destruct (Ha c Hc) as (k & t & Hk & Hcode). exists k, t. split; [|done].
  unfold fix_key_down_timeout. rewrite fix_in_keeps; [done|]. intros t' Hin%elem_of_map_to_list.
  rewrite Hk in Hin. injection Hin as <-. by apply (Hl k t).
Qed.
End Held.

(** ** Over time *)

(** An event of a peer; the check of every ten seconds; nobody watches the cursor any more, which
    is when the last session has ended ([StateCursor::reset]); the program ends. *)
Inductive input_event : Type := Handles (e : InputEnv) (evt : KeyEvent) | Checks (e : InputEnv) | Resets (e : InputEnv) | Exits (e : InputEnv).

Section Over.
Context {En : Type} `{!KeyboardControllable En} `{!KeyboardLaws En}.

Definition input_step (s : Input En) (ev : input_event) : Input En :=
  match ev with
  | Handles e evt => handle_key_ e evt s
  | Checks e => fix_key_down_timeout e false s
  | Resets e => fix_key_down_timeout e true s
  | Exits e => fix_key_down_timeout_at_exit e s
  end.
Definition input_run (evs : list input_event) (s : Input En) : Input En := foldl input_step s evs.

Definition input_ok (ev : input_event) : Prop :=
  match ev with Handles e evt => is_x11 e = true /\ event_ok evt | Checks e | Resets e | Exits e => is_x11 e = true end.

(** A key event that put this record down at this time. *)
Definition put_down (evs : list input_event) (k : KeysDown) (t : Z) : Prop :=
  exists e evt, Handles e evt ∈ evs /\ key_down evt = true /\ own_record evt = Some k /\ now_ms e = t.

Lemma run_snoc evs ev s : input_run (evs ++ [ev]) s = input_step (input_run evs s) ev.
Proof. unfold input_run. by rewrite foldl_app. Qed.

Lemma put_down_snoc evs ev k t : put_down evs k t -> put_down (evs ++ [ev]) k t.
Proof. intros (e & evt & Hin & H). exists e, evt. split; [apply elem_of_app; by left|done]. Qed.

Lemma run_accounted evs s : Forall input_ok evs -> accounted s -> keys_down s = ∅ ->
  accounted (input_run evs s) /\ forall k t, keys_down (input_run evs s) !! k = Some t -> put_down evs k t.
Proof.
  intros Hok Ha Hk. induction evs as [|ev evs IH] using rev_ind; [split; [done|cbn; by rewrite Hk]|].
  apply Forall_app in Hok as [Hok [Hev _]%Forall_cons]. destruct (IH Hok) as [IHa IHk]. rewrite run_snoc. destruct ev as [e evt|e|e|e]; cbn [input_step].
  - destruct Hev as [Hx He]. split; [by apply (handle_accounted e Hx)|]. intros k t Hl.
    destruct (exiting (input_run evs s)) eqn:Ee; [unfold handle_key_ in Hl; rewrite Ee in Hl; by apply put_down_snoc, IHk|].
    pose proof (handle_frame e Hx evt _ Ee) as Hf. injection Hf as Hf _. rewrite Hf in Hl. unfold recorded in Hl.
    destruct (own_record evt) as [k'|] eqn:Er; [|by apply put_down_snoc, IHk]. destruct (key_down evt) eqn:Ed.
    + apply lookup_insert_Some in Hl as [[-> <-]|[_ Hl]]; [|by apply put_down_snoc, IHk].
      exists e, evt. split; [apply elem_of_app; right; by apply list_elem_of_singleton|done].
    + apply lookup_delete_Some in Hl as [_ Hl]. by apply put_down_snoc, IHk.
  - split; [by apply (fix_accounted e Hev)|]. intros k t Hl. eapply put_down_snoc, IHk, lookup_weaken; [exact Hl|apply (fix_in_keys e)].
  - split; [by apply (fix_accounted e Hev)|]. intros k t Hl. eapply put_down_snoc, IHk, lookup_weaken; [exact Hl|apply (fix_in_keys e)].
  - unfold fix_key_down_timeout_at_exit. destruct (exiting _); [split; [done|intros; by apply put_down_snoc, IHk]|].
    split; [by apply (fix_accounted e Hev)|]. intros k t Hl. eapply put_down_snoc, IHk, lookup_weaken; [exact Hl|].
    etrans; [apply (fix_in_keys e)|done].
Qed.

End Over.

(** ** A keyboard *)

(** Key codes of X11 for the modifiers and locks; the held keys, and the two locks. *)
Definition toy_code (k : Key) : Z :=
  match k with
  | KShift => 50 | KRightShift => 62 | KAlt => 64 | KRightAlt => 108 | KControl => 37 | KRightControl => 105 | KMeta => 133 | KRWin => 134
  | KCapsLock => 66 | KNumLock => 77 | KLayout c => 1000 + Z.abs c | KRaw c => c | _ => 9
  end.

Definition toy_en : Type := gset Z * (bool * bool).

Definition toy_toggle (c : Z) (n : toy_en) : bool * bool := (xorb (c =? 66) n.2.1, xorb (c =? 77) n.2.2).

(** As xdo tells it: a modifier by the left key, for both. *)
Definition toy_state (k : Key) (n : toy_en) : bool :=
  match k with
  | KShift => bool_decide (50 ∈ n.1 \/ 62 ∈ n.1) | KAlt => bool_decide (64 ∈ n.1 \/ 108 ∈ n.1)
  | KControl => bool_decide (37 ∈ n.1 \/ 105 ∈ n.1) | KMeta => bool_decide (133 ∈ n.1 \/ 134 ∈ n.1)
  | KCapsLock => n.2.1 | KNumLock => n.2.2 | _ => false
  end.

#[export] Instance toy_keyboard : KeyboardControllable toy_en := {|
  get_key_state := toy_state;
  en_key_sequence t n := n;
  en_key_down k n := (true, ({[toy_code k]} ∪ n.1, toy_toggle (match k with KRaw _ => 0 | _ => toy_code k end) n));
  en_key_up k n := (n.1 ∖ {[toy_code k]}, n.2);
  en_key_click k n := (n.1 ∖ {[toy_code k]}, toy_toggle (match k with KRaw _ => 0 | _ => toy_code k end) n);
  rdev_press c n := ({[c]} ∪ n.1, toy_toggle c n);
  rdev_release c n := (n.1 ∖ {[c]}, n.2);
  linux_key_from_code c := if c =? 50 then ShiftLeft else if c =? 62 then ShiftRight else OtherKey;
  linux_code_of k := match k with ShiftLeft => 50 | ShiftRight => 62 | _ => 0 end |}.

Lemma toy_locks lock : lock ∈ [KCapsLock; KNumLock] -> lock = KCapsLock \/ lock = KNumLock.
Proof. rewrite !elem_of_cons. intros [->|[->|H]]; auto. by apply not_elem_of_nil in H. Qed.

#[export] Instance toy_keyboard_laws : KeyboardLaws toy_en.
Proof.
  refine {| keycode := toy_code; held := fst |}; try (intros; reflexivity);
    try (intros; match goal with H : _ ∈ [KCapsLock; KNumLock] |- _ => apply toy_locks in H as [->| ->]; reflexivity end).
  - intros k0 l r n. unfold GROUPS. rewrite !elem_of_cons. intros [[= -> -> ->]|[[= -> -> ->]|[[= -> -> ->]|[[= -> -> ->]|H]]]];
      cbn; rewrite ?orb_false_r; try done. by apply not_elem_of_nil in H.
  - intros k k' Hk. unfold MODIFIERS in Hk. rewrite !elem_of_cons in Hk.
    repeat (destruct Hk as [->|Hk]; [destruct k'; cbn; intros; (lia || eauto)|]). by apply not_elem_of_nil in Hk.
  - intros lock k n Hl%toy_locks. destruct Hl as [->| ->]; cbn; destruct k; cbn; try done;
      destruct n as [h [b m]]; cbn; try done; destruct (Z.eqb_spec (1000 + Z.abs c) 66), (Z.eqb_spec (1000 + Z.abs c) 77); try lia; done.
  - intros lock k n Hl%toy_locks Hne. destruct Hl as [->| ->]; cbn; destruct k; cbn; try done;
      destruct n as [h [b m]]; cbn; try done; destruct (Z.eqb_spec (1000 + Z.abs c) 66), (Z.eqb_spec (1000 + Z.abs c) 77); try lia; done.
  - intros lock c n Hl%toy_locks Hne. destruct Hl as [->| ->]; cbn in *; [by destruct (Z.eqb_spec c 66)|by destruct (Z.eqb_spec c 77)].
Defined.

Definition ex_env (t : Z) : InputEnv := mkInputEnv true true t t true (fun l => l).
Definition ex_input : Input toy_en := mkInput (∅, (false, false)) ∅ false [].
(** Shift and [A] by their places, then the Delete key in the legacy mode; [A] comes up. *)
Definition ex_events : list input_event :=
  [Handles (ex_env 0) (mkKey true false (Some (Chr 50)) 1 []); Handles (ex_env 1) (mkKey true false (Some (Chr 38)) 1 []);
   Handles (ex_env 2) (mkKey true false (Some (ControlKey 5)) 0 [CK_Shift]); Handles (ex_env 3) (mkKey false false (Some (Chr 38)) 1 [])].


(** ** Where keys do stay down *)

Definition wayland (e : InputEnv) : InputEnv := mkInputEnv false (is_server e) (now_ms e) (later_ms e) (clipboard_ok e) (to_uppercase e).

(** On Wayland the keys of a session in the map mode are not recorded: when the session ends
    while one is down neither that nor the check nor the end of the program releases it. *)
Example wayland_key_stays_down :
  let s := input_step ex_input (Handles (wayland (ex_env 0)) (mkKey true false (Some (Chr 38)) 1 [])) in
  38 ∈ held (en (input_step s (Checks (wayland (ex_env 1000000))))) /\ 38 ∈ held (en (input_step s (Resets (wayland (ex_env 0))))) /\ 38 ∈ held (en (input_step s (Exits (wayland (ex_env 1000000))))).
Proof. split_and!; apply (bool_decide_unpack _); vm_compute; exact I. Qed.

(** On Wayland a character outside of ASCII that went down with Control stays down when Control
    comes up first, and is not recorded any more. *)
Example hotkey_character_stays_down :
  let at_ t evt := Handles (wayland (ex_env t)) evt in
  let s := input_run [at_ 0 (mkKey true false (Some (ControlKey CK_Control)) 0 []);
      at_ 1 (mkKey true false (Some (Chr 233)) 0 [CK_Control]);
      at_ 2 (mkKey false false (Some (ControlKey CK_Control)) 0 []); at_ 3 (mkKey false false (Some (Chr 233)) 0 [])] ex_input in
  keys_down s = ∅ /\ held (en s) = {[1233]}.
Proof. vm_compute. done. Qed.

(** The modifiers that are put down for locking the screen are not released after it. *)
Example lock_leaves_modifiers :
  let s := input_step ex_input (Handles (ex_env 0) (mkKey true false (Some (ControlKey CK_LockScreen)) 0 [CK_Control; CK_Alt])) in
  keys_down s = ∅ /\ held (en s) = {[37; 64]}.
Proof. vm_compute. done. Qed.

(** Whether AltGr is down is looked up by its number in the protocol, which as a key code of X11
    is that of F9: with AltGr (code 108) down the modifier Alt is put down all the same. *)
Example altgr_is_not_found :
  is_altgr_pressed (input_step ex_input (Handles (ex_env 0) (mkKey true false (Some (Chr 108)) 1 []))) = false /\
  is_altgr_pressed (input_step ex_input (Handles (ex_env 0) (mkKey true false (Some (Chr 75)) 1 []))) = true.
Proof. vm_compute. done. Qed.
