(* ===== verification/InputModifiers.v ===== *)
(** * The state of modifiers and locks around a key (src/server/input_service.rs)

    On X11 a key of the legacy mode is put down with the modifiers of its event and no others,
    and none of them outlasts it; in every mode the locks are those of the event while its key
    is handled, and after it those that they were. *)

From stdpp Require Import gmap strings.
From S2P Require Import Prelude TermBuffer Messages TypedText InputKeys InputSafe.

Section Modifiers.
Context {En : Type} `{!KeyboardControllable En} `{!KeyboardLaws En}.
(** ** Modifiers *)

(** One of the two keys of a modifier is down. *)
Definition mod_down (l r : Key) (n : En) : Prop := keycode l ∈ held n \/ keycode r ∈ held n.

(** The event asks for it, as the left or the right key. *)
Definition asked (ms : list Z) (l r : Key) : Prop := exists v, v ∈ ms /\ (KEY_MAP !! v = Some l \/ KEY_MAP !! v = Some r).

Lemma groups_modifiers k0 l r : (k0, l, r) ∈ GROUPS -> l ∈ MODIFIERS /\ r ∈ MODIFIERS /\ l <> r.
Proof.
  unfold GROUPS. rewrite !elem_of_cons.
  intros [[= -> -> ->]|[[= -> -> ->]|[[= -> -> ->]|[[= -> -> ->]|H]]]]; [..|by apply not_elem_of_nil in H];
    (split_and!; [by apply (bool_decide_unpack _)|by apply (bool_decide_unpack _)|done]).
Qed.

Lemma modifier_key_state k0 l r n : (k0, l, r) ∈ GROUPS ->
  (get_modifier_state l n = true <-> mod_down l r n) /\ (get_modifier_state r n = true <-> mod_down l r n).
Proof.
  intros Hg. pose proof (modifier_state k0 l r n Hg) as Hs. unfold mod_down.
  rewrite <- (bool_decide_eq_true (keycode l ∈ held n \/ keycode r ∈ held n)), <- Hs. revert Hg. unfold GROUPS. rewrite !elem_of_cons.
  intros [[= -> -> ->]|[[= -> -> ->]|[[= -> -> ->]|[[= -> -> ->]|H]]]]; [..|by apply not_elem_of_nil in H];
    cbn [get_modifier_state]; (split; [done|by rewrite orb_comm]).
Qed.

Lemma keycode_inj k k' : k ∈ MODIFIERS -> (forall c, k' <> KRaw c) -> keycode k' = keycode k -> k' = k.
Proof. intros Hk Hr H. destruct (keycode_modifier k k' Hk H) as [|[c ->]]; [done|]. by destruct (Hr c). Qed.

Lemma modifier_not_raw k : k ∈ MODIFIERS -> forall c, k <> KRaw c.
Proof. intros Hk c ->. unfold MODIFIERS in Hk. rewrite !elem_of_cons in Hk. repeat (destruct Hk as [Hk|Hk]; [done|]). by apply not_elem_of_nil in Hk. Qed.

(** Both keys of one modifier are looked after together. *)
Definition fix_pair (ms : list Z) (g : Z * Key * Key) (n : En) : En :=
  let '(k0, l, r) := g in fix_modifier ms k0 r (fix_modifier ms k0 l n).

Lemma fix_as_pairs ms ck n : (forall own k0 k, (own, k0, k) ∈ FIXED -> ck <> own) ->
  fix_modifiers ms ck n = foldl (fun n g => fix_pair ms g n) n GROUPS.
Proof.
  intros Hck. unfold fix_modifiers.
  assert (Hf : forall l n, (forall own k0 k, (own, k0, k) ∈ l -> ck <> own) ->
    foldl (fun n '(own, key0, key1) => if negb (ck =? own) then fix_modifier ms key0 key1 n else n) n l =
    foldl (fun n '(own, key0, key1) => fix_modifier ms key0 key1 n) n l).
  { clear. induction l as [|[[own k0] k] l IH]; intros n Hl; cbn; [done|]. rewrite IH by (intros ? ? ? ?; eapply Hl; by right).
    destruct (Z.eqb_spec ck own) as [->|]; [|done]. by destruct (Hl own k0 k ltac:(by left)). }
  by rewrite Hf.
Qed.

Lemma fix_modifier_held ms k0 l r k n : (k0, l, r) ∈ GROUPS -> k = l \/ k = r ->
  held (fix_modifier ms k0 k n) =
    if bool_decide (mod_down l r n) && negb (bool_decide (k0 ∈ ms)) then held n ∖ {[keycode k]} else held n.
Proof.
  intros Hg Hk. destruct (modifier_key_state k0 l r n Hg) as [Hl Hr]. unfold fix_modifier.
  assert (Hs : get_modifier_state k n = bool_decide (mod_down l r n)).
  { apply eq_true_iff_eq. rewrite bool_decide_eq_true. destruct Hk as [->| ->]; done. }
  rewrite Hs. destruct (_ && _); [apply held_up|done].
Qed.

(** Looking after one modifier: both its keys come up unless the event has it; the other
    modifiers stay as they are. *)
Lemma fix_pair_spec ms g n k0 l r : g ∈ GROUPS -> (k0, l, r) ∈ GROUPS ->
  (mod_down l r (fix_pair ms g n) <-> mod_down l r n /\ (g = (k0, l, r) -> k0 ∈ ms)).
Proof.
  intros Hg Hlr. destruct g as [[k1 l1] r1]. cbn [fix_pair].
  destruct (groups_modifiers _ _ _ Hg) as (Hl1 & Hr1 & Hd1), (groups_modifiers _ _ _ Hlr) as (Hl & Hr & Hd).
  assert (Hc : forall a b, a ∈ MODIFIERS -> b ∈ MODIFIERS -> keycode a = keycode b -> a = b)
    by (intros a b Ha Hb; apply keycode_inj; [done|by apply modifier_not_raw]).
  set (n1 := fix_modifier ms k1 l1 n). pose proof (fix_modifier_held ms k1 l1 r1 l1 n Hg (or_introl eq_refl)) as H1.
  pose proof (fix_modifier_held ms k1 l1 r1 r1 n1 Hg (or_intror eq_refl)) as H2. fold n1 in H1.
  destruct (decide ((k1, l1, r1) = (k0, l, r))) as [[= -> -> ->]|Hne].
  - unfold mod_down in *. rewrite H2. destruct (decide (k0 ∈ ms)) as [Hm|Hm].
    + rewrite (bool_decide_eq_true_2 (k0 ∈ ms)) in * by done. rewrite andb_false_r in *. rewrite H1. tauto.
    + rewrite (bool_decide_eq_false_2 (k0 ∈ ms)) in * by done. cbn [negb] in *. rewrite andb_true_r in *. rewrite H1.
      assert (Hx : keycode l <> keycode r) by (intros Hx; by apply Hd, Hc).
      split; [|tauto]. intros Hdown. exfalso. revert Hdown. repeat case_bool_decide; set_solver.
  - assert (Hfar : forall a, a = l \/ a = r -> keycode a <> keycode l1 /\ keycode a <> keycode r1).
    { assert (Hdis : forall a b, (a = l \/ a = r) -> (b = l1 \/ b = r1) -> a <> b).
      { clear -Hg Hlr Hne. revert Hg Hlr. unfold GROUPS. rewrite !elem_of_cons. intros Hg Hlr a b Ha Hb ->.
        repeat (destruct Hg as [[= -> -> ->]|Hg]; [repeat (destruct Hlr as [[= -> -> ->]|Hlr]; [by destruct Ha as [->| ->], Hb|]); by apply not_elem_of_nil in Hlr|]).
        by apply not_elem_of_nil in Hg. }
      intros a Ha. assert (Ham : a ∈ MODIFIERS) by (by destruct Ha as [->| ->]).
      split; intros Hx; apply Hc in Hx; try done; subst; [by apply (Hdis l1 l1 Ha (or_introl eq_refl))|by apply (Hdis r1 r1 Ha (or_intror eq_refl))]. }
    assert (Hone : forall a k m, k = l1 \/ k = r1 -> keycode a <> keycode k -> (keycode a ∈ held (fix_modifier ms k1 k m) <-> keycode a ∈ held m)).
    { intros a k m Hk Hx. rewrite (fix_modifier_held ms k1 l1 r1 k m Hg Hk).
      match goal with |- context [if ?b then _ else _] => destruct b end; [rewrite elem_of_difference, elem_of_singleton; split; [by intros [? _]|done]|done]. }
    assert (Hsame : forall a, a = l \/ a = r -> (keycode a ∈ held (fix_modifier ms k1 r1 n1) <-> keycode a ∈ held n)).
    { intros a [Hx Hy]%Hfar. rewrite Hone by auto. apply Hone; auto. }
    unfold mod_down. rewrite (Hsame l), (Hsame r) by auto. split; [intros H; split; [done|]; intros ?; congruence|tauto].
Qed.

Lemma fix_pairs_spec ms gs : forall n k0 l r, gs ⊆ GROUPS -> (k0, l, r) ∈ GROUPS ->
  (mod_down l r (foldl (fun n g => fix_pair ms g n) n gs) <-> mod_down l r n /\ ((k0, l, r) ∈ gs -> k0 ∈ ms)).
Proof.
  induction gs as [|g gs IH]; intros n k0 l r Hgs Hg; cbn [foldl].
  - split; [intros; split; [done|by intros ?%not_elem_of_nil]|tauto].
  - rewrite (IH _ k0 l r) by (done || (intros x Hx; apply Hgs; by right)). rewrite (fix_pair_spec ms g n k0 l r) by (done || (apply Hgs; by left)).
    rewrite elem_of_cons. split; [intros [[? Ha] Hb]; split; [done|intros [Hx|?]; auto]|]. intros [? Ha]. split_and!; auto.
Qed.

(** *** Pressing *)

Lemma key_map_in v k : KEY_MAP !! v = Some k -> forall c, k <> KRaw c.
Proof. intros H%key_map_key. by destruct H as (_ & H & _). Qed.

Lemma press_modifiers_spec skip ms : (forall k, k ∈ MODIFIERS -> skip k = false) ->
  forall n rel k0 l r, (k0, l, r) ∈ GROUPS ->
  (mod_down l r (fst (foldl (press_modifier skip) (n, rel) ms)) <-> mod_down l r n \/ asked ms l r).
Proof.
  intros Hskip.
  induction ms as [|v ms IH]; intros n rel k0 l r Hg; cbn [foldl].
  { cbn. split; [auto|]. intros [?|(v & Hv & _)]; [done|by apply not_elem_of_nil in Hv]. }
  destruct (groups_modifiers _ _ _ Hg) as (Hl & Hr & Hd).
  destruct (press_modifier skip (n, rel) v) as [n1 rel1] eqn:E. rewrite (IH n1 rel1 k0 l r Hg).
  assert (Hcons : asked (v :: ms) l r <-> (KEY_MAP !! v = Some l \/ KEY_MAP !! v = Some r) \/ asked ms l r).
  { unfold asked. setoid_rewrite elem_of_cons. split; [intros (w & [->|Hw] & H); eauto|]. intros [H|(w & Hw & H)]; eauto. }
  rewrite Hcons. enough (Hone : mod_down l r n1 <-> mod_down l r n \/ (KEY_MAP !! v = Some l \/ KEY_MAP !! v = Some r)) by tauto.
  clear IH Hcons.
  unfold press_modifier, control_key_value_to_key in E. destruct (KEY_MAP !! v) as [k|] eqn:Ek; [|injection E as <- _; naive_solver].
  assert (Hnr := key_map_in _ _ Ek).
  destruct (skip k || get_modifier_state k n) eqn:Es; injection E as <- _.
  - split; [auto|]. destruct (modifier_key_state k0 l r n Hg) as [Hsl Hsr].
    intros [?|[[= Hx]|[= Hx]]]; [done|apply Hsl|apply Hsr]; rewrite <- Hx; by rewrite Hskip in Es by (by rewrite Hx).
  - unfold mod_down. rewrite held_down. split.
    + destruct (fst _); [|auto]. rewrite !elem_of_union, !elem_of_singleton. intros [[Hx|?]|[Hx|?]]; auto;
      [apply eq_sym, keycode_inj in Hx as ->|apply eq_sym, keycode_inj in Hx as ->]; auto.
    + intros [Hx|[[= Hx]|[= Hx]]]; [|subst k; rewrite modifier_goes_down by done; rewrite !elem_of_union, !elem_of_singleton; auto..].
      destruct (fst _); [|exact Hx]. rewrite !elem_of_union. tauto.
Qed.

Lemma altgr_off (s : Input En) k : keys_down s !! RdevKey CK_RAlt = None -> altgr_for_alt s k = false.
Proof.
  intros Hq. unfold altgr_for_alt, is_altgr_pressed. rewrite Hq, (bool_decide_eq_false_2 (is_Some None)) by (by intros [? ?]). apply andb_false_r.
Qed.

(** The key of the event is none of the modifiers. *)
Definition no_modifier (evt : KeyEvent) : Prop :=
  forall k, (exists v, key_union evt = Some (ControlKey v) /\ KEY_MAP !! v = Some k) -> k ∉ MODIFIERS.

Lemma no_modifier_fixed evt own k0 k : no_modifier evt -> (own, k0, k) ∈ FIXED -> get_control_key_value evt <> own.
Proof.
  intros Hn Hin. unfold get_control_key_value. intros Hv.
  assert (Hk : KEY_MAP !! own = Some k /\ k ∈ MODIFIERS /\ own <> -1).
  { revert Hin. unfold FIXED. rewrite !elem_of_cons. intros Hin.
    repeat (destruct Hin as [[= -> -> ->]|Hin]; [split_and!; [vm_compute; reflexivity|by apply (bool_decide_unpack _)|done]|]).
    by apply not_elem_of_nil in Hin. }
  destruct (key_union evt) as [[v| | | |]|] eqn:Eu; try (by destruct Hk as (_ & _ & Hk)). subst.
  apply (Hn k); [|apply Hk]. exists own. split; [done|apply Hk].
Qed.

Lemma own_not_modifier evt k : no_modifier evt -> key_mode evt <> 1 -> key_mode evt <> 2 -> k ∈ MODIFIERS -> own_code evt <> Some (keycode k).
Proof.
  intros Hn H1 H2 Hk. apply Z.eqb_neq in H1, H2. unfold own_code. rewrite H1, H2.
  destruct (key_union evt) as [[v|chr|chr|t|w]|] eqn:Eu; try done.
  - destruct (is_function_key v); [done|]. unfold control_key_value_to_key. destruct (KEY_MAP !! v) as [k'|] eqn:E; [|done]. cbn. intros [= Hx].
    apply keycode_inj in Hx; [|done|by eapply key_map_in]. subst. apply (Hn k); eauto.
  - intros [= Hx]. apply keycode_inj in Hx; [|done|done]. rewrite <- Hx in Hk.
    unfold MODIFIERS in Hk. rewrite !elem_of_cons in Hk. repeat (destruct Hk as [Hk|Hk]; [done|]). by apply not_elem_of_nil in Hk.
Qed.

Lemma asked_own k0 l r ms : (k0, l, r) ∈ GROUPS -> k0 ∈ ms -> asked ms l r.
Proof.
  intros Hg Hm. exists k0. split; [done|]. left. revert Hg. unfold GROUPS. rewrite !elem_of_cons.
  intros [[= -> -> ->]|[[= -> -> ->]|[[= -> -> ->]|[[= -> -> ->]|H]]]]; [..|by apply not_elem_of_nil in H]; vm_compute; reflexivity.
Qed.

Lemma zero_not_fixed own k0 k : (own, k0, k) ∈ FIXED -> 0 <> own.
Proof. unfold FIXED. rewrite !elem_of_cons. intros H. repeat (destruct H as [[= -> -> ->]|H]; [done|]). by apply not_elem_of_nil in H. Qed.

Lemma modifier_no_lock k : k ∈ MODIFIERS -> bool_decide (k = KCapsLock) || bool_decide (k = KNumLock) = false.
Proof. unfold MODIFIERS. rewrite !elem_of_cons. intros H. repeat (destruct H as [->|H]; [reflexivity|]). by apply not_elem_of_nil in H. Qed.

Variable e : InputEnv.
Hypothesis x11 : is_x11 e = true.

End Modifiers.

(** ** Locks *)

Section Locks.
Context {En : Type} `{!KeyboardControllable En} `{!KeyboardLaws En}.
Variable e : InputEnv.
Hypothesis x11 : is_x11 e = true.
Variable lock : Key.
Hypothesis is_lock : lock ∈ [KCapsLock; KNumLock].

Definition lock_value (k : Key) : Z := if bool_decide (k = KCapsLock) then CK_CapsLock else CK_NumLock.

Abbreviation state := (get_key_state lock).
Definition same_lock (f : En -> En) : Prop := forall n, state (f n) = state n.

Lemma lock_cases : lock = KCapsLock \/ lock = KNumLock.
Proof. by apply toy_locks. Qed.

Lemma lock_not_layout c : KLayout c <> lock.
Proof. by destruct lock_cases as [->| ->]. Qed.

Lemma lock_state_plain n : get_modifier_state lock n = state n.
Proof. by destruct lock_cases as [->| ->]. Qed.

Lemma lock_key v : KEY_MAP !! v = Some lock -> v = lock_value lock.
Proof.
  intros H. unfold KEY_MAP in H. apply elem_of_list_to_map_2 in H. revert H. rewrite !elem_of_cons.
  destruct lock_cases as [->| ->]; intros H;
  repeat (match type of H with _ \/ _ => destruct H as [H|H] end; [first [discriminate H|injection H as ->; reflexivity]|]);
  by apply not_elem_of_nil in H.
Qed.

Lemma same_fold {A} (f : En -> A -> En) l : (forall a, same_lock (fun n => f n a)) -> same_lock (fun n => foldl f n l).
Proof. intros Hf. induction l as [|a l IH]; intros n; cbn; [done|]. by rewrite IH, (Hf a). Qed.

Lemma same_up k : same_lock (en_key_up k).
Proof. intros n. by apply lock_up. Qed.
Lemma same_layout_click c : same_lock (en_key_click (KLayout c)).
Proof. intros n. rewrite lock_click by done. rewrite bool_decide_eq_false_2; [by destruct (state n)|apply lock_not_layout]. Qed.

Lemma same_fix ms ck : same_lock (fix_modifiers ms ck).
Proof. apply same_fold. intros [[own k0] k1] n. destruct (negb _); [|done]. unfold fix_modifier. destruct (_ && _); [apply same_up|done]. Qed.

Lemma same_shift : same_lock (release_shift_for_char_input e).
Proof.
  intros n. unfold release_shift_for_char_input. destruct (is_hotkey_modifier_pressed n); [done|]. rewrite x11. cbn [negb].
  destruct (get_modifier_state KShift n); [destruct (get_modifier_state KRightShift (rdev_release _ n))|destruct (get_modifier_state KRightShift n)];
    rewrite ?lock_release by done; done.
Qed.

(** A lock that the event has is on, so that it is not pressed as a modifier. *)
Lemma same_press skip ms : forall n rel, (forall v, v ∈ ms -> KEY_MAP !! v = Some lock -> state n = true) ->
  state (fst (foldl (press_modifier skip) (n, rel) ms)) = state n.
Proof.
  induction ms as [|v ms IH]; intros n rel Hm; cbn [foldl]; [done|]. destruct (press_modifier skip (n, rel) v) as [n1 rel1] eqn:E.
  assert (Hs : state n1 = state n).
  { unfold press_modifier, control_key_value_to_key in E. destruct (KEY_MAP !! v) as [k|] eqn:Ek; [|by injection E as <- _].
    destruct (skip k || get_modifier_state k n) eqn:Es; [by injection E as <- _|]. injection E as <- _. apply orb_false_iff in Es as [_ Es].
    apply lock_down; [done|]. intros ->. rewrite lock_state_plain in Es. by rewrite (Hm v) in Es by (done || by left). }
  rewrite IH; [done|]. intros v' Hv Hk. rewrite Hs. apply (Hm v'); [by right|done].
Qed.

Lemma same_sync evt s : (lock_value lock ∈ key_modifiers evt -> state (en s) = true) ->
  state (en (fst (sync_modifiers evt s))) = state (en s).
Proof.
  intros Hm. unfold sync_modifiers. destruct (key_down evt); [|done]. unfold press_modifiers, release_unpressed_modifiers, on_en. cbn [en with_en].
  set (n1 := fix_modifiers (key_modifiers evt) (get_control_key_value evt) (en s)).
  pose proof (same_press (altgr_for_alt (with_en n1 s)) (key_modifiers evt) n1 []) as Hp. destruct (foldl _ _ _) as [n rel]. cbn [fst en with_en] in *.
  rewrite Hp; [apply same_fix|]. intros v Hv ->%lock_key. unfold n1. rewrite same_fix. auto.
Qed.

Lemma same_release keys s : state (en (release_keys keys s)) = state (en s).
Proof. unfold release_keys, on_en. cbn. apply (same_fold (fun n k => en_key_up k n)). intros k. apply same_up. Qed.

(** The key of the event is not the lock. *)
Definition not_lock (evt : KeyEvent) : Prop :=
  if key_mode evt =? 1 then evt_chr evt <> keycode lock
  else if key_mode evt =? 2 then match key_union evt with Some (Chr c) => c <> keycode lock | _ => True end
  else match key_union evt with Some (ControlKey v) => KEY_MAP !! v <> Some lock | _ => True end.

Lemma same_raw c down s : c <> keycode lock -> state (en (sim_rdev_rawkey_position e c down s)) = state (en s).
Proof. intros Hc. unfold sim_rdev_rawkey_position, simulate_, on_en. destruct down; cbn; [by apply lock_press|by apply lock_release]. Qed.

Lemma same_press_char chr : same_lock (press_char e chr).
Proof.
  intros n. unfold press_char, char_value_to_key. set (k := KLayout _).
  pose proof (lock_down lock k n is_lock (lock_not_layout _)) as Hd. destruct (en_key_down k n) as [ok n1]. cbn in Hd.
  destruct ok; [done|]. destruct (char_from_u32 chr); [|done]. by rewrite lock_sequence.
Qed.

Lemma same_mode evt s : not_lock evt -> (lock_value lock ∈ key_modifiers evt -> state (en s) = true) ->
  state (en (keyboard_mode e evt s)) = state (en s).
Proof.
  intros Hn Hm. unfold not_lock, keyboard_mode in *. destruct (key_mode evt =? 1).
  { unfold map_keyboard_mode. rewrite x11. cbn [negb]. by apply same_raw. }
  destruct (key_mode evt =? 2).
  { unfold translate_keyboard_mode, translate_seq, map_keyboard_mode, wayland_use_rdp_input. rewrite (no_uinput e x11), x11. cbn [negb andb].
    destruct (key_union evt) as [[v|chr|chr|t|w]|] eqn:Eu; try done.
    - apply same_raw. unfold evt_chr. by rewrite Eu.
    - unfold on_en. cbn. rewrite (same_fold (fun n c => en_key_click (KLayout c) n) _ (fun c n => same_layout_click c n)). apply same_shift. }
  unfold legacy_keyboard_mode. pose proof (same_sync evt s Hm) as Hs. destruct (sync_modifiers evt s) as [s1 rel]. cbn [fst] in Hs.
  unfold process_chr, process_unicode, process_seq, process_control_key. rewrite (no_uinput e x11), !andb_false_r. cbn [andb].
  destruct (key_union evt) as [[v|chr|chr|t|w]|]; rewrite ?same_release; try exact Hs.
  - destruct (is_function_key v); [done|]. rewrite same_release. unfold control_key_value_to_key. destruct (KEY_MAP !! v) as [k|]; [|exact Hs].
    unfold on_en. cbn. destruct (key_down evt); [rewrite lock_down by (done || congruence)|rewrite lock_up by done]; exact Hs.
  - unfold on_en. cbn. destruct (key_down evt); [rewrite same_press_char|rewrite lock_up by done]; by rewrite same_shift.
  - destruct (char_from_u32 chr); unfold on_en; cbn; rewrite ?lock_sequence by done; by rewrite same_shift.
  - unfold on_en. cbn. by rewrite lock_sequence by done.
Qed.

Lemma lock_to_spec w k n : k ∈ [KCapsLock; KNumLock] ->
  let '(changed, n') := lock_to w k n in
  state n' = (if bool_decide (k = lock) then w else state n) /\ (k = lock -> changed = xorb w (state n)).
Proof.
  intros Hk. unfold lock_to. destruct (Bool.eqb w (get_key_state k n)) eqn:Ew.
  - apply eqb_prop in Ew. case_bool_decide as Hkl; [subst k; rewrite Ew; split; [done|by destruct (state n)]|done].
  - rewrite lock_click by done. apply eqb_false_iff in Ew. case_bool_decide as Hkl; [|by destruct (state n)].
    subst k. destruct w, (state n); try done; congruence.
Qed.

(** The locks are as the event says while its key is handled, and afterwards as they
    were: on X11, whatever the mode, when the event is one for which they are set (and, for
    the lock of the numbers, a key of the number pad, or the event does not have it), and its
    key is not the lock itself. *)
Theorem locks_are_restored evt s numpad :
  exiting s = false -> led_sync evt = Some numpad -> not_lock evt ->
  (lock = KNumLock -> numpad = false -> CK_NumLock ∉ key_modifiers evt) ->
  let '(_, _, s1) := new_handler evt numpad s in
  (lock = KCapsLock \/ numpad = true ->
    state (en s1) = is_modifier_enabled evt (lock_value lock) /\ state (en (keyboard_mode e evt s1)) = is_modifier_enabled evt (lock_value lock)) /\
  state (en (handle_key_ e evt s)) = state (en s).
Proof.
  intros Hx Hl Hn Hnum. unfold handle_key_. rewrite Hx, Hl. unfold new_handler.
  pose proof (lock_to_spec (is_modifier_enabled evt CK_CapsLock) KCapsLock (en s) ltac:(by left)) as Hc.
  destruct (lock_to (is_modifier_enabled evt CK_CapsLock) KCapsLock (en s)) as [caps n1]. destruct Hc as [Hc1 Hc2].
  set (p := if numpad then lock_to (is_modifier_enabled evt CK_NumLock) KNumLock n1 else (false, n1)).
  assert (Hp : state p.2 = (if bool_decide (KNumLock = lock) && numpad then is_modifier_enabled evt CK_NumLock else state n1) /\
    (KNumLock = lock -> p.1 = if numpad then xorb (is_modifier_enabled evt CK_NumLock) (state n1) else false)).
  { unfold p. destruct numpad; [|by rewrite andb_false_r].
    pose proof (lock_to_spec (is_modifier_enabled evt CK_NumLock) KNumLock n1 ltac:(right; by left)) as Hq.
    destruct (lock_to (is_modifier_enabled evt CK_NumLock) KNumLock n1). by rewrite andb_true_r. }
  destruct p as [num n2]. cbn [fst snd] in Hp. destruct Hp as [Hp1 Hp2].
  unfold drop_handler. rewrite (no_uinput e x11). unfold on_en. cbn [en with_en fst snd].
  assert (Hmode : (lock_value lock ∈ key_modifiers evt -> state n2 = true) -> state (en (keyboard_mode e evt (with_en n2 s))) = state n2)
    by (intros; by apply same_mode).
  set (n3 := en (keyboard_mode e evt (with_en n2 s))) in *. unfold is_modifier_enabled in *.
  assert (Hclick : forall (b : bool) k n, k ∈ [KCapsLock; KNumLock] -> state (if b then en_key_click k n else n) = xorb (b && bool_decide (k = lock)) (state n)).
  { intros [] k n Hk; [by rewrite lock_click|by destruct (state n)]. }
  rewrite !Hclick by (apply (bool_decide_unpack _); exact I).
  destruct lock_cases as [El|El].
  - rewrite (bool_decide_eq_true_2 (KCapsLock = lock)) in Hc1 |- * by done. rewrite (bool_decide_eq_false_2 (KNumLock = lock)) in Hp1 |- * by (rewrite El; done).
    assert (Ev : lock_value lock = CK_CapsLock) by (rewrite El; done). rewrite Ev in *. cbn [andb] in Hp1.
    assert (Hon : state n2 = bool_decide (CK_CapsLock ∈ key_modifiers evt)) by congruence.
    rewrite Hc2 by done. rewrite andb_true_r, andb_false_r. rewrite Hmode by (intros; rewrite Hon; by apply bool_decide_eq_true).
    rewrite Hon. split; [done|]. match goal with |- context [bool_decide ?P] => by destruct (bool_decide P), (state (en s)) end.
  - rewrite (bool_decide_eq_false_2 (KCapsLock = lock)) in Hc1 |- * by (rewrite El; done). rewrite (bool_decide_eq_true_2 (KNumLock = lock)) in Hp1 |- * by done.
    assert (Ev : lock_value lock = CK_NumLock) by (rewrite El; done). rewrite Ev in *. cbn [andb] in Hp1.
    rewrite Hp2 by done. rewrite andb_true_r, andb_false_r. destruct numpad.
    + rewrite Hmode by (intros; rewrite Hp1; by apply bool_decide_eq_true). rewrite Hp1, Hc1. split; [done|]. match goal with |- context [bool_decide ?P] => by destruct (bool_decide P), (state (en s)) end.
    + rewrite Hmode by (intros Hin; by destruct (Hnum El eq_refl)). rewrite Hp1, Hc1. split; [intros [Hk|]; [congruence|done]|]. by destruct (state (en s)).
Qed.
End Locks.

(** ** Witnesses *)

Definition ex_control_held : Input toy_en := mkInput ({[37]}, (false, true)) {[EnigoKey CK_Control := 0]} false [].
(** A capital letter, with Shift and with Caps Lock on. *)
Definition ex_letter : KeyEvent := mkKey true false (Some (Chr 65)) 0 [CK_Shift; CK_CapsLock].


Lemma locks_are_restored_witness :
  let '(_, _, s1) := new_handler ex_letter false ex_control_held in
  (KCapsLock = KCapsLock \/ false = true ->
    get_key_state KCapsLock (en s1) = is_modifier_enabled ex_letter (lock_value KCapsLock) /\
    get_key_state KCapsLock (en (keyboard_mode (ex_env 1) ex_letter s1)) = is_modifier_enabled ex_letter (lock_value KCapsLock)) /\
  get_key_state KCapsLock (en (handle_key_ (ex_env 1) ex_letter ex_control_held)) = get_key_state KCapsLock (en ex_control_held).
Proof.
  apply (locks_are_restored (ex_env 1) eq_refl KCapsLock ltac:(by left) ex_letter ex_control_held false); try done.
Defined.
