(* ===== verification/CursorService.v ===== *)
(** * The cursor as the peers see it (src/server/input_service.rs)

    The service of the cursor's image ([run_cursor], with the subscribers [MouseCursorSub]), of
    its position ([run_pos]) and of the display that has the focus ([run_window_focus]).  The
    image comes from the X server ([get_cursor], [get_cursor_data] of src/platform/linux.rs). *)

From stdpp Require Import gmap.
From S2P Require Import Prelude Compress.

(** ** Images *)

(** [XFixesCursorImage]. *)
Record CursorImage : Type := mkImage { cursor_serial : Z; xhot : Z; yhot : Z; im_width : Z; im_height : Z; pixels : list Z }.

Record CursorData : Type := mkCursor { cd_id : Z; hotx : Z; hoty : Z; cd_width : Z; cd_height : Z; colors : list byte }.

#[export] Instance cursor_data_eq_dec : EqDecision CursorData.
Proof. solve_decision. Defined.

(** A pixel is ARGB; what is fully transparent has no colour. *)
Definition pixel_bytes (p : Z) : list byte :=
  let part := fun n => Z.land (Z.shiftr p n) 0xff in
  if part 24 =? 0 then replicate 4 (u8_of_Z 0) else map u8_of_Z [part 16; part 8; part 0; part 24].

(** [DISPLAY]'s image, when there is one. *)
Definition get_cursor (now : option CursorImage) : option Z := cursor_serial <$> now.
Definition get_cursor_data (hcursor : Z) (now : option CursorImage) : option CursorData :=
  match now with
  | Some img =>
      if hcursor =? cursor_serial img
      then Some (mkCursor (cursor_serial img) (xhot img) (yhot img) (im_width img) (im_height img) (pixels img ≫= pixel_bytes)) else None
  | None => None
  end.

(** ** Subscribers *)

(** The message: nothing yet, an image, or the number of one. *)
Inductive CursorMsg : Type := NoCursor | MCursorData (cd : CursorData) | MCursorId (id : Z).

#[export] Instance cursor_msg_eq_dec : EqDecision CursorMsg.
Proof. solve_decision. Defined.

(** [MouseCursorSub]; [got]: what was sent to its connection. *)
Record MouseCursorSub : Type := mkSub { got : list CursorMsg; cached : gmap Z CursorMsg }.
Definition new_sub : MouseCursorSub := mkSub [] ∅.

Definition sub_send (msg : CursorMsg) (s : MouseCursorSub) : MouseCursorSub :=
  match msg with
  | MCursorData cd =>
      match cached s !! cd_id cd with
      | Some m => mkSub (got s ++ [m]) (cached s)
      | None => mkSub (got s ++ [msg]) (<[cd_id cd := MCursorId (cd_id cd)]> (cached s))
      end
  | _ => mkSub (got s ++ [msg]) (cached s)
  end.

(** ** The service *)

Record StateCursor : Type := mkStateCursor { hcursor : Z; cursor_msg : CursorMsg; cached_cursor_data : gmap Z CursorMsg }.
Definition default_cursor : StateCursor := mkStateCursor 0 NoCursor ∅.

Record MouseCursorService : Type := mkCursorService { st : StateCursor; subs : gmap Z MouseCursorSub; new_subs : gmap Z MouseCursorSub }.

Section Cursor.
Context {ZS : Zstd}.

(** What a peer's program decompresses. *)
Definition compress_colors (cd : CursorData) : CursorData :=
  mkCursor (cd_id cd) (hotx cd) (hoty cd) (cd_width cd) (cd_height cd) (compress (colors cd)).
Definition decompress_colors (cd : CursorData) : CursorData :=
  mkCursor (cd_id cd) (hotx cd) (hoty cd) (cd_width cd) (cd_height cd) (decompress (colors cd)).

(** The new state, and what all subscribers get; or an error. *)
Definition update_cursor (first second : option CursorImage) (c : StateCursor) : option (StateCursor * option CursorMsg) :=
  match get_cursor first with
  | None => Some (c, None)
  | Some h =>
      if h =? hcursor c then Some (c, None)
      else match cached_cursor_data c !! h with
      | Some msg => Some (mkStateCursor h msg (cached_cursor_data c), Some msg)
      | None =>
          match get_cursor_data h second with
          | None => None
          | Some cd =>
              let msg := MCursorData (compress_colors cd) in
              Some (mkStateCursor h msg (<[h := msg]> (cached_cursor_data c)), Some msg)
          end
      end
  end.

(** New subscribers get the cursor and are subscribers from then on. *)
Definition cursor_snapshot (s : MouseCursorService) : MouseCursorService :=
  mkCursorService (st s) ((sub_send (cursor_msg (st s)) <$> new_subs s) ∪ subs s) ∅.

(** One turn; whether it succeeded. *)
Definition run_cursor (first second : option CursorImage) (s : MouseCursorService) : bool * MouseCursorService :=
  match update_cursor first second (st s) with
  | None => (false, s)
  | Some (c, msg) =>
      let all := match msg with Some m => sub_send m <$> subs s | None => subs s end in
      (true, cursor_snapshot (mkCursorService c all (new_subs s)))
  end.

(** Peers come and go; without any the state starts anew. *)
Definition cursor_subscribe (id : Z) (s : MouseCursorService) : MouseCursorService :=
  match subs s !! id with Some _ => s | None => mkCursorService (st s) (subs s) (<[id := new_sub]> (new_subs s)) end.
Definition cursor_unsubscribe (id : Z) (s : MouseCursorService) : MouseCursorService :=
  match subs s !! id with
  | Some _ => mkCursorService (st s) (delete id (subs s)) (new_subs s)
  | None => mkCursorService (st s) (subs s) (delete id (new_subs s))
  end.
Definition cursor_reset (s : MouseCursorService) : MouseCursorService := mkCursorService default_cursor (subs s) (new_subs s).

(** ** What a peer shows *)

(** A program that keeps the images it got, by number, shows the last one named. *)
Record Viewer : Type := mkViewer { images : gmap Z CursorData; shown : option CursorData }.

Definition view (v : Viewer) (m : CursorMsg) : Viewer :=
  match m with
  | NoCursor => v
  | MCursorData cd => mkViewer (<[cd_id cd := decompress_colors cd]> (images v)) (Some (decompress_colors cd))
  | MCursorId id => mkViewer (images v) (images v !! id)
  end.
Definition viewer (msgs : list CursorMsg) : Viewer := foldl view (mkViewer ∅ None) msgs.

Definition sent_images (msgs : list CursorMsg) : list Z := omap (fun m => match m with MCursorData cd => Some (cd_id cd) | _ => None end) msgs.

(** ** Every peer shows the cursor *)

(** The X server has one image for a number, of no more colours than are decompressed. *)
Context {ZL : ZstdLaws} {ZT : ZstdTotal}.
Variable image : Z -> CursorImage.
Hypothesis image_serial : forall h, cursor_serial (image h) = h.
Hypothesis image_small : forall h, len (pixels (image h) ≫= pixel_bytes) <= MAX_DECOMPRESSED_SIZE.

Definition cursor_of (h : Z) : CursorData :=
  let i := image h in mkCursor h (xhot i) (yhot i) (im_width i) (im_height i) (pixels i ≫= pixel_bytes).

Definition of_server (i : option CursorImage) : Prop := i = None \/ exists h, i = Some (image h).

Inductive cursor_reaches : MouseCursorService -> Prop :=
| reaches_start : cursor_reaches (mkCursorService default_cursor ∅ ∅)
| reaches_turn s first second : cursor_reaches s -> of_server first -> of_server second -> subs s <> ∅ \/ new_subs s <> ∅ ->
    cursor_reaches (snd (run_cursor first second s))
| reaches_subscribe s id : cursor_reaches s -> cursor_reaches (cursor_subscribe id s)
| reaches_unsubscribe s id : cursor_reaches s -> cursor_reaches (cursor_unsubscribe id s)
| reaches_reset s : cursor_reaches s -> subs s = ∅ -> new_subs s = ∅ -> cursor_reaches (cursor_reset s).

Definition msg_of (h : Z) : CursorMsg := MCursorData (compress_colors (cursor_of h)).

Lemma shown_of h : decompress_colors (compress_colors (cursor_of h)) = cursor_of h.
Proof. unfold decompress_colors, compress_colors, cursor_of. cbn. by rewrite decompress_compress. Qed.

(** What a subscriber was sent agrees with what is remembered of it. *)
Record sub_ok (s : MouseCursorSub) : Prop := {
  ok_cached : forall id m, cached s !! id = Some m -> m = MCursorId id /\ images (viewer (got s)) !! id = Some (cursor_of id);
  ok_images : forall id, is_Some (images (viewer (got s)) !! id) -> is_Some (cached s !! id);
  ok_once : NoDup (sent_images (got s)) /\ forall id, id ∈ sent_images (got s) -> is_Some (images (viewer (got s)) !! id) }.

Lemma viewer_snoc l m : viewer (l ++ [m]) = view (viewer l) m.
Proof. unfold viewer. by rewrite foldl_app. Qed.

Lemma new_sub_ok : sub_ok new_sub.
Proof. split; cbn; [done|by intros id [? ?]|split; [constructor|by intros id ?%not_elem_of_nil]]. Qed.

Lemma sub_send_nothing s : sub_ok s -> sub_ok (sub_send NoCursor s).
Proof.
  intros [H1 H2 [H3 H4]]. split; cbn; rewrite ?viewer_snoc; cbn; [done|done|]. unfold sent_images in *. rewrite omap_app. cbn. by rewrite app_nil_r.
Qed.

Lemma sub_send_image s h : sub_ok s -> sub_ok (sub_send (msg_of h) s) /\ shown (viewer (got (sub_send (msg_of h) s))) = Some (cursor_of h).
Proof.
  intros [H1 H2 [H3 H4]]. unfold sub_send, msg_of. change (cd_id (compress_colors (cursor_of h))) with h.
  destruct (cached s !! h) as [m|] eqn:Ec.
  - destruct (H1 h m Ec) as [-> Hi]. split; [split; cbn; rewrite ?viewer_snoc; cbn; [done|done|]|].
    + unfold sent_images in *. rewrite omap_app. cbn. by rewrite app_nil_r.
    + cbn. by rewrite viewer_snoc.
  - split; [split; cbn; rewrite ?viewer_snoc; cbn; rewrite ?shown_of|].
    + intros id m [[<- <-]|[Hne Hm]]%lookup_insert_Some; [by rewrite lookup_insert_eq|]. rewrite lookup_insert_ne by done. by apply H1.
    + intros id. destruct (decide (h = id)) as [->|Hne]; [by rewrite !lookup_insert_eq|]. rewrite !lookup_insert_ne by done. apply H2.
    + unfold sent_images in *. rewrite omap_app. cbn. split.
      * apply NoDup_app. split_and!; [done| |apply NoDup_singleton]. intros id Hid ->%list_elem_of_singleton.
        destruct (H2 h (H4 h Hid)) as [x Hx]. congruence.
      * intros id [Hid| ->%list_elem_of_singleton]%elem_of_app; [|by rewrite lookup_insert_eq].
        destruct (decide (h = id)) as [->|Hne]; [by rewrite lookup_insert_eq|]. rewrite lookup_insert_ne by done. by apply H4.
    + cbn. rewrite viewer_snoc. cbn. by rewrite shown_of.
Qed.

Definition shows (c : StateCursor) (s : MouseCursorSub) : Prop :=
  match cursor_msg c with NoCursor => shown (viewer (got s)) = None | _ => shown (viewer (got s)) = Some (cursor_of (hcursor c)) end.

Record cursor_ok (s : MouseCursorService) : Prop := {
  ok_state : cursor_msg (st s) = NoCursor /\ hcursor (st s) = 0 \/ cursor_msg (st s) = msg_of (hcursor (st s));
  ok_cache : forall h m, cached_cursor_data (st s) !! h = Some m -> m = msg_of h;
  ok_subs : map_Forall (fun _ x => sub_ok x /\ shows (st s) x) (subs s);
  ok_new : map_Forall (fun _ x => x = new_sub) (new_subs s) }.

Lemma update_spec first second c : of_server first -> of_server second ->
  (cursor_msg c = NoCursor /\ hcursor c = 0 \/ cursor_msg c = msg_of (hcursor c)) ->
  (forall h m, cached_cursor_data c !! h = Some m -> m = msg_of h) ->
  match update_cursor first second c with
  | None => True
  | Some (c', msg) =>
      (cursor_msg c' = NoCursor /\ hcursor c' = 0 \/ cursor_msg c' = msg_of (hcursor c')) /\
      (forall h m, cached_cursor_data c' !! h = Some m -> m = msg_of h) /\
      match msg with Some m => m = msg_of (hcursor c') /\ cursor_msg c' = m | None => c' = c end
  end.
Proof.
  intros Hf Hs Hc Hcache. unfold update_cursor, get_cursor. destruct Hf as [->|[h ->]]; cbn [fmap option_fmap option_map]; [done|].
  rewrite image_serial. destruct (Z.eqb_spec h (hcursor c)) as [|Hne]; [done|].
  destruct (cached_cursor_data c !! h) as [m|] eqn:Em; [apply Hcache in Em as ->; cbn; auto|].
  unfold get_cursor_data. destruct Hs as [->|[k ->]]; [done|]. rewrite image_serial. destruct (Z.eqb_spec h k) as [<-|]; [|done].
  change (mkCursor h _ _ _ _ _) with (cursor_of h). change (MCursorData (compress_colors (cursor_of h))) with (msg_of h). cbn.
  split_and!; [by right| |done|done]. intros h' m [[<- <-]|[_ Hm]]%lookup_insert_Some; [done|by apply Hcache].
Qed.

Lemma shows_msg c h s : cursor_msg c = msg_of h -> hcursor c = h -> shows c s <-> shown (viewer (got s)) = Some (cursor_of h).
Proof. intros Hm Hh. unfold shows. rewrite Hm, Hh. done. Qed.

Lemma turn_ok first second s : of_server first -> of_server second -> cursor_ok s -> cursor_ok (snd (run_cursor first second s)).
Proof.
  intros Hf Hs [H1 H2 H3 H4]. unfold run_cursor. pose proof (update_spec first second (st s) Hf Hs H1 H2) as Hu.
  destruct (update_cursor first second (st s)) as [[c msg]|]; [|done]. destruct Hu as (Hc & Hcache & Hmsg). cbn.
  set (all := match msg with Some m => sub_send m <$> subs s | None => subs s end).
  assert (Hall : map_Forall (fun _ x => sub_ok x /\ shows c x) all).
  { unfold all. destruct msg as [m|]; [|by subst c]. destruct Hmsg as [-> Hm]. apply map_Forall_fmap. intros id x Hx.
    destruct (H3 id x Hx) as [Hx1 _]. apply (sub_send_image _ (hcursor c)) in Hx1 as [? ?]. split; [done|]. by apply (shows_msg _ (hcursor c)). }
  split; cbn; [done|done| |apply map_Forall_empty].
  apply map_Forall_union_2; [|exact Hall]. apply map_Forall_fmap. intros id x Hx. cbn. rewrite (H4 id x Hx).
  destruct Hc as [[Hm _]|Hm].
  - rewrite Hm. split; [apply sub_send_nothing, new_sub_ok|]. unfold shows. by rewrite Hm.
  - rewrite Hm. pose proof (sub_send_image new_sub (hcursor c) new_sub_ok) as [? ?]. split; [done|]. by apply (shows_msg _ (hcursor c)).
Qed.

Lemma cursor_reaches_ok s : cursor_reaches s -> cursor_ok s.
Proof.
  induction 1 as [|s f g Hr IH Hf Hg _|s id Hr [H1 H2 H3 H4]|s id Hr [H1 H2 H3 H4]|s Hr [H1 H2 H3 H4] Hs Hn].
  - split; cbn; [by left|done|apply map_Forall_empty|apply map_Forall_empty].
  - by apply turn_ok.
  - unfold cursor_subscribe. destruct (subs s !! id) eqn:E; [by split|]. split; cbn; try done. by apply map_Forall_insert_2.
  - unfold cursor_unsubscribe. destruct (subs s !! id) eqn:E; split; cbn; try done; by apply map_Forall_delete.
  - split; cbn; [by left|done|rewrite Hs; apply map_Forall_empty|rewrite Hn; apply map_Forall_empty].
Qed.

End Cursor.


(** ** The position, and the display with the focus *)

Definition INVALID_CURSOR_POS : Z := - 2 ^ 31.
Definition INVALID_DISPLAY_IDX : Z := -1.

Record StatePos : Type := mkStatePos { cursor_pos : Z * Z }.
Definition default_pos : StatePos := mkStatePos (INVALID_CURSOR_POS, INVALID_CURSOR_POS).

Definition pos_is_valid (s : StatePos) : bool := negb (fst (cursor_pos s) =? INVALID_CURSOR_POS).
Definition is_moved (x y : Z) (s : StatePos) : bool :=
  pos_is_valid s && (negb (fst (cursor_pos s) =? x) || negb (snd (cursor_pos s) =? y)).

(** [update_last_cursor_pos]: when the cursor was last seen to move, and where. *)
Definition update_last_cursor_pos (now : Z) (x y : Z) (l : option Z * (Z * Z)) : option Z * (Z * Z) :=
  if negb (fst (snd l) =? x) || negb (snd (snd l) =? y) then (Some now, (x, y)) else l.

(** The peer whose event moved the cursor last, and when ([LATEST_PEER_INPUT_CURSOR]). *)
Record LatestInput : Type := mkLatest { li_conn : Z; li_time : Z; li_x : Z; li_y : Z }.

(** One turn: who is told where the cursor is. *)
Definition run_pos (sys : Z * Z) (latest : LatestInput) (now : Z) (subs : gset Z) (s : StatePos) : option (Z * Z * gset Z) * StatePos :=
  let '(x, y) := sys in
  if (x =? INVALID_CURSOR_POS) || (y =? INVALID_CURSOR_POS) then (None, s)
  else
    let exclude := if now - li_time latest <? 300 then li_conn latest else 0 in
    (if is_moved x y s then Some (x, y, subs ∖ {[exclude]}) else None, mkStatePos (x, y)).

(** A move is told to every peer but the one who made it, within the last 0.3 seconds. *)
Theorem moves_are_told sys latest now subs s x y to :
  fst (run_pos sys latest now subs s) = Some (x, y, to) ->
  sys = (x, y) /\ cursor_pos s <> (x, y) /\
  forall id, id <> 0 -> (id ∈ to <-> id ∈ subs /\ ~ (id = li_conn latest /\ now - li_time latest < 300)).
Proof.
  unfold run_pos. destruct sys as [x' y']. destruct (_ || _); [done|]. cbn [fst]. destruct (is_moved x' y' s) eqn:Em; [|done].
  intros [= <- <- <-]. split; [done|]. split.
  - intros He. unfold is_moved in Em. rewrite He in Em. cbn in Em. rewrite !Z.eqb_refl in Em. by rewrite andb_false_r in Em.
  - intros id Hid. rewrite elem_of_difference, elem_of_singleton. destruct (Z.ltb_spec (now - li_time latest) 300); [naive_solver|].
    split; [intros [? _]; split; [done|lia]|naive_solver].
Qed.

(** The display of the focused window; what peers that follow it are told. *)
Definition run_window_focus (displays : nat) (focused : option Z) (idx : Z) : option Z * Z :=
  if (displays <=? 1)%nat then (None, idx)
  else match focused with
  | None => (None, idx)
  | Some d => (if negb (idx =? INVALID_DISPLAY_IDX) && negb (idx =? d) then Some d else None, d)
  end.
