(* ===== verification/InputMouse.v ===== *)
(** * Mouse events of a peer (src/server/input_service.rs, over enigo on X11)

    Moves, buttons and the wheel ([handle_mouse_simulation_]), the modifiers that go with a
    button, and the peers that move the mouse relatively. *)

From stdpp Require Import gmap.
From S2P Require Import Prelude Messages TypedText InputKeys InputSafe InputModifiers CursorService.

Definition MOUSE_TYPE_MOVE : Z := 0.
Definition MOUSE_TYPE_DOWN : Z := 1.
Definition MOUSE_TYPE_UP : Z := 2.
Definition MOUSE_TYPE_WHEEL : Z := 3.
Definition MOUSE_TYPE_TRACKPAD : Z := 4.
Definition MOUSE_TYPE_MOVE_RELATIVE : Z := 5.
Definition MOUSE_TYPE_MASK : Z := 7.
Definition MOUSE_BUTTON_LEFT : Z := 1.
Definition MAX_RELATIVE_MOUSE_DELTA : Z := 10000.

Inductive MouseButton : Type := BLeft | BMiddle | BRight | BBack | BForward | ScrollUp | ScrollDown | ScrollLeft | ScrollRight.

#[export] Instance mouse_button_eq_dec : EqDecision MouseButton.
Proof. solve_decision. Defined.

Definition button_of (buttons : Z) : option MouseButton :=
  if buttons =? 1 then Some BLeft else if buttons =? 2 then Some BRight else if buttons =? 4 then Some BMiddle
  else if buttons =? 8 then Some BBack else if buttons =? 16 then Some BForward else None.

(** What the X server is asked to do; a button that is clicked, so many times. *)
Inductive MouseOp : Type := MoveTo (x y : Z) | MoveRelative (dx dy : Z) | ButtonDown (b : MouseButton) | ButtonUp (b : MouseButton) | Clicks (b : MouseButton) (n : Z).

(** [mouse_scroll_x] and [mouse_scroll_y] of enigo over xdo. *)
Definition mouse_scroll (back forth : MouseButton) (length : Z) : MouseOp :=
  let button := if length <? 0 then back else forth in
  let length := if length <? 0 then swrap 32 (- length) else length in
  Clicks button (Z.max 0 length).
Definition mouse_scroll_x : Z -> MouseOp := mouse_scroll ScrollLeft ScrollRight.
Definition mouse_scroll_y : Z -> MouseOp := mouse_scroll ScrollUp ScrollDown.

Definition wheel_ops (evt : MouseEvent) : list MouseOp :=
  let x := swrap 32 (- mouse_x evt) in
  let y := swrap 32 (- mouse_y evt) in
  (if y =? 0 then [] else [mouse_scroll_y y]) ++ (if x =? 0 then [] else [mouse_scroll_x x]).

Definition clamp_delta (d : Z) : Z := Z.max (- MAX_RELATIVE_MOUSE_DELTA) (Z.min d MAX_RELATIVE_MOUSE_DELTA).

Definition evt_type (evt : MouseEvent) : Z := Z.land (mask evt) MOUSE_TYPE_MASK.
Definition buttons (evt : MouseEvent) : Z := Z.shiftr (mask evt) 3.

Section Mouse.
Context {En : Type} `{!KeyboardControllable En}.
Variable e : InputEnv.

(** [RELATIVE_MOUSE_CONNS] and [LATEST_PEER_INPUT_CURSOR], with the keys. *)
Record MouseState : Type := mkMouseState { keys : Input En; relative : gset Z; latest : LatestInput }.

Definition set_relative_mouse_active (conn : Z) (active : bool) (s : MouseState) : MouseState :=
  mkMouseState (keys s) (if active then {[conn]} ∪ relative s else relative s ∖ {[conn]}) (latest s).
Definition is_relative_mouse_active (conn : Z) (s : MouseState) : bool := bool_decide (conn ∈ relative s).
Definition clear_relative_mouse_active (conn : Z) : MouseState -> MouseState := set_relative_mouse_active conn false.
Definition set_latest (l : LatestInput) (s : MouseState) : MouseState := mkMouseState (keys s) (relative s) l.
(** [update_latest_input_cursor_time]. *)
Definition update_latest_input_cursor_time (conn now : Z) (s : MouseState) : MouseState :=
  set_latest (mkLatest conn now (li_x (latest s)) (li_y (latest s))) s.

Definition is_lock_key (k : Key) : bool := bool_decide (k = KCapsLock) || bool_decide (k = KNumLock).

Definition press_mouse_modifiers (evt : MouseEvent) (n : En) : En * list Key :=
  if evt_type evt =? MOUSE_TYPE_DOWN
  then foldl (press_modifier is_lock_key) (fix_modifiers (mouse_modifiers evt) 0 n, []) (mouse_modifiers evt) else (n, []).

(** What is done with the mouse itself; [cursor]: where it is after a relative move. *)
Definition mouse_op (cursor : option (Z * Z)) (evt : MouseEvent) (conn : Z) (s : MouseState) : list MouseOp * MouseState :=
  let t := evt_type evt in
  if t =? MOUSE_TYPE_MOVE then
    ([MoveTo (mouse_x evt) (mouse_y evt)],
     set_latest (mkLatest conn (now_ms e) (mouse_x evt) (mouse_y evt)) (set_relative_mouse_active conn false s))
  else if t =? MOUSE_TYPE_MOVE_RELATIVE then
    let s := set_relative_mouse_active conn true s in
    ([MoveRelative (clamp_delta (mouse_x evt)) (clamp_delta (mouse_y evt))],
     match cursor with Some (x, y) => set_latest (mkLatest conn (now_ms e) x y) s | None => s end)
  else if t =? MOUSE_TYPE_DOWN then (match button_of (buttons evt) with Some b => [ButtonDown b] | None => [] end, s)
  else if t =? MOUSE_TYPE_UP then (match button_of (buttons evt) with Some b => [ButtonUp b] | None => [] end, s)
  else if (t =? MOUSE_TYPE_WHEEL) || (t =? MOUSE_TYPE_TRACKPAD) then (wheel_ops evt, s)
  else ([], s).

Definition handle_mouse_simulation_ (cursor : option (Z * Z)) (evt : MouseEvent) (conn : Z) (s : MouseState) : list MouseOp * MouseState :=
  if exiting (keys s) then ([], s)
  else
    let '(n, to_release) := press_mouse_modifiers evt (en (keys s)) in
    let '(ops, s) := mouse_op cursor evt conn (mkMouseState (with_en n (keys s)) (relative s) (latest s)) in
    (ops, mkMouseState (release_keys to_release (keys s)) (relative s) (latest s)).

(** [handle_mouse_show_cursor_]: where a peer's cursor is drawn, and with which buttons. *)
Definition handle_mouse_show_cursor_ (evt : MouseEvent) (s : MouseState) : option (Z * Z * Z) :=
  if evt_type evt =? MOUSE_TYPE_MOVE then Some (mouse_x evt, mouse_y evt, 0)
  else if (evt_type evt =? MOUSE_TYPE_UP) && (buttons evt =? MOUSE_BUTTON_LEFT) then
    if (mouse_x evt =? 0) && (mouse_y evt =? 0) then Some (li_x (latest s), li_y (latest s), buttons evt)
    else Some (mouse_x evt, mouse_y evt, buttons evt)
  else None.

Definition handle_mouse_ (cursor : option (Z * Z)) (evt : MouseEvent) (conn : Z) (simulate show_cursor : bool) (s : MouseState)
  : list MouseOp * option (Z * Z * Z) * MouseState :=
  let '(ops, s) := if simulate then handle_mouse_simulation_ cursor evt conn s else ([], s) in
  (ops,
   if show_cursor && negb (is_relative_mouse_active conn s) && negb (evt_type evt =? MOUSE_TYPE_MOVE_RELATIVE)
   then handle_mouse_show_cursor_ evt s else None, s).

(** ** What is asked of the X server *)

Lemma swrap_32 a : - 2 ^ 31 <= a < 2 ^ 31 -> swrap 32 a = a.
Proof.
  intros Ha. unfold swrap. assert (Hm : a mod 2 ^ 32 = if a <? 0 then a + 2 ^ 32 else a).
  { destruct (Z.ltb_spec a 0); [|by apply Z.mod_small; lia]. symmetry. apply (Z.mod_unique_pos _ _ (-1)); lia. }
  rewrite Hm. destruct (Z.ltb_spec a 0); [destruct (Z.ltb_spec (a + 2 ^ 32) (2 ^ (32 - 1)))|destruct (Z.ltb_spec a (2 ^ (32 - 1)))]; lia.
Qed.

Lemma scroll_spec back forth d op : - 2 ^ 31 < d < 2 ^ 31 ->
  op ∈ (if swrap 32 (- d) =? 0 then [] else [mouse_scroll back forth (swrap 32 (- d))]) ->
  exists b, op = Clicks b (Z.abs d) /\ d <> 0 /\ b = if 0 <? d then back else forth.
Proof.
  intros Hd. rewrite (swrap_32 (- d)) by lia. destruct (Z.eqb_spec (- d) 0) as [|Hz]; [by intros ?%not_elem_of_nil|].
  intros ->%list_elem_of_singleton. unfold mouse_scroll. destruct (Z.ltb_spec (- d) 0), (Z.ltb_spec 0 d); try lia.
  - rewrite swrap_32 by lia. eexists. split; [f_equal; lia|split; [lia|done]].
  - eexists. split; [f_equal; lia|split; [lia|done]].
Qed.

(** Whatever a peer sends, one event moves the mouse at most 10,000 points relatively, and the
    wheel turns as far as it says, in the direction it says. *)
Theorem mouse_is_bounded cursor evt conn s op :
  - 2 ^ 31 < mouse_x evt < 2 ^ 31 -> - 2 ^ 31 < mouse_y evt < 2 ^ 31 -> op ∈ fst (handle_mouse_simulation_ cursor evt conn s) ->
  match op with
  | MoveRelative dx dy => Z.abs dx <= MAX_RELATIVE_MOUSE_DELTA /\ Z.abs dy <= MAX_RELATIVE_MOUSE_DELTA
  | Clicks b n => 0 < n /\
      (n = Z.abs (mouse_x evt) /\ b = (if 0 <? mouse_x evt then ScrollLeft else ScrollRight) \/
       n = Z.abs (mouse_y evt) /\ b = (if 0 <? mouse_y evt then ScrollUp else ScrollDown))
  | _ => True
  end.
Proof.
  intros Hx Hy. unfold handle_mouse_simulation_. destruct (exiting (keys s)); [by intros ?%not_elem_of_nil|].
  destruct (press_mouse_modifiers evt (en (keys s))) as [n rel]. unfold mouse_op.
  destruct (evt_type evt =? MOUSE_TYPE_MOVE); [by intros ->%list_elem_of_singleton|].
  destruct (evt_type evt =? MOUSE_TYPE_MOVE_RELATIVE).
  { intros ->%list_elem_of_singleton. unfold clamp_delta, MAX_RELATIVE_MOUSE_DELTA. lia. }
  destruct (evt_type evt =? MOUSE_TYPE_DOWN); [cbn; destruct (button_of _); [by intros ->%list_elem_of_singleton|by intros ?%not_elem_of_nil]|].
  destruct (evt_type evt =? MOUSE_TYPE_UP); [cbn; destruct (button_of _); [by intros ->%list_elem_of_singleton|by intros ?%not_elem_of_nil]|].
  destruct (_ || _); [|by intros ?%not_elem_of_nil]. cbn [fst]. unfold wheel_ops. intros [Hin|Hin]%elem_of_app.
  - apply (scroll_spec _ _ _ _ Hy) in Hin as (b & -> & Hz & ->). split; [lia|by right].
  - apply (scroll_spec _ _ _ _ Hx) in Hin as (b & -> & Hz & ->). split; [lia|by left].
Qed.

(** Who moves the mouse relatively is who did so last. *)
Theorem relative_mode_follows_moves cursor evt conn conn' s :
  exiting (keys s) = false ->
  is_relative_mouse_active conn' (snd (handle_mouse_simulation_ cursor evt conn s)) =
    if bool_decide (conn' = conn) && (evt_type evt =? MOUSE_TYPE_MOVE) then false
    else if bool_decide (conn' = conn) && (evt_type evt =? MOUSE_TYPE_MOVE_RELATIVE) then true
    else is_relative_mouse_active conn' s.
Proof.
  intros Hx. unfold handle_mouse_simulation_. rewrite Hx. destruct (press_mouse_modifiers evt (en (keys s))) as [n rel].
  unfold mouse_op, is_relative_mouse_active.
  destruct (evt_type evt =? MOUSE_TYPE_MOVE).
  { cbn. rewrite andb_true_r. destruct (bool_decide_reflect (conn' = conn)) as [->|Hne]; cbn [andb].
    - apply bool_decide_eq_false. set_solver.
    - apply bool_decide_ext. set_solver. }
  rewrite andb_false_r. destruct (evt_type evt =? MOUSE_TYPE_MOVE_RELATIVE).
  { rewrite andb_true_r. destruct cursor as [[x y]|]; cbn; (destruct (bool_decide_reflect (conn' = conn)) as [->|Hne]; cbn [andb];
      [apply bool_decide_eq_true; set_solver|apply bool_decide_ext; set_solver]). }
  rewrite andb_false_r. destruct (evt_type evt =? MOUSE_TYPE_DOWN); [done|]. destruct (evt_type evt =? MOUSE_TYPE_UP); [done|]. by destruct (_ || _).
Qed.

(** ** Buttons with modifiers *)

Context `{!KeyboardLaws En}.

(** A button goes down with exactly the modifiers of its event, and none that was not down
    before outlasts it. *)
Theorem clicked_with_its_modifiers cursor evt conn s k0 l r :
  evt_type evt = MOUSE_TYPE_DOWN -> exiting (keys s) = false -> (k0, l, r) ∈ GROUPS ->
  (mod_down l r (fst (press_mouse_modifiers evt (en (keys s)))) <-> asked (mouse_modifiers evt) l r) /\
  (mod_down l r (en (keys (snd (handle_mouse_simulation_ cursor evt conn s)))) -> mod_down l r (en (keys s))).
Proof.
  intros Ht Hx Hg. set (n1 := fix_modifiers (mouse_modifiers evt) 0 (en (keys s))).
  assert (Hpm : press_mouse_modifiers evt (en (keys s)) = foldl (press_modifier is_lock_key) (n1, []) (mouse_modifiers evt))
    by (unfold press_mouse_modifiers; by rewrite Ht).
  unfold handle_mouse_simulation_, mouse_op. rewrite Hx, Hpm, Ht.
  change (MOUSE_TYPE_DOWN =? MOUSE_TYPE_MOVE) with false. change (MOUSE_TYPE_DOWN =? MOUSE_TYPE_MOVE_RELATIVE) with false. rewrite Z.eqb_refl.
  pose proof (press_modifiers_spec is_lock_key (mouse_modifiers evt) ltac:(intros k Hk; by apply modifier_no_lock) n1 [] k0 l r Hg) as Hp.
  pose proof (press_modifiers_held is_lock_key (mouse_modifiers evt) n1 []) as Hh.
  destruct (foldl _ _ _) as [n rel]. cbn [fst] in *. destruct Hh as [_ Hh]. split.
  - rewrite Hp. unfold n1. rewrite fix_as_pairs by (intros own k1 k; by apply zero_not_fixed).
    rewrite (fix_pairs_spec _ GROUPS _ k0 l r) by done. split; [|auto]. intros [[_ Hm]|?]; [|done]. by apply (asked_own k0), Hm.
  - assert (Hone : forall c, c ∈ held (foldl (fun n k => en_key_up k n) n rel) -> c ∈ held (en (keys s))).
    { intros c [Hc Hk]%release_keys_held. destruct (Hh c Hc) as [H|(k & Hin & Hkc)]; [by apply quiet_fix in H|by destruct (Hk k Hin)]. }
    unfold mod_down, release_keys, on_en. cbn. intros [H|H]; [left|right]; by apply Hone.
Qed.
End Mouse.
